(* ===== verification/_CoqProject ===== *)
-Q . S2P
Prelude.v
Pic.v
Cpu.v
Machine.v
Apic.v
ApicFacts.v
ApicBus.v
ApicTimer.v
Wiring.v
Ioapic.v
IoapicFacts.v
System.v
Cc.v
CcFacts.v
Mem.v
Exec.v
Mmu.v
MmuFacts.v
MmuSafe.v
ExcFacts.v
Int.v
IntFacts.v
Keeps.v
Quiet.v
Bpt.v
BptFacts.v
Ctl.v
Svm.v
Smm.v
Seg.v
Uintr.v
Intr.v
Vmrun.v
Msr.v
Far.v
VMem.v
UintrFacts.v
UintrSend.v
KeepsMem.v
Sync.v
SyncAll.v
Scf.v
ScfFacts.v
Kernel.v
Switch.v
SwitchFacts.v
Register.v
RegisterFacts.v
Paging.v
PagingTree.v
PagingFacts.v
Aspace.v
Uaccess.v
Regions.v
Spaces.v
Loading.v
AspaceFacts.v
KernelSpace.v
Task.v
TaskFacts.v
TaskSpaces.v
UserMem.v
TaskRuns.v
ProcessFacts.v
