(* ===== verification/Prelude.v ===== *)
(** * A kernel with user interrupts, and the processor that delivers them

    ** The program

    The system is a PC emulator extended with x86 user interrupts (a QEMU fork,
    src/qemu-uintr) and a small Rust kernel that uses them (NimbOS, src/nimbos).
    The kernel runs next to Linux: system calls it cannot serve are forwarded
    through shared memory to a Linux process (src/nimbos-driver).  The
    development covers the path of an interrupt from a device line or a
    [senduipi] instruction to the handler and back, the processor state that
    path reads and writes, and the parts of the kernel that prepare it.  Paths
    under hw/ and target/ below are relative to src/qemu-uintr, paths under
    kernel/ to src/nimbos.

    ** The models

    A pure C or Rust function is a Rocq function.  Code that changes state
    takes the state and returns it; [Machine] (Machine.v) is the state of the
    PC: the local APICs and their processors, the two 8259 chips, the I/O APICs,
    physical memory (a map from addresses to bytes), the clock, and whether a
    failed assertion has stopped the emulator.  A helper of
    the processor that can raise an exception is a program of the monad [X]
    (Exec.v): it returns, leaves the execution loop with the exception recorded
    in the processor state, or aborts the emulator.  Machine integers are
    integers [Z] with their wrap-around written out ([u8], [u16], [u32], [u64],
    [s32], [s64] below).

    - Interrupt controllers.  Pic.v: the 8259 (hw/intc/i8259.c), written against
      the class [PicWorld] of what a chip is connected to; Wiring.v instantiates
      it for the pair on the board (hw/i386/x86.c).  Apic.v: the local APIC
      (hw/intc/apic.c, apic_common.c); Ioapic.v: the I/O APIC
      (hw/intc/ioapic.c), against the class [MsiSink] of where its messages go;
      System.v closes the loop between the two.
    - The processor.  Cpu.v: the registers (target/i386/cpu.h).  Cc.v: the lazily
      computed flags (tcg/cc_helper.c).  Exec.v: exceptions (tcg/excp_helper.c).
      Mmu.v: page walks and memory accesses (tcg/sysemu/excp_helper.c).  Bpt.v:
      debug registers.  Ctl.v: control registers and the cached flags (helper.c).
      Seg.v, Intr.v, Far.v: descriptors, task switches, interrupt delivery and
      far transfers (tcg/seg_helper.c).  Svm.v, Vmrun.v, Smm.v: guests and
      system management mode.  Msr.v: the register-access instructions.  Int.v:
      division, decimal adjustment, rotation through carry and bit scatter and
      gather (tcg/int_helper.c, tcg/shift_helper_template.h).
    - User interrupts.  Uintr.v: the posted descriptor (UPID) and the target
      table (UITT) in guest memory, the instructions and the delivery
      (tcg/seg_helper.c, tcg/misc_helper.c).
    - The kernel.  Kernel.v: the instructions kernel code is made of.  Switch.v:
      the context switch (kernel/src/arch/x86_64/context.rs), instruction by
      instruction.  Register.v: the system calls that register senders and
      handlers (kernel/src/syscall/uintr.rs).  Paging.v: page tables and the
      frame allocator (kernel/src/mm, kernel/src/utils).  Aspace.v: address
      spaces made of areas, their copies, the loading of programs, and the
      kernel's own (kernel/src/mm/memory_set.rs).  Uaccess.v: the bytes of a
      program's memory and the kernel's checked copies from and to them
      (kernel/src/mm/uaccess.rs).  Task.v: tasks, their parents and children, the
      ready queue, the calls that make, end and await tasks with the pointers they
      take (kernel/src/task, kernel/src/syscall/task.rs, mod.rs), and the writes
      of programs to their own memory.  Scf.v: the forwarding queue, both the
      kernel's side and the process's side, as a step relation, with the assertion
      that ends the process (kernel/src/scf/queue.rs,
      src/nimbos-driver/apps/libs).

    ** What is proved

    - User interrupts end to end (UintrSend.v, UintrFacts.v): a [senduipi] on one
      processor makes another enter its handler with the vector on the stack;
      delivery followed by [uiret] resumes the program.
    - The kernel prepares the hardware: after the registration calls [senduipi]
      does what was registered (RegisterFacts.v); a task switched away from and
      back to keeps its callee-saved registers, its user-interrupt flag and the
      user-interrupt registers that the switch saves (SwitchFacts.v);
      the page tables implement a finite map from pages to frames, and the
      processor's walk finds what the map promises (PagingTree.v,
      PagingFacts.v); the forwarding queue implements a first-in-first-out
      specification, and the kernel's side survives the end of the process
      (ScfFacts.v).
    - Processes: a loaded program sees its file, a copy looks like its original
      and shares nothing with it, and what is dropped leaves no trace
      (AspaceFacts.v, on Regions.v, Spaces.v and Loading.v); the kernel's own
      sections get the rights of their parts (KernelSpace.v); from the start of
      the kernel on no sequence of calls and of writes to memory, within what the
      code takes for granted, panics or loses a frame, memory is private, children
      that end are reaped once, and the scheduler is fair (ProcessFacts.v, on
      TaskFacts.v for the table of tasks, TaskSpaces.v for their memory, UserMem.v
      for accesses to it and TaskRuns.v for all).
    - Invariants of the processor: the cached flags agree with their registers
      after any sequence of helpers (Keeps.v, KeepsMem.v, Quiet.v, Sync.v,
      SyncAll.v); translation in long mode implements a reference walk and
      is stable (MmuFacts.v), and in every mode fails no assertion but the one on
      probes that fault (MmuSafe.v), with Mem.v and VMem.v for memory; flags, breakpoints and nested exceptions are the architectural
      ones (CcFacts.v, BptFacts.v, ExcFacts.v); division and rotation compute
      what they are meant to, scatter and gather are inverse (IntFacts.v).
    - The controllers: the local APIC implements sets of requested and in-service
      vectors (ApicFacts.v), messages reach exactly their destinations
      (ApicBus.v), the timer fires when its count says (ApicTimer.v), the I/O APIC
      strands no interrupt, sends one message for each level it serves, and
      acknowledges the 8259 even for masked ExtINT pins (IoapicFacts.v), the 8259
      resolves priorities and its output follows them but for the writes that
      change the mode (Pic.v), and a device line reaches the vector programmed for
      it, unless the reserved byte of the entry turns the message into a register
      write (System.v, Wiring.v).

    ** Bounds

    Loops of the code have their own bound as recursion argument: words of a
    vector register, APICs of the machine, bits of a byte or word.  The priority
    loop of the 8259 gets 8 steps, enough because the mask has a bit among 8
    ([get_priority_loop_exits] in Pic.v).  The mutual recursion of local and I/O
    APIC has a depth; System.v shows that every depth gives the same machine.
    The draining of responses gets one step more than the queue has descriptors;
    ScfFacts.v shows that it then ends with the queue empty.  The loops over an
    area get one round for each page and one more, the loop that writes data one
    for each byte, scatter and gather one for each bit; the theorems on them
    state that the work is done.

    ** Parameters

    The shift [1 << vector] of [senduipi] is undefined in C for vectors of 32 and
    above; its result there is an argument, as is what the uninitialised local of
    [get_hphys2] holds.  The addresses memory allocators give, the
    APIC identity the kernel reads and the values forwarded system calls return
    are arguments.  So are the quotient of the least integer by -1, the random
    number a guest draws, the ELF reader, the programs linked with the kernel,
    the addresses of the kernel's sections and the memory of the board.

    ** Not modelled

    The translator and its TLB: an access is translated each time, as after a
    flush; instructions outside the helpers (simple arithmetic, floating point,
    string and vector instructions, bound checks); memory-mapped devices other
    than the interrupt controllers; CPUID; migration and the rest of the
    emulator, which is I/O and host integration.  Of the kernel: traps, drivers,
    copies of buffers from user memory and the forwarded calls themselves, which are
    dispatch around the modelled parts or rely on third-party crates; locks are
    assumed to work, an operation on tasks is one step, and there is one
    processor, as in the code.  The hypervisor (src/RVM1.5),
    the Linux modules (src/jailhouse, src/nimbos-driver/driver) and the reports
    have no model: they drive hardware or host interfaces. *)
From stdpp Require Export base gmap list numbers tactics.
From Stdlib Require Export ZArith Lia Bool.
#[export] Set Warnings "-notation-overridden".
Global Open Scope Z_scope.

(** ** Functional record update

    [s <| f := v |>] is the C assignment [s.f = v].  A record declares its
    eta-expansion once ([Eta]); [derive_setter] then computes the update of one
    projection from it. *)
Class Eta (R : Type) := eta : R -> R.
Class Setter {R T : Type} (proj : R -> T) := set_field : T -> R -> R.
Arguments set_field {R T} proj {_} v r : rename.

Ltac derive_setter :=
  lazymatch goal with
  | |- @Setter ?R ?T ?p =>
      let e := constr:(@eta R _) in
      lazymatch e with
      | @eta _ ?i =>
          let b := eval cbv delta [i] in i in
          let q := eval pattern p in b in
          lazymatch q with
          | ?f _ =>
              let t := constr:(fun (v : T) (r : R) => f (fun _ : R => v) r) in
              let t' := eval cbv beta in t in
              exact t'
          end
      end
  end.

Declare Scope upd_scope.
#[warnings="-postfix-notation-not-level-1"]
Notation "r <| f := v |>" := (set_field f v r)
  (at level 12, left associativity, f at level 0, v at level 99,
   format "r  <| f  :=  v |>") : upd_scope.
Global Open Scope upd_scope.

(** ** Fixed-width integers

    An [n]-bit unsigned C integer is a [Z] in [0, 2^n); [u8] ... [u64] are the
    conversions C performs on assignment and on casts, [s32]/[s64] the
    conversions to the signed types. *)
Definition wrap (n x : Z) : Z := x mod 2 ^ n.
Definition swrap (n x : Z) : Z :=
  let y := x mod 2 ^ n in if y <? 2 ^ (n - 1) then y else y - 2 ^ n.
Abbreviation u8 := (wrap 8).
Abbreviation u16 := (wrap 16).
Abbreviation u32 := (wrap 32).
Abbreviation u64 := (wrap 64).
Abbreviation s32 := (swrap 32).
Abbreviation s64 := (swrap 64).

(** C truth value of an integer, and C's 0/1 result of a test. *)
Definition nz (x : Z) : bool := negb (x =? 0).
Definition b2z (b : bool) : Z := if b then 1 else 0.

(** [x & ~m] *)
Abbreviation clr x m := (Z.land x (Z.lnot m)).
(** [1 << k] *)
Abbreviation bit k := (Z.shiftl 1 k).

(** ** Ranges *)
Definition is_u (n x : Z) : Prop := 0 <= x < 2 ^ n.

Lemma wrap_range n x : 0 <= n -> is_u n (wrap n x).
Proof. intros. unfold is_u, wrap. apply Z.mod_pos_bound. lia. Qed.

Lemma wrap_small n x : is_u n x -> wrap n x = x.
Proof. apply Z.mod_small. Qed.

Lemma u64_small x : 0 <= x < 2 ^ 64 -> u64 x = x.
Proof. apply wrap_small. Qed.

Lemma swrap_small n x : 0 < n -> - 2 ^ (n - 1) <= x < 2 ^ (n - 1) -> swrap n x = x.
Proof.
  intros Hn Hx. unfold swrap. cbv zeta.
  assert (E : 2 ^ n = 2 * 2 ^ (n - 1)) by (rewrite <-Z.pow_succ_r by lia; f_equal; lia).
  rewrite E. set (h := 2 ^ (n - 1)) in *. assert (0 < h) by (apply Z.pow_pos_nonneg; lia).
  destruct (decide (0 <= x)).
  - rewrite Z.mod_small by lia. destruct (Z.ltb_spec x h); lia.
  - replace (x mod (2 * h)) with (x + 2 * h).
    + destruct (Z.ltb_spec (x + 2 * h) h); lia.
    + apply (Z.mod_unique_pos _ _ (-1)); lia.
Qed.

Lemma wrap_testbit n x i :
  0 <= n -> Z.testbit (wrap n x) i = (i <? n) && Z.testbit x i.
Proof.
  intros Hn. unfold wrap.
  destruct (Z.ltb_spec i n) as [Hi|Hi]; simpl.
  - destruct (Z.ltb_spec i 0).
    + by rewrite !Z.testbit_neg_r by lia.
    + by rewrite Z.mod_pow2_bits_low.
  - by rewrite Z.mod_pow2_bits_high.
Qed.

Lemma is_u_testbit_high n x i : is_u n x -> n <= i -> Z.testbit x i = false.
Proof.
  intros Hx Hi. destruct (Z.ltb_spec n 0).
  - exfalso. destruct Hx. rewrite Z.pow_neg_r in * by lia. lia.
  - rewrite <-(wrap_small n x), wrap_testbit by (done || lia).
    by destruct (Z.ltb_spec i n); [lia|].
Qed.

Lemma testbit_true_range n x i : is_u n x -> Z.testbit x i = true -> 0 <= i < n.
Proof.
  intros Hx Hi. destruct (Z.ltb_spec i 0); [by rewrite Z.testbit_neg_r in Hi|].
  destruct (Z.leb_spec n i); [|lia].
  by rewrite (is_u_testbit_high n) in Hi.
Qed.

Lemma is_u_nonneg n x : is_u n x -> 0 <= x.
Proof. by intros []. Qed.

(** A nonnegative number whose bits from [n] on are all clear fits in [n] bits. *)
Lemma is_u_of_bits n x :
  0 <= n -> 0 <= x -> (forall i, n <= i -> Z.testbit x i = false) -> is_u n x.
Proof.
  intros Hn Hx Hb. rewrite <-(Z.mod_small x (2 ^ n)); [by apply wrap_range|].
  replace x with (x mod 2 ^ n); [apply Z.mod_pos_bound; lia|].
  apply Z.bits_inj'. intros i Hi.
  destruct (Z.ltb_spec i n).
  - by rewrite Z.mod_pow2_bits_low.
  - rewrite Z.mod_pow2_bits_high by lia. by rewrite Hb.
Qed.

Lemma is_u_land n x y : 0 <= n -> is_u n x -> is_u n (Z.land x y).
Proof.
  intros Hn Hx. apply is_u_of_bits; [done| |].
  - apply Z.land_nonneg. left. by eapply is_u_nonneg.
  - intros i Hi. by rewrite Z.land_spec, (is_u_testbit_high n x i).
Qed.

Lemma is_u_land_r n x y : 0 <= n -> is_u n y -> is_u n (Z.land x y).
Proof. rewrite Z.land_comm. apply is_u_land. Qed.

Lemma is_u_lor n x y : 0 <= n -> is_u n x -> is_u n y -> is_u n (Z.lor x y).
Proof.
  intros Hn Hx Hy. apply is_u_of_bits; [done| |].
  - apply Z.lor_nonneg. split; by eapply is_u_nonneg.
  - intros i Hi. by rewrite Z.lor_spec, (is_u_testbit_high n x i),
      (is_u_testbit_high n y i).
Qed.

Lemma is_u_bit n k : 0 <= k < n -> is_u n (bit k).
Proof.
  intros. rewrite Z.shiftl_1_l. split; [lia|]. apply Z.pow_lt_mono_r; lia.
Qed.

Lemma is_u_b2z n b : 0 < n -> is_u n (b2z b).
Proof.
  intros. split; [destruct b; simpl; lia|].
  assert (2 ^ 1 <= 2 ^ n) by (apply Z.pow_le_mono_r; lia).
  destruct b; simpl; lia.
Qed.

Lemma is_u_weaken n m x : n <= m -> is_u n x -> is_u m x.
Proof.
  intros Hn [? Hx]. split; [done|].
  eapply Z.lt_le_trans; [done|]. by apply Z.pow_le_mono_r.
Qed.

Lemma is_u_shiftr n k x : 0 <= k -> is_u n x -> is_u n (Z.shiftr x k).
Proof.
  intros Hk [H0 H1]. split; [by apply Z.shiftr_nonneg|].
  rewrite Z.shiftr_div_pow2 by done.
  apply Z.le_lt_trans with x; [|done].
  apply Z.div_le_upper_bound; [lia|]. assert (0 < 2 ^ k) by lia. nia.
Qed.

(** ** Single bits *)
Lemma testbit_bit k i : 0 <= k -> Z.testbit (bit k) i = (i =? k).
Proof.
  intros. rewrite Z.shiftl_1_l. rewrite Z.pow2_bits_eqb by done.
  by rewrite Z.eqb_sym.
Qed.

Lemma testbit_clr x k i :
  0 <= i -> 0 <= k -> Z.testbit (clr x (bit k)) i = Z.testbit x i && negb (i =? k).
Proof.
  intros. by rewrite Z.land_spec, Z.lnot_spec, testbit_bit by done.
Qed.

Lemma testbit_set x k i :
  0 <= k -> Z.testbit (Z.lor x (bit k)) i = Z.testbit x i || (i =? k).
Proof. intros. by rewrite Z.lor_spec, testbit_bit. Qed.

(** Putting a field above another one is addition. *)
Lemma lor_shiftl_add a b n : 0 <= n -> 0 <= b < 2 ^ n -> Z.lor (Z.shiftl a n) b = a * 2 ^ n + b.
Proof.
  intros Hn Hb. assert (Hland : Z.land (Z.shiftl a n) b = 0).
  { apply Z.bits_inj'. intros i Hi. rewrite Z.land_spec, Z.shiftl_spec, Z.bits_0 by done.
    destruct (Z.ltb_spec i n); [by rewrite (Z.testbit_neg_r a) by lia|].
    replace b with (b mod 2 ^ n) by (by apply Z.mod_small).
    rewrite Z.mod_pow2_bits_high by lia. apply andb_false_r. }
  rewrite <-Z.lxor_lor, <-Z.add_nocarry_lxor by done. by rewrite Z.shiftl_mul_pow2.
Qed.

Lemma nz_land_bit x k : 0 <= k -> nz (Z.land x (bit k)) = Z.testbit x k.
Proof.
  intros Hk. unfold nz.
  destruct (Z.testbit x k) eqn:E.
  - destruct (Z.eqb_spec (Z.land x (bit k)) 0) as [H|]; [|done].
    assert (Z.testbit (Z.land x (bit k)) k = false) as H'
      by (by rewrite H, Z.testbit_0_l).
    by rewrite Z.land_spec, testbit_bit, E, Z.eqb_refl in H'.
  - replace (Z.land x (bit k)) with 0; [done|]. symmetry.
    apply Z.bits_inj'. intros i Hi.
    rewrite Z.land_spec, testbit_bit, Z.testbit_0_l by done.
    destruct (Z.eqb_spec i k); [subst; by rewrite E|apply andb_false_r].
Qed.

Lemma land_bit_eqb x k : 0 <= k -> (Z.land x (bit k) =? 0) = negb (Z.testbit x k).
Proof. intros. rewrite <-nz_land_bit by done. unfold nz. by rewrite negb_involutive. Qed.

(** A nonzero number has a set bit. *)
Lemma nonzero_has_bit n x : is_u n x -> x <> 0 -> exists i, 0 <= i < n /\ Z.testbit x i = true.
Proof.
  intros [H0 H1] Hx. exists (Z.log2 x). split.
  - split; [apply Z.log2_nonneg|]. apply Z.log2_lt_pow2; lia.
  - apply Z.bit_log2. lia.
Qed.

Lemma bits_zero x : 0 <= x -> (forall i, 0 <= i -> Z.testbit x i = false) -> x = 0.
Proof. intros _ H. apply Z.bits_inj'. intros i Hi. by rewrite H, Z.testbit_0_l. Qed.

(** ** Automation *)
Create HintDb ranges.
#[export] Hint Resolve wrap_range is_u_land is_u_land_r is_u_lor is_u_b2z : ranges.
#[export] Hint Extern 1 (is_u _ (Z.shiftl 1 _)) => apply is_u_bit; lia : ranges.
#[export] Hint Extern 1 (is_u _ (Z.shiftr _ _)) => apply is_u_shiftr; [lia|] : ranges.
#[export] Hint Extern 2 (_ <= _) => lia : ranges.
#[export] Hint Extern 2 (_ < _) => lia : ranges.
#[export] Hint Extern 3 (is_u _ _) => unfold is_u; lia : ranges.

(** Split the conditionals of a definition. *)
Ltac case_if :=
  match goal with
  | |- context [if ?b then _ else _] => destruct b eqn:?
  end.
Ltac case_ifs := repeat case_if.

(** Boolean tests on [Z] in the context, as propositions. *)
Ltac zbool :=
  repeat match goal with
  | H : (_ && _) = true |- _ => apply andb_true_iff in H as [? ?]
  | H : (_ || _) = false |- _ => apply orb_false_iff in H as [? ?]
  | H : (_ =? _) = true |- _ => apply Z.eqb_eq in H
  | H : (_ =? _) = false |- _ => apply Z.eqb_neq in H
  | H : (_ <? _) = true |- _ => apply Z.ltb_lt in H
  | H : (_ <? _) = false |- _ => apply Z.ltb_ge in H
  | H : (_ <=? _) = true |- _ => apply Z.leb_le in H
  | H : (_ <=? _) = false |- _ => apply Z.leb_gt in H
  | H : nz _ = true |- _ => apply negb_true_iff in H
  | H : nz _ = false |- _ => apply negb_false_iff in H
  | H : negb _ = true |- _ => apply negb_true_iff in H
  | H : negb _ = false |- _ => apply negb_false_iff in H
  end.

Lemma land_7 x : Z.land x 7 = x mod 8.
Proof. change 7 with (Z.ones 3). by rewrite Z.land_ones. Qed.

Lemma nz_true x : nz x = true <-> x <> 0.
Proof. unfold nz. rewrite negb_true_iff. apply Z.eqb_neq. Qed.

Lemma nz_false x : nz x = false <-> x = 0.
Proof. unfold nz. rewrite negb_false_iff. apply Z.eqb_eq. Qed.

Lemma nz_b2z b : nz (b2z b) = b.
Proof. by destruct b. Qed.

(** [autorewrite with bits] computes a bit of a word built by the C operators. *)
Create Rewrite HintDb bits.
#[export] Hint Rewrite Z.land_spec Z.lor_spec Z.testbit_0_l : bits.
#[export] Hint Rewrite Z.lnot_spec testbit_bit wrap_testbit using lia : bits.
Ltac bitwise i Hi := apply Z.bits_inj'; intros i Hi; autorewrite with bits.
