(* ===== verification/Pic.v ===== *)
(** * The 8259A interrupt controller (hw/intc/i8259.c, i8259_common.c)

    One chip is a [PICCommonState]; the chip's INT pin is connected by the board
    ([i8259_init]), so every operation is written against [PicWorld], the
    interface of the world the chip lives in: where its registers are, what its
    INT pin drives and where the interrupt statistics are kept. *)
From S2P Require Import Prelude.

(** ** State *)
Record PICCommonState := mkPIC {
  last_irr : Z;   (* edge detection *)
  irr : Z;        (* interrupt request register *)
  imr : Z;        (* interrupt mask register *)
  isr : Z;        (* interrupt service register *)
  priority_add : Z;
  irq_base : Z;
  read_reg_select : Z;
  poll : Z;
  special_mask : Z;
  init_state : Z;
  auto_eoi : Z;
  rotate_on_auto_eoi : Z;
  special_fully_nested_mode : Z;
  init4 : Z;
  single_mode : Z;
  elcr : Z;
  elcr_mask : Z;
  master : bool;
}.

#[export] Instance eta_pic : Eta PICCommonState := fun s =>
  mkPIC (last_irr s) (irr s) (imr s) (isr s) (priority_add s) (irq_base s)
    (read_reg_select s) (poll s) (special_mask s) (init_state s) (auto_eoi s)
    (rotate_on_auto_eoi s) (special_fully_nested_mode s) (init4 s)
    (single_mode s) (elcr s) (elcr_mask s) (master s).
#[export] Instance set_last_irr : Setter last_irr := ltac:(derive_setter).
#[export] Instance set_irr : Setter irr := ltac:(derive_setter).
#[export] Instance set_imr : Setter imr := ltac:(derive_setter).
#[export] Instance set_isr : Setter isr := ltac:(derive_setter).
#[export] Instance set_priority_add : Setter priority_add := ltac:(derive_setter).
#[export] Instance set_irq_base : Setter irq_base := ltac:(derive_setter).
#[export] Instance set_read_reg_select : Setter read_reg_select := ltac:(derive_setter).
#[export] Instance set_poll : Setter poll := ltac:(derive_setter).
#[export] Instance set_special_mask : Setter special_mask := ltac:(derive_setter).
#[export] Instance set_init_state : Setter init_state := ltac:(derive_setter).
#[export] Instance set_auto_eoi : Setter auto_eoi := ltac:(derive_setter).
#[export] Instance set_rotate : Setter rotate_on_auto_eoi := ltac:(derive_setter).
#[export] Instance set_sfnm : Setter special_fully_nested_mode := ltac:(derive_setter).
#[export] Instance set_init4 : Setter init4 := ltac:(derive_setter).
#[export] Instance set_single_mode : Setter single_mode := ltac:(derive_setter).
#[export] Instance set_elcr : Setter elcr := ltac:(derive_setter).

(** The world of one chip. *)
Class PicWorld (W : Type) := {
  pic_get : W -> PICCommonState;
  pic_put : PICCommonState -> W -> W;
  int_out : Z -> W -> W;                     (* qemu_set_irq(s->int_out[0], level) *)
  pic_stat_update_irq : Z -> Z -> W -> W;
}.

(** What the chip relies on: the wiring does not reach back into the chip. *)
Class PicWorldOk (W : Type) `{PicWorld W} := {
  pic_get_put : forall s w, pic_get (pic_put s w) = s;
  pic_get_int_out : forall l w, pic_get (int_out l w) = pic_get w;
  pic_get_stat : forall i l w, pic_get (pic_stat_update_irq i l w) = pic_get w;
}.

(** ** Priority resolution *)

(** The [while] loop of [get_priority]; eight iterations suffice for every
    nonzero 8-bit mask ([get_priority_loop_exits]). *)
Fixpoint get_priority_loop (fuel : nat) (mask add priority : Z) : Z :=
  match fuel with
  | O => priority
  | S fuel' =>
      if Z.land mask (bit (Z.land (priority + add) 7)) =? 0
      then get_priority_loop fuel' mask add (priority + 1)
      else priority
  end.

Definition get_priority (s : PICCommonState) (mask : Z) : Z :=
  if mask =? 0 then 8 else get_priority_loop 8 mask (priority_add s) 0.

(** The requests that compete, and the in-service levels that block them. *)
Definition pic_get_irq (s : PICCommonState) : Z :=
  let mask := clr (irr s) (imr s) in
  let priority := get_priority s mask in
  if priority =? 8 then -1
  else
    let mask := isr s in
    let mask := if nz (special_mask s) then clr mask (imr s) else mask in
    let mask := if nz (special_fully_nested_mode s) && master s
                then clr mask (bit 2) else mask in
    let cur_priority := get_priority s mask in
    if priority <? cur_priority
    then Z.land (priority + priority_add s) 7
    else -1.

Definition pic_get_output (s : PICCommonState) : bool := 0 <=? pic_get_irq s.

(** ** Operations *)
Section ops.
  Context {W : Type} `{PicWorld W}.

Definition pic_update_irq (w : W) : W :=
  let irq := pic_get_irq (pic_get w) in
  if 0 <=? irq then int_out 1 w else int_out 0 w.

(** The register part of [pic_set_irq] (level or edge triggered, by ELCR). *)
Definition pic_latch (irq level : Z) (s : PICCommonState) : PICCommonState :=
  let mask := bit irq in
  if nz (Z.land (elcr s) mask) then
    (* level triggered *)
    if nz level then
      s <| irr := u8 (Z.lor (irr s) mask) |>
        <| last_irr := u8 (Z.lor (last_irr s) mask) |>
    else
      s <| irr := clr (irr s) mask |>
        <| last_irr := clr (last_irr s) mask |>
  else
    (* edge triggered *)
    if nz level then
      let s1 := if Z.land (last_irr s) mask =? 0
                then s <| irr := u8 (Z.lor (irr s) mask) |> else s in
      s1 <| last_irr := u8 (Z.lor (last_irr s1) mask) |>
    else s <| last_irr := clr (last_irr s) mask |>.

Definition pic_set_irq (irq level : Z) (w : W) : W :=
  let irq_index := if master (pic_get w) then irq else irq + 8 in
  let w := pic_stat_update_irq irq_index level w in
  pic_update_irq (pic_put (pic_latch irq level (pic_get w)) w).

(** The register part of [pic_intack]. *)
Definition pic_ack (irq : Z) (s : PICCommonState) : PICCommonState :=
  let s :=
    if nz (auto_eoi s) then
      if nz (rotate_on_auto_eoi s)
      then s <| priority_add := Z.land (irq + 1) 7 |> else s
    else s <| isr := u8 (Z.lor (isr s) (bit irq)) |> in
  (* a level sensitive interrupt is not cleared here *)
  if Z.land (elcr s) (bit irq) =? 0
  then s <| irr := clr (irr s) (bit irq) |> else s.

Definition pic_intack (irq : Z) (w : W) : W :=
  pic_update_irq (pic_put (pic_ack irq (pic_get w)) w).

Definition pic_reset_common (s : PICCommonState) : PICCommonState :=
  s <| last_irr := 0 |>
    <| irr := Z.land (irr s) (elcr s) |>
    <| imr := 0 |>
    <| isr := 0 |>
    <| priority_add := 0 |>
    <| irq_base := 0 |>
    <| read_reg_select := 0 |>
    <| poll := 0 |>
    <| special_mask := 0 |>
    <| init_state := 0 |>
    <| auto_eoi := 0 |>
    <| rotate_on_auto_eoi := 0 |>
    <| special_fully_nested_mode := 0 |>
    <| init4 := 0 |>
    <| single_mode := 0 |>.

Definition pic_init_reset (w : W) : W :=
  pic_update_irq (pic_put (pic_reset_common (pic_get w)) w).

Definition pic_reset (w : W) : W :=
  pic_init_reset (pic_put (pic_get w <| elcr := 0 |>) w).

(** OCW2: the end-of-interrupt and rotation commands, [cmd = val >> 5]. *)
Definition pic_ocw2 (val : Z) (w : W) : W :=
  let s := pic_get w in
  let cmd := Z.shiftr val 5 in
  if (cmd =? 0) || (cmd =? 4) then
    pic_put (s <| rotate_on_auto_eoi := Z.shiftr cmd 2 |>) w
  else if (cmd =? 1) || (cmd =? 5) then
    let priority := get_priority s (isr s) in
    if negb (priority =? 8) then
      let irq := Z.land (priority + priority_add s) 7 in
      let s1 := s <| isr := clr (isr s) (bit irq) |> in
      let s2 := if cmd =? 5
                then s1 <| priority_add := Z.land (irq + 1) 7 |> else s1 in
      pic_update_irq (pic_put s2 w)
    else w
  else if cmd =? 3 then
    let irq := Z.land val 7 in
    pic_update_irq (pic_put (s <| isr := clr (isr s) (bit irq) |>) w)
  else if cmd =? 6 then
    pic_update_irq (pic_put (s <| priority_add := Z.land (val + 1) 7 |>) w)
  else if cmd =? 7 then
    let irq := Z.land val 7 in
    pic_update_irq
      (pic_put (s <| isr := clr (isr s) (bit irq) |>
                  <| priority_add := Z.land (irq + 1) 7 |>) w)
  else w.

(** OCW3: poll command, register select, special mask mode. *)
Definition pic_ocw3 (val : Z) (s : PICCommonState) : PICCommonState :=
  let s := if nz (Z.land val 0x04) then s <| poll := 1 |> else s in
  let s := if nz (Z.land val 0x02)
           then s <| read_reg_select := Z.land val 1 |> else s in
  if nz (Z.land val 0x40)
  then s <| special_mask := Z.land (Z.shiftr val 5) 1 |> else s.

(** Writes to the data port: OCW1, or the next initialisation word. *)
Definition pic_data_write (val : Z) (w : W) : W :=
  let s := pic_get w in
  if init_state s =? 0 then
    pic_update_irq (pic_put (s <| imr := u8 val |>) w)
  else if init_state s =? 1 then
    pic_put (s <| irq_base := Z.land val 0xf8 |>
               <| init_state := if nz (single_mode s)
                                then (if nz (init4 s) then 3 else 0) else 2 |>) w
  else if init_state s =? 2 then
    pic_put (if nz (init4 s) then s <| init_state := 3 |>
             else s <| init_state := 0 |>) w
  else if init_state s =? 3 then
    pic_put (s <| special_fully_nested_mode := Z.land (Z.shiftr val 4) 1 |>
               <| auto_eoi := Z.land (Z.shiftr val 1) 1 |>
               <| init_state := 0 |>) w
  else w.

Definition pic_ioport_write (addr64 val64 : Z) (w : W) : W :=
  let addr := u32 addr64 in
  let val := u32 val64 in
  if addr =? 0 then
    if nz (Z.land val 0x10) then
      let w := pic_init_reset w in
      pic_put (pic_get w <| init_state := 1 |>
                         <| init4 := Z.land val 1 |>
                         <| single_mode := Z.land val 2 |>) w
    else if nz (Z.land val 0x08) then pic_put (pic_ocw3 val (pic_get w)) w
    else pic_ocw2 val w
  else pic_data_write val w.

Definition pic_ioport_read (addr : Z) (w : W) : Z * W :=
  let s := pic_get w in
  if nz (poll s) then
    let ret := pic_get_irq s in
    let '(ret, w) := if 0 <=? ret then (Z.lor ret 0x80, pic_intack ret w)
                     else (0, w) in
    (ret, pic_put (pic_get w <| poll := 0 |>) w)
  else if addr =? 0 then
    (if nz (read_reg_select s) then isr s else irr s, w)
  else (imr s, w).

Definition elcr_ioport_write (val : Z) (w : W) : W :=
  pic_put (pic_get w <| elcr := Z.land val (elcr_mask (pic_get w)) |>) w.

Definition elcr_ioport_read (w : W) : Z := elcr (pic_get w).
End ops.

(** ** Well-formed register files *)
Record pic_wf (s : PICCommonState) : Prop := {
  wf_last_irr : is_u 8 (last_irr s);
  wf_irr : is_u 8 (irr s);
  wf_imr : is_u 8 (imr s);
  wf_isr : is_u 8 (isr s);
  wf_add : is_u 3 (priority_add s);
  wf_base : is_u 8 (irq_base s);
  wf_init : is_u 2 (init_state s);
  wf_elcr : is_u 8 (elcr s);
  wf_elcr_mask : is_u 8 (elcr_mask s);
}.

(** ** Priorities *)

(** The rank of an interrupt line under the current rotation: 0 is served first. *)
Definition rank (s : PICCommonState) (j : Z) : Z := (j - priority_add s) mod 8.

Definition pending (s : PICCommonState) (j : Z) : Prop :=
  Z.testbit (irr s) j = true /\ Z.testbit (imr s) j = false.

Definition blocking (s : PICCommonState) (j : Z) : Prop :=
  Z.testbit (isr s) j = true /\
  (special_mask s <> 0 -> Z.testbit (imr s) j = false) /\
  (special_fully_nested_mode s <> 0 -> master s = true -> j <> 2).

Lemma rank_range s j : 0 <= rank s j < 8.
Proof. apply Z.mod_pos_bound. lia. Qed.

Lemma rank_line s p : is_u 3 (priority_add s) -> 0 <= p < 8 ->
  rank s ((p + priority_add s) mod 8) = p.
Proof.
  intros Ha Hp. unfold rank. rewrite Zminus_mod_idemp_l.
  replace (p + priority_add s - priority_add s) with p by lia.
  by apply Z.mod_small.
Qed.

Lemma line_rank s j : is_u 3 (priority_add s) -> 0 <= j < 8 ->
  (rank s j + priority_add s) mod 8 = j.
Proof.
  intros Ha Hj. unfold rank. rewrite Zplus_mod_idemp_l.
  replace (j - priority_add s + priority_add s) with j by lia.
  by apply Z.mod_small.
Qed.

(** The loop stops at the first rank whose line is in the mask. *)
Lemma get_priority_loop_first fuel mask add p :
  let r := get_priority_loop fuel mask add p in
  p <= r <= p + Z.of_nat fuel /\
  (forall q, p <= q < r -> Z.testbit mask ((q + add) mod 8) = false) /\
  (r < p + Z.of_nat fuel -> Z.testbit mask ((r + add) mod 8) = true).
Proof.
  revert p. induction fuel as [|fuel IH]; intros p; cbn [get_priority_loop].
  { split_and!; intros; lia. }
  rewrite land_bit_eqb, land_7 by (rewrite land_7; apply Z.mod_pos_bound; lia).
  destruct (Z.testbit mask _) eqn:E; cbn [negb].
  - split_and!; [lia|lia| |]; intros; [lia|done].
  - destruct (IH (p + 1)) as (Hr & Hlow & Hhit). split_and!; [lia|lia| |].
    + intros q Hq. destruct (Z.eq_dec q p); [by subst|]. apply Hlow. lia.
    + intros. apply Hhit. lia.
Qed.

(** Eight iterations are enough: for a nonzero 8-bit mask the loop exits because
    its condition is false, never because the fuel ran out. *)
Lemma get_priority_loop_exits mask s :
  is_u 3 (priority_add s) -> is_u 8 mask -> mask <> 0 ->
  get_priority_loop 8 mask (priority_add s) 0 < 8.
Proof.
  intros Ha Hm Hnz.
  destruct (get_priority_loop_first 8 mask (priority_add s) 0) as (Hr & Hlow & _).
  destruct (nonzero_has_bit 8 mask Hm Hnz) as (i & Hi & Hbit).
  destruct (Z.ltb_spec (get_priority_loop 8 mask (priority_add s) 0) 8); [done|].
  exfalso. rewrite <-(line_rank s i) in Hbit by done.
  rewrite Hlow in Hbit; [done|]. pose proof (rank_range s i). lia.
Qed.

Definition first_in (s : PICCommonState) (mask p : Z) : Prop :=
  0 <= p < 8 /\ Z.testbit mask ((p + priority_add s) mod 8) = true /\
  forall j, 0 <= j < 8 -> Z.testbit mask j = true -> p <= rank s j.

Lemma get_priority_cases s mask :
  is_u 3 (priority_add s) -> is_u 8 mask ->
  (mask = 0 /\ get_priority s mask = 8) \/
  (mask <> 0 /\ first_in s mask (get_priority s mask)).
Proof.
  intros Ha Hm. unfold get_priority.
  destruct (Z.eqb_spec mask 0) as [->|Hnz]; [by left|right; split; [done|]].
  pose proof (get_priority_loop_exits mask s Ha Hm Hnz) as Hlt.
  destruct (get_priority_loop_first 8 mask (priority_add s) 0) as (Hr & Hlow & Hhit).
  split_and!; [lia|lia|apply Hhit; lia|].
  intros j Hj Hbit. apply Z.nlt_ge. intros Hcontra.
  rewrite <-(line_rank s j) in Hbit by done.
  rewrite Hlow in Hbit; [done|]. pose proof (rank_range s j). lia.
Qed.

Lemma first_in_unique s mask p q : is_u 3 (priority_add s) ->
  first_in s mask p -> first_in s mask q -> p = q.
Proof.
  intros Ha (Hp & Hpb & Hpm) (Hq & Hqb & Hqm).
  assert (p <= q) by (rewrite <-(rank_line s q); auto; apply Hpm; auto;
    apply Z.mod_pos_bound; lia).
  assert (q <= p) by (rewrite <-(rank_line s p); auto; apply Hqm; auto;
    apply Z.mod_pos_bound; lia).
  lia.
Qed.

Lemma get_priority_first s mask p :
  is_u 3 (priority_add s) -> is_u 8 mask -> first_in s mask p ->
  get_priority s mask = p.
Proof.
  intros Ha Hm Hp. destruct (get_priority_cases s mask Ha Hm) as [[-> _]|[_ H]].
  - destruct Hp as (_ & Hb & _). by rewrite Z.testbit_0_l in Hb.
  - by eapply first_in_unique.
Qed.

(** The effective in-service mask of [pic_get_irq]. *)
Definition isr_mask (s : PICCommonState) : Z :=
  let mask := if nz (special_mask s) then clr (isr s) (imr s) else isr s in
  if nz (special_fully_nested_mode s) && master s then clr mask (bit 2) else mask.

Lemma isr_mask_range s : pic_wf s -> is_u 8 (isr_mask s).
Proof. intros []. unfold isr_mask. case_ifs; auto with ranges. Qed.

Lemma isr_mask_spec s j : 0 <= j -> Z.testbit (isr_mask s) j = true <-> blocking s j.
Proof.
  intros Hj. unfold isr_mask, blocking.
  destruct (nz (special_mask s)) eqn:E1;
  destruct (nz (special_fully_nested_mode s)) eqn:E2; destruct (master s) eqn:E3;
  cbn [andb]; autorewrite with bits; zbool;
  rewrite ?andb_true_iff, ?negb_true_iff, ?Z.eqb_neq; intuition congruence.
Qed.

Lemma pic_get_irq_eq s : pic_get_irq s =
  let priority := get_priority s (clr (irr s) (imr s)) in
  if priority =? 8 then -1
  else if priority <? get_priority s (isr_mask s)
  then (priority + priority_add s) mod 8 else -1.
Proof. unfold pic_get_irq, isr_mask. cbv zeta. by rewrite land_7. Qed.

Lemma pending_mask s j : 0 <= j ->
  Z.testbit (clr (irr s) (imr s)) j = true <-> pending s j.
Proof.
  intros. unfold pending. autorewrite with bits.
  by rewrite andb_true_iff, negb_true_iff.
Qed.

Lemma pending_range s j : pic_wf s -> pending s j -> 0 <= j < 8.
Proof. intros Hwf [Hj _]. eapply testbit_true_range, Hj. apply Hwf. Qed.

Lemma blocking_range s j : pic_wf s -> blocking s j -> 0 <= j < 8.
Proof. intros Hwf [Hj _]. eapply testbit_true_range, Hj. apply Hwf. Qed.

(** The request the controller presents: the pending line of best rank,
    provided its rank beats every blocking in-service line. *)
Definition winner (s : PICCommonState) (irq : Z) : Prop :=
  pending s irq /\
  (forall j, pending s j -> rank s irq <= rank s j) /\
  (forall j, blocking s j -> rank s irq < rank s j).

Lemma pic_get_irq_range s : -1 <= pic_get_irq s < 8.
Proof.
  rewrite pic_get_irq_eq. cbv zeta. case_ifs; try lia.
  pose proof (Z.mod_pos_bound (get_priority s (clr (irr s) (imr s))
    + priority_add s) 8). lia.
Qed.

Lemma get_priority_below s mask p :
  is_u 3 (priority_add s) -> is_u 8 mask -> p < 8 ->
  p < get_priority s mask <->
  (forall j, 0 <= j < 8 -> Z.testbit mask j = true -> p < rank s j).
Proof.
  intros Ha Hm Hp. destruct (get_priority_cases s mask Ha Hm) as [[-> ->]|[Hnz Hf]].
  - split; [|lia]. intros _ j _. by rewrite Z.testbit_0_l.
  - destruct Hf as (Hr & Hb & Hmin). split.
    + intros Hlt j Hj Hjb. specialize (Hmin j Hj Hjb). lia.
    + intros Hall. rewrite <-(rank_line s (get_priority s mask)) by done.
      apply Hall; [apply Z.mod_pos_bound; lia|done].
Qed.

Lemma rank_inj s i j : is_u 3 (priority_add s) -> 0 <= i < 8 -> 0 <= j < 8 ->
  rank s i = rank s j -> i = j.
Proof.
  intros Ha Hi Hj E. rewrite <-(line_rank s i), <-(line_rank s j) by done.
  by rewrite E.
Qed.

Lemma pic_get_irq_winner s : pic_wf s -> 0 <= pic_get_irq s -> winner s (pic_get_irq s).
Proof.
  intros Hwf. pose proof (wf_add s Hwf) as Ha. rewrite pic_get_irq_eq. cbv zeta.
  assert (Hm : is_u 8 (clr (irr s) (imr s))) by (apply is_u_land; [lia|apply Hwf]).
  destruct (get_priority_cases s _ Ha Hm) as [[_ ->]|[_ Hf]]; [by simpl|].
  destruct (get_priority s (clr (irr s) (imr s)) =? 8) eqn:E8; [by simpl|].
  destruct (Z.ltb_spec (get_priority s (clr (irr s) (imr s)))
              (get_priority s (isr_mask s))) as [Hlt|]; [intros _|by simpl].
  destruct Hf as (Hr & Hb & Hmin).
  assert (0 <= (get_priority s (clr (irr s) (imr s)) + priority_add s) mod 8)
    by (apply Z.mod_pos_bound; lia).
  rewrite get_priority_below in Hlt by (auto using isr_mask_range || lia).
  split_and!; [by apply pending_mask| |]; intros j Hj; rewrite rank_line by done.
  - apply Hmin; [by eapply pending_range|].
    apply pending_mask; [|done]. apply pending_range in Hj; [lia|done].
  - apply Hlt; [by eapply blocking_range|]. apply isr_mask_spec; [|done].
    apply blocking_range in Hj; [lia|done].
Qed.

Lemma winner_pic_get_irq s irq : pic_wf s -> winner s irq -> pic_get_irq s = irq.
Proof.
  intros Hwf (Hp & Hmin & Hblk). pose proof (wf_add s Hwf) as Ha.
  pose proof (pending_range s irq Hwf Hp) as Hi.
  assert (Hm : is_u 8 (clr (irr s) (imr s))) by (apply is_u_land; [lia|apply Hwf]).
  pose proof (rank_range s irq) as Hrk.
  assert (E : get_priority s (clr (irr s) (imr s)) = rank s irq).
  { apply get_priority_first; [done..|]. split_and!; [lia|lia| |].
    - rewrite line_rank by done. by apply pending_mask; [lia|].
    - intros j Hj Hb. apply Hmin, pending_mask; [lia|done]. }
  rewrite pic_get_irq_eq. cbv zeta. rewrite E.
  destruct (Z.eqb_spec (rank s irq) 8); [lia|].
  destruct (Z.ltb_spec (rank s irq) (get_priority s (isr_mask s))) as [|Hge].
  - by apply line_rank.
  - exfalso. apply Z.le_ngt in Hge. apply Hge.
    apply get_priority_below; [done|by apply isr_mask_range|lia|].
    intros j Hj Hb. apply Hblk, isr_mask_spec; [lia|done].
Qed.

(** ** Invariant *)
Section laws.
  Context {W : Type} `{PicWorldOk W}.

Lemma pic_get_update (w : W) : pic_get (pic_update_irq w) = pic_get w.
Proof. unfold pic_update_irq. case_ifs; apply pic_get_int_out. Qed.

Lemma pic_get_update_put s (w : W) : pic_get (pic_update_irq (pic_put s w)) = s.
Proof. by rewrite pic_get_update, pic_get_put. Qed.

Lemma pic_get_set_irq irq level (w : W) :
  pic_get (pic_set_irq irq level w) = pic_latch irq level (pic_get w).
Proof. unfold pic_set_irq. by rewrite pic_get_update_put, pic_get_stat. Qed.

Lemma pic_get_intack irq (w : W) : pic_get (pic_intack irq w) = pic_ack irq (pic_get w).
Proof. apply pic_get_update_put. Qed.
End laws.

Create Rewrite HintDb pic.
#[export] Hint Rewrite @pic_get_update_put @pic_get_update @pic_get_put
  @pic_get_int_out @pic_get_stat @pic_get_set_irq @pic_get_intack using typeclasses eauto : pic.

(** Everything a chip can be asked to do. *)
Inductive pic_op :=
| PicSetIrq (irq level : Z)
| PicIntAck (irq : Z)
| PicWrite (addr val : Z)
| PicRead (addr : Z)
| PicElcrWrite (val : Z)
| PicReset.

Definition pic_op_ok (o : pic_op) : Prop :=
  match o with
  | PicSetIrq irq _ | PicIntAck irq => 0 <= irq < 8
  | _ => True
  end.

Definition pic_run {W} `{PicWorld W} (o : pic_op) (w : W) : W :=
  match o with
  | PicSetIrq irq level => pic_set_irq irq level w
  | PicIntAck irq => pic_intack irq w
  | PicWrite addr val => pic_ioport_write addr val w
  | PicRead addr => (pic_ioport_read addr w).2
  | PicElcrWrite val => elcr_ioport_write val w
  | PicReset => pic_reset w
  end.

Ltac pic_wf_tac :=
  repeat match goal with H : pic_wf _ |- _ => destruct H end;
  constructor; cbn; auto with ranges.

Lemma pic_wf_latch irq level s : 0 <= irq < 8 -> pic_wf s -> pic_wf (pic_latch irq level s).
Proof. intros. unfold pic_latch. cbv zeta. case_ifs; pic_wf_tac. Qed.

Lemma pic_wf_ack irq s : 0 <= irq < 8 -> pic_wf s -> pic_wf (pic_ack irq s).
Proof. intros. unfold pic_ack. cbv zeta. case_ifs; pic_wf_tac. Qed.

Lemma pic_wf_reset_common s : pic_wf s -> pic_wf (pic_reset_common s).
Proof. intros. pic_wf_tac. Qed.

Lemma pic_wf_ocw2 s : pic_wf s -> forall val W `{PicWorldOk W} (w : W),
  pic_get w = s -> pic_wf (pic_get (pic_ocw2 val w)).
Proof.
  intros Hwf val W ?? w Hg. unfold pic_ocw2. cbv zeta. rewrite Hg.
  case_ifs; autorewrite with pic; rewrite ?Hg; try done; pic_wf_tac.
Qed.

Lemma pic_wf_ocw3 s val : pic_wf s -> pic_wf (pic_ocw3 val s).
Proof. intros. unfold pic_ocw3. cbv zeta. case_ifs; pic_wf_tac. Qed.

Lemma pic_wf_data_write s : pic_wf s -> forall val W `{PicWorldOk W} (w : W),
  pic_get w = s -> pic_wf (pic_get (pic_data_write val w)).
Proof.
  intros Hwf val W ?? w Hg. unfold pic_data_write. cbv zeta. rewrite Hg.
  case_ifs; autorewrite with pic; rewrite ?Hg; try done; pic_wf_tac.
Qed.

Lemma pic_wf_poll s v : pic_wf s -> pic_wf (s <| poll := v |>).
Proof. intros. pic_wf_tac. Qed.

Lemma pic_wf_icw1 s val : pic_wf s ->
  pic_wf (pic_reset_common s <| init_state := 1 |> <| init4 := Z.land val 1 |>
            <| single_mode := Z.land val 2 |>).
Proof. intros. pic_wf_tac. Qed.

Lemma pic_wf_write {W} `{PicWorldOk W} addr val (w : W) :
  pic_wf (pic_get w) -> pic_wf (pic_get (pic_ioport_write addr val w)).
Proof.
  intros Hwf. unfold pic_ioport_write, pic_init_reset. cbv zeta. case_ifs.
  - autorewrite with pic. by apply pic_wf_icw1.
  - rewrite pic_get_put. by apply pic_wf_ocw3.
  - by eapply pic_wf_ocw2.
  - by eapply pic_wf_data_write.
Qed.

Lemma pic_wf_read {W} `{PicWorldOk W} addr (w : W) :
  pic_wf (pic_get w) -> pic_wf (pic_get (pic_ioport_read addr w).2).
Proof.
  intros Hwf. unfold pic_ioport_read. cbv zeta.
  destruct (nz (poll _)); [|by case_ifs].
  destruct (0 <=? pic_get_irq (pic_get w)) eqn:E; cbn [snd]; rewrite pic_get_put.
  - zbool. rewrite pic_get_intack. apply pic_wf_poll, pic_wf_ack; [|done].
    pose proof (pic_get_irq_range (pic_get w)). lia.
  - by apply pic_wf_poll.
Qed.

Lemma pic_wf_run {W} `{PicWorldOk W} o (w : W) :
  pic_op_ok o -> pic_wf (pic_get w) -> pic_wf (pic_get (pic_run o w)).
Proof.
  intros Ho Hwf. destruct o as [irq level|irq|addr val|addr|val|]; cbn [pic_run].
  - rewrite pic_get_set_irq. by apply pic_wf_latch.
  - rewrite pic_get_intack. by apply pic_wf_ack.
  - by apply pic_wf_write.
  - by apply pic_wf_read.
  - unfold elcr_ioport_write. rewrite pic_get_put. pic_wf_tac.
  - unfold pic_reset, pic_init_reset. autorewrite with pic.
    apply pic_wf_reset_common. pic_wf_tac.
Qed.

(** ** A chip on its own: registers and the level of the INT pin *)
Record chip := mkChip { chip_regs : PICCommonState; chip_int : Z }.

#[export] Instance chip_world : PicWorld chip := {|
  pic_get := chip_regs;
  pic_put := fun s c => mkChip s (chip_int c);
  int_out := fun l c => mkChip (chip_regs c) l;
  pic_stat_update_irq := fun _ _ c => c;
|}.
#[export] Instance chip_world_ok : PicWorldOk chip.
Proof. by constructor. Qed.

(** The INT pin shows what the priority logic says. *)
Definition line_ok (c : chip) : Prop := chip_int c = b2z (pic_get_output (chip_regs c)).

(** Commands that change the priority mode: OCW3 with ESMM set, and ICW4. *)
Definition changes_mode (o : pic_op) (s : PICCommonState) : bool :=
  match o with
  | PicWrite addr val =>
      if u32 addr =? 0
      then negb (nz (Z.land (u32 val) 0x10)) && nz (Z.land (u32 val) 0x08)
           && nz (Z.land (u32 val) 0x40)
      else init_state s =? 3
  | _ => false
  end.

Lemma pic_get_irq_ext s s' :
  irr s = irr s' -> imr s = imr s' -> isr s = isr s' ->
  priority_add s = priority_add s' -> special_mask s = special_mask s' ->
  special_fully_nested_mode s = special_fully_nested_mode s' ->
  master s = master s' -> pic_get_irq s = pic_get_irq s'.
Proof.
  intros E1 E2 E3 E4 E5 E6 E7. unfold pic_get_irq, get_priority.
  by rewrite E1, E2, E3, E4, E5, E6, E7.
Qed.

Lemma pic_get_irq_icw1 s a b c :
  pic_get_irq (s <| init_state := a |> <| init4 := b |> <| single_mode := c |>)
  = pic_get_irq s.
Proof. by apply pic_get_irq_ext. Qed.

Lemma pic_get_irq_poll s v : pic_get_irq (s <| poll := v |>) = pic_get_irq s.
Proof. by apply pic_get_irq_ext. Qed.

Lemma line_ok_update c : line_ok (pic_update_irq c).
Proof.
  unfold line_ok, pic_update_irq, pic_get_output. cbn [pic_get chip_world].
  by destruct (0 <=? pic_get_irq (chip_regs c)) eqn:E; cbn; rewrite E.
Qed.

Lemma line_ok_put c s : line_ok c -> pic_get_irq s = pic_get_irq (chip_regs c) ->
  line_ok (pic_put s c).
Proof. unfold line_ok, pic_get_output. cbn. by intros -> ->. Qed.

Ltac line_ok_tac :=
  lazymatch goal with
  | |- line_ok (pic_update_irq _) => apply line_ok_update
  | |- line_ok (pic_put _ _) => apply line_ok_put; [done|by apply pic_get_irq_ext]
  | |- _ => done
  end.

Lemma line_ok_set_irq irq level c : line_ok (pic_set_irq irq level c).
Proof. apply line_ok_update. Qed.

Lemma line_ok_write addr val c :
  changes_mode (PicWrite addr val) (chip_regs c) = false ->
  line_ok c -> line_ok (pic_ioport_write addr val c).
Proof.
  cbn [changes_mode]. unfold pic_ioport_write, pic_ocw2, pic_data_write. cbv zeta.
  intros Hm Hok. destruct (u32 addr =? 0).
  - destruct (nz (Z.land (u32 val) 0x10)); cbn [negb andb] in Hm.
    { apply line_ok_put; [apply line_ok_update|apply pic_get_irq_icw1]. }
    destruct (nz (Z.land (u32 val) 0x08)); cbn [negb andb] in Hm.
    { apply line_ok_put; [done|]. unfold pic_ocw3. cbv zeta. rewrite Hm.
      case_ifs; by apply pic_get_irq_ext. }
    case_ifs; line_ok_tac.
  - change (init_state (pic_get c)) with (init_state (chip_regs c)).
    rewrite Hm. case_ifs; line_ok_tac.
Qed.

Lemma line_ok_read addr c : line_ok c -> line_ok (pic_ioport_read addr c).2.
Proof.
  intros Hok. unfold pic_ioport_read. cbv zeta.
  destruct (nz (poll (pic_get c))); [|by case_ifs].
  destruct (0 <=? _); cbn [snd].
  - apply line_ok_put; [apply line_ok_update|apply pic_get_irq_poll].
  - apply line_ok_put; [done|apply pic_get_irq_poll].
Qed.

(** C36. The vector the 8259A presents is exactly the unmasked request of best
    rank under the current rotation, and only if that rank is strictly better
    than every in-service level that blocks it (special mask mode and special
    fully nested mode taken into account); -1 is returned exactly when there is
    no such request. *)
Theorem pic_get_irq_correct s : pic_wf s ->
  (forall irq, 0 <= irq -> (pic_get_irq s = irq <-> winner s irq)) /\
  (pic_get_irq s = -1 <-> forall irq, ~ winner s irq).
Proof.
  intros Hwf. split.
  - intros irq Hi. split; [intros <-; by apply pic_get_irq_winner|by apply winner_pic_get_irq].
  - split.
    + intros E irq Hw. rewrite (winner_pic_get_irq s irq Hwf Hw) in E.
      destruct Hw as [Hp _]. apply pending_range in Hp; [lia|done].
    + intros Hno. pose proof (pic_get_irq_range s).
      destruct (Z.leb_spec 0 (pic_get_irq s)); [|lia].
      exfalso. by eapply Hno, pic_get_irq_winner.
Qed.

(** A master chip with IRQ 3 in service and IRQs 1 and 5 requested. *)
Definition ex_chip : PICCommonState :=
  mkPIC 0 0x22 0 0x08 0 0x20 0 0 0 0 0 0 0 0 0 0 0xf8 true.

Lemma ex_chip_wf : pic_wf ex_chip.
Proof. by repeat constructor. Qed.

Lemma pic_get_irq_correct_witness :
  pic_get_irq ex_chip = 1 /\ winner ex_chip 1.
Proof.
  split; [reflexivity|].
  apply (proj1 (pic_get_irq_correct ex_chip ex_chip_wf)); [lia|reflexivity].
Defined.

(** Every operation of the chip - request lines, acknowledge, the port
    writes of the initialisation and operation command words, polling reads,
    ELCR and reset - keeps the register file within its widths, in every world
    the chip may be wired into. *)
Theorem pic_runs_wf {W} `{PicWorldOk W} ops (w : W) :
  Forall pic_op_ok ops -> pic_wf (pic_get w) ->
  pic_wf (pic_get (fold_left (fun w o => pic_run o w) ops w)).
Proof.
  intros Hops. revert w. induction Hops as [|o ops Ho Hops IH]; intros w Hwf; simpl.
  - done.
  - apply IH. by apply pic_wf_run.
Qed.

Lemma pic_runs_wf_witness :
  pic_wf (pic_get (fold_left (fun w o => pic_run o w)
    [PicWrite 0 0x11; PicWrite 1 0x20; PicWrite 1 0x04; PicWrite 1 0x01;
     PicSetIrq 3 1; PicIntAck 3; PicWrite 0 0x20] (mkChip ex_chip 0))).
Proof.
  apply (pic_runs_wf _ (mkChip ex_chip 0)); [by repeat constructor; simpl|apply ex_chip_wf].
Defined.

(** Operations that end with [pic_update_irq]. *)
Definition evaluates (o : pic_op) : bool :=
  match o with PicSetIrq _ _ | PicIntAck _ | PicReset => true | _ => false end.

(** C37. The INT pin follows the priority decision.  If it equals the decision before
    an operation, it does after it, for every operation but the two command words
    that change the priority mode without re-evaluating it, OCW3 with ESMM and
    ICW4; and a change of a line, an acknowledgement and a reset make it equal
    whatever it was before. *)
Theorem pic_line_tracks_output c o :
  (changes_mode o (chip_regs c) = false -> line_ok c -> line_ok (pic_run o c)) /\ (evaluates o = true -> line_ok (pic_run o c)).
Proof.
  split; [|destruct o; try done; intros _; [apply line_ok_set_irq|apply line_ok_update..]].
  destruct o as [irq level|irq|addr val|addr|val|]; cbn [pic_run]; intros Hm Hok.
  - apply line_ok_set_irq.
  - apply line_ok_update.
  - by apply line_ok_write.
  - by apply line_ok_read.
  - apply line_ok_put; [done|by apply pic_get_irq_ext].
  - apply line_ok_update.
Qed.

Lemma pic_line_tracks_output_witness :
  line_ok (pic_run (PicWrite 1 0x02) (mkChip ex_chip 1)) /\ line_ok (pic_run (PicIntAck 1) (mkChip ex_chip 0)).
Proof.
  split; [apply (proj1 (pic_line_tracks_output (mkChip ex_chip 1) (PicWrite 1 0x02))); reflexivity|].
  by apply (proj2 (pic_line_tracks_output (mkChip ex_chip 0) (PicIntAck 1))).
Defined.




(** ** Acknowledge and end of interrupt *)
Lemma isr_ack irq s : auto_eoi s = 0 -> isr (pic_ack irq s) = u8 (Z.lor (isr s) (bit irq)).
Proof. intros E. unfold pic_ack. cbv zeta. rewrite E. by case_ifs. Qed.

Lemma priority_add_ack irq s : auto_eoi s = 0 ->
  priority_add (pic_ack irq s) = priority_add s.
Proof. intros E. unfold pic_ack. cbv zeta. rewrite E. by case_ifs. Qed.

Lemma irr_ack irq s : irr (pic_ack irq s) =
  if Z.land (elcr s) (bit irq) =? 0 then clr (irr s) (bit irq) else irr s.
Proof.
  unfold pic_ack. cbv zeta.
  destruct (nz (auto_eoi s)); [destruct (nz (rotate_on_auto_eoi s))|];
    cbn -[Z.land Z.shiftl]; by case_if.
Qed.

Lemma last_irr_ack irq s : last_irr (pic_ack irq s) = last_irr s.
Proof. unfold pic_ack. cbv zeta. by case_ifs. Qed.

Lemma elcr_ack irq s : elcr (pic_ack irq s) = elcr s.
Proof. unfold pic_ack. cbv zeta. by case_ifs. Qed.

Lemma elcr_latch irq level s : elcr (pic_latch irq level s) = elcr s.
Proof. unfold pic_latch. cbv zeta. by case_ifs. Qed.

Lemma isr_ocw2_eoi {W} `{PicWorldOk W} (w : W) p :
  get_priority (pic_get w) (isr (pic_get w)) = p -> 0 <= p < 8 ->
  isr (pic_get (pic_ocw2 0x20 w)) =
  clr (isr (pic_get w)) (bit ((p + priority_add (pic_get w)) mod 8)).
Proof.
  intros E Hp. unfold pic_ocw2. change (Z.shiftr 0x20 5) with 1.
  cbv zeta. cbn [Z.eqb Pos.eqb orb]. rewrite E. destruct (Z.eqb_spec p 8); [lia|]. cbn [negb].
  rewrite pic_get_update_put, land_7. by generalize (pic_get w).
Qed.

Lemma clr_set_bit n x k : is_u n x -> 0 <= k < n -> Z.testbit x k = false ->
  clr (wrap n (Z.lor x (bit k))) (bit k) = x.
Proof.
  intros Hx Hk Hb. rewrite wrap_small by auto with ranges.
  bitwise i Hi. destruct (Z.eqb_spec i k) as [->|]; simpl.
  - by rewrite Hb, andb_false_r.
  - by rewrite orb_false_r, andb_true_r.
Qed.

(** Acknowledging the presented interrupt and then issuing a non-specific
    end-of-interrupt ends that very interrupt: the in-service register is
    exactly what it was before the acknowledge, so nested interrupts are
    retired in LIFO order (fully nested mode). *)
Theorem pic_ack_eoi_lifo {W} `{PicWorldOk W} (w : W) irq :
  pic_wf (pic_get w) -> pic_get_irq (pic_get w) = irq -> 0 <= irq ->
  auto_eoi (pic_get w) = 0 -> special_mask (pic_get w) = 0 ->
  special_fully_nested_mode (pic_get w) = 0 ->
  Z.testbit (isr (pic_get (pic_intack irq w))) irq = true /\
  isr (pic_get (pic_ioport_write 0 0x20 (pic_intack irq w))) = isr (pic_get w).
Proof.
  intros Hwf Hirq Hnn Hauto Hsm Hsf.
  assert (Hw : winner (pic_get w) irq).
  { rewrite <-Hirq. apply pic_get_irq_winner; [done|]. by rewrite Hirq. }
  change (pic_ioport_write 0 0x20 (pic_intack irq w))
    with (pic_ocw2 0x20 (pic_intack irq w)).
  destruct Hw as (Hp & _ & Hblk). pose proof (pending_range _ _ Hwf Hp) as Hi.
  assert (Hisr : forall j, Z.testbit (isr (pic_get w)) j = true ->
            rank (pic_get w) irq < rank (pic_get w) j).
  { intros j Hj. apply Hblk. split_and!; [done| |]; congruence. }
  assert (Hnot : Z.testbit (isr (pic_get w)) irq = false).
  { apply not_true_is_false. intros Hj. apply Hisr in Hj. lia. }
  pose proof (rank_range (pic_get w) irq) as Hr.
  pose proof (wf_add _ Hwf) as Ha. pose proof (wf_isr _ Hwf) as Hs.
  assert (E : isr (pic_get (pic_intack irq w)) = u8 (Z.lor (isr (pic_get w)) (bit irq)))
    by (rewrite pic_get_intack; by apply isr_ack).
  assert (E2 : priority_add (pic_get (pic_intack irq w)) = priority_add (pic_get w))
    by (rewrite pic_get_intack; by apply priority_add_ack).
  split.
  { rewrite E. autorewrite with bits. rewrite Z.eqb_refl, orb_true_r.
    by destruct (Z.ltb_spec irq 8); [|lia]. }
  rewrite (isr_ocw2_eoi _ (rank (pic_get w) irq)); [|clear E|lia].
  - rewrite E, E2, line_rank by done. by apply clr_set_bit.
  - rewrite pic_get_intack, isr_ack by done.
    apply get_priority_first; rewrite ?priority_add_ack by done; auto with ranges.
    unfold first_in, rank. rewrite priority_add_ack by done.
    fold (rank (pic_get w) irq). split_and!; [lia|lia| |].
    + rewrite line_rank by done. autorewrite with bits.
      rewrite Z.eqb_refl, orb_true_r. by destruct (Z.ltb_spec irq 8); [|lia].
    + intros j Hj. autorewrite with bits. fold (rank (pic_get w) j).
      destruct (Z.eqb_spec j irq) as [->|]; [lia|].
      rewrite orb_false_r, andb_true_iff. intros [_ Hb]. apply Hisr in Hb. lia.
Qed.

Lemma pic_ack_eoi_lifo_witness :
  isr (chip_regs (pic_ioport_write 0 0x20 (pic_intack 1 (mkChip ex_chip 1)))) = 0x08.
Proof.
  refine (proj2 (pic_ack_eoi_lifo (mkChip ex_chip 1) 1 _ _ _ _ _ _));
    [apply ex_chip_wf|reflexivity|lia|reflexivity..].
Defined.

Lemma testbit_land_bit_eqb x k : 0 <= k -> Z.testbit x k = false -> (Z.land x (bit k) =? 0) = true.
Proof. intros Hk Hb. by rewrite land_bit_eqb, Hb. Qed.

(** Bit [k] of [irr] and [last_irr] after the line of [k] is driven. *)
Lemma latch_edge irq level s : 0 <= irq < 8 -> Z.testbit (elcr s) irq = false ->
  Z.testbit (irr (pic_latch irq level s)) irq =
    Z.testbit (irr s) irq || (nz level && negb (Z.testbit (last_irr s) irq)) /\
  Z.testbit (last_irr (pic_latch irq level s)) irq = nz level.
Proof.
  intros Hi He. unfold pic_latch. cbv zeta. rewrite nz_land_bit, He, land_bit_eqb by lia.
  destruct (Z.testbit (last_irr s) irq) eqn:El; destruct (nz level); cbn;
    autorewrite with bits; rewrite ?Z.eqb_refl, ?El;
    destruct (Z.ltb_spec irq 8); try lia; simpl; split; try done;
    by destruct (Z.testbit (irr s) irq).
Qed.

Lemma latch_level irq level s : 0 <= irq < 8 -> Z.testbit (elcr s) irq = true ->
  Z.testbit (irr (pic_latch irq level s)) irq = nz level.
Proof.
  intros Hi He. unfold pic_latch. cbv zeta. rewrite nz_land_bit, He by lia.
  destruct (nz level); cbn; autorewrite with bits; rewrite ?Z.eqb_refl;
    destruct (Z.ltb_spec irq 8); try lia; simpl;
    by destruct (Z.testbit (irr s) irq).
Qed.

(** An edge-triggered line is latched once per rising edge: raising it sets
    the request, the acknowledge clears it, holding the line high does not
    request again, and only a falling edge followed by a rising one does. *)
Theorem pic_edge_latched_once {W} `{PicWorldOk W} (w : W) irq :
  0 <= irq < 8 ->
  Z.testbit (elcr (pic_get w)) irq = false ->
  Z.testbit (last_irr (pic_get w)) irq = false ->
  let w1 := pic_set_irq irq 1 w in
  let w2 := pic_intack irq w1 in
  let w3 := pic_set_irq irq 1 w2 in
  let w4 := pic_set_irq irq 1 (pic_set_irq irq 0 w3) in
  map (fun w => Z.testbit (irr (pic_get w)) irq) [w1; w2; w3; w4]
  = [true; false; false; true].
Proof.
  intros Hi He Hl w1 w2 w3 w4. subst w1 w2 w3 w4. cbn [map].
  rewrite !pic_get_set_irq, !pic_get_intack, !pic_get_set_irq.
  generalize dependent (pic_get w). intros s He Hl.
  set (s1 := pic_latch irq 1 s). set (s2 := pic_ack irq s1).
  destruct (latch_edge irq 1 s Hi He) as [A1 A2]. fold s1 in A1, A2.
  assert (E1 : elcr s1 = elcr s) by apply elcr_latch.
  assert (B0 : Z.testbit (irr s2) irq = false).
  { unfold s2. rewrite irr_ack, E1, testbit_land_bit_eqb by (done || lia).
    autorewrite with bits. by rewrite Z.eqb_refl, andb_false_r. }
  assert (B1 : last_irr s2 = last_irr s1) by apply last_irr_ack.
  assert (B2 : elcr s2 = elcr s) by (unfold s2; by rewrite elcr_ack).
  clearbody s1 s2.
  destruct (latch_edge irq 1 s2 Hi) as [C1 C2]; [by rewrite B2|].
  set (s3 := pic_latch irq 1 s2) in *.
  assert (D0 : elcr s3 = elcr s) by (unfold s3; by rewrite elcr_latch). clearbody s3.
  destruct (latch_edge irq 0 s3 Hi) as [D1 D2]; [by rewrite D0|].
  set (s4 := pic_latch irq 0 s3) in *.
  assert (F0 : elcr s4 = elcr s) by (unfold s4; by rewrite elcr_latch). clearbody s4.
  destruct (latch_edge irq 1 s4 Hi) as [F1 _]; [by rewrite F0|].
  rewrite A1, B0, C1, B0, B1, A2, F1, D2, Hl. cbn.
  by rewrite orb_true_r, orb_true_r.
Qed.

Lemma pic_edge_latched_once_witness :
  map (fun w => Z.testbit (irr (pic_get w)) 6)
    [pic_set_irq 6 1 (mkChip ex_chip 1);
     pic_intack 6 (pic_set_irq 6 1 (mkChip ex_chip 1));
     pic_set_irq 6 1 (pic_intack 6 (pic_set_irq 6 1 (mkChip ex_chip 1)));
     pic_set_irq 6 1 (pic_set_irq 6 0 (pic_set_irq 6 1
       (pic_intack 6 (pic_set_irq 6 1 (mkChip ex_chip 1)))))]
  = [true; false; false; true].
Proof. apply (pic_edge_latched_once (mkChip ex_chip 1) 6); [lia|reflexivity..]. Defined.
