(* ===== verification/Cpu.v ===== *)
(** * Processor state (target/i386/cpu.h)

    [SegmentCache], the architectural state [CPUX86State] (the fields of
    [CPUArchState] the modelled helpers use, with the [X86CPU]/[CPUState]
    fields phys_bits and exception_index kept next to them) and [CPU], what the
    interrupt controllers see of a processor. *)
From S2P Require Import Prelude.

Record SegmentCache := mkSeg {
  selector : Z;
  base : Z;
  limit : Z;
  flags : Z;
}.

#[export] Instance eta_seg : Eta SegmentCache := fun s =>
  mkSeg (selector s) (base s) (limit s) (flags s).
#[export] Instance set_selector : Setter selector := ltac:(derive_setter).
#[export] Instance set_base : Setter base := ltac:(derive_setter).
#[export] Instance set_limit : Setter limit := ltac:(derive_setter).
#[export] Instance set_flags : Setter flags := ltac:(derive_setter).

(** A breakpoint or watchpoint registered for a debug register
    ([CPUBreakpoint]/[CPUWatchpoint]): its address, its length (0 for an
    instruction breakpoint) and its flags. *)
Record hwbp := mkBp { bp_addr : Z; bp_len : Z; bp_flags : Z }.

Record CPUX86State := mkEnv {
  regs : list Z;  (* general registers, R_EAX = 0 ... R_R15 = 15 *)
  eip : Z;
  eflags : Z;  (* CC flags and DF are kept in cc_src / cc_op / df *)
  cc_dst : Z;
  cc_src : Z;
  cc_src2 : Z;
  cc_op : Z;
  df : Z;  (* 1 if D = 0, -1 if D = 1 *)
  hflags : Z;
  hflags2 : Z;
  segs : list SegmentCache;  (* R_ES = 0, R_CS, R_SS, R_DS, R_FS, R_GS *)
  ldt : SegmentCache;
  tr : SegmentCache;
  gdt : SegmentCache;
  idt : SegmentCache;
  cr : list Z;
  a20_mask : Z;
  efer : Z;
  sysenter_cs : Z;
  sysenter_esp : Z;
  sysenter_eip : Z;
  star : Z;
  vm_hsave : Z;
  lstar : Z;
  cstar : Z;
  fmask : Z;
  kernelgsbase : Z;
  uintr_rr : Z;
  uintr_handler : Z;
  uintr_stackadjust : Z;
  uintr_misc : Z;
  uintr_pd : Z;
  uintr_tt : Z;
  uintr_uif : Z;
  tsc_aux : Z;
  xcr0 : Z;
  mcg_status : Z;
  mcg_ctl : Z;
  mcg_cap : Z;
  mce_banks : list Z;
  msr_ia32_misc_enable : Z;
  msr_smi_count : Z;
  msr_bndcfgs : Z;
  bndcs_cfgu : Z;  (* bndcs_regs.cfgu *)
  pat : Z;
  pkru : Z;
  pkrs : Z;
  mtrr_var_base : list Z;  (* mtrr_var[i].base *)
  mtrr_var_mask : list Z;  (* mtrr_var[i].mask *)
  mtrr_fixed : list Z;
  mtrr_deftype : Z;
  nested_cr3 : Z;
  nested_pg_mode : Z;
  vm_vmcb : Z;
  feat_1_edx : Z;  (* features[FEAT_1_EDX] *)
  feat_8000_0001_edx : Z;
  feat_8000_0001_ecx : Z;
  phys_bits : Z;  (* X86CPU.phys_bits *)
  error_code : Z;
  exception_index : Z;  (* CPUState.exception_index *)
  exception_is_int : Z;
  exception_next_eip : Z;
  old_exception : Z;
  dr : list Z;  (* debug registers *)
  cpu_breakpoint : list (option hwbp);  (* union of cpu_breakpoint[4] and cpu_watchpoint[4] *)
  intercept : Z;
  intercept_cr_read : Z;
  intercept_cr_write : Z;
  intercept_dr_read : Z;
  intercept_dr_write : Z;
  intercept_exceptions : Z;
  int_ctl : Z;
  smbase : Z;
  tsc_offset : Z;
  feat_7_0_ebx : Z;  (* features[FEAT_7_0_EBX] *)
  feat_7_0_ecx : Z;
  feat_xsave : Z;
  feat_svm : Z;
  ucode_rev : Z;  (* X86CPU.ucode_rev *)
}.

#[export] Instance eta_env : Eta CPUX86State := fun s =>
  mkEnv (regs s) (eip s) (eflags s) (cc_dst s) (cc_src s) (cc_src2 s) (cc_op s) (df s)
    (hflags s) (hflags2 s) (segs s) (ldt s) (tr s) (gdt s) (idt s) (cr s)
    (a20_mask s) (efer s) (sysenter_cs s) (sysenter_esp s) (sysenter_eip s)
    (star s) (vm_hsave s) (lstar s) (cstar s) (fmask s) (kernelgsbase s)
    (uintr_rr s) (uintr_handler s) (uintr_stackadjust s) (uintr_misc s)
    (uintr_pd s) (uintr_tt s) (uintr_uif s) (tsc_aux s) (xcr0 s)
    (mcg_status s) (mcg_ctl s) (mcg_cap s) (mce_banks s)
    (msr_ia32_misc_enable s) (msr_smi_count s) (msr_bndcfgs s) (bndcs_cfgu s) (pat s)
    (pkru s) (pkrs s) (mtrr_var_base s) (mtrr_var_mask s) (mtrr_fixed s)
    (mtrr_deftype s) (nested_cr3 s) (nested_pg_mode s) (vm_vmcb s)
    (feat_1_edx s) (feat_8000_0001_edx s) (feat_8000_0001_ecx s) (phys_bits s)
    (error_code s) (exception_index s) (exception_is_int s)
    (exception_next_eip s) (old_exception s)
    (dr s) (cpu_breakpoint s) (intercept s) (intercept_cr_read s)
    (intercept_cr_write s) (intercept_dr_read s) (intercept_dr_write s) (intercept_exceptions s) (int_ctl s)
    (smbase s) (tsc_offset s) (feat_7_0_ebx s) (feat_7_0_ecx s) (feat_xsave s) (feat_svm s) (ucode_rev s).
#[export] Instance set_regs : Setter regs := ltac:(derive_setter).
#[export] Instance set_eip : Setter eip := ltac:(derive_setter).
#[export] Instance set_eflags : Setter eflags := ltac:(derive_setter).
#[export] Instance set_cc_dst : Setter cc_dst := ltac:(derive_setter).
#[export] Instance set_cc_src : Setter cc_src := ltac:(derive_setter).
#[export] Instance set_cc_src2 : Setter cc_src2 := ltac:(derive_setter).
#[export] Instance set_cc_op : Setter cc_op := ltac:(derive_setter).
#[export] Instance set_df : Setter df := ltac:(derive_setter).
#[export] Instance set_hflags : Setter hflags := ltac:(derive_setter).
#[export] Instance set_hflags2 : Setter hflags2 := ltac:(derive_setter).
#[export] Instance set_segs : Setter segs := ltac:(derive_setter).
#[export] Instance set_ldt : Setter ldt := ltac:(derive_setter).
#[export] Instance set_tr : Setter tr := ltac:(derive_setter).
#[export] Instance set_gdt : Setter gdt := ltac:(derive_setter).
#[export] Instance set_idt : Setter idt := ltac:(derive_setter).
#[export] Instance set_cr : Setter cr := ltac:(derive_setter).
#[export] Instance set_a20_mask : Setter a20_mask := ltac:(derive_setter).
#[export] Instance set_efer : Setter efer := ltac:(derive_setter).
#[export] Instance set_sysenter_cs : Setter sysenter_cs := ltac:(derive_setter).
#[export] Instance set_sysenter_esp : Setter sysenter_esp := ltac:(derive_setter).
#[export] Instance set_sysenter_eip : Setter sysenter_eip := ltac:(derive_setter).
#[export] Instance set_star : Setter star := ltac:(derive_setter).
#[export] Instance set_vm_hsave : Setter vm_hsave := ltac:(derive_setter).
#[export] Instance set_lstar : Setter lstar := ltac:(derive_setter).
#[export] Instance set_cstar : Setter cstar := ltac:(derive_setter).
#[export] Instance set_fmask : Setter fmask := ltac:(derive_setter).
#[export] Instance set_kernelgsbase : Setter kernelgsbase := ltac:(derive_setter).
#[export] Instance set_uintr_rr : Setter uintr_rr := ltac:(derive_setter).
#[export] Instance set_uintr_handler : Setter uintr_handler := ltac:(derive_setter).
#[export] Instance set_uintr_stackadjust : Setter uintr_stackadjust := ltac:(derive_setter).
#[export] Instance set_uintr_misc : Setter uintr_misc := ltac:(derive_setter).
#[export] Instance set_uintr_pd : Setter uintr_pd := ltac:(derive_setter).
#[export] Instance set_uintr_tt : Setter uintr_tt := ltac:(derive_setter).
#[export] Instance set_uintr_uif : Setter uintr_uif := ltac:(derive_setter).
#[export] Instance set_tsc_aux : Setter tsc_aux := ltac:(derive_setter).
#[export] Instance set_xcr0 : Setter xcr0 := ltac:(derive_setter).
#[export] Instance set_mcg_status : Setter mcg_status := ltac:(derive_setter).
#[export] Instance set_mcg_ctl : Setter mcg_ctl := ltac:(derive_setter).
#[export] Instance set_mcg_cap : Setter mcg_cap := ltac:(derive_setter).
#[export] Instance set_mce_banks : Setter mce_banks := ltac:(derive_setter).
#[export] Instance set_msr_ia32_misc_enable : Setter msr_ia32_misc_enable := ltac:(derive_setter).
#[export] Instance set_msr_smi_count : Setter msr_smi_count := ltac:(derive_setter).
#[export] Instance set_bndcs_cfgu : Setter bndcs_cfgu := ltac:(derive_setter).
#[export] Instance set_msr_bndcfgs : Setter msr_bndcfgs := ltac:(derive_setter).
#[export] Instance set_pat : Setter pat := ltac:(derive_setter).
#[export] Instance set_pkru : Setter pkru := ltac:(derive_setter).
#[export] Instance set_pkrs : Setter pkrs := ltac:(derive_setter).
#[export] Instance set_mtrr_var_base : Setter mtrr_var_base := ltac:(derive_setter).
#[export] Instance set_mtrr_var_mask : Setter mtrr_var_mask := ltac:(derive_setter).
#[export] Instance set_mtrr_fixed : Setter mtrr_fixed := ltac:(derive_setter).
#[export] Instance set_mtrr_deftype : Setter mtrr_deftype := ltac:(derive_setter).
#[export] Instance set_nested_cr3 : Setter nested_cr3 := ltac:(derive_setter).
#[export] Instance set_nested_pg_mode : Setter nested_pg_mode := ltac:(derive_setter).
#[export] Instance set_vm_vmcb : Setter vm_vmcb := ltac:(derive_setter).
#[export] Instance set_feat_1_edx : Setter feat_1_edx := ltac:(derive_setter).
#[export] Instance set_feat_8000_0001_edx : Setter feat_8000_0001_edx := ltac:(derive_setter).
#[export] Instance set_feat_8000_0001_ecx : Setter feat_8000_0001_ecx := ltac:(derive_setter).
#[export] Instance set_phys_bits : Setter phys_bits := ltac:(derive_setter).
#[export] Instance set_error_code : Setter error_code := ltac:(derive_setter).
#[export] Instance set_exception_index : Setter exception_index := ltac:(derive_setter).
#[export] Instance set_exception_is_int : Setter exception_is_int := ltac:(derive_setter).
#[export] Instance set_exception_next_eip : Setter exception_next_eip := ltac:(derive_setter).
#[export] Instance set_old_exception : Setter old_exception := ltac:(derive_setter).
#[export] Instance set_dr : Setter dr := ltac:(derive_setter).
#[export] Instance set_cpu_breakpoint : Setter cpu_breakpoint := ltac:(derive_setter).
#[export] Instance set_intercept : Setter intercept := ltac:(derive_setter).
#[export] Instance set_intercept_cr_read : Setter intercept_cr_read := ltac:(derive_setter).
#[export] Instance set_intercept_cr_write : Setter intercept_cr_write := ltac:(derive_setter).
#[export] Instance set_intercept_dr_read : Setter intercept_dr_read := ltac:(derive_setter).
#[export] Instance set_intercept_dr_write : Setter intercept_dr_write := ltac:(derive_setter).
#[export] Instance set_intercept_exceptions : Setter intercept_exceptions := ltac:(derive_setter).
#[export] Instance set_int_ctl : Setter int_ctl := ltac:(derive_setter).
#[export] Instance set_smbase : Setter smbase := ltac:(derive_setter).
#[export] Instance set_tsc_offset : Setter tsc_offset := ltac:(derive_setter).
#[export] Instance set_feat_7_0_ebx : Setter feat_7_0_ebx := ltac:(derive_setter).
#[export] Instance set_feat_7_0_ecx : Setter feat_7_0_ecx := ltac:(derive_setter).
#[export] Instance set_feat_xsave : Setter feat_xsave := ltac:(derive_setter).
#[export] Instance set_feat_svm : Setter feat_svm := ltac:(derive_setter).
#[export] Instance set_ucode_rev : Setter ucode_rev := ltac:(derive_setter).

Record CPU := mkCPU {
  interrupt_request : Z;
  halted : Z;
  env : CPUX86State;
}.

#[export] Instance eta_cpu : Eta CPU := fun s =>
  mkCPU (interrupt_request s) (halted s) (env s).
#[export] Instance set_interrupt_request : Setter interrupt_request := ltac:(derive_setter).
#[export] Instance set_halted : Setter halted := ltac:(derive_setter).
#[export] Instance set_env : Setter env := ltac:(derive_setter).

#[export] Instance seg_inhabited : Inhabited SegmentCache := populate (mkSeg 0 0 0 0).

(** ** Constants *)
Definition R_EAX : Z := 0.
Definition R_ECX : Z := 1.
Definition R_EDX : Z := 2.
Definition R_EBX : Z := 3.
Definition R_ESP : Z := 4.
Definition R_EBP : Z := 5.
Definition R_ESI : Z := 6.
Definition R_EDI : Z := 7.
Definition R_R11 : Z := 11.
Definition R_R12 : Z := 12.
Definition R_ES : Z := 0.
Definition R_CS : Z := 1.
Definition R_SS : Z := 2.
Definition R_DS : Z := 3.
Definition R_FS : Z := 4.
Definition R_GS : Z := 5.

Definition DESC_G_MASK : Z := bit 23.
Definition DESC_B_MASK : Z := bit 22.
Definition DESC_L_MASK : Z := bit 21.
Definition DESC_P_MASK : Z := bit 15.
Definition DESC_S_MASK : Z := bit 12.
Definition DESC_CS_MASK : Z := bit 11.
Definition DESC_C_MASK : Z := bit 10.
Definition DESC_R_MASK : Z := bit 9.
Definition DESC_W_MASK : Z := bit 9.
Definition DESC_A_MASK : Z := bit 8.

Definition CC_C : Z := 0x0001.
Definition CC_P : Z := 0x0004.
Definition CC_A : Z := 0x0010.
Definition CC_Z : Z := 0x0040.
Definition CC_S : Z := 0x0080.
Definition CC_O : Z := 0x0800.
Definition TF_MASK : Z := 0x100.
Definition IF_MASK : Z := 0x200.
Definition DF_MASK : Z := 0x400.
Definition IOPL_MASK : Z := 0x3000.
Definition NT_MASK : Z := 0x4000.
Definition RF_MASK : Z := 0x10000.
Definition VM_MASK : Z := 0x20000.
Definition AC_MASK : Z := 0x40000.
Definition ID_MASK : Z := 0x200000.

Definition HF_CPL_MASK : Z := 3.
Definition HF_INHIBIT_IRQ_MASK : Z := bit 3.
Definition HF_CS32_MASK : Z := bit 4.
Definition HF_SS32_MASK : Z := bit 5.
Definition HF_ADDSEG_MASK : Z := bit 6.
Definition HF_LMA_MASK : Z := bit 14.
Definition HF_CS64_MASK : Z := bit 15.
Definition HF_SMAP_MASK : Z := bit 23.
Definition HF_SMM_MASK : Z := bit 19.
Definition HF_SVME_MASK : Z := bit 20.
Definition HF_GUEST_MASK : Z := bit 21.
Definition HF_MPX_EN_MASK : Z := bit 25.
Definition HF_MPX_IU_MASK : Z := bit 26.
Definition HF2_GIF_MASK : Z := bit 0.
Definition HF2_HIF_MASK : Z := bit 1.
Definition HF2_NMI_MASK : Z := bit 2.
Definition HF2_VINTR_MASK : Z := bit 3.
Definition HF2_MPX_PR_MASK : Z := bit 5.
Definition HF2_NPT_MASK : Z := bit 6.
Definition HF2_VGIF_MASK : Z := bit 8.
Definition CR0_PE_MASK : Z := bit 0.
Definition CR0_WP_MASK : Z := bit 16.
Definition CR0_PG_MASK : Z := bit 31.
Definition CR4_OSXSAVE_MASK : Z := bit 18.
Definition XSTATE_BNDCSR_MASK : Z := bit 4.

(** [env->regs[r]], [env->cr[r]], [env->segs[r]] *)
Definition reg (e : CPUX86State) (r : Z) : Z := nth (Z.to_nat r) (regs e) 0.
Definition set_reg (r v : Z) (e : CPUX86State) : CPUX86State :=
  e <| regs := <[Z.to_nat r := u64 v]> (regs e) |>.
Definition crn (e : CPUX86State) (r : Z) : Z := nth (Z.to_nat r) (cr e) 0.
Definition seg (e : CPUX86State) (r : Z) : SegmentCache := segs e !!! Z.to_nat r.

(** ** Segment cache (helper.c, cpu.h) *)
Definition cpu_sync_bndcs_hflags (e : CPUX86State) : CPUX86State :=
  let bndcsr := u32 (if Z.land (hflags e) HF_CPL_MASK =? 3
                     then bndcs_cfgu e else msr_bndcfgs e) in
  let hf := if nz (Z.land (crn e 4) CR4_OSXSAVE_MASK)
               && nz (Z.land (xcr0 e) XSTATE_BNDCSR_MASK)
               && nz (Z.land bndcsr 1)
            then Z.lor (hflags e) HF_MPX_EN_MASK
            else clr (hflags e) HF_MPX_EN_MASK in
  let hf2 := if nz (Z.land bndcsr 2)
             then Z.lor (hflags2 e) HF2_MPX_PR_MASK
             else clr (hflags2 e) HF2_MPX_PR_MASK in
  e <| hflags := hf |> <| hflags2 := hf2 |>.

Definition cpu_x86_load_seg_cache (seg_reg sel b l f : Z) (e : CPUX86State) : CPUX86State :=
  let e := e <| segs := <[Z.to_nat seg_reg := mkSeg (u32 sel) (u64 b) (u32 l) (u32 f)]> (segs e) |> in
  let e :=
    if seg_reg =? R_CS then
      if nz (Z.land (hflags e) HF_LMA_MASK) && nz (Z.land f DESC_L_MASK) then
        (* long mode *)
        e <| hflags := clr (Z.lor (hflags e)
               (Z.lor (Z.lor HF_CS32_MASK HF_SS32_MASK) HF_CS64_MASK)) HF_ADDSEG_MASK |>
      else
        (* legacy / compatibility case *)
        let new_hflags := Z.shiftr (Z.land (flags (seg e R_CS)) DESC_B_MASK) (22 - 4) in
        e <| hflags := Z.lor (clr (hflags e) (Z.lor HF_CS32_MASK HF_CS64_MASK)) new_hflags |>
    else e in
  let e :=
    if seg_reg =? R_SS then
      let cpl := Z.land (Z.shiftr f 13) 3 in
      cpu_sync_bndcs_hflags (e <| hflags := Z.lor (clr (hflags e) HF_CPL_MASK) cpl |>)
    else e in
  let new_hflags := Z.shiftr (Z.land (flags (seg e R_SS)) DESC_B_MASK) (22 - 5) in
  let new_hflags :=
    if nz (Z.land (hflags e) HF_CS64_MASK) then new_hflags
    else if negb (nz (Z.land (crn e 0) CR0_PE_MASK)) || nz (Z.land (eflags e) VM_MASK)
            || negb (nz (Z.land (hflags e) HF_CS32_MASK))
    then Z.lor new_hflags HF_ADDSEG_MASK
    else Z.lor new_hflags
           (Z.shiftl (b2z (nz (Z.lor (Z.lor (base (seg e R_DS)) (base (seg e R_ES)))
                                     (base (seg e R_SS))))) 6) in
  e <| hflags := Z.lor (clr (hflags e) (Z.lor HF_SS32_MASK HF_ADDSEG_MASK)) new_hflags |>.

(** [cpu_x86_load_seg_cache_sipi] *)
Definition cpu_x86_load_seg_cache_sipi (vec : Z) (c : CPU) : CPU :=
  let e := env c <| eip := 0 |> in
  c <| env := cpu_x86_load_seg_cache R_CS (Z.shiftl (u8 vec) 8) (Z.shiftl (u8 vec) 12)
                (limit (seg e R_CS)) (flags (seg e R_CS)) e |>
    <| halted := 0 |>.

(** ** Flags (target/i386/tcg/misc_helper.c, cpu-sysemu.c) *)
Definition CC_ALL : Z := Z.lor CC_O (Z.lor CC_S (Z.lor CC_Z (Z.lor CC_A (Z.lor CC_P CC_C)))).
Definition CC_OP_EFLAGS : Z := 1.

Definition cpu_load_eflags (fl update_mask : Z) (e : CPUX86State) : CPUX86State :=
  let fl := s32 fl in  (* int eflags *)
  e <| cc_src := Z.land fl CC_ALL |>
    <| cc_op := CC_OP_EFLAGS |>
    <| df := 1 - 2 * Z.land (Z.shiftr fl 10) 1 |>
    <| eflags := u64 (Z.lor (Z.lor (clr (eflags e) update_mask) (Z.land fl update_mask)) 0x2) |>.

Definition cpu_clear_apic_feature (e : CPUX86State) : CPUX86State :=
  e <| feat_1_edx := clr (feat_1_edx e) (bit 9) |>.

(** A processor state with every register clear, the starting point of the
    concrete states the witnesses evaluate. *)
Definition ex_env : CPUX86State :=
  mkEnv
    (repeat 0 16) 0 0x202 0 0 0 1 1 0 0 (repeat (mkSeg 0 0 0 0) 6) (mkSeg 0 0 0 0) (mkSeg
    0 0 0 0) (mkSeg 0 0 0 0) (mkSeg 0 0 0 0) (repeat 0 5) (-1) 0 0 0 0 0 0 0 0 0 0 0 0 0
    0 0 0 0 0 0 0 0 0 (repeat 0 40) 0 0 0 0 0 0 0 (repeat 0 8) (repeat 0 8) (repeat 0
    11) 0 0 0 0 0 0 0 40 0 (-1) 0 0 (-1) (repeat 0 8) (repeat None 4) 0 0 0 0 0 0 0
    0x30000 0 0 0 0 0 0.

#[export] Instance env_inhabited : Inhabited CPUX86State := populate ex_env.
#[export] Instance cpu_inhabited : Inhabited CPU := populate (mkCPU 0 0 ex_env).
