(* ===== verification/Machine.v ===== *)
(** * Machine state

    The state the interrupt path shares: the local APICs and their processors,
    the two 8259A chips, the I/O APICs, physical memory and the virtual clock.
    A local APIC object is named by its slot in [local_apics]; [s->cpu] of that
    APIC is the processor of the same slot (apic.c:[apic_realize] puts an APIC
    into the slot of its initial id, x86.c creates one APIC per CPU). *)
From S2P Require Import Prelude Cpu Pic.

Module Apic.
Record APICCommonState := mkAPIC {
  apicbase : Z;
  id : Z;  (* legacy APIC ID *)
  initial_apic_id : Z;
  version : Z;
  arb_id : Z;
  tpr : Z;
  spurious_vec : Z;
  log_dest : Z;
  dest_mode : Z;
  isr : list Z;  (* uint32_t isr[8], in service *)
  tmr : list Z;  (* uint32_t tmr[8], trigger mode *)
  irr : list Z;  (* uint32_t irr[8], interrupt request *)
  lvt : list Z;  (* uint32_t lvt[APIC_LVT_NB] *)
  esr : Z;
  icr : list Z;  (* uint32_t icr[2] *)
  divide_conf : Z;
  count_shift : Z;
  initial_count : Z;
  initial_count_load_time : Z;
  next_time : Z;
  timer : option Z;  (* expiry time of the armed QEMUTimer *)
  timer_expiry : Z;
  sipi_vector : Z;
  wait_for_sipi : Z;
  vapic_paddr : Z;
}.

#[export] Instance eta_apic : Eta APICCommonState := fun s =>
  mkAPIC (apicbase s) (id s) (initial_apic_id s) (version s) (arb_id s)
    (tpr s) (spurious_vec s) (log_dest s) (dest_mode s) (isr s) (tmr s)
    (irr s) (lvt s) (esr s) (icr s) (divide_conf s) (count_shift s)
    (initial_count s) (initial_count_load_time s) (next_time s) (timer s)
    (timer_expiry s) (sipi_vector s) (wait_for_sipi s) (vapic_paddr s).
#[export] Instance set_apicbase : Setter apicbase := ltac:(derive_setter).
#[export] Instance set_id : Setter id := ltac:(derive_setter).
#[export] Instance set_initial_apic_id : Setter initial_apic_id := ltac:(derive_setter).
#[export] Instance set_version : Setter version := ltac:(derive_setter).
#[export] Instance set_arb_id : Setter arb_id := ltac:(derive_setter).
#[export] Instance set_tpr : Setter tpr := ltac:(derive_setter).
#[export] Instance set_spurious_vec : Setter spurious_vec := ltac:(derive_setter).
#[export] Instance set_log_dest : Setter log_dest := ltac:(derive_setter).
#[export] Instance set_dest_mode : Setter dest_mode := ltac:(derive_setter).
#[export] Instance set_isr : Setter isr := ltac:(derive_setter).
#[export] Instance set_tmr : Setter tmr := ltac:(derive_setter).
#[export] Instance set_irr : Setter irr := ltac:(derive_setter).
#[export] Instance set_lvt : Setter lvt := ltac:(derive_setter).
#[export] Instance set_esr : Setter esr := ltac:(derive_setter).
#[export] Instance set_icr : Setter icr := ltac:(derive_setter).
#[export] Instance set_divide_conf : Setter divide_conf := ltac:(derive_setter).
#[export] Instance set_count_shift : Setter count_shift := ltac:(derive_setter).
#[export] Instance set_initial_count : Setter initial_count := ltac:(derive_setter).
#[export] Instance set_initial_count_load_time : Setter initial_count_load_time := ltac:(derive_setter).
#[export] Instance set_next_time : Setter next_time := ltac:(derive_setter).
#[export] Instance set_timer : Setter timer := ltac:(derive_setter).
#[export] Instance set_timer_expiry : Setter timer_expiry := ltac:(derive_setter).
#[export] Instance set_sipi_vector : Setter sipi_vector := ltac:(derive_setter).
#[export] Instance set_wait_for_sipi : Setter wait_for_sipi := ltac:(derive_setter).
#[export] Instance set_vapic_paddr : Setter vapic_paddr := ltac:(derive_setter).
End Apic.
Export (hints) Apic.
Abbreviation APICCommonState := Apic.APICCommonState.

Record IOAPICCommonState := mkIOAPIC {
  io_id : Z;
  ioregsel : Z;
  io_irr : Z;
  ioredtbl : list Z;  (* uint64_t ioredtbl[IOAPIC_NUM_PINS] *)
  io_version : Z;
  irq_count : list Z;
  irq_level : list Z;
  irq_eoi : list Z;
  delayed_service : option Z;  (* expiry of delayed_ioapic_service_timer *)
}.

#[export] Instance eta_ioapic : Eta IOAPICCommonState := fun s =>
  mkIOAPIC (io_id s) (ioregsel s) (io_irr s) (ioredtbl s) (io_version s)
    (irq_count s) (irq_level s) (irq_eoi s) (delayed_service s).
#[export] Instance set_io_id : Setter io_id := ltac:(derive_setter).
#[export] Instance set_ioregsel : Setter ioregsel := ltac:(derive_setter).
#[export] Instance set_io_irr : Setter io_irr := ltac:(derive_setter).
#[export] Instance set_ioredtbl : Setter ioredtbl := ltac:(derive_setter).
#[export] Instance set_io_version : Setter io_version := ltac:(derive_setter).
#[export] Instance set_irq_count : Setter irq_count := ltac:(derive_setter).
#[export] Instance set_irq_level : Setter irq_level := ltac:(derive_setter).
#[export] Instance set_irq_eoi : Setter irq_eoi := ltac:(derive_setter).
#[export] Instance set_delayed_service : Setter delayed_service := ltac:(derive_setter).

Record Machine := mkMachine {
  local_apics : gmap nat APICCommonState;  (* local_apics[], absent = NULL *)
  cpus : gmap nat CPU;  (* the CPU of each local APIC *)
  current_cpu : option nat;  (* None outside a vCPU thread *)
  apic_irq_delivered : Z;
  apic_report_tpr_access : bool;
  tpr_reports : list (nat * bool);  (* cpu_report_tpr_access calls (read = false) *)
  isa_pic : bool;  (* isa_pic != NULL *)
  pic_master : PICCommonState;
  pic_slave : PICCommonState;
  pic_irq_level : list Z;  (* i8259_common.c irq_level[16] *)
  pic_irq_count : list Z;
  ioapics : gmap nat IOAPICCommonState;
  mem : gmap Z Z;  (* physical memory, byte addressed *)
  clock : Z;  (* QEMU_CLOCK_VIRTUAL in ns *)
  reset_requested : bool;  (* qemu_system_reset_request *)
  uintr_recognized : bool;  (* globals of seg_helper.c *)
  uintr_in_uiret_called : bool;
  uintr_rrzero_count : Z;
  aborted : bool;  (* an assertion of the emulator has failed *)
}.

#[export] Instance eta_machine : Eta Machine := fun s =>
  mkMachine (local_apics s) (cpus s) (current_cpu s) (apic_irq_delivered s)
    (apic_report_tpr_access s) (tpr_reports s) (isa_pic s) (pic_master s)
    (pic_slave s) (pic_irq_level s) (pic_irq_count s) (ioapics s) (mem s)
    (clock s) (reset_requested s) (uintr_recognized s) (uintr_in_uiret_called s)
    (uintr_rrzero_count s) (aborted s).
#[export] Instance set_local_apics : Setter local_apics := ltac:(derive_setter).
#[export] Instance set_cpus : Setter cpus := ltac:(derive_setter).
#[export] Instance set_current_cpu : Setter current_cpu := ltac:(derive_setter).
#[export] Instance set_apic_irq_delivered : Setter apic_irq_delivered := ltac:(derive_setter).
#[export] Instance set_apic_report_tpr_access : Setter apic_report_tpr_access := ltac:(derive_setter).
#[export] Instance set_tpr_reports : Setter tpr_reports := ltac:(derive_setter).
#[export] Instance set_isa_pic : Setter isa_pic := ltac:(derive_setter).
#[export] Instance set_pic_master : Setter pic_master := ltac:(derive_setter).
#[export] Instance set_pic_slave : Setter pic_slave := ltac:(derive_setter).
#[export] Instance set_pic_irq_level : Setter pic_irq_level := ltac:(derive_setter).
#[export] Instance set_pic_irq_count : Setter pic_irq_count := ltac:(derive_setter).
#[export] Instance set_ioapics : Setter ioapics := ltac:(derive_setter).
#[export] Instance set_mem : Setter mem := ltac:(derive_setter).
#[export] Instance set_clock : Setter clock := ltac:(derive_setter).
#[export] Instance set_reset_requested : Setter reset_requested := ltac:(derive_setter).
#[export] Instance set_uintr_recognized : Setter uintr_recognized := ltac:(derive_setter).
#[export] Instance set_uintr_in_uiret_called : Setter uintr_in_uiret_called := ltac:(derive_setter).
#[export] Instance set_uintr_rrzero_count : Setter uintr_rrzero_count := ltac:(derive_setter).
#[export] Instance set_aborted : Setter aborted := ltac:(derive_setter).

#[export] Instance apic_inhabited : Inhabited APICCommonState :=
  populate (Apic.mkAPIC 0 0 0 0 0 0 0 0 0 [] [] [] [] 0 [] 0 0 0 0 0 None 0 0 0 0).
#[export] Instance ioapic_inhabited : Inhabited IOAPICCommonState :=
  populate (mkIOAPIC 0 0 0 [] 0 [] [] [] None).

(** ** Arrays

    [tab[i]] and [tab[i] = v] of a C array with a [Z] index; every index the
    code computes is shown to be in range where it matters. *)
Definition aget (tab : list Z) (i : Z) : Z := nth (Z.to_nat i) tab 0.
Definition aset (tab : list Z) (i v : Z) : list Z := <[Z.to_nat i := v]> tab.

Lemma length_aset tab i v : length (aset tab i v) = length tab.
Proof. apply length_insert. Qed.

Lemma aget_aset_eq tab i v : 0 <= i < Z.of_nat (length tab) -> aget (aset tab i v) i = v.
Proof.
  intros Hi. unfold aget, aset. apply nth_lookup_Some.
  apply list_lookup_insert_eq. lia.
Qed.

Lemma aget_aset_ne tab i j v : 0 <= i -> 0 <= j -> i <> j -> aget (aset tab i v) j = aget tab j.
Proof.
  intros Hi Hj Hne. unfold aget, aset. rewrite !nth_lookup.
  rewrite list_lookup_insert_ne by lia. done.
Qed.

Lemma aget_repeat x n i : 0 <= i < Z.of_nat n -> aget (repeat x n) i = x.
Proof. intros Hi. unfold aget. apply nth_repeat_lt. lia. Qed.

(** ** Physical memory *)
Definition ldb (mm : gmap Z Z) (a : Z) : Z := default 0 (mm !! a).

Fixpoint ld (n : nat) (mm : gmap Z Z) (a : Z) : Z :=
  match n with
  | O => 0
  | S n' => ldb mm a + 256 * ld n' mm (a + 1)
  end.

Fixpoint st (n : nat) (a v : Z) (mm : gmap Z Z) : gmap Z Z :=
  match n with
  | O => mm
  | S n' => st n' (a + 1) (v / 256) (<[a := v mod 256]> mm)
  end.

(** ** Requests to a processor (accel/tcg/tcg-accel-ops.c, hw/core/cpu-common.c) *)
Definition CPU_INTERRUPT_HARD : Z := 0x0002.
Definition CPU_INTERRUPT_POLL : Z := 0x0010.
Definition CPU_INTERRUPT_SMI : Z := 0x0040.
Definition CPU_INTERRUPT_NMI : Z := 0x0200.
Definition CPU_INTERRUPT_MCE : Z := 0x1000.
Definition CPU_INTERRUPT_VIRQ : Z := 0x0100.
Definition CPU_INTERRUPT_SIPI : Z := 0x0800.
Definition CPU_INTERRUPT_INIT : Z := 0x0400.

Definition upd_cpu (d : nat) (f : CPU -> CPU) (m : Machine) : Machine :=
  m <| cpus := alter f d (cpus m) |>.

Definition cpu_interrupt (d : nat) (mask : Z) (m : Machine) : Machine :=
  upd_cpu d (fun c => c <| interrupt_request := Z.lor (interrupt_request c) mask |>) m.

Definition cpu_reset_interrupt (d : nat) (mask : Z) (m : Machine) : Machine :=
  upd_cpu d (fun c => c <| interrupt_request := clr (interrupt_request c) mask |>) m.

Definition qemu_cpu_is_self (d : nat) (m : Machine) : bool :=
  match current_cpu m with Some c => (c =? d)%nat | None => false end.

Definition upd_apic (d : nat) (f : APICCommonState -> APICCommonState) (m : Machine) : Machine :=
  m <| local_apics := alter f d (local_apics m) |>.

(** [request d m]: the interrupt_request word of processor [d]. *)
Definition request (d : nat) (m : Machine) : Z :=
  match cpus m !! d with Some c => interrupt_request c | None => 0 end.

(** A machine of [n] processors with APICs out of reset, enabled, ids equal to
    their slots, processor 0 running; the starting point of the concrete states
    the witnesses evaluate. *)
Definition ex_apic (k : nat) : APICCommonState :=
  Apic.mkAPIC 0xfee00900 (Z.of_nat k) (Z.of_nat k) 0x14 0 0 0x1ff 0 0xf
    (repeat 0 8) (repeat 0 8) (repeat 0 8) (repeat 0x10000 6) 0 (repeat 0 2)
    0 0 0 0 0 None (-1) 0 0 0.

Definition ex_pic (is_master : bool) : PICCommonState :=
  mkPIC 0 0 0 0 0 0x20 0 0 0 0 0 0 0 0 0 0 0xf8 is_master.

Definition ex_machine (n : nat) : Machine :=
  mkMachine (list_to_map (map (fun k => (k, ex_apic k)) (seq 0 n)))
    (list_to_map (map (fun k => (k, mkCPU 0 0 ex_env)) (seq 0 n)))
    (Some 0%nat) 0 false [] true (ex_pic true) (ex_pic false)
    (repeat 0 16) (repeat 0 16) ∅ ∅ 1000 false false false 0 false.
