(* ===== verification/Apic.v ===== *)
(** * The local APIC (hw/intc/apic.c, hw/intc/apic_common.c) *)
From S2P Require Import Prelude Cpu Pic Machine.
Import Machine.Apic.

Definition MAX_APICS : Z := 255.
Definition MAX_APIC_WORDS : Z := 8.

Definition SYNC_FROM_VAPIC : Z := 0x1.
Definition SYNC_TO_VAPIC : Z := 0x2.
Definition SYNC_ISR_IRR_TO_VAPIC : Z := 0x4.

Definition APIC_LVT_TIMER : Z := 0.
Definition APIC_LVT_LINT0 : Z := 3.
Definition APIC_LVT_LINT1 : Z := 4.
Definition APIC_LVT_NB : Z := 6.

Definition APIC_DM_FIXED : Z := 0.
Definition APIC_DM_LOWPRI : Z := 1.
Definition APIC_DM_SMI : Z := 2.
Definition APIC_DM_NMI : Z := 4.
Definition APIC_DM_INIT : Z := 5.
Definition APIC_DM_SIPI : Z := 6.
Definition APIC_DM_EXTINT : Z := 7.

Definition APIC_TRIGGER_EDGE : Z := 0.
Definition APIC_TRIGGER_LEVEL : Z := 1.
Definition APIC_LVT_TIMER_PERIODIC : Z := bit 17.
Definition APIC_LVT_MASKED : Z := bit 16.
Definition APIC_LVT_LEVEL_TRIGGER : Z := bit 15.
Definition APIC_ESR_ILLEGAL_ADDRESS : Z := bit 7.
Definition APIC_SV_DIRECTED_IO : Z := bit 12.
Definition APIC_SV_ENABLE : Z := bit 8.
Definition MSR_IA32_APICBASE_BSP : Z := bit 8.
Definition MSR_IA32_APICBASE_ENABLE : Z := bit 11.
Definition MSR_IA32_APICBASE_EXTD : Z := bit 10.
Definition APIC_DEFAULT_ADDRESS : Z := 0xfee00000.
Definition CPUID_APIC : Z := bit 9.

(** ** Vector registers: 256 bits in eight words *)

(** Leading and trailing zeros of a 32-bit word (32 for zero). *)
Definition clz32 (v : Z) : Z := if v =? 0 then 32 else 31 - Z.log2 v.
Definition ctz32 (v : Z) : Z := if v =? 0 then 32 else Z.log2 (Z.land v (- v)).

Definition apic_fls_bit (value : Z) : Z := 31 - clz32 value.
Definition apic_ffs_bit (value : Z) : Z := ctz32 value.

Definition apic_set_bit (tab : list Z) (index : Z) : list Z :=
  let i := Z.shiftr index 5 in
  let mask := bit (Z.land index 0x1f) in
  aset tab i (u32 (Z.lor (aget tab i) mask)).

Definition apic_reset_bit (tab : list Z) (index : Z) : list Z :=
  let i := Z.shiftr index 5 in
  let mask := bit (Z.land index 0x1f) in
  aset tab i (clr (aget tab i) mask).

Definition apic_get_bit (tab : list Z) (index : Z) : bool :=
  let i := Z.shiftr index 5 in
  let mask := bit (Z.land index 0x1f) in
  nz (Z.land (aget tab i) mask).

(** The loop [for (i = 7; i >= 0; i--)]: [n] words are left, the next is [n - 1]. *)
Fixpoint highest_from (n : nat) (tab : list Z) : Z :=
  match n with
  | O => -1
  | S i => if nz (aget tab (Z.of_nat i))
           then Z.of_nat i * 32 + apic_fls_bit (aget tab (Z.of_nat i))
           else highest_from i tab
  end.

Definition get_highest_priority_int (tab : list Z) : Z := highest_from 8 tab.

(** ** VAPIC page *)

(** [VAPICState] is packed: tpr, isr, zero, irr, enabled, one byte each. *)
Definition apic_sync_vapic (d : nat) (sync_type : Z) (m : Machine) : Machine :=
  let s := local_apics m !!! d in
  if vapic_paddr s =? 0 then m
  else
    let m := if nz (Z.land sync_type SYNC_FROM_VAPIC)
             then upd_apic d (fun s => s <| tpr := ldb (mem m) (vapic_paddr s) |>) m
             else m in
    if nz (Z.land sync_type (Z.lor SYNC_TO_VAPIC SYNC_ISR_IRR_TO_VAPIC)) then
      let s := local_apics m !!! d in
      let vector_isr := Z.max 0 (get_highest_priority_int (isr s)) in
      let vector_irr := Z.max 0 (get_highest_priority_int (irr s)) in
      let mm := mem m in
      let mm := <[vapic_paddr s + 1 := Z.land vector_isr 0xf0]> mm in
      let mm := <[vapic_paddr s + 2 := 0]> mm in
      let mm := <[vapic_paddr s + 3 := Z.land vector_irr 0xff]> mm in
      let mm := if nz (Z.land sync_type SYNC_TO_VAPIC)
                then <[vapic_paddr s := tpr s]> (<[vapic_paddr s + 4 := 1]> mm)
                else mm in
      (* assert(qemu_cpu_is_self(CPU(s->cpu))) *)
      let failed := nz (Z.land sync_type SYNC_TO_VAPIC) && negb (qemu_cpu_is_self d m) in
      m <| mem := mm |> <| aborted := aborted m || failed |>
    else m.

Definition apic_vapic_base_update (d : nat) (m : Machine) : Machine :=
  apic_sync_vapic d SYNC_TO_VAPIC m.

(** ** Priorities *)
Definition apic_get_ppr (s : APICCommonState) : Z :=
  let tpr4 := Z.shiftr (tpr s) 4 in
  let isrv := get_highest_priority_int (isr s) in
  let isrv := if isrv <? 0 then 0 else isrv in
  let isrv := Z.shiftr isrv 4 in
  if isrv <=? tpr4 then tpr s else Z.shiftl isrv 4.

Definition apic_get_arb_pri (s : APICCommonState) : Z := 0.

(** < 0: low priority interrupt, 0: no interrupt, > 0: interrupt number. *)
Definition apic_irq_pending (s : APICCommonState) : Z :=
  if negb (nz (Z.land (spurious_vec s) APIC_SV_ENABLE)) then 0
  else
    let irrv := get_highest_priority_int (irr s) in
    if irrv <? 0 then 0
    else
      let ppr := apic_get_ppr s in
      if nz ppr && (Z.land irrv 0xf0 <=? Z.land ppr 0xf0) then -1
      else irrv.

(** Without a local APIC the answer is -1, which the callers take for yes. *)
Definition apic_accept_pic_intr (d : nat) (m : Machine) : bool :=
  match local_apics m !! d with
  | None => true
  | Some s =>
      let lvt0 := aget (lvt s) APIC_LVT_LINT0 in
      if (Z.land (apicbase s) MSR_IA32_APICBASE_ENABLE =? 0)
         || (Z.land lvt0 APIC_LVT_MASKED =? 0)
      then isa_pic m else false
  end.

(** Signal the CPU if an irq is pending. *)
Definition apic_update_irq (d : nat) (m : Machine) : Machine :=
  if negb (qemu_cpu_is_self d m) then cpu_interrupt d CPU_INTERRUPT_POLL m
  else if 0 <? apic_irq_pending (local_apics m !!! d)
  then cpu_interrupt d CPU_INTERRUPT_HARD m
  else if negb (apic_accept_pic_intr d m) || negb (pic_get_output (pic_master m))
  then cpu_reset_interrupt d CPU_INTERRUPT_HARD m
  else m.

Definition apic_poll_irq (d : nat) (m : Machine) : Machine :=
  apic_update_irq d (apic_sync_vapic d SYNC_FROM_VAPIC m).

Definition apic_report_irq_delivered (delivered : Z) (m : Machine) : Machine :=
  m <| apic_irq_delivered := s32 (apic_irq_delivered m + delivered) |>.

Definition apic_reset_irq_delivered (m : Machine) : Machine :=
  m <| apic_irq_delivered := 0 |>.

Definition apic_get_irq_delivered (m : Machine) : Z := apic_irq_delivered m.

Definition apic_set_irq (d : nat) (vector_num trigger_mode : Z) (m : Machine) : Machine :=
  let m := apic_report_irq_delivered
             (b2z (negb (apic_get_bit (irr (local_apics m !!! d)) vector_num))) m in
  let m := upd_apic d (fun s =>
             s <| irr := apic_set_bit (irr s) vector_num |>
               <| tmr := if nz trigger_mode then apic_set_bit (tmr s) vector_num
                         else apic_reset_bit (tmr s) vector_num |>) m in
  let m := if nz (vapic_paddr (local_apics m !!! d))
           then apic_sync_vapic d SYNC_FROM_VAPIC
                  (apic_sync_vapic d SYNC_ISR_IRR_TO_VAPIC m)
           else m in
  apic_update_irq d m.

Definition apic_local_deliver (d : nat) (vector : Z) (m : Machine) : Machine :=
  let l := aget (lvt (local_apics m !!! d)) vector in
  if nz (Z.land l APIC_LVT_MASKED) then m
  else
    let dm := Z.land (Z.shiftr l 8) 7 in
    if dm =? APIC_DM_SMI then cpu_interrupt d CPU_INTERRUPT_SMI m
    else if dm =? APIC_DM_NMI then cpu_interrupt d CPU_INTERRUPT_NMI m
    else if dm =? APIC_DM_EXTINT then cpu_interrupt d CPU_INTERRUPT_HARD m
    else if dm =? APIC_DM_FIXED then
      let trigger_mode :=
        if ((vector =? APIC_LVT_LINT0) || (vector =? APIC_LVT_LINT1))
           && nz (Z.land l APIC_LVT_LEVEL_TRIGGER)
        then APIC_TRIGGER_LEVEL else APIC_TRIGGER_EDGE in
      apic_set_irq d (Z.land l 0xff) trigger_mode m
    else m.

Definition apic_deliver_pic_intr (d : nat) (level : Z) (m : Machine) : Machine :=
  if nz level then apic_local_deliver d APIC_LVT_LINT0 m
  else
    let l := aget (lvt (local_apics m !!! d)) APIC_LVT_LINT0 in
    let dm := Z.land (Z.shiftr l 8) 7 in
    if dm =? APIC_DM_FIXED then
      if negb (nz (Z.land l APIC_LVT_LEVEL_TRIGGER)) then m
      else apic_update_irq d
             (upd_apic d (fun s => s <| irr := apic_reset_bit (irr s) (Z.land l 0xff) |>) m)
    else if dm =? APIC_DM_EXTINT then apic_update_irq d m
    else m.

Definition apic_external_nmi (d : nat) (m : Machine) : Machine :=
  apic_local_deliver d APIC_LVT_LINT1 m.

(** ** The APIC bus *)

(** [foreach_apic]: run the code for every present APIC in the bitmask, in
    increasing slot order. *)
Definition foreach_apic (deliver_bitmask : list Z) (code : nat -> Machine -> Machine)
    (m : Machine) : Machine :=
  fold_left (fun m k =>
    if apic_get_bit deliver_bitmask (Z.of_nat k) then
      match local_apics m !! k with
      | Some _ => code k m
      | None => m
      end
    else m) (seq 0 256) m.

(** The first destination of a lowest-priority message: the lowest set bit. *)
Fixpoint lowpri_dest (n : nat) (i : Z) (deliver_bitmask : list Z) : Z :=
  match n with
  | O => -1
  | S n' => if nz (aget deliver_bitmask i)
            then i * 32 + apic_ffs_bit (aget deliver_bitmask i)
            else lowpri_dest n' (i + 1) deliver_bitmask
  end.

Definition apic_bus_deliver (deliver_bitmask : list Z)
    (delivery_mode vector_num trigger_mode : Z) (m : Machine) : Machine :=
  if delivery_mode =? APIC_DM_LOWPRI then
    let d := lowpri_dest 8 0 deliver_bitmask in
    if 0 <=? d then
      match local_apics m !! Z.to_nat d with
      | Some _ => apic_set_irq (Z.to_nat d) vector_num trigger_mode m
      | None => m
      end
    else m
  else if delivery_mode =? APIC_DM_SMI then
    foreach_apic deliver_bitmask (fun k => cpu_interrupt k CPU_INTERRUPT_SMI) m
  else if delivery_mode =? APIC_DM_NMI then
    foreach_apic deliver_bitmask (fun k => cpu_interrupt k CPU_INTERRUPT_NMI) m
  else if delivery_mode =? APIC_DM_INIT then
    foreach_apic deliver_bitmask (fun k => cpu_interrupt k CPU_INTERRUPT_INIT) m
  else if (delivery_mode =? APIC_DM_FIXED) || (delivery_mode =? APIC_DM_EXTINT) then
    foreach_apic deliver_bitmask (fun k => apic_set_irq k vector_num trigger_mode) m
  else m.

(** The scan of [apic_find_dest]: it stops at the first empty slot. *)
Fixpoint find_dest_from (n : nat) (i : nat) (dest : Z) (m : Machine) : Z :=
  match n with
  | O => -1
  | S n' =>
      match local_apics m !! i with
      | Some apic => if id apic =? dest then Z.of_nat i
                     else find_dest_from n' (S i) dest m
      | None => -1
      end
  end.

Definition apic_find_dest (dest : Z) (m : Machine) : Z :=
  match local_apics m !! Z.to_nat dest with
  | Some apic => if id apic =? dest then dest else find_dest_from 255 0 dest m
  | None => find_dest_from 255 0 dest m
  end.

Definition bitmask_zero : list Z := repeat 0 8.
Definition bitmask_ones : list Z := repeat 0xffffffff 8.

(** The logical-mode scan: stops at the first empty slot. *)
Fixpoint logical_from (n : nat) (i : nat) (dest : Z) (m : Machine) (mask : list Z) : list Z :=
  match n with
  | O => mask
  | S n' =>
      match local_apics m !! i with
      | Some a =>
          let mask' :=
            if dest_mode a =? 0xf then
              if nz (Z.land dest (log_dest a)) then apic_set_bit mask (Z.of_nat i) else mask
            else if dest_mode a =? 0x0 then
              if (Z.land dest 0xf0 =? Z.land (log_dest a) 0xf0)
                 && nz (Z.land (Z.land dest (log_dest a)) 0x0f)
              then apic_set_bit mask (Z.of_nat i) else mask
            else mask in
          logical_from n' (S i) dest m mask'
      | None => mask
      end
  end.

Definition apic_get_delivery_bitmask (dest dest_mode : Z) (m : Machine) : list Z :=
  if dest_mode =? 0 then
    if dest =? 0xff then bitmask_ones
    else
      let idx := apic_find_dest dest m in
      if 0 <=? idx then apic_set_bit bitmask_zero idx else bitmask_zero
  else logical_from 255 0 dest m bitmask_zero.

Definition apic_deliver_irq (dest dest_mode delivery_mode vector_num trigger_mode : Z)
    (m : Machine) : Machine :=
  apic_bus_deliver (apic_get_delivery_bitmask dest dest_mode m)
    delivery_mode vector_num trigger_mode m.

Definition send_ipi (dest nv : Z) (m : Machine) : Machine :=
  apic_deliver_irq dest 0 APIC_DM_FIXED nv APIC_TRIGGER_EDGE m.

Definition apic_startup (d : nat) (vector_num : Z) (m : Machine) : Machine :=
  cpu_interrupt d CPU_INTERRUPT_SIPI
    (upd_apic d (fun s => s <| sipi_vector := vector_num |>) m).

Definition apic_deliver (d : nat) (dest dest_mode delivery_mode vector_num trigger_mode : Z)
    (m : Machine) : Machine :=
  let s := local_apics m !!! d in
  let dest_shorthand := Z.land (Z.shiftr (aget (icr s) 0) 18) 3 in
  let deliver_bitmask :=
    if dest_shorthand =? 0 then apic_get_delivery_bitmask dest dest_mode m
    else if dest_shorthand =? 1 then apic_set_bit bitmask_zero (id s)
    else if dest_shorthand =? 2 then bitmask_ones
    else apic_reset_bit bitmask_ones (id s) in
  if delivery_mode =? APIC_DM_INIT then
    let trig_mode := Z.land (Z.shiftr (aget (icr s) 0) 15) 1 in
    let level := Z.land (Z.shiftr (aget (icr s) 0) 14) 1 in
    if (level =? 0) && (trig_mode =? 1) then
      foreach_apic deliver_bitmask (fun k => upd_apic k (fun a => a <| arb_id := id a |>)) m
    else apic_bus_deliver deliver_bitmask delivery_mode vector_num trigger_mode m
  else if delivery_mode =? APIC_DM_SIPI then
    foreach_apic deliver_bitmask (fun k => apic_startup k vector_num) m
  else apic_bus_deliver deliver_bitmask delivery_mode vector_num trigger_mode m.

(** Decoding of an MSI message (hw/i386/apic-msidef.h). *)
Definition apic_send_msi (addr data : Z) (m : Machine) : Machine :=
  let dest := u8 (Z.shiftr (Z.land addr 0x000ff000) 12) in
  let vector := u8 (Z.land data 0xff) in
  let dest_mode := Z.land (Z.shiftr addr 2) 0x1 in
  let trigger_mode := Z.land (Z.shiftr data 15) 0x1 in
  let delivery := Z.land (Z.shiftr data 8) 0x7 in
  apic_deliver_irq dest dest_mode delivery vector trigger_mode m.

(** ** Start-up *)
Definition apic_sipi (d : nat) (m : Machine) : Machine :=
  let m := cpu_reset_interrupt d CPU_INTERRUPT_SIPI m in
  let s := local_apics m !!! d in
  if wait_for_sipi s =? 0 then m
  else upd_apic d (fun s => s <| wait_for_sipi := 0 |>)
         (upd_cpu d (cpu_x86_load_seg_cache_sipi (sipi_vector s)) m).

(** ** Taking an interrupt *)
Definition apic_check_pic (d : nat) (m : Machine) : bool * Machine :=
  if negb (apic_accept_pic_intr d m) || negb (pic_get_output (pic_master m))
  then (false, m)
  else (true, apic_deliver_pic_intr d 1 m).

Definition apic_get_interrupt (dev : option nat) (m : Machine) : Z * Machine :=
  match dev with
  | None => (-1, m)
  | Some d =>
      if negb (nz (Z.land (spurious_vec (local_apics m !!! d)) APIC_SV_ENABLE))
      then (-1, m)
      else
        let m := apic_sync_vapic d SYNC_FROM_VAPIC m in
        let intno := apic_irq_pending (local_apics m !!! d) in
        let '(pic, m) := if intno =? 0 then (true, m) else apic_check_pic d m in
        if pic then (-1, apic_sync_vapic d SYNC_TO_VAPIC m)
        else if intno <? 0 then
          let m := apic_sync_vapic d SYNC_TO_VAPIC m in
          (Z.land (spurious_vec (local_apics m !!! d)) 0xff, m)
        else
          let m := upd_apic d (fun s => s <| irr := apic_reset_bit (irr s) intno |>
                                         <| isr := apic_set_bit (isr s) intno |>) m in
          (intno, apic_update_irq d (apic_sync_vapic d SYNC_TO_VAPIC m))
  end.

Definition apic_get_highest_priority_irr (dev : option nat) (m : Machine) : Z :=
  match dev with
  | None => -1
  | Some d => get_highest_priority_int (irr (local_apics m !!! d))
  end.

(** ** Timer (apic_common.c) *)
Definition apic_next_timer (current_time : Z) (s : APICCommonState) : bool * APICCommonState :=
  let s := s <| timer_expiry := -1 |> in
  let l := aget (lvt s) APIC_LVT_TIMER in
  if nz (Z.land l APIC_LVT_MASKED) then (false, s)
  else
    let d := Z.shiftr (s64 (current_time - initial_count_load_time s)) (count_shift s) in
    let ic1 := u64 (initial_count s + 1) in
    let finish d :=
      let nt := s64 (initial_count_load_time s + s64 (Z.shiftl d (count_shift s))) in
      (true, s <| next_time := nt |> <| timer_expiry := nt |>) in
    if nz (Z.land l APIC_LVT_TIMER_PERIODIC) then
      if initial_count s =? 0 then (false, s)
      else finish (s64 (u64 (u64 (u64 d / ic1 + 1) * ic1)))
    else if initial_count s <=? d then (false, s)
    else finish (s64 ic1).

Definition apic_get_current_count (now : Z) (s : APICCommonState) : Z :=
  let d := Z.shiftr (s64 (now - initial_count_load_time s)) (count_shift s) in
  if nz (Z.land (aget (lvt s) APIC_LVT_TIMER) APIC_LVT_TIMER_PERIODIC) then
    u32 (initial_count s - u64 d mod u64 (initial_count s + 1))
  else if initial_count s <=? d then 0
  else u32 (initial_count s - d).

Definition apic_timer_update (d : nat) (current_time : Z) (m : Machine) : Machine :=
  upd_apic d (fun s =>
    let '(armed, s) := apic_next_timer current_time s in
    if armed then s <| timer := Some (next_time s) |> else s <| timer := None |>) m.

Definition apic_timer (d : nat) (m : Machine) : Machine :=
  let m := apic_local_deliver d APIC_LVT_TIMER m in
  apic_timer_update d (next_time (local_apics m !!! d)) m.

(** ** Base, task priority, resets *)
Definition apic_set_base (d : nat) (val : Z) (m : Machine) : Machine :=
  let keep := Z.lor MSR_IA32_APICBASE_BSP MSR_IA32_APICBASE_ENABLE in
  let m := upd_apic d (fun s =>
             s <| apicbase := u32 (Z.lor (Z.land val 0xfffff000) (Z.land (apicbase s) keep)) |>) m in
  (* if disabled, cannot be enabled again *)
  if Z.land val MSR_IA32_APICBASE_ENABLE =? 0 then
    upd_apic d (fun s => s <| spurious_vec := clr (spurious_vec s) APIC_SV_ENABLE |>)
      (upd_cpu d (fun c => c <| env := cpu_clear_apic_feature (env c) |>)
        (upd_apic d (fun s => s <| apicbase := clr (apicbase s) MSR_IA32_APICBASE_ENABLE |>) m))
  else m.

Definition apic_set_tpr (d : nat) (val : Z) (m : Machine) : Machine :=
  if vapic_paddr (local_apics m !!! d) =? 0
  then apic_update_irq d (upd_apic d (fun s => s <| tpr := u8 (Z.shiftl val 4) |>) m)
  else m.

Definition apic_get_tpr (d : nat) (m : Machine) : Z * Machine :=
  let m := apic_sync_vapic d SYNC_FROM_VAPIC m in
  (Z.shiftr (tpr (local_apics m !!! d)) 4, m).

Definition cpu_set_apic_base (dev : option nat) (val : Z) (m : Machine) : Machine :=
  match dev with
  | None => m
  | Some d =>
      let s := local_apics m !!! d in
      let m := if (Z.land (apicbase s) MSR_IA32_APICBASE_EXTD =? 0)
                  && nz (Z.land val MSR_IA32_APICBASE_EXTD)
               then upd_apic d (fun s => s <| id := u8 (initial_apic_id s) |>) m else m in
      apic_set_base d val m
  end.

Definition cpu_get_apic_base (dev : option nat) (m : Machine) : Z :=
  match dev with
  | Some d => apicbase (local_apics m !!! d)
  | None => MSR_IA32_APICBASE_BSP
  end.

Definition cpu_set_apic_tpr (dev : option nat) (val : Z) (m : Machine) : Machine :=
  match dev with None => m | Some d => apic_set_tpr d (u8 val) m end.

Definition cpu_get_apic_tpr (dev : option nat) (m : Machine) : Z * Machine :=
  match dev with None => (0, m) | Some d => apic_get_tpr d m end.

Definition apic_enable_vapic (d : nat) (paddr : Z) (m : Machine) : Machine :=
  apic_vapic_base_update d (upd_apic d (fun s => s <| vapic_paddr := paddr |>) m).

Definition apic_deliver_nmi (d : nat) (m : Machine) : Machine := apic_external_nmi d m.

Definition cpu_is_bsp (s : APICCommonState) : bool :=
  nz (Z.land (apicbase s) MSR_IA32_APICBASE_BSP).

Definition apic_reset_regs (s : APICCommonState) : APICCommonState :=
  s <| tpr := 0 |>
    <| spurious_vec := 0xff |>
    <| log_dest := 0 |>
    <| dest_mode := 0xf |>
    <| isr := repeat 0 8 |>
    <| tmr := repeat 0 8 |>
    <| irr := repeat 0 8 |>
    <| lvt := repeat APIC_LVT_MASKED 6 |>
    <| esr := 0 |>
    <| icr := repeat 0 2 |>
    <| divide_conf := 0 |>
    <| count_shift := 0 |>
    <| initial_count := 0 |>
    <| initial_count_load_time := 0 |>
    <| next_time := 0 |>
    <| wait_for_sipi := b2z (negb (cpu_is_bsp s)) |>
    <| timer := None |>
    <| timer_expiry := -1 |>.

Definition apic_init_reset (dev : option nat) (m : Machine) : Machine :=
  match dev with None => m | Some d => upd_apic d apic_reset_regs m end.

Definition apic_designate_bsp (dev : option nat) (bsp : bool) (m : Machine) : Machine :=
  match dev with
  | None => m
  | Some d => upd_apic d (fun s =>
      s <| apicbase := if bsp then Z.lor (apicbase s) MSR_IA32_APICBASE_BSP
                       else clr (apicbase s) MSR_IA32_APICBASE_BSP |>) m
  end.

Definition apic_reset_common (d : nat) (m : Machine) : Machine :=
  let m := upd_apic d (fun s =>
             let bsp := Z.land (apicbase s) MSR_IA32_APICBASE_BSP in
             s <| apicbase := Z.lor (Z.lor APIC_DEFAULT_ADDRESS bsp) MSR_IA32_APICBASE_ENABLE |>
               <| id := u8 (initial_apic_id s) |>) m in
  let m := apic_reset_irq_delivered m in
  let m := upd_apic d (fun s => s <| vapic_paddr := 0 |>) m in
  let m := apic_vapic_base_update d m in
  apic_init_reset (Some d) m.

(** [apic_realize] refuses ids from MAX_APICS on ([None]). *)
Definition apic_realize (s : APICCommonState) (m : Machine) : option Machine :=
  if MAX_APICS <=? id s then None
  else Some (m <| local_apics := <[Z.to_nat (id s) := s <| timer := None |>]> (local_apics m) |>).

Definition apic_unrealize (d : nat) (m : Machine) : Machine :=
  m <| local_apics := delete (Z.to_nat (id (local_apics m !!! d))) (local_apics m) |>.

Definition apic_pre_save (d : nat) (m : Machine) : Machine :=
  apic_sync_vapic d SYNC_FROM_VAPIC m.

Definition apic_post_load (d : nat) (m : Machine) : Machine :=
  upd_apic d (fun s =>
    s <| timer := if negb (timer_expiry s =? -1) then Some (timer_expiry s) else None |>) m.

(** ** Register interface

    The I/O APIC is reached through [EoiSink]: what the local APIC calls when a
    level-triggered interrupt ends. *)
Class EoiSink := ioapic_eoi_broadcast : Z -> Machine -> Machine.

Section regs.
  Context `{EoiSink}.

Definition apic_eoi (d : nat) (m : Machine) : Machine :=
  let s := local_apics m !!! d in
  let isrv := get_highest_priority_int (isr s) in
  if isrv <? 0 then m
  else
    let m := upd_apic d (fun s => s <| isr := apic_reset_bit (isr s) isrv |>) m in
    let m := if negb (nz (Z.land (spurious_vec s) APIC_SV_DIRECTED_IO))
                && apic_get_bit (tmr s) isrv
             then ioapic_eoi_broadcast isrv m else m in
    let m := apic_sync_vapic d (Z.lor SYNC_FROM_VAPIC SYNC_TO_VAPIC) m in
    apic_update_irq d m.

(** The copy of [apic_eoi] the user-interrupt path calls. *)
Definition apic_clear_eoi (d : nat) (m : Machine) : Machine :=
  let s := local_apics m !!! d in
  let isrv := get_highest_priority_int (isr s) in
  if isrv <? 0 then m
  else
    let m := upd_apic d (fun s => s <| isr := apic_reset_bit (isr s) isrv |>) m in
    let m := if negb (nz (Z.land (spurious_vec s) APIC_SV_DIRECTED_IO))
                && apic_get_bit (tmr s) isrv
             then ioapic_eoi_broadcast isrv m else m in
    let m := apic_sync_vapic d (Z.lor SYNC_FROM_VAPIC SYNC_TO_VAPIC) m in
    apic_update_irq d m.

(** [cpu_get_current_apic] (hw/i386/x86.c): every CPU has an APIC. *)
Definition cpu_get_current_apic (m : Machine) : option nat := current_cpu m.

Definition apic_mem_read (addr size : Z) (m : Machine) : Z * Machine :=
  if size <? 4 then (0, m)
  else
    match cpu_get_current_apic m with
    | None => (0, m)
    | Some d =>
        let s := local_apics m !!! d in
        let index := Z.land (Z.shiftr addr 4) 0xff in
        if index =? 0x02 then (u32 (Z.shiftl (id s) 24), m)
        else if index =? 0x03 then
          (u32 (Z.lor (version s) (Z.shiftl (APIC_LVT_NB - 1) 16)), m)
        else if index =? 0x08 then
          let m := apic_sync_vapic d SYNC_FROM_VAPIC m in
          let m := if apic_report_tpr_access m
                   then m <| tpr_reports := tpr_reports m ++ [(d, false)] |> else m in
          (tpr (local_apics m !!! d), m)
        else if index =? 0x09 then (apic_get_arb_pri s, m)
        else if index =? 0x0a then (apic_get_ppr s, m)
        else if index =? 0x0b then (0, m)
        else if index =? 0x0d then (u32 (Z.shiftl (log_dest s) 24), m)
        else if index =? 0x0e then (u32 (Z.lor (Z.shiftl (dest_mode s) 28) 0xfffffff), m)
        else if index =? 0x0f then (spurious_vec s, m)
        else if (0x10 <=? index) && (index <=? 0x17) then (aget (isr s) (Z.land index 7), m)
        else if (0x18 <=? index) && (index <=? 0x1f) then (aget (tmr s) (Z.land index 7), m)
        else if (0x20 <=? index) && (index <=? 0x27) then (aget (irr s) (Z.land index 7), m)
        else if index =? 0x28 then (esr s, m)
        else if (index =? 0x30) || (index =? 0x31) then (aget (icr s) (Z.land index 1), m)
        else if (0x32 <=? index) && (index <=? 0x37) then (aget (lvt s) (index - 0x32), m)
        else if index =? 0x38 then (initial_count s, m)
        else if index =? 0x39 then (apic_get_current_count (clock m) s, m)
        else if index =? 0x3e then (divide_conf s, m)
        else
          (0, upd_apic d (fun s => s <| esr := Z.lor (esr s) APIC_ESR_ILLEGAL_ADDRESS |>) m)
    end.

(** The register writes of [apic_mem_write], for the APIC of the current CPU. *)
Definition apic_reg_write (d : nat) (index val : Z) (m : Machine) : Machine :=
  if index =? 0x02 then upd_apic d (fun s => s <| id := u8 (Z.shiftr val 24) |>) m
  else if index =? 0x03 then m
  else if index =? 0x08 then
    let m := if apic_report_tpr_access m
             then m <| tpr_reports := tpr_reports m ++ [(d, true)] |> else m in
    let m := upd_apic d (fun s => s <| tpr := u8 val |>) m in
    apic_update_irq d (apic_sync_vapic d SYNC_TO_VAPIC m)
  else if (index =? 0x09) || (index =? 0x0a) then m
  else if index =? 0x0b then apic_eoi d m
  else if index =? 0x0d then upd_apic d (fun s => s <| log_dest := u8 (Z.shiftr val 24) |>) m
  else if index =? 0x0e then upd_apic d (fun s => s <| dest_mode := u8 (Z.shiftr val 28) |>) m
  else if index =? 0x0f then
    apic_update_irq d (upd_apic d (fun s => s <| spurious_vec := Z.land val 0x1ff |>) m)
  else if (0x10 <=? index) && (index <=? 0x28) then m
  else if index =? 0x30 then
    let m := upd_apic d (fun s => s <| icr := aset (icr s) 0 (u32 val) |>) m in
    let i := icr (local_apics m !!! d) in
    apic_deliver d (Z.land (Z.shiftr (aget i 1) 24) 0xff) (Z.land (Z.shiftr (aget i 0) 11) 1)
      (Z.land (Z.shiftr (aget i 0) 8) 7) (Z.land (aget i 0) 0xff)
      (Z.land (Z.shiftr (aget i 0) 15) 1) m
  else if index =? 0x31 then upd_apic d (fun s => s <| icr := aset (icr s) 1 (u32 val) |>) m
  else if (0x32 <=? index) && (index <=? 0x37) then
    let n := index - 0x32 in
    let m := upd_apic d (fun s => s <| lvt := aset (lvt s) n (u32 val) |>) m in
    if n =? APIC_LVT_TIMER then apic_timer_update d (clock m) m
    else if n =? APIC_LVT_LINT0 then
      let '(pic, m) := apic_check_pic d m in
      if pic then apic_update_irq d m else m
    else m
  else if index =? 0x38 then
    let m := upd_apic d (fun s => s <| initial_count := u32 val |>
                                    <| initial_count_load_time := clock m |>) m in
    apic_timer_update d (clock m) m
  else if index =? 0x39 then m
  else if index =? 0x3e then
    upd_apic d (fun s =>
      let dc := Z.land val 0xb in
      let v := Z.lor (Z.land dc 3) (Z.land (Z.shiftr dc 1) 4) in
      s <| divide_conf := dc |> <| count_shift := Z.land (v + 1) 7 |>) m
  else upd_apic d (fun s => s <| esr := Z.lor (esr s) APIC_ESR_ILLEGAL_ADDRESS |>) m.

Definition apic_mem_write (addr val size : Z) (m : Machine) : Machine :=
  let index := Z.land (Z.shiftr addr 4) 0xff in
  if size <? 4 then m
  else if (0xfff <? addr) || (index =? 0) then apic_send_msi addr (u32 val) m
  else
    match cpu_get_current_apic m with
    | None => m
    | Some d => apic_reg_write d index val m
    end.
End regs.
