(* ===== verification/ApicFacts.v ===== *)
(** * The local APIC: correctness

    Vector registers as sets, the abstract local APIC they implement, delivery
    over the APIC bus, the timer and the register-file invariant. *)
From S2P Require Import Prelude Cpu Pic Machine Apic.
Import Machine.Apic.

(** ** Vector registers *)
Definition tab_wf (tab : list Z) : Prop := length tab = 8%nat /\ Forall (is_u 32) tab.

Lemma aget_range n tab i : 0 <= n -> Forall (is_u n) tab -> is_u n (aget tab i).
Proof.
  intros Hn Ht. unfold aget. destruct (nth_in_or_default (Z.to_nat i) tab 0) as [Hin| ->].
  - by apply (proj1 (List.Forall_forall _ _) Ht).
  - split; lia.
Qed.

Lemma index_split v : 0 <= v < 256 ->
  0 <= Z.shiftr v 5 < 8 /\ 0 <= Z.land v 0x1f < 32 /\
  v = Z.shiftr v 5 * 32 + Z.land v 0x1f.
Proof.
  intros Hv. rewrite Z.shiftr_div_pow2 by lia. change 0x1f with (Z.ones 5).
  rewrite Z.land_ones by lia. change (2 ^ 5) with 32.
  pose proof (Z.div_mod v 32). pose proof (Z.mod_pos_bound v 32). lia.
Qed.

Lemma index_inj v w : 0 <= v < 256 -> 0 <= w < 256 ->
  Z.shiftr v 5 = Z.shiftr w 5 -> Z.land v 0x1f = Z.land w 0x1f -> v = w.
Proof. intros Hv%index_split Hw%index_split. lia. Qed.

Lemma get_bit_testbit tab v : 0 <= v < 256 ->
  apic_get_bit tab v = Z.testbit (aget tab (Z.shiftr v 5)) (Z.land v 0x1f).
Proof. intros Hv%index_split. apply nz_land_bit. lia. Qed.

Lemma tab_wf_aset tab i w : tab_wf tab -> is_u 32 w -> tab_wf (aset tab i w).
Proof.
  intros [Hl Ht] Hw. split; [by rewrite length_aset|].
  by apply Forall_insert.
Qed.

Lemma tab_wf_set tab v : tab_wf tab -> tab_wf (apic_set_bit tab v).
Proof. intros. apply tab_wf_aset; [done|apply wrap_range; lia]. Qed.

Lemma tab_wf_reset tab v : tab_wf tab -> tab_wf (apic_reset_bit tab v).
Proof.
  intros Ht. apply tab_wf_aset; [done|]. apply is_u_land; [lia|].
  apply aget_range; [lia|apply Ht].
Qed.

Lemma get_set_bit tab v w : tab_wf tab -> 0 <= v < 256 -> 0 <= w < 256 ->
  apic_get_bit (apic_set_bit tab v) w = apic_get_bit tab w || (w =? v).
Proof.
  intros [Hl Ht] Hv Hw. rewrite !get_bit_testbit by done. unfold apic_set_bit. cbv zeta.
  pose proof (index_split v Hv) as (Hv1 & Hv2 & _).
  pose proof (index_split w Hw) as (Hw1 & Hw2 & _).
  destruct (Z.eq_dec (Z.shiftr v 5) (Z.shiftr w 5)) as [E|E].
  - rewrite <-E, aget_aset_eq by (rewrite Hl; lia). autorewrite with bits.
    destruct (Z.ltb_spec (Z.land w 31) 32); [|lia]. cbn [andb]. f_equal.
    destruct (Z.eqb_spec w v) as [->|Hne]; [by rewrite Z.eqb_refl|].
    apply Z.eqb_neq. intros E2. apply Hne. by apply index_inj.
  - rewrite aget_aset_ne by lia. destruct (Z.eqb_spec w v); [congruence|].
    by rewrite orb_false_r.
Qed.

Lemma get_reset_bit tab v w : tab_wf tab -> 0 <= v < 256 -> 0 <= w < 256 ->
  apic_get_bit (apic_reset_bit tab v) w = apic_get_bit tab w && negb (w =? v).
Proof.
  intros [Hl Ht] Hv Hw. rewrite !get_bit_testbit by done. unfold apic_reset_bit. cbv zeta.
  pose proof (index_split v Hv) as (Hv1 & Hv2 & _).
  pose proof (index_split w Hw) as (Hw1 & Hw2 & _).
  destruct (Z.eq_dec (Z.shiftr v 5) (Z.shiftr w 5)) as [E|E].
  - rewrite <-E, aget_aset_eq by (rewrite Hl; lia). autorewrite with bits. f_equal. f_equal.
    destruct (Z.eqb_spec w v) as [->|Hne]; [by rewrite Z.eqb_refl|].
    apply Z.eqb_neq. intros E2. apply Hne. by apply index_inj.
  - rewrite aget_aset_ne by lia. destruct (Z.eqb_spec w v); [congruence|].
    by rewrite andb_true_r.
Qed.

(** The vectors of a register, as a set. *)
Definition vset (tab : list Z) : gset Z :=
  list_to_set (filter (fun v => apic_get_bit tab v = true) (seqZ 0 256)).

Lemma elem_of_vset tab v : v ∈ vset tab <-> 0 <= v < 256 /\ apic_get_bit tab v = true.
Proof.
  unfold vset. rewrite elem_of_list_to_set, list_elem_of_filter, elem_of_seqZ. intuition lia.
Qed.

Lemma vset_set tab v : tab_wf tab -> 0 <= v < 256 ->
  vset (apic_set_bit tab v) = vset tab ∪ {[v]}.
Proof.
  intros Ht Hv. apply set_eq. intros w.
  rewrite elem_of_union, elem_of_singleton, !elem_of_vset.
  destruct (decide (0 <= w < 256)) as [Hw|]; [|intuition lia].
  rewrite get_set_bit, orb_true_iff, Z.eqb_eq by done. tauto.
Qed.

Lemma vset_reset tab v : tab_wf tab -> 0 <= v < 256 ->
  vset (apic_reset_bit tab v) = vset tab ∖ {[v]}.
Proof.
  intros Ht Hv. apply set_eq. intros w.
  rewrite elem_of_difference, elem_of_singleton, !elem_of_vset.
  destruct (decide (0 <= w < 256)) as [Hw|]; [|intuition lia].
  rewrite get_reset_bit, andb_true_iff, negb_true_iff, Z.eqb_neq by done. tauto.
Qed.

Lemma fls_log2 w : w <> 0 -> apic_fls_bit w = Z.log2 w.
Proof. intros. unfold apic_fls_bit, clz32. destruct (Z.eqb_spec w 0); [done|lia]. Qed.

(** The loop over the words below [n]. *)
Lemma highest_from_spec n tab : (n <= 8)%nat -> tab_wf tab ->
  let r := highest_from n tab in
  (r = -1 /\ forall v, v ∈ vset tab -> Z.of_nat n * 32 <= v) \/
  (r ∈ vset tab /\ r < Z.of_nat n * 32 /\
   forall v, v ∈ vset tab -> v < Z.of_nat n * 32 -> v <= r).
Proof.
  intros Hn Ht. induction n as [|i IH]; cbn [highest_from].
  { left. split; [done|]. intros v [Hv _]%elem_of_vset. lia. }
  pose proof (aget_range 32 tab (Z.of_nat i) ltac:(lia) (proj2 Ht)) as Hw.
  set (w := aget tab (Z.of_nat i)) in *.
  assert (Hin : forall k, 0 <= k < 32 ->
            (Z.of_nat i * 32 + k ∈ vset tab <-> Z.testbit w k = true)).
  { intros k Hk. rewrite elem_of_vset, get_bit_testbit by lia.
    destruct (index_split (Z.of_nat i * 32 + k)) as (A & B & C); [lia|].
    replace (Z.shiftr (Z.of_nat i * 32 + k) 5) with (Z.of_nat i) in * by lia.
    replace (Z.land (Z.of_nat i * 32 + k) 31) with k in * by lia.
    fold w. intuition lia. }
  destruct (nz w) eqn:E.
  - apply nz_true in E. rewrite fls_log2 by done. right.
    assert (0 <= Z.log2 w < 32).
    { split; [apply Z.log2_nonneg|]. destruct Hw. apply Z.log2_lt_pow2; lia. }
    split_and!; [|lia|].
    + apply Hin; [done|]. apply Z.bit_log2. destruct Hw. lia.
    + intros v Hv Hlt. destruct (Z.ltb_spec v (Z.of_nat i * 32)); [lia|].
      replace v with (Z.of_nat i * 32 + (v - Z.of_nat i * 32)) in Hv by lia.
      apply Hin in Hv; [|lia].
      destruct (Z.leb_spec (v - Z.of_nat i * 32) (Z.log2 w)); [lia|].
      rewrite Z.bits_above_log2 in Hv; [done|destruct Hw; lia|done].
  - apply nz_false in E.
    assert (Hnone : forall v, v ∈ vset tab -> v < Z.of_nat (S i) * 32 -> v < Z.of_nat i * 32).
    { intros v Hv Hlt. destruct (Z.ltb_spec v (Z.of_nat i * 32)); [done|].
      replace v with (Z.of_nat i * 32 + (v - Z.of_nat i * 32)) in Hv by lia.
      apply Hin in Hv; [|lia]. by rewrite E, Z.testbit_0_l in Hv. }
    destruct IH as [[-> Hno]|(Hr & Hlt & Hmax)]; [lia| |].
    + left. split; [done|]. intros v Hv. apply Z.nlt_ge. intros Hlt.
      specialize (Hno v Hv). specialize (Hnone v Hv Hlt). lia.
    + right. split_and!; [done|lia|]. intros v Hv Hlt'. apply Hmax; [done|].
      by apply Hnone.
Qed.

(** [v] is the greatest vector of the set. *)
Definition is_max (S : gset Z) (v : Z) : Prop := v ∈ S /\ forall w, w ∈ S -> w <= v.

Lemma highest_cases tab : tab_wf tab ->
  (get_highest_priority_int tab = -1 /\ vset tab = ∅) \/
  (is_max (vset tab) (get_highest_priority_int tab) /\
   0 <= get_highest_priority_int tab < 256).
Proof.
  intros Ht. destruct (highest_from_spec 8 tab ltac:(lia) Ht) as [[E H]|(H & _ & Hm)].
  - left. split; [done|]. apply set_eq. intros v. split; [|set_solver].
    intros Hv. pose proof (H v Hv). apply elem_of_vset in Hv. lia.
  - right. split; [split; [done|]|].
    + intros w Hw. apply Hm; [done|]. apply elem_of_vset in Hw. lia.
    + apply elem_of_vset in H. apply H.
Qed.

Lemma is_max_highest tab v : tab_wf tab -> is_max (vset tab) v ->
  get_highest_priority_int tab = v.
Proof.
  intros Ht [Hv Hm]. destruct (highest_cases tab Ht) as [[_ E]|[[Hr Hmax] _]].
  - set_solver.
  - apply Z.le_antisymm; auto.
Qed.

(** ** Well-formed APICs *)
Record apic_wf (s : APICCommonState) : Prop := {
  wf_apicbase : is_u 32 (apicbase s);
  wf_id : is_u 8 (id s);
  wf_tpr : is_u 8 (tpr s);
  wf_spurious : is_u 32 (spurious_vec s);
  wf_log_dest : is_u 8 (log_dest s);
  wf_dest_mode : is_u 8 (dest_mode s);
  wf_arb_id : is_u 8 (arb_id s);
  wf_isr : tab_wf (isr s);
  wf_tmr : tab_wf (tmr s);
  wf_irr : tab_wf (irr s);
  wf_lvt : length (lvt s) = 6%nat /\ Forall (is_u 32) (lvt s);
  wf_icr : length (icr s) = 2%nat /\ Forall (is_u 32) (icr s);
  wf_esr : is_u 32 (esr s);
  wf_shift : is_u 3 (count_shift s);
  wf_count : is_u 32 (initial_count s);
}.

(** Every APIC is well formed and every byte of memory is a byte. *)
Definition machine_wf (m : Machine) : Prop :=
  map_Forall (fun _ s => apic_wf s) (local_apics m) /\
  map_Forall (fun _ b => is_u 8 b) (mem m).

(** ** What the helpers leave alone *)
Lemma apics_upd_cpu d f m : local_apics (upd_cpu d f m) = local_apics m.
Proof. done. Qed.

Lemma apics_update_irq d m : local_apics (apic_update_irq d m) = local_apics m.
Proof. unfold apic_update_irq. repeat case_match; reflexivity. Qed.

Lemma mem_update_irq d m : mem (apic_update_irq d m) = mem m.
Proof. unfold apic_update_irq. repeat case_match; reflexivity. Qed.

Lemma lookup_total_apic m d s : local_apics m !! d = Some s -> local_apics m !!! d = s.
Proof. intros E. by rewrite lookup_total_alt, E. Qed.

Lemma sync_vapic_off d t m s : local_apics m !! d = Some s -> vapic_paddr s = 0 ->
  apic_sync_vapic d t m = m.
Proof. intros E Hv. unfold apic_sync_vapic. by rewrite (lookup_total_apic _ _ _ E), Hv. Qed.

Lemma lookup_upd_apic d f m k :
  local_apics (upd_apic d f m) !! k = if decide (d = k) then f <$> local_apics m !! k else local_apics m !! k.
Proof. unfold upd_apic. cbn. rewrite lookup_alter. by case_decide; subst. Qed.

Lemma lookup_upd_apic_ne k d f m : k <> d -> local_apics (upd_apic k f m) !! d = local_apics m !! d.
Proof. intros Hne. by rewrite lookup_upd_apic, decide_False. Qed.

(** ** The abstract local APIC: sets of vectors *)
Record lapic := mkL { l_irr : gset Z; l_isr : gset Z; l_tpr : Z }.

Inductive lapic_event :=
| LAccept (v : Z)
| LTake (v : Z)
| LEoi (v : Z).

(** Priority class of a vector. *)
Definition class (v : Z) : Z := v / 16.

Definition deliverable (a : lapic) (v : Z) : Prop :=
  is_max (l_irr a) v /\ class (l_tpr a) < class v /\
  forall w, w ∈ l_isr a -> class w < class v.

Inductive lapic_step : lapic -> lapic_event -> lapic -> Prop :=
| step_accept a v :
    0 <= v < 256 ->
    lapic_step a (LAccept v) (mkL (l_irr a ∪ {[v]}) (l_isr a) (l_tpr a))
| step_take a v :
    deliverable a v ->
    lapic_step a (LTake v) (mkL (l_irr a ∖ {[v]}) (l_isr a ∪ {[v]}) (l_tpr a))
| step_eoi a v :
    is_max (l_isr a) v ->
    lapic_step a (LEoi v) (mkL (l_irr a) (l_isr a ∖ {[v]}) (l_tpr a)).

Definition abs_apic (s : APICCommonState) : lapic :=
  mkL (vset (irr s)) (vset (isr s)) (tpr s).

Lemma class_shiftr v : Z.shiftr v 4 = class v.
Proof. by rewrite Z.shiftr_div_pow2. Qed.

Lemma land_f0 v : is_u 8 v -> Z.land v 0xf0 = 16 * class v.
Proof.
  intros Hv. unfold class. change 0xf0 with (Z.shiftl (Z.ones 4) 4).
  replace (16 * (v / 16)) with (Z.shiftl (Z.shiftr v 4) 4)
    by (rewrite Z.shiftl_mul_pow2, Z.shiftr_div_pow2 by lia; change (2 ^ 4) with 16; lia).
  apply Z.bits_inj'. intros i Hi.
  rewrite Z.land_spec, !Z.shiftl_spec by lia.
  destruct (Z.ltb_spec i 4).
  - rewrite !(Z.testbit_neg_r _ (i - 4)) by lia. apply andb_false_r.
  - rewrite Z.shiftr_spec by lia. replace (i - 4 + 4) with i by lia.
    destruct (Z.ltb_spec i 8).
    + rewrite Z.ones_spec_low by lia. apply andb_true_r.
    + by rewrite (is_u_testbit_high 8 v i).
Qed.

(** The processor priority register as a class. *)
Lemma ppr_class s : apic_wf s ->
  is_u 8 (apic_get_ppr s) /\
  class (apic_get_ppr s) = Z.max (class (tpr s)) (class (Z.max 0 (get_highest_priority_int (isr s)))).
Proof.
  intros Hwf. unfold apic_get_ppr. cbv zeta. rewrite !class_shiftr.
  set (h := get_highest_priority_int (isr s)).
  assert (Hh : -1 <= h < 256).
  { destruct (highest_cases (isr s)) as [[E _]|[_ Hr]]; [apply Hwf|subst h; lia..]. }
  replace (if h <? 0 then 0 else h) with (Z.max 0 h) by (destruct (Z.ltb_spec h 0); lia).
  pose proof (wf_tpr s Hwf) as Ht. unfold is_u in Ht.
  assert (class (Z.max 0 h) < 16) by (unfold class; apply Z.div_lt_upper_bound; lia).
  assert (0 <= class (Z.max 0 h)) by (apply Z.div_pos; lia).
  destruct (Z.leb_spec (class (Z.max 0 h)) (class (tpr s))).
  - split; [done|lia].
  - rewrite Z.shiftl_mul_pow2 by lia. change (2 ^ 4) with 16. split; [split; lia|].
    unfold class at 1. rewrite Z.div_mul by lia. lia.
Qed.

Lemma class_mono v w : v <= w -> class v <= class w.
Proof. intros. by apply Z.div_le_mono. Qed.

(** [apic_irq_pending] of an enabled APIC whose requests are legal vectors. *)
Lemma irq_pending_spec s : apic_wf s ->
  nz (Z.land (spurious_vec s) APIC_SV_ENABLE) = true ->
  (forall v, v ∈ vset (irr s) -> 16 <= v) ->
  (apic_irq_pending s = 0 /\ vset (irr s) = ∅) \/
  (apic_irq_pending s = -1 /\ vset (irr s) <> ∅ /\ forall v, ~ deliverable (abs_apic s) v) \/
  (16 <= apic_irq_pending s < 256 /\ deliverable (abs_apic s) (apic_irq_pending s)).
Proof.
  intros Hwf Hen Hleg. unfold apic_irq_pending. rewrite Hen. cbn [negb].
  destruct (highest_cases (irr s)) as [[E Hem]|[Hmax Hr]]; [apply Hwf|rewrite E; by left|].
  right. set (h := get_highest_priority_int (irr s)) in *.
  destruct (Z.ltb_spec h 0); [lia|].
  destruct (ppr_class s Hwf) as [Hp Hc]. assert (16 <= h) by apply Hleg, Hmax.
  assert (1 <= class h) by (unfold class; apply Z.div_le_lower_bound; lia).
  rewrite (land_f0 h), (land_f0 (apic_get_ppr s)) by (done || (unfold is_u; lia)).
  assert (Hblock : class h <= class (apic_get_ppr s) ->
    vset (irr s) <> ∅ /\ forall v, ~ deliverable (abs_apic s) v).
  { intros Hle. split; [intros E; destruct Hmax as [Hin _]; by rewrite E in Hin|].
    intros v (Hv & Ht & Hi). cbn [abs_apic l_irr l_isr l_tpr] in Hv, Ht, Hi.
    assert (v = h) as -> by (destruct Hv, Hmax; apply Z.le_antisymm; auto).
    destruct (highest_cases (isr s)) as [[E _]|[[Hin _] Hr']]; [apply Hwf| |].
    - rewrite E in Hc. change (class (Z.max 0 (-1))) with 0 in Hc. lia.
    - rewrite (Z.max_r 0) in Hc by lia. apply Hi in Hin. lia. }
  assert (Hok : class (apic_get_ppr s) < class h -> deliverable (abs_apic s) h).
  { intros Hlt. unfold deliverable. cbn [abs_apic l_irr l_isr l_tpr].
    split_and!; [apply Hmax..|lia|]. intros w Hw.
    destruct (highest_cases (isr s)) as [[_ E]|[[_ Hm] Hr']];
      [apply Hwf|by rewrite E in Hw|].
    rewrite (Z.max_r 0) in Hc by lia. pose proof (class_mono _ _ (Hm w Hw)). lia. }
  destruct (nz (apic_get_ppr s)) eqn:En; cbn [andb].
  - destruct (Z.leb_spec (16 * class h) (16 * class (apic_get_ppr s))).
    + left. split; [done|apply Hblock; lia].
    + right. split; [lia|apply Hok; lia].
  - apply nz_false in En. right. split; [lia|]. apply Hok. rewrite En.
    change (class 0) with 0. lia.
Qed.

(** ** The I/O APIC as the local APIC sees it

    Ending a level-triggered interrupt may make the I/O APIC deliver again, so
    the broadcast may add requests, but it never touches in-service vectors,
    the task priority or the VAPIC address of a local APIC. *)
Definition apic_frame (s s' : APICCommonState) : Prop :=
  isr s' = isr s /\ tpr s' = tpr s /\ vapic_paddr s' = vapic_paddr s /\
  vset (irr s) ⊆ vset (irr s').

(** [Inv] is the condition on the I/O APICs under which the frame is promised; it
    does not depend on the local APICs. *)
Class EoiSinkOk (Inv : Machine -> Prop) `{EoiSink} := {
  eoi_inv_local : forall d f m, Inv m -> Inv (upd_apic d f m);
  eoi_frame : forall v m d s, Inv m -> local_apics m !! d = Some s -> apic_wf s ->
    vapic_paddr s = 0 ->
    exists s', local_apics (ioapic_eoi_broadcast v m) !! d = Some s' /\ apic_frame s s';
}.

(** Whatever the I/O APICs contain, the broadcast keeps every register in range. *)
Class EoiKeeps `{EoiSink} :=
  eoi_wf : forall v m, machine_wf m -> machine_wf (ioapic_eoi_broadcast v m).

(** The situation of a vCPU about to take an interrupt from its own APIC: no
    VAPIC page, APIC enabled, no ExtINT pending from the 8259, legal requests. *)
Record ready (d : nat) (s : APICCommonState) (m : Machine) : Prop := {
  rd_slot : local_apics m !! d = Some s;
  rd_wf : apic_wf s;
  rd_vapic : vapic_paddr s = 0;
  rd_enabled : nz (Z.land (spurious_vec s) APIC_SV_ENABLE) = true;
  rd_pic : apic_accept_pic_intr d m && pic_get_output (pic_master m) = false;
  rd_legal : forall v, v ∈ vset (irr s) -> 16 <= v;
}.

Definition take (v : Z) (s : APICCommonState) : APICCommonState :=
  s <| irr := apic_reset_bit (irr s) v |> <| isr := apic_set_bit (isr s) v |>.

Lemma get_interrupt_cases d s m : ready d s m ->
  (apic_irq_pending s = 0 /\ apic_get_interrupt (Some d) m = (-1, m)) \/
  (apic_irq_pending s < 0 /\
   apic_get_interrupt (Some d) m = (Z.land (spurious_vec s) 0xff, m)) \/
  (0 < apic_irq_pending s /\
   apic_get_interrupt (Some d) m =
     (apic_irq_pending s, apic_update_irq d (upd_apic d (take (apic_irq_pending s)) m))).
Proof.
  intros [Hs Hwf Hv Hen Hpic Hleg]. unfold apic_get_interrupt.
  rewrite (lookup_total_apic _ _ _ Hs), Hen. cbn [negb]. cbv zeta.
  rewrite !(sync_vapic_off d _ m s) by done. rewrite (lookup_total_apic _ _ _ Hs).
  destruct (Z.eqb_spec (apic_irq_pending s) 0) as [E|E].
  { left. split; [done|]. by rewrite (sync_vapic_off d _ m s). }
  right. unfold apic_check_pic.
  rewrite <-negb_andb, Hpic. cbn [negb].
  destruct (Z.ltb_spec (apic_irq_pending s) 0); [left|right; split; [lia|]].
  { rewrite (sync_vapic_off d _ m s) by done. by rewrite (lookup_total_apic _ _ _ Hs). }
  fold (take (apic_irq_pending s)). do 2 f_equal.
  apply (sync_vapic_off d _ _ (take (apic_irq_pending s) s)); [|done].
  rewrite lookup_upd_apic, decide_True by done. by rewrite Hs.
Qed.

Lemma abs_take v s : apic_wf s -> 0 <= v < 256 ->
  abs_apic (take v s) = mkL (vset (irr s) ∖ {[v]}) (vset (isr s) ∪ {[v]}) (tpr s).
Proof.
  intros Hwf Hv. unfold abs_apic, take. cbn -[vset].
  by rewrite vset_reset, vset_set by (done || apply Hwf).
Qed.

Lemma get_interrupt_take d s m v : ready d s m -> apic_irq_pending s = v -> 0 < v ->
  apic_get_interrupt (Some d) m = (v, apic_update_irq d (upd_apic d (take v) m)) /\
  local_apics (apic_get_interrupt (Some d) m).2 !! d = Some (take v s).
Proof.
  intros Hr E Hv. destruct (get_interrupt_cases d s m Hr) as [[? _]|[[? _]|[_ H]]]; [lia..|].
  rewrite E in H. split; [done|]. rewrite H. cbn [snd].
  rewrite apics_update_irq, lookup_upd_apic, decide_True by done. by rewrite (rd_slot _ _ _ Hr).
Qed.

Section eoi.
  Context `{EoiSinkOk Inv}.

Lemma eoi_isr d s m v : Inv m ->
  local_apics m !! d = Some s -> apic_wf s -> vapic_paddr s = 0 -> is_max (vset (isr s)) v ->
  exists s', local_apics (apic_eoi d m) !! d = Some s' /\
    vset (isr s') = vset (isr s) ∖ {[v]} /\ tpr s' = tpr s /\ vset (irr s) ⊆ vset (irr s').
Proof.
  intros HI Hs Hwf Hv Hmax. unfold apic_eoi. rewrite (lookup_total_apic _ _ _ Hs).
  rewrite (is_max_highest (isr s) v) by (done || apply Hwf). cbv zeta.
  assert (Hr : 0 <= v < 256) by (destruct Hmax as [Hin _]; by apply elem_of_vset in Hin as [? _]).
  destruct (Z.ltb_spec v 0); [lia|]. rewrite apics_update_irq.
  set (m1 := upd_apic d _ m).
  assert (Hs1 : local_apics m1 !! d = Some (s <| isr := apic_reset_bit (isr s) v |>))
    by (subst m1; rewrite lookup_upd_apic, decide_True by done; by rewrite Hs).
  assert (HI1 : Inv m1) by (by apply eoi_inv_local).
  clearbody m1.
  lazymatch goal with |- context [if ?c then _ else m1] =>
    set (m2 := if c then ioapic_eoi_broadcast v m1 else m1) end.
  assert (exists s2, local_apics m2 !! d = Some s2 /\
            apic_frame (s <| isr := apic_reset_bit (isr s) v |>) s2) as (s2 & Hs2 & Hf).
  { subst m2. case_if; [apply eoi_frame; try done; destruct Hwf; constructor; try done; by apply tab_wf_reset|]. eexists. split; [done|]. by repeat split. }
  clearbody m2. destruct Hf as (F1 & F2 & F3 & F4). cbn in F1, F2, F3.
  rewrite (sync_vapic_off d _ m2 s2) by (done || congruence).
  exists s2. split_and!; [done| |done|done].
  rewrite F1, vset_reset by (done || apply Hwf). done.
Qed.
End eoi.

Lemma set_irq_apics d v t s m : local_apics m !! d = Some s -> vapic_paddr s = 0 ->
  local_apics (apic_set_irq d v t m) !! d =
    Some (s <| irr := apic_set_bit (irr s) v |>
            <| tmr := if nz t then apic_set_bit (tmr s) v else apic_reset_bit (tmr s) v |>).
Proof.
  intros Hs Hv. unfold apic_set_irq. cbv zeta. rewrite apics_update_irq.
  set (m1 := upd_apic d _ _).
  assert (E : local_apics m1 !! d =
    Some (s <| irr := apic_set_bit (irr s) v |>
            <| tmr := if nz t then apic_set_bit (tmr s) v else apic_reset_bit (tmr s) v |>)).
  { subst m1. rewrite lookup_upd_apic, decide_True by done.
    change (local_apics (apic_report_irq_delivered ?z m)) with (local_apics m). by rewrite Hs. }
  clearbody m1. by rewrite (lookup_total_apic _ _ _ E); cbn; rewrite Hv; cbn.
Qed.

Lemma delivered_update_irq d m : apic_irq_delivered (apic_update_irq d m) = apic_irq_delivered m.
Proof. unfold apic_update_irq. repeat case_match; reflexivity. Qed.

Lemma delivered_sync d t m : apic_irq_delivered (apic_sync_vapic d t m) = apic_irq_delivered m.
Proof. unfold apic_sync_vapic. cbv zeta. by case_ifs. Qed.

Lemma delivered_set_irq d v t m :
  apic_irq_delivered (apic_set_irq d v t m) =
  s32 (apic_irq_delivered m + b2z (negb (apic_get_bit (irr (local_apics m !!! d)) v))).
Proof.
  unfold apic_set_irq. cbv zeta. rewrite delivered_update_irq. case_if; [|done].
  by rewrite !delivered_sync.
Qed.

Lemma take_wf v s : apic_wf s -> 0 <= v < 256 -> apic_wf (take v s).
Proof.
  intros []. constructor; try done; [by apply tab_wf_set|by apply tab_wf_reset].
Qed.

(** A pending vector ranks strictly above everything in service. *)
Lemma pending_tops s : apic_wf s ->
  nz (Z.land (spurious_vec s) APIC_SV_ENABLE) = true ->
  (forall v, v ∈ vset (irr s) -> 16 <= v) -> 0 < apic_irq_pending s ->
  0 <= apic_irq_pending s < 256 /\ forall w, w ∈ vset (isr s) -> w < apic_irq_pending s.
Proof.
  intros Hwf Hen Hleg Hp.
  destruct (irq_pending_spec s) as [[? _]|[[? _]|[Hb (_ & _ & Hd)]]]; [done..|lia|lia|].
  split; [lia|]. intros w Hw. specialize (Hd w Hw). unfold class in Hd.
  pose proof (Z.div_le_mono (apic_irq_pending s) w 16). lia.
Qed.

(** ** Claims *)

(** The machine of the witnesses: vector 0x51 requested, 0x30 in service. *)
Definition busy_apic : APICCommonState :=
  (ex_apic 0) <| irr := apic_set_bit (repeat 0 8) 0x51 |>
              <| isr := apic_set_bit (repeat 0 8) 0x30 |>.
Definition busy_machine : Machine :=
  (ex_machine 1) <| local_apics := {[0%nat := busy_apic]} |>.

Lemma tab_wf_zero : tab_wf (repeat 0 8).
Proof. split; [done|]. by repeat constructor. Qed.

Lemma ex_apic_wf k : (k < 256)%nat -> apic_wf (ex_apic k).
Proof.
  intros Hk. constructor; try apply tab_wf_zero; try done; try (split; [done|]; by repeat constructor).
  unfold is_u; cbn; lia.
Qed.

Lemma busy_apic_wf : apic_wf busy_apic.
Proof.
  destruct (ex_apic_wf 0); [lia|]. constructor; try done; by apply tab_wf_set.
Qed.

Lemma vset_zero : vset (repeat 0 8) = ∅.
Proof. by apply (bool_decide_eq_true_1 _); vm_compute. Qed.

Lemma vset_single v : 0 <= v < 256 -> vset (apic_set_bit (repeat 0 8) v) = {[v]}.
Proof. intros Hv. rewrite vset_set, vset_zero by (apply tab_wf_zero || lia). apply union_empty_l_L. Qed.

Lemma busy_ready : ready 0 busy_apic busy_machine.
Proof.
  constructor; try done; [apply busy_apic_wf|].
  intros v. change (irr busy_apic) with (apic_set_bit (repeat 0 8) 0x51).
  rewrite vset_single, elem_of_singleton by lia. lia.
Qed.

(** C9. Taking an interrupt refines the abstract APIC. From a [ready] state
    [apic_get_interrupt] either finds no request and reports -1, or finds that no
    request outranks the task priority and the in-service vectors and returns the
    spurious vector, both without a state change, or returns the highest requested
    vector and performs exactly the abstract [LTake] step. *)
Theorem apic_get_interrupt_refines d s m :
  ready d s m ->
  let '(v, m') := apic_get_interrupt (Some d) m in
  (v = -1 /\ m' = m /\ vset (irr s) = ∅) \/
  (v = Z.land (spurious_vec s) 0xff /\ m' = m /\
     vset (irr s) <> ∅ /\ forall w, ~ deliverable (abs_apic s) w) \/
  (exists s', local_apics m' !! d = Some s' /\
     lapic_step (abs_apic s) (LTake v) (abs_apic s')).
Proof.
  intros Hr. destruct (irq_pending_spec s) as [[E Hi]|[(E & Hi & Hno)|[Hv Hdel]]];
    try apply Hr.
  - destruct (get_interrupt_cases d s m Hr) as [[_ ->]|[[? _]|[? _]]]; [by left|lia..].
  - destruct (get_interrupt_cases d s m Hr) as [[? _]|[[_ ->]|[? _]]]; [lia|by right; left|lia].
  - destruct (get_interrupt_take d s m _ Hr eq_refl) as [E Hs']; [lia|].
    rewrite E in Hs' |- *. cbn [snd] in Hs'. right; right. exists (take (apic_irq_pending s) s).
    split; [done|]. rewrite abs_take by (apply Hr || lia). by constructor.
Qed.

Lemma apic_get_interrupt_refines_witness :
  exists s', local_apics (apic_get_interrupt (Some 0%nat) busy_machine).2 !! 0%nat = Some s' /\
    lapic_step (abs_apic busy_apic) (LTake 0x51) (abs_apic s').
Proof.
  pose proof (apic_get_interrupt_refines 0 busy_apic busy_machine busy_ready) as H.
  destruct (apic_get_interrupt (Some 0%nat) busy_machine) as [v m'] eqn:E.
  assert (v = 0x51) as -> by (apply (f_equal fst) in E; vm_compute in E; congruence).
  destruct H as [[? _]|[[? _]|H]]; [discriminate..|exact H].
Defined.

(** Accepting a message refines the abstract APIC: [apic_set_irq] adds the
    vector to the requests and changes nothing else of them, records the trigger
    mode in the TMR, and counts the interrupt as delivered exactly when the vector
    was not already requested (otherwise it was coalesced). *)
Theorem apic_set_irq_refines d v t s m :
  local_apics m !! d = Some s -> apic_wf s -> vapic_paddr s = 0 -> 0 <= v < 256 ->
  exists s', local_apics (apic_set_irq d v t m) !! d = Some s' /\
    lapic_step (abs_apic s) (LAccept v) (abs_apic s') /\
    apic_get_bit (tmr s') v = nz t /\
    apic_irq_delivered (apic_set_irq d v t m) =
      s32 (apic_irq_delivered m + (if decide (v ∈ vset (irr s)) then 0 else 1)).
Proof.
  intros Hs Hwf Hvp Hv. rewrite (set_irq_apics d v t s m) by done. eexists. split; [done|].
  split_and!.
  - unfold abs_apic. cbn -[vset]. rewrite vset_set by (done || apply Hwf). by apply step_accept.
  - cbn. destruct (nz t).
    + rewrite get_set_bit by (done || apply Hwf). rewrite Z.eqb_refl. apply orb_true_r.
    + rewrite get_reset_bit by (done || apply Hwf). rewrite Z.eqb_refl. apply andb_false_r.
  - rewrite delivered_set_irq, (lookup_total_apic _ _ _ Hs). do 2 f_equal.
    case_decide as Hd; rewrite elem_of_vset in Hd.
    + by destruct Hd as [_ ->].
    + destruct (apic_get_bit (irr s) v); [tauto|done].
Qed.

Lemma apic_set_irq_refines_witness :
  exists s', local_apics (apic_set_irq 0 0x31 1 busy_machine) !! 0%nat = Some s' /\
    lapic_step (abs_apic busy_apic) (LAccept 0x31) (abs_apic s') /\
    apic_get_bit (tmr s') 0x31 = nz 1 /\
    apic_irq_delivered (apic_set_irq 0 0x31 1 busy_machine) =
      s32 (apic_irq_delivered busy_machine + (if decide (0x31 ∈ vset (irr busy_apic)) then 0 else 1)).
Proof.
  apply (apic_set_irq_refines 0 0x31 1 busy_apic busy_machine);
    [reflexivity|apply busy_apic_wf|reflexivity|lia].
Defined.

(** C24. Interrupts nest: whatever interrupt the processor takes, the next EOI
    retires exactly that one, so the in-service set and the task priority are what
    they were before it was taken, and every other request is still there. The I/O
    APIC is only known by its interface [EoiSinkOk]. *)
Theorem apic_take_eoi_restores `{EoiSinkOk Inv} d s m v m' :
  ready d s m -> Inv m' -> v = apic_irq_pending s -> 0 < v ->
  apic_get_interrupt (Some d) m = (v, m') ->
  exists s', local_apics (apic_eoi d m') !! d = Some s' /\
    vset (isr s') = vset (isr s) /\ tpr s' = tpr s /\
    vset (irr s) ∖ {[v]} ⊆ vset (irr s').
Proof.
  intros Hr HI -> Hv E. destruct (get_interrupt_take d s m _ Hr eq_refl Hv) as [_ Hs'].
  rewrite E in Hs'. cbn [snd] in Hs'.
  destruct (pending_tops s) as [Hb Htop]; [apply Hr..|done|].
  pose proof (abs_take (apic_irq_pending s) s (rd_wf _ _ _ Hr) Hb) as Ha.
  destruct (eoi_isr d _ m' (apic_irq_pending s) HI Hs') as (s' & Hs'' & Hi & Ht & Hq).
  - by apply take_wf; [apply Hr|].
  - apply Hr.
  - change (is_max (l_isr (abs_apic (take (apic_irq_pending s) s))) (apic_irq_pending s)).
    rewrite Ha. cbn [l_isr]. split; [by apply elem_of_union_r, elem_of_singleton|].
    intros w [Hw| ->%elem_of_singleton]%elem_of_union; [|lia]. apply Z.lt_le_incl, Htop, Hw.
  - exists s'. split; [done|]. split_and!; [|done|].
    + rewrite Hi. change (vset (isr (take ?v s))) with (l_isr (abs_apic (take v s))).
      rewrite Ha. cbn [l_isr]. apply set_eq. intros w.
      rewrite elem_of_difference, elem_of_union, elem_of_singleton. split; [tauto|].
      intros Hw. specialize (Htop w Hw). intuition lia.
    + change (vset (irr (take ?v s))) with (l_irr (abs_apic (take v s))) in Hq.
      by rewrite Ha in Hq.
Qed.

(** A machine without I/O APICs: nobody listens to the broadcast. *)
Definition no_ioapic : EoiSink := fun _ m => m.

Lemma no_ioapic_ok : @EoiSinkOk (fun _ => True) no_ioapic.
Proof. split; [done|]. intros v m d s _ Hs _ _. exists s. by repeat split. Qed.

Lemma no_ioapic_keeps : @EoiKeeps no_ioapic.
Proof. by intros v m Hm. Qed.

Lemma apic_take_eoi_restores_witness :
  exists s', local_apics (@apic_eoi no_ioapic 0 (apic_get_interrupt (Some 0%nat) busy_machine).2)
               !! 0%nat = Some s' /\
    vset (isr s') = vset (isr busy_apic) /\ tpr s' = tpr busy_apic /\
    vset (irr busy_apic) ∖ {[0x51]} ⊆ vset (irr s').
Proof.
  apply (@apic_take_eoi_restores (fun _ => True) no_ioapic no_ioapic_ok 0 busy_apic busy_machine 0x51);
    [apply busy_ready|exact I|reflexivity|lia|vm_compute; reflexivity].
Defined.
