(* ===== verification/ApicBus.v ===== *)
(** * The APIC bus: who receives a message, and the invariant of the APICs

    Delivery of interrupt messages by [apic_bus_deliver] (hw/intc/apic.c): the
    scan of the delivery bitmask, physical and logical destinations, the IPI that
    SENDUIPI posts; and preservation of [machine_wf] by every operation of the
    local APIC. *)
From S2P Require Import Prelude Cpu Pic Machine Apic ApicFacts.
Import Machine.Apic.

(** ** Operations on one slot *)

(** [f] leaves every slot but [d] as it is, and the IRR of [d] too, up to adding
    the vectors in [S]. *)
Definition adds (d : nat) (S : gset Z) (f : Machine -> Machine) : Prop :=
  forall m, machine_wf m -> machine_wf (f m) /\
    (forall k, k <> d -> local_apics (f m) !! k = local_apics m !! k) /\
    (forall s, local_apics m !! d = Some s -> exists s', local_apics (f m) !! d = Some s' /\
       vset (irr s') = vset (irr s) ∪ S /\ isr s' = isr s /\ id s' = id s).

Lemma wf_apic m d s : machine_wf m -> local_apics m !! d = Some s -> apic_wf s.
Proof. intros [H _] E. exact (H d s E). Qed.

Lemma wf_total m d : machine_wf m -> local_apics m !! d <> None -> apic_wf (local_apics m !!! d).
Proof.
  intros Hm Hd. destruct (local_apics m !! d) as [s|] eqn:E; [|done].
  rewrite (lookup_total_apic _ _ _ E). by eapply wf_apic.
Qed.

Lemma wf_upd_apic d f m : machine_wf m ->
  (forall s, local_apics m !! d = Some s -> apic_wf s -> apic_wf (f s)) ->
  machine_wf (upd_apic d f m).
Proof.
  intros [Ha Hm] Hf. split; [|done]. intros k s. rewrite lookup_upd_apic.
  case_decide as E; [subst k|by apply Ha].
  destruct (local_apics m !! d) as [s0|] eqn:Es; [|done]. intros [= <-].
  apply Hf; [done|by apply (Ha d)].
Qed.

Lemma wf_update_irq d m : machine_wf m -> machine_wf (apic_update_irq d m).
Proof. unfold machine_wf. by rewrite apics_update_irq, mem_update_irq. Qed.

Lemma ldb_u8 m a : machine_wf m -> is_u 8 (ldb (mem m) a).
Proof.
  intros [_ Hm]. unfold ldb. destruct (mem m !! a) as [b|] eqn:E; [by apply (Hm a)|done].
Qed.

Lemma wf_mem_insert a v m : machine_wf m -> is_u 8 v -> map_Forall (fun _ b => is_u 8 b) (<[a := v]> (mem m)).
Proof. intros [_ Hm] Hv. by apply map_Forall_insert_2. Qed.

Lemma wf_set_mem mm m : machine_wf m -> map_Forall (fun _ b => is_u 8 b) mm ->
  machine_wf (m <| mem := mm |>).
Proof. intros [Ha _] Hmm. by split. Qed.

Lemma wf_set_aborted b m : machine_wf m -> machine_wf (m <| aborted := b |>).
Proof. intros [Ha Hm]. by split. Qed.

Lemma vapic_present d m : nz (vapic_paddr (local_apics m !!! d)) = true ->
  exists s, local_apics m !! d = Some s.
Proof.
  rewrite lookup_total_alt. destruct (local_apics m !! d) as [s|]; [eauto|done].
Qed.

Lemma highest_u8 tab : tab_wf tab -> is_u 8 (Z.max 0 (get_highest_priority_int tab)).
Proof.
  intros Ht. unfold is_u. change (2 ^ 8) with 256.
  destruct (highest_cases tab Ht) as [[-> _]|[_ ?]]; lia.
Qed.

(** The first half of [apic_sync_vapic]. *)
Lemma adds_load_tpr d : adds d ∅ (fun m =>
  upd_apic d (fun s => s <| tpr := ldb (mem m) (vapic_paddr s) |>) m).
Proof.
  intros m Hm. split; [|split].
  - apply wf_upd_apic; [done|]. intros s _ []. constructor; try done. by apply ldb_u8.
  - intros k Hk. by rewrite lookup_upd_apic, decide_False by done.
  - intros s Hs. rewrite lookup_upd_apic, decide_True, Hs by done.
    eexists. split; [done|]. cbn -[vset]. by rewrite union_empty_r_L.
Qed.

Lemma adds_id d : adds d ∅ (fun m => m).
Proof.
  intros m Hm. split_and!; [done..|]. intros s Hs. exists s. by rewrite union_empty_r_L.
Qed.

Lemma adds_comp d S T f g : adds d S f -> adds d T g -> adds d (S ∪ T) (fun m => g (f m)).
Proof.
  intros Hf Hg m Hm. destruct (Hf m Hm) as (Hm1 & Hk1 & Hs1).
  destruct (Hg _ Hm1) as (Hm2 & Hk2 & Hs2). split_and!; [done| |].
  - intros k Hk. rewrite Hk2, Hk1 by done. done.
  - intros s Hs. destruct (Hs1 s Hs) as (s1 & E1 & Hi1 & Hj1 & Hd1).
    destruct (Hs2 s1 E1) as (s2 & E2 & Hi2 & Hj2 & Hd2).
    exists s2. split_and!; [done| |congruence..]. rewrite Hi2, Hi1. by rewrite assoc_L by apply _.
Qed.

Lemma adds_mem d (g : Machine -> gmap Z Z) :
  (forall m, machine_wf m -> map_Forall (fun _ b => is_u 8 b) (g m)) ->
  adds d ∅ (fun m => m <| mem := g m |>).
Proof.
  intros Hg m Hm. split_and!; [by apply wf_set_mem, Hg|done|].
  intros s Hs. exists s. by rewrite union_empty_r_L.
Qed.

(** Adding no vector twice is adding none. *)
Lemma adds_none2 d f g : adds d ∅ f -> adds d ∅ g -> adds d ∅ (fun m => g (f m)).
Proof. intros Hf Hg. rewrite <-(union_empty_r_L ∅). by apply adds_comp. Qed.

Lemma adds_if d S (c : Machine -> bool) f g : adds d S f -> adds d S g ->
  adds d S (fun m => if c m then f m else g m).
Proof. intros Hf Hg m Hm. destruct (c m); auto. Qed.

Lemma adds_update_irq d : adds d ∅ (apic_update_irq d).
Proof.
  intros m Hm. split; [by apply wf_update_irq|]. rewrite apics_update_irq.
  by destruct (adds_id d m Hm).
Qed.

Lemma adds_sync d t : adds d ∅ (apic_sync_vapic d t).
Proof.
  intros m Hm. unfold apic_sync_vapic. cbv zeta.
  case_if; [by apply adds_id|].
  set (m1 := if nz (Z.land t SYNC_FROM_VAPIC) then _ else m).
  assert (H1 : adds d ∅ (fun m => if nz (Z.land t SYNC_FROM_VAPIC) then
    upd_apic d (fun s => s <| tpr := ldb (mem m) (vapic_paddr s) |>) m else m))
    by (apply (adds_if _ _ (fun _ => _)); [apply adds_load_tpr|apply adds_id]).
  specialize (H1 m Hm). cbv beta in H1. change (if nz (Z.land t SYNC_FROM_VAPIC) then _ else m) with m1 in H1.
  clearbody m1.
  case_if; [|exact H1]. destruct H1 as (Hm1 & Hk & Hs).
  split; [|by split]. apply wf_set_aborted, wf_set_mem; [done|].
  destruct (local_apics m1 !! d) as [s1|] eqn:E.
  - pose proof (wf_apic _ _ _ Hm1 E) as Hw. rewrite (lookup_total_apic _ _ _ E).
    assert (Hr : forall tab n, tab_wf tab -> is_u 8 n ->
      is_u 8 (Z.land (Z.max 0 (get_highest_priority_int tab)) n))
      by (intros; apply is_u_land; [lia|by apply highest_u8]).
    case_if; repeat apply map_Forall_insert_2; try apply Hm1; try done;
      try (apply Hr; [apply Hw|done]); apply Hw.
  - exfalso. destruct (local_apics m !! d) as [s0|] eqn:E0.
    + destruct (Hs s0 eq_refl) as (s' & ? & _). congruence.
    + rewrite lookup_total_alt, E0 in *. done.
Qed.

Lemma adds_request d v t : 0 <= v < 256 -> adds d {[v]} (upd_apic d (fun s =>
  s <| irr := apic_set_bit (irr s) v |>
    <| tmr := if nz t then apic_set_bit (tmr s) v else apic_reset_bit (tmr s) v |>)).
Proof.
  intros Hv m Hm. split_and!.
  - apply wf_upd_apic; [done|]. intros s _ []. constructor; try done; [|by apply tab_wf_set].
    cbn. case_if; [by apply tab_wf_set|by apply tab_wf_reset].
  - intros k Hk. by rewrite lookup_upd_apic, decide_False by done.
  - intros s Hs. rewrite lookup_upd_apic, decide_True, Hs by done.
    eexists. split; [done|]. cbn -[vset]. split; [|done].
    apply vset_set; [|done]. eapply wf_irr, wf_apic; done.
Qed.

Lemma adds_set_irq d v t : 0 <= v < 256 -> adds d {[v]} (apic_set_irq d v t).
Proof.
  intros Hv m Hm. unfold apic_set_irq. cbv zeta.
  change (upd_apic d ?f (apic_report_irq_delivered ?z m))
    with ((upd_apic d f m) <| apic_irq_delivered := s32 (apic_irq_delivered m + z) |>).
  set (z := s32 (apic_irq_delivered m + _)). clearbody z.
  assert (H1 : adds d ({[v]} ∪ ∅) (fun m => (upd_apic d (fun s =>
      s <| irr := apic_set_bit (irr s) v |>
        <| tmr := if nz t then apic_set_bit (tmr s) v else apic_reset_bit (tmr s) v |>) m)
      <| apic_irq_delivered := z |>))
    by (apply (adds_comp d _ _ _ (fun m => m <| apic_irq_delivered := z |>));
        [by apply adds_request|exact (adds_id d)]).
  assert (H2 : adds d ∅ (fun m => if nz (vapic_paddr (local_apics m !!! d))
           then apic_sync_vapic d SYNC_FROM_VAPIC (apic_sync_vapic d SYNC_ISR_IRR_TO_VAPIC m)
           else m))
    by (apply (adds_if d ∅ (fun m => nz (vapic_paddr (local_apics m !!! d))));
        [apply adds_none2; apply adds_sync|apply adds_id]).
  rewrite union_empty_r_L in H1.
  pose proof (adds_comp _ _ _ _ _ (adds_comp _ _ _ _ _ H1 H2) (adds_update_irq d)) as H3.
  rewrite !union_empty_r_L in H3. exact (H3 m Hm).
Qed.

(** ** The scan of a delivery bitmask *)
Section scan.
  Context (mask : list Z) (code : nat -> Machine -> Machine) (S : gset Z).
  Context (Hcode : forall k, adds k S (code k)).

Let step (m : Machine) (k : nat) : Machine :=
  if apic_get_bit mask (Z.of_nat k) then
    match local_apics m !! k with Some _ => code k m | None => m end
  else m.

Lemma scan_step k m : machine_wf m ->
  machine_wf (step m k) /\
  forall j s, local_apics m !! j = Some s -> exists s', local_apics (step m k) !! j = Some s' /\
    vset (irr s') = (if decide (j = k /\ apic_get_bit mask (Z.of_nat j) = true)
                     then vset (irr s) ∪ S else vset (irr s)) /\
    isr s' = isr s /\ id s' = id s.
Proof.
  intros Hm. unfold step. destruct (apic_get_bit mask (Z.of_nat k)) eqn:Eb.
  2:{ split; [done|]. intros j s Hs. exists s. rewrite decide_False; [done|intros [-> ?]; congruence]. }
  destruct (local_apics m !! k) as [sk|] eqn:Ek.
  2:{ split; [done|]. intros j s Hs. exists s. rewrite decide_False; [done|intros [-> ?]; congruence]. }
  destruct (Hcode k m Hm) as (Hm' & Hother & Hself). split; [done|]. intros j s Hs.
  destruct (decide (j = k)) as [->|Hne].
  - rewrite decide_True by done. by apply Hself.
  - rewrite decide_False by tauto. exists s. by rewrite Hother by done.
Qed.

Lemma scan_list l m : machine_wf m -> NoDup l ->
  machine_wf (fold_left step l m) /\
  forall j s, local_apics m !! j = Some s ->
    exists s', local_apics (fold_left step l m) !! j = Some s' /\
    vset (irr s') = (if decide (j ∈ l /\ apic_get_bit mask (Z.of_nat j) = true)
                     then vset (irr s) ∪ S else vset (irr s)) /\
    isr s' = isr s /\ id s' = id s.
Proof.
  revert m. induction l as [|k l IH]; intros m Hm Hnd.
  { split; [done|]. intros j s Hs. exists s. rewrite decide_False; [done|].
    intros [Hin _]. by apply not_elem_of_nil in Hin. }
  apply list.NoDup_cons in Hnd as [Hk Hnd]. destruct (scan_step k m Hm) as [Hm1 H1].
  destruct (IH _ Hm1 Hnd) as [Hm2 H2]. split; [exact Hm2|].
  intros j s Hs. destruct (H1 j s Hs) as (s1 & E1 & Hi1 & Hj1 & Hd1).
  destruct (H2 j s1 E1) as (s2 & E2 & Hi2 & Hj2 & Hd2).
  exists s2. split_and!; [exact E2| |congruence..].
  rewrite Hi2, Hi1, (decide_ext (j ∈ k :: l /\ _) ((j = k \/ j ∈ l) /\ apic_get_bit mask (Z.of_nat j) = true))
    by (by rewrite elem_of_cons).
  repeat case_decide; (reflexivity || exfalso; intuition congruence).
Qed.

Lemma foreach_apic_adds m : machine_wf m ->
  machine_wf (foreach_apic mask code m) /\
  forall j s, local_apics m !! j = Some s -> (j < 256)%nat ->
    exists s', local_apics (foreach_apic mask code m) !! j = Some s' /\
    vset (irr s') = (if apic_get_bit mask (Z.of_nat j)
                     then vset (irr s) ∪ S else vset (irr s)) /\
    isr s' = isr s /\ id s' = id s.
Proof.
  intros Hm. destruct (scan_list (seq 0 256) m Hm (NoDup_seq 0 256)) as [Hm' H].
  split; [exact Hm'|]. intros j s Hs Hj. destruct (H j s Hs) as (s' & E & Hi & Hrest).
  exists s'. split; [exact E|]. split; [|exact Hrest]. rewrite Hi.
  destruct (apic_get_bit mask (Z.of_nat j)) eqn:Eb.
  - rewrite decide_True; [done|]. split; [apply elem_of_seq; lia|done].
  - rewrite decide_False; [done|]. by intros [_ ?].
Qed.
End scan.

(** ** Destinations *)

(** The machine's topology: the first [n] slots are populated (the scans stop at
    the first empty one) and no two APICs share an id. *)
Record topology (n : nat) (m : Machine) : Prop := {
  topo_bound : (n <= 255)%nat;
  topo_slots : forall k, is_Some (local_apics m !! k) <-> (k < n)%nat;
  topo_ids : forall i j a b, local_apics m !! i = Some a -> local_apics m !! j = Some b ->
    id a = id b -> i = j;
}.

Lemma topo_lt n m k s : topology n m -> local_apics m !! k = Some s -> (k < n)%nat.
Proof. intros Ht Hs. apply (topo_slots n m Ht). by eexists. Qed.

Lemma find_dest_from_spec n m dest f i : topology n m -> (n <= i + f)%nat ->
  (exists k s, find_dest_from f i dest m = Z.of_nat k /\
     local_apics m !! k = Some s /\ id s = dest) \/
  (find_dest_from f i dest m = -1 /\
     forall k s, (i <= k)%nat -> local_apics m !! k = Some s -> id s <> dest).
Proof.
  intros Ht. revert i. induction f as [|f IH]; intros i Hf; cbn [find_dest_from].
  { right. split; [done|]. intros k s Hk Hs _. apply (topo_lt n) in Hs; [lia|done]. }
  destruct (local_apics m !! i) as [a|] eqn:Ei.
  - destruct (Z.eqb_spec (id a) dest) as [E|E]; [left; by exists i, a|].
    destruct (IH (S i)) as [H|[H Hno]]; [lia|by left|right]. split; [done|].
    intros k s Hk Hs. destruct (decide (k = i)) as [->|]; [congruence|]. apply (Hno k s); [lia|done].
  - right. split; [done|]. intros k s Hk Hs _.
    assert (~ (i < n)%nat) by (rewrite <-(topo_slots n m Ht), Ei; by intros [? [=]]).
    apply (topo_lt n) in Hs; [lia|done].
Qed.

Lemma find_dest_spec n m dest : topology n m -> 0 <= dest ->
  (exists k s, apic_find_dest dest m = Z.of_nat k /\
     local_apics m !! k = Some s /\ id s = dest) \/
  (apic_find_dest dest m = -1 /\ forall k s, local_apics m !! k = Some s -> id s <> dest).
Proof.
  intros Ht Hd. unfold apic_find_dest.
  assert (H : (exists k s, find_dest_from 255 0 dest m = Z.of_nat k /\
     local_apics m !! k = Some s /\ id s = dest) \/
     (find_dest_from 255 0 dest m = -1 /\
      forall k s, local_apics m !! k = Some s -> id s <> dest)).
  { destruct (find_dest_from_spec n m dest 255 0 Ht) as [H|[H Hno]]; [apply Ht|by left|right].
    split; [done|]. intros k s. apply Hno. lia. }
  destruct (local_apics m !! Z.to_nat dest) as [a|] eqn:Ea; [|done].
  destruct (Z.eqb_spec (id a) dest); [|done].
  left. exists (Z.to_nat dest), a. split; [lia|done].
Qed.

Lemma tab_wf_ones : tab_wf bitmask_ones.
Proof. split; [done|]. by repeat constructor. Qed.

Lemma get_bit_ones k : 0 <= k < 256 -> apic_get_bit bitmask_ones k = true.
Proof.
  intros Hk. assert (Forall (fun k => apic_get_bit bitmask_ones k = true) (seqZ 0 256)) as H
    by (apply (bool_decide_eq_true_1 _); by vm_compute).
  rewrite list.Forall_forall in H. apply H, elem_of_seqZ. lia.
Qed.

Lemma get_bit_zero k : 0 <= k < 256 -> apic_get_bit bitmask_zero k = false.
Proof.
  intros Hk. destruct (apic_get_bit bitmask_zero k) eqn:E; [|done].
  assert (k ∈ vset (repeat 0 8)) as H by (by apply elem_of_vset).
  rewrite vset_zero in H. set_solver.
Qed.

(** Who a physical destination selects. *)
Lemma physical_bit n m dest k s : topology n m -> 0 <= dest < 256 ->
  local_apics m !! k = Some s ->
  apic_get_bit (apic_get_delivery_bitmask dest 0 m) (Z.of_nat k) =
    (dest =? 0xff) || (id s =? dest).
Proof.
  intros Ht Hd Hs. pose proof (topo_lt _ _ _ _ Ht Hs) as Hk. pose proof (topo_bound _ _ Ht).
  unfold apic_get_delivery_bitmask. cbn [Z.eqb].
  destruct (Z.eqb_spec dest 0xff); [apply get_bit_ones; lia|]. cbn [orb].
  destruct (find_dest_spec n m dest Ht) as [(j & a & -> & Ha & Hid)|[-> Hno]]; [lia|..].
  - pose proof (topo_lt _ _ _ _ Ht Ha). destruct (Z.leb_spec 0 (Z.of_nat j)); [|lia].
    rewrite get_set_bit, get_bit_zero by (apply tab_wf_zero || lia). cbn [orb].
    destruct (Z.eqb_spec (id s) dest) as [E|E].
    + apply Z.eqb_eq. f_equal. by rewrite (topo_ids _ _ Ht k j s a) by congruence.
    + apply Z.eqb_neq. intros ?%Nat2Z.inj. subst j. congruence.
  - cbn [Z.leb Z.compare]. rewrite get_bit_zero by lia. symmetry. apply Z.eqb_neq. by eapply Hno.
Qed.

(** Who a logical destination selects: flat model (DFR 0xf), a shared bit; cluster
    model (DFR 0), the same cluster and a shared member bit. *)
Definition logical_match (dest : Z) (a : APICCommonState) : bool :=
  ((dest_mode a =? 0xf) && nz (Z.land dest (log_dest a)))
  || ((dest_mode a =? 0) && (Z.land dest 0xf0 =? Z.land (log_dest a) 0xf0)
      && nz (Z.land (Z.land dest (log_dest a)) 0x0f)).

Lemma logical_mask_step dest a mask i :
  (if dest_mode a =? 0xf then
     if nz (Z.land dest (log_dest a)) then apic_set_bit mask i else mask
   else if dest_mode a =? 0x0 then
     if (Z.land dest 0xf0 =? Z.land (log_dest a) 0xf0)
        && nz (Z.land (Z.land dest (log_dest a)) 0x0f)
     then apic_set_bit mask i else mask
   else mask) = if logical_match dest a then apic_set_bit mask i else mask.
Proof.
  unfold logical_match. destruct (Z.eqb_spec (dest_mode a) 0xf) as [->|].
  - cbn [Z.eqb andb]. by rewrite orb_false_r.
  - cbn [andb orb]. by destruct (dest_mode a =? 0).
Qed.

Lemma logical_from_spec n m dest f i mask k s : topology n m -> (n <= i + f)%nat ->
  tab_wf mask -> local_apics m !! k = Some s ->
  apic_get_bit (logical_from f i dest m mask) (Z.of_nat k) =
    apic_get_bit mask (Z.of_nat k) || ((i <=? k)%nat && logical_match dest s).
Proof.
  intros Ht Hf Hw Hs. pose proof (topo_lt _ _ _ _ Ht Hs) as Hk. pose proof (topo_bound _ _ Ht).
  revert i mask Hf Hw. induction f as [|f IH]; intros i mask Hf Hw; cbn [logical_from].
  { rewrite (proj2 (Nat.leb_gt i k)) by lia. by rewrite orb_false_r. }
  destruct (local_apics m !! i) as [a|] eqn:Ei.
  2:{ assert (~ (i < n)%nat) by (rewrite <-(topo_slots n m Ht), Ei; by intros [? [=]]).
      rewrite (proj2 (Nat.leb_gt i k)) by lia. by rewrite orb_false_r. }
  pose proof (topo_lt _ _ _ _ Ht Ei). rewrite logical_mask_step.
  assert (Hw' : tab_wf (if logical_match dest a then apic_set_bit mask (Z.of_nat i) else mask))
    by (case_if; [by apply tab_wf_set|done]).
  rewrite IH by (lia || done).
  assert (E : apic_get_bit (if logical_match dest a then apic_set_bit mask (Z.of_nat i) else mask)
    (Z.of_nat k) = apic_get_bit mask (Z.of_nat k) || ((k =? i)%nat && logical_match dest a)).
  { destruct (logical_match dest a).
    - rewrite get_set_bit, andb_true_r by (done || lia). f_equal.
      destruct (Nat.eqb_spec k i); [apply Z.eqb_eq|apply Z.eqb_neq]; lia.
    - by rewrite andb_false_r, orb_false_r. }
  rewrite E, <-orb_assoc. f_equal. destruct (Nat.eqb_spec k i) as [->|].
  - rewrite Ei in Hs. injection Hs as ->. rewrite (proj2 (Nat.leb_gt (S i) i)), Nat.leb_refl by lia.
    cbn. by rewrite orb_false_r.
  - cbn [andb orb]. f_equal. destruct (Nat.leb_spec i k), (Nat.leb_spec (S i) k); lia.
Qed.

Definition selected (dest destmode : Z) (s : APICCommonState) : bool :=
  if destmode =? 0 then (dest =? 0xff) || (id s =? dest) else logical_match dest s.

Lemma delivery_bit n m dest destmode k s : topology n m -> 0 <= dest < 256 ->
  local_apics m !! k = Some s ->
  apic_get_bit (apic_get_delivery_bitmask dest destmode m) (Z.of_nat k) =
    selected dest destmode s.
Proof.
  intros Ht Hd Hs. unfold selected. destruct (Z.eqb_spec destmode 0) as [->|Hne].
  - by eapply physical_bit.
  - pose proof (topo_lt _ _ _ _ Ht Hs). pose proof (topo_bound _ _ Ht).
    unfold apic_get_delivery_bitmask. rewrite (proj2 (Z.eqb_neq _ _) Hne).
    rewrite (logical_from_spec n m dest 255 0 bitmask_zero k s) by (done || apply tab_wf_zero || lia).
    by rewrite get_bit_zero by lia.
Qed.

Lemma bus_fixed mask v t m : machine_wf m -> 0 <= v < 256 ->
  machine_wf (apic_bus_deliver mask APIC_DM_FIXED v t m) /\
  forall k s, local_apics m !! k = Some s -> (k < 256)%nat ->
    exists s', local_apics (apic_bus_deliver mask APIC_DM_FIXED v t m) !! k = Some s' /\ isr s' = isr s /\
      vset (irr s') = if apic_get_bit mask (Z.of_nat k) then vset (irr s) ∪ {[v]} else vset (irr s).
Proof.
  intros Hm Hv. unfold apic_bus_deliver.
  change (APIC_DM_FIXED =? APIC_DM_LOWPRI) with false.
  change (APIC_DM_FIXED =? APIC_DM_SMI) with false.
  change (APIC_DM_FIXED =? APIC_DM_NMI) with false.
  change (APIC_DM_FIXED =? APIC_DM_INIT) with false. cbn [orb Z.eqb APIC_DM_FIXED].
  destruct (foreach_apic_adds mask (fun k => apic_set_irq k v t) {[v]}
    (fun k => adds_set_irq k v t Hv) m Hm) as [Hm' H].
  split; [exact Hm'|]. intros k s Hs Hk. destruct (H k s Hs Hk) as (s' & E & Hi & Hj & _).
  by exists s'.
Qed.

(** C22. A fixed-mode message reaches exactly the APICs its destination selects:
    physically, the APIC with that id, or all of them for 0xff; logically, those
    whose LDR matches under their own destination model. A selected APIC gets the
    vector added to its requests, any other keeps its requests, and no in-service
    register changes. The whole bus stays well formed. *)
Theorem apic_deliver_irq_reaches n m dest destmode v t k s :
  machine_wf m -> topology n m -> 0 <= dest < 256 -> 0 <= v < 256 ->
  local_apics m !! k = Some s ->
  let m' := apic_deliver_irq dest destmode APIC_DM_FIXED v t m in
  machine_wf m' /\
  exists s', local_apics m' !! k = Some s' /\ isr s' = isr s /\
    vset (irr s') = if selected dest destmode s then vset (irr s) ∪ {[v]} else vset (irr s).
Proof.
  intros Hm Ht Hd Hv Hs. cbv zeta. unfold apic_deliver_irq.
  destruct (bus_fixed (apic_get_delivery_bitmask dest destmode m) v t m Hm Hv) as [Hm' H].
  pose proof (topo_lt _ _ _ _ Ht Hs). pose proof (topo_bound _ _ Ht).
  split; [exact Hm'|]. destruct (H k s Hs) as (s' & E & Hj & Hi); [lia|].
  exists s'. split_and!; [exact E|done|]. rewrite Hi. by erewrite delivery_bit by done.
Qed.

Lemma ex_machine_slot n k :
  local_apics (ex_machine n) !! k = if decide (k < n)%nat then Some (ex_apic k) else None.
Proof.
  cbn [local_apics ex_machine]. case_decide as Hk.
  - apply elem_of_list_to_map_1.
    + change (NoDup (map fst (map (fun k => (k, ex_apic k)) (seq 0 n)))).
      rewrite map_map, map_id. apply NoDup_seq.
    + apply list_elem_of_fmap. exists k. split; [done|]. apply elem_of_seq. lia.
  - apply not_elem_of_list_to_map_1.
    change (k ∉ map fst (map (fun k => (k, ex_apic k)) (seq 0 n))).
    rewrite map_map, map_id, elem_of_seq. lia.
Qed.

Lemma ex_machine_wf n : (n <= 255)%nat -> machine_wf (ex_machine n).
Proof.
  intros Hn. split; [|apply map_Forall_empty]. intros k s. rewrite ex_machine_slot.
  case_decide; [|done]. intros [= <-]. apply ex_apic_wf. lia.
Qed.

Lemma ex_machine_topology n : (n <= 255)%nat -> topology n (ex_machine n).
Proof.
  intros Hn. constructor; [done|..].
  - intros k. rewrite ex_machine_slot. case_decide; [by split|].
    split; [by intros [? [=]]|lia].
  - intros i j a b. rewrite !ex_machine_slot. repeat case_decide; try done.
    intros [= <-] [= <-]. cbn. lia.
Qed.

Lemma apic_deliver_irq_reaches_witness :
  let m' := apic_deliver_irq 2 0 APIC_DM_FIXED 0x40 0 (ex_machine 3) in
  machine_wf m' /\
  exists s', local_apics m' !! 2%nat = Some s' /\ isr s' = isr (ex_apic 2) /\
    vset (irr s') = if selected 2 0 (ex_apic 2) then vset (irr (ex_apic 2)) ∪ {[0x40]}
                    else vset (irr (ex_apic 2)).
Proof.
  apply (apic_deliver_irq_reaches 3 (ex_machine 3) 2 0 0x40 0 2 (ex_apic 2));
    [apply ex_machine_wf; lia|apply ex_machine_topology; lia|lia|lia|reflexivity].
Defined.

(** ** The invariant *)
Definition keeps (f : Machine -> Machine) : Prop := forall m, machine_wf m -> machine_wf (f m).

Lemma adds_keeps d S f : adds d S f -> keeps f.
Proof. intros Hf m Hm. by apply (Hf m Hm). Qed.

Lemma keeps_upd d f : (forall s, apic_wf s -> apic_wf (f s)) -> keeps (upd_apic d f).
Proof. intros Hf m Hm. apply wf_upd_apic; auto. Qed.

Lemma keeps_sync d t : keeps (apic_sync_vapic d t).
Proof. eapply adds_keeps, adds_sync. Qed.

Lemma keeps_set_irq d v t : 0 <= v < 256 -> keeps (apic_set_irq d v t).
Proof. intros Hv. by eapply adds_keeps, adds_set_irq. Qed.

Lemma keeps_foreach mask code : (forall k, keeps (code k)) -> keeps (foreach_apic mask code).
Proof.
  intros Hc m. unfold foreach_apic. generalize (seq 0 256) as l. intros l. revert m.
  induction l as [|k l IH]; intros m Hm; cbn [fold_left]; [done|].
  apply IH. case_if; [|done]. destruct (local_apics m !! k); [|done]. by apply Hc.
Qed.

Lemma keeps_cpu_interrupt d q : keeps (cpu_interrupt d q).
Proof. by intros m Hm. Qed.

Lemma u8_range x : 0 <= u8 x < 256.
Proof. pose proof (wrap_range 8 x). unfold is_u in *. lia. Qed.

Lemma land_ff_range x : 0 <= Z.land x 0xff < 256.
Proof. change 0xff with (Z.ones 8). rewrite Z.land_ones by lia. apply Z.mod_pos_bound. lia. Qed.

(** One step of the preservation proofs, chosen by the head of the machine term
    so that no machine is ever unfolded by unification. *)
Ltac wf_step :=
  lazymatch goal with
  | |- machine_wf (if ?c then _ else _) => destruct c
  | |- machine_wf (apic_update_irq _ _) => apply wf_update_irq
  | |- machine_wf (apic_sync_vapic _ _ _) => apply keeps_sync
  | |- machine_wf (cpu_interrupt _ _ _) => apply keeps_cpu_interrupt
  | |- machine_wf (apic_set_irq _ _ _ _) => apply keeps_set_irq
  | |- machine_wf (foreach_apic _ _ _) => apply keeps_foreach; [intros ? ? ?|]
  | |- machine_wf (upd_apic _ _ _) => apply keeps_upd
  | |- machine_wf ?m => is_var m; assumption
  | |- 0 <= Z.land _ 0xff < 256 => apply land_ff_range
  | |- 0 <= u8 _ < 256 => apply u8_range
  | |- 0 <= ?v < 256 => is_var v; assumption
  end.

Lemma keeps_bus_deliver mask dm v t : 0 <= v < 256 -> keeps (apic_bus_deliver mask dm v t).
Proof. intros Hv m Hm. unfold apic_bus_deliver. cbv zeta. repeat wf_step. Qed.

Lemma keeps_local_deliver d i : keeps (apic_local_deliver d i).
Proof. intros m Hm. unfold apic_local_deliver. cbv zeta. repeat wf_step. Qed.

Lemma keeps_startup k v : keeps (apic_startup k v).
Proof.
  intros m Hm. apply keeps_cpu_interrupt, keeps_upd; [|done]. intros s []. by constructor.
Qed.

Lemma keeps_deliver d dest destmode dm v t : 0 <= v < 256 ->
  keeps (apic_deliver d dest destmode dm v t).
Proof.
  intros Hv m Hm. unfold apic_deliver. cbv zeta.
  lazymatch goal with |- context [apic_bus_deliver ?b] => generalize b end. intros mask.
  repeat lazymatch goal with
  | |- machine_wf (apic_bus_deliver _ _ _ _ _) => apply keeps_bus_deliver
  | |- machine_wf (apic_startup _ _ _) => apply keeps_startup
  | _ => wf_step
  end.
  intros s []. by constructor.
Qed.

Lemma words_wf_aset n (tab : list Z) i w :
  length tab = n /\ Forall (is_u 32) tab -> is_u 32 w ->
  length (aset tab i w) = n /\ Forall (is_u 32) (aset tab i w).
Proof. intros [Hl Hf] Hw. split; [by rewrite length_aset|]. by apply Forall_insert. Qed.

(** Close [apic_wf (s <| ... |>)] from [apic_wf s]: the changed fields carry one
    of the shapes below. *)
Ltac wf_fields :=
  let s := fresh "s" in let H := fresh "Hwf" in
  intros s H; destruct H; constructor;
  cbn -[apic_set_bit apic_reset_bit u8 u16 u32 clr Z.land Z.lor aset repeat]; try assumption;
  repeat lazymatch goal with
  | |- length (aset _ _ _) = _ /\ _ => apply words_wf_aset; [assumption|]
  | |- tab_wf (apic_set_bit _ _) => apply tab_wf_set; assumption
  | |- tab_wf (apic_reset_bit _ _) => apply tab_wf_reset; assumption
  | |- tab_wf (repeat 0 8) => apply tab_wf_zero
  | |- is_u _ (wrap _ _) => apply wrap_range; lia
  | |- is_u _ (clr _ _) => apply is_u_land; [lia|assumption]
  | |- is_u _ (if _ then _ else _) => case_if
  | |- is_u _ (Z.lor _ _) => apply is_u_lor; [lia|try assumption; try done|try assumption; try done]
  | |- is_u 3 (Z.land _ 7) => apply is_u_land_r; [lia|done]
  | |- is_u 32 (Z.land _ 0x1ff) => apply is_u_land_r; [lia|done]
  | |- is_u 32 (Z.land _ MSR_IA32_APICBASE_BSP) => apply is_u_land_r; [lia|done]
  | |- length (repeat _ _) = _ /\ _ => split; [done|by repeat constructor]
  | |- is_u _ 0 => done
  | |- is_u _ 0xf => done
  | |- is_u _ 0xff => done
  end.

Lemma next_timer_wf now s : apic_wf s -> apic_wf (apic_next_timer now s).2.
Proof.
  intros Hwf. unfold apic_next_timer. cbv zeta. cbn -[s64 u64].
  case_ifs; cbn; revert Hwf; generalize s; wf_fields.
Qed.

Lemma keeps_timer_update d now : keeps (apic_timer_update d now).
Proof.
  apply keeps_upd. intros s Hs. pose proof (next_timer_wf now s Hs) as Hn.
  destruct (apic_next_timer now s) as [b s']. cbn [snd] in Hn. revert s' Hn. destruct b; wf_fields.
Qed.

Lemma keeps_deliver_pic_intr d level : keeps (apic_deliver_pic_intr d level).
Proof.
  intros m Hm. unfold apic_deliver_pic_intr. cbv zeta.
  case_if; [by apply keeps_local_deliver|]. repeat wf_step. wf_fields.
Qed.

Lemma keeps_check_pic d m : machine_wf m -> machine_wf (apic_check_pic d m).2.
Proof.
  intros Hm. unfold apic_check_pic. case_if; cbn [snd]; [done|]. by apply keeps_deliver_pic_intr.
Qed.

Lemma keeps_upd_cpu d f : keeps (upd_cpu d f).
Proof. by intros m Hm. Qed.

Lemma keeps_set_base d v : keeps (apic_set_base d v).
Proof.
  intros m Hm. unfold apic_set_base. cbv zeta.
  assert (H1 : forall f, (forall s, apic_wf s -> apic_wf (f s)) -> machine_wf (upd_apic d f m))
    by (intros f Hf; by apply keeps_upd).
  case_if; [|apply H1; wf_fields].
  apply keeps_upd; [wf_fields|]. apply keeps_upd_cpu, keeps_upd; [wf_fields|]. apply H1. wf_fields.
Qed.

Lemma keeps_cpu_set_base o v : keeps (cpu_set_apic_base o v).
Proof.
  intros m Hm. destruct o as [d|]; [|done]. cbn [cpu_set_apic_base]. cbv zeta.
  apply keeps_set_base. wf_step; [apply keeps_upd; [wf_fields|done]|done].
Qed.

Lemma keeps_set_tpr d v : keeps (apic_set_tpr d v).
Proof.
  intros m Hm. unfold apic_set_tpr. repeat wf_step. wf_fields.
Qed.

Lemma keeps_reset_common d : keeps (apic_reset_common d).
Proof.
  intros m Hm. unfold apic_reset_common. cbv zeta. cbn [apic_init_reset].
  apply keeps_upd; [unfold apic_reset_regs; wf_fields|]. apply keeps_sync.
  apply keeps_upd; [wf_fields|].
  change (machine_wf (apic_reset_irq_delivered ?x)) with (machine_wf x).
  apply keeps_upd; [|done]. wf_fields.
Qed.

Lemma get_interrupt_wf o m : machine_wf m -> machine_wf (apic_get_interrupt o m).2.
Proof.
  intros Hm. destruct o as [d|]; [|done]. unfold apic_get_interrupt. cbv zeta.
  case_if; [done|]. set (m1 := apic_sync_vapic d SYNC_FROM_VAPIC m).
  assert (Hm1 : machine_wf m1) by (by apply keeps_sync). clearbody m1.
  set (v := apic_irq_pending _). clearbody v.
  pose proof (keeps_check_pic d m1 Hm1) as H2. destruct (apic_check_pic d m1) as [b m2].
  cbn [snd] in H2. destruct (v =? 0); [by apply keeps_sync|].
  destruct b; [by apply keeps_sync|]. case_if; cbn [snd]; [by apply keeps_sync|].
  apply wf_update_irq, keeps_sync, keeps_upd; [|done]. wf_fields.
Qed.

Section ops.
  Context `{EoiKeeps}.

Lemma keeps_eoi d : keeps (apic_eoi d).
Proof.
  intros m Hm. unfold apic_eoi. cbv zeta. wf_step; [done|].
  apply wf_update_irq, keeps_sync.
  lazymatch goal with |- context [upd_apic d ?f m] =>
    assert (Hm1 : machine_wf (upd_apic d f m)) by (apply keeps_upd; [wf_fields|done]);
    generalize dependent (upd_apic d f m) end.
  intros m1 Hm1. wf_step; [by apply eoi_wf|done].
Qed.

Lemma keeps_reg_write d index val : keeps (apic_reg_write d index val).
Proof.
  intros m Hm. unfold apic_reg_write. cbv zeta.
  assert (Hu : forall f, (forall s, apic_wf s -> apic_wf (f s)) -> machine_wf (upd_apic d f m))
    by (intros f Hf; by apply keeps_upd).
  repeat lazymatch goal with |- machine_wf (if ?c then _ else _) => destruct c end; try exact Hm.
  - apply Hu. wf_fields.
  - apply wf_update_irq, keeps_sync, keeps_upd; [wf_fields|]. by destruct (apic_report_tpr_access m).
  - by apply keeps_eoi.
  - apply Hu. wf_fields.
  - apply Hu. wf_fields.
  - apply wf_update_irq, Hu. wf_fields.
  - apply keeps_deliver; [apply land_ff_range|]. apply Hu. wf_fields.
  - apply Hu. wf_fields.
  - apply keeps_timer_update, Hu. wf_fields.
  - lazymatch goal with |- context [upd_apic d ?f m] =>
      assert (Hm1 : machine_wf (upd_apic d f m)) by (apply Hu; wf_fields);
      generalize dependent (upd_apic d f m) end.
    intros m1 Hm1. pose proof (keeps_check_pic d m1 Hm1) as H2.
    destruct (apic_check_pic d m1) as [b m2]. cbn [snd] in H2. destruct b; [by apply wf_update_irq|done].
  - apply Hu. wf_fields.
  - apply keeps_timer_update, Hu. wf_fields.
  - apply Hu. wf_fields.
  - apply Hu. wf_fields.
Qed.

Lemma keeps_send_msi addr data : keeps (apic_send_msi addr data).
Proof. intros m Hm. apply keeps_bus_deliver; [apply u8_range|done]. Qed.

Lemma keeps_mem_write addr val size : keeps (apic_mem_write addr val size).
Proof.
  intros m Hm. unfold apic_mem_write. cbv zeta. wf_step; [done|]. wf_step; [by apply keeps_send_msi|].
  destruct (cpu_get_current_apic m); [by apply keeps_reg_write|done].
Qed.

Lemma mem_read_wf addr size m : machine_wf m -> machine_wf (apic_mem_read addr size m).2.
Proof.
  intros Hm. unfold apic_mem_read. cbv zeta. case_if; [done|].
  destruct (cpu_get_current_apic m) as [d|]; [|done].
  repeat lazymatch goal with |- machine_wf (if ?c then (_, m) else _).2 => destruct c; [exact Hm|] end.
  destruct (_ =? 0x08).
  { cbn [snd]. pose proof (keeps_sync d SYNC_FROM_VAPIC m Hm) as H1.
    destruct (apic_report_tpr_access _); exact H1. }
  repeat lazymatch goal with |- machine_wf (if ?c then (_, m) else _).2 => destruct c; [exact Hm|] end.
  cbn [snd]. apply keeps_upd; [wf_fields|done].
Qed.
End ops.
