(* ===== verification/ApicTimer.v ===== *)
(** * The local APIC timer (hw/intc/apic_common.c apic_next_timer and
    apic_get_current_count): when it fires and what the guest reads meanwhile *)
From S2P Require Import Prelude Cpu Pic Machine Apic ApicFacts.
Import Machine.Apic.

(** The clock in the range where the 64-bit arithmetic of the code is exact: a
    century of nanoseconds is below [2 ^ 62]. *)
Record timer_ok (now : Z) (s : APICCommonState) : Prop := {
  tm_load : 0 <= initial_count_load_time s <= now;
  tm_now : now < 2 ^ 62;
  tm_shift : 0 <= count_shift s < 8;
  tm_count : 0 <= initial_count s < 2 ^ 32;
}.

(** Bus ticks since the count was loaded, and one period in nanoseconds. *)
Definition ticks (now : Z) (s : APICCommonState) : Z :=
  Z.shiftr (now - initial_count_load_time s) (count_shift s).
Definition period (s : APICCommonState) : Z :=
  Z.shiftl (initial_count s + 1) (count_shift s).

Lemma s64_small x : - 2 ^ 63 <= x < 2 ^ 63 -> s64 x = x.
Proof. intros Hx. by apply swrap_small. Qed.

Lemma pow_shift k : 0 <= k < 8 -> 1 <= 2 ^ k <= 128.
Proof.
  intros Hk. change 128 with (2 ^ 7). change 1 with (2 ^ 0) at 1.
  split; apply Z.pow_le_mono_r; lia.
Qed.

Lemma ticks_bounds now s : timer_ok now s ->
  0 <= ticks now s /\
  ticks now s * 2 ^ count_shift s <= now - initial_count_load_time s
    < (ticks now s + 1) * 2 ^ count_shift s /\ ticks now s < 2 ^ 62.
Proof.
  intros [Hl Hn Hk _]. unfold ticks. rewrite Z.shiftr_div_pow2 by lia.
  pose proof (pow_shift _ Hk). set (p := 2 ^ count_shift s) in *.
  pose proof (Z.div_mod (now - initial_count_load_time s) p ltac:(lia)).
  pose proof (Z.mod_pos_bound (now - initial_count_load_time s) p ltac:(lia)).
  assert (0 <= (now - initial_count_load_time s) / p) by (apply Z.div_pos; lia).
  nia.
Qed.

(** The period the timer is in: how many ticks are left until it ends. *)
Lemma ticks_round d n : 0 <= d -> 0 < n -> (d / n + 1) * n = d + (n - 1 - d mod n) + 1.
Proof. intros Hd Hn. pose proof (Z.div_mod d n ltac:(lia)). lia. Qed.

Lemma fire_time now s n : timer_ok now s -> ticks now s < n -> n <= ticks now s + 2 ^ 32 ->
  s64 (initial_count_load_time s + s64 (Z.shiftl n (count_shift s))) =
    initial_count_load_time s + n * 2 ^ count_shift s /\
  now < initial_count_load_time s + n * 2 ^ count_shift s.
Proof.
  intros Hok Hn1 Hn2. destruct (ticks_bounds now s Hok) as (H0 & [H1 H2] & H3).
  destruct Hok as [Hl Hnow Hk _]. pose proof (pow_shift _ Hk).
  rewrite Z.shiftl_mul_pow2 by lia. set (p := 2 ^ count_shift s) in *.
  assert (n * p <= ticks now s * p + 2 ^ 32 * 128) by nia.
  assert ((ticks now s + 1) * p <= n * p) by nia.
  rewrite (s64_small (n * p)), s64_small; lia.
Qed.

Section armed.
  Context (now : Z) (s : APICCommonState) (Hok : timer_ok now s).
  Context (Hm : nz (Z.land (aget (lvt s) APIC_LVT_TIMER) APIC_LVT_MASKED) = false).

Let n := initial_count s + 1.

Lemma elapsed_eq : Z.shiftr (s64 (now - initial_count_load_time s)) (count_shift s) = ticks now s.
Proof. destruct Hok as [? ? ? ?]. rewrite s64_small by lia. done. Qed.

Lemma next_timer_periodic :
  nz (Z.land (aget (lvt s) APIC_LVT_TIMER) APIC_LVT_TIMER_PERIODIC) = true ->
  0 < initial_count s ->
  let t := initial_count_load_time s + (ticks now s / n + 1) * n * 2 ^ count_shift s in
  apic_next_timer now s = (true, s <| timer_expiry := -1 |> <| next_time := t |> <| timer_expiry := t |>) /\
  now < t.
Proof.
  intros Hp Hc. cbv zeta. destruct (ticks_bounds now s Hok) as (H0 & H1 & H2).
  pose proof (tm_count _ _ Hok) as Hcount.
  pose proof (ticks_round (ticks now s) n H0 ltac:(subst n; lia)) as Hr.
  pose proof (Z.mod_pos_bound (ticks now s) n ltac:(subst n; lia)) as Hmod.
  assert (0 <= ticks now s / n) by (apply Z.div_pos; subst n; lia).
  destruct (fire_time now s ((ticks now s / n + 1) * n)) as [E1 E2]; [done|lia|subst n; lia|].
  split; [|exact E2]. unfold apic_next_timer. cbv zeta. cbn -[s64 u64 aget].
  rewrite Hm, Hp, elapsed_eq. destruct (Z.eqb_spec (initial_count s) 0); [lia|].
  rewrite (u64_small (initial_count s + 1)), (u64_small (ticks now s)) by lia. fold n.
  rewrite (u64_small (ticks now s / n + 1)) by nia.
  rewrite u64_small, (s64_small ((ticks now s / n + 1) * n)) by lia.
  by rewrite E1.
Qed.

Lemma next_timer_oneshot :
  nz (Z.land (aget (lvt s) APIC_LVT_TIMER) APIC_LVT_TIMER_PERIODIC) = false ->
  let t := initial_count_load_time s + n * 2 ^ count_shift s in
  if initial_count s <=? ticks now s
  then apic_next_timer now s = (false, s <| timer_expiry := -1 |>)
  else apic_next_timer now s =
         (true, s <| timer_expiry := -1 |> <| next_time := t |> <| timer_expiry := t |>) /\
       now < t.
Proof.
  intros Hp. cbv zeta. destruct (ticks_bounds now s Hok) as (H0 & H1 & H2).
  pose proof (tm_count _ _ Hok) as Hcount.
  unfold apic_next_timer. cbv zeta. cbn -[s64 u64 aget]. rewrite Hm, Hp, elapsed_eq.
  destruct (Z.leb_spec (initial_count s) (ticks now s)); [done|].
  destruct (fire_time now s n) as [E1 E2]; [done|subst n; lia|subst n; lia|].
  split; [|exact E2]. rewrite (u64_small (initial_count s + 1)) by lia. fold n.
  rewrite (s64_small n) by (subst n; lia). by rewrite E1.
Qed.

Lemma current_count_eq :
  apic_get_current_count now s =
  if nz (Z.land (aget (lvt s) APIC_LVT_TIMER) APIC_LVT_TIMER_PERIODIC)
  then initial_count s - ticks now s mod n
  else Z.max 0 (initial_count s - ticks now s).
Proof.
  destruct (ticks_bounds now s Hok) as (H0 & H1 & H2). pose proof (tm_count _ _ Hok) as Hcount.
  unfold apic_get_current_count. cbv zeta. rewrite elapsed_eq.
  pose proof (Z.mod_pos_bound (ticks now s) n ltac:(subst n; lia)).
  case_if.
  - rewrite (u64_small (initial_count s + 1)), (u64_small (ticks now s)) by lia. fold n.
    apply wrap_small. unfold is_u in *. subst n. lia.
  - destruct (Z.leb_spec (initial_count s) (ticks now s)); [lia|].
    rewrite wrap_small by (unfold is_u; lia). lia.
Qed.
End armed.

(** C35. The APIC timer and the count the guest reads agree. While an unmasked
    timer is armed, the current-count register stays between 0 and the initial
    count and is exactly the number of whole ticks left: the timer fires in the tick
    after that many more, at a time strictly in the future and at most one period
    away. A one-shot timer that is not armed reads as 0. *)
Theorem apic_timer_fires_at_count now s :
  timer_ok now s ->
  nz (Z.land (aget (lvt s) APIC_LVT_TIMER) APIC_LVT_MASKED) = false ->
  0 < initial_count s ->
  let c := apic_get_current_count now s in
  let '(armed, s') := apic_next_timer now s in
  0 <= c <= initial_count s /\
  if armed then
    next_time s' = initial_count_load_time s + Z.shiftl (ticks now s + c + 1) (count_shift s) /\
    timer_expiry s' = next_time s' /\ now < next_time s' <= now + period s
  else c = 0 /\ timer_expiry s' = -1.
Proof.
  intros Hok Hm Hc. cbv zeta. rewrite current_count_eq by done.
  destruct (ticks_bounds now s Hok) as (H0 & [H1 H2] & H3).
  pose proof (Z.mod_pos_bound (ticks now s) (initial_count s + 1) ltac:(lia)) as Hmod.
  pose proof (pow_shift _ (tm_shift _ _ Hok)) as Hpow. pose proof (tm_shift _ _ Hok).
  unfold period. rewrite !Z.shiftl_mul_pow2 by lia.
  destruct (nz (Z.land _ APIC_LVT_TIMER_PERIODIC)) eqn:Hp.
  - destruct (next_timer_periodic now s Hok Hm Hp Hc) as [-> Ht].
    pose proof (ticks_round (ticks now s) (initial_count s + 1) H0 ltac:(lia)) as Hr.
    rewrite Hr in Ht |- *. cbn. split; [lia|]. split_and!; [f_equal; f_equal; lia|done|lia|].
    nia.
  - pose proof (next_timer_oneshot now s Hok Hm Hp) as Ht. cbv zeta in Ht.
    destruct (Z.leb_spec (initial_count s) (ticks now s)).
    + rewrite Ht. cbn. lia.
    + destruct Ht as [-> Ht]. cbn. rewrite Z.max_r by lia. split; [lia|].
      split_and!; [f_equal; f_equal; lia|done|lia|]. nia.
Qed.

Definition ex_timer : APICCommonState :=
  (ex_apic 0) <| lvt := aset (repeat 0x10000 6) 0 0x20040 |>
              <| initial_count := 9 |> <| count_shift := 1 |> <| initial_count_load_time := 100 |>.

Lemma apic_timer_fires_at_count_witness :
  apic_get_current_count 147 ex_timer = 6 /\
  next_time (apic_next_timer 147 ex_timer).2 = 100 + Z.shiftl (ticks 147 ex_timer + 6 + 1) 1 /\
  147 < next_time (apic_next_timer 147 ex_timer).2 <= 147 + period ex_timer.
Proof.
  pose proof (apic_timer_fires_at_count 147 ex_timer) as H. cbv zeta in H.
  destruct (apic_next_timer 147 ex_timer) as [armed s'] eqn:E.
  assert (armed = true) as -> by (apply (f_equal fst) in E; vm_compute in E; congruence).
  destruct H as (_ & H1 & _ & H2); [by constructor|reflexivity|reflexivity|].
  cbn [snd]. split; [vm_compute; reflexivity|]. split; [exact H1|exact H2].
Defined.
