(* ===== verification/Wiring.v ===== *)
(** * How the interrupt controllers are wired together (hw/i386/x86.c,
    hw/intc/i8259.c)

    The two 8259 chips as instances of [PicWorld] on the machine: the slave drives
    line 2 of the master, the master drives [pic_irq_request]. *)
From S2P Require Import Prelude Cpu Pic Machine Apic.
Import Machine.Apic.

Definition ISA_NUM_IRQS : Z := 16.

(** [pic_stat_update_irq] (i8259_common.c): counts rising edges per line. *)
Definition stat_update (irq level : Z) (m : Machine) : Machine :=
  if negb (level =? aget (pic_irq_level m) irq) then
    let m := m <| pic_irq_level := aset (pic_irq_level m) irq level |> in
    if level =? 1
    then m <| pic_irq_count := aset (pic_irq_count m) irq (u64 (aget (pic_irq_count m) irq + 1)) |>
    else m
  else m.

(** [CPU_FOREACH]: the processors in slot order. *)
Definition cpu_slots (m : Machine) : list nat :=
  filter (fun k => is_Some (cpus m !! k)) (seq 0 256).

Definition has_apic (k : nat) (m : Machine) : bool := bool_decide (is_Some (local_apics m !! k)).

(** [pic_irq_request]: INT of the master, to every processor that accepts it. *)
Definition pic_irq_request (level : Z) (m : Machine) : Machine :=
  match cpu_slots m with
  | [] => m
  | first_cpu :: _ =>
      if has_apic first_cpu m then
        fold_left (fun m k =>
          if has_apic k m && apic_accept_pic_intr k m
          then apic_deliver_pic_intr k level m else m) (cpu_slots m) m
      else if nz level then cpu_interrupt first_cpu CPU_INTERRUPT_HARD m
      else cpu_reset_interrupt first_cpu CPU_INTERRUPT_HARD m
  end.

(** The chips of [i8259_init]. *)
Definition master_world : PicWorld Machine := {|
  pic_get := pic_master;
  pic_put s m := m <| pic_master := s |>;
  int_out := pic_irq_request;
  pic_stat_update_irq := stat_update;
|}.

Definition slave_world : PicWorld Machine := {|
  pic_get := pic_slave;
  pic_put s m := m <| pic_slave := s |>;
  int_out level := @pic_set_irq Machine master_world 2 level;
  pic_stat_update_irq := stat_update;
|}.

(** One of the sixteen ISA lines [i8259_init] returns. *)
Definition i8259_irq (n level : Z) (m : Machine) : Machine :=
  if n <? 8 then @pic_set_irq Machine master_world n level m
  else @pic_set_irq Machine slave_world (n - 8) level m.

Definition pic_read_irq (m : Machine) : Z * Machine :=
  let irq := pic_get_irq (pic_master m) in
  if 0 <=? irq then
    if irq =? 2 then
      let irq2 := pic_get_irq (pic_slave m) in
      let '(irq2, m) :=
        if 0 <=? irq2 then (irq2, @pic_intack Machine slave_world irq2 m) else (7, m) in
      let intno := irq_base (pic_slave m) + irq2 in
      (intno, @pic_intack Machine master_world irq m)
    else
      let intno := irq_base (pic_master m) + irq in
      (intno, @pic_intack Machine master_world irq m)
  else (irq_base (pic_master m) + 7, m).

(** [cpu_get_pic_interrupt] of processor [d] (TCG: no in-kernel irqchip). *)
Definition cpu_get_pic_interrupt (d : nat) (m : Machine) : Z * Machine :=
  let dev := if has_apic d m then Some d else None in
  let '(intno, m) := apic_get_interrupt dev m in
  if 0 <=? intno then (intno, m)
  else if negb (apic_accept_pic_intr d m) then (-1, m)
  else pic_read_irq m.

(** ** The local APICs never reach back into the 8259 pair or the I/O APICs *)
Definition chips (m : Machine) := (pic_master m, pic_slave m, isa_pic m, ioapics m).

Lemma chips_update_irq d m : chips (apic_update_irq d m) = chips m.
Proof. unfold apic_update_irq. by case_ifs. Qed.

Lemma chips_sync d t m : chips (apic_sync_vapic d t m) = chips m.
Proof. unfold apic_sync_vapic. cbv zeta. by case_ifs. Qed.

Lemma chips_set_irq d v t m : chips (apic_set_irq d v t m) = chips m.
Proof.
  unfold apic_set_irq. cbv zeta. rewrite chips_update_irq. case_if; [|done]. by rewrite !chips_sync.
Qed.

Lemma chips_local_deliver d i m : chips (apic_local_deliver d i m) = chips m.
Proof. unfold apic_local_deliver. cbv zeta. case_ifs; try done; apply chips_set_irq. Qed.

Lemma chips_deliver_pic_intr d level m : chips (apic_deliver_pic_intr d level m) = chips m.
Proof.
  unfold apic_deliver_pic_intr. cbv zeta. case_if; [apply chips_local_deliver|].
  case_ifs; try done; by rewrite chips_update_irq.
Qed.

Lemma chips_fold (f : Machine -> nat -> Machine) l m :
  (forall m k, chips (f m k) = chips m) -> chips (fold_left f l m) = chips m.
Proof.
  intros Hf. revert m. induction l as [|k l IH]; intros m; [done|]. cbn. by rewrite IH.
Qed.

Lemma chips_pic_irq_request level m : chips (pic_irq_request level m) = chips m.
Proof.
  unfold pic_irq_request. destruct (cpu_slots m) as [|f l]; [done|].
  case_if; [|by case_if]. apply chips_fold. intros m' k.
  destruct (_ && _); [apply chips_deliver_pic_intr|done].
Qed.

Lemma chips_stat irq level m : chips (stat_update irq level m) = chips m.
Proof. unfold stat_update. cbv zeta. by case_ifs. Qed.

Lemma chips_eq m m' : chips m' = chips m ->
  pic_master m' = pic_master m /\ pic_slave m' = pic_slave m /\ ioapics m' = ioapics m.
Proof. by intros [= -> -> _ ->]. Qed.

Lemma ioapics_irq_request l m : ioapics (pic_irq_request l m) = ioapics m.
Proof. apply (chips_eq _ _ (chips_pic_irq_request l m)). Qed.
Lemma ioapics_stat i l m : ioapics (stat_update i l m) = ioapics m.
Proof. apply (chips_eq _ _ (chips_stat i l m)). Qed.

Lemma ioapics_master irq m : ioapics (@pic_intack Machine master_world irq m) = ioapics m.
Proof. unfold pic_intack, pic_update_irq. cbv zeta. cbn [int_out master_world]. case_if; by rewrite ioapics_irq_request. Qed.

Lemma ioapics_master_irq n level m : ioapics (@pic_set_irq Machine master_world n level m) = ioapics m.
Proof.
  unfold pic_set_irq, pic_update_irq. cbv zeta. cbn [pic_get pic_put int_out pic_stat_update_irq master_world].
  case_if; rewrite ioapics_irq_request; cbn; by rewrite ioapics_stat.
Qed.

(** Reading the vector of the 8259 pair does not touch the I/O APICs. *)
Lemma ioapics_pic_read m : ioapics (pic_read_irq m).2 = ioapics m.
Proof.
  assert (Hs : forall irq m, ioapics (@pic_intack Machine slave_world irq m) = ioapics m).
  { intros irq m'. unfold pic_intack, pic_update_irq. cbv zeta. cbn [int_out slave_world]. case_if; by rewrite ioapics_master_irq. }
  unfold pic_read_irq. cbv zeta. case_if; [|done]. case_if; [|apply ioapics_master].
  case_if; cbn [snd]; rewrite ioapics_master; [apply Hs|done].
Qed.

#[export] Instance master_world_ok : @PicWorldOk Machine master_world.
Proof.
  split; cbn [pic_get pic_put int_out pic_stat_update_irq master_world].
  - done.
  - intros l m. by destruct (chips_eq _ _ (chips_pic_irq_request l m)).
  - intros i l m. by destruct (chips_eq _ _ (chips_stat i l m)).
Qed.

Lemma slave_irq_request l m : pic_slave (pic_irq_request l m) = pic_slave m.
Proof. by destruct (chips_eq _ _ (chips_pic_irq_request l m)) as (_ & ? & _). Qed.

Lemma slave_stat i l m : pic_slave (stat_update i l m) = pic_slave m.
Proof. by destruct (chips_eq _ _ (chips_stat i l m)) as (_ & ? & _). Qed.

Lemma slave_pic_update_irq m : pic_slave (@pic_update_irq Machine master_world m) = pic_slave m.
Proof.
  unfold pic_update_irq. cbn [int_out master_world].
  case_if; apply slave_irq_request.
Qed.

Lemma slave_pic_set_irq irq level m :
  pic_slave (@pic_set_irq Machine master_world irq level m) = pic_slave m.
Proof.
  unfold pic_set_irq. cbv zeta. rewrite slave_pic_update_irq.
  cbn [pic_put pic_stat_update_irq master_world].
  change (pic_slave (?x <| pic_master := ?s |>)) with (pic_slave x).
  apply slave_stat.
Qed.

#[export] Instance slave_world_ok : @PicWorldOk Machine slave_world.
Proof.
  split; cbn [pic_get pic_put int_out pic_stat_update_irq slave_world].
  - done.
  - intros l m. apply slave_pic_set_irq.
  - intros i l m. apply slave_stat.
Qed.

(** ** From an ISA line to a vector *)

(** A chip with nothing requested, masked or in service, on edge-triggered lines. *)
Record idle (is_master : bool) (s : PICCommonState) : Prop := {
  idle_irr : Pic.irr s = 0;
  idle_last : last_irr s = 0;
  idle_imr : imr s = 0;
  idle_isr : Pic.isr s = 0;
  idle_elcr : elcr s = 0;
  idle_add : is_u 3 (priority_add s);
  idle_role : master s = is_master;
}.

Lemma priority_single a n : 0 <= a < 8 -> 0 <= n < 8 ->
  get_priority_loop 8 (bit n) a 0 = (n - a) mod 8.
Proof.
  intros Ha Hn.
  assert (Forall (fun a => Forall (fun n => get_priority_loop 8 (bit n) a 0 = (n - a) mod 8)
    (seqZ 0 8)) (seqZ 0 8)) as H by (apply (bool_decide_eq_true_1 _); by vm_compute).
  rewrite list.Forall_forall in H. specialize (H a). rewrite elem_of_seqZ in H.
  specialize (H ltac:(lia)). rewrite list.Forall_forall in H. apply H, elem_of_seqZ. lia.
Qed.

Lemma clr_zero_r x : clr x 0 = x.
Proof. exact (Z.land_m1_r x). Qed.

Lemma clr_zero_l x : clr 0 x = 0.
Proof. exact (Z.land_0_l (Z.lnot x)). Qed.

Lemma get_irq_single s n : 0 <= n < 8 -> is_u 3 (priority_add s) ->
  Pic.irr s = bit n -> imr s = 0 -> Pic.isr s = 0 -> pic_get_irq s = n.
Proof.
  intros Hn Ha Hi Hm Hs. unfold pic_get_irq. cbv zeta. rewrite Hi, Hm, Hs, clr_zero_r.
  assert (bit n <> 0) by (rewrite Z.shiftl_1_l; apply Z.pow_nonzero; lia).
  assert (Ep : get_priority s (bit n) = (n - priority_add s) mod 8).
  { unfold get_priority. rewrite (proj2 (Z.eqb_neq (bit n) 0)) by done. by apply priority_single. }
  rewrite Ep.
  pose proof (Z.mod_pos_bound (n - priority_add s) 8 ltac:(lia)).
  rewrite (proj2 (Z.eqb_neq ((n - priority_add s) mod 8) 8)) by lia.
  assert (E : get_priority s (if nz (special_fully_nested_mode s) && master s
     then clr (if nz (special_mask s) then clr 0 0 else 0) (bit 2)
     else if nz (special_mask s) then clr 0 0 else 0) = 8)
    by (rewrite !clr_zero_l; by case_ifs).
  rewrite E, (proj2 (Z.ltb_lt _ _)) by lia.
  rewrite land_7. by apply (line_rank s n).
Qed.

Lemma latch_idle b n s : idle b s -> 0 <= n < 8 ->
  let s' := pic_latch n 1 s in
  Pic.irr s' = bit n /\ imr s' = 0 /\ Pic.isr s' = 0 /\ irq_base s' = irq_base s /\
  is_u 3 (priority_add s') /\ elcr s' = 0.
Proof.
  intros [Hi Hl Hm Hs He Ha _] Hn. unfold pic_latch. cbv zeta. rewrite He, Hl, Z.land_0_l.
  cbn [nz Z.eqb negb]. cbn -[Z.shiftl]. rewrite Hi, Z.lor_0_l, wrap_small; [done|].
  apply is_u_bit. lia.
Qed.

Lemma get_irq_latched b n s : idle b s -> 0 <= n < 8 -> pic_get_irq (pic_latch n 1 s) = n.
Proof.
  intros Hs Hn. destruct (latch_idle b n s Hs Hn) as (? & ? & ? & _ & ? & _). by apply get_irq_single.
Qed.

Lemma master_set_irq n level m :
  pic_master (@pic_set_irq Machine master_world n level m) = pic_latch n level (pic_master m).
Proof. exact (@pic_get_set_irq Machine master_world master_world_ok n level m). Qed.

Lemma slave_set_irq n level m :
  pic_slave (@pic_set_irq Machine slave_world n level m) = pic_latch n level (pic_slave m).
Proof. exact (@pic_get_set_irq Machine slave_world slave_world_ok n level m). Qed.

(** The slave's INT reaches the master as line 2. *)
Lemma master_after_slave n m : idle false (pic_slave m) -> 0 <= n < 8 ->
  pic_master (@pic_set_irq Machine slave_world n 1 m) = pic_latch 2 1 (pic_master m).
Proof.
  intros Hs Hn. unfold pic_set_irq. cbv zeta. cbn [pic_get pic_put pic_stat_update_irq slave_world].
  rewrite slave_stat. unfold pic_update_irq. cbn [pic_get int_out slave_world].
  change (pic_slave (?x <| pic_slave := ?s |>)) with s.
  rewrite (get_irq_latched false n) by done. rewrite (proj2 (Z.leb_le 0 n)) by lia.
  rewrite master_set_irq. change (pic_master (?x <| pic_slave := ?s |>)) with (pic_master x).
  by destruct (chips_eq _ _ (chips_stat (if master (pic_slave m) then n else n + 8) 1 m)) as (-> & _).
Qed.

Lemma base_ack irq s : irq_base (pic_ack irq s) = irq_base s.
Proof. unfold pic_ack. cbv zeta. by case_ifs. Qed.

Lemma slave_intack n m :
  pic_slave (@pic_intack Machine slave_world n m) = pic_ack n (pic_slave m).
Proof. exact (@pic_get_intack Machine slave_world slave_world_ok n m). Qed.

(** The two ways [pic_read_irq] finds a request. *)
Lemma read_irq_master n m : pic_get_irq (pic_master m) = n -> 0 <= n -> n <> 2 ->
  (pic_read_irq m).1 = irq_base (pic_master m) + n.
Proof.
  intros Hg Hn Hne. unfold pic_read_irq. rewrite Hg, (proj2 (Z.leb_le 0 n)) by lia.
  by rewrite (proj2 (Z.eqb_neq n 2)).
Qed.

Lemma read_irq_slave n m : pic_get_irq (pic_master m) = 2 -> pic_get_irq (pic_slave m) = n -> 0 <= n ->
  (pic_read_irq m).1 = irq_base (pic_slave m) + n.
Proof.
  intros Hg Hs Hn. unfold pic_read_irq. rewrite Hg, Hs. cbv zeta. cbn [Z.leb Z.compare Z.eqb Pos.eqb].
  rewrite (proj2 (Z.leb_le 0 n)) by lia. cbn [fst]. by rewrite slave_intack, base_ack.
Qed.

Definition isa_vector (n : Z) (m : Machine) : Z :=
  if n <? 8 then irq_base (pic_master m) + n else irq_base (pic_slave m) + (n - 8).

(** An ISA interrupt arrives with its own vector. On an idle 8259 pair, raising
    any of the sixteen lines other than the cascade line asserts the master's INT,
    and the acknowledge cycle that follows returns the vector programmed for that
    line: the master's base for lines 0 to 7, through line 2 and the slave's base for
    lines 8 to 15. *)
Theorem isa_irq_vector n m :
  idle true (pic_master m) -> idle false (pic_slave m) -> 0 <= n < 16 -> n <> 2 ->
  let m' := i8259_irq n 1 m in
  pic_get_output (pic_master m') = true /\ (pic_read_irq m').1 = isa_vector n m.
Proof.
  intros Hma Hsl Hn Hne. cbv zeta. unfold i8259_irq, isa_vector.
  destruct (Z.ltb_spec n 8).
  - assert (E := master_set_irq n 1 m). pose proof (get_irq_latched true n _ Hma ltac:(lia)) as Hg.
    destruct (latch_idle true n _ Hma ltac:(lia)) as (_ & _ & _ & Hb & _).
    generalize dependent (@pic_set_irq Machine master_world n 1 m). intros m' E. rewrite <-E in Hg, Hb.
    split; [unfold pic_get_output; rewrite Hg; apply Z.leb_le; lia|].
    rewrite (read_irq_master n m'), Hb by (done || lia). done.
  - assert (Em := master_after_slave (n - 8) m Hsl ltac:(lia)).
    assert (Es := slave_set_irq (n - 8) 1 m).
    pose proof (get_irq_latched true 2 _ Hma ltac:(lia)) as Hg.
    pose proof (get_irq_latched false (n - 8) _ Hsl ltac:(lia)) as Hg2.
    destruct (latch_idle false (n - 8) _ Hsl ltac:(lia)) as (_ & _ & _ & Hb & _).
    generalize dependent (@pic_set_irq Machine slave_world (n - 8) 1 m). intros m' Em Es.
    rewrite <-Em in Hg. rewrite <-Es in Hg2, Hb.
    split; [unfold pic_get_output; by rewrite Hg|].
    by rewrite (read_irq_slave (n - 8) m'), Hb by (done || lia).
Qed.

Lemma isa_irq_vector_witness :
  let m' := i8259_irq 14 1 (ex_machine 1) in
  pic_get_output (pic_master m') = true /\
  (pic_read_irq m').1 = isa_vector 14 (ex_machine 1).
Proof. apply isa_irq_vector; [by constructor|by constructor|lia|lia]. Defined.
