(* ===== verification/Ioapic.v ===== *)
(** * The I/O APIC (hw/intc/ioapic.c, hw/intc/ioapic_common.c)

    The message an entry generates leaves through [MsiSink], the store to the
    address space that carries interrupt messages. *)
From S2P Require Import Prelude Cpu Pic Machine Apic Wiring.

Definition IOAPIC_NUM_PINS : Z := 24.
Definition MAX_IOAPICS : nat := 2.
Definition IOAPIC_LVT_DEST_IDX_SHIFT : Z := 48.
Definition IOAPIC_LVT_MASKED_SHIFT : Z := 16.
Definition IOAPIC_LVT_TRIGGER_MODE_SHIFT : Z := 15.
Definition IOAPIC_LVT_REMOTE_IRR_SHIFT : Z := 14.
Definition IOAPIC_LVT_DELIV_STATUS_SHIFT : Z := 12.
Definition IOAPIC_LVT_DEST_MODE_SHIFT : Z := 11.
Definition IOAPIC_LVT_DELIV_MODE_SHIFT : Z := 8.
Definition IOAPIC_LVT_MASKED : Z := bit IOAPIC_LVT_MASKED_SHIFT.
Definition IOAPIC_LVT_TRIGGER_MODE : Z := bit IOAPIC_LVT_TRIGGER_MODE_SHIFT.
Definition IOAPIC_LVT_REMOTE_IRR : Z := bit IOAPIC_LVT_REMOTE_IRR_SHIFT.
Definition IOAPIC_LVT_DELIV_STATUS : Z := bit IOAPIC_LVT_DELIV_STATUS_SHIFT.
Definition IOAPIC_RO_BITS : Z := Z.lor IOAPIC_LVT_REMOTE_IRR IOAPIC_LVT_DELIV_STATUS.
Definition IOAPIC_TRIGGER_EDGE : Z := 0.
Definition IOAPIC_TRIGGER_LEVEL : Z := 1.
Definition IOAPIC_DM_EXTINT : Z := 0x7.
Definition IOAPIC_DM_MASK : Z := 0x7.
Definition IOAPIC_VECTOR_MASK : Z := 0xff.
Definition IOAPIC_IOREGSEL : Z := 0x00.
Definition IOAPIC_IOWIN : Z := 0x10.
Definition IOAPIC_EOI : Z := 0x40.
Definition IOAPIC_REG_ID : Z := 0x00.
Definition IOAPIC_REG_VER : Z := 0x01.
Definition IOAPIC_REG_ARB : Z := 0x02.
Definition IOAPIC_REG_REDTBL_BASE : Z := 0x10.
Definition IOAPIC_ID_SHIFT : Z := 24.
Definition IOAPIC_ID_MASK : Z := 0xf.
Definition IOAPIC_VER_ENTRIES_SHIFT : Z := 16.
Definition SUCCESSIVE_IRQ_MAX_COUNT : Z := 10000.
Definition NANOSECONDS_PER_SECOND : Z := 1000000000.
Definition MSI_ADDR_DEST_IDX_SHIFT : Z := 4.
Definition MSI_ADDR_DEST_MODE_SHIFT : Z := 2.
Definition MSI_DATA_VECTOR_SHIFT : Z := 0.
Definition MSI_DATA_TRIGGER_SHIFT : Z := 15.
Definition MSI_DATA_DELIVERY_MODE_SHIFT : Z := 8.

Record ioapic_entry_info := mkInfo {
  masked : Z;
  trig_mode : Z;
  dest_idx : Z;
  e_dest_mode : Z;
  delivery_mode : Z;
  vector : Z;
  addr : Z;
  data : Z;
}.

(** Reading the vector of an ExtINT entry acknowledges the 8259. *)
Definition ioapic_entry_parse (entry : Z) (m : Machine) : ioapic_entry_info * Machine :=
  let masked := Z.land (Z.shiftr entry IOAPIC_LVT_MASKED_SHIFT) 1 in
  let trig_mode := Z.land (Z.shiftr entry IOAPIC_LVT_TRIGGER_MODE_SHIFT) 1 in
  let dest_idx := Z.land (Z.shiftr entry IOAPIC_LVT_DEST_IDX_SHIFT) 0xffff in
  let dest_mode := Z.land (Z.shiftr entry IOAPIC_LVT_DEST_MODE_SHIFT) 1 in
  let delivery_mode := Z.land (Z.shiftr entry IOAPIC_LVT_DELIV_MODE_SHIFT) IOAPIC_DM_MASK in
  let '(vector, m) :=
    if delivery_mode =? IOAPIC_DM_EXTINT
    then let '(v, m) := pic_read_irq m in (u8 v, m)
    else (Z.land entry IOAPIC_VECTOR_MASK, m) in
  let addr := Z.lor (Z.lor APIC_DEFAULT_ADDRESS (Z.shiftl dest_idx MSI_ADDR_DEST_IDX_SHIFT))
                (Z.shiftl dest_mode MSI_ADDR_DEST_MODE_SHIFT) in
  let data := Z.lor (Z.lor (Z.shiftl vector MSI_DATA_VECTOR_SHIFT)
                           (Z.shiftl trig_mode MSI_DATA_TRIGGER_SHIFT))
                (Z.shiftl delivery_mode MSI_DATA_DELIVERY_MODE_SHIFT) in
  (mkInfo masked trig_mode dest_idx dest_mode delivery_mode vector (u32 addr) (u32 data), m).

(** [stl_le_phys(ioapic_as, addr, data)]. *)
Class MsiSink := stl_le_phys : Z -> Z -> Machine -> Machine.

Definition upd_ioapic (d : nat) (f : IOAPICCommonState -> IOAPICCommonState) (m : Machine) : Machine :=
  m <| ioapics := alter f d (ioapics m) |>.

Definition pins : list Z := seqZ 0 24.

Section ioapic.
  Context `{MsiSink}.

(** The body of the loop of [ioapic_service], for pin [i]. *)
Definition service_pin (d : nat) (m : Machine) (i : Z) : Machine :=
  let s := ioapics m !!! d in
  let mask := bit i in
  if nz (Z.land (io_irr s) mask) then
    let '(info, m) := ioapic_entry_parse (aget (ioredtbl s) i) m in
    if masked info =? 0 then
      let s := ioapics m !!! d in
      let '(coalesce, m) :=
        if trig_mode info =? IOAPIC_TRIGGER_EDGE then
          (0, upd_ioapic d (fun s => s <| io_irr := clr (io_irr s) mask |>) m)
        else
          (Z.land (aget (ioredtbl s) i) IOAPIC_LVT_REMOTE_IRR,
           upd_ioapic d (fun s =>
             s <| ioredtbl := aset (ioredtbl s) i (Z.lor (aget (ioredtbl s) i) IOAPIC_LVT_REMOTE_IRR) |>) m) in
      if nz coalesce then m else stl_le_phys (addr info) (data info) m
    else m
  else m.

Definition ioapic_service (d : nat) (m : Machine) : Machine :=
  fold_left (service_pin d) pins m.

Definition delayed_ioapic_service_cb (d : nat) (m : Machine) : Machine := ioapic_service d m.

Definition ioapic_stat_update_irq (irq level : Z) (s : IOAPICCommonState) : IOAPICCommonState :=
  if negb (level =? aget (irq_level s) irq) then
    let s := s <| irq_level := aset (irq_level s) irq level |> in
    if level =? 1
    then s <| irq_count := aset (irq_count s) irq (u64 (aget (irq_count s) irq + 1)) |> else s
  else s.

Definition ioapic_set_irq (d : nat) (vector level : Z) (m : Machine) : Machine :=
  let m := upd_ioapic d (ioapic_stat_update_irq vector level) m in
  let vector := if vector =? 0 then 2 else vector in
  if vector <? IOAPIC_NUM_PINS then
    let mask := bit vector in
    let entry := aget (ioredtbl (ioapics m !!! d)) vector in
    if Z.land (Z.shiftr entry IOAPIC_LVT_TRIGGER_MODE_SHIFT) 1 =? IOAPIC_TRIGGER_LEVEL then
      (* level triggered *)
      if nz level then
        let m := upd_ioapic d (fun s => s <| io_irr := Z.lor (io_irr s) mask |>) m in
        if negb (nz (Z.land entry IOAPIC_LVT_REMOTE_IRR)) then ioapic_service d m else m
      else upd_ioapic d (fun s => s <| io_irr := clr (io_irr s) mask |>) m
    else
      (* edge requests are ignored on a masked pin *)
      if nz level && negb (nz (Z.land entry IOAPIC_LVT_MASKED)) then
        ioapic_service d (upd_ioapic d (fun s => s <| io_irr := Z.lor (io_irr s) mask |>) m)
      else m
  else m.

(** [timer_mod_anticipate]: only ever moves the expiry forward. *)
Definition timer_mod_anticipate (expiry : Z) (t : option Z) : option Z :=
  match t with
  | Some e => Some (Z.min e expiry)
  | None => Some expiry
  end.

(** The body of the inner loop of [ioapic_eoi_broadcast], for pin [n]. *)
Definition eoi_pin (d : nat) (vector : Z) (m : Machine) (n : Z) : Machine :=
  let entry := aget (ioredtbl (ioapics m !!! d)) n in
  if negb (Z.land entry IOAPIC_VECTOR_MASK =? vector)
     || negb (Z.land (Z.shiftr entry IOAPIC_LVT_TRIGGER_MODE_SHIFT) 1 =? IOAPIC_TRIGGER_LEVEL)
  then m
  else if negb (nz (Z.land entry IOAPIC_LVT_REMOTE_IRR)) then m
  else
    let m := upd_ioapic d (fun s =>
               s <| ioredtbl := aset (ioredtbl s) n (clr entry IOAPIC_LVT_REMOTE_IRR) |>) m in
    if negb (nz (Z.land entry IOAPIC_LVT_MASKED))
       && nz (Z.land (io_irr (ioapics m !!! d)) (bit n)) then
      let m := upd_ioapic d (fun s => s <| irq_eoi := aset (irq_eoi s) n (aget (irq_eoi s) n + 1) |>) m in
      if SUCCESSIVE_IRQ_MAX_COUNT <=? aget (irq_eoi (ioapics m !!! d)) n then
        (* an interrupt storm: give the guest time *)
        upd_ioapic d (fun s =>
          s <| irq_eoi := aset (irq_eoi s) n 0 |>
            <| delayed_service := timer_mod_anticipate (clock m + NANOSECONDS_PER_SECOND / 100)
                                    (delayed_service s) |>) m
      else ioapic_service d m
    else upd_ioapic d (fun s => s <| irq_eoi := aset (irq_eoi s) n 0 |>) m.

Definition ioapic_eoi_broadcast (vector : Z) (m : Machine) : Machine :=
  fold_left (fun m d =>
    match ioapics m !! d with
    | Some _ => fold_left (eoi_pin d vector) pins m
    | None => m
    end) (seq 0 MAX_IOAPICS) m.

Definition ioapic_mem_read (d : nat) (addr size : Z) (m : Machine) : Z :=
  let s := ioapics m !!! d in
  let addr := Z.land addr 0xff in
  if addr =? IOAPIC_IOREGSEL then ioregsel s
  else if addr =? IOAPIC_IOWIN then
    if negb (size =? 4) then 0
    else if (ioregsel s =? IOAPIC_REG_ID) || (ioregsel s =? IOAPIC_REG_ARB) then
      u32 (Z.shiftl (io_id s) IOAPIC_ID_SHIFT)
    else if ioregsel s =? IOAPIC_REG_VER then
      Z.lor (io_version s) (Z.shiftl (IOAPIC_NUM_PINS - 1) IOAPIC_VER_ENTRIES_SHIFT)
    else
      let index := Z.shiftr (ioregsel s - IOAPIC_REG_REDTBL_BASE) 1 in
      if (0 <=? index) && (index <? IOAPIC_NUM_PINS) then
        if nz (Z.land (ioregsel s) 1) then u32 (Z.shiftr (aget (ioredtbl s) index) 32)
        else Z.land (aget (ioredtbl s) index) 0xffffffff
      else 0
  else 0.

Definition ioapic_fix_edge_remote_irr (entry : Z) : Z :=
  if negb (nz (Z.land entry IOAPIC_LVT_TRIGGER_MODE))
  then clr entry IOAPIC_LVT_REMOTE_IRR else entry.

(** The new value of a redirection entry after a 32-bit write of [val]. *)
Definition redtbl_write (high : bool) (old val : Z) : Z :=
  let ro_bits := Z.land old IOAPIC_RO_BITS in
  let e := if high then u64 (Z.lor (Z.land old 0xffffffff) (Z.shiftl val 32))
           else u64 (Z.lor (clr old 0xffffffff) val) in
  ioapic_fix_edge_remote_irr (Z.lor (clr e IOAPIC_RO_BITS) ro_bits).

Definition ioapic_mem_write (d : nat) (addr val size : Z) (m : Machine) : Machine :=
  let s := ioapics m !!! d in
  let addr := Z.land addr 0xff in
  if addr =? IOAPIC_IOREGSEL then upd_ioapic d (fun s => s <| ioregsel := u8 val |>) m
  else if addr =? IOAPIC_IOWIN then
    if negb (size =? 4) then m
    else if ioregsel s =? IOAPIC_REG_ID then
      upd_ioapic d (fun s => s <| io_id := Z.land (Z.shiftr val IOAPIC_ID_SHIFT) IOAPIC_ID_MASK |>) m
    else if (ioregsel s =? IOAPIC_REG_VER) || (ioregsel s =? IOAPIC_REG_ARB) then m
    else
      let index := Z.shiftr (ioregsel s - IOAPIC_REG_REDTBL_BASE) 1 in
      if (0 <=? index) && (index <? IOAPIC_NUM_PINS) then
        let m := upd_ioapic d (fun s =>
                   s <| ioredtbl := aset (ioredtbl s) index
                          (redtbl_write (nz (Z.land (ioregsel s) 1)) (aget (ioredtbl s) index) val) |>
                     <| irq_eoi := aset (irq_eoi s) index 0 |>) m in
        ioapic_service d m
      else m
  else if addr =? IOAPIC_EOI then
    if negb (size =? 4) || negb (io_version s =? 0x20) then m
    else ioapic_eoi_broadcast (s32 val) m
  else m.

Definition ioapic_reset_common (d : nat) (m : Machine) : Machine :=
  upd_ioapic d (fun s =>
    s <| io_id := 0 |> <| ioregsel := 0 |> <| io_irr := 0 |>
      <| ioredtbl := repeat (bit IOAPIC_LVT_MASKED_SHIFT) 24 |>) m.

(** [ioapic_realize] refuses versions it does not emulate. *)
Definition ioapic_realize (ioapic_no : nat) (s : IOAPICCommonState) (m : Machine) : option Machine :=
  if negb (io_version s =? 0x11) && negb (io_version s =? 0x20) then None
  else Some (m <| ioapics := <[ioapic_no := s <| delayed_service := None |>]> (ioapics m) |>).

(** [ioapic_common_realize]: the slot counter advances even when the device
    refused to realize (first component: success). *)
Definition ioapic_common_realize (ioapic_no : nat) (s : IOAPICCommonState) (m : Machine)
    : bool * nat * Machine :=
  if (MAX_IOAPICS <=? ioapic_no)%nat then (false, ioapic_no, m)
  else match ioapic_realize ioapic_no s m with
       | Some m' => (true, S ioapic_no, m')
       | None => (false, S ioapic_no, m)
       end.

Definition IO_APIC_SECONDARY_IRQBASE : Z := 24.

(** [gsi_handler] (hw/i386/x86.c): an ISA interrupt goes to both controllers. *)
Definition gsi_handler (n level : Z) (m : Machine) : Machine :=
  if (0 <=? n) && (n <? ISA_NUM_IRQS) then
    ioapic_set_irq 0 n level (if isa_pic m then i8259_irq n level m else m)
  else if (ISA_NUM_IRQS <=? n) && (n <? IOAPIC_NUM_PINS) then ioapic_set_irq 0 n level m
  else if (IO_APIC_SECONDARY_IRQBASE <=? n) && (n <? IO_APIC_SECONDARY_IRQBASE + IOAPIC_NUM_PINS)
  then ioapic_set_irq 1 (n - IO_APIC_SECONDARY_IRQBASE) level m
  else m.
End ioapic.
