(* ===== verification/IoapicFacts.v ===== *)
(** * Correctness of the I/O APIC: delivery, the remote-IRR handshake, messages *)
From S2P Require Import Prelude Cpu Pic Machine Apic Wiring Ioapic.

(** ** Redirection entries *)

(** An entry of the format the I/O APIC documents without interrupt remapping:
    the eight bits below the destination are reserved (zero).  It is plain when
    besides the delivery mode does not read the vector from the 8259. *)
Definition tidy (e : Z) : Prop := Z.land (Z.shiftr e 48) 0xff = 0.
Definition vectored (e : Z) : Prop := Z.land (Z.shiftr e IOAPIC_LVT_DELIV_MODE_SHIFT) IOAPIC_DM_MASK <> IOAPIC_DM_EXTINT.
Definition plain (e : Z) : Prop := tidy e /\ vectored e.

(** What a sink promises: a store whose bits 4 to 11 are clear is an interrupt
    message, and messages never change the 8259 pair or the I/O APICs. *)
Class MsiSinkOk `{MsiSink} := {
  sink_chips : forall a v m, Z.land a 0xff0 = 0 -> chips (stl_le_phys a v m) = chips m;
}.

Definition entry_addr (e : Z) : Z :=
  u32 (Z.lor (Z.lor APIC_DEFAULT_ADDRESS
               (Z.shiftl (Z.land (Z.shiftr e IOAPIC_LVT_DEST_IDX_SHIFT) 0xffff) MSI_ADDR_DEST_IDX_SHIFT))
         (Z.shiftl (Z.land (Z.shiftr e IOAPIC_LVT_DEST_MODE_SHIFT) 1) MSI_ADDR_DEST_MODE_SHIFT)).

Definition entry_data (e : Z) : Z :=
  u32 (Z.lor (Z.lor (Z.shiftl (Z.land e IOAPIC_VECTOR_MASK) MSI_DATA_VECTOR_SHIFT)
               (Z.shiftl (Z.land (Z.shiftr e IOAPIC_LVT_TRIGGER_MODE_SHIFT) 1) MSI_DATA_TRIGGER_SHIFT))
         (Z.shiftl (Z.land (Z.shiftr e IOAPIC_LVT_DELIV_MODE_SHIFT) IOAPIC_DM_MASK)
            MSI_DATA_DELIVERY_MODE_SHIFT)).

(** An entry with a vector of its own is parsed without touching the machine. *)
Lemma parse_vectored e m : vectored e ->
  ioapic_entry_parse e m =
  (mkInfo (Z.land (Z.shiftr e IOAPIC_LVT_MASKED_SHIFT) 1)
     (Z.land (Z.shiftr e IOAPIC_LVT_TRIGGER_MODE_SHIFT) 1)
     (Z.land (Z.shiftr e IOAPIC_LVT_DEST_IDX_SHIFT) 0xffff)
     (Z.land (Z.shiftr e IOAPIC_LVT_DEST_MODE_SHIFT) 1)
     (Z.land (Z.shiftr e IOAPIC_LVT_DELIV_MODE_SHIFT) IOAPIC_DM_MASK)
     (Z.land e IOAPIC_VECTOR_MASK) (entry_addr e) (entry_data e), m).
Proof.
  intros Hdm. unfold ioapic_entry_parse. cbv zeta.
  by rewrite (proj2 (Z.eqb_neq _ _) Hdm).
Qed.

Definition is_masked (e : Z) : bool := Z.testbit e 16.
Definition is_level (e : Z) : bool := Z.testbit e 15.
Definition remote_irr (e : Z) : bool := Z.testbit e 14.

Lemma shiftr_land1 e k : 0 <= k -> Z.land (Z.shiftr e k) 1 = b2z (Z.testbit e k).
Proof.
  intros Hk. change 1 with (Z.ones 1). rewrite Z.land_ones, <-Z.bit0_mod, Z.shiftr_spec by lia.
  rewrite Z.add_0_l. by destruct (Z.testbit e k).
Qed.

(** ** One pin *)

(** Pin [i] is requested and may be delivered now. *)
Definition fires (s : IOAPICCommonState) (i : Z) : bool :=
  let e := aget (ioredtbl s) i in
  Z.testbit (io_irr s) i && negb (is_masked e) && (negb (is_level e) || negb (remote_irr e)).

(** What servicing the pin does to the I/O APIC. *)
Definition served (s : IOAPICCommonState) (i : Z) : IOAPICCommonState :=
  let e := aget (ioredtbl s) i in
  if Z.testbit (io_irr s) i && negb (is_masked e) then
    if is_level e
    then s <| ioredtbl := aset (ioredtbl s) i (Z.lor e IOAPIC_LVT_REMOTE_IRR) |>
    else s <| io_irr := clr (io_irr s) (bit i) |>
  else s.

(** A table whose entries satisfy [P]. *)
Record entries (P : Z -> Prop) (s : IOAPICCommonState) : Prop := {
  tb_len : length (ioredtbl s) = 24%nat;
  tb_entry : forall i, 0 <= i < 24 -> P (aget (ioredtbl s) i);
}.
Arguments tb_len {P} s.
Arguments tb_entry {P} s.
Definition table_ok : IOAPICCommonState -> Prop := entries plain.

(** Remote IRR does not matter to [P]. *)
Class RemoteFree (P : Z -> Prop) := {
  remote_set : forall e, P e -> P (Z.lor e IOAPIC_LVT_REMOTE_IRR);
  remote_clear : forall e, P e -> P (clr e IOAPIC_LVT_REMOTE_IRR);
}.

Lemma lookup_total_io m d s : ioapics m !! d = Some s -> ioapics m !!! d = s.
Proof. intros E. by rewrite lookup_total_alt, E. Qed.

Lemma upd_ioapic_put d f m s : ioapics m !! d = Some s ->
  upd_ioapic d f m = m <| ioapics := <[d := f s]> (ioapics m) |>.
Proof.
  intros E. unfold upd_ioapic. f_equal. apply map_eq. intros k.
  rewrite lookup_alter, lookup_insert. by case_decide; subst; rewrite ?E.
Qed.

Lemma put_same d s m : ioapics m !! d = Some s -> m <| ioapics := <[d := s]> (ioapics m) |> = m.
Proof. intros E. rewrite insert_id by done. by destruct m. Qed.

Lemma ioapics_eq m m' : chips m' = chips m -> ioapics m' = ioapics m.
Proof. by intros [= _ _ _ ->]. Qed.

Lemma entry_addr_tidy e : tidy e -> Z.land (entry_addr e) 0xff0 = 0.
Proof.
  unfold tidy. intros Hr. apply Z.bits_inj'. intros i Hi. rewrite Z.bits_0, Z.land_spec.
  destruct (decide (4 <= i < 12)) as [Hb|Hb].
  - unfold entry_addr. rewrite wrap_testbit, !Z.lor_spec, !Z.shiftl_spec by lia.
    unfold MSI_ADDR_DEST_IDX_SHIFT, MSI_ADDR_DEST_MODE_SHIFT, IOAPIC_LVT_DEST_IDX_SHIFT.
    rewrite (Z.land_spec _ 0xffff).
    assert (Z.testbit (Z.shiftr e 48) (i - 4) = false) as ->.
    { change 0xff with (Z.ones 8) in Hr. apply (f_equal (fun z => Z.testbit z (i - 4))) in Hr.
      rewrite Z.land_spec, Z.bits_0, (Z.ones_spec_low 8 (i - 4)) in Hr by lia.
      by rewrite andb_true_r in Hr. }
    rewrite shiftr_land1 by done.
    assert (Z.testbit APIC_DEFAULT_ADDRESS i = false) as ->.
    { assert (Forall (fun i => Z.testbit APIC_DEFAULT_ADDRESS i = false) (seqZ 4 8)) as H
        by (apply (bool_decide_eq_true_1 _); by vm_compute).
      rewrite list.Forall_forall in H. apply H, elem_of_seqZ. lia. }
    assert (Z.testbit (b2z (Z.testbit e IOAPIC_LVT_DEST_MODE_SHIFT)) (i - 2) = false) as ->.
    { destruct (Z.testbit e _); [apply Z.bits_above_log2; cbn; lia|apply Z.bits_0]. }
    by rewrite andb_false_r.
  - assert (Z.testbit 0xff0 i = false) as ->; [|apply andb_false_r].
    change 0xff0 with (Z.shiftl (Z.ones 8) 4). rewrite Z.shiftl_spec by lia.
    destruct (Z.ltb_spec i 4); [apply Z.testbit_neg_r; lia|]. apply Z.ones_spec_high. lia.
Qed.

Lemma entry_addr_plain e : plain e -> Z.land (entry_addr e) 0xff0 = 0.
Proof. intros [Hr _]. by apply entry_addr_tidy. Qed.

(** A field that does not contain bit 14 survives clearing and setting Remote IRR. *)
Lemma field_clear e k n : k + n <= 14 \/ 15 <= k -> 0 <= k -> 0 <= n ->
  Z.land (Z.shiftr (clr e IOAPIC_LVT_REMOTE_IRR) k) (Z.ones n) = Z.land (Z.shiftr e k) (Z.ones n).
Proof.
  intros Hk Hk0 Hn0. apply Z.bits_inj'. intros b Hb.
  rewrite !Z.land_spec, !Z.shiftr_spec by lia. unfold IOAPIC_LVT_REMOTE_IRR, IOAPIC_LVT_REMOTE_IRR_SHIFT.
  rewrite testbit_clr by lia. destruct (Z.ltb_spec b n).
  - rewrite (proj2 (Z.eqb_neq _ _)) by lia. by rewrite andb_true_r.
  - rewrite Z.ones_spec_high by lia. by rewrite !andb_false_r.
Qed.

Lemma field_set e k n : k + n <= 14 \/ 15 <= k -> 0 <= k -> 0 <= n ->
  Z.land (Z.shiftr (Z.lor e IOAPIC_LVT_REMOTE_IRR) k) (Z.ones n) = Z.land (Z.shiftr e k) (Z.ones n).
Proof.
  intros Hk Hk0 Hn0. apply Z.bits_inj'. intros b Hb.
  rewrite !Z.land_spec, !Z.shiftr_spec, Z.lor_spec by lia. unfold IOAPIC_LVT_REMOTE_IRR, IOAPIC_LVT_REMOTE_IRR_SHIFT.
  rewrite testbit_bit by lia. destruct (Z.ltb_spec b n).
  - rewrite (proj2 (Z.eqb_neq _ _)) by lia. by rewrite orb_false_r.
  - rewrite Z.ones_spec_high by lia. by rewrite !andb_false_r.
Qed.

#[export] Instance tidy_remote : RemoteFree tidy.
Proof.
  split; intros e He; unfold tidy in *; (etransitivity; [|exact He]); [apply (field_set e 48 8)|apply (field_clear e 48 8)]; lia.
Qed.

#[export] Instance plain_remote : RemoteFree plain.
Proof.
  split; intros e [H1 H2]; (split; [by (apply remote_set || apply remote_clear)|]); intros Hx; apply H2; rewrite <- Hx; symmetry;
    [apply (field_set e 8 3)|apply (field_clear e 8 3)]; lia.
Qed.

Section service.
  Context `{MsiSinkOk}.

(** Servicing a pin, as a pure update of the I/O APIC followed by at most one
    message. *)
Lemma service_pin_eq d m s i : ioapics m !! d = Some s -> 0 <= i < 24 ->
  vectored (aget (ioredtbl s) i) ->
  service_pin d m i =
    let e := aget (ioredtbl s) i in
    let m' := m <| ioapics := <[d := served s i]> (ioapics m) |> in
    if fires s i then stl_le_phys (entry_addr e) (entry_data e) m' else m'.
Proof.
  intros Hs Hi Hp. unfold service_pin, fires, served. rewrite (lookup_total_io _ _ _ Hs). cbv zeta.
  rewrite nz_land_bit by lia. destruct (Z.testbit (io_irr s) i) eqn:Eirr; cbn [andb];
    [|symmetry; by apply put_same].
  rewrite parse_vectored by done. cbn [masked trig_mode addr data].
  unfold IOAPIC_LVT_MASKED_SHIFT, IOAPIC_LVT_TRIGGER_MODE_SHIFT.
  rewrite !shiftr_land1 by done. fold (is_masked (aget (ioredtbl s) i)) (is_level (aget (ioredtbl s) i)).
  destruct (is_masked _); cbn [b2z Z.eqb negb andb]; [symmetry; by apply put_same|].
  destruct (is_level _); cbn [b2z Z.eqb IOAPIC_TRIGGER_EDGE negb orb].
  - rewrite (lookup_total_io _ _ _ Hs), (upd_ioapic_put _ _ _ _ Hs).
    unfold IOAPIC_LVT_REMOTE_IRR. rewrite nz_land_bit by done. unfold remote_irr.
    change IOAPIC_LVT_REMOTE_IRR_SHIFT with 14. by destruct (Z.testbit _ 14).
  - by rewrite (upd_ioapic_put _ _ _ _ Hs).
Qed.

Lemma entries_aset `{RemoteFree P} s n e : entries P s -> P e -> 0 <= n -> entries P (s <| ioredtbl := aset (ioredtbl s) n e |>).
Proof.
  intros [Hl Hp] He Hn. split; cbn -[aget aset]; [by rewrite length_aset|].
  intros j Hj. destruct (decide (n = j)) as [->|]; [by rewrite aget_aset_eq by lia|].
  rewrite aget_aset_ne by lia. by apply Hp.
Qed.

Lemma served_entries `{RemoteFree P} s i : entries P s -> 0 <= i < 24 -> entries P (served s i).
Proof.
  intros Hs Hi. unfold served. cbv zeta. case_if; [|done]. case_if; [|by destruct Hs].
  apply entries_aset; [done| |lia]. by apply remote_set, Hs.
Qed.

Lemma served_table s i : table_ok s -> 0 <= i < 24 -> table_ok (served s i).
Proof. apply served_entries. Qed.

Definition in_pins (l : list Z) : Prop := Forall (fun i => 0 <= i < 24) l.

Lemma pins_ok : in_pins pins.
Proof. apply list.Forall_forall. intros i Hi%elem_of_seqZ. lia. Qed.

Lemma service_list d l m s : ioapics m !! d = Some s -> table_ok s -> in_pins l ->
  chips (fold_left (service_pin d) l m) =
    chips (m <| ioapics := <[d := fold_left served l s]> (ioapics m) |>) /\
  table_ok (fold_left served l s).
Proof.
  intros Hs Ht Hl. revert m s Hs Ht. induction Hl as [|i l Hi Hl IH]; intros m s Hs Ht; cbn [fold_left].
  { by rewrite (put_same _ _ _ Hs). }
  rewrite (service_pin_eq d m s i) by (done || by apply Ht). cbv zeta.
  set (m' := m <| ioapics := <[d := served s i]> (ioapics m) |>).
  assert (Hm' : ioapics m' !! d = Some (served s i)) by apply lookup_insert_eq.
  assert (Hc : chips m' = chips (m <| ioapics := <[d := served s i]> (ioapics m) |>)) by done.
  assert (Hi' : ioapics m' = <[d := served s i]> (ioapics m)) by done. clearbody m'.
  pose proof (served_table s i Ht Hi) as Ht'.
  assert (Hgo : forall m1, chips m1 = chips m' ->
    chips (fold_left (service_pin d) l m1) =
      chips (m <| ioapics := <[d := fold_left served l (served s i)]> (ioapics m) |>) /\
    table_ok (fold_left served l (served s i))).
  { intros m1 Hm1. pose proof (ioapics_eq _ _ Hm1) as Hio.
    destruct (IH m1 (served s i)) as [Hch Htab]; [congruence|done|]. split; [|done].
    rewrite Hch, Hio, Hi', insert_insert_eq. unfold chips. cbn. unfold chips in Hc, Hm1. cbn in Hc.
    congruence. }
  destruct (fires s i); apply Hgo; [|done].
  apply sink_chips, entry_addr_plain. by apply Ht.
Qed.

Definition serve_all (s : IOAPICCommonState) : IOAPICCommonState := fold_left served pins s.

Lemma service_chips d m s : ioapics m !! d = Some s -> table_ok s ->
  chips (ioapic_service d m) = chips (m <| ioapics := <[d := serve_all s]> (ioapics m) |>) /\
  table_ok (serve_all s).
Proof. intros Hs Ht. by apply service_list; [| |apply pins_ok]. Qed.

(** An entry that reads its vector from the 8259 changes the 8259, but no I/O APIC. *)
Lemma parse_ioapics e m : let '(info, m') := ioapic_entry_parse e m in
  masked info = b2z (is_masked e) /\ trig_mode info = b2z (is_level e) /\ addr info = entry_addr e /\ ioapics m' = ioapics m.
Proof.
  unfold ioapic_entry_parse. cbv zeta. unfold IOAPIC_LVT_MASKED_SHIFT, IOAPIC_LVT_TRIGGER_MODE_SHIFT. rewrite !shiftr_land1 by lia.
  case_if; [|done]. pose proof (ioapics_pic_read m) as Hr. destruct (pic_read_irq m) as [v m']. done.
Qed.

Lemma service_pin_tidy d m s i : ioapics m !! d = Some s -> 0 <= i < 24 -> tidy (aget (ioredtbl s) i) ->
  ioapics (service_pin d m i) = <[d := served s i]> (ioapics m).
Proof.
  intros Hs Hi Hp. unfold service_pin, served. rewrite (lookup_total_io _ _ _ Hs). cbv zeta. rewrite nz_land_bit by lia.
  destruct (Z.testbit (io_irr s) i) eqn:Eirr; cbn [andb]; [|by rewrite insert_id].
  pose proof (parse_ioapics (aget (ioredtbl s) i) m) as Hi'. destruct (ioapic_entry_parse (aget (ioredtbl s) i) m) as [info m'].
  destruct Hi' as (-> & -> & -> & Em). destruct (is_masked _); cbn [b2z Z.eqb negb]; [by rewrite insert_id|].
  assert (Hs' : ioapics m' !! d = Some s) by congruence.
  assert (Hst : forall m1, ioapics (stl_le_phys (entry_addr (aget (ioredtbl s) i)) (data info) m1) = ioapics m1) by (intros m1; by apply ioapics_eq, sink_chips, entry_addr_tidy).
  destruct (is_level _); cbn [b2z Z.eqb IOAPIC_TRIGGER_EDGE].
  - rewrite (lookup_total_io _ _ _ Hs'), (upd_ioapic_put _ _ _ _ Hs'), <- Em. case_if; [done|]. by rewrite Hst.
  - change (nz 0) with false. cbv iota. by rewrite Hst, (upd_ioapic_put _ _ _ _ Hs'), <- Em.
Qed.

Lemma service_tidy d m s : ioapics m !! d = Some s -> entries tidy s ->
  ioapics (ioapic_service d m) = <[d := serve_all s]> (ioapics m) /\ entries tidy (serve_all s).
Proof.
  unfold ioapic_service, serve_all. pose proof pins_ok as Hl. revert m s. induction Hl as [|i l Hi Hl IH]; intros m s Hs Ht; cbn [fold_left]; [by rewrite insert_id|].
  pose proof (service_pin_tidy d m s i Hs Hi (tb_entry s Ht i Hi)) as E.
  destruct (IH (service_pin d m i) (served s i)) as [E' Ht']; [rewrite E; apply lookup_insert_eq|by apply served_entries|]. split; [|done]. by rewrite E', E, insert_insert_eq.
Qed.
End service.

(** ** Nothing deliverable is left behind *)

(** No pin is requested, unmasked and free to be delivered. *)
Definition settled (s : IOAPICCommonState) : Prop := forall i, 0 <= i < 24 -> fires s i = false.

Lemma served_self `{RemoteFree P} s i : entries P s -> 0 <= i < 24 -> fires (served s i) i = false.
Proof.
  intros Ht Hi. unfold served. cbv zeta.
  destruct (Z.testbit (io_irr s) i && negb (is_masked (aget (ioredtbl s) i))) eqn:E.
  - destruct (is_level (aget (ioredtbl s) i)) eqn:El; unfold fires;
      cbn -[aget aset Z.lor is_masked is_level remote_irr IOAPIC_LVT_REMOTE_IRR].
    + rewrite aget_aset_eq by (rewrite (tb_len s Ht); lia).
      assert (remote_irr (Z.lor (aget (ioredtbl s) i) IOAPIC_LVT_REMOTE_IRR) = true) as ->.
      { unfold remote_irr. rewrite Z.lor_spec. apply orb_true_r. }
      assert (is_level (Z.lor (aget (ioredtbl s) i) IOAPIC_LVT_REMOTE_IRR) = true) as ->.
      { unfold is_level in *. by rewrite Z.lor_spec, El. }
      apply andb_false_r.
    + rewrite testbit_clr, Z.eqb_refl, andb_false_r by lia. done.
  - unfold fires. cbv zeta. by rewrite E.
Qed.

Lemma served_other s i j : 0 <= i < 24 -> 0 <= j < 24 -> i <> j -> fires (served s i) j = fires s j.
Proof.
  intros Hi Hj Hne. unfold served, fires. cbv zeta. case_if; [|done].
  case_if; cbn -[aget aset Z.lor].
  - by rewrite aget_aset_ne by lia.
  - rewrite testbit_clr by lia. by rewrite (proj2 (Z.eqb_neq j i)), andb_true_r by lia.
Qed.

Lemma serve_all_settled `{RemoteFree P} s : entries P s -> settled (serve_all s).
Proof.
  intros Ht. unfold serve_all.
  assert (Hall : forall l s, entries P s -> in_pins l -> forall i, 0 <= i < 24 ->
    (i ∈ l \/ fires s i = false) -> fires (fold_left served l s) i = false).
  { clear s Ht. induction l as [|k l IH]; intros s Ht Hl i Hi Hor; cbn [fold_left].
    { destruct Hor as [Hin|]; [by apply not_elem_of_nil in Hin|done]. }
    inversion Hl as [|?? Hk Hl']; subst. apply IH; [by apply served_entries|done|done|].
    destruct (decide (k = i)) as [->|Hne]; [right; by apply served_self|].
    destruct Hor as [[?|?]%elem_of_cons|Hf]; [congruence|by left|].
    right. by rewrite served_other. }
  intros i Hi. apply Hall; [done|apply pins_ok|done|left]. apply elem_of_seqZ. lia.
Qed.

(** The invariant of an I/O APIC: tidy entries, and either nothing deliverable is
    waiting or the storm timer is armed and will service it. *)
Definition good (s : IOAPICCommonState) : Prop :=
  entries tidy s /\ (settled s \/ delayed_service s <> None).

Definition io_good (m : Machine) : Prop := map_Forall (fun _ s => good s) (ioapics m).

Lemma lookup_upd_ioapic d f m k :
  ioapics (upd_ioapic d f m) !! k = if decide (d = k) then f <$> ioapics m !! k else ioapics m !! k.
Proof. unfold upd_ioapic. cbn. rewrite lookup_alter. by case_decide; subst. Qed.

Lemma io_good_upd d f m : io_good m ->
  (forall s, ioapics m !! d = Some s -> good s -> good (f s)) -> io_good (upd_ioapic d f m).
Proof.
  intros Hg Hf k s. rewrite lookup_upd_ioapic. case_decide as E; [subst k|by apply Hg].
  destruct (ioapics m !! d) as [s0|] eqn:Es; [|done]. intros [= <-]. apply Hf; [done|by apply (Hg d)].
Qed.

Lemma served_delayed s i : delayed_service (served s i) = delayed_service s.
Proof. unfold served. cbv zeta. by case_ifs. Qed.

Section strands.
  Context `{MsiSinkOk}.

Lemma service_absent d m : ioapics m !! d = None -> ioapic_service d m = m.
Proof.
  intros E. unfold ioapic_service.
  assert (Hp : forall i, service_pin d m i = m).
  { intros i. unfold service_pin. rewrite lookup_total_alt, E. cbn [default ioapic_inhabited].
    by rewrite Z.land_0_l. }
  induction pins as [|i l IH]; [done|]. cbn. by rewrite Hp.
Qed.

(** Servicing an I/O APIC whose table is tidy re-establishes the invariant. *)
Lemma service_good d m :
  (forall k s, ioapics m !! k = Some s -> k <> d -> good s) ->
  (forall s, ioapics m !! d = Some s -> entries tidy s) ->
  io_good (ioapic_service d m).
Proof.
  intros Ho Hd. destruct (ioapics m !! d) as [s|] eqn:Es.
  - specialize (Hd s eq_refl). destruct (service_tidy d m s Es Hd) as [Hc Ht].
    unfold io_good. rewrite Hc.
    intros k s' Hk. destruct (decide (k = d)) as [->|Hne].
    + rewrite lookup_insert_eq in Hk. injection Hk as <-. split; [done|left]. by apply (serve_all_settled (P := tidy)).
    + rewrite lookup_insert_ne in Hk by done. by eapply Ho.
  - rewrite service_absent by done. intros k s Hk. apply (Ho k s); [done|congruence].
Qed.

Lemma service_good_upd d f m : io_good m ->
  (forall s, ioapics m !! d = Some s -> good s -> entries tidy (f s)) ->
  io_good (ioapic_service d (upd_ioapic d f m)).
Proof.
  intros Hg Hf. apply service_good.
  - intros k s. rewrite lookup_upd_ioapic. case_decide; [congruence|]. intros Hk _. by apply (Hg k).
  - intros s. rewrite lookup_upd_ioapic, decide_True by done.
    destruct (ioapics m !! d) as [s0|] eqn:Es; [|done]. intros [= <-].
    apply Hf; [done|by apply (Hg d)].
Qed.

(** The invariant depends only on the table, the requests and the timer. *)
Lemma good_ext s s' : ioredtbl s' = ioredtbl s -> io_irr s' = io_irr s ->
  delayed_service s' = delayed_service s -> good s -> good s'.
Proof.
  intros E1 E2 E3 [[Hl Hp] Hs]. split; [by split; rewrite E1|]. rewrite E3.
  destruct Hs as [Hs|]; [left|by right]. intros i Hi. unfold fires. rewrite E1, E2. by apply Hs.
Qed.

(** Fewer requests, or a request on a pin that waits for its EOI. *)
Lemma good_irr s x : good s ->
  (forall i, 0 <= i < 24 -> Z.testbit x i = true ->
     Z.testbit (io_irr s) i = true \/
     (is_level (aget (ioredtbl s) i) = true /\ remote_irr (aget (ioredtbl s) i) = true)) ->
  good (s <| io_irr := x |>).
Proof.
  intros [[Hl Hp] Hs] Hx. split; [by split|]. destruct Hs as [Hs|]; [left|by right].
  intros i Hi. specialize (Hs i Hi). unfold fires in *. cbn -[aget is_masked is_level remote_irr].
  cbv zeta in Hs |- *. destruct (Z.testbit x i) eqn:E; [|done].
  destruct (Hx i Hi E) as [E'|[-> ->]]; [by rewrite E' in Hs|]. apply andb_false_r.
Qed.

Lemma set_irq_good d v l m : 0 <= v < 24 -> io_good m -> io_good (ioapic_set_irq d v l m).
Proof.
  intros Hv Hg. unfold ioapic_set_irq. cbv zeta.
  set (m1 := upd_ioapic d (ioapic_stat_update_irq v l) m).
  assert (Hg1 : io_good m1).
  { apply io_good_upd; [done|]. intros s _. unfold ioapic_stat_update_irq. cbv zeta.
    case_ifs; by apply good_ext. }
  clearbody m1. set (w := if v =? 0 then 2 else v).
  assert (Hw : 0 <= w < 24) by (subst w; case_if; lia). clearbody w.
  rewrite (proj2 (Z.ltb_lt w IOAPIC_NUM_PINS)) by (unfold IOAPIC_NUM_PINS; lia).
  unfold IOAPIC_LVT_TRIGGER_MODE_SHIFT, IOAPIC_LVT_REMOTE_IRR. rewrite shiftr_land1, nz_land_bit by done.
  destruct (Z.testbit (aget (ioredtbl (ioapics m1 !!! d)) w) 15) eqn:El; cbn [b2z Z.eqb IOAPIC_TRIGGER_LEVEL Pos.eqb].
  - destruct (nz l).
    + destruct (Z.testbit _ IOAPIC_LVT_REMOTE_IRR_SHIFT) eqn:Er; cbn [negb].
      * apply io_good_upd; [done|]. intros s Hs Hgs. rewrite (lookup_total_io _ _ _ Hs) in El, Er.
        apply good_irr; [done|]. intros i Hi. rewrite Z.lor_spec, testbit_bit, orb_true_iff by lia.
        intros [?|<-%Z.eqb_eq]; [by left|by right].
      * apply service_good_upd; [done|]. intros s _ [[Hl Hp] _]. by split.
    + apply io_good_upd; [done|]. intros s Hs Hgs. apply good_irr; [done|]. intros i Hi.
      rewrite testbit_clr, andb_true_iff by lia. tauto.
  - destruct (_ && _); [|done]. apply service_good_upd; [done|]. intros s _ [[Hl Hp] _]. by split.
Qed.

(** All I/O APICs but [d] satisfy the invariant, [d] only has a tidy table. *)
Definition good_but (d : nat) (m : Machine) : Prop :=
  (forall k s, ioapics m !! k = Some s -> k <> d -> good s) /\
  (forall s, ioapics m !! d = Some s -> entries tidy s).

Lemma good_but_intro d m : io_good m -> good_but d m.
Proof. intros Hg. split; [intros k s Hk _; by apply (Hg k)|]. intros s Hs. by apply (Hg d). Qed.

Lemma good_but_upd d f m : good_but d m -> (forall s, entries tidy s -> entries tidy (f s)) ->
  good_but d (upd_ioapic d f m).
Proof.
  intros [Ho Hd] Hf. split; intros k; [intros s|]; rewrite lookup_upd_ioapic.
  - case_decide; [congruence|]. apply Ho.
  - rewrite decide_True by done. destruct (ioapics m !! d); [|done]. intros [= <-]. by apply Hf, Hd.
Qed.

Lemma good_but_fix d f m : good_but d m ->
  (forall s, ioapics m !! d = Some s -> entries tidy s -> good (f s)) -> io_good (upd_ioapic d f m).
Proof.
  intros [Ho Hd] Hf k s. rewrite lookup_upd_ioapic. case_decide as E; [subst k|].
  - destruct (ioapics m !! d) as [s0|] eqn:Es; [|done]. intros [= <-]. apply Hf; [done|by apply Hd].
  - intros Hk. by apply (Ho k).
Qed.

Lemma entry_clear e :
  entry_addr (clr e IOAPIC_LVT_REMOTE_IRR) = entry_addr e /\
  entry_data (clr e IOAPIC_LVT_REMOTE_IRR) = entry_data e.
Proof.
  pose proof (fun k n H => field_clear e k n H) as F. split.
  - unfold entry_addr.
    assert (E1 := F 48 16 ltac:(lia) ltac:(lia) ltac:(lia)). assert (E2 := F 11 1 ltac:(lia) ltac:(lia) ltac:(lia)).
    change (Z.ones 16) with 0xffff in E1. change (Z.ones 1) with 1 in E2.
    unfold IOAPIC_LVT_DEST_IDX_SHIFT, IOAPIC_LVT_DEST_MODE_SHIFT. by rewrite E1, E2.
  - unfold entry_data.
    assert (E1 := F 0 8 ltac:(lia) ltac:(lia) ltac:(lia)). assert (E2 := F 15 1 ltac:(lia) ltac:(lia) ltac:(lia)).
    assert (E3 := F 8 3 ltac:(lia) ltac:(lia) ltac:(lia)). rewrite !Z.shiftr_0_r in E1.
    change (Z.ones 8) with IOAPIC_VECTOR_MASK in E1. change (Z.ones 1) with 1 in E2.
    change (Z.ones 3) with IOAPIC_DM_MASK in E3.
    unfold IOAPIC_LVT_TRIGGER_MODE_SHIFT, IOAPIC_LVT_DELIV_MODE_SHIFT. by rewrite E1, E2, E3.
Qed.

(** Clearing and setting Remote IRR of an entry that has it set. *)
Lemma clear_set_remote e : remote_irr e = true ->
  Z.lor (clr e IOAPIC_LVT_REMOTE_IRR) IOAPIC_LVT_REMOTE_IRR = e.
Proof.
  intros Hr. apply Z.bits_inj'. intros b Hb. unfold IOAPIC_LVT_REMOTE_IRR, IOAPIC_LVT_REMOTE_IRR_SHIFT.
  rewrite Z.lor_spec, testbit_clr, testbit_bit by lia.
  destruct (Z.eqb_spec b 14) as [->|]; [|by rewrite andb_true_r, orb_false_r].
  unfold remote_irr in Hr. by rewrite Hr.
Qed.

Lemma eoi_pin_good d v m n : 0 <= n < 24 -> io_good m -> io_good (eoi_pin d v m n).
Proof.
  intros Hn Hg. unfold eoi_pin. cbv zeta. set (e := aget (ioredtbl (ioapics m !!! d)) n).
  case_if; [done|]. case_if; [done|].
  destruct (ioapics m !! d) as [s|] eqn:Es.
  2:{ unfold e in Heqb0. rewrite lookup_total_alt, Es in Heqb0. cbn in Heqb0.
      unfold aget in Heqb0. by destruct (Z.to_nat n). }
  assert (Ee : e = aget (ioredtbl s) n) by (unfold e; by rewrite (lookup_total_io _ _ _ Es)). clearbody e.
  pose proof (Hg d s Es) as [Ht Hset].
  assert (Hpe : tidy e) by (rewrite Ee; by apply Ht).
  set (f := fun s => s <| ioredtbl := aset (ioredtbl s) n (clr e IOAPIC_LVT_REMOTE_IRR) |>).
  assert (Hb : good_but d (upd_ioapic d f m)).
  { apply good_but_upd; [by apply good_but_intro|]. intros s1 H1.
    apply entries_aset; [done|by apply remote_clear|lia]. }
  assert (Hs1 : ioapics (upd_ioapic d f m) !! d = Some (f s))
    by (rewrite lookup_upd_ioapic, decide_True, Es; done).
  generalize dependent (upd_ioapic d f m). intros m1 Hb Hs1.
  rewrite (lookup_total_io _ _ _ Hs1). cbn [io_irr f]. change (io_irr (f s)) with (io_irr s).
  rewrite nz_land_bit by lia. unfold IOAPIC_LVT_MASKED, IOAPIC_LVT_MASKED_SHIFT.
  rewrite nz_land_bit by lia. destruct (negb (Z.testbit e 16) && Z.testbit (io_irr s) n) eqn:Ef.
  - case_if.
    + apply good_but_fix.
      * apply good_but_upd; [done|]. intros s1 []. by split.
      * intros s1 _ []. split; [by split|right]. cbn. by destruct (delayed_service s1).
    + apply service_good; apply good_but_upd; try done; intros s1 []; by split.
  - apply good_but_fix; [done|]. rewrite Hs1. intros s1 [= <-] Ht1.
    apply (good_ext (f s)); [done..|]. split; [done|]. destruct Hset as [Hset|]; [left|by right].
    intros i Hi. specialize (Hset i Hi). unfold fires in *. subst f. cbn -[aget aset is_masked is_level remote_irr].
    destruct (decide (n = i)) as [->|]; [|by rewrite aget_aset_ne by lia].
    rewrite aget_aset_eq by (rewrite (tb_len _ Ht); lia).
    assert (is_masked (clr e IOAPIC_LVT_REMOTE_IRR) = Z.testbit e 16) as ->
      by (unfold is_masked, IOAPIC_LVT_REMOTE_IRR; rewrite testbit_clr by done; apply andb_true_r).
    rewrite andb_comm in Ef. by rewrite Ef.
Qed.

Lemma eoi_broadcast_good v m : io_good m -> io_good (ioapic_eoi_broadcast v m).
Proof.
  unfold ioapic_eoi_broadcast. generalize (seq 0 MAX_IOAPICS) as ds. intros ds. revert m.
  induction ds as [|d ds IH]; intros m Hg; cbn [fold_left]; [done|]. apply IH.
  destruct (ioapics m !! d) as [s|]; [|done]. clear s IH. revert m Hg. pose proof pins_ok as Hp.
  induction Hp as [|n l Hn Hl IHl]; intros m Hg; cbn [fold_left]; [done|]. apply IHl, eoi_pin_good; [exact Hn|done].
Qed.

(** Everything that can happen to the I/O APICs. *)
Inductive io_op :=
| IoSet (d : nat) (pin level : Z)
| IoWrite (d : nat) (addr val size : Z)
| IoEoi (v : Z)
| IoTimer (d : nat)
| IoReset (d : nat).

Definition io_do (o : io_op) (m : Machine) : Machine :=
  match o with
  | IoSet d pin level => ioapic_set_irq d pin level m
  | IoWrite d addr val size => ioapic_mem_write d addr val size m
  | IoEoi v => ioapic_eoi_broadcast v m
  | IoTimer d =>
      (* the timer has fired: it is no longer armed *)
      delayed_ioapic_service_cb d (upd_ioapic d (fun s => s <| delayed_service := None |>) m)
  | IoReset d => ioapic_reset_common d m
  end.

(** The guest keeps to the documented entry format. *)
Definition io_op_ok (o : io_op) (m : Machine) : Prop :=
  match o with
  | IoSet _ pin _ => 0 <= pin < 24
  | IoWrite d _ val _ => forall s, ioapics m !! d = Some s ->
      let index := Z.shiftr (ioregsel s - IOAPIC_REG_REDTBL_BASE) 1 in
      0 <= index < 24 ->
      tidy (redtbl_write (nz (Z.land (ioregsel s) 1)) (aget (ioredtbl s) index) val)
  | _ => True
  end.

Lemma mem_write_good d a v size m :
  io_op_ok (IoWrite d a v size) m -> io_good m -> io_good (ioapic_mem_write d a v size m).
Proof.
  intros Hok Hg. unfold ioapic_mem_write. cbv zeta.
  case_if; [apply io_good_upd; [done|]; intros s _; by apply good_ext|].
  case_if.
  - case_if; [done|]. case_if; [apply io_good_upd; [done|]; intros s _; by apply good_ext|].
    case_if; [done|].
    destruct (Z.leb_spec 0 (Z.shiftr (ioregsel (ioapics m !!! d) - IOAPIC_REG_REDTBL_BASE) 1)) as [Hi1|]; [|done].
    destruct (Z.ltb_spec (Z.shiftr (ioregsel (ioapics m !!! d) - IOAPIC_REG_REDTBL_BASE) 1) IOAPIC_NUM_PINS) as [Hi2|]; [|done].
    cbn [andb]. apply service_good_upd; [done|]. intros s Hs [Ht _].
    rewrite (lookup_total_io _ _ _ Hs) in Hi1, Hi2 |- *. specialize (Hok s Hs (conj Hi1 Hi2)).
    destruct (entries_aset s _ _ Ht Hok Hi1). by split.
  - case_if; [|done]. case_if; [done|]. by apply eoi_broadcast_good.
Qed.

Lemma io_do_good o m : io_op_ok o m -> io_good m -> io_good (io_do o m).
Proof.
  intros Hok Hg. destruct o as [d pin l|d a v z|v|d|d]; cbn [io_do].
  - by apply set_irq_good.
  - by apply mem_write_good.
  - by apply eoi_broadcast_good.
  - apply service_good_upd; [done|]. intros s _ [[] _]. by split.
  - apply io_good_upd; [done|]. intros s _ _. split; [|left].
    + split; cbn -[aget repeat]; [apply repeat_length|]. intros i Hi. by rewrite aget_repeat by lia.
    + intros i Hi. unfold fires. cbn -[aget]. by rewrite Z.bits_0.
Qed.

Fixpoint io_run (os : list io_op) (m : Machine) : Machine := match os with [] => m | o :: os => io_run os (io_do o m) end.
Fixpoint io_run_ok (os : list io_op) (m : Machine) : Prop := match os with [] => True | o :: os => io_op_ok o m /\ io_run_ok os (io_do o m) end.

(** C23. The I/O APIC never strands an interrupt. Whatever sequence of line changes,
    register writes, EOI broadcasts, storm-timer expiries and resets happens, no pin
    is left requested, unmasked and deliverable (edge, or level without Remote IRR)
    unless the storm timer is armed, whose expiry services it. The entries may have
    any delivery mode, ExtINT included; the guest is only assumed to leave the
    reserved byte of the entries it writes zero, lines are those of the 24 pins, the
    I/O APICs start so, and the sink of messages does not change the I/O APICs. *)
Theorem ioapic_never_strands os m : io_run_ok os m -> io_good m -> io_good (io_run os m).
Proof.
  revert m. induction os as [|o os IH]; intros m Hok Hg; cbn [io_run io_run_ok] in *; [done|]. destruct Hok as [Ho Hok]. apply IH; [done|]. by apply io_do_good.
Qed.
End strands.

(** ** The Remote-IRR handshake of a level-triggered pin *)
Lemma lor_present e k : 0 <= k -> Z.testbit e k = true -> Z.lor e (bit k) = e.
Proof.
  intros Hk E. apply Z.bits_inj'. intros i Hi. rewrite Z.lor_spec, testbit_bit by done.
  destruct (Z.eqb_spec i k) as [->|]; [by rewrite E|apply orb_false_r].
Qed.

Lemma aset_same tab i : 0 <= i < Z.of_nat (length tab) -> aset tab i (aget tab i) = tab.
Proof.
  intros Hi. unfold aset, aget. apply list_insert_id.
  destruct (lookup_lt_is_Some_2 tab (Z.to_nat i)) as [x Hx]; [lia|].
  rewrite Hx. f_equal. symmetry. by apply nth_lookup_Some.
Qed.

(** Servicing a pin that does not fire changes nothing. *)
Lemma served_idle s j : table_ok s -> 0 <= j < 24 -> fires s j = false -> served s j = s.
Proof.
  intros Ht Hj Hf. unfold fires, served in *. cbv zeta in *.
  destruct (Z.testbit (io_irr s) j && negb (is_masked (aget (ioredtbl s) j))); [|done].
  destruct (is_level (aget (ioredtbl s) j)); [|done]. cbn [andb negb orb] in Hf.
  apply negb_false_iff in Hf. unfold IOAPIC_LVT_REMOTE_IRR. rewrite lor_present by done.
  rewrite aset_same by (rewrite (tb_len s Ht); lia). by destruct s.
Qed.

Section handshake.
  Context `{MsiSinkOk}.

Lemma service_none d l m s : ioapics m !! d = Some s -> table_ok s -> in_pins l ->
  (forall i, i ∈ l -> fires s i = false) -> fold_left (service_pin d) l m = m.
Proof.
  intros Hs Ht Hl Hf. induction Hl as [|i l Hi Hl IH]; cbn [fold_left]; [done|].
  assert (Hfi : fires s i = false) by (apply Hf; left).
  rewrite (service_pin_eq d m s i) by (done || by apply Ht). cbv zeta.
  rewrite Hfi, served_idle, put_same by done. apply IH. intros j Hj. apply Hf. by right.
Qed.

Lemma pins_split p : 0 <= p < 24 ->
  exists l1 l2, pins = l1 ++ p :: l2 /\
    (forall i, i ∈ l1 \/ i ∈ l2 -> 0 <= i < 24 /\ i <> p).
Proof.
  intros Hp. assert (Hin : p ∈ pins) by (apply elem_of_seqZ; lia).
  pose proof pins_ok as Hok. assert (Hnd : NoDup pins) by apply NoDup_seqZ.
  apply list_elem_of_split in Hin as (l1 & l2 & E). rewrite E in Hok, Hnd. exists l1, l2. split; [done|].
  unfold in_pins in Hok. rewrite list.Forall_forall in Hok.
  apply list.NoDup_app in Hnd as (_ & Hd1 & Hnd2%list.NoDup_cons). destruct Hnd2 as [Hp2 _].
  intros i [Hi|Hi]; (split; [apply Hok, elem_of_app; first [by left|right; by right]|]); intros ->; [|done]. apply (Hd1 p Hi). left.
Qed.

(** If one pin fires, a service sends exactly its message. *)
Lemma service_one d m s p : ioapics m !! d = Some s -> table_ok s -> 0 <= p < 24 ->
  fires s p = true -> (forall i, 0 <= i < 24 -> i <> p -> fires s i = false) ->
  ioapic_service d m =
    stl_le_phys (entry_addr (aget (ioredtbl s) p)) (entry_data (aget (ioredtbl s) p))
      (m <| ioapics := <[d := served s p]> (ioapics m) |>).
Proof.
  intros Hs Ht Hp Hf Ho. unfold ioapic_service.
  destruct (pins_split p Hp) as (l1 & l2 & -> & Hl). rewrite fold_left_app. cbn [fold_left].
  assert (Hin : forall l, (forall i, i ∈ l -> i ∈ l1 \/ i ∈ l2) -> in_pins l)
    by (intros l Hsub; apply list.Forall_forall; intros i Hi; apply Hl; auto).
  rewrite (service_none d l1 m s); [|done|done|apply Hin; auto|].
  2:{ intros i Hi. apply Ho; apply Hl; auto. }
  rewrite (service_pin_eq d m s p) by (done || by apply Ht). cbv zeta. rewrite Hf.
  set (m' := m <| ioapics := <[d := served s p]> (ioapics m) |>).
  apply (service_none d l2 _ (served s p)).
  - rewrite (ioapics_eq m'); [apply lookup_insert_eq|]. apply sink_chips, entry_addr_plain. by apply Ht.
  - by apply served_table.
  - apply Hin; auto.
  - intros i Hi. destruct (Hl i) as [Hir Hne]; [by right|].
    rewrite served_other by (done || congruence). by apply Ho.
Qed.

(** A level-triggered pin that is unmasked, in an otherwise quiet I/O APIC. *)
Record level_pin (s : IOAPICCommonState) (p : Z) (requested waiting : bool) : Prop := {
  lp_table : table_ok s;
  lp_settled : settled s;
  lp_range : 0 < p < 24;
  lp_level : is_level (aget (ioredtbl s) p) = true;
  lp_masked : is_masked (aget (ioredtbl s) p) = false;
  lp_irr : Z.testbit (io_irr s) p = requested;
  lp_remote : remote_irr (aget (ioredtbl s) p) = waiting;
}.

Lemma stat_same irq l s :
  ioredtbl (ioapic_stat_update_irq irq l s) = ioredtbl s /\
  io_irr (ioapic_stat_update_irq irq l s) = io_irr s.
Proof. unfold ioapic_stat_update_irq. cbv zeta. by case_ifs. Qed.

Lemma fires_ext s s' i : ioredtbl s' = ioredtbl s -> io_irr s' = io_irr s -> fires s' i = fires s i.
Proof. intros E1 E2. unfold fires. by rewrite E1, E2. Qed.

Lemma table_ext s s' : ioredtbl s' = ioredtbl s -> table_ok s -> table_ok s'.
Proof. intros E []. split; by rewrite E. Qed.

(** [ioapic_set_irq] on such a pin, down to the request bit. *)
Lemma set_irq_level d m s p l : ioapics m !! d = Some s -> 0 < p < 24 ->
  is_level (aget (ioredtbl s) p) = true ->
  let st := ioapic_stat_update_irq p l s in
  let put x := m <| ioapics := <[d := st <| io_irr := x |>]> (ioapics m) |> in
  (nz l = true -> remote_irr (aget (ioredtbl s) p) = true ->
     ioapic_set_irq d p l m = put (Z.lor (io_irr s) (bit p))) /\
  (nz l = true -> remote_irr (aget (ioredtbl s) p) = false ->
     ioapic_set_irq d p l m = ioapic_service d (put (Z.lor (io_irr s) (bit p)))) /\
  (nz l = false -> ioapic_set_irq d p l m = put (clr (io_irr s) (bit p))).
Proof.
  intros Hs Hp Hl. cbv zeta. unfold ioapic_set_irq. cbv zeta.
  rewrite (upd_ioapic_put _ _ _ _ Hs). set (st := ioapic_stat_update_irq p l s).
  destruct (stat_same p l s) as [E1 E2]. fold st in E1, E2. clearbody st.
  set (m1 := m <| ioapics := <[d := st]> (ioapics m) |>).
  assert (Hm1 : ioapics m1 !! d = Some st) by apply lookup_insert_eq.
  rewrite (proj2 (Z.eqb_neq p 0)) by lia.
  rewrite (proj2 (Z.ltb_lt p IOAPIC_NUM_PINS)) by (unfold IOAPIC_NUM_PINS; lia).
  rewrite (lookup_total_io _ _ _ Hm1), E1. unfold IOAPIC_LVT_TRIGGER_MODE_SHIFT, IOAPIC_LVT_REMOTE_IRR.
  rewrite shiftr_land1, nz_land_bit by done. fold (is_level (aget (ioredtbl s) p)). rewrite Hl.
  cbn [b2z Z.eqb IOAPIC_TRIGGER_LEVEL Pos.eqb]. rewrite !(upd_ioapic_put d _ m1 st Hm1), E2.
  assert (Hput : forall x, m1 <| ioapics := <[d := st <| io_irr := x |>]> (ioapics m1) |> =
    m <| ioapics := <[d := st <| io_irr := x |>]> (ioapics m) |>).
  { intros x. subst m1. cbn. by rewrite insert_insert_eq. }
  rewrite !Hput. change IOAPIC_LVT_REMOTE_IRR_SHIFT with 14. fold (remote_irr (aget (ioredtbl s) p)).
  split_and!; intros ->; [intros -> ..|]; done.
Qed.

Lemma fires_request s st p i : ioredtbl st = ioredtbl s -> 0 <= p < 24 -> 0 <= i < 24 -> i <> p ->
  fires (st <| io_irr := Z.lor (io_irr s) (bit p) |>) i = fires s i.
Proof.
  intros E Hp Hi Hne. unfold fires. cbn -[aget is_masked is_level remote_irr Z.lor]. rewrite E.
  rewrite Z.lor_spec, testbit_bit, (proj2 (Z.eqb_neq i p)), orb_false_r by lia. done.
Qed.

Lemma raised_fires s st p : level_pin s p false false -> ioredtbl st = ioredtbl s ->
  let s1 := st <| io_irr := Z.lor (io_irr s) (bit p) |> in
  table_ok s1 /\ fires s1 p = true /\ (forall i, 0 <= i < 24 -> i <> p -> fires s1 i = false).
Proof.
  intros [Ht Hset Hp Hl Hm Hi Hr] E. cbv zeta.
  assert (Hb : Z.testbit (Z.lor (io_irr s) (bit p)) p = true)
    by (rewrite Z.lor_spec, testbit_bit, Z.eqb_refl by lia; apply orb_true_r).
  split_and!.
  - by apply (table_ext s).
  - unfold fires. cbn -[aget is_masked is_level remote_irr Z.lor]. by rewrite Hb, E, Hm, Hr, orb_true_r.
  - intros i Hir Hne. rewrite (fires_request s st) by (done || lia). by apply Hset.
Qed.

(** While the pin waits for its EOI, its line changes only the request bit. *)
Lemma waiting_quiet d p s1 l m1 : level_pin s1 p true true -> ioapics m1 !! d = Some s1 ->
  exists s2, ioapic_set_irq d p l m1 = m1 <| ioapics := <[d := s2]> (ioapics m1) |> /\
             ioredtbl s2 = ioredtbl s1 /\ Z.testbit (io_irr s2) p = nz l.
Proof.
  intros [_ _ Hp Hl _ _ Hr] Hm1. destruct (set_irq_level d m1 _ p l Hm1 Hp Hl) as (Hhi & _ & Hlo).
  destruct (stat_same p l s1) as [E2 _]. generalize dependent (ioapic_stat_update_irq p l s1).
  intros st Hhi Hlo E2. destruct (nz l); eexists;
    (split; [(exact (Hhi eq_refl Hr) || exact (Hlo eq_refl))|]); (split; [exact E2|]); cbn -[Z.lor Z.land].
  - rewrite Z.lor_spec, testbit_bit, Z.eqb_refl by lia. apply orb_true_r.
  - rewrite testbit_clr, Z.eqb_refl by lia. apply andb_false_r.
Qed.

(** The state after the request was sent. *)
Lemma sent_waiting s s0 p : level_pin s p false false -> ioredtbl s0 = ioredtbl s ->
  table_ok s0 -> Z.testbit (io_irr s0) p = true ->
  (forall i, 0 <= i < 24 -> i <> p -> fires s0 i = false) ->
  level_pin (served s0 p) p true true.
Proof.
  intros [Ht Hset Hp Hl Hm Hi Hr] E0 Ht0 Hb Ho.
  assert (Hsv : served s0 p = s0 <| ioredtbl := aset (ioredtbl s) p
            (Z.lor (aget (ioredtbl s) p) IOAPIC_LVT_REMOTE_IRR) |>).
  { unfold served. cbv zeta. by rewrite Hb, E0, Hm, Hl. }
  assert (Hge : aget (ioredtbl (served s0 p)) p = Z.lor (aget (ioredtbl s) p) IOAPIC_LVT_REMOTE_IRR).
  { rewrite Hsv. apply aget_aset_eq. rewrite (tb_len s Ht). lia. }
  assert (Hirr : io_irr (served s0 p) = io_irr s0) by (by rewrite Hsv).
  constructor; rewrite ?Hge, ?Hirr.
  - apply served_table; [done|lia].
  - intros i Hir. destruct (decide (p = i)) as [->|]; [apply served_self; done|].
    rewrite served_other by lia. apply Ho; [done|congruence].
  - done.
  - unfold is_level in *. by rewrite Z.lor_spec, Hl.
  - unfold is_masked in *. by rewrite Z.lor_spec, Hm.
  - done.
  - unfold remote_irr. rewrite Z.lor_spec. apply orb_true_r.
Qed.

(** C25. The Remote-IRR handshake, first half. When no pin has anything to deliver and
    the entries are plain, asserting an idle level-triggered, unmasked pin from 1 on
    sends exactly one message, the one its entry encodes, and marks the entry as
    waiting for its EOI (Remote IRR); while it is waiting, neither asserting the line
    again nor releasing it sends anything: the rest of the machine does not change. *)
Theorem ioapic_level_handshake d m s p :
  ioapics m !! d = Some s -> level_pin s p false false ->
  exists s1,
    ioapic_set_irq d p 1 m =
      stl_le_phys (entry_addr (aget (ioredtbl s) p)) (entry_data (aget (ioredtbl s) p))
        (m <| ioapics := <[d := s1]> (ioapics m) |>) /\
    level_pin s1 p true true /\
    forall l m1, ioapics m1 !! d = Some s1 ->
      exists s2, ioapic_set_irq d p l m1 = m1 <| ioapics := <[d := s2]> (ioapics m1) |> /\
                 ioredtbl s2 = ioredtbl s1 /\ Z.testbit (io_irr s2) p = nz l.
Proof.
  intros Hs Hlp. pose proof Hlp as [Ht Hset Hp Hl Hm Hi Hr].
  destruct (set_irq_level d m s p 1 Hs Hp Hl) as (_ & E & _). specialize (E eq_refl Hr). cbv zeta in E.
  destruct (stat_same p 1 s) as [E1 _]. set (st := ioapic_stat_update_irq p 1 s) in *. clearbody st.
  destruct (raised_fires s st p Hlp E1) as (Ht1 & Hf1 & Ho1).
  set (s0 := st <| io_irr := Z.lor (io_irr s) (bit p) |>) in *.
  assert (E0 : ioredtbl s0 = ioredtbl s) by done.
  assert (Hb : Z.testbit (io_irr s0) p = true)
    by (change (io_irr s0) with (Z.lor (io_irr s) (bit p)); rewrite Z.lor_spec, testbit_bit, Z.eqb_refl by lia;
        apply orb_true_r).
  clearbody s0.
  rewrite (service_one d _ s0 p) in E; [|apply lookup_insert_eq|done|lia|done|done].
  rewrite E0 in E. change (ioapics (m <| ioapics := ?x |>)) with x in E. rewrite insert_insert_eq in E.
  pose proof (sent_waiting s s0 p Hlp E0 Ht1 Hb Ho1) as Hw.
  exists (served s0 p). generalize dependent (served s0 p). intros s1 E Hw.
  split_and!; [exact E|exact Hw|]. intros l m1. by apply waiting_quiet.
Qed.

Lemma eoi_skip d v m s j : ioapics m !! d = Some s ->
  Z.land (aget (ioredtbl s) j) IOAPIC_VECTOR_MASK <> v -> eoi_pin d v m j = m.
Proof.
  intros Hs Hv. unfold eoi_pin. cbv zeta. rewrite (lookup_total_io _ _ _ Hs).
  by rewrite (proj2 (Z.eqb_neq _ _) Hv).
Qed.

Lemma eoi_skip_all d v m s l : ioapics m !! d = Some s ->
  (forall j, j ∈ l -> Z.land (aget (ioredtbl s) j) IOAPIC_VECTOR_MASK <> v) ->
  fold_left (eoi_pin d v) l m = m.
Proof.
  intros Hs. induction l as [|j l IH]; intros Hv; cbn [fold_left]; [done|].
  rewrite (eoi_skip d v m s j Hs) by (apply Hv; left). apply IH. intros k Hk. apply Hv. by right.
Qed.

Definition ended (s : IOAPICCommonState) (p : Z) : IOAPICCommonState :=
  s <| ioredtbl := aset (ioredtbl s) p (clr (aget (ioredtbl s) p) IOAPIC_LVT_REMOTE_IRR) |>.

(** The pin whose interrupt ended, line released: nothing is sent. *)
Lemma eoi_low d m s p : ioapics m !! d = Some s -> level_pin s p false true ->
  eoi_pin d (Z.land (aget (ioredtbl s) p) IOAPIC_VECTOR_MASK) m p =
  m <| ioapics := <[d := ended s p <| irq_eoi := aset (irq_eoi s) p 0 |>]> (ioapics m) |>.
Proof.
  intros Hs [Ht _ Hp Hl Hm Hi Hr]. unfold eoi_pin. cbv zeta.
  rewrite (lookup_total_io _ _ _ Hs), Z.eqb_refl.
  unfold IOAPIC_LVT_TRIGGER_MODE_SHIFT, IOAPIC_LVT_MASKED, IOAPIC_LVT_MASKED_SHIFT.
  rewrite shiftr_land1 by lia. fold (is_level (aget (ioredtbl s) p)). rewrite Hl.
  unfold IOAPIC_LVT_REMOTE_IRR, IOAPIC_LVT_REMOTE_IRR_SHIFT. rewrite !nz_land_bit by lia.
  fold (remote_irr (aget (ioredtbl s) p)). rewrite Hr. cbn [b2z Z.eqb Pos.eqb IOAPIC_TRIGGER_LEVEL negb orb].
  fold (is_masked (aget (ioredtbl s) p)). rewrite Hm. cbn [negb andb].
  rewrite !(upd_ioapic_put d _ m s Hs). set (m1 := m <| ioapics := _ |>).
  assert (Hm1 : ioapics m1 !! d = Some (ended s p)) by apply lookup_insert_eq.
  rewrite (lookup_total_io _ _ _ Hm1). change (io_irr (ended s p)) with (io_irr s). rewrite Hi.
  rewrite (upd_ioapic_put d _ m1 _ Hm1). subst m1. cbn. by rewrite insert_insert_eq.
Qed.

Lemma ended_fires s st p : level_pin s p true true -> ioredtbl st = ioredtbl (ended s p) ->
  io_irr st = io_irr s ->
  table_ok st /\ fires st p = true /\ (forall i, 0 <= i < 24 -> i <> p -> fires st i = false) /\
  served st p = st <| ioredtbl := ioredtbl s |> /\
  aget (ioredtbl st) p = clr (aget (ioredtbl s) p) IOAPIC_LVT_REMOTE_IRR.
Proof.
  intros [Ht Hset Hp Hl Hm Hi Hr] E1 E2. set (e := aget (ioredtbl s) p) in *.
  assert (Hge : aget (ioredtbl st) p = clr e IOAPIC_LVT_REMOTE_IRR).
  { rewrite E1. apply aget_aset_eq. rewrite (tb_len s Ht). lia. }
  assert (Hbit : forall k, 0 <= k -> Z.testbit (clr e IOAPIC_LVT_REMOTE_IRR) k =
    Z.testbit e k && negb (k =? 14)) by (intros k Hk; by apply testbit_clr).
  assert (Hl' : is_level (aget (ioredtbl st) p) = true)
    by (unfold is_level in *; by rewrite Hge, Hbit, Hl by lia).
  assert (Hm' : is_masked (aget (ioredtbl st) p) = false)
    by (unfold is_masked in *; by rewrite Hge, Hbit, Hm by lia).
  assert (Hr' : remote_irr (aget (ioredtbl st) p) = false)
    by (unfold remote_irr; rewrite Hge, Hbit by lia; apply andb_false_r).
  split_and!; [| | | |exact Hge].
  - apply (table_ext (ended s p)); [done|]. apply entries_aset; [done|apply remote_clear, Ht; lia|lia].
  - unfold fires. cbv zeta. by rewrite Hl', Hm', Hr', E2, Hi.
  - intros i Hir Hne. rewrite <-(Hset i Hir). unfold fires. rewrite E1, E2. cbv zeta.
    unfold ended. cbn -[aget aset is_masked is_level remote_irr]. by rewrite aget_aset_ne by lia.
  - unfold served. cbv zeta. rewrite Hl', Hm', E2, Hi. cbn [negb andb]. f_equal.
    rewrite Hge, E1, clear_set_remote by done. unfold ended. cbn -[aget aset].
    unfold aset. rewrite list_insert_insert_eq. apply aset_same. rewrite (tb_len s Ht). lia.
Qed.

(** The pin whose interrupt ended, line still asserted: its message is sent again. *)
Lemma eoi_high d m s p : ioapics m !! d = Some s -> level_pin s p true true ->
  length (irq_eoi s) = 24%nat -> aget (irq_eoi s) p + 1 < SUCCESSIVE_IRQ_MAX_COUNT ->
  eoi_pin d (Z.land (aget (ioredtbl s) p) IOAPIC_VECTOR_MASK) m p =
  stl_le_phys (entry_addr (aget (ioredtbl s) p)) (entry_data (aget (ioredtbl s) p))
    (m <| ioapics := <[d := s <| irq_eoi := aset (irq_eoi s) p (aget (irq_eoi s) p + 1) |>]> (ioapics m) |>).
Proof.
  intros Hs Hlp Hlen Hmax. pose proof Hlp as [Ht _ Hp Hl Hm Hi Hr]. unfold eoi_pin. cbv zeta.
  rewrite (lookup_total_io _ _ _ Hs), Z.eqb_refl.
  unfold IOAPIC_LVT_TRIGGER_MODE_SHIFT, IOAPIC_LVT_MASKED, IOAPIC_LVT_MASKED_SHIFT.
  rewrite shiftr_land1 by lia. fold (is_level (aget (ioredtbl s) p)). rewrite Hl.
  unfold IOAPIC_LVT_REMOTE_IRR, IOAPIC_LVT_REMOTE_IRR_SHIFT. rewrite !nz_land_bit by lia.
  fold (remote_irr (aget (ioredtbl s) p)). rewrite Hr. cbn [b2z Z.eqb Pos.eqb IOAPIC_TRIGGER_LEVEL negb orb].
  fold (is_masked (aget (ioredtbl s) p)). rewrite Hm. cbn [negb andb].
  rewrite !(upd_ioapic_put d _ m s Hs). set (m1 := m <| ioapics := _ |>).
  assert (Hm1 : ioapics m1 !! d = Some (ended s p)) by apply lookup_insert_eq.
  rewrite (lookup_total_io _ _ _ Hm1). change (io_irr (ended s p)) with (io_irr s). rewrite Hi.
  rewrite (upd_ioapic_put d _ m1 _ Hm1). change (irq_eoi (ended s p)) with (irq_eoi s).
  set (st := ended s p <| irq_eoi := aset (irq_eoi s) p (aget (irq_eoi s) p + 1) |>).
  set (m2 := m1 <| ioapics := _ |>).
  assert (Hm2 : ioapics m2 !! d = Some st) by apply lookup_insert_eq.
  rewrite (lookup_total_io _ _ _ Hm2).
  assert (Hc : aget (irq_eoi st) p = aget (irq_eoi s) p + 1) by (apply aget_aset_eq; lia).
  rewrite Hc, (proj2 (Z.leb_gt _ _)) by done.
  destruct (ended_fires s st p Hlp) as (Ht2 & Hf2 & Ho2 & Hsv & Hge); [done..|].
  rewrite (service_one d m2 st p), Hge, Hsv by (done || lia).
  destruct (entry_clear (aget (ioredtbl s) p)) as [-> ->]. f_equal.
  subst m2 m1. cbn -[aget aset]. rewrite !insert_insert_eq. subst st. by destruct s, m.
Qed.

(** One I/O APIC's part of the broadcast, when only pin [p] uses the vector. *)
Lemma eoi_only d m m1 s s1 p v : ioapics m !! d = Some s -> 0 <= p < 24 ->
  (forall i, 0 <= i < 24 -> i <> p -> Z.land (aget (ioredtbl s) i) IOAPIC_VECTOR_MASK <> v) ->
  eoi_pin d v m p = m1 -> ioapics m1 !! d = Some s1 ->
  (forall i, 0 <= i < 24 -> i <> p -> aget (ioredtbl s1) i = aget (ioredtbl s) i) ->
  fold_left (eoi_pin d v) pins m = m1.
Proof.
  intros Hs Hp Hv E Hs1 Hsame. destruct (pins_split p Hp) as (l1 & l2 & -> & Hl).
  rewrite fold_left_app. cbn [fold_left].
  rewrite (eoi_skip_all d v m s l1 Hs) by (intros j Hj; apply Hv; apply Hl; by left).
  rewrite E. apply (eoi_skip_all d v m1 s1 l2 Hs1). intros j Hj.
  rewrite Hsame by (apply Hl; by right). apply Hv; apply Hl; by right.
Qed.

Lemma broadcast_single v m m1 s : ioapics m = {[0%nat := s]} ->
  fold_left (eoi_pin 0 v) pins m = m1 -> ioapics m1 !! 1%nat = None ->
  ioapic_eoi_broadcast v m = m1.
Proof.
  intros Hm E H1. unfold ioapic_eoi_broadcast. cbn [seq MAX_IOAPICS fold_left].
  rewrite Hm, lookup_singleton_eq, E. by rewrite H1.
Qed.

(** The Remote-IRR handshake, second half. When the EOI of a waiting
    level-triggered interrupt arrives, the entry stops waiting; if the line is still
    asserted the same message is sent exactly once more and the entry waits again,
    and if it was released nothing is sent. (Below the storm limit of 10000
    successive redeliveries; no other pin shares the vector.) *)
Theorem ioapic_eoi_redelivers m s p requested :
  ioapics m = {[0%nat := s]} -> level_pin s p requested true ->
  length (irq_eoi s) = 24%nat -> aget (irq_eoi s) p + 1 < SUCCESSIVE_IRQ_MAX_COUNT ->
  let e := aget (ioredtbl s) p in
  (forall i, 0 <= i < 24 -> i <> p ->
     Z.land (aget (ioredtbl s) i) IOAPIC_VECTOR_MASK <> Z.land e IOAPIC_VECTOR_MASK) ->
  ioapic_eoi_broadcast (Z.land e IOAPIC_VECTOR_MASK) m =
    if requested then
      stl_le_phys (entry_addr e) (entry_data e)
        (m <| ioapics := {[0%nat := s <| irq_eoi := aset (irq_eoi s) p (aget (irq_eoi s) p + 1) |>]} |>)
    else
      m <| ioapics := {[0%nat := s
             <| ioredtbl := aset (ioredtbl s) p (clr e IOAPIC_LVT_REMOTE_IRR) |>
             <| irq_eoi := aset (irq_eoi s) p 0 |>]} |>.
Proof.
  intros Hm Hlp Hlen Hmax. cbv zeta. intros Hu. pose proof (lp_range _ _ _ _ Hlp) as Hp.
  assert (Hs : ioapics m !! 0%nat = Some s) by (rewrite Hm; apply lookup_singleton_eq).
  destruct requested.
  - pose proof (eoi_high 0 m s p Hs Hlp Hlen Hmax) as E. rewrite Hm, insert_singleton_eq in E.
    set (m' := m <| ioapics := _ |>) in *.
    assert (Hio : ioapics (stl_le_phys (entry_addr (aget (ioredtbl s) p)) (entry_data (aget (ioredtbl s) p)) m')
      = ioapics m') by (apply ioapics_eq, sink_chips, entry_addr_plain, Hlp; lia).
    apply (broadcast_single _ m _ s Hm); [|rewrite Hio; by apply lookup_singleton_ne].
    eapply (eoi_only 0 m _ s _ p); [done|lia|done|done|rewrite Hio; apply lookup_singleton_eq|done].
  - pose proof (eoi_low 0 m s p Hs Hlp) as E. rewrite Hm, insert_singleton_eq in E.
    apply (broadcast_single _ m _ s Hm); [|by apply lookup_singleton_ne].
    eapply (eoi_only 0 m _ s _ p); [done|lia|done|done|apply lookup_singleton_eq|].
    intros i Hi Hne. apply aget_aset_ne; lia.
Qed.
End handshake.

(** ** Messages *)
Definition entry_offset (e : Z) : Z :=
  Z.land (Z.shiftr e 48) 0xffff * 16 + b2z (Z.testbit e 11) * 4.

Lemma land_low x n : 0 <= n -> 0 <= Z.land x (Z.ones n) < 2 ^ n.
Proof. intros Hn. rewrite Z.land_ones by done. apply Z.mod_pos_bound, Z.pow_pos_nonneg; lia. Qed.

Lemma b2z_range b : 0 <= b2z b <= 1.
Proof. destruct b; cbn; lia. Qed.

(** Every message address lies in the megabyte the local APICs decode. *)
Lemma entry_addr_offset e : entry_addr e = APIC_DEFAULT_ADDRESS + entry_offset e /\
  0 <= entry_offset e < 0x100000.
Proof.
  unfold entry_addr, entry_offset, IOAPIC_LVT_DEST_IDX_SHIFT, IOAPIC_LVT_DEST_MODE_SHIFT,
    MSI_ADDR_DEST_IDX_SHIFT, MSI_ADDR_DEST_MODE_SHIFT.
  rewrite shiftr_land1 by lia.
  pose proof (land_low (Z.shiftr e 48) 16 ltac:(lia)) as Hd. change (Z.ones 16) with 0xffff in Hd.
  set (x := Z.land (Z.shiftr e 48) 0xffff) in *.
  pose proof (b2z_range (Z.testbit e 11)) as Hb. set (y := b2z (Z.testbit e 11)) in *.
  clearbody x y. split; [|lia].
  rewrite <-Z.lor_assoc. change APIC_DEFAULT_ADDRESS with (Z.shiftl 0xfee 20).
  rewrite (Z.shiftl_mul_pow2 y 2) by lia. rewrite (lor_shiftl_add x (y * 2 ^ 2) 4) by lia.
  rewrite (lor_shiftl_add 0xfee) by lia. change (Z.shiftl 0xfee 20) with (0xfee * 2 ^ 20).
  rewrite wrap_small; [|unfold is_u]; lia.
Qed.

Lemma entry_data_val e :
  entry_data e = b2z (Z.testbit e 15) * 2 ^ 15 + Z.land (Z.shiftr e 8) 7 * 2 ^ 8 + Z.land e 0xff.
Proof.
  unfold entry_data, IOAPIC_VECTOR_MASK, IOAPIC_DM_MASK, MSI_DATA_VECTOR_SHIFT, MSI_DATA_TRIGGER_SHIFT,
    MSI_DATA_DELIVERY_MODE_SHIFT, IOAPIC_LVT_TRIGGER_MODE_SHIFT, IOAPIC_LVT_DELIV_MODE_SHIFT.
  rewrite shiftr_land1, Z.shiftl_0_r by lia.
  pose proof (land_low e 8 ltac:(lia)) as Hv. change (Z.ones 8) with 0xff in Hv.
  pose proof (land_low (Z.shiftr e 8) 3 ltac:(lia)) as Hd. change (Z.ones 3) with 7 in Hd.
  pose proof (b2z_range (Z.testbit e 15)) as Hb.
  set (v := Z.land e 0xff) in *. set (dm := Z.land (Z.shiftr e 8) 7) in *.
  set (y := b2z (Z.testbit e 15)) in *. clearbody v dm y.
  rewrite (Z.lor_comm v), <-Z.lor_assoc, (Z.lor_comm v), (lor_shiftl_add dm v 8) by lia.
  rewrite (lor_shiftl_add y _ 15) by lia. rewrite wrap_small; [|unfold is_u]; lia.
Qed.

Lemma land_ff_mod x : Z.land x 0xff = x mod 256.
Proof. change 0xff with (Z.ones 8). by rewrite Z.land_ones by lia. Qed.

(** The destination field of an entry and the reserved byte below it. *)
Definition entry_reserved (e : Z) : Z := Z.land (Z.shiftr e 48) 0xff.
Lemma entry_dest e : 0 <= e < 2 ^ 64 ->
  Z.land (Z.shiftr e 48) 0xffff = Z.shiftr e 56 * 256 + entry_reserved e /\ 0 <= Z.shiftr e 56 < 256 /\ 0 <= entry_reserved e < 256.
Proof.
  intros He. unfold entry_reserved. rewrite land_ff_mod. rewrite !Z.shiftr_div_pow2 in * by lia.
  assert (H1 : 0 <= e / 2 ^ 48 < 2 ^ 16)
    by (split; [apply Z.div_pos; lia|apply Z.div_lt_upper_bound; lia]).
  change 0xffff with (Z.ones 16). rewrite Z.land_ones, Z.mod_small by lia.
  change (2 ^ 56) with (2 ^ 48 * 256). rewrite <-Z.div_div by lia.
  pose proof (Z.div_mod (e / 2 ^ 48) 256 ltac:(lia)). pose proof (Z.mod_pos_bound (e / 2 ^ 48) 256). lia.
Qed.

(** Decoding the message of an entry: the reserved byte does not matter. *)
Lemma msi_decode e m : 0 <= e < 2 ^ 64 ->
  apic_send_msi (entry_addr e - APIC_DEFAULT_ADDRESS) (entry_data e) m =
  apic_deliver_irq (Z.shiftr e 56) (b2z (Z.testbit e 11)) (Z.land (Z.shiftr e 8) 7)
    (Z.land e 0xff) (b2z (Z.testbit e 15)) m.
Proof.
  intros He. unfold apic_send_msi.
  destruct (entry_addr_offset e) as [-> _]. rewrite entry_data_val.
  replace (APIC_DEFAULT_ADDRESS + entry_offset e - APIC_DEFAULT_ADDRESS) with (entry_offset e) by lia.
  destruct (entry_dest e He) as (Hidx & Hd & Hr). unfold entry_offset. rewrite Hidx. clear Hidx.
  generalize dependent (entry_reserved e). intros res Hr.
  pose proof (b2z_range (Z.testbit e 11)) as Hb. pose proof (b2z_range (Z.testbit e 15)) as Ht.
  pose proof (land_low e 8 ltac:(lia)) as Hv. change (Z.ones 8) with 0xff in Hv.
  pose proof (land_low (Z.shiftr e 8) 3 ltac:(lia)) as Hdm. change (Z.ones 3) with 7 in Hdm.
  generalize dependent (Z.shiftr e 56). intros dst Hd.
  generalize dependent (b2z (Z.testbit e 11)). intros dmode Hb.
  generalize dependent (b2z (Z.testbit e 15)). intros trig Ht.
  generalize dependent (Z.land e 0xff). intros v Hv.
  generalize dependent (Z.land (Z.shiftr e 8) 7). intros dm Hdm.
  rewrite Z.shiftr_land. change (Z.shiftr 0x000ff000 12) with 0xff.
  change 0x1 with (Z.ones 1). change 0x7 with (Z.ones 3). rewrite !land_ff_mod, !Z.land_ones by lia.
  rewrite !Z.shiftr_div_pow2 by lia. change (Z.ones 1) with 1.
  assert (E1 : ((dst * 256 + res) * 16 + dmode * 4) / 2 ^ 12 = dst)
    by (symmetry; apply (Z.div_unique_pos _ _ _ (res * 16 + dmode * 4)); lia).
  assert (E2 : ((dst * 256 + res) * 16 + dmode * 4) / 2 ^ 2 = dst * 1024 + res * 4 + dmode)
    by (symmetry; apply (Z.div_unique_pos _ _ _ 0); lia).
  assert (E3 : (trig * 2 ^ 15 + dm * 2 ^ 8 + v) / 2 ^ 15 = trig)
    by (symmetry; apply (Z.div_unique_pos _ _ _ (dm * 2 ^ 8 + v)); lia).
  assert (E4 : (trig * 2 ^ 15 + dm * 2 ^ 8 + v) / 2 ^ 8 = trig * 128 + dm)
    by (symmetry; apply (Z.div_unique_pos _ _ _ v); lia).
  rewrite E1, E2, E3, E4. f_equal.
  - rewrite (Z.mod_small dst) by lia. apply wrap_small. unfold is_u. lia.
  - symmetry. apply (Z.mod_unique_pos _ _ (dst * 512 + res * 2)); lia.
  - symmetry. apply (Z.mod_unique_pos _ _ (trig * 16)); lia.
  - rewrite wrap_small.
    + symmetry. apply (Z.mod_unique_pos _ _ (trig * 128 + dm)); lia.
    + unfold is_u. apply Z.mod_pos_bound. lia.
  - apply Z.mod_small. lia.
Qed.

(** An I/O APIC entry survives its trip through the MSI message: for a plain
    redirection entry, decoding the address and data that [ioapic_entry_parse]
    builds gives back exactly the entry's destination, destination mode, delivery
    mode, vector and trigger mode, whatever the local APICs then do with them. *)
Theorem ioapic_msi_roundtrip e m :
  0 <= e < 2 ^ 64 -> plain e ->
  let info := (ioapic_entry_parse e m).1 in
  apic_send_msi (addr info - APIC_DEFAULT_ADDRESS) (data info) m =
  apic_deliver_irq (Z.shiftr e 56) (b2z (Z.testbit e 11)) (Z.land (Z.shiftr e 8) 7)
    (Z.land e 0xff) (b2z (Z.testbit e 15)) m.
Proof.
  intros He Hp. rewrite parse_vectored by apply Hp. cbn [fst addr data]. by apply msi_decode.
Qed.

Definition ex_entry : Z := 0x0200000000008040.

Lemma ioapic_msi_roundtrip_witness :
  let info := (ioapic_entry_parse ex_entry (ex_machine 1)).1 in
  apic_send_msi (addr info - APIC_DEFAULT_ADDRESS) (data info) (ex_machine 1) =
  apic_deliver_irq 2 0 0 0x40 1 (ex_machine 1).
Proof. apply (ioapic_msi_roundtrip ex_entry (ex_machine 1)); [done|by split]. Defined.

(** ** Programming an entry *)
Lemma service_no_irr `{MsiSink} d m : io_irr (ioapics m !!! d) = 0 -> ioapic_service d m = m.
Proof.
  intros E. unfold ioapic_service. induction pins as [|i l IH]; [done|]. cbn [fold_left].
  unfold service_pin at 2. by rewrite E, Z.land_0_l.
Qed.

Lemma fix_edge_bits e i : 0 <= i ->
  Z.testbit (ioapic_fix_edge_remote_irr e) i =
  Z.testbit e i && (negb (i =? 14) || Z.testbit e 15).
Proof.
  intros Hi. unfold ioapic_fix_edge_remote_irr, IOAPIC_LVT_TRIGGER_MODE, IOAPIC_LVT_TRIGGER_MODE_SHIFT.
  rewrite nz_land_bit by lia. destruct (Z.testbit e 15) eqn:E; cbn [negb].
  - by rewrite orb_true_r, andb_true_r.
  - unfold IOAPIC_LVT_REMOTE_IRR, IOAPIC_LVT_REMOTE_IRR_SHIFT. rewrite testbit_clr by lia.
    by rewrite orb_false_r.
Qed.

Lemma u32_testbit_high x i : 0 <= x < 2 ^ 32 -> 32 <= i -> Z.testbit x i = false.
Proof. intros Hx Hi. apply (is_u_testbit_high 32); [done|lia]. Qed.

Lemma redtbl_write_low old val : 0 <= val < 2 ^ 32 ->
  Z.land (redtbl_write false old val) 0xffffffff =
  ioapic_fix_edge_remote_irr (Z.lor (clr val IOAPIC_RO_BITS) (Z.land old IOAPIC_RO_BITS)).
Proof.
  intros Hv. change 0xffffffff with (Z.ones 32). apply Z.bits_inj'. intros i Hi.
  assert (Hbit : forall j, 0 <= j < 32 ->
    Z.testbit (Z.lor (clr (u64 (Z.lor (clr old (Z.ones 32)) val)) IOAPIC_RO_BITS) (Z.land old IOAPIC_RO_BITS)) j =
    Z.testbit (Z.lor (clr val IOAPIC_RO_BITS) (Z.land old IOAPIC_RO_BITS)) j).
  { intros j Hj. rewrite !Z.lor_spec, !Z.land_spec, wrap_testbit by lia.
    rewrite Z.lor_spec, Z.land_spec, !Z.lnot_spec, Z.ones_spec_low by lia.
    rewrite (proj2 (Z.ltb_lt j 64)) by lia. cbn [negb]. by rewrite andb_false_r. }
  rewrite Z.land_spec. unfold redtbl_write. cbv zeta. change 0xffffffff with (Z.ones 32).
  rewrite !fix_edge_bits by done. destruct (Z.ltb_spec i 32).
  - rewrite Z.ones_spec_low, andb_true_r by lia. by rewrite !Hbit by lia.
  - rewrite Z.ones_spec_high, andb_false_r by lia. symmetry.
    rewrite Z.lor_spec, !Z.land_spec, (u32_testbit_high val) by lia.
    rewrite (u32_testbit_high IOAPIC_RO_BITS) by (done || lia). by rewrite andb_false_r.
Qed.

Lemma redtbl_write_high old val : 0 <= val < 2 ^ 32 ->
  u32 (Z.shiftr (redtbl_write true old val) 32) = val.
Proof.
  intros Hv. apply Z.bits_inj'. intros i Hi. rewrite wrap_testbit by lia.
  destruct (Z.ltb_spec i 32); [|by rewrite (u32_testbit_high val) by lia]. cbn [andb].
  rewrite Z.shiftr_spec by lia. unfold redtbl_write. cbv zeta. rewrite fix_edge_bits by lia.
  rewrite (proj2 (Z.eqb_neq (i + 32) 14)) by lia. cbn [negb orb]. rewrite andb_true_r.
  rewrite Z.lor_spec, !Z.land_spec, Z.lnot_spec, (u32_testbit_high IOAPIC_RO_BITS) by (done || lia).
  rewrite andb_false_r, orb_false_r. cbn [negb]. rewrite andb_true_r, wrap_testbit, Z.lor_spec by lia.
  rewrite Z.land_spec, (u32_testbit_high 0xffffffff), andb_false_r, Z.shiftl_spec by (done || lia).
  rewrite (proj2 (Z.ltb_lt (i + 32) 64)) by lia. cbn [orb andb]. f_equal. lia.
Qed.

(** The state of I/O APIC [d] after selecting a register and writing its window. *)
Lemma mem_write_select `{MsiSink} d m s sel : ioapics m !! d = Some s -> 0 <= sel < 256 ->
  ioapic_mem_write d 0 sel 1 m = m <| ioapics := <[d := s <| ioregsel := sel |>]> (ioapics m) |>.
Proof.
  intros Hs Hsel. unfold ioapic_mem_write. cbv zeta. cbn [Z.land Z.eqb IOAPIC_IOREGSEL].
  rewrite (upd_ioapic_put _ _ _ _ Hs). by rewrite wrap_small.
Qed.

Lemma mem_write_window `{MsiSink} d m s val : ioapics m !! d = Some s -> io_irr s = 0 ->
  0x10 <= ioregsel s < 0x40 ->
  let index := Z.shiftr (ioregsel s - IOAPIC_REG_REDTBL_BASE) 1 in
  ioapic_mem_write d 0x10 val 4 m =
  m <| ioapics := <[d := s <| ioredtbl := aset (ioredtbl s) index
                           (redtbl_write (nz (Z.land (ioregsel s) 1)) (aget (ioredtbl s) index) val) |>
                         <| irq_eoi := aset (irq_eoi s) index 0 |>]> (ioapics m) |>.
Proof.
  intros Hs Hi Hsel. cbv zeta. unfold ioapic_mem_write. cbv zeta. rewrite (lookup_total_io _ _ _ Hs).
  change (Z.land 0x10 0xff) with 0x10. cbn [Z.eqb Pos.eqb IOAPIC_IOREGSEL IOAPIC_IOWIN negb].
  unfold IOAPIC_REG_ID, IOAPIC_REG_VER, IOAPIC_REG_ARB, IOAPIC_REG_REDTBL_BASE, IOAPIC_NUM_PINS.
  rewrite (proj2 (Z.eqb_neq (ioregsel s) 0)), (proj2 (Z.eqb_neq (ioregsel s) 1)),
    (proj2 (Z.eqb_neq (ioregsel s) 2)) by lia. cbn [orb].
  assert (0 <= Z.shiftr (ioregsel s - 0x10) 1 < 24) as Hr.
  { rewrite Z.shiftr_div_pow2 by lia. change (2 ^ 1) with 2.
    split; [apply Z.div_pos; lia|apply Z.div_lt_upper_bound; lia]. }
  rewrite (proj2 (Z.leb_le 0 _)), (proj2 (Z.ltb_lt _ 24)) by lia. cbn [andb].
  rewrite (upd_ioapic_put _ _ _ _ Hs). apply service_no_irr.
  rewrite (lookup_total_io _ d _ (lookup_insert_eq _ _ _)). exact Hi.
Qed.

Lemma nz_land_1 x : nz (Z.land x 1) = Z.odd x.
Proof. rewrite <-Z.bit0_odd. exact (nz_land_bit x 0 ltac:(lia)). Qed.

(** Programming a redirection entry through the indirect registers round-trips:
    with no request pending, selecting any of the 48 entry registers, writing the
    window and reading it back returns the value written in the high half, and in
    the low half the value written with the two read-only bits (Remote IRR and
    delivery status) kept from before; Remote IRR is additionally dropped when the
    entry becomes edge-triggered. *)
Theorem ioapic_redtbl_roundtrip `{MsiSink} d m s sel val :
  ioapics m !! d = Some s -> length (ioredtbl s) = 24%nat -> io_irr s = 0 ->
  0x10 <= sel < 0x40 -> 0 <= val < 2 ^ 32 ->
  let old := aget (ioredtbl s) ((sel - 0x10) / 2) in
  ioapic_mem_read d 0x10 4 (ioapic_mem_write d 0x10 val 4 (ioapic_mem_write d 0 sel 1 m)) =
  if Z.odd sel then val
  else ioapic_fix_edge_remote_irr (Z.lor (clr val IOAPIC_RO_BITS) (Z.land old IOAPIC_RO_BITS)).
Proof.
  intros Hs Hl Hi Hsel Hv. cbv zeta. rewrite (mem_write_select d m s sel) by (done || lia).
  set (m1 := m <| ioapics := _ |>).
  assert (Hm1 : ioapics m1 !! d = Some (s <| ioregsel := sel |>)) by apply lookup_insert_eq. clearbody m1.
  rewrite (mem_write_window d m1 (s <| ioregsel := sel |>)) by (done || exact Hi).
  change (ioregsel (s <| ioregsel := sel |>)) with sel.
  change (ioredtbl (s <| ioregsel := sel |>)) with (ioredtbl s). unfold IOAPIC_REG_REDTBL_BASE.
  set (index := Z.shiftr (sel - 0x10) 1).
  assert (Hx : index = (sel - 0x10) / 2) by (subst index; rewrite Z.shiftr_div_pow2 by lia; done).
  assert (Hr : 0 <= index < 24)
    by (rewrite Hx; split; [apply Z.div_pos; lia|apply Z.div_lt_upper_bound; lia]).
  rewrite <-Hx. clear Hx. unfold ioapic_mem_read. cbv zeta.
  rewrite (lookup_total_io _ d _ (lookup_insert_eq _ _ _)).
  cbn -[aget aset redtbl_write Z.land Z.eqb u32 ioapic_fix_edge_remote_irr].
  change (Z.land 0x10 0xff) with 0x10. unfold IOAPIC_IOREGSEL, IOAPIC_IOWIN, IOAPIC_REG_ID, IOAPIC_REG_ARB,
    IOAPIC_REG_VER, IOAPIC_REG_REDTBL_BASE, IOAPIC_NUM_PINS. cbn [Z.eqb Pos.eqb negb].
  rewrite (proj2 (Z.eqb_neq sel 0)), (proj2 (Z.eqb_neq sel 1)), (proj2 (Z.eqb_neq sel 2)) by lia.
  cbn [orb]. fold index. rewrite (proj2 (Z.leb_le 0 index)), (proj2 (Z.ltb_lt index 24)) by lia. cbn [andb].
  rewrite aget_aset_eq, nz_land_1 by lia.
  destruct (Z.odd sel).
  - by apply redtbl_write_high.
  - by apply redtbl_write_low.
Qed.

(** An I/O APIC out of reset, version 0x20. *)
Definition ex_ioapic : IOAPICCommonState :=
  mkIOAPIC 0 0 0 (repeat 0x10000 24) 0x20 (repeat 0 24) (repeat 0 24) (repeat 0 24) None.

Definition ex_io_machine (s : IOAPICCommonState) : Machine :=
  (ex_machine 1) <| ioapics := {[0%nat := s]} |>.

(** Messages that go nowhere. *)
Definition null_sink : MsiSink := fun _ _ m => m.

Lemma ioapic_redtbl_roundtrip_witness :
  @ioapic_mem_read 0 0x10 4 (@ioapic_mem_write null_sink 0 0x10 0xd0a1 4
    (@ioapic_mem_write null_sink 0 0 0x14 1 (ex_io_machine ex_ioapic))) = 0x80a1.
Proof.
  rewrite (@ioapic_redtbl_roundtrip null_sink 0 (ex_io_machine ex_ioapic) ex_ioapic 0x14 0xd0a1);
    [vm_compute; reflexivity|reflexivity|reflexivity|reflexivity|lia|lia].
Defined.

(** ** Concrete states *)
#[export] Instance tidy_dec e : Decision (tidy e).
Proof. unfold tidy. apply _. Defined.
#[export] Instance plain_dec e : Decision (plain e).
Proof. unfold plain, vectored. apply _. Defined.

Lemma all_pins (P : Z -> Prop) `{forall i, Decision (P i)} :
  bool_decide (Forall P pins) = true -> forall i, 0 <= i < 24 -> P i.
Proof.
  intros Hb%bool_decide_eq_true_1 i Hi. rewrite list.Forall_forall in Hb. apply Hb, elem_of_seqZ. lia.
Qed.

#[export] Instance null_sink_ok : @MsiSinkOk null_sink.
Proof. by split. Qed.

(** Pin 5 is level-triggered with vector 0x41; [req] and [wait] are its request bit
    and its Remote IRR. *)
Definition ex_level (req wait : bool) : IOAPICCommonState :=
  ex_ioapic <| ioredtbl := aset (repeat 0x10000 24) 5 (0x8041 + if wait then 0x4000 else 0) |>
            <| io_irr := if req then 32 else 0 |>.

Lemma ex_level_pin req wait : (req = true -> wait = true) -> level_pin (ex_level req wait) 5 req wait.
Proof.
  intros Hrw. assert (req = false \/ wait = true) as Hc by (destruct req, wait; auto; specialize (Hrw eq_refl); done).
  constructor; try (destruct req, wait; done).
  - split; [by destruct wait|]. apply (all_pins (fun i => plain (aget (ioredtbl (ex_level req wait)) i))).
    destruct req, wait; by vm_compute.
  - unfold settled. apply (all_pins (fun i => fires (ex_level req wait) i = false)).
    destruct req, wait; destruct Hc; try discriminate; by vm_compute.
Qed.

Lemma ioapic_level_handshake_witness : exists s1,
  @ioapic_set_irq null_sink 0 5 1 (ex_io_machine (ex_level false false)) =
    ex_io_machine (ex_level false false) <| ioapics := {[0%nat := s1]} |> /\
  level_pin s1 5 true true.
Proof.
  destruct (@ioapic_level_handshake null_sink null_sink_ok 0 (ex_io_machine (ex_level false false))
    (ex_level false false) 5) as (s1 & E & Hp & _); [reflexivity|apply ex_level_pin; done|].
  exists s1. split; [|exact Hp]. rewrite E. reflexivity.
Defined.

Lemma ioapic_eoi_redelivers_witness :
  @ioapic_eoi_broadcast null_sink 0x41 (ex_io_machine (ex_level true true)) =
  ex_io_machine (ex_level true true) <| ioapics :=
    {[0%nat := ex_level true true <| irq_eoi := aset (repeat 0 24) 5 1 |>]} |>.
Proof.
  apply (@ioapic_eoi_redelivers null_sink null_sink_ok (ex_io_machine (ex_level true true))
    (ex_level true true) 5 true); [reflexivity|by apply ex_level_pin|reflexivity|reflexivity|].
  intros i Hi Hne. destruct (decide (i = 5)); [done|].
  apply (all_pins (fun i => i = 5 \/ Z.land (aget (ioredtbl (ex_level true true)) i) IOAPIC_VECTOR_MASK <> 0x41))
    in Hi; [|by vm_compute]. by destruct Hi.
Defined.

(** Pin 3 takes its vector from the 8259; pin 5 is unmasked by the run. *)
Definition ex_extint : IOAPICCommonState := ex_ioapic <| ioredtbl := aset (repeat 0x10000 24) 3 0x700 |>.

Lemma write_tidy d a val size m s : ioapics m !! d = Some s ->
  bool_decide (tidy (redtbl_write (nz (Z.land (ioregsel s) 1)) (aget (ioredtbl s) (Z.shiftr (ioregsel s - IOAPIC_REG_REDTBL_BASE) 1)) val)) = true ->
  io_op_ok (IoWrite d a val size) m.
Proof. intros Hs Hb%bool_decide_eq_true_1 s' Hs'. cbv zeta. intros _. by assert (s' = s) as -> by congruence. Qed.

Lemma ioapic_never_strands_witness :
  io_good (@io_run null_sink [IoSet 0 3 1; IoWrite 0 0 0x1a 4; IoWrite 0 0x10 0x8041 4; IoSet 0 5 1; IoEoi 0x41] (ex_io_machine ex_extint)).
Proof.
  apply (@ioapic_never_strands null_sink null_sink_ok).
  - cbn [io_run_ok]. split; [cbn [io_op_ok]; lia|]. split; [eapply write_tidy; [vm_compute; reflexivity|vm_compute; reflexivity]|]. split; [eapply write_tidy; [vm_compute; reflexivity|vm_compute; reflexivity]|].
    split; [cbn [io_op_ok]; lia|]. split; exact I.
  - intros k s Hk. change (({[0%nat := ex_extint]} : gmap nat _) !! k = Some s) in Hk. apply lookup_singleton_Some in Hk as [_ <-]. split.
    + split; [done|]. apply (all_pins (fun i => tidy (aget (ioredtbl ex_extint) i))). by vm_compute.
    + left. unfold settled. apply (all_pins (fun i => fires ex_extint i = false)). by vm_compute.
Defined.


Section masked.
  Context `{MsiSink}.


End masked.

