(* ===== verification/System.v ===== *)
(** * The interrupt controllers together

    The store that carries an interrupt message reaches the local APICs
    ([apic_mem_write]), and the end of a level-triggered interrupt reaches the I/O
    APICs ([ioapic_eoi_broadcast]): the two call each other. The recursion is bounded
    here by a depth; [message_depth] shows that with entries of the documented format
    a message never recurses, so every depth gives the same machine. *)
From S2P Require Import Prelude Cpu Pic Machine Apic ApicFacts ApicBus Wiring Ioapic IoapicFacts.
Import Machine.Apic.

Definition APIC_SPACE_SIZE : Z := 0x100000.

(** [stl_le_phys]: the megabyte of the local APICs, memory elsewhere. *)
Fixpoint sys_stl (n : nat) (a v : Z) (m : Machine) : Machine :=
  if (APIC_DEFAULT_ADDRESS <=? a) && (a <? APIC_DEFAULT_ADDRESS + APIC_SPACE_SIZE) then
    let eoi : EoiSink := match n with
                         | O => fun _ m => m
                         | S n' => @ioapic_eoi_broadcast (sys_stl n')
                         end in
    @apic_mem_write eoi (a - APIC_DEFAULT_ADDRESS) v 4 m
  else m <| mem := st 4 a v (mem m) |>.

Definition sys_msi (n : nat) : MsiSink := sys_stl n.
Definition sys_eoi (n : nat) : EoiSink := @ioapic_eoi_broadcast (sys_msi n).

(** ** Messages do not recurse *)
Definition in_window (a : Z) : Prop :=
  APIC_DEFAULT_ADDRESS <= a < APIC_DEFAULT_ADDRESS + APIC_SPACE_SIZE.

Lemma window_land a : Z.land (a - APIC_DEFAULT_ADDRESS) 0xff0 = Z.land a 0xff0.
Proof.
  assert (E : forall x, Z.land x 0xff0 = Z.land (x mod 2 ^ 20) 0xff0).
  { intros x. rewrite <-(Z.land_ones x 20), <-Z.land_assoc by lia. done. }
  rewrite E, (E a). f_equal. unfold APIC_DEFAULT_ADDRESS.
  replace (a - 0xfee00000) with (a + (-0xfee) * 2 ^ 20) by lia. apply Z.mod_add. lia.
Qed.

(** A store with bits 4 to 11 clear is an interrupt message at every depth. *)
Lemma sys_stl_message n a v m : Z.land a 0xff0 = 0 -> in_window a ->
  sys_stl n a v m = apic_send_msi (a - APIC_DEFAULT_ADDRESS) (u32 v) m.
Proof.
  intros Ha [H1 H2]. destruct n as [|n]; cbn [sys_stl];
    rewrite (proj2 (Z.leb_le _ _) H1), (proj2 (Z.ltb_lt _ _) H2); cbn [andb];
    unfold apic_mem_write; cbv zeta; cbn [Z.ltb Z.compare Pos.compare Pos.compare_cont].
  all: assert (E : Z.land (Z.shiftr (a - APIC_DEFAULT_ADDRESS) 4) 0xff = 0)
    by (change 0xff with (Z.shiftr 0xff0 4); rewrite <-Z.shiftr_land, window_land, Ha; done).
  all: rewrite E, orb_true_r; done.
Qed.

Lemma chips_bus_deliver mask dm v t m : chips (apic_bus_deliver mask dm v t m) = chips m.
Proof.
  unfold apic_bus_deliver. cbv zeta.
  repeat lazymatch goal with |- chips (if ?c then _ else _) = _ => destruct c end; try reflexivity.
  - apply chips_set_irq.
  - apply chips_fold. intros m' k. destruct (apic_get_bit _ _); [|done]. by destruct (local_apics m' !! k).
  - apply chips_fold. intros m' k. destruct (apic_get_bit _ _); [|done]. by destruct (local_apics m' !! k).
  - apply chips_fold. intros m' k. destruct (apic_get_bit _ _); [|done]. by destruct (local_apics m' !! k).
  - apply chips_fold. intros m' k. destruct (apic_get_bit _ _); [|done].
    destruct (local_apics m' !! k); [apply chips_set_irq|done].
Qed.

Lemma ioapics_send_msi a v m : ioapics (apic_send_msi a v m) = ioapics m.
Proof. apply ioapics_eq, chips_bus_deliver. Qed.

Lemma sys_msi_chips n a v m : Z.land a 0xff0 = 0 -> chips (sys_stl n a v m) = chips m.
Proof.
  intros Ha. destruct (decide (in_window a)) as [Hw|Hw].
  - rewrite sys_stl_message by done. apply chips_bus_deliver.
  - assert (E : (APIC_DEFAULT_ADDRESS <=? a) && (a <? APIC_DEFAULT_ADDRESS + APIC_SPACE_SIZE) = false).
    { apply andb_false_iff. rewrite Z.leb_gt, Z.ltb_ge. unfold in_window in Hw. lia. }
    destruct n; cbn [sys_stl]; by rewrite E.
Qed.

#[export] Instance sys_msi_ok n : @MsiSinkOk (sys_msi n).
Proof. split. intros a v m Ha. by apply (sys_msi_chips n). Qed.

Definition tables (m : Machine) : Prop := map_Forall (fun _ s => table_ok s) (ioapics m).

Lemma tables_put d s m : tables m -> table_ok s -> tables (m <| ioapics := <[d := s]> (ioapics m) |>).
Proof. intros Hm Hs. by apply map_Forall_insert_2. Qed.

Lemma tables_upd d f m : tables m -> (forall s, table_ok s -> table_ok (f s)) ->
  tables (upd_ioapic d f m).
Proof.
  intros Hm Hf k s. rewrite lookup_upd_ioapic. case_decide; [|by apply Hm].
  destruct (ioapics m !! k) as [s0|] eqn:E; [|done]. intros [= <-]. by apply Hf, (Hm k).
Qed.

Lemma entry_in_window e : in_window (entry_addr e).
Proof. destruct (entry_addr_offset e) as [-> H]. unfold in_window, APIC_SPACE_SIZE. lia. Qed.

Lemma pin_absent `{MsiSink} d m i : ioapics m !! d = None -> service_pin d m i = m.
Proof.
  intros E. unfold service_pin. rewrite lookup_total_alt, E. cbn [default ioapic_inhabited].
  by rewrite Z.land_0_l.
Qed.

Lemma service_pin_depth n d m i : tables m -> 0 <= i < 24 ->
  @service_pin (sys_msi n) d m i = @service_pin (sys_msi 0) d m i /\
  tables (@service_pin (sys_msi 0) d m i).
Proof.
  intros Hm Hi. destruct (ioapics m !! d) as [s|] eqn:Hs; [|by rewrite !pin_absent].
  pose proof (Hm d s Hs) as Ht. pose proof (tb_entry s Ht i Hi) as Hp.
  rewrite !(service_pin_eq d m s i) by (done || apply Hp). cbv zeta.
  pose proof (tables_put d _ m Hm (served_table s i Ht Hi)) as Hm'.
  generalize dependent (m <| ioapics := <[d := served s i]> (ioapics m) |>). intros m' Hm'.
  destruct (fires s i); [|done]. unfold stl_le_phys, sys_msi.
  rewrite !sys_stl_message by (apply entry_in_window || by apply entry_addr_plain). split; [done|].
  unfold tables. by rewrite ioapics_send_msi.
Qed.

Lemma service_depth n d m : tables m ->
  @ioapic_service (sys_msi n) d m = @ioapic_service (sys_msi 0) d m /\
  tables (@ioapic_service (sys_msi 0) d m).
Proof.
  unfold ioapic_service. pose proof pins_ok as Hl. revert m.
  induction Hl as [|i l Hi Hl IH]; intros m Hm; cbn [fold_left]; [done|].
  destruct (service_pin_depth n d m i Hm Hi) as [-> Hm']. by apply IH.
Qed.

Lemma eoi_pin_depth n d v m i : tables m -> 0 <= i < 24 ->
  @eoi_pin (sys_msi n) d v m i = @eoi_pin (sys_msi 0) d v m i /\
  tables (@eoi_pin (sys_msi 0) d v m i).
Proof.
  intros Hm Hi. unfold eoi_pin. cbv zeta. case_if; [done|]. case_if; [done|].
  destruct (ioapics m !! d) as [s|] eqn:Es.
  2:{ rewrite lookup_total_alt, Es in Heqb0. cbn in Heqb0. unfold aget in Heqb0.
      by destruct (Z.to_nat i). }
  rewrite (lookup_total_io _ _ _ Es). pose proof (Hm d s Es) as Ht.
  set (m1 := upd_ioapic d _ m).
  assert (Hm1 : tables m1).
  { apply tables_upd; [done|]. intros s1 H1. apply entries_aset; [done|by apply remote_clear, Ht|lia]. }
  clearbody m1.
  assert (Hupd : forall f, (forall s, ioredtbl (f s) = ioredtbl s) -> forall m, tables m -> tables (upd_ioapic d f m)).
  { intros f Hf m0 Hm0. apply tables_upd; [done|]. intros s1. by apply table_ext. }
  case_if; [|by split; [|apply Hupd]].
  set (m2 := upd_ioapic d _ m1). assert (Hm2 : tables m2) by (by apply Hupd). clearbody m2.
  case_if; [by split; [|apply Hupd]|]. by apply service_depth.
Qed.

(** With plain tables the broadcast is the same at every depth, and leaves plain
    tables. *)
Lemma broadcast_depth n v m : tables m ->
  @ioapic_eoi_broadcast (sys_msi n) v m = @ioapic_eoi_broadcast (sys_msi 0) v m /\
  tables (@ioapic_eoi_broadcast (sys_msi 0) v m).
Proof.
  unfold ioapic_eoi_broadcast. generalize (seq 0 MAX_IOAPICS) as ds. intros ds. revert m.
  induction ds as [|d ds IH]; intros m Hm; cbn [fold_left]; [done|].
  destruct (ioapics m !! d) as [s|]; [|by apply IH].
  assert (H : forall l m, in_pins l -> tables m ->
    fold_left (@eoi_pin (sys_msi n) d v) l m = fold_left (@eoi_pin (sys_msi 0) d v) l m /\
    tables (fold_left (@eoi_pin (sys_msi 0) d v) l m)).
  { clear IH m Hm s. intros l m Hl. revert m.
    induction Hl as [|i l Hi Hl IH]; intros m Hm; cbn [fold_left]; [done|].
    destruct (eoi_pin_depth n d v m i Hm Hi) as [-> Hm']. by apply IH. }
  destruct (H pins m pins_ok Hm) as [-> Hm']. by apply IH.
Qed.

(** ** What a local APIC sees of the broadcast *)
Definition framed (d : nat) (s : APICCommonState) (m : Machine) : Prop :=
  exists s', local_apics m !! d = Some s' /\ apic_wf s' /\ apic_frame s s'.

Lemma sync_other k d t m : k <> d -> local_apics (apic_sync_vapic k t m) !! d = local_apics m !! d.
Proof.
  intros Hne. unfold apic_sync_vapic. cbv zeta. case_if; [done|].
  destruct (nz (Z.land t SYNC_FROM_VAPIC)).
  - rewrite <-(lookup_upd_apic_ne k d (fun s => s <| tpr := ldb (mem m) (vapic_paddr s) |>) m Hne).
    by case_if.
  - by case_if.
Qed.

Lemma set_irq_other k d v t m : k <> d -> local_apics (apic_set_irq k v t m) !! d = local_apics m !! d.
Proof.
  intros Hne. unfold apic_set_irq. cbv zeta. rewrite apics_update_irq.
  set (m1 := upd_apic k _ _).
  assert (E : local_apics m1 !! d = local_apics m !! d) by (subst m1; by rewrite lookup_upd_apic_ne).
  clearbody m1. rewrite <-E. case_if; [|done]. by rewrite !sync_other.
Qed.

Lemma framed_set_irq k d v t s m : vapic_paddr s = 0 -> 0 <= v < 256 -> framed d s m ->
  framed d s (apic_set_irq k v t m).
Proof.
  intros Hv Hr (s' & Hs' & Hwf & F1 & F2 & F3 & F4). unfold framed.
  destruct (decide (k = d)) as [->|Hne]; [|rewrite set_irq_other by done; by exists s'].
  rewrite (set_irq_apics d v t s' m) by congruence. eexists. split; [done|]. split.
  - revert Hwf. generalize s'. wf_fields. case_if; [by apply tab_wf_set|by apply tab_wf_reset].
  - split_and!; try done. cbn -[vset]. rewrite vset_set by (done || apply Hwf).
    etransitivity; [exact F4|]. apply union_subseteq_l.
Qed.

Lemma framed_fold d s (f : Machine -> nat -> Machine) l m :
  (forall m k, framed d s m -> framed d s (f m k)) -> framed d s m -> framed d s (fold_left f l m).
Proof. intros Hf. revert m. induction l as [|k l IH]; intros m Hm; cbn [fold_left]; auto. Qed.

Lemma framed_bus mask dm v t d s m : vapic_paddr s = 0 -> 0 <= v < 256 -> framed d s m ->
  framed d s (apic_bus_deliver mask dm v t m).
Proof.
  intros Hv Hr Hm. unfold apic_bus_deliver. cbv zeta.
  repeat lazymatch goal with |- framed d s (if ?c then _ else _) => destruct c end; try exact Hm.
  - by apply framed_set_irq.
  - apply framed_fold; [|done]. intros m' k H'. destruct (apic_get_bit _ _), (local_apics m' !! k); exact H'.
  - apply framed_fold; [|done]. intros m' k H'. destruct (apic_get_bit _ _), (local_apics m' !! k); exact H'.
  - apply framed_fold; [|done]. intros m' k H'. destruct (apic_get_bit _ _), (local_apics m' !! k); exact H'.
  - apply framed_fold; [|done]. intros m' k H'. destruct (apic_get_bit _ _); [|exact H'].
    destruct (local_apics m' !! k); [by apply framed_set_irq|exact H'].
Qed.

Section framed_io.
  Context (n : nat) (d : nat) (s : APICCommonState) (Hv : vapic_paddr s = 0).

Lemma framed_pin k m i : tables m -> 0 <= i < 24 -> framed d s m ->
  framed d s (@service_pin (sys_msi 0) k m i).
Proof.
  intros Hm Hi Hf. destruct (ioapics m !! k) as [sk|] eqn:Hk; [|by rewrite pin_absent].
  pose proof (tb_entry sk (Hm k sk Hk) i Hi) as Hp.
  rewrite (service_pin_eq k m sk i) by (done || apply Hp). cbv zeta.
  assert (Hf' : framed d s (m <| ioapics := <[k := served sk i]> (ioapics m) |>)) by exact Hf.
  generalize dependent (m <| ioapics := <[k := served sk i]> (ioapics m) |>). intros m' Hf'.
  destruct (fires sk i); [|exact Hf']. unfold stl_le_phys, sys_msi.
  rewrite sys_stl_message by (apply entry_in_window || by apply entry_addr_plain).
  apply framed_bus; [done|apply u8_range|done].
Qed.

Lemma framed_service k m : tables m -> framed d s m -> framed d s (@ioapic_service (sys_msi 0) k m).
Proof.
  unfold ioapic_service. pose proof pins_ok as Hl. revert m.
  induction Hl as [|i l Hi Hl IH]; intros m Hm Hf; cbn [fold_left]; [done|].
  apply IH; [by apply (service_pin_depth 0)|by apply framed_pin].
Qed.

Lemma framed_eoi_pin k v m i : tables m -> 0 <= i < 24 -> framed d s m ->
  framed d s (@eoi_pin (sys_msi 0) k v m i).
Proof.
  intros Hm Hi Hf. unfold eoi_pin. cbv zeta.
  repeat lazymatch goal with |- framed d s (if ?c then _ else _) => destruct c end; try exact Hf.
  destruct (ioapics m !! k) as [sk|] eqn:Hk.
  - apply framed_service; [|exact Hf]. apply tables_upd; [apply tables_upd; [done|]|].
    + intros s1 H1. apply entries_aset; [done| |lia]. apply remote_clear.
      rewrite (lookup_total_io _ _ _ Hk). apply (Hm k sk Hk). lia.
    + intros s1. by apply table_ext.
  - rewrite service_absent; [exact Hf|]. rewrite !lookup_upd_ioapic, !decide_True by done.
    rewrite Hk. done.
Qed.

Lemma framed_broadcast v m : tables m -> framed d s m ->
  framed d s (@ioapic_eoi_broadcast (sys_msi 0) v m).
Proof.
  unfold ioapic_eoi_broadcast. generalize (seq 0 MAX_IOAPICS) as ks. intros ks. revert m.
  induction ks as [|k ks IH]; intros m Hm Hf; cbn [fold_left]; [done|].
  destruct (ioapics m !! k) as [sk|]; [|by apply IH]. clear sk.
  assert (H : forall l m, in_pins l -> tables m -> framed d s m ->
    tables (fold_left (@eoi_pin (sys_msi 0) k v) l m) /\
    framed d s (fold_left (@eoi_pin (sys_msi 0) k v) l m)).
  { clear IH m Hm Hf. intros l m Hl. revert m.
    induction Hl as [|i l Hi Hl IH]; intros m Hm Hf; cbn [fold_left]; [done|].
    apply IH; [by apply (eoi_pin_depth 0)|by apply framed_eoi_pin]. }
  destruct (H pins m pins_ok Hm Hf). by apply IH.
Qed.
End framed_io.

(** The real I/O APICs satisfy what the local APICs rely on. *)
#[export] Instance sys_eoi_ok n : @EoiSinkOk tables (sys_eoi n).
Proof.
  split; [done|]. intros v m d s Hm Hs Hwf Hv. unfold Apic.ioapic_eoi_broadcast, sys_eoi.
  destruct (broadcast_depth n v m Hm) as [-> _].
  destruct (framed_broadcast d s Hv v m Hm) as (s' & H1 & _ & H2); [|by exists s'].
  exists s. split; [done|]. split; [done|]. by repeat split.
Qed.

(** ** The invariant of the local APICs through the whole system *)
Lemma keeps_pic_irq_request l : keeps (pic_irq_request l).
Proof.
  intros m Hm. unfold pic_irq_request. destruct (cpu_slots m) as [|f ks]; [done|].
  repeat wf_step; [|done]. generalize (f :: ks) as l0. intros l0. revert m Hm.
  induction l0 as [|k l0 IH]; intros m Hm; cbn [fold_left]; [done|]. apply IH.
  destruct (_ && _); [by apply keeps_deliver_pic_intr|done].
Qed.

Lemma keeps_stat i l : keeps (stat_update i l).
Proof. intros m Hm. unfold stat_update. cbv zeta. by case_ifs. Qed.

Lemma keeps_master_update : keeps (@pic_update_irq Machine master_world).
Proof. intros m Hm. unfold pic_update_irq. cbv zeta. case_if; by apply keeps_pic_irq_request. Qed.

Lemma keeps_master_set n l : keeps (@pic_set_irq Machine master_world n l).
Proof.
  intros m Hm. unfold pic_set_irq. cbv zeta. apply keeps_master_update.
  change (machine_wf (stat_update (if master (pic_master m) then n else n + 8) l m)). by apply keeps_stat.
Qed.

Lemma keeps_master_ack n : keeps (@pic_intack Machine master_world n).
Proof. intros m Hm. by apply keeps_master_update. Qed.

Lemma keeps_slave_update : keeps (@pic_update_irq Machine slave_world).
Proof. intros m Hm. unfold pic_update_irq. cbv zeta. case_if; by apply keeps_master_set. Qed.

Lemma keeps_slave_set n l : keeps (@pic_set_irq Machine slave_world n l).
Proof.
  intros m Hm. unfold pic_set_irq. cbv zeta. apply keeps_slave_update.
  change (machine_wf (stat_update (if master (pic_slave m) then n else n + 8) l m)). by apply keeps_stat.
Qed.

Lemma keeps_slave_ack n : keeps (@pic_intack Machine slave_world n).
Proof. intros m Hm. by apply keeps_slave_update. Qed.

Lemma read_irq_wf m : machine_wf m -> machine_wf (pic_read_irq m).2.
Proof.
  intros Hm. unfold pic_read_irq. cbv zeta. case_if; [|done].
  case_if; cbn [snd]; [|by apply keeps_master_ack].
  case_if; cbn [snd]; apply keeps_master_ack; [by apply keeps_slave_ack|done].
Qed.

Lemma parse_wf e m : machine_wf m -> machine_wf (ioapic_entry_parse e m).2.
Proof.
  intros Hm. unfold ioapic_entry_parse. cbv zeta. pose proof (read_irq_wf m Hm) as H1.
  destruct (_ =? IOAPIC_DM_EXTINT); [|done]. by destruct (pic_read_irq m).
Qed.

Section keeps_io.
  Context (sink : MsiSink) (Hsink : forall a v, keeps (sink a v)).

Lemma keeps_pin d i : keeps (fun m => @service_pin sink d m i).
Proof.
  intros m Hm. unfold service_pin. cbv zeta. case_if; [|done].
  pose proof (parse_wf (aget (ioredtbl (ioapics m !!! d)) i) m Hm) as H1.
  destruct (ioapic_entry_parse _ m) as [info m1]. cbn [snd] in H1.
  case_if; [|done]. case_if; cbv zeta; [by apply Hsink|]. case_if; [done|by apply Hsink].
Qed.

Lemma keeps_service d : keeps (@ioapic_service sink d).
Proof.
  unfold ioapic_service. intros m. revert m. induction pins as [|i l IH]; intros m Hm; cbn [fold_left]; [done|].
  by apply IH, (keeps_pin d i).
Qed.

Lemma keeps_eoi_pin d v i : keeps (fun m => @eoi_pin sink d v m i).
Proof.
  intros m Hm. unfold eoi_pin. cbv zeta.
  repeat lazymatch goal with |- machine_wf (if ?c then _ else _) => destruct c end; try exact Hm.
  apply keeps_service. exact Hm.
Qed.

Lemma keeps_broadcast v : keeps (@ioapic_eoi_broadcast sink v).
Proof.
  intros m. unfold ioapic_eoi_broadcast. generalize (seq 0 MAX_IOAPICS) as ds. intros ds. revert m.
  induction ds as [|d ds IH]; intros m Hm; cbn [fold_left]; [done|]. apply IH. clear IH.
  destruct (ioapics m !! d); [|done]. revert m Hm.
  induction pins as [|i0 l IH]; intros m Hm; cbn [fold_left]; [done|]. by apply IH, (keeps_eoi_pin d v i0).
Qed.
End keeps_io.

Lemma st_bytes k a v mm : map_Forall (fun _ b => is_u 8 b) mm ->
  map_Forall (fun _ b => is_u 8 b) (st k a v mm).
Proof.
  revert a v mm. induction k as [|k IH]; intros a v mm Hm; cbn [st]; [done|].
  apply IH, map_Forall_insert_2; [|done]. unfold is_u. apply Z.mod_pos_bound. lia.
Qed.

Lemma keeps_sys_stl n a v : keeps (sys_stl n a v).
Proof.
  revert a v. induction n as [|n IH]; intros a v m Hm; cbn [sys_stl]; cbv zeta.
  all: destruct (_ && _); [|apply wf_set_mem; [done|apply st_bytes, Hm]].
  - apply (@keeps_mem_write _ no_ioapic_keeps); done.
  - apply (@keeps_mem_write (@ioapic_eoi_broadcast (sys_stl n))); [|done].
    intros x m1 Hm1. by apply keeps_broadcast.
Qed.

#[export] Instance sys_eoi_keeps n : @EoiKeeps (sys_eoi n).
Proof. intros v m Hm. apply keeps_broadcast; [|done]. intros a x. apply (keeps_sys_stl n). Qed.

(** ** Claims *)
Lemma eoi_depth n d m : tables m -> @apic_eoi (sys_eoi n) d m = @apic_eoi (sys_eoi 0) d m.
Proof.
  intros Hm. unfold apic_eoi. cbv zeta. case_if; [done|]. case_if; [|done].
  unfold Apic.ioapic_eoi_broadcast, sys_eoi. by rewrite (proj1 (broadcast_depth n _ (upd_apic d _ m) Hm)).
Qed.

(** The mutual recursion of the controllers is bounded. The local APIC ends an
    interrupt by calling the I/O APIC, which may send a message, a store that reaches
    the local APIC again. As long as the redirection entries have the documented
    format, that store is a message and never another register access, so a register
    write gives the same machine at every recursion depth: depth 0, one broadcast with
    no nested one, is enough. *)
Theorem apic_write_depth n a v size m :
  tables m -> @apic_mem_write (sys_eoi n) a v size m = @apic_mem_write (sys_eoi 0) a v size m.
Proof.
  intros Hm. unfold apic_mem_write. cbv zeta. case_if; [done|]. case_if; [done|].
  destruct (cpu_get_current_apic m) as [d|]; [|done]. unfold apic_reg_write.
  repeat lazymatch goal with
  | |- (if ?c then ?x else _) = (if ?c then ?x else _) => destruct c; [reflexivity|]
  | |- (if ?c then apic_eoi d m else _) = _ => destruct c; [by apply eoi_depth|]
  end. done.
Qed.

Lemma tables_single s m : ioapics m = {[0%nat := s]} -> table_ok s -> tables m.
Proof. intros E Hs k s' Hk. rewrite E in Hk. apply lookup_singleton_Some in Hk as [_ <-]. done. Qed.

Lemma apic_write_depth_witness :
  @apic_mem_write (sys_eoi 3) 0xb0 0 4 (ex_io_machine (ex_level true true)) =
  @apic_mem_write (sys_eoi 0) 0xb0 0 4 (ex_io_machine (ex_level true true)).
Proof.
  apply (apic_write_depth 3). apply (tables_single (ex_level true true)); [reflexivity|].
  by destruct (ex_level_pin true true).
Defined.

(** An edge-triggered, unmasked, fixed-mode pin in an otherwise quiet I/O APIC. *)
Record edge_pin (s : IOAPICCommonState) (p : Z) : Prop := {
  ep_table : table_ok s;
  ep_settled : settled s;
  ep_edge : is_level (aget (ioredtbl s) p) = false;
  ep_masked : is_masked (aget (ioredtbl s) p) = false;
  ep_fixed : Z.land (Z.shiftr (aget (ioredtbl s) p) 8) 7 = APIC_DM_FIXED;
  ep_word : 0 <= aget (ioredtbl s) p < 2 ^ 64;
}.

(** The pin of a line: line 0 is wired to pin 2. *)
Definition gsi_pin (p : Z) : Z := if p =? 0 then 2 else p.

(** Asserting such a pin sends its message, whatever the sink. *)
Lemma set_irq_edge `{MsiSinkOk} d m s p0 : ioapics m !! d = Some s -> 0 <= p0 < 24 -> let p := gsi_pin p0 in edge_pin s p ->
  exists s1, ioapic_set_irq d p0 1 m =
    stl_le_phys (entry_addr (aget (ioredtbl s) p)) (entry_data (aget (ioredtbl s) p))
      (m <| ioapics := <[d := s1]> (ioapics m) |>).
Proof.
  intros Hs Hp0 p [Ht Hset He Hm _ _]. unfold ioapic_set_irq. cbv zeta. change (if p0 =? 0 then 2 else p0) with p. assert (Hp : 0 < p < 24) by (unfold p, gsi_pin; case_if; lia).
  rewrite (upd_ioapic_put _ _ _ _ Hs). destruct (stat_same p0 1 s) as [E1 E2].
  generalize dependent (ioapic_stat_update_irq p0 1 s). intros st E1 E2. clearbody p.
  set (m1 := m <| ioapics := <[d := st]> (ioapics m) |>).
  assert (Hm1 : ioapics m1 !! d = Some st) by apply lookup_insert_eq.
  rewrite (proj2 (Z.ltb_lt p IOAPIC_NUM_PINS)) by (unfold IOAPIC_NUM_PINS; lia).
  rewrite (lookup_total_io _ _ _ Hm1), E1.
  unfold IOAPIC_LVT_TRIGGER_MODE_SHIFT, IOAPIC_LVT_MASKED, IOAPIC_LVT_MASKED_SHIFT.
  rewrite shiftr_land1, nz_land_bit by lia. fold (is_level (aget (ioredtbl s) p)) (is_masked (aget (ioredtbl s) p)).
  rewrite He, Hm, (upd_ioapic_put d _ m1 st Hm1), E2. change (b2z false =? IOAPIC_TRIGGER_LEVEL) with false.
  change (nz 1 && negb false) with true. cbv iota.
  set (s1 := st <| io_irr := Z.lor (io_irr s) (bit p) |>).
  assert (E3 : ioredtbl s1 = ioredtbl s) by exact E1.
  assert (Ht1 : table_ok s1) by (by apply (table_ext s)).
  assert (Hf : fires s1 p = true).
  { unfold fires. rewrite E3, He, Hm. cbv zeta. change (io_irr s1) with (Z.lor (io_irr s) (bit p)).
    rewrite Z.lor_spec, testbit_bit, Z.eqb_refl, orb_true_r by lia. done. }
  assert (Ho : forall i, 0 <= i < 24 -> i <> p -> fires s1 i = false).
  { intros i Hi Hne. unfold s1. rewrite (fires_request s st) by (done || lia). by apply Hset. }
  clearbody s1. eexists. erewrite (service_one d _ s1 p); [|apply lookup_insert_eq|done|lia|done|done].
  rewrite E3. f_equal. subst m1. cbn. by rewrite !insert_insert_eq.
Qed.

(** ** The 8259 pair in front of the I/O APIC *)
Definition apic_ids (m : Machine) : gmap nat Z := id <$> local_apics m.

Lemma ids_upd d f m : (forall s, id (f s) = id s) -> apic_ids (upd_apic d f m) = apic_ids m.
Proof.
  intros Hf. unfold apic_ids, upd_apic. cbn. apply map_eq. intros k. rewrite !lookup_fmap, lookup_alter. case_decide; [subst|done]. destruct (local_apics m !! k); [cbn; by rewrite Hf|done].
Qed.
Lemma ids_update_irq d m : apic_ids (apic_update_irq d m) = apic_ids m.
Proof. unfold apic_update_irq. by case_ifs. Qed.
Lemma ids_sync d t m : apic_ids (apic_sync_vapic d t m) = apic_ids m.
Proof.
  unfold apic_sync_vapic. cbv zeta. case_if; [done|]. set (m1 := if nz _ then upd_apic _ _ _ else m).
  assert (E : apic_ids m1 = apic_ids m) by (unfold m1; case_if; [by apply ids_upd|done]). by case_if.
Qed.
Lemma ids_set_irq d v t m : apic_ids (apic_set_irq d v t m) = apic_ids m.
Proof. unfold apic_set_irq. cbv zeta. rewrite ids_update_irq. case_if; rewrite ?ids_sync; by rewrite ids_upd. Qed.
Lemma ids_deliver_pic_intr d level m : apic_ids (apic_deliver_pic_intr d level m) = apic_ids m.
Proof.
  unfold apic_deliver_pic_intr, apic_local_deliver. cbv zeta. case_if; [case_ifs; try done; apply ids_set_irq|]. case_ifs; rewrite ?ids_update_irq, ?ids_upd; done.
Qed.
Lemma ids_irq_request l m : apic_ids (pic_irq_request l m) = apic_ids m.
Proof.
  unfold pic_irq_request. destruct (cpu_slots m) as [|f ks]; [done|]. case_if; [|by case_if]. generalize (f :: ks). intros l0. revert m Heqb.
  induction l0 as [|k l0 IH]; intros m Hb; cbn [fold_left]; [done|]. assert (E : has_apic f (if has_apic k m && apic_accept_pic_intr k m then apic_deliver_pic_intr k l m else m) = true).
  { case_if; [|done]. unfold has_apic in *. apply bool_decide_eq_true_2. apply bool_decide_eq_true_1 in Hb. pose proof (ids_deliver_pic_intr k l m) as Hi.
    unfold apic_ids in Hi. apply (f_equal (fun x : gmap nat Z => x !! f)) in Hi. rewrite !lookup_fmap in Hi. destruct Hb as [a Ha]. rewrite Ha in Hi. cbn in Hi. apply fmap_Some in Hi as (a' & Ha' & _). eauto. }
  rewrite IH by done. case_if; [apply ids_deliver_pic_intr|done].
Qed.
Lemma ids_stat i l m : apic_ids (stat_update i l m) = apic_ids m.
Proof. unfold stat_update. cbv zeta. by case_ifs. Qed.
Lemma ids_master_set n l m : apic_ids (@pic_set_irq Machine master_world n l m) = apic_ids m.
Proof.
  unfold pic_set_irq, pic_update_irq. cbv zeta. cbn [int_out master_world]. case_if; rewrite ids_irq_request; apply (ids_stat _ l m).
Qed.
Lemma ids_i8259 n l m : apic_ids (i8259_irq n l m) = apic_ids m.
Proof.
  unfold i8259_irq. case_if; [apply ids_master_set|]. unfold pic_set_irq at 1. unfold pic_update_irq. cbv zeta. cbn [int_out slave_world]. case_if; rewrite ids_master_set; apply (ids_stat _ l m).
Qed.

Lemma topology_ids n m m' : apic_ids m' = apic_ids m -> topology n m -> topology n m'.
Proof.
  intros E [Hb Hs Hi]. assert (L : forall k, id <$> local_apics m' !! k = id <$> local_apics m !! k)
    by (intros k; apply (f_equal (fun x : gmap nat Z => x !! k)) in E; unfold apic_ids in E; by rewrite !lookup_fmap in E).
  split; [done| |].
  - intros k. rewrite <- Hs. specialize (L k). destruct (local_apics m' !! k), (local_apics m !! k); try done; split; eauto.
  - intros i j a b Ha Hb' Hid. pose proof (L i) as Li. pose proof (L j) as Lj. rewrite Ha in Li. rewrite Hb' in Lj. cbn in Li, Lj.
    symmetry in Li, Lj. apply fmap_Some in Li as (a0 & ? & ?). apply fmap_Some in Lj as (b0 & ? & ?). apply (Hi i j a0 b0); congruence.
Qed.

(** What [gsi_handler] shows the 8259 pair: the ISA lines. *)
Definition isa_line (p : Z) (m : Machine) : Machine := if (p <? ISA_NUM_IRQS) && isa_pic m then i8259_irq p 1 m else m.

Lemma isa_line_ok n p m : machine_wf m -> topology n m -> machine_wf (isa_line p m) /\ topology n (isa_line p m) /\ ioapics (isa_line p m) = ioapics m.
Proof.
  intros Hm Ht. unfold isa_line. case_if; [|done]. split_and!.
  - unfold i8259_irq. case_if; [by apply keeps_master_set|by apply keeps_slave_set].
  - eapply topology_ids; [apply ids_i8259|done].
  - unfold i8259_irq. case_if; [apply ioapics_master_irq|]. unfold pic_set_irq at 1. unfold pic_update_irq. cbv zeta. cbn [int_out slave_world]. case_if; rewrite ioapics_master_irq; apply (ioapics_stat _ 1 m).
Qed.

(** C21. From a device line to the processors. For every line of the first I/O APIC,
    the ISA lines (which the 8259 pair sees first) included: when the line goes up,
    the entry of its pin is edge-triggered, unmasked, of fixed mode and of the
    documented format, and the other pins have nothing to deliver, the entry's vector
    is requested on exactly the local APICs that the entry's destination field
    selects, physically or logically; every other local APIC keeps its requests, and
    no in-service register changes, all compared with what the 8259 pair left. This is
    the composition of gsi_handler, ioapic_set_irq, ioapic_service, the message
    encoding, apic_mem_write, the message decoding and the APIC bus. *)
Theorem gsi_reaches_apic n cnt m s p k a :
  machine_wf m -> topology cnt m -> ioapics m !! 0%nat = Some s -> 0 <= p < 24 -> edge_pin s (gsi_pin p) ->
  local_apics (isa_line p m) !! k = Some a ->
  let e := aget (ioredtbl s) (gsi_pin p) in
  let m' := @gsi_handler (sys_msi n) p 1 m in
  exists a', local_apics m' !! k = Some a' /\ isr a' = isr a /\
    vset (irr a') = if selected (Z.shiftr e 56) (b2z (Z.testbit e 11)) a
                    then vset (irr a) ∪ {[Z.land e 0xff]} else vset (irr a).
Proof.
  intros Hm0 Ht0 Hs Hr Hp Ha. cbv zeta. destruct (isa_line_ok cnt p m Hm0 Ht0) as (Hm & Ht & Hio). set (q := gsi_pin p) in *.
  assert (E : @gsi_handler (sys_msi n) p 1 m = @ioapic_set_irq (sys_msi n) 0 p 1 (isa_line p m)).
  { unfold gsi_handler, isa_line, ISA_NUM_IRQS, IOAPIC_NUM_PINS. rewrite (proj2 (Z.leb_le 0 p)), (proj2 (Z.ltb_lt p 24)) by lia. cbn [andb].
    destruct (Z.ltb_spec p 16); [done|]. by rewrite (proj2 (Z.leb_le 16 p)) by lia. }
  rewrite E. clear E. generalize dependent (isa_line p m). intros m1 Ha Hm Ht Hio. rewrite <- Hio in Hs.
  destruct (@set_irq_edge (sys_msi n) (sys_msi_ok n) 0 m1 s p Hs Hr Hp) as [s1 E]. rewrite E. clear E. fold q.
  set (e := aget (ioredtbl s) q). pose proof (ep_table _ _ Hp) as [_ Hpl].
  assert (Hpe : plain e) by (apply Hpl; unfold q, gsi_pin; case_if; lia). pose proof (ep_word _ _ Hp) as Hw. fold e in Hw.
  unfold stl_le_phys, sys_msi. rewrite sys_stl_message by (apply entry_in_window || by apply entry_addr_plain).
  assert (Hd32 : u32 (entry_data e) = entry_data e) by (apply wrap_small, wrap_range; lia).
  rewrite Hd32, msi_decode by done. pose proof (ep_fixed _ _ Hp) as Hfx. fold e in Hfx. rewrite Hfx.
  destruct (entry_dest e Hw) as (_ & Hdst & _). unfold apic_deliver_irq.
  set (m2 := m1 <| ioapics := _ |>).
  destruct (bus_fixed (apic_get_delivery_bitmask (Z.shiftr e 56) (b2z (Z.testbit e 11)) m2)
    (Z.land e 0xff) (b2z (Z.testbit e 15)) m2 Hm (land_ff_range e)) as [_ H].
  pose proof (topo_lt _ _ _ _ Ht Ha). pose proof (topo_bound _ _ Ht).
  destruct (H k a Ha) as (a' & E & Hj & Hi); [lia|]. exists a'. split_and!; [exact E|done|]. rewrite Hi.
  rewrite (delivery_bit cnt m2 _ _ k a); [done| |lia|exact Ha].
  destruct Ht as [Hb Hsl Hids]. constructor; [exact Hb|exact Hsl|exact Hids].
Qed.

(** The timer, ISA line 0, on pin 2. *)
Definition ex_edge : IOAPICCommonState :=
  ex_ioapic <| ioredtbl := aset (repeat 0x10000 24) 2 0x0200000000000052 |>.

Definition ex_edge_machine : Machine := (ex_machine 3) <| ioapics := {[0%nat := ex_edge]} |>.

Lemma ex_edge_pin : edge_pin ex_edge 2.
Proof.
  constructor; try done.
  - split; [done|]. apply (all_pins (fun i => plain (aget (ioredtbl ex_edge) i))). by vm_compute.
  - unfold settled. apply (all_pins (fun i => fires ex_edge i = false)). by vm_compute.
Qed.

Lemma gsi_reaches_apic_witness :
  exists a', local_apics (@gsi_handler (sys_msi 0) 0 1 ex_edge_machine) !! 2%nat = Some a' /\
    isr a' = isr (ex_apic 2) /\ vset (irr a') = vset (irr (ex_apic 2)) ∪ {[0x52]}.
Proof.
  apply (gsi_reaches_apic 0 3 ex_edge_machine ex_edge 0 2 (ex_apic 2)).
  - exact (ex_machine_wf 3 ltac:(lia)).
  - destruct (ex_machine_topology 3) as [Hb Hsl Hids]; [lia|]. constructor; [exact Hb|exact Hsl|exact Hids].
  - reflexivity.
  - lia.
  - exact ex_edge_pin.
  - vm_compute. reflexivity.
Defined.



