(* ===== verification/Cc.v ===== *)
(** * Condition codes (target/i386/tcg/cc_helper.c, cc_helper_template.h)

    The flags are evaluated lazily from the operands of the last arithmetic
    instruction; every exception frame goes through them (cpu_compute_eflags). *)
From S2P Require Import Prelude Cpu.

(** The operand sizes the template is instantiated for. *)
Inductive width := WB | WW | WL | WQ.
Definition data_bits (w : width) : Z := match w with WB => 8 | WW => 16 | WL => 32 | WQ => 64 end.

(** The enumerators of [CCOp] (cpu.h). *)
Inductive CCOp :=
| CC_DYNAMIC | CC_EFLAGS
| CC_MUL (w : width) | CC_ADD (w : width) | CC_ADC (w : width) | CC_SUB (w : width)
| CC_SBB (w : width) | CC_LOGIC (w : width) | CC_INC (w : width) | CC_DEC (w : width)
| CC_SHL (w : width) | CC_SAR (w : width) | CC_BMILG (w : width)
| CC_ADCX | CC_ADOX | CC_ADCOX | CC_CLR | CC_POPCNT | CC_NB.

Definition width_index (w : width) : Z := match w with WB => 0 | WW => 1 | WL => 2 | WQ => 3 end.
Definition width_of (i : Z) : width :=
  if i =? 0 then WB else if i =? 1 then WW else if i =? 2 then WL else WQ.

(** The value of an enumerator. *)
Definition cc_number (o : CCOp) : Z :=
  match o with
  | CC_DYNAMIC => 0 | CC_EFLAGS => 1
  | CC_MUL w => 2 + width_index w | CC_ADD w => 6 + width_index w | CC_ADC w => 10 + width_index w
  | CC_SUB w => 14 + width_index w | CC_SBB w => 18 + width_index w | CC_LOGIC w => 22 + width_index w
  | CC_INC w => 26 + width_index w | CC_DEC w => 30 + width_index w | CC_SHL w => 34 + width_index w
  | CC_SAR w => 38 + width_index w | CC_BMILG w => 42 + width_index w
  | CC_ADCX => 46 | CC_ADOX => 47 | CC_ADCOX => 48 | CC_CLR => 49 | CC_POPCNT => 50 | CC_NB => 51
  end.

Definition cc_sized (i : Z) : width -> CCOp :=
  if i =? 0 then CC_MUL else if i =? 1 then CC_ADD else if i =? 2 then CC_ADC
  else if i =? 3 then CC_SUB else if i =? 4 then CC_SBB else if i =? 5 then CC_LOGIC
  else if i =? 6 then CC_INC else if i =? 7 then CC_DEC else if i =? 8 then CC_SHL
  else if i =? 9 then CC_SAR else CC_BMILG.

Definition cc_decode (op : Z) : CCOp :=
  if op =? 1 then CC_EFLAGS
  else if (2 <=? op) && (op <? 46) then cc_sized ((op - 2) / 4) (width_of ((op - 2) mod 4))
  else if op =? 46 then CC_ADCX else if op =? 47 then CC_ADOX else if op =? 48 then CC_ADCOX
  else if op =? 49 then CC_CLR else if op =? 50 then CC_POPCNT
  else if op =? 51 then CC_NB else CC_DYNAMIC.

Definition parity_table : list Z :=
  [CC_P; 0; 0; CC_P; 0; CC_P; CC_P; 0;
   0; CC_P; CC_P; 0; CC_P; 0; 0; CC_P;
   0; CC_P; CC_P; 0; CC_P; 0; 0; CC_P;
   CC_P; 0; 0; CC_P; 0; CC_P; CC_P; 0;
   0; CC_P; CC_P; 0; CC_P; 0; 0; CC_P;
   CC_P; 0; 0; CC_P; 0; CC_P; CC_P; 0;
   CC_P; 0; 0; CC_P; 0; CC_P; CC_P; 0;
   0; CC_P; CC_P; 0; CC_P; 0; 0; CC_P;
   0; CC_P; CC_P; 0; CC_P; 0; 0; CC_P;
   CC_P; 0; 0; CC_P; 0; CC_P; CC_P; 0;
   CC_P; 0; 0; CC_P; 0; CC_P; CC_P; 0;
   0; CC_P; CC_P; 0; CC_P; 0; 0; CC_P;
   CC_P; 0; 0; CC_P; 0; CC_P; CC_P; 0;
   0; CC_P; CC_P; 0; CC_P; 0; 0; CC_P;
   0; CC_P; CC_P; 0; CC_P; 0; 0; CC_P;
   CC_P; 0; 0; CC_P; 0; CC_P; CC_P; 0;
   0; CC_P; CC_P; 0; CC_P; 0; 0; CC_P;
   CC_P; 0; 0; CC_P; 0; CC_P; CC_P; 0;
   CC_P; 0; 0; CC_P; 0; CC_P; CC_P; 0;
   0; CC_P; CC_P; 0; CC_P; 0; 0; CC_P;
   CC_P; 0; 0; CC_P; 0; CC_P; CC_P; 0;
   0; CC_P; CC_P; 0; CC_P; 0; 0; CC_P;
   0; CC_P; CC_P; 0; CC_P; 0; 0; CC_P;
   CC_P; 0; 0; CC_P; 0; CC_P; CC_P; 0;
   CC_P; 0; 0; CC_P; 0; CC_P; CC_P; 0;
   0; CC_P; CC_P; 0; CC_P; 0; 0; CC_P;
   0; CC_P; CC_P; 0; CC_P; 0; 0; CC_P;
   CC_P; 0; 0; CC_P; 0; CC_P; CC_P; 0;
   0; CC_P; CC_P; 0; CC_P; 0; 0; CC_P;
   CC_P; 0; 0; CC_P; 0; CC_P; CC_P; 0;
   CC_P; 0; 0; CC_P; 0; CC_P; CC_P; 0;
   0; CC_P; CC_P; 0; CC_P; 0; 0; CC_P].

Definition parity (dst : Z) : Z := nth (Z.to_nat (u8 dst)) parity_table 0.

(** [lshift] (helper-tcg.h) on a target_long. *)
Definition lshift (x n : Z) : Z := if 0 <=? n then s64 (Z.shiftl (s64 x) n) else Z.shiftr (s64 x) (- n).

(** ** The template, for operands of [n] bits *)
Section template.
  Context (n : Z).

Definition flags_or (cf pf af zf sf ovf : Z) : Z :=
  Z.lor (Z.lor (Z.lor (Z.lor (Z.lor cf pf) af) zf) sf) ovf.

Definition zf_of (dst : Z) : Z := b2z (dst =? 0) * CC_Z.
Definition sf_of (dst : Z) : Z := Z.land (lshift dst (8 - n)) CC_S.
Definition SIGN_MASK : Z := bit (n - 1).

Definition compute_all_add (dst src1 : Z) : Z :=
  let dst := wrap n dst in
  let src1 := wrap n src1 in
  let src2 := wrap n (dst - src1) in
  flags_or (b2z (dst <? src1)) (parity dst) (Z.land (Z.lxor (Z.lxor dst src1) src2) CC_A)
    (zf_of dst) (sf_of dst)
    (Z.land (lshift (Z.land (Z.lxor (Z.lxor src1 src2) (-1)) (Z.lxor src1 dst)) (12 - n)) CC_O).

Definition compute_c_add (dst src1 : Z) : Z := b2z (wrap n dst <? wrap n src1).

Definition compute_all_adc (dst src1 src3 : Z) : Z :=
  let dst := wrap n dst in
  let src1 := wrap n src1 in
  let src3 := wrap n src3 in
  let src2 := wrap n (dst - src1 - src3) in
  flags_or (b2z (if nz src3 then dst <=? src1 else dst <? src1)) (parity dst)
    (Z.land (Z.lxor (Z.lxor dst src1) src2) 0x10) (Z.shiftl (b2z (dst =? 0)) 6)
    (Z.land (lshift dst (8 - n)) 0x80)
    (Z.land (lshift (Z.land (Z.lxor (Z.lxor src1 src2) (-1)) (Z.lxor src1 dst)) (12 - n)) CC_O).

Definition compute_c_adc (dst src1 src3 : Z) : Z :=
  b2z (if nz (wrap n src3) then wrap n dst <=? wrap n src1 else wrap n dst <? wrap n src1).

Definition compute_all_sub (dst src2 : Z) : Z :=
  let dst := wrap n dst in
  let src2 := wrap n src2 in
  let src1 := wrap n (dst + src2) in
  flags_or (b2z (src1 <? src2)) (parity dst) (Z.land (Z.lxor (Z.lxor dst src1) src2) CC_A)
    (zf_of dst) (sf_of dst)
    (Z.land (lshift (Z.land (Z.lxor src1 src2) (Z.lxor src1 dst)) (12 - n)) CC_O).

Definition compute_c_sub (dst src2 : Z) : Z :=
  let src2 := wrap n src2 in b2z (wrap n (wrap n dst + src2) <? src2).

Definition compute_all_sbb (dst src2 src3 : Z) : Z :=
  let dst := wrap n dst in
  let src2 := wrap n src2 in
  let src3 := wrap n src3 in
  let src1 := wrap n (dst + src2 + src3) in
  flags_or (b2z (if nz src3 then src1 <=? src2 else src1 <? src2)) (parity dst)
    (Z.land (Z.lxor (Z.lxor dst src1) src2) 0x10) (Z.shiftl (b2z (dst =? 0)) 6)
    (Z.land (lshift dst (8 - n)) 0x80)
    (Z.land (lshift (Z.land (Z.lxor src1 src2) (Z.lxor src1 dst)) (12 - n)) CC_O).

Definition compute_c_sbb (dst src2 src3 : Z) : Z :=
  let src2 := wrap n src2 in
  let src3 := wrap n src3 in
  let src1 := wrap n (wrap n dst + src2 + src3) in
  b2z (if nz src3 then src1 <=? src2 else src1 <? src2).

Definition compute_all_logic (dst src1 : Z) : Z :=
  let dst := wrap n dst in
  flags_or 0 (parity dst) 0 (zf_of dst) (sf_of dst) 0.

Definition compute_all_inc (dst src1 : Z) : Z :=
  let dst := wrap n dst in
  let cf := s32 (wrap n src1) in
  let src1 := wrap n (dst - 1) in
  flags_or cf (parity dst) (Z.land (Z.lxor (Z.lxor dst src1) 1) CC_A)
    (zf_of dst) (sf_of dst) (b2z (dst =? SIGN_MASK) * CC_O).

Definition compute_all_dec (dst src1 : Z) : Z :=
  let dst := wrap n dst in
  let cf := s32 (wrap n src1) in
  let src1 := wrap n (dst + 1) in
  flags_or cf (parity dst) (Z.land (Z.lxor (Z.lxor dst src1) 1) CC_A)
    (zf_of dst) (sf_of dst) (b2z (dst =? SIGN_MASK - 1) * CC_O).

Definition compute_all_shl (dst src1 : Z) : Z :=
  let dst := wrap n dst in
  let src1 := wrap n src1 in
  flags_or (Z.land (Z.shiftr src1 (n - 1)) CC_C) (parity dst) 0 (zf_of dst) (sf_of dst)
    (Z.land (lshift (Z.lxor src1 dst) (12 - n)) CC_O).

Definition compute_c_shl (dst src1 : Z) : Z := Z.land (Z.shiftr (wrap n src1) (n - 1)) CC_C.

Definition compute_all_sar (dst src1 : Z) : Z :=
  let dst := wrap n dst in
  let src1 := wrap n src1 in
  flags_or (Z.land src1 1) (parity dst) 0 (zf_of dst) (sf_of dst)
    (Z.land (lshift (Z.lxor src1 dst) (12 - n)) CC_O).

Definition compute_all_mul (dst src1 : Z) : Z :=
  let dst := wrap n dst in
  let cf := b2z (negb (s64 src1 =? 0)) in
  flags_or cf (parity dst) 0 (zf_of dst) (sf_of dst) (cf * CC_O).

Definition compute_all_bmilg (dst src1 : Z) : Z :=
  let dst := wrap n dst in
  flags_or (b2z (wrap n src1 =? 0)) 0 0 (zf_of dst) (sf_of dst) 0.

Definition compute_c_bmilg (dst src1 : Z) : Z := b2z (wrap n src1 =? 0).
End template.

Definition compute_all_adcx (dst src1 src2 : Z) : Z := u64 (Z.lor (clr src1 CC_C) (dst * CC_C)).
Definition compute_all_adox (dst src1 src2 : Z) : Z := u64 (Z.lor (clr src1 CC_O) (src2 * CC_O)).
Definition compute_all_adcox (dst src1 src2 : Z) : Z :=
  u64 (Z.lor (Z.lor (clr src1 (Z.lor CC_C CC_O)) (dst * CC_C)) (src2 * CC_O)).

Definition helper_cc_compute_all (dst src1 src2 op : Z) : Z :=
  match cc_decode op with
  | CC_DYNAMIC | CC_NB => 0
  | CC_EFLAGS => src1
  | CC_CLR => Z.lor CC_Z CC_P
  | CC_POPCNT => if nz src1 then 0 else CC_Z
  | CC_MUL w => compute_all_mul (data_bits w) dst src1
  | CC_ADD w => compute_all_add (data_bits w) dst src1
  | CC_ADC w => compute_all_adc (data_bits w) dst src1 src2
  | CC_SUB w => compute_all_sub (data_bits w) dst src1
  | CC_SBB w => compute_all_sbb (data_bits w) dst src1 src2
  | CC_LOGIC w => compute_all_logic (data_bits w) dst src1
  | CC_INC w => compute_all_inc (data_bits w) dst src1
  | CC_DEC w => compute_all_dec (data_bits w) dst src1
  | CC_SHL w => compute_all_shl (data_bits w) dst src1
  | CC_SAR w => compute_all_sar (data_bits w) dst src1
  | CC_BMILG w => compute_all_bmilg (data_bits w) dst src1
  | CC_ADCX => compute_all_adcx dst src1 src2
  | CC_ADOX => compute_all_adox dst src1 src2
  | CC_ADCOX => compute_all_adcox dst src1 src2
  end.

Definition cpu_cc_compute_all (e : CPUX86State) (op : Z) : Z :=
  u32 (helper_cc_compute_all (cc_dst e) (cc_src e) (cc_src2 e) op).

Definition helper_cc_compute_c (dst src1 src2 op : Z) : Z :=
  match cc_decode op with
  | CC_DYNAMIC | CC_NB | CC_LOGIC _ | CC_CLR | CC_POPCNT => 0
  | CC_EFLAGS | CC_SAR _ | CC_ADOX => Z.land src1 1
  | CC_INC _ | CC_DEC _ => src1
  | CC_MUL _ => b2z (negb (src1 =? 0))
  | CC_ADCX | CC_ADCOX => dst
  | CC_ADD w => compute_c_add (data_bits w) dst src1
  | CC_ADC w => compute_c_adc (data_bits w) dst src1 src2
  | CC_SUB w => compute_c_sub (data_bits w) dst src1
  | CC_SBB w => compute_c_sbb (data_bits w) dst src1 src2
  | CC_SHL w => compute_c_shl (data_bits w) dst src1
  | CC_BMILG w => compute_c_bmilg (data_bits w) dst src1
  end.

(** [cpu_compute_eflags] (cpu.h, TCG) and the flag helpers. *)
Definition cpu_compute_eflags (e : CPUX86State) : Z :=
  u32 (Z.lor (eflags e) (Z.lor (cpu_cc_compute_all e (cc_op e)) (Z.land (df e) DF_MASK))).

Definition helper_write_eflags (t0 update_mask : Z) (e : CPUX86State) : CPUX86State :=
  cpu_load_eflags (s32 t0) update_mask e.

Definition helper_read_eflags (e : CPUX86State) : Z :=
  let fl := cpu_cc_compute_all e (cc_op e) in
  let fl := Z.lor fl (Z.land (df e) DF_MASK) in
  u32 (Z.lor fl (clr (eflags e) (Z.lor VM_MASK RF_MASK))).

Definition CR0_TS_MASK : Z := bit 3.
Definition HF_TS_MASK : Z := bit 11.

Definition helper_clts (e : CPUX86State) : CPUX86State :=
  e <| cr := <[0%nat := clr (crn e 0) CR0_TS_MASK]> (cr e) |>
    <| hflags := clr (hflags e) HF_TS_MASK |>.
Definition helper_reset_rf (e : CPUX86State) : CPUX86State := e <| eflags := clr (eflags e) RF_MASK |>.
Definition helper_cli (e : CPUX86State) : CPUX86State := e <| eflags := clr (eflags e) IF_MASK |>.
Definition helper_sti (e : CPUX86State) : CPUX86State := e <| eflags := Z.lor (eflags e) IF_MASK |>.
Definition helper_clac (e : CPUX86State) : CPUX86State := e <| eflags := clr (eflags e) AC_MASK |>.
Definition helper_stac (e : CPUX86State) : CPUX86State := e <| eflags := Z.lor (eflags e) AC_MASK |>.
