(* ===== verification/CcFacts.v ===== *)
(** * The lazily computed flags are the architectural ones *)
From S2P Require Import Prelude Cpu Cc.

(** ** Flags as booleans *)
Definition sel (b : bool) (mask : Z) : Z := if b then mask else 0.

Definition mkflags (c p a z s o : bool) : Z :=
  flags_or (sel c CC_C) (sel p CC_P) (sel a CC_A) (sel z CC_Z) (sel s CC_S) (sel o CC_O).

(** The six status flags of a flags word. *)
Record status := mkStatus { st_cf : bool; st_pf : bool; st_af : bool; st_zf : bool; st_sf : bool; st_of : bool }.

Definition status_of (f : Z) : status :=
  mkStatus (Z.testbit f 0) (Z.testbit f 2) (Z.testbit f 4) (Z.testbit f 6) (Z.testbit f 7) (Z.testbit f 11).

Lemma status_mkflags c p a z s o : status_of (mkflags c p a z s o) = mkStatus c p a z s o.
Proof. by destruct c, p, a, z, s, o. Qed.

Lemma sel_b2z b : b2z b = sel b CC_C.
Proof. by destruct b. Qed.

Lemma sel_mul b m : b2z b * m = sel b m.
Proof. destruct b; [apply Z.mul_1_l|apply Z.mul_0_l]. Qed.

Lemma sel_land x k : 0 <= k -> Z.land x (bit k) = sel (Z.testbit x k) (bit k).
Proof.
  intros Hk. apply Z.bits_inj'. intros i Hi. rewrite Z.land_spec, testbit_bit by done.
  unfold sel. destruct (Z.eqb_spec i k) as [->|].
  - destruct (Z.testbit x k) eqn:E; [by rewrite testbit_bit, Z.eqb_refl by done|by rewrite Z.bits_0].
  - rewrite andb_false_r. destruct (Z.testbit x k); [|by rewrite Z.bits_0].
    rewrite testbit_bit by done. symmetry. by apply Z.eqb_neq.
Qed.

(** ** Parity *)
Fixpoint popcount (n : nat) (x : Z) : Z :=
  match n with O => 0 | S n' => b2z (Z.odd x) + popcount n' (Z.div2 x) end.

Definition even_parity (x : Z) : bool := Z.even (popcount 8 (u8 x)).

(** The 256-entry table is the parity of the low byte. *)
Lemma parity_even x : parity x = sel (even_parity x) CC_P.
Proof.
  unfold parity, even_parity.
  assert (H : Forall (fun i => nth (Z.to_nat i) parity_table 0 = sel (Z.even (popcount 8 i)) CC_P) (seqZ 0 256))
    by (apply (bool_decide_eq_true_1 _); by vm_compute).
  rewrite list.Forall_forall in H. apply H, elem_of_seqZ. pose proof (wrap_range 8 x). unfold is_u in *. lia.
Qed.

(** ** Shifts *)
Lemma swrap_testbit n x i : 0 <= i < n -> Z.testbit (swrap n x) i = Z.testbit x i.
Proof.
  intros Hi. unfold swrap. cbv zeta.
  assert (E : forall y, y = x mod 2 ^ n \/ y = x mod 2 ^ n - 2 ^ n -> Z.testbit y i = Z.testbit x i).
  { intros y Hy. rewrite <-(Z.mod_pow2_bits_low y n), <-(Z.mod_pow2_bits_low x n) by lia. f_equal.
    assert (0 < 2 ^ n) by (apply Z.pow_pos_nonneg; lia).
    destruct Hy as [->| ->]; [by apply Z.mod_mod; lia|].
    replace (x mod 2 ^ n - 2 ^ n) with (x mod 2 ^ n + (-1) * 2 ^ n) by lia.
    rewrite Z.mod_add by lia. apply Z.mod_mod. lia. }
  case_if; apply E; auto.
Qed.

Lemma lshift_testbit x k j : 0 <= j < 64 -> 0 <= j - k < 64 ->
  Z.testbit (lshift x k) j = Z.testbit x (j - k).
Proof.
  intros Hj Hk. unfold lshift. destruct (Z.leb_spec 0 k).
  - rewrite swrap_testbit, Z.shiftl_spec, swrap_testbit by lia. done.
  - rewrite Z.shiftr_spec by lia. replace (j + - k) with (j - k) by lia. apply swrap_testbit. lia.
Qed.

Lemma b2z_01 c : 0 <= b2z c <= 1.
Proof. destruct c; cbn; lia. Qed.

Lemma shl6 b : Z.shiftl (b2z b) 6 = b2z b * CC_Z.
Proof. by destruct b. Qed.

Section sized.
  Context (w : width).
Let n := data_bits w.
Let h := 2 ^ (n - 1).

Lemma n_cases : n = 8 \/ n = 16 \/ n = 32 \/ n = 64.
Proof. destruct w; cbn; lia. Qed.

Lemma h_pos : 0 < h /\ 2 ^ n = 2 * h.
Proof.
  pose proof n_cases. split; [apply Z.pow_pos_nonneg; lia|].
  unfold h. rewrite <-Z.pow_succ_r by lia. f_equal. lia.
Qed.

(** The signed value of an operand, and its sign bit. *)
Definition signed (x : Z) : Z := if x <? 2 ^ (data_bits w - 1) then x else x - 2 ^ data_bits w.

Lemma sign_bit x : 0 <= x < 2 ^ n -> Z.testbit x (n - 1) = (h <=? x).
Proof.
  intros Hx. destruct h_pos as [Hh E]. pose proof n_cases.
  apply eq_true_iff_eq. rewrite Z.leb_le.
  rewrite (Z.testbit_true x (n - 1)) by lia. fold h.
  destruct (Z.leb_spec h x).
  - replace (x / h) with 1; [tauto|]. apply (Z.div_unique_pos _ _ _ (x - h)); lia.
  - rewrite Z.div_small by lia. split; [discriminate|lia].
Qed.

Lemma sf_spec x : 0 <= x < 2 ^ n -> sf_of n x = sel (h <=? x) CC_S.
Proof.
  intros Hx. unfold sf_of. change CC_S with (bit 7). rewrite sel_land by lia. pose proof n_cases.
  rewrite lshift_testbit by lia. replace (7 - (8 - n)) with (n - 1) by lia. by rewrite sign_bit.
Qed.

Lemma of_spec y : Z.land (lshift y (12 - n)) CC_O = sel (Z.testbit y (n - 1)) CC_O.
Proof.
  change CC_O with (bit 11). rewrite sel_land by lia. pose proof n_cases.
  rewrite lshift_testbit by lia. by replace (11 - (12 - n)) with (n - 1) by lia.
Qed.

Lemma wrap_id x : 0 <= x < 2 ^ n -> wrap n x = x.
Proof. intros Hx. by apply wrap_small. Qed.

Lemma wrap_bound x : 0 <= wrap n x < 2 ^ n.
Proof. apply Z.mod_pos_bound. destruct h_pos. lia. Qed.

(** The carry (or borrow) out of bit 3. *)
Lemma aux_carry a b c : 0 <= c <= 1 ->
  Z.testbit (Z.lxor (Z.lxor (a + b + c) a) b) 4 = (16 <=? a mod 16 + b mod 16 + c).
Proof.
  intros Hc. rewrite !Z.lxor_spec, !Z.testbit_odd, !Z.shiftr_div_pow2 by lia. change (2 ^ 4) with 16.
  pose proof (Z.div_mod a 16 ltac:(lia)). pose proof (Z.div_mod b 16 ltac:(lia)).
  pose proof (Z.mod_pos_bound a 16 ltac:(lia)). pose proof (Z.mod_pos_bound b 16 ltac:(lia)).
  assert (E : (a + b + c) / 16 = a / 16 + b / 16 + (if 16 <=? a mod 16 + b mod 16 + c then 1 else 0)).
  { symmetry. apply (Z.div_unique_pos _ _ _ (a mod 16 + b mod 16 + c -
      (if 16 <=? a mod 16 + b mod 16 + c then 16 else 0))); destruct (Z.leb_spec 16 (a mod 16 + b mod 16 + c)); lia. }
  rewrite E, !Z.odd_add. destruct (16 <=? _); cbn [Z.odd]; by destruct (Z.odd (a / 16)), (Z.odd (b / 16)).
Qed.

Lemma low_bit_wrap x : Z.testbit (wrap n x) 4 = Z.testbit x 4.
Proof. pose proof n_cases. rewrite wrap_testbit by lia. by rewrite (proj2 (Z.ltb_lt 4 n)) by lia. Qed.

Lemma af_add a b c : 0 <= c <= 1 ->
  Z.land (Z.lxor (Z.lxor (wrap n (a + b + c)) a) b) CC_A = sel (16 <=? a mod 16 + b mod 16 + c) CC_A.
Proof.
  intros Hc. change CC_A with (bit 4). rewrite sel_land by lia. f_equal.
  rewrite <-(aux_carry a b c) by done. by rewrite !Z.lxor_spec, low_bit_wrap.
Qed.

(** Wrapped sums and differences, with the operands recovered. *)
Lemma sum_operand a b c : 0 <= a < 2 ^ n -> 0 <= b < 2 ^ n ->
  wrap n (wrap n (a + b + c) - a - c) = b.
Proof.
  intros Ha Hb. unfold wrap. rewrite <-(Z.mod_small b (2 ^ n)) at 2 by lia.
  rewrite <-Z.sub_add_distr, Zminus_mod_idemp_l. f_equal. lia.
Qed.

Lemma diff_operand a b c : 0 <= a < 2 ^ n -> 0 <= b < 2 ^ n ->
  wrap n (wrap n (a - b - c) + b + c) = a.
Proof.
  intros Ha Hb. unfold wrap. rewrite <-(Z.mod_small a (2 ^ n)) at 2 by lia.
  rewrite <-Z.add_assoc, Zplus_mod_idemp_l. f_equal. lia.
Qed.

(** The wrapped sum as a case distinction on the carry. *)
Lemma wrap_sum a b c : 0 <= a < 2 ^ n -> 0 <= b < 2 ^ n -> 0 <= c <= 1 ->
  wrap n (a + b + c) = a + b + c - (if 2 ^ n <=? a + b + c then 2 ^ n else 0).
Proof.
  intros Ha Hb Hc. symmetry. unfold wrap. destruct (Z.leb_spec (2 ^ n) (a + b + c)).
  - apply (Z.mod_unique_pos _ _ 1); lia.
  - apply (Z.mod_unique_pos _ _ 0); lia.
Qed.

Lemma wrap_diff a b c : 0 <= a < 2 ^ n -> 0 <= b < 2 ^ n -> 0 <= c <= 1 ->
  wrap n (a - b - c) = a - b - c + (if a - b - c <? 0 then 2 ^ n else 0).
Proof.
  intros Ha Hb Hc. symmetry. unfold wrap. destruct (Z.ltb_spec (a - b - c) 0).
  - apply (Z.mod_unique_pos _ _ (-1)); lia.
  - apply (Z.mod_unique_pos _ _ 0); lia.
Qed.

(** Signed overflow of an addition is visible in the sign bits. *)
Lemma of_add a b c : 0 <= a < 2 ^ n -> 0 <= b < 2 ^ n -> 0 <= c <= 1 ->
  Z.testbit (Z.land (Z.lxor (Z.lxor a b) (-1)) (Z.lxor a (wrap n (a + b + c)))) (n - 1) =
  negb ((- h <=? signed a + signed b + c) && (signed a + signed b + c <? h)).
Proof.
  intros Ha Hb Hc. destruct h_pos as [Hh E]. pose proof n_cases. pose proof (wrap_bound (a + b + c)).
  rewrite Z.land_spec, !Z.lxor_spec, Z.bits_m1, !sign_bit by lia. rewrite wrap_sum by done.
  unfold signed. fold n h.
  destruct (Z.leb_spec (2 ^ n) (a + b + c)); destruct (Z.leb_spec h a), (Z.leb_spec h b);
    rewrite ?(proj2 (Z.ltb_lt a h)), ?(proj2 (Z.ltb_ge a h)), ?(proj2 (Z.ltb_lt b h)), ?(proj2 (Z.ltb_ge b h)) by lia.
  all: repeat match goal with |- context [?x <=? ?y] => destruct (Z.leb_spec x y)
         | |- context [?x <? ?y] => destruct (Z.ltb_spec x y) end; try reflexivity; lia.
Qed.

Lemma of_sub a b c : 0 <= a < 2 ^ n -> 0 <= b < 2 ^ n -> 0 <= c <= 1 ->
  Z.testbit (Z.land (Z.lxor a b) (Z.lxor a (wrap n (a - b - c)))) (n - 1) =
  negb ((- h <=? signed a - signed b - c) && (signed a - signed b - c <? h)).
Proof.
  intros Ha Hb Hc. destruct h_pos as [Hh E]. pose proof n_cases. pose proof (wrap_bound (a - b - c)).
  rewrite Z.land_spec, !Z.lxor_spec, !sign_bit by lia. rewrite wrap_diff by done.
  unfold signed. fold n h.
  destruct (Z.ltb_spec (a - b - c) 0); destruct (Z.leb_spec h a), (Z.leb_spec h b);
    rewrite ?(proj2 (Z.ltb_lt a h)), ?(proj2 (Z.ltb_ge a h)), ?(proj2 (Z.ltb_lt b h)), ?(proj2 (Z.ltb_ge b h)) by lia.
  all: repeat match goal with |- context [?x <=? ?y] => destruct (Z.leb_spec x y)
         | |- context [?x <? ?y] => destruct (Z.ltb_spec x y) end; try reflexivity; lia.
Qed.

(** The borrow out of bit 3, from the carry of the inverse addition. *)
Lemma af_sub a b c : 0 <= a < 2 ^ n -> 0 <= b < 2 ^ n -> 0 <= c <= 1 ->
  Z.land (Z.lxor (Z.lxor (wrap n (a - b - c)) a) b) CC_A = sel (a mod 16 - b mod 16 - c <? 0) CC_A.
Proof.
  intros Ha Hb Hc. set (d := wrap n (a - b - c)).
  assert (Ea : a = wrap n (b + d + c)) by (rewrite <-(diff_operand a b c) at 1 by done; fold d; f_equal; lia).
  replace (Z.lxor (Z.lxor d a) b) with (Z.lxor (Z.lxor a b) d)
    by (rewrite (Z.lxor_comm d a), !Z.lxor_assoc; f_equal; apply Z.lxor_comm).
  rewrite Ea at 1. rewrite af_add by done. f_equal.
  assert (E16 : a mod 16 = (b + d + c) mod 16).
  { rewrite Ea at 1. pose proof n_cases. unfold wrap. change 16 with (2 ^ 4). rewrite <-!Z.land_ones by lia.
    rewrite <-Z.land_assoc. f_equal. rewrite Z.land_comm, !Z.land_ones by lia.
    apply Z.mod_small. rewrite Z.ones_equiv. assert (2 ^ 4 <= 2 ^ n) by (apply Z.pow_le_mono_r; lia). lia. }
  pose proof (Z.mod_pos_bound b 16 ltac:(lia)). pose proof (Z.mod_pos_bound d 16 ltac:(lia)).
  pose proof (Z.mod_pos_bound (b + d + c) 16 ltac:(lia)).
  pose proof (Z.div_mod (b + d + c) 16 ltac:(lia)).
  pose proof (Z.div_mod b 16 ltac:(lia)). pose proof (Z.div_mod d 16 ltac:(lia)).
  rewrite E16. apply eq_true_iff_eq. rewrite Z.leb_le, Z.ltb_lt. lia.
Qed.


(** The status word of a result [r], the rest of the flags given. *)
Definition status_for (cf af ovf : bool) (r : Z) : status :=
  mkStatus cf (even_parity r) af (r =? 0) (2 ^ (data_bits w - 1) <=? r) ovf.

Lemma status_or cf af ovf r : 0 <= r < 2 ^ n ->
  status_of (flags_or (sel cf CC_C) (parity r) (sel af CC_A) (zf_of r) (sf_of n r) (sel ovf CC_O)) =
  status_for cf af ovf r.
Proof.
  intros Hr. rewrite parity_even, sf_spec by done. unfold zf_of. rewrite sel_mul.
  apply status_mkflags.
Qed.

(** ADD and SUB are ADC and SBB without a carry. *)
Lemma add_is_adc d s : compute_all_add n d s = compute_all_adc n d s 0.
Proof.
  unfold compute_all_add, compute_all_adc, zf_of, sf_of.
  rewrite (wrap_id 0) by (destruct h_pos; lia). cbn [nz]. rewrite !Z.sub_0_r.
  by destruct (wrap n d =? 0).
Qed.

Lemma sub_is_sbb d s : compute_all_sub n d s = compute_all_sbb n d s 0.
Proof.
  unfold compute_all_sub, compute_all_sbb, zf_of, sf_of.
  rewrite (wrap_id 0) by (destruct h_pos; lia). cbn [nz]. rewrite !Z.add_0_r.
  by destruct (wrap n d =? 0).
Qed.

Lemma adc_status d s s3 a b (c : bool) : 0 <= a < 2 ^ n -> 0 <= b < 2 ^ n ->
  wrap n d = wrap n (a + b + b2z c) -> wrap n s = b -> wrap n s3 = b2z c ->
  status_of (compute_all_adc n d s s3) =
  status_for (2 ^ n <=? a + b + b2z c) (16 <=? a mod 16 + b mod 16 + b2z c)
    (negb ((- h <=? signed a + signed b + b2z c) && (signed a + signed b + b2z c <? h)))
    (wrap n (a + b + b2z c)).
Proof.
  intros Ha Hb Ed Es E3. pose proof (b2z_01 c) as Hc. unfold compute_all_adc. rewrite Ed, Es, E3.
  rewrite !(Z.add_comm a b), !(Z.add_comm (a mod 16)), !(Z.add_comm (signed a)), sum_operand by done.
  change 0x10 with CC_A. change 0x80 with CC_S. rewrite af_add by done.
  rewrite shl6, of_spec, of_add by done. fold (zf_of (wrap n (b + a + b2z c))).
  fold (sf_of n (wrap n (b + a + b2z c))). rewrite nz_b2z, sel_b2z.
  rewrite status_or by apply wrap_bound. unfold status_for. f_equal.
  pose proof (wrap_sum b a _ Hb Ha Hc) as ->. destruct h_pos.
  destruct c; cbn [b2z] in *; apply eq_true_iff_eq; rewrite ?Z.leb_le, ?Z.ltb_lt;
    match goal with |- context [?x <=? ?y] => destruct (Z.leb_spec x y) end; lia.
Qed.

Lemma sbb_status d s s3 a b (c : bool) : 0 <= a < 2 ^ n -> 0 <= b < 2 ^ n ->
  wrap n d = wrap n (a - b - b2z c) -> wrap n s = b -> wrap n s3 = b2z c ->
  status_of (compute_all_sbb n d s s3) =
  status_for (a - b - b2z c <? 0) (a mod 16 - b mod 16 - b2z c <? 0)
    (negb ((- h <=? signed a - signed b - b2z c) && (signed a - signed b - b2z c <? h)))
    (wrap n (a - b - b2z c)).
Proof.
  intros Ha Hb Ed Es E3. pose proof (b2z_01 c) as Hc. unfold compute_all_sbb. rewrite Ed, Es, E3.
  rewrite diff_operand by done.
  change 0x10 with CC_A. change 0x80 with CC_S. rewrite af_sub by done.
  rewrite shl6, of_spec, of_sub by done. fold (zf_of (wrap n (a - b - b2z c))).
  fold (sf_of n (wrap n (a - b - b2z c))). rewrite nz_b2z, sel_b2z.
  rewrite status_or by apply wrap_bound. unfold status_for. f_equal.
  destruct c; cbn [b2z]; apply eq_true_iff_eq; rewrite ?Z.leb_le, ?Z.ltb_lt; lia.
Qed.

Lemma sign_mask : SIGN_MASK n = h.
Proof. unfold SIGN_MASK, h. pose proof n_cases. by rewrite Z.shiftl_1_l. Qed.

Lemma s32_b2z c : s32 (b2z c) = sel c CC_C.
Proof. by destruct c. Qed.

Lemma inc_status d s a (c : bool) : 0 <= a < 2 ^ n -> wrap n d = wrap n (a + 1) -> wrap n s = b2z c ->
  status_of (compute_all_inc n d s) =
  status_for c (16 <=? a mod 16 + 1) (negb ((- h <=? signed a + 1) && (signed a + 1 <? h))) (wrap n (a + 1)).
Proof.
  intros Ha Ed Es. destruct h_pos as [Hh E]. pose proof n_cases.
  assert (H1 : 0 <= 1 < 2 ^ n) by (assert (2 ^ 1 <= 2 ^ n) by (apply Z.pow_le_mono_r; lia); lia).
  unfold compute_all_inc. rewrite Ed, Es, s32_b2z, sign_mask, sel_mul.
  pose proof (sum_operand 1 a 0 H1 Ha) as Eo. rewrite !Z.add_0_r, Z.sub_0_r, (Z.add_comm 1) in Eo. rewrite Eo.
  replace (a + 1) with (a + 1 + 0) by lia. rewrite af_add by lia.
  change (1 mod 16) with 1. rewrite (Z.add_0_r (a mod 16 + 1)).
  rewrite status_or by apply wrap_bound. unfold status_for. f_equal.
  rewrite wrap_sum by lia. unfold signed. fold n h.
  destruct (Z.leb_spec (2 ^ n) (a + 1 + 0)), (Z.ltb_spec a h); apply eq_true_iff_eq;
    rewrite negb_true_iff, andb_false_iff, Z.eqb_eq, Z.leb_gt, Z.ltb_ge; lia.
Qed.

Lemma dec_status d s a (c : bool) : 0 <= a < 2 ^ n -> wrap n d = wrap n (a - 1) -> wrap n s = b2z c ->
  status_of (compute_all_dec n d s) =
  status_for c (a mod 16 - 1 <? 0) (negb ((- h <=? signed a - 1) && (signed a - 1 <? h))) (wrap n (a - 1)).
Proof.
  intros Ha Ed Es. destruct h_pos as [Hh E]. pose proof n_cases.
  assert (H1 : 0 <= 1 < 2 ^ n) by (assert (2 ^ 1 <= 2 ^ n) by (apply Z.pow_le_mono_r; lia); lia).
  unfold compute_all_dec. rewrite Ed, Es, s32_b2z, sign_mask, sel_mul.
  pose proof (diff_operand a 1 0 Ha H1) as Eo. rewrite !Z.add_0_r, Z.sub_0_r in Eo. rewrite Eo.
  replace (a - 1) with (a - 1 - 0) by lia. rewrite af_sub by lia.
  change (1 mod 16) with 1. rewrite (Z.sub_0_r (a mod 16 - 1)).
  rewrite status_or by apply wrap_bound. unfold status_for. f_equal.
  rewrite wrap_diff by lia. unfold signed. fold n h.
  destruct (Z.ltb_spec (a - 1 - 0) 0), (Z.ltb_spec a h); apply eq_true_iff_eq;
    rewrite negb_true_iff, andb_false_iff, Z.eqb_eq, Z.leb_gt, Z.ltb_ge; lia.
Qed.
End sized.

(** ** The instructions, and what the manual says of their flags *)
Inductive arith := AAdd | AAdc | ASub | ASbb | AInc | ADec.

(** The exact result on operands [a], [b] and the incoming carry. *)
Definition exact (o : arith) (a b : Z) (c : bool) : Z :=
  match o with
  | AAdd => a + b | AAdc => a + b + b2z c | ASub => a - b | ASbb => a - b - b2z c
  | AInc => a + 1 | ADec => a - 1
  end.

Definition within (lo hi x : Z) : bool := (lo <=? x) && (x <? hi).

(** The architectural flags: carry and auxiliary carry are set when the
    unsigned result leaves the width (the low nibble), overflow when the
    signed result does; INC and DEC keep the carry. *)
Definition architectural (w : width) (o : arith) (a b : Z) (c : bool) : status :=
  let n := data_bits w in
  status_for w
    (match o with AInc | ADec => c | _ => negb (within 0 (2 ^ n) (exact o a b c)) end)
    (negb (within 0 16 (exact o (a mod 16) (b mod 16) c)))
    (negb (within (- 2 ^ (n - 1)) (2 ^ (n - 1)) (exact o (signed w a) (signed w b) c)))
    (wrap n (exact o a b c)).

(** The condition-code operation the instruction leaves behind, and its
    second operand: the carry for INC and DEC. *)
Definition lazy_op (o : arith) : width -> CCOp :=
  match o with
  | AAdd => CC_ADD | AAdc => CC_ADC | ASub => CC_SUB | ASbb => CC_SBB | AInc => CC_INC | ADec => CC_DEC
  end.
Definition lazy_src (o : arith) (b : Z) (c : bool) : Z := match o with AInc | ADec => b2z c | _ => b end.

Lemma cc_decode_number o : cc_decode (cc_number o) = o.
Proof. by destruct o as [| |[]|[]|[]|[]|[]|[]|[]|[]|[]|[]|[]| | | | | |]. Qed.

Lemma within_ge0 x hi : 0 <= x -> negb (within 0 hi x) = (hi <=? x).
Proof. intros. unfold within. rewrite (proj2 (Z.leb_le 0 x)) by done. cbn. apply eq_true_iff_eq. rewrite negb_true_iff, Z.ltb_ge, Z.leb_le. done. Qed.

Lemma within_lt x hi : x < hi -> negb (within 0 hi x) = (x <? 0).
Proof.
  intros. unfold within. rewrite (proj2 (Z.ltb_lt x hi)), andb_true_r by done.
  apply eq_true_iff_eq. rewrite negb_true_iff, Z.ltb_lt, Z.leb_gt. done.
Qed.

(** C28. The lazily evaluated flags are the architectural ones: whatever the
    width, the operands and the incoming carry, [helper_cc_compute_all] applied
    to the result and operand the translator leaves behind (their bits above
    the width arbitrary) gives the carry, parity, auxiliary-carry, zero, sign
    and overflow flags of the exact addition, subtraction, increment or
    decrement. *)
Theorem cc_flags_architectural (w : width) (o : arith) (a b : Z) (c : bool) (dst src src2 : Z) :
  is_u (data_bits w) a -> is_u (data_bits w) b ->
  wrap (data_bits w) dst = wrap (data_bits w) (exact o a b c) ->
  wrap (data_bits w) src = lazy_src o b c -> wrap (data_bits w) src2 = b2z c ->
  status_of (helper_cc_compute_all dst src src2 (cc_number (lazy_op o w))) = architectural w o a b c.
Proof.
  unfold is_u. intros Ha Hb Ed Es E2. unfold helper_cc_compute_all. rewrite cc_decode_number.
  pose proof (b2z_01 c). pose proof (Z.mod_pos_bound a 16 ltac:(lia)). pose proof (Z.mod_pos_bound b 16 ltac:(lia)).
  assert (Hz : wrap (data_bits w) 0 = b2z false) by apply Zmod_0_l.
  unfold architectural. destruct o; cbn [lazy_op lazy_src exact] in *.
  - rewrite add_is_adc, (adc_status w dst src 0 a b false); rewrite ?Z.add_0_r; auto.
    by rewrite !within_ge0 by lia.
  - rewrite (adc_status w dst src src2 a b c); auto. by rewrite !within_ge0 by lia.
  - rewrite sub_is_sbb, (sbb_status w dst src 0 a b false); rewrite ?Z.sub_0_r; auto.
    by rewrite !within_lt by lia.
  - rewrite (sbb_status w dst src src2 a b c); auto. by rewrite !within_lt by lia.
  - rewrite (inc_status w dst src a c); auto. by rewrite !within_ge0 by lia.
  - rewrite (dec_status w dst src a c); auto. by rewrite !within_lt by lia.
Qed.

(** A 16-bit subtraction with garbage above the operands. *)
Lemma cc_flags_architectural_witness :
  status_of (helper_cc_compute_all 0xabcd7fff 0x10001 0 (cc_number (CC_SUB WW))) =
  mkStatus false true true false false true.
Proof. by rewrite (cc_flags_architectural WW ASub 0x8000 1 false); try (split; [done|reflexivity]). Defined.

(** ** The carry on its own *)
Lemma land_sel_c b m : Z.land m CC_C = 0 -> Z.land (sel b m) CC_C = 0.
Proof. by destruct b. Qed.

Lemma land_land_c x m : Z.land m CC_C = 0 -> Z.land (Z.land x m) CC_C = 0.
Proof. intros E. by rewrite <-Z.land_assoc, E, Z.land_0_r. Qed.

(** No other flag interferes with the carry. *)
Lemma flags_or_carry cf dst af z s ovf :
  Z.land z CC_C = 0 -> Z.land s CC_C = 0 -> Z.land af CC_C = 0 -> Z.land ovf CC_C = 0 ->
  Z.land (flags_or cf (parity dst) af z s ovf) CC_C = Z.land cf CC_C.
Proof.
  intros Hz Hs Ha Ho. unfold flags_or.
  by rewrite !Z.land_lor_distr_l, Hz, Hs, Ha, Ho, parity_even, (land_sel_c _ CC_P), !Z.lor_0_r.
Qed.

Lemma b2z_carry b : Z.land (b2z b) CC_C = b2z b.
Proof. by destruct b. Qed.

Lemma land_carry_idem x : Z.land (Z.land x CC_C) CC_C = Z.land x CC_C.
Proof. by rewrite <-Z.land_assoc. Qed.

(** The range the translator keeps the lazy operands in: the carry an INC or
    DEC preserves, and the one an ADCX leaves, are bits; an operand is a
    64-bit register. *)
Definition cc_ranges (o : CCOp) (dst src : Z) : Prop :=
  match o with
  | CC_INC _ | CC_DEC _ => 0 <= src <= 1
  | CC_ADCX | CC_ADCOX => 0 <= dst <= 1
  | CC_MUL _ => is_u 64 src
  | _ => True
  end.

Ltac carry_side :=
  unfold zf_of, sf_of; rewrite ?shl6, ?sel_mul;
  first [apply land_sel_c; reflexivity|apply land_land_c; reflexivity|reflexivity].

Lemma carry_01 x : 0 <= x <= 1 -> Z.land x CC_C = x.
Proof. intros Hx. assert (x = 0 \/ x = 1) as [->| ->] by lia; done. Qed.

Lemma wrap_01 w x : 0 <= x <= 1 -> wrap (data_bits w) x = x /\ s32 x = x.
Proof. intros Hx. assert (x = 0 \/ x = 1) as [->| ->] by lia; by destruct w. Qed.

Lemma s64_zero x : is_u 64 x -> (s64 x =? 0) = (x =? 0).
Proof.
  unfold is_u, s64, swrap. cbv zeta. intros Hx. rewrite Z.mod_small by lia. change (64 - 1) with 63.
  assert (E : 2 ^ 64 = 2 * 2 ^ 63) by reflexivity. assert (0 < 2 ^ 63) by reflexivity.
  destruct (Z.ltb_spec x (2 ^ 63)); [done|].
  transitivity false; [|symmetry]; apply Z.eqb_neq; lia.
Qed.

Lemma adcx_carry x dst : 0 <= dst <= 1 -> Z.land (u64 (Z.lor (clr x CC_C) (dst * CC_C))) CC_C = dst.
Proof.
  intros Hd. unfold u64, wrap. rewrite <-Z.land_ones, <-Z.land_assoc by lia.
  change (Z.land (Z.ones 64) CC_C) with CC_C. rewrite Z.land_lor_distr_l, <-Z.land_assoc.
  change (Z.land (Z.lnot CC_C) CC_C) with 0. rewrite Z.land_0_r, Z.lor_0_l, Z.mul_1_r. by apply carry_01.
Qed.

Lemma u64_carry x : Z.land (u64 x) CC_C = Z.land x CC_C.
Proof. unfold u64, wrap. by rewrite <-Z.land_ones, <-Z.land_assoc by lia. Qed.

(** The carry-only evaluation agrees with the full one: for every
    condition-code operation (also numbers outside the enumeration),
    [helper_cc_compute_c] is the carry bit of [helper_cc_compute_all]. *)
Theorem cc_compute_c_agrees (dst src src2 op : Z) :
  cc_ranges (cc_decode op) dst src ->
  helper_cc_compute_c dst src src2 op = Z.land (helper_cc_compute_all dst src src2 op) CC_C.
Proof.
  unfold cc_ranges, helper_cc_compute_c, helper_cc_compute_all.
  destruct (cc_decode op) as [| |w|w|w|w|w|w|w|w|w|w|w| | | | | |]; intros H; try reflexivity.
  - unfold compute_all_mul. rewrite flags_or_carry; [|carry_side..]. rewrite b2z_carry. by rewrite s64_zero.
  - unfold compute_all_add. rewrite flags_or_carry; [|carry_side..]. rewrite b2z_carry. done.
  - unfold compute_all_adc. rewrite flags_or_carry; [|carry_side..]. rewrite b2z_carry. done.
  - unfold compute_all_sub. rewrite flags_or_carry; [|carry_side..]. rewrite b2z_carry. done.
  - unfold compute_all_sbb. rewrite flags_or_carry; [|carry_side..]. rewrite b2z_carry. done.
  - unfold compute_all_logic. rewrite flags_or_carry; [done|carry_side..].
  - unfold compute_all_inc. rewrite flags_or_carry; [|carry_side..]. destruct (wrap_01 w _ H) as [-> ->]. by rewrite carry_01.
  - unfold compute_all_dec. rewrite flags_or_carry; [|carry_side..]. destruct (wrap_01 w _ H) as [-> ->]. by rewrite carry_01.
  - unfold compute_all_shl. rewrite flags_or_carry; [|carry_side..]. by rewrite land_carry_idem.
  - unfold compute_all_sar. rewrite flags_or_carry; [|carry_side..]. rewrite land_carry_idem.
    unfold wrap. rewrite <-Z.land_ones, <-Z.land_assoc by (by destruct w). by destruct w.
  - unfold compute_all_bmilg, flags_or. rewrite !Z.land_lor_distr_l, b2z_carry.
    unfold zf_of, sf_of. rewrite sel_mul, (land_sel_c _ CC_Z), (land_land_c _ CC_S), !Z.lor_0_r by done. done.
  - unfold compute_all_adcx. by rewrite adcx_carry.
  - unfold compute_all_adox. rewrite u64_carry, Z.land_lor_distr_l, <-Z.land_assoc.
    change (Z.land (Z.lnot CC_O) CC_C) with CC_C. change CC_O with (2 * 2 ^ 10).
    replace (Z.land (src2 * (2 * 2 ^ 10)) CC_C) with 0; [by rewrite Z.lor_0_r|].
    symmetry. change CC_C with (Z.ones 1). rewrite Z.land_ones by lia. change (2 ^ 1) with 2.
    replace (src2 * (2 * 2 ^ 10)) with (src2 * 2 ^ 10 * 2) by lia. apply Z.mod_mul. lia.
  - unfold compute_all_adcox. rewrite u64_carry, !Z.land_lor_distr_l, <-Z.land_assoc.
    change (Z.land (Z.lnot (Z.lor CC_C CC_O)) CC_C) with 0. rewrite Z.land_0_r, Z.lor_0_l, Z.mul_1_r, carry_01 by done.
    replace (Z.land (src2 * CC_O) CC_C) with 0; [by rewrite Z.lor_0_r|].
    symmetry. change CC_C with (Z.ones 1). rewrite Z.land_ones by lia. change CC_O with (2 ^ 10 * 2). 
    rewrite Z.mul_assoc. apply Z.mod_mul. done.
  - by destruct (nz src).
Qed.

Lemma cc_compute_c_agrees_witness :
  helper_cc_compute_c 0x7f 1 0 (cc_number (CC_INC WB)) = Z.land 0x85 CC_C.
Proof. rewrite cc_compute_c_agrees; [reflexivity|vm_compute; done]. Defined.
