(* ===== verification/Mem.v ===== *)
(** * Physical memory: what a load sees after a store *)
From S2P Require Import Prelude Machine.

Definition mem_wf (mm : gmap Z Z) : Prop := forall a, is_u 8 (ldb mm a).

Lemma ldb_insert mm a b x : ldb (<[a := b]> mm) x = if x =? a then b else ldb mm x.
Proof.
  unfold ldb. destruct (Z.eqb_spec x a) as [->|].
  - by rewrite lookup_insert_eq.
  - by rewrite lookup_insert_ne.
Qed.

(** The bytes of a stored value. *)
Lemma ldb_st n a v mm x :
  ldb (st n a v mm) x =
  if (a <=? x) && (x <? a + Z.of_nat n) then v / 256 ^ (x - a) mod 256 else ldb mm x.
Proof.
  revert a v mm. induction n as [|n IH]; intros a v mm; cbn [st].
  - destruct (Z.leb_spec a x), (Z.ltb_spec x (a + Z.of_nat 0)); cbn [andb]; try done; lia.
  - rewrite IH, ldb_insert.
    destruct (Z.leb_spec (a + 1) x), (Z.leb_spec a x), (Z.ltb_spec x (a + 1 + Z.of_nat n)),
      (Z.ltb_spec x (a + Z.of_nat (S n))), (Z.eqb_spec x a); cbn [andb]; try lia; try done.
    + replace (x - a) with (Z.succ (x - (a + 1))) by lia.
      rewrite Z.pow_succ_r, Z.div_div by lia. done.
    + subst x. replace (a - a) with 0 by lia. by rewrite Z.div_1_r.
Qed.

Lemma mem_wf_st n a v mm : mem_wf mm -> mem_wf (st n a v mm).
Proof.
  intros H x. rewrite ldb_st. case_if; [|apply H].
  split; [apply Z.mod_pos_bound; lia|apply (Z.mod_pos_bound _ 256); lia].
Qed.

Lemma ld_range n mm a : mem_wf mm -> 0 <= ld n mm a < 256 ^ Z.of_nat n.
Proof.
  intros H. revert a. induction n as [|n IH]; intros a; [cbn; lia|].
  cbn [ld]. specialize (IH (a + 1)). pose proof (H a) as Hb. unfold is_u in Hb. change (2 ^ 8) with 256 in Hb.
  rewrite Nat2Z.inj_succ, Z.pow_succ_r by lia. lia.
Qed.

(** A load depends only on the bytes it reads. *)
Lemma ld_ext n mm mm' a :
  (forall x, a <= x < a + Z.of_nat n -> ldb mm x = ldb mm' x) -> ld n mm a = ld n mm' a.
Proof.
  revert a. induction n as [|n IH]; intros a H; [done|]. cbn [ld].
  rewrite H by lia. f_equal. f_equal. apply IH. intros x Hx. apply H. lia.
Qed.

(** The [k]th byte of a loaded value. *)
Lemma ld_byte n mm a k : mem_wf mm -> (k < n)%nat ->
  ld n mm a / 256 ^ Z.of_nat k mod 256 = ldb mm (a + Z.of_nat k).
Proof.
  intros H. revert n a. induction k as [|k IH]; intros n a Hk; (destruct n as [|n]; [lia|]); cbn [ld].
  - rewrite Z.div_1_r, Z.add_0_r. rewrite (Z.mul_comm 256), Z.mod_add by lia.
    apply Z.mod_small. apply (H a).
  - rewrite Nat2Z.inj_succ, Z.pow_succ_r, <-Z.div_div by lia.
    rewrite (Z.mul_comm 256), Z.div_add by lia. pose proof (H a) as Hb. unfold is_u in Hb. change (2 ^ 8) with 256 in Hb.
    rewrite (Z.div_small (ldb mm a)), Z.add_0_l by lia. rewrite IH by lia. f_equal. lia.
Qed.

(** A load is determined by its bytes. *)
Lemma ld_bytes n mm a v :
  (forall i, 0 <= i < Z.of_nat n -> ldb mm (a + i) = v / 256 ^ i mod 256) ->
  ld n mm a = v mod 256 ^ Z.of_nat n.
Proof.
  revert a v. induction n as [|n IH]; intros a v H; cbn [ld].
  - by rewrite Z.mod_1_r.
  - pose proof (H 0 ltac:(lia)) as H0. rewrite Z.add_0_r, Z.div_1_r in H0. rewrite H0.
    rewrite (IH (a + 1) (v / 256)).
    + rewrite Nat2Z.inj_succ, Z.pow_succ_r by lia. rewrite Z.rem_mul_r by lia. lia.
    + intros i Hi. replace (a + 1 + i) with (a + (i + 1)) by lia. rewrite H by lia.
      rewrite Z.pow_add_r by lia. rewrite Z.mul_comm, <-Z.div_div by lia. done.
Qed.

Lemma ld_st_same n a v mm : ld n (st n a v mm) a = v mod 256 ^ Z.of_nat n.
Proof.
  apply ld_bytes. intros i Hi. rewrite ldb_st.
  rewrite (proj2 (Z.leb_le a (a + i))), (proj2 (Z.ltb_lt (a + i) _)) by lia. cbn [andb].
  by replace (a + i - a) with i by lia.
Qed.

Lemma ld_st_ne n k a b v mm : a + Z.of_nat n <= b \/ b + Z.of_nat k <= a ->
  ld k (st n a v mm) b = ld k mm b.
Proof.
  intros H. apply ld_ext. intros x Hx. rewrite ldb_st.
  destruct (Z.leb_spec a x), (Z.ltb_spec x (a + Z.of_nat n)); cbn [andb]; try done; lia.
Qed.
