(* ===== verification/Exec.v ===== *)
(** * Helpers that may leave the translated code (target/i386/tcg/excp_helper.c,
    target/i386/tcg/sysemu/svm_helper.c)

    A helper either returns, or leaves through [cpu_loop_exit] with the
    exception recorded in the processor state, or aborts the emulator.  [X] is
    the state and exit monad these three outcomes form.  The processor whose
    helper runs is the argument [d] (the [env] pointer of the C code). *)
From S2P Require Import Prelude Cpu Machine.
#[export] Set Warnings "-notation-overridden".

Inductive outcome (A : Type) : Type :=
| Ret (a : A) (m : Machine)  (* return a *)
| Exit (m : Machine)         (* cpu_loop_exit: longjmp to the execution loop *)
| Abort (m : Machine).       (* cpu_abort, or a failing assert *)
Arguments Ret {A} a m.
Arguments Exit {A} m.
Arguments Abort {A} m.

Definition X (A : Type) : Type := Machine -> outcome A.

#[export] Instance X_ret : MRet X := fun A a m => Ret a m.
#[export] Instance X_bind : MBind X := fun A B f x m =>
  match x m with Ret a m' => f a m' | Exit m' => Exit m' | Abort m' => Abort m' end.

Definition when (b : bool) (x : X unit) : X unit := if b then x else mret tt.
Definition gets {A} (f : Machine -> A) : X A := fun m => Ret (f m) m.
Definition modify (f : Machine -> Machine) : X unit := fun m => Ret tt (f m).
Definition cpu_loop_exit {A} : X A := fun m => Exit m.
Definition cpu_abort {A} : X A := fun m => Abort m.
Definition assert_ (b : bool) : X unit := if b then mret tt else cpu_abort.

(** Running a sequence whose first part is known. *)
Lemma bind_Ret {A B} (f : A -> X B) (x : X A) m a m' : x m = Ret a m' -> (x ≫= f) m = f a m'.
Proof. intros E. unfold mbind, X_bind. by rewrite E. Qed.

Lemma bind_Exit {A B} (f : A -> X B) (x : X A) m m' : x m = Exit m' -> (x ≫= f) m = Exit m'.
Proof. intros E. unfold mbind, X_bind. by rewrite E. Qed.

(** ** Exception numbers (cpu.h, cpu-all.h) and exit codes (svm.h) *)
Definition EXCP02_NMI : Z := 2.
Definition EXCP06_ILLOP : Z := 6.
Definition EXCP08_DBLE : Z := 8.
Definition EXCP0A_TSS : Z := 10.
Definition EXCP0B_NOSEG : Z := 11.
Definition EXCP0C_STACK : Z := 12.
Definition EXCP0D_GPF : Z := 13.
Definition EXCP0E_PAGE : Z := 14.
Definition EXCP12_MCHK : Z := 18.
Definition EXCP_VMEXIT : Z := 0x100.
Definition EXCP_HLT : Z := 0x10001.

Definition SVM_EXIT_READ_CR0 : Z := 0x000.
Definition SVM_EXIT_WRITE_CR0 : Z := 0x010.
Definition SVM_EXIT_READ_DR0 : Z := 0x020.
Definition SVM_EXIT_WRITE_DR0 : Z := 0x030.
Definition SVM_EXIT_EXCP_BASE : Z := 0x040.
Definition SVM_EXIT_INTR : Z := 0x060.
Definition SVM_EXIT_NMI : Z := 0x061.
Definition SVM_EXIT_SMI : Z := 0x062.
Definition SVM_EXIT_VINTR : Z := 0x064.
Definition SVM_EXIT_SWINT : Z := 0x075.
Definition SVM_EXIT_IOIO : Z := 0x07b.
Definition SVM_EXIT_MSR : Z := 0x07c.
Definition SVM_EXIT_SHUTDOWN : Z := 0x07f.
Definition SVM_EXIT_VMMCALL : Z := 0x081.
Definition SVM_EXIT_VMLOAD : Z := 0x082.
Definition SVM_EXIT_VMSAVE : Z := 0x083.
Definition SVM_EXIT_STGI : Z := 0x084.
Definition SVM_EXIT_CLGI : Z := 0x085.
Definition SVM_EXIT_NPF : Z := 0x400.

(** Offsets in [struct vmcb] (svm.h). *)
Definition vmcb_iopm_base_pa : Z := 0x40.
Definition vmcb_msrpm_base_pa : Z := 0x48.
Definition vmcb_int_vector : Z := 0x64.
Definition vmcb_exit_code : Z := 0x70.
Definition vmcb_exit_info_1 : Z := 0x78.
Definition vmcb_exit_info_2 : Z := 0x80.
Definition vmcb_event_inj : Z := 0xa8.
Definition vmcb_event_inj_err : Z := 0xac.

(** ** Physical memory (target/i386/helper.c, [x86_ld*_phys], [x86_st*_phys]) *)
Definition phys_ld (n : nat) (a : Z) : X Z := gets (fun m => ld n (mem m) a).
Definition phys_st (n : nat) (a v : Z) : X unit := modify (fun m => m <| mem := st n a v (mem m) |>).
Definition x86_ldub_phys (a : Z) : X Z := phys_ld 1 a.
Definition x86_lduw_phys (a : Z) : X Z := phys_ld 2 a.
Definition x86_ldl_phys (a : Z) : X Z := phys_ld 4 a.
Definition x86_ldq_phys (a : Z) : X Z := phys_ld 8 a.
Definition x86_stw_phys (a v : Z) : X unit := phys_st 2 a v.
Definition x86_stl_phys (a v : Z) : X unit := phys_st 4 a v.
Definition x86_stl_phys_notdirty (a v : Z) : X unit := phys_st 4 a v.
Definition x86_stq_phys (a v : Z) : X unit := phys_st 8 a v.

Section helpers.
  Context (d : nat).

Definition get_env : X CPUX86State := gets (fun m => env (cpus m !!! d)).
Definition upd_env (f : CPUX86State -> CPUX86State) (m : Machine) : Machine :=
  upd_cpu d (fun c => c <| env := f (env c) |>) m.
Definition mod_env (f : CPUX86State -> CPUX86State) : X unit := modify (upd_env f).

(** ** SVM intercepts *)
Definition cpu_svm_has_intercept (e : CPUX86State) (type : Z) : bool :=
  if (SVM_EXIT_READ_CR0 <=? type) && (type <=? SVM_EXIT_READ_CR0 + 8)
  then nz (Z.land (intercept_cr_read e) (bit (type - SVM_EXIT_READ_CR0)))
  else if (SVM_EXIT_WRITE_CR0 <=? type) && (type <=? SVM_EXIT_WRITE_CR0 + 8)
  then nz (Z.land (intercept_cr_write e) (bit (type - SVM_EXIT_WRITE_CR0)))
  else if (SVM_EXIT_READ_DR0 <=? type) && (type <=? SVM_EXIT_READ_DR0 + 7)
  then nz (Z.land (intercept_dr_read e) (bit (type - SVM_EXIT_READ_DR0)))
  else if (SVM_EXIT_WRITE_DR0 <=? type) && (type <=? SVM_EXIT_WRITE_DR0 + 7)
  then nz (Z.land (intercept_dr_write e) (bit (type - SVM_EXIT_WRITE_DR0)))
  else if (SVM_EXIT_EXCP_BASE <=? type) && (type <=? SVM_EXIT_EXCP_BASE + 31)
  then nz (Z.land (intercept_exceptions e) (bit (type - SVM_EXIT_EXCP_BASE)))
  else nz (Z.land (intercept e) (bit (type - SVM_EXIT_INTR))).

Definition cpu_vmexit {A} (exit_code exit_info_1 : Z) : X A :=
  e ← get_env;
  mod_env (fun e => e <| exception_index := EXCP_VMEXIT |>);;
  x86_stq_phys (vm_vmcb e + vmcb_exit_code) (u32 exit_code);;
  x86_stq_phys (vm_vmcb e + vmcb_exit_info_1) exit_info_1;;
  (* remove any pending exception *)
  mod_env (fun e => e <| old_exception := -1 |>);;
  cpu_loop_exit.

(** The bit of the MSR permission map that guards an MSR: bit and byte. *)
Definition msrpm_pos (ecx : Z) : option (Z * Z) :=
  let c := u32 ecx in
  if c <=? 0x1fff then Some (u32 (ecx * 2 mod 8), u32 (u64 (ecx * 2) / 8))
  else if (0xc0000000 <=? c) && (c <=? 0xc0001fff) then
    let t0 := u32 ((8192 + ecx - 0xc0000000) * 2) in Some (t0 mod 8, t0 / 8)
  else if (0xc0010000 <=? c) && (c <=? 0xc0011fff) then
    let t0 := u32 ((16384 + ecx - 0xc0010000) * 2) in Some (t0 mod 8, t0 / 8)
  else None.

Definition cpu_svm_check_intercept_param (type param : Z) : X unit :=
  e ← get_env;
  if negb (nz (Z.land (hflags e) HF_GUEST_MASK)) then mret tt
  else if negb (cpu_svm_has_intercept e type) then mret tt
  else if type =? SVM_EXIT_MSR then
    addr ← x86_ldq_phys (vm_vmcb e + vmcb_msrpm_base_pa);
    match msrpm_pos (reg e R_ECX) with
    | None => cpu_vmexit type param
    | Some (t0, t1) =>
        b ← x86_ldub_phys (addr + t1);
        when (nz (Z.land b (Z.shiftl (bit param) t0))) (cpu_vmexit type param)
    end
  else cpu_vmexit type param.

Definition helper_svm_check_intercept (type : Z) : X unit := cpu_svm_check_intercept_param type 0.

Definition helper_svm_check_io (port param next_eip_addend : Z) : X unit :=
  e ← get_env;
  when (nz (Z.land (intercept e) (bit (SVM_EXIT_IOIO - SVM_EXIT_INTR))))
    (addr ← x86_ldq_phys (vm_vmcb e + vmcb_iopm_base_pa);
     let mask := u16 (bit (Z.land (Z.shiftr param 4) 7) - 1) in
     w ← x86_lduw_phys (addr + port / 8);
     when (nz (Z.land w (Z.shiftl mask (Z.land port 7))))
       (x86_stq_phys (vm_vmcb e + vmcb_exit_info_2) (u64 (eip e + next_eip_addend));;
        cpu_vmexit SVM_EXIT_IOIO (u32 (Z.lor param (Z.shiftl port 16))))).

(** ** Raising exceptions *)

(** [check_exception]: the exception to deliver, with its error code. *)
Definition contributory (n : Z) : bool := (n =? 0) || ((10 <=? n) && (n <=? 13)).

Definition check_exception (intno error_code : Z) : X (Z * Z) :=
  e ← get_env;
  let first_contributory := contributory (old_exception e) in
  let second_contributory := contributory intno in
  if old_exception e =? EXCP08_DBLE then
    when (nz (Z.land (hflags e) HF_GUEST_MASK)) (cpu_vmexit SVM_EXIT_SHUTDOWN 0);;
    modify (fun m => m <| reset_requested := true |>);;
    mret (EXCP_HLT, error_code)
  else
    let '(intno, error_code) :=
      if (first_contributory && second_contributory)
         || ((old_exception e =? EXCP0E_PAGE) && (second_contributory || (intno =? EXCP0E_PAGE)))
      then (EXCP08_DBLE, 0) else (intno, error_code) in
    when (second_contributory || (intno =? EXCP0E_PAGE) || (intno =? EXCP08_DBLE))
      (mod_env (fun e => e <| old_exception := intno |>));;
    mret (intno, error_code).

Definition raise_interrupt2 {A} (intno is_int err next_eip_addend : Z) : X A :=
  ' (intno, err) ←
    (if is_int =? 0 then
       cpu_svm_check_intercept_param (SVM_EXIT_EXCP_BASE + intno) err;;
       check_exception intno err
     else cpu_svm_check_intercept_param SVM_EXIT_SWINT 0;; mret (intno, err));
  mod_env (fun e => e <| exception_index := intno |> <| error_code := err |>
                      <| exception_is_int := is_int |>
                      <| exception_next_eip := u64 (eip e + next_eip_addend) |>);;
  cpu_loop_exit.

Definition raise_interrupt {A} (intno is_int error_code next_eip_addend : Z) : X A :=
  raise_interrupt2 intno is_int error_code next_eip_addend.
Definition raise_exception_err {A} (n error_code : Z) : X A := raise_interrupt2 n 0 error_code 0.
Definition raise_exception {A} (n : Z) : X A := raise_interrupt2 n 0 0 0.
Definition helper_raise_interrupt (intno next_eip_addend : Z) : X unit :=
  raise_interrupt intno 1 0 next_eip_addend.
Definition helper_raise_exception (n : Z) : X unit := raise_exception n.
End helpers.
