(* ===== verification/Mmu.v ===== *)
(** * Address translation (target/i386/tcg/sysemu/excp_helper.c)

    Page walks in the four formats (legacy, PAE, 4-level, 5-level), nested
    paging, protection keys, the fault path and the guest-virtual loads and
    stores built on them.  The software TLB is not modelled: every access is
    translated, as after a TLB flush.  Page tables and the data they map are in
    RAM. *)
From S2P Require Import Prelude Cpu Machine Exec.

Definition MMU_DATA_LOAD : Z := 0.
Definition MMU_DATA_STORE : Z := 1.
Definition MMU_INST_FETCH : Z := 2.
Definition MMU_KSMAP_IDX : Z := 0.
Definition MMU_USER_IDX : Z := 1.
Definition MMU_KNOSMAP_IDX : Z := 2.

Definition PG_PRESENT_MASK : Z := bit 0.
Definition PG_RW_MASK : Z := bit 1.
Definition PG_USER_MASK : Z := bit 2.
Definition PG_ACCESSED_MASK : Z := bit 5.
Definition PG_DIRTY_MASK : Z := bit 6.
Definition PG_PSE_MASK : Z := bit 7.
Definition PG_PSE_PAT_MASK : Z := bit 12.
Definition PG_ADDRESS_MASK : Z := 0x000ffffffffff000.
Definition PG_HI_USER_MASK : Z := 0x7ff0000000000000.
Definition PG_PKRU_BIT : Z := 59.
Definition PG_PKRU_MASK : Z := Z.shiftl 15 PG_PKRU_BIT.
Definition PG_NX_MASK : Z := bit 63.

Definition PG_ERROR_P_MASK : Z := 0x01.
Definition PG_ERROR_W_BIT : Z := 1.
Definition PG_ERROR_U_MASK : Z := 0x04.
Definition PG_ERROR_RSVD_MASK : Z := 0x08.
Definition PG_ERROR_I_D_MASK : Z := 0x10.
Definition PG_ERROR_PK_MASK : Z := 0x20.

Definition PG_MODE_PAE : Z := bit 0.
Definition PG_MODE_LMA : Z := bit 1.
Definition PG_MODE_NXE : Z := bit 2.
Definition PG_MODE_PSE : Z := bit 3.
Definition PG_MODE_LA57 : Z := bit 4.
Definition PG_MODE_WP : Z := bit 16.
Definition PG_MODE_PKE : Z := bit 17.
Definition PG_MODE_PKS : Z := bit 18.
Definition PG_MODE_SMEP : Z := bit 19.

Definition PAGE_READ : Z := 1.
Definition PAGE_WRITE : Z := 2.
Definition PAGE_EXEC : Z := 4.

Definition CR4_PSE_MASK : Z := bit 4.
Definition CR4_PAE_MASK : Z := bit 5.
Definition CR4_LA57_MASK : Z := bit 12.
Definition CR4_SMEP_MASK : Z := bit 20.
Definition CR4_PKE_MASK : Z := bit 22.
Definition CR4_PKS_MASK : Z := bit 24.
Definition MSR_EFER_NXE : Z := bit 11.
Definition SVM_NPTEXIT_GPA : Z := bit 32.
Definition SVM_NPTEXIT_GPT : Z := bit 33.

(** [x & m] as a condition. *)
Abbreviation has x m := (nz (Z.land x m)).

Definition get_pg_mode (e : CPUX86State) : Z :=
  let flag (b : bool) (m : Z) (x : Z) := if b then Z.lor x m else x in
  if negb (has (crn e 0) CR0_PG_MASK) then 0
  else
    let m := flag (has (crn e 0) CR0_WP_MASK) PG_MODE_WP 0 in
    let m := if has (crn e 4) CR4_PAE_MASK
             then flag (has (efer e) MSR_EFER_NXE) PG_MODE_NXE (Z.lor m PG_MODE_PAE) else m in
    let m := flag (has (crn e 4) CR4_PSE_MASK) PG_MODE_PSE m in
    let m := flag (has (crn e 4) CR4_SMEP_MASK) PG_MODE_SMEP m in
    if has (hflags e) HF_LMA_MASK then
      let m := Z.lor m PG_MODE_LMA in
      let m := flag (has (crn e 4) CR4_PKE_MASK) PG_MODE_PKE m in
      let m := flag (has (crn e 4) CR4_PKS_MASK) PG_MODE_PKS m in
      flag (has (crn e 4) CR4_LA57_MASK) PG_MODE_LA57 m
    else m.

Definition x86_get_a20_mask (e : CPUX86State) : Z :=
  if has (hflags e) HF_SMM_MASK then -1 else a20_mask e.

Definition cpu_mmu_index (e : CPUX86State) : Z :=
  if Z.land (hflags e) HF_CPL_MASK =? 3 then MMU_USER_IDX
  else if negb (has (hflags e) HF_SMAP_MASK) || has (eflags e) AC_MASK
  then MMU_KNOSMAP_IDX else MMU_KSMAP_IDX.

Definition cpu_mmu_index_kernel (e : CPUX86State) : Z :=
  if negb (has (hflags e) HF_SMAP_MASK) then MMU_KNOSMAP_IDX
  else if (Z.land (hflags e) HF_CPL_MASK <? 3) && has (eflags e) AC_MASK
  then MMU_KNOSMAP_IDX else MMU_KSMAP_IDX.

(** ** Walks

    A step of a walk gives its result ([inr]) or the error bits with which the
    code jumps to one of its fault labels ([inl]). *)
Abbreviation walk A := (X (Z + A)).

Definition wbind {A B} (k : A -> walk B) (x : walk A) : walk B :=
  r ← x; match r with inl f => mret (inl f) | inr a => k a end.
Definition wret {A} (a : A) : walk A := mret (inr a).
Definition wfault {A} (bits : Z) : walk A := mret (inl bits).
Definition wlift {A} (x : X A) : walk A := a ← x; wret a.

Lemma wbind_inr {A B} (k : A -> walk B) (x : walk A) m a m' :
  x m = Ret (inr a) m' -> wbind k x m = k a m'.
Proof. intros E. unfold wbind. by rewrite (bind_Ret _ _ _ _ _ E). Qed.

Lemma wbind_inl {A B} (k : A -> walk B) (x : walk A) m f m' :
  x m = Ret (inl f) m' -> wbind k x m = Ret (inl f) m'.
Proof. intros E. unfold wbind. by rewrite (bind_Ret _ _ _ _ _ E). Qed.

Lemma wbind_assoc {A B C} (k2 : B -> walk C) (k1 : A -> walk B) (x : walk A) m :
  wbind k2 (wbind k1 x) m = wbind (fun a => wbind k2 (k1 a)) x m.
Proof. unfold wbind, mbind, X_bind. by destruct (x m) as [[f|a] m'|m'|m']. Qed.

Lemma wlift_Ret {A} (x : X A) m a m' : x m = Ret a m' -> wlift x m = Ret (inr a) m'.
Proof. intros E. unfold wlift. by rewrite (bind_Ret _ _ _ _ _ E). Qed.

Notation "'let!' p := x 'in' k" := (wbind (fun p => k) x)
  (at level 10, p strict pattern, x at level 100, k at level 200) : stdpp_scope.

Definition do_fault : Z := 0.
Definition do_fault_protect : Z := PG_ERROR_P_MASK.
Definition do_fault_rsvd : Z := Z.lor PG_ERROR_RSVD_MASK PG_ERROR_P_MASK.

(** [MMUTranslateFunc]: the second-level translation of a guest-physical
    address, with the protection it narrows ([None] is the NULL pointer of a
    page-table access). *)
Definition MMUTranslateFunc : Type := Z -> Z -> option Z -> X (Z * Z).

Definition GET_HPHYS (hp : option MMUTranslateFunc) (gpa access : Z) (prot : option Z) : X (Z * Z) :=
  match hp with
  | Some f => f gpa access prot
  | None => mret (gpa, default 0 prot)
  end.

(** Where a walk ends: the entry that maps the page, the permissions
    accumulated so far (NX inverted), the page size and the reserved bits. *)
Record leaf := mkLeaf { pte_addr : Z; pte : Z; ptep : Z; page_size : Z; rsvd : Z }.
Inductive level := Leaf (l : leaf) | Table (entry ptep rsvd : Z).

Section walks.
  Context (hp : option MMUTranslateFunc).

(** Fetch the 64-bit entry at [a]: its address after the second level, and the
    entry, unless it is not present or has a bit of [mask] set. *)
Definition entry64 (a mask : Z) : walk (Z * Z) :=
  ' (a, _) ← GET_HPHYS hp a MMU_DATA_STORE None;
  e ← x86_ldq_phys a;
  if negb (has e PG_PRESENT_MASK) then wfault do_fault
  else if has e mask then wfault do_fault_rsvd
  else wret (a, e).

(** Set the accessed bit of the entry. *)
Definition touch (a e : Z) : X Z :=
  if negb (has e PG_ACCESSED_MASK) then
    let e := Z.lor e PG_ACCESSED_MASK in
    x86_stl_phys_notdirty a (u32 e);; mret e
  else mret e.

Definition all_rights : Z := Z.lor PG_NX_MASK (Z.lor PG_USER_MASK PG_RW_MASK).

(** The level above the page-directory-pointer table, in long mode. *)
Definition walk_pml5 (cr3 addr pg_mode rsvd a20 : Z) : walk (Z * Z) :=
  if has pg_mode PG_MODE_LA57 then
    let! (a, e) := entry64 (Z.land (clr cr3 0xfff + Z.shiftl (Z.land (Z.shiftr addr 48) 0x1ff) 3) a20)
                     (Z.lor rsvd PG_PSE_MASK) in
    let! e := wlift (touch a e) in
    wret (e, Z.lxor e PG_NX_MASK)
  else wret (cr3, all_rights).

(** The page-map level 4 and the page-directory-pointer table. *)
Definition walk_pml4 (pml5e ptep addr rsvd a20 : Z) : walk level :=
  let! (a, pml4e) := entry64 (Z.land (Z.land pml5e PG_ADDRESS_MASK
                                      + Z.shiftl (Z.land (Z.shiftr addr 39) 0x1ff) 3) a20)
                       (Z.lor rsvd PG_PSE_MASK) in
  let! pml4e := wlift (touch a pml4e) in
  let ptep := Z.land ptep (Z.lxor pml4e PG_NX_MASK) in
  let! (a, pdpe) := entry64 (Z.land (Z.land pml4e PG_ADDRESS_MASK
                                     + Z.shiftl (Z.land (Z.shiftr addr 30) 0x1ff) 3) a20) rsvd in
  let ptep := Z.land ptep (Z.lxor pdpe PG_NX_MASK) in
  let! pdpe := wlift (touch a pdpe) in
  (* 1 GB page *)
  if has pdpe PG_PSE_MASK then wret (Leaf (mkLeaf a pdpe ptep (1024 * 1024 * 1024) rsvd))
  else wret (Table pdpe ptep rsvd).

Definition walk_pdpt_long (cr3 addr pg_mode rsvd a20 : Z) : walk level :=
  let! (pml5e, ptep) := walk_pml5 cr3 addr pg_mode rsvd a20 in
  walk_pml4 pml5e ptep addr rsvd a20.

Definition walk_pdpt_pae (cr3 addr rsvd a20 : Z) : walk level :=
  ' (a, _) ← GET_HPHYS hp (Z.land (clr cr3 0x1f + Z.land (Z.shiftr addr 27) 0x18) a20) MMU_DATA_STORE None;
  pdpe ← x86_ldq_phys a;
  if negb (has pdpe PG_PRESENT_MASK) then wfault do_fault
  else
    let rsvd := Z.lor rsvd PG_HI_USER_MASK in
    if has pdpe (Z.lor rsvd PG_NX_MASK) then wfault do_fault_rsvd
    else wret (Table pdpe all_rights rsvd).

(** The page directory and the page table of the 64-bit formats. *)
Definition walk_pd (pdpe ptep rsvd addr a20 : Z) : walk leaf :=
  let! (a, pde) := entry64 (Z.land (Z.land pdpe PG_ADDRESS_MASK
                                    + Z.shiftl (Z.land (Z.shiftr addr 21) 0x1ff) 3) a20) rsvd in
  let ptep := Z.land ptep (Z.lxor pde PG_NX_MASK) in
  (* 2 MB page *)
  if has pde PG_PSE_MASK then wret (mkLeaf a pde ptep (2048 * 1024) rsvd)
  else
    let! pde := wlift (touch a pde) in
    let! (a, pte) := entry64 (Z.land (Z.land pde PG_ADDRESS_MASK
                                      + Z.shiftl (Z.land (Z.shiftr addr 12) 0x1ff) 3) a20) rsvd in
    wret (mkLeaf a pte (Z.land ptep (Z.lxor pte PG_NX_MASK)) 4096 rsvd).

(** [do_check_protect]: an entry that maps a page has its low address bits reserved. *)
Definition leaf_rsvd (l : leaf) : leaf :=
  mkLeaf (pte_addr l) (pte l) (ptep l) (page_size l)
    (Z.lor (rsvd l) (clr (Z.land (page_size l - 1) PG_ADDRESS_MASK) PG_PSE_PAT_MASK)).

(** From the page-directory-pointer entry to the page. *)
Definition walk_rest (t : level) (addr a20 : Z) : walk leaf :=
  match t with
  | Leaf l => wret l
  | Table pdpe ptep rsvd => walk_pd pdpe ptep rsvd addr a20
  end.

Definition walk_pae (cr3 addr pg_mode rsvd a20 : Z) : walk leaf :=
  let! t := (if has pg_mode PG_MODE_LMA then walk_pdpt_long cr3 addr pg_mode rsvd a20
             else walk_pdpt_pae cr3 addr rsvd a20) in
  let! l := walk_rest t addr a20 in
  wret (leaf_rsvd l).

(** The 32-bit format. *)
Definition walk_legacy (cr3 addr pg_mode a20 : Z) : walk leaf :=
  ' (a, _) ← GET_HPHYS hp (Z.land (clr cr3 0xfff + Z.land (Z.shiftr addr 20) 0xffc) a20) MMU_DATA_STORE None;
  pde ← x86_ldl_phys a;
  if negb (has pde PG_PRESENT_MASK) then wfault do_fault
  else
    let ptep := Z.lor pde PG_NX_MASK in
    if has pde PG_PSE_MASK && has pg_mode PG_MODE_PSE then
      (* 4 MB page, with bits 20-13 as bits 39-32 of the address *)
      wret (mkLeaf a (Z.lor pde (Z.shiftl (Z.land pde 0x1fe000) (32 - 13))) ptep (4096 * 1024) 0x200000)
    else
      pde ← touch a pde;
      ' (a, _) ← GET_HPHYS hp (Z.land (clr pde 0xfff + Z.land (Z.shiftr addr 10) 0xffc) a20)
                   MMU_DATA_STORE None;
      pte ← x86_ldl_phys a;
      if negb (has pte PG_PRESENT_MASK) then wfault do_fault
      else wret (leaf_rsvd (mkLeaf a pte (Z.land ptep (Z.lor pte PG_NX_MASK)) 4096 0)).
End walks.

(** ** Permissions *)

(** What the page tables allow ([ptep] with NX upright). *)
Definition page_prot (mmu_idx pg_mode ptep : Z) : Z :=
  let is_user := mmu_idx =? MMU_USER_IDX in
  let prot :=
    if negb (mmu_idx =? MMU_KSMAP_IDX) || negb (has ptep PG_USER_MASK) then
      if has ptep PG_RW_MASK || negb (is_user || has pg_mode PG_MODE_WP)
      then Z.lor PAGE_READ PAGE_WRITE else PAGE_READ
    else 0 in
  if negb (has ptep PG_NX_MASK)
     && (is_user || negb (has pg_mode PG_MODE_SMEP && has ptep PG_USER_MASK))
  then Z.lor prot PAGE_EXEC else prot.

(** The protection-key register that applies to the page. *)
Definition page_pkr (e : CPUX86State) (pg_mode ptep : Z) : Z :=
  if has ptep PG_USER_MASK
  then (if has pg_mode PG_MODE_PKE then pkru e else 0)
  else (if has pg_mode PG_MODE_PKS then pkrs e else 0).

(** What the protection key leaves. *)
Definition pkr_prot (pkr pte : Z) (is_user : bool) (pg_mode : Z) : Z :=
  let pk := Z.shiftr (Z.land pte PG_PKRU_MASK) PG_PKRU_BIT in
  let pkr_ad := Z.land (Z.shiftr pkr (pk * 2)) 1 in
  let pkr_wd := Z.land (Z.shiftr pkr (pk * 2)) 2 in
  let all := Z.lor PAGE_READ (Z.lor PAGE_WRITE PAGE_EXEC) in
  if nz pkr_ad then clr all (Z.lor PAGE_READ PAGE_WRITE)
  else if nz pkr_wd && (is_user || has pg_mode PG_MODE_WP) then clr all PAGE_WRITE
  else all.

Record xlate := mkXlate { xlat : Z; x_page_size : Z; x_prot : Z }.

Section translate.
  Context (d : nat).

(** The access is allowed: update the accessed and dirty bits. *)
Definition set_ad (l : leaf) (is_write1 : Z) : X Z :=
  let is_dirty := nz (Z.land is_write1 1) && negb (has (pte l) PG_DIRTY_MASK) in
  if negb (has (pte l) PG_ACCESSED_MASK) || is_dirty then
    let pte := Z.lor (pte l) PG_ACCESSED_MASK in
    let pte := if is_dirty then Z.lor pte PG_DIRTY_MASK else pte in
    x86_stl_phys_notdirty (pte_addr l) (u32 pte);; mret pte
  else mret (pte l).

(** Only a dirty page may be written without another walk. *)
Definition finish (hp : option MMUTranslateFunc) (l : leaf) (addr is_write1 prot a20 : Z) : X xlate :=
  pte ← set_ad l is_write1;
  prot ← (if negb (has pte PG_DIRTY_MASK)
          then assert_ (negb (nz (Z.land is_write1 1)));; mret (clr prot PAGE_WRITE)
          else mret prot);
  let pte := Z.land (Z.land pte a20) (clr PG_ADDRESS_MASK (page_size l - 1)) in
  let page_offset := Z.land addr (page_size l - 1) in
  ' (x, prot) ← GET_HPHYS hp (pte + page_offset) is_write1 (Some prot);
  mret (mkXlate x (page_size l) prot).

(** The protection-key check narrows the permissions, or faults. *)
Definition key_check (prot pkr pte : Z) (is_user : bool) (pg_mode is_write1 : Z) : walk Z :=
  if nz pkr then
    let kprot := pkr_prot pkr pte is_user pg_mode in
    if negb (has kprot (bit is_write1)) then
      assert_ (negb (is_write1 =? 2));;
      wfault (Z.lor PG_ERROR_PK_MASK do_fault_protect)
    else wret (Z.land prot kprot)
  else wret prot.

Definition check_protect (hp : option MMUTranslateFunc) (l : leaf)
    (addr is_write1 mmu_idx pg_mode a20 : Z) : walk xlate :=
  e ← get_env d;
  let is_user := mmu_idx =? MMU_USER_IDX in
  if has (pte l) (rsvd l) then wfault do_fault_rsvd
  else
    let ptep := Z.lxor (ptep l) PG_NX_MASK in
    if is_user && negb (has ptep PG_USER_MASK) then wfault do_fault_protect
    else
      let prot := page_prot mmu_idx pg_mode ptep in
      let pkr := page_pkr e pg_mode ptep in
      let! prot := key_check prot pkr (pte l) is_user pg_mode is_write1 in
      if negb (has prot (bit is_write1)) then wfault do_fault_protect
      else wlift (finish hp l addr is_write1 prot a20).

(** The tail of the fault labels: the access type goes into the error code. *)
Definition fault_code (bits is_write1 mmu_idx pg_mode : Z) : Z :=
  let code := Z.lor bits (Z.shiftl (Z.land is_write1 1) PG_ERROR_W_BIT) in
  let code := if mmu_idx =? MMU_USER_IDX then Z.lor code PG_ERROR_U_MASK else code in
  if (is_write1 =? 2) && (has pg_mode PG_MODE_NXE || has pg_mode PG_MODE_SMEP)
  then Z.lor code PG_ERROR_I_D_MASK else code.

Definition rsvd_mask0 (e : CPUX86State) (pg_mode : Z) : Z :=
  let r := clr PG_ADDRESS_MASK (Z.ones (phys_bits e)) in
  if negb (has pg_mode PG_MODE_NXE) then Z.lor r PG_NX_MASK else r.

(** [inl] is the error code, [inr] stands for PG_ERROR_OK. *)
Definition mmu_translate (hp : option MMUTranslateFunc) (addr cr3 is_write1 mmu_idx pg_mode : Z)
    : X (Z + xlate) :=
  e ← get_env d;
  let a20 := x86_get_a20_mask e in
  r ← (let! l := (if has pg_mode PG_MODE_PAE
                  then walk_pae hp cr3 addr pg_mode (rsvd_mask0 e pg_mode) a20
                  else walk_legacy hp cr3 addr pg_mode a20) in
       check_protect hp l addr is_write1 mmu_idx pg_mode a20);
  match r with
  | inl bits => mret (inl (fault_code bits is_write1 mmu_idx pg_mode))
  | inr x => mret (inr x)
  end.

Definition get_hphys : MMUTranslateFunc := fun gphys access_type prot =>
  e ← get_env d;
  if negb (has (hflags2 e) HF2_NPT_MASK) then mret (gphys, default 0 prot)
  else
    r ← mmu_translate None gphys (nested_cr3 e) access_type MMU_USER_IDX (nested_pg_mode e);
    match r with
    | inr x => mret (xlat x, match prot with Some p => Z.land p (x_prot x) | None => 0 end)
    | inl code =>
        x86_stq_phys (vm_vmcb e + vmcb_exit_info_2) gphys;;
        cpu_vmexit d SVM_EXIT_NPF
          (Z.lor code (match prot with Some _ => SVM_NPTEXIT_GPA | None => SVM_NPTEXIT_GPT end))
    end.

(** [get_hphys2] ignores the result of the walk: after a fault it returns its
    uninitialised local, here [junk]. *)
Definition get_hphys2 (junk gphys access_type : Z) : X Z :=
  e ← get_env d;
  r ← mmu_translate (Some get_hphys) gphys (crn e 3) access_type MMU_KNOSMAP_IDX (get_pg_mode e);
  mret (match r with inr x => xlat x | inl _ => junk end).

(** The page [tlb_set_page_with_attrs] enters, or [None] with the exception
    recorded. *)
Definition handle_mmu_fault (addr is_write1 mmu_idx : Z) : X (option (Z * Z)) :=
  e ← get_env d;
  let pg_mode := get_pg_mode e in
  let sext := Z.shiftr (s64 addr) (if has pg_mode PG_MODE_LA57 then 56 else 47) in
  if has (crn e 0) CR0_PG_MASK && has pg_mode PG_MODE_LMA
     && negb (sext =? 0) && negb (sext =? -1) then
    mod_env d (fun e => e <| error_code := 0 |> <| exception_index := EXCP0D_GPF |>);;
    mret None
  else
    r ← (if negb (has (crn e 0) CR0_PG_MASK) then
           let paddr := if negb (has (hflags e) HF_LMA_MASK) then u32 addr else addr in
           mret (inr (mkXlate paddr 4096 (Z.lor PAGE_READ (Z.lor PAGE_WRITE PAGE_EXEC))))
         else mmu_translate (Some get_hphys) addr (crn e 3) is_write1 mmu_idx pg_mode);
    match r with
    | inr x =>
        assert_ (has (x_prot x) (bit is_write1));;
        mret (Some (clr (xlat x) 0xfff, x_prot x))
    | inl code =>
        e ← get_env d;
        (if has (intercept_exceptions e) (bit EXCP0E_PAGE)
         then x86_stq_phys (vm_vmcb e + vmcb_exit_info_2) addr
         else mod_env d (fun e => e <| cr := <[2%nat := addr]> (cr e) |>));;
        mod_env d (fun e => e <| error_code := code |> <| exception_index := EXCP0E_PAGE |>);;
        mret None
    end.

Definition x86_cpu_tlb_fill (addr access_type mmu_idx : Z) (probe : bool) : X (Z * Z) :=
  r ← handle_mmu_fault addr access_type mmu_idx;
  match r with
  | Some p => mret p
  | None => assert_ (negb probe);; e ← get_env d; raise_exception_err d (exception_index e) (error_code e)
  end.

(** ** Loads and stores at guest-virtual addresses

    An access that crosses a page translates both pages before it touches
    memory. *)
Definition TARGET_PAGE_SIZE : Z := 4096.

Definition cpu_ld_mmuidx (n : nat) (a mmu_idx : Z) : X Z :=
  let a := u64 a in
  let off := a mod TARGET_PAGE_SIZE in
  let n1 := Z.to_nat (TARGET_PAGE_SIZE - off) in
  ' (p1, _) ← x86_cpu_tlb_fill a MMU_DATA_LOAD mmu_idx false;
  if (n <=? n1)%nat then phys_ld n (p1 + off)
  else
    ' (p2, _) ← x86_cpu_tlb_fill (u64 (a - off + TARGET_PAGE_SIZE)) MMU_DATA_LOAD mmu_idx false;
    lo ← phys_ld n1 (p1 + off);
    hi ← phys_ld (n - n1) p2;
    mret (lo + hi * 256 ^ Z.of_nat n1).

Definition cpu_st_mmuidx (n : nat) (a v mmu_idx : Z) : X unit :=
  let a := u64 a in
  let off := a mod TARGET_PAGE_SIZE in
  let n1 := Z.to_nat (TARGET_PAGE_SIZE - off) in
  ' (p1, _) ← x86_cpu_tlb_fill a MMU_DATA_STORE mmu_idx false;
  if (n <=? n1)%nat then phys_st n (p1 + off) v
  else
    ' (p2, _) ← x86_cpu_tlb_fill (u64 (a - off + TARGET_PAGE_SIZE)) MMU_DATA_STORE mmu_idx false;
    phys_st n1 (p1 + off) v;;
    phys_st (n - n1) p2 (v / 256 ^ Z.of_nat n1).

(** [cpu_ld*_kernel], [cpu_st*_kernel] (seg_helper.h). *)
Definition cpu_ld_kernel (n : nat) (a : Z) : X Z :=
  e ← get_env d; cpu_ld_mmuidx n a (cpu_mmu_index_kernel e).
Definition cpu_st_kernel (n : nat) (a v : Z) : X unit :=
  e ← get_env d; cpu_st_mmuidx n a v (cpu_mmu_index_kernel e).
End translate.
