(* ===== verification/MmuFacts.v ===== *)
(** * Address translation is a page walk

    A reference walk (a recursion over the levels of the tree, on the memory as
    it is, without accessed and dirty updates) and the proof that
    [mmu_translate] implements it in long mode. *)
From S2P Require Import Prelude Cpu Machine Mem Exec Mmu.

(** ** Memory up to accessed and dirty bits *)
Definition AD : Z := 0x60.
Definition keep (a : Z) : Z := if a mod 8 =? 0 then Z.lnot AD else -1.
Definition ad_eq (mm mm' : gmap Z Z) : Prop :=
  forall a, Z.land (ldb mm a) (keep a) = Z.land (ldb mm' a) (keep a).

#[export] Instance ad_eq_equiv : Equivalence ad_eq.
Proof.
  split.
  - by intros mm a.
  - intros mm mm' H a. by rewrite H.
  - intros m1 m2 m3 H1 H2 a. by rewrite H1, H2.
Qed.

(** An entry without its accessed and dirty bits. *)
Definition entry_of (mm : gmap Z Z) (a : Z) : Z := clr (ld 8 mm a) AD.

Lemma ldb_eq_off mm mm' a : ad_eq mm mm' -> a mod 8 <> 0 -> ldb mm a = ldb mm' a.
Proof.
  intros H Ha. specialize (H a). unfold keep in H.
  rewrite (proj2 (Z.eqb_neq (a mod 8) 0)), !Z.land_m1_r in H by done. done.
Qed.

Lemma ld_eq_off n mm mm' a k : ad_eq mm mm' -> a mod 8 = 0 -> 0 < k -> k + Z.of_nat n <= 8 ->
  ld n mm (a + k) = ld n mm' (a + k).
Proof.
  intros H Ha. revert k. induction n as [|n IH]; intros k Hk Hn; [done|]. cbn [ld].
  assert ((a + k) mod 8 <> 0).
  { rewrite Z.add_mod, Ha, Z.add_0_l, Z.mod_mod by lia. rewrite Z.mod_small by lia. lia. }
  rewrite (ldb_eq_off mm mm') by done. f_equal. f_equal.
  rewrite <-Z.add_assoc. apply IH; lia.
Qed.

Lemma clr_low x y : Z.land (x + 256 * y) (Z.lnot AD) = Z.land x (Z.lnot AD) + 256 * y.
Proof.
  assert (E : forall u, Z.land u (Z.lnot AD) = Z.land (u mod 256) (Z.lnot AD) + 256 * (u / 256)).
  { intros u. rewrite (Z.div_mod u 256) at 1 by lia. rewrite (Z.add_comm _ (u mod 256)).
    set (r := u mod 256). set (q := u / 256). assert (0 <= r < 256) by (apply Z.mod_pos_bound; lia).
    assert (Er : forall z, 0 <= z < 256 -> forall w, z + 256 * w = Z.lor (Z.shiftl w 8) z).
    { intros z Hz w. rewrite lor_shiftl_add by lia. lia. }
    assert (0 <= Z.land r (Z.lnot AD) < 256).
    { apply (is_u_land 8 r); [lia|unfold is_u; lia]. }
    rewrite !Er by done. bitwise i Hi. rewrite !Z.shiftl_spec by lia.
    destruct (Z.ltb_spec i 8).
    - rewrite !(Z.testbit_neg_r q) by lia. done.
    - assert (Z.testbit r i = false) as ->
        by (apply (is_u_testbit_high 8); [unfold is_u; lia|lia]).
      assert (Z.testbit AD i = false) as -> by (apply (is_u_testbit_high 8); [by vm_compute|lia]).
      cbn. by rewrite !orb_false_r, andb_true_r. }
  rewrite (E (x + 256 * y)), (E x). rewrite (Z.mul_comm 256 y), Z.mod_add, Z.div_add by lia. lia.
Qed.

Lemma entry_ad mm mm' a : ad_eq mm mm' -> a mod 8 = 0 -> entry_of mm a = entry_of mm' a.
Proof.
  intros H Ha. unfold entry_of. change (ld 8 mm a) with (ldb mm a + 256 * ld 7 mm (a + 1)).
  change (ld 8 mm' a) with (ldb mm' a + 256 * ld 7 mm' (a + 1)).
  rewrite !clr_low. rewrite (ld_eq_off 7 mm mm' a 1) by (done || lia).
  specialize (H a). unfold keep in H. by rewrite Ha in H; cbn in H; rewrite H.
Qed.

(** Setting accessed and dirty bits in the low half of an entry. *)
Lemma low_word_byte e b k : 0 <= e -> 0 <= b < 256 -> 0 <= k < 4 ->
  u32 (Z.lor e b) / 256 ^ k mod 256 = Z.lor (e / 256 ^ k mod 256) (if k =? 0 then b else 0).
Proof.
  intros He Hb Hk. assert (E : forall x, x / 256 ^ k mod 256 = wrap 8 (Z.shiftr x (8 * k))).
  { intros x. rewrite Z.shiftr_div_pow2 by lia. rewrite Z.pow_mul_r by lia. done. }
  rewrite !E. bitwise i Hi. rewrite !Z.shiftr_spec by lia. rewrite wrap_testbit, Z.lor_spec by lia.
  destruct (Z.ltb_spec i 8) as [Hi8|]; cbn [andb].
  - rewrite (proj2 (Z.ltb_lt (i + 8 * k) 32)) by lia. cbn [andb].
    destruct (Z.eqb_spec k 0) as [->|]; [by rewrite Z.add_0_r|].
    rewrite Z.testbit_0_l. f_equal. apply (is_u_testbit_high 8); [done|lia].
  - destruct (Z.eqb_spec k 0); [|by rewrite Z.testbit_0_l].
    symmetry. apply (is_u_testbit_high 8); [done|lia].
Qed.

Lemma st_ad mm a b : mem_wf mm -> a mod 8 = 0 -> 0 <= b < 256 -> Z.land b (Z.lnot AD) = 0 ->
  ad_eq mm (st 4 a (u32 (Z.lor (ld 8 mm a) b)) mm).
Proof.
  intros Hm Ha Hb Hk x. rewrite ldb_st.
  destruct (Z.leb_spec a x); [|done]. destruct (Z.ltb_spec x (a + Z.of_nat 4)); [|done]. cbn [andb].
  rewrite low_word_byte by (lia || apply ld_range, Hm).
  pose proof (ld_byte 8 mm a (Z.to_nat (x - a)) Hm ltac:(lia)) as E. rewrite Z2Nat.id in E by lia. rewrite E.
  replace (a + (x - a)) with x by lia. rewrite Z.land_lor_distr_l.
  destruct (Z.eqb_spec (x - a) 0); [|by rewrite Z.land_0_l, Z.lor_0_r].
  replace x with a by lia. unfold keep. rewrite Ha. cbn [Z.eqb]. by rewrite Hk, Z.lor_0_r.
Qed.

(** The entry after the store. *)
Lemma touched_byte mm a b i : mem_wf mm -> 0 <= b < 256 -> 0 <= i < 8 ->
  ldb (st 4 a (u32 (Z.lor (ld 8 mm a) b)) mm) (a + i) = Z.lor (ld 8 mm a) b / 256 ^ i mod 256.
Proof.
  intros Hw Hb Hi. rewrite ldb_st. replace (a + i - a) with i by lia.
  pose proof (ld_range 8 mm a Hw) as Hr.
  rewrite (proj2 (Z.leb_le a (a + i))) by lia. cbn [andb].
  destruct (Z.ltb_spec (a + i) (a + Z.of_nat 4)).
  - assert (E : forall x, x / 256 ^ i mod 256 = wrap 8 (Z.shiftr x (8 * i))).
    { intros x. rewrite Z.shiftr_div_pow2 by lia. rewrite Z.pow_mul_r by lia. done. }
    rewrite !E. bitwise j Hj. rewrite !Z.shiftr_spec, wrap_testbit by lia.
    destruct (Z.ltb_spec j 8); [|done]. by rewrite (proj2 (Z.ltb_lt (j + 8 * i) 32)) by lia.
  - pose proof (ld_byte 8 mm a (Z.to_nat i) Hw ltac:(lia)) as Eb0. rewrite Z2Nat.id in Eb0 by lia. rewrite <-Eb0.
    assert (E : forall x, x / 256 ^ i = Z.shiftr x (8 * i)).
    { intros x. rewrite Z.shiftr_div_pow2 by lia. rewrite Z.pow_mul_r by lia. done. }
    assert (Eb : Z.shiftr b (8 * i) = 0).
    { rewrite Z.shiftr_div_pow2 by lia. apply Z.div_small. split; [lia|].
      apply Z.lt_le_trans with (2 ^ 8); [lia|apply Z.pow_le_mono_r; lia]. }
    by rewrite !E, Z.shiftr_lor, Eb, Z.lor_0_r.
Qed.

(** ** The reference walk *)

(** A level of the tree: the position of its index, and whether an entry of it
    may map a (large) page. *)
Definition levels (pg_mode : Z) : list (Z * bool) :=
  (if has pg_mode PG_MODE_LA57 then [(48, false)] else [])
  ++ [(39, false); (30, true); (21, true); (12, true)].

(** The entries met from the root (last first), each with its address, and the
    size of the page, or the kind of fault. *)
Fixpoint ref_walk (mm : gmap Z Z) (a20 rsvd va table : Z) (es : list (Z * Z)) (ls : list (Z * bool))
    : Z + (list (Z * Z) * Z) :=
  match ls with
  | [] => inl do_fault
  | (s, page) :: ls =>
      let a := Z.land (table + 8 * (Z.shiftr va s mod 512)) a20 in
      let e := entry_of mm a in
      if negb (has e PG_PRESENT_MASK) then inl do_fault
      else if has e (if page then rsvd else Z.lor rsvd PG_PSE_MASK) then inl do_fault_rsvd
      else if (s =? 12) || (page && has e PG_PSE_MASK) then inr ((a, e) :: es, 2 ^ s)
      else ref_walk mm a20 rsvd va (Z.land e PG_ADDRESS_MASK) ((a, e) :: es) ls
  end.

(** The rights of a page are the rights every entry grants. *)
Record rights := mkRights { r_user : bool; r_write : bool; r_exec : bool }.
Definition rights_of (es : list (Z * Z)) : rights :=
  mkRights (forallb (fun p => Z.testbit p.2 2) es) (forallb (fun p => Z.testbit p.2 1) es)
    (forallb (fun p => negb (Z.testbit p.2 63)) es).

(** What an access needs: 0 read, 1 write, 2 fetch. *)
Definition allows (r : rights) (mmu_idx pg_mode acc : Z) : bool :=
  let user := mmu_idx =? MMU_USER_IDX in
  let data := negb ((mmu_idx =? MMU_KSMAP_IDX) && r_user r) in
  if acc =? 0 then data
  else if acc =? 1 then data && (r_write r || negb (user || has pg_mode PG_MODE_WP))
  else r_exec r && (user || negb (has pg_mode PG_MODE_SMEP && r_user r)).

(** The protection key of the page: access-disable and write-disable bits. *)
Definition key_allows (pkr e : Z) (user : bool) (pg_mode acc : Z) : bool :=
  let k := Z.land (Z.shiftr e 59) 15 in
  if acc =? 2 then true
  else negb (Z.testbit pkr (2 * k))
       && negb ((acc =? 1) && Z.testbit pkr (2 * k + 1) && (user || has pg_mode PG_MODE_WP)).

Definition ref_pkr (c : CPUX86State) (r : rights) (pg_mode : Z) : Z :=
  if r_user r then (if has pg_mode PG_MODE_PKE then pkru c else 0)
  else (if has pg_mode PG_MODE_PKS then pkrs c else 0).

(** The access check at the end of the walk: the physical address and page size,
    or the kind of fault. *)
Definition ref_check (c : CPUX86State) (rsvd va acc mmu_idx pg_mode : Z) (es : list (Z * Z)) (size : Z)
    : Z + (Z * Z) :=
  let e := (hd (0, 0) es).2 in
  let r := rights_of es in
  let user := mmu_idx =? MMU_USER_IDX in
  if has e (Z.lor rsvd (clr (Z.land (size - 1) PG_ADDRESS_MASK) PG_PSE_PAT_MASK)) then inl do_fault_rsvd
  else if user && negb (r_user r) then inl do_fault_protect
  else if negb (key_allows (ref_pkr c r pg_mode) e user pg_mode acc)
  then inl (Z.lor PG_ERROR_PK_MASK do_fault_protect)
  else if negb (allows r mmu_idx pg_mode acc) then inl do_fault_protect
  else inr (Z.land (Z.land e (x86_get_a20_mask c)) (clr PG_ADDRESS_MASK (size - 1)) + Z.land va (size - 1), size).

(** The physical address and page size, or the page-fault error code. *)
Definition ref_translate (c : CPUX86State) (mm : gmap Z Z) (cr3 va acc mmu_idx pg_mode : Z)
    : Z + (Z * Z) :=
  let rsvd := rsvd_mask0 c pg_mode in
  match ref_walk mm (x86_get_a20_mask c) rsvd va (Z.land cr3 PG_ADDRESS_MASK) [] (levels pg_mode) with
  | inl bits => inl (fault_code bits acc mmu_idx pg_mode)
  | inr (es, size) =>
      match ref_check c rsvd va acc mmu_idx pg_mode es size with
      | inl bits => inl (fault_code bits acc mmu_idx pg_mode)
      | inr p => inr p
      end
  end.

(** ** The implementation, step by step *)
Lemma has_clr e mask : Z.land mask AD = 0 -> has (clr e AD) mask = has e mask.
Proof.
  intros H. f_equal. rewrite <-Z.land_assoc. f_equal. bitwise i Hi.
  assert (E : Z.testbit (Z.land mask AD) i = false) by (by rewrite H, Z.testbit_0_l).
  rewrite Z.land_spec in E. by destruct (Z.testbit mask i), (Z.testbit AD i).
Qed.

Lemma land_clr e mask : Z.land mask AD = 0 -> Z.land (clr e AD) mask = Z.land e mask.
Proof.
  intros H. rewrite <-Z.land_assoc. f_equal. bitwise i Hi.
  assert (E : Z.testbit (Z.land mask AD) i = false) by (by rewrite H, Z.testbit_0_l).
  rewrite Z.land_spec in E. by destruct (Z.testbit mask i), (Z.testbit AD i).
Qed.

Lemma clr_lor_ad e b : Z.land b (Z.lnot AD) = 0 -> clr (Z.lor e b) AD = clr e AD.
Proof. intros H. by rewrite Z.land_lor_distr_l, H, Z.lor_0_r. Qed.

Lemma land_aligned x y : x mod 8 = 0 -> Z.land x y mod 8 = 0.
Proof.
  change 8 with (2 ^ 3). rewrite <-!Z.land_ones by lia. intros H.
  rewrite <-Z.land_assoc, (Z.land_comm y), Z.land_assoc, H. apply Z.land_0_l.
Qed.

Lemma entry_aligned e x a20 : Z.land (Z.land e PG_ADDRESS_MASK + 8 * x) a20 mod 8 = 0.
Proof.
  apply land_aligned. rewrite (Z.mul_comm 8), Z.mod_add by lia.
  change 8 with (2 ^ 3). rewrite <-Z.land_ones, <-Z.land_assoc by lia.
  change (Z.land PG_ADDRESS_MASK (Z.ones 3)) with 0. apply Z.land_0_r.
Qed.

Lemma index_eq va s : 0 <= s -> Z.shiftl (Z.land (Z.shiftr va s) 0x1ff) 3 = 8 * (Z.shiftr va s mod 512).
Proof.
  intros Hs. rewrite Z.shiftl_mul_pow2 by lia. change 0x1ff with (Z.ones 9). rewrite Z.land_ones by lia.
  change (2 ^ 9) with 512. change (2 ^ 3) with 8. apply Z.mul_comm.
Qed.

(** The accumulated permissions, NX inverted. *)
Definition agrees (ptep : Z) (es : list (Z * Z)) : Prop :=
  Z.testbit ptep 2 = r_user (rights_of es) /\ Z.testbit ptep 1 = r_write (rights_of es) /\
  Z.testbit ptep 63 = r_exec (rights_of es).

Lemma agrees_step ptep es a e : agrees ptep es ->
  agrees (Z.land ptep (Z.lxor e PG_NX_MASK)) ((a, clr e AD) :: es).
Proof.
  intros (Hu & Hw & Hx). unfold agrees, rights_of in *. cbn [r_user r_write r_exec forallb snd] in *.
  rewrite !Z.land_spec, !Z.lxor_spec, !Z.lnot_spec by lia. unfold PG_NX_MASK. rewrite !testbit_bit by lia.
  rewrite Hu, Hw, Hx. change (Z.testbit AD 2) with false. change (Z.testbit AD 1) with false.
  change (Z.testbit AD 63) with false.
  generalize (Z.testbit e 2), (Z.testbit e 1), (Z.testbit e 63).
  generalize (forallb (fun p => Z.testbit p.2 2) es), (forallb (fun p => Z.testbit p.2 1) es),
    (forallb (fun p => negb (Z.testbit p.2 63)) es).
  by intros [] [] [] [] [] [].
Qed.

Lemma ref_walk_path mm a20 rsvd va ls : forall table es es' size p,
  ref_walk mm a20 rsvd va table es ls = inr (es', size) -> p ∈ es -> p ∈ es'.
Proof.
  induction ls as [|[s page] ls IH]; intros table es es' size p H Hp; [done|]. cbn [ref_walk] in H.
  destruct (negb _); [done|]. destruct (has _ _); [done|]. destruct (_ || _).
  - injection H as <- <-. by apply list_elem_of_further.
  - eapply IH; [exact H|]. by apply list_elem_of_further.
Qed.

(** ** Permissions *)
Lemma page_prot_allows r mmu_idx pg_mode ptep acc :
  Z.testbit ptep 2 = r_user r -> Z.testbit ptep 1 = r_write r -> Z.testbit ptep 63 = negb (r_exec r) ->
  0 <= acc <= 2 -> has (page_prot mmu_idx pg_mode ptep) (bit acc) = allows r mmu_idx pg_mode acc.
Proof.
  intros Hu Hw Hx Hacc. unfold page_prot, allows, PG_USER_MASK, PG_RW_MASK, PG_NX_MASK.
  rewrite !nz_land_bit, Hu, Hw, Hx by lia. unfold MMU_USER_IDX, MMU_KSMAP_IDX.
  destruct (Z.eqb_spec mmu_idx 1) as [->|]; cbn [Z.eqb];
    destruct (has pg_mode PG_MODE_WP), (has pg_mode PG_MODE_SMEP), r as [[] [] []];
    cbn [r_user r_write r_exec negb andb orb]; try destruct (mmu_idx =? 0); cbn [negb andb orb];
    (assert (acc = 0 \/ acc = 1 \/ acc = 2) as [->|[->| ->]] by lia); reflexivity.
Qed.

Lemma key_index pte : Z.shiftr (Z.land pte PG_PKRU_MASK) PG_PKRU_BIT = Z.land (Z.shiftr (clr pte AD) 59) 15.
Proof.
  unfold PG_PKRU_MASK, PG_PKRU_BIT. bitwise i Hi. rewrite !Z.shiftr_spec by lia.
  rewrite !Z.land_spec, Z.shiftl_spec, Z.lnot_spec by lia. replace (i + 59 - 59) with i by lia.
  assert (Z.testbit AD (i + 59) = false) as -> by (apply (is_u_testbit_high 8); [by vm_compute|lia]).
  by rewrite andb_true_r.
Qed.

Lemma pkr_prot_allows pkr pte user pg_mode acc : 0 <= acc <= 2 ->
  has (pkr_prot pkr pte user pg_mode) (bit acc) = key_allows pkr (clr pte AD) user pg_mode acc.
Proof.
  intros Hacc. unfold pkr_prot, key_allows. rewrite key_index. set (k := Z.land _ 15).
  assert (Hk : 0 <= k) by (apply Z.land_nonneg; lia).
  assert (E1 : nz (Z.land (Z.shiftr pkr (k * 2)) 1) = Z.testbit pkr (2 * k)).
  { change 1 with (bit 0). rewrite nz_land_bit, Z.shiftr_spec by lia. f_equal. lia. }
  assert (E2 : nz (Z.land (Z.shiftr pkr (k * 2)) 2) = Z.testbit pkr (2 * k + 1)).
  { change 2 with (bit 1) at 2. rewrite nz_land_bit, Z.shiftr_spec by lia. f_equal. lia. }
  rewrite E1, E2. destruct (Z.testbit pkr (2 * k)), (Z.testbit pkr (2 * k + 1)), user, (has pg_mode PG_MODE_WP);
    (assert (acc = 0 \/ acc = 1 \/ acc = 2) as [->|[->| ->]] by lia); reflexivity.
Qed.

Lemma key_allows_0 e user pg_mode acc : key_allows 0 e user pg_mode acc = true.
Proof. unfold key_allows. rewrite !Z.testbit_0_l. by destruct (acc =? 2), (acc =? 1), user. Qed.

Lemma has_land p q acc : 0 <= acc -> has (Z.land p q) (bit acc) = has p (bit acc) && has q (bit acc).
Proof. intros. by rewrite !nz_land_bit, Z.land_spec by done. Qed.

(** The assertion in the key check never fails: an instruction fetch is never
    denied by a key. *)
Lemma key_step prot pkr pte user pg_mode acc m : 0 <= acc <= 2 ->
  if key_allows pkr (clr pte AD) user pg_mode acc then
    exists prot', key_check prot pkr pte user pg_mode acc m = Ret (inr prot') m /\
      forall acc', 0 <= acc' <= 2 ->
        has prot' (bit acc') = has prot (bit acc') && key_allows pkr (clr pte AD) user pg_mode acc'
  else key_check prot pkr pte user pg_mode acc m = Ret (inl (Z.lor PG_ERROR_PK_MASK do_fault_protect)) m.
Proof.
  intros Hacc. unfold key_check. destruct (nz pkr) eqn:En.
  - rewrite pkr_prot_allows by done. destruct (key_allows pkr (clr pte AD) user pg_mode acc) eqn:Ek; cbn [negb].
    + eexists. split; [done|]. intros acc' Hacc'. rewrite has_land, pkr_prot_allows by lia. done.
    + unfold key_allows in Ek. destruct (Z.eqb_spec acc 2); done.
  - apply nz_false in En as ->. rewrite key_allows_0. exists prot. split; [done|].
    intros acc' _. by rewrite key_allows_0, andb_true_r.
Qed.

Section run.
  Context (d : nat) (hp : option MMUTranslateFunc) (m : Machine).
Let M (mm : gmap Z Z) : Machine := m <| mem := mm |>.
  Context (Hhp : forall mm gpa acc p, GET_HPHYS hp gpa acc p (M mm) = Ret (gpa, default 0 p) (M mm)).

(** What the reference walk of the memory [mm0] and the memory now have in common. *)
Record same (mm0 mm : gmap Z Z) : Prop := { same_ad : ad_eq mm0 mm; same_wf : mem_wf mm }.

Lemma entry_step mm0 mm a mask : same mm0 mm -> a mod 8 = 0 -> Z.land mask AD = 0 ->
  let e := entry_of mm0 a in
  entry64 hp a mask (M mm) =
    Ret (if negb (has e PG_PRESENT_MASK) then inl do_fault
         else if has e mask then inl do_fault_rsvd else inr (a, ld 8 mm a)) (M mm) /\
  clr (ld 8 mm a) AD = e.
Proof.
  intros [Hs _] Ha Hk e. assert (E : clr (ld 8 mm a) AD = e) by (symmetry; by apply entry_ad).
  split; [|done]. unfold entry64. rewrite (bind_Ret _ _ _ _ _ (Hhp mm a MMU_DATA_STORE None)).
  rewrite (bind_Ret _ _ (M mm) (ld 8 mm a) (M mm)) by done.
  rewrite <-E, !has_clr by done. by case_ifs.
Qed.

Lemma touch_step mm0 mm a : same mm0 mm -> a mod 8 = 0 ->
  exists mm' e', touch a (ld 8 mm a) (M mm) = Ret e' (M mm') /\ same mm0 mm' /\
    e' = ld 8 mm' a /\ clr e' AD = clr (ld 8 mm a) AD /\
    (Z.testbit (ld 8 mm a) 5 = true -> mm' = mm /\ e' = ld 8 mm a).
Proof.
  intros [Hs Hw] Ha. unfold touch. unfold PG_ACCESSED_MASK at 1. rewrite nz_land_bit by lia.
  pose proof (ld_range 8 mm a Hw) as Hr.
  destruct (Z.testbit (ld 8 mm a) 5) eqn:E5; cbn [negb].
  - exists mm, (ld 8 mm a). done.
  - exists (st 4 a (u32 (Z.lor (ld 8 mm a) PG_ACCESSED_MASK)) mm), (Z.lor (ld 8 mm a) PG_ACCESSED_MASK).
    split; [done|]. split; [split|split; [|split; [|done]]].
    + etransitivity; [exact Hs|]. by apply st_ad.
    + by apply mem_wf_st.
    + rewrite <-(Z.mod_small (Z.lor (ld 8 mm a) PG_ACCESSED_MASK) (256 ^ Z.of_nat 8)) at 1.
      2:{ apply (is_u_lor 64); [lia|exact Hr|by vm_compute]. }
      symmetry. apply ld_bytes. intros i Hi. by apply touched_byte.
    + by apply clr_lor_ad.
Qed.

Record leaf_ok (mm : gmap Z Z) (es : list (Z * Z)) (size rs : Z) (l : leaf) : Prop := {
  lo_aligned : pte_addr l mod 8 = 0;
  lo_pte : pte l = ld 8 mm (pte_addr l);
  lo_head : hd (0, 0) es = (pte_addr l, clr (pte l) AD);
  lo_rights : agrees (ptep l) es;
  lo_size : page_size l = size;
  lo_rsvd : rsvd l = rs;
}.

Definition accessed (mm : gmap Z Z) (es : list (Z * Z)) : Prop :=
  forall p, p ∈ es -> Z.testbit (ld 8 mm p.1) 5 = true.

(** A walk of the implementation from [mm] against the reference on [mm0]. *)
Definition refines (x : walk leaf) (mm0 mm : gmap Z Z) (rs : Z) (r : Z + (list (Z * Z) * Z)) : Prop :=
  exists mm', same mm0 mm' /\
    match r with
    | inl f => x (M mm) = Ret (inl f) (M mm')
    | inr (es, size) =>
        (accessed mm es -> mm' = mm) /\
        exists l, x (M mm) = Ret (inr l) (M mm') /\ leaf_ok mm' es size rs l
    end.

Lemma refines_fault (x : walk leaf) mm0 mm rs f :
  same mm0 mm -> x (M mm) = Ret (inl f) (M mm) -> refines x mm0 mm rs (inl f).
Proof. intros Hs E. by exists mm. Qed.

Lemma head_in (es : list (Z * Z)) p l : p ∈ p :: es ++ l.
Proof. apply list_elem_of_here. Qed.

Lemma walk_pd_step mm0 mm pdpe ptep rs va a20 es :
  same mm0 mm -> agrees ptep es -> Z.land rs AD = 0 ->
  refines (walk_pd hp pdpe ptep rs va a20) mm0 mm rs
    (ref_walk mm0 a20 rs va (Z.land pdpe PG_ADDRESS_MASK) es [(21, true); (12, true)]).
Proof.
  intros Hs Hr Hrs. unfold walk_pd. rewrite (index_eq va 21), (index_eq va 12) by lia. cbn [ref_walk].
  set (a := Z.land (Z.land pdpe PG_ADDRESS_MASK + _) a20).
  assert (Ha : a mod 8 = 0) by apply entry_aligned.
  destruct (entry_step mm0 mm a rs Hs Ha Hrs) as [E Ee].
  set (e := entry_of mm0 a) in *.
  destruct (negb (has e PG_PRESENT_MASK)); [by apply refines_fault, wbind_inl|].
  destruct (has e rs); [by apply refines_fault, wbind_inl|].
  change (21 =? 12) with false. cbn [orb andb].
  assert (Epse : has e PG_PSE_MASK = has (ld 8 mm a) PG_PSE_MASK) by (rewrite <-Ee; by apply has_clr).
  rewrite Epse. unfold refines. rewrite (wbind_inr _ _ _ _ _ E).
  destruct (has (ld 8 mm a) PG_PSE_MASK) eqn:Hpse.
  - exists mm. split; [done|]. split; [done|]. eexists. split; [done|]. rewrite <-Ee.
    split; try done. by apply agrees_step.
  - destruct (touch_step mm0 mm a Hs Ha) as (mm1 & pde & Et & Hs1 & Epde & Ec & Hacc).
    rewrite (wbind_inr _ _ _ _ _ (wlift_Ret _ _ _ _ Et)).
    assert (Eadr : Z.land e PG_ADDRESS_MASK = Z.land pde PG_ADDRESS_MASK).
    { rewrite <-Ee, <-Ec. by apply land_clr. }
    rewrite Eadr. set (b := Z.land (Z.land pde PG_ADDRESS_MASK + _) a20).
    assert (Hb : b mod 8 = 0) by apply entry_aligned.
    destruct (entry_step mm0 mm1 b rs Hs1 Hb Hrs) as [E1 Ee1].
    set (e1 := entry_of mm0 b) in *.
    destruct (negb (has e1 PG_PRESENT_MASK)); [by exists mm1; split; [|apply wbind_inl]|].
    destruct (has e1 rs); [by exists mm1; split; [|apply wbind_inl]|].
    cbn [orb Z.eqb Pos.eqb]. exists mm1. split; [done|]. rewrite (wbind_inr _ _ _ _ _ E1). split.
    + intros H. apply Hacc, (H (a, e)). apply list_elem_of_further, list_elem_of_here.
    + eexists. split; [done|]. rewrite <-Ee1. split; try done.
      apply agrees_step. rewrite <-Ee. by apply agrees_step.
Qed.

Lemma pml4_step mm0 mm pml5e ptep rs va a20 es :
  same mm0 mm -> agrees ptep es -> Z.land rs AD = 0 ->
  refines (let! t := walk_pml4 hp pml5e ptep va rs a20 in walk_rest hp t va a20) mm0 mm rs
    (ref_walk mm0 a20 rs va (Z.land pml5e PG_ADDRESS_MASK) es [(39, false); (30, true); (21, true); (12, true)]).
Proof.
  intros Hs Hr Hrs. unfold walk_pml4. rewrite (index_eq va 39), (index_eq va 30) by lia.
  change [(39, false); (30, true); (21, true); (12, true)]
    with ((39, false) :: (30, true) :: [(21, true); (12, true)]).
  set (ls := [(21, true); (12, true)]). cbn [ref_walk].
  set (a := Z.land (Z.land pml5e PG_ADDRESS_MASK + _) a20).
  assert (Ha : a mod 8 = 0) by apply entry_aligned.
  destruct (entry_step mm0 mm a (Z.lor rs PG_PSE_MASK) Hs Ha) as [E Ee].
  { by rewrite Z.land_lor_distr_l, Hrs. }
  set (e := entry_of mm0 a) in *.
  destruct (negb (has e PG_PRESENT_MASK)); [by apply refines_fault, wbind_inl, wbind_inl|].
  destruct (has e (Z.lor rs PG_PSE_MASK)); [by apply refines_fault, wbind_inl, wbind_inl|].
  change (39 =? 12) with false. cbn [orb andb].
  destruct (touch_step mm0 mm a Hs Ha) as (mm1 & pml4e & Et & Hs1 & Epml4 & Ec & Hacc).
  assert (Eadr : Z.land e PG_ADDRESS_MASK = Z.land pml4e PG_ADDRESS_MASK).
  { rewrite <-Ee, <-Ec. by apply land_clr. }
  rewrite Eadr. set (b := Z.land (Z.land pml4e PG_ADDRESS_MASK + _) a20).
  assert (Hb : b mod 8 = 0) by apply entry_aligned.
  destruct (entry_step mm0 mm1 b rs Hs1 Hb Hrs) as [E1 Ee1]. set (e1 := entry_of mm0 b) in *.
  unfold refines. rewrite wbind_assoc, (wbind_inr _ _ _ _ _ E).
  rewrite wbind_assoc, (wbind_inr _ _ _ _ _ (wlift_Ret _ _ _ _ Et)), wbind_assoc.
  assert (Hin : forall es' size p, ref_walk mm0 a20 rs va (Z.land e1 PG_ADDRESS_MASK) ((b, e1) :: (a, e) :: es) ls
     = inr (es', size) -> p ∈ [(b, e1); (a, e)] -> p ∈ es').
  { intros es' size p Hw Hp. eapply ref_walk_path; [exact Hw|].
    apply list_elem_of_In in Hp. cbn in Hp. destruct Hp as [<-|[<-|[]]];
      [apply list_elem_of_here|apply list_elem_of_further, list_elem_of_here]. }
  destruct (negb (has e1 PG_PRESENT_MASK)); [exists mm1; split; [done|by apply wbind_inl]|].
  destruct (has e1 rs); [exists mm1; split; [done|by apply wbind_inl]|].
  rewrite (wbind_inr _ _ _ _ _ E1), wbind_assoc.
  destruct (touch_step mm0 mm1 b Hs1 Hb) as (mm2 & pdpe & Et1 & Hs2 & Epdpe & Ec1 & Hacc1).
  rewrite (wbind_inr _ _ _ _ _ (wlift_Ret _ _ _ _ Et1)).
  assert (Epse : has e1 PG_PSE_MASK = has pdpe PG_PSE_MASK) by (rewrite <-Ee1, <-Ec1; by apply has_clr).
  rewrite Epse. change (30 =? 12) with false. cbn [orb andb].
  assert (Hr2 : agrees (Z.land (Z.land ptep (Z.lxor pml4e PG_NX_MASK)) (Z.lxor (ld 8 mm1 b) PG_NX_MASK))
                  ((b, e1) :: (a, e) :: es)).
  { rewrite <-Ee1. apply agrees_step. rewrite <-Ee, <-Ec. by apply agrees_step. }
  assert (Hsame : Z.testbit (ld 8 mm a) 5 = true -> Z.testbit (ld 8 mm b) 5 = true -> mm2 = mm).
  { intros H1 H2. destruct (Hacc H1) as [-> _]. by destruct (Hacc1 H2). }
  destruct (has pdpe PG_PSE_MASK).
  - exists mm2. split; [done|]. split.
    + intros H. apply Hsame; [apply (H (a, e))|apply (H (b, e1))];
        [apply list_elem_of_further, list_elem_of_here|apply list_elem_of_here].
    + eexists. split; [done|]. split; try done. cbn. by rewrite Ec1, Ee1.
  - assert (Eadr1 : Z.land e1 PG_ADDRESS_MASK = Z.land pdpe PG_ADDRESS_MASK).
    { rewrite <-Ee1, <-Ec1. by apply land_clr. }
    rewrite Eadr1 in *. destruct (walk_pd_step mm0 mm2 pdpe _ rs va a20 _ Hs2 Hr2 Hrs) as (mm3 & Hs3 & H3).
    exists mm3. split; [done|]. fold ls in H3.
    destruct (ref_walk mm0 a20 rs va _ _ ls) as [f|[es' size]] eqn:Ew; [exact H3|].
    destruct H3 as [Hacc3 H3]. split; [|exact H3]. intros H.
    assert (mm2 = mm) as ->; [|by apply Hacc3].
    apply Hsame; [apply (H (a, e))|apply (H (b, e1))]; eapply Hin; try done;
      [apply list_elem_of_further, list_elem_of_here|apply list_elem_of_here].
Qed.

Lemma agrees_all : agrees all_rights [].
Proof. done. Qed.

Lemma root_address cr3 : is_u 52 cr3 -> clr cr3 0xfff = Z.land cr3 PG_ADDRESS_MASK.
Proof.
  intros H. bitwise i Hi. destruct (Z.testbit cr3 i) eqn:E; [|done]. cbn [andb].
  pose proof (testbit_true_range 52 cr3 i H E) as Hr.
  change 0xfff with (Z.ones 12). change PG_ADDRESS_MASK with (Z.shiftl (Z.ones 40) 12).
  rewrite Z.shiftl_spec by lia. destruct (Z.ltb_spec i 12).
  - by rewrite Z.ones_spec_low, (Z.testbit_neg_r (Z.ones 40)) by lia.
  - by rewrite Z.ones_spec_high, Z.ones_spec_low by lia.
Qed.

Lemma long_step mm0 mm cr3 va pg_mode rs a20 :
  same mm0 mm -> is_u 52 cr3 -> Z.land rs AD = 0 ->
  refines (let! t := walk_pdpt_long hp cr3 va pg_mode rs a20 in walk_rest hp t va a20) mm0 mm rs
    (ref_walk mm0 a20 rs va (Z.land cr3 PG_ADDRESS_MASK) [] (levels pg_mode)).
Proof.
  intros Hs Hc Hrs. unfold walk_pdpt_long, walk_pml5, levels.
  destruct (has pg_mode PG_MODE_LA57); cbn [app].
  - rewrite (index_eq va 48), root_address by (done || lia).
    change ((48, false) :: ?l) with ([(48, false)] ++ l).
    set (ls := [(39, false); (30, true); (21, true); (12, true)]). cbn [app ref_walk].
    set (a := Z.land (Z.land cr3 PG_ADDRESS_MASK + _) a20).
    assert (Ha : a mod 8 = 0) by apply entry_aligned.
    destruct (entry_step mm0 mm a (Z.lor rs PG_PSE_MASK) Hs Ha) as [E Ee].
    { by rewrite Z.land_lor_distr_l, Hrs. }
    set (e := entry_of mm0 a) in *. unfold refines. rewrite !wbind_assoc.
    destruct (negb (has e PG_PRESENT_MASK)); [by exists mm; split; [|apply wbind_inl]|].
    destruct (has e (Z.lor rs PG_PSE_MASK)); [by exists mm; split; [|apply wbind_inl]|].
    change (48 =? 12) with false. cbn [orb andb]. rewrite (wbind_inr _ _ _ _ _ E), !wbind_assoc.
    destruct (touch_step mm0 mm a Hs Ha) as (mm1 & pml5e & Et & Hs1 & Epml5 & Ec & Hacc).
    rewrite (wbind_inr _ _ _ _ _ (wlift_Ret _ _ _ _ Et)).
    assert (Eadr : Z.land e PG_ADDRESS_MASK = Z.land pml5e PG_ADDRESS_MASK).
    { rewrite <-Ee, <-Ec. by apply land_clr. }
    rewrite Eadr, (wbind_inr _ _ _ (pml5e, Z.lxor pml5e PG_NX_MASK) (M mm1)) by done.
    assert (Hr : agrees (Z.lxor pml5e PG_NX_MASK) [(a, e)]).
    { rewrite <-Ee, <-Ec. pose proof (agrees_step all_rights [] a pml5e agrees_all) as H.
      unfold agrees in *. rewrite !Z.land_spec in H. exact H. }
    destruct (pml4_step mm0 mm1 pml5e _ rs va a20 _ Hs1 Hr Hrs) as (mm2 & Hs2 & H2).
    exists mm2. split; [done|]. fold ls in H2.
    destruct (ref_walk mm0 a20 rs va _ _ ls) as [f|[es' size]] eqn:Ew; [exact H2|].
    destruct H2 as [Hacc2 H2]. split; [|exact H2]. intros H. destruct Hacc as [-> _].
    + apply (H (a, e)). eapply ref_walk_path; [exact Ew|]. apply list_elem_of_here.
    + by apply Hacc2.
  - destruct (pml4_step mm0 mm cr3 all_rights rs va a20 [] Hs agrees_all Hrs) as (mm2 & Hs2 & H2).
    exists mm2. split; [done|].
    rewrite wbind_assoc, (wbind_inr _ _ _ (cr3, all_rights) (M mm)) by done. exact H2.
Qed.

Lemma set_ad_step mm0 mm es size rs l acc :
  same mm0 mm -> leaf_ok mm es size rs l ->
  exists mm' pte', set_ad l acc (M mm) = Ret pte' (M mm') /\ same mm0 mm' /\ clr pte' AD = clr (pte l) AD /\
    (nz (Z.land acc 1) = true -> Z.testbit pte' 6 = true) /\
    (Z.testbit (pte l) 5 = true -> (nz (Z.land acc 1) = true -> Z.testbit (pte l) 6 = true) -> mm' = mm).
Proof.
  intros [Hs Hw] [Ha Hp _ _ _ _]. unfold set_ad. cbv zeta.
  change (has (pte l) PG_DIRTY_MASK) with (has (pte l) (bit 6)).
  change (has (pte l) PG_ACCESSED_MASK) with (has (pte l) (bit 5)). rewrite !nz_land_bit by lia.
  set (dirty := nz (Z.land acc 1) && negb (Z.testbit (pte l) 6)).
  set (b := Z.lor PG_ACCESSED_MASK (if dirty then PG_DIRTY_MASK else 0)).
  assert (Hb : 0 <= b < 256 /\ Z.land b (Z.lnot AD) = 0) by (unfold b; destruct dirty; by vm_compute).
  destruct (negb (Z.testbit (pte l) 5) || dirty) eqn:Eb.
  - exists (st 4 (pte_addr l) (u32 (Z.lor (pte l) b)) mm), (Z.lor (pte l) b).
    split; [|split; [split|split; [|split]]].
    + unfold b. rewrite Z.lor_assoc. destruct dirty; [reflexivity|rewrite Z.lor_0_r; reflexivity].
    + etransitivity; [exact Hs|]. rewrite Hp. apply st_ad; tauto.
    + by apply mem_wf_st.
    + apply clr_lor_ad. tauto.
    + intros Hn. unfold b, dirty. rewrite Hn. cbn [andb]. rewrite !Z.lor_spec.
      destruct (Z.testbit (pte l) 6); [done|]. cbn [negb]. by rewrite orb_true_r.
    + intros H5 H6. unfold dirty in Eb. rewrite H5 in Eb.
      destruct (nz (Z.land acc 1)); [rewrite H6 in Eb|]; by cbn in Eb.
  - exists mm, (pte l). split; [done|]. split; [done|]. split; [done|]. split; [|done].
    intros Hn. apply orb_false_iff in Eb as [_ Ed]. unfold dirty in Ed. rewrite Hn in Ed.
    by destruct (Z.testbit (pte l) 6).
Qed.

(** The last step of a walk whose access is allowed. *)
Lemma finish_step mm0 mm es size rs l va acc prot a20 :
  same mm0 mm -> leaf_ok mm es size rs l -> 0 <= acc <= 2 -> has prot (bit acc) = true ->
  exists mm' prot',
    finish hp l va acc prot a20 (M mm) =
      Ret (mkXlate (Z.land (Z.land (hd (0, 0) es).2 a20) (clr PG_ADDRESS_MASK (size - 1))
                    + Z.land va (size - 1)) size prot') (M mm') /\
    same mm0 mm' /\ has prot' (bit acc) = true /\
    (forall acc', 0 <= acc' <= 2 -> has prot' (bit acc') = true -> has prot (bit acc') = true) /\
    (Z.testbit (pte l) 5 = true -> (acc = 1 -> Z.testbit (pte l) 6 = true) -> mm' = mm).
Proof.
  intros Hs Hl Hacc Hprot.
  destruct (set_ad_step mm0 mm es size rs l acc Hs Hl) as (mm' & pte' & E & Hs' & Ec & Hd & Hsame).
  destruct Hl as [Ha Hp Hh Hr Hz Hrs].
  rewrite Hh. cbn [snd]. unfold finish. rewrite Hz, (bind_Ret _ _ _ _ _ E).
  unfold PG_DIRTY_MASK. rewrite nz_land_bit by lia.
  exists mm', (if Z.testbit pte' 6 then prot else clr prot PAGE_WRITE).
  rewrite (bind_Ret _ _ (M mm') (if Z.testbit pte' 6 then prot else clr prot PAGE_WRITE) (M mm')).
  2:{ destruct (Z.testbit pte' 6) eqn:E6; [done|]. cbn [negb].
      destruct (nz (Z.land acc 1)) eqn:En; [discriminate (Hd eq_refl)|done]. }
  rewrite (bind_Ret _ _ _ _ _ (Hhp _ _ _ _)). cbn [default].
  assert (Eaddr : forall k, Z.land (Z.land pte' a20) (clr PG_ADDRESS_MASK k) =
                            Z.land (Z.land (clr (pte l) AD) a20) (clr PG_ADDRESS_MASK k)).
  { intros k. rewrite <-Ec. bitwise i Hi.
    assert (Ed : Z.testbit PG_ADDRESS_MASK i && Z.testbit AD i = false).
    { rewrite <-Z.land_spec. change (Z.land PG_ADDRESS_MASK AD) with 0. apply Z.testbit_0_l. }
    by destruct (Z.testbit pte' i), (Z.testbit a20 i), (Z.testbit PG_ADDRESS_MASK i), (Z.testbit AD i). }
  rewrite Eaddr. split; [done|]. split; [done|]. split; [|split].
  - destruct (Z.testbit pte' 6) eqn:E6; [done|]. rewrite has_land by lia. rewrite Hprot.
    assert (acc = 0 \/ acc = 1 \/ acc = 2) as [->|[->| ->]] by lia; try done. discriminate (Hd eq_refl).
  - intros acc' Hacc' H. destruct (Z.testbit pte' 6); [done|]. rewrite has_land in H by lia. by apply andb_true_iff in H as [? _].
  - intros H5 H6. apply Hsame; [done|]. intros Hn. apply H6.
    assert (acc = 0 \/ acc = 1 \/ acc = 2) as [->|[->| ->]] by lia; done.
Qed.

Lemma check_step mm0 mm es size rs l va acc mmu_idx pg_mode :
  same mm0 mm -> leaf_ok mm es size rs l -> Z.land rs AD = 0 -> 0 <= size -> 0 <= acc <= 2 ->
  let c := env (cpus m !!! d) in
  let run := check_protect d hp (leaf_rsvd l) va acc mmu_idx pg_mode (x86_get_a20_mask c) (M mm) in
  exists mm', same mm0 mm' /\
    (Z.testbit (pte l) 5 = true -> (acc = 1 -> Z.testbit (pte l) 6 = true) -> mm' = mm) /\
    match ref_check c rs va acc mmu_idx pg_mode es size with
    | inl f => run = Ret (inl f) (M mm')
    | inr (pa, sz) => exists prot, run = Ret (inr (mkXlate pa sz prot)) (M mm') /\
        has prot (bit acc) = true /\
        forall acc', 0 <= acc' <= 2 -> has prot (bit acc') = true ->
          ref_check c rs va acc' mmu_idx pg_mode es size = inr (pa, sz)
    end.
Proof.
  intros Hs Hl Hrs Hsz Hacc c run. pose proof Hl as [Ha Hp Hh Hr Hz Hrv].
  set (rs' := Z.lor rs (clr (Z.land (size - 1) PG_ADDRESS_MASK) PG_PSE_PAT_MASK)).
  assert (Hl' : leaf_ok mm es size rs' (leaf_rsvd l)).
  { split; try done. cbn. by rewrite Hrv, Hz. }
  assert (Hrs' : Z.land rs' AD = 0).
  { unfold rs'. rewrite Z.land_lor_distr_l, Hrs, Z.lor_0_l. bitwise i Hi.
    assert (Ed : Z.testbit PG_ADDRESS_MASK i && Z.testbit AD i = false).
    { rewrite <-Z.land_spec. change (Z.land PG_ADDRESS_MASK AD) with 0. apply Z.testbit_0_l. }
    destruct (Z.testbit PG_ADDRESS_MASK i), (Z.testbit AD i); try done; by rewrite ?andb_false_r. }
  assert (Efault : forall f, run = Ret (inl f) (M mm) -> exists mm', same mm0 mm' /\
    (Z.testbit (pte l) 5 = true -> (acc = 1 -> Z.testbit (pte l) 6 = true) -> mm' = mm) /\ run = Ret (inl f) (M mm')).
  { intros f E. by exists mm. }
  unfold ref_check. rewrite Hh. cbn [snd]. fold rs'. rewrite (has_clr (pte l) rs') by done.
  set (ptep' := Z.lxor (ptep l) PG_NX_MASK).
  assert (Hpp : Z.testbit ptep' 2 = r_user (rights_of es) /\ Z.testbit ptep' 1 = r_write (rights_of es)
                /\ Z.testbit ptep' 63 = negb (r_exec (rights_of es))).
  { destruct Hr as (H2 & H1 & H63). unfold ptep', PG_NX_MASK. rewrite !Z.lxor_spec, !testbit_bit by lia.
    rewrite H2, H1, H63. cbn. by rewrite !xorb_false_r, xorb_true_r. }
  destruct Hpp as (H2 & H1 & H63).
  assert (Eu : has ptep' PG_USER_MASK = r_user (rights_of es)) by (unfold PG_USER_MASK; by rewrite nz_land_bit).
  assert (Epkr : page_pkr c pg_mode ptep' = ref_pkr c (rights_of es) pg_mode).
  { unfold page_pkr, ref_pkr. by rewrite Eu. }
  unfold run, check_protect. rewrite (bind_Ret _ _ (M mm) c (M mm)) by done.
  cbn [leaf_rsvd pte rsvd ptep]. rewrite Hrv, Hz. fold rs' ptep'. rewrite Eu, Epkr.
  destruct (has (pte l) rs'); [by exists mm|].
  destruct ((mmu_idx =? MMU_USER_IDX) && negb (r_user (rights_of es))) eqn:Euser; [by exists mm|].
  pose proof (key_step (page_prot mmu_idx pg_mode ptep') (ref_pkr c (rights_of es) pg_mode) (pte l)
    (mmu_idx =? MMU_USER_IDX) pg_mode acc (M mm) Hacc) as Hkey.
  destruct (key_allows _ _ _ _ acc) eqn:Ek; cbn [negb]; [|exists mm; split; [done|split; [done|by apply wbind_inl]]].
  destruct Hkey as (prot & E & Hprot). rewrite (wbind_inr _ _ _ _ _ E).
  rewrite Hprot, (page_prot_allows (rights_of es)), Ek, andb_true_r by done.
  destruct (allows (rights_of es) mmu_idx pg_mode acc) eqn:Eal; cbn [negb]; [|by exists mm].
  assert (Hpa : has prot (bit acc) = true) by (by rewrite Hprot, (page_prot_allows (rights_of es)), Eal, Ek).
  destruct (finish_step mm0 mm es size rs' (leaf_rsvd l) va acc prot (x86_get_a20_mask c) Hs Hl' Hacc Hpa)
    as (mm' & prot' & Ef & Hs' & Hb & Hsub & Hsame).
  exists mm'. split; [done|]. split; [done|]. exists prot'.
  rewrite (wlift_Ret _ _ _ _ Ef), Hh. split; [done|]. split; [done|].
  intros acc' Hacc' H. apply Hsub in H; [|done]. rewrite Hprot, (page_prot_allows (rights_of es)) in H by done.
  by apply andb_true_iff in H as [-> ->].
Qed.
End run.

(** ** The whole translation *)

(** The second level is the identity: there is none, or nested paging is off. *)
Definition no_nesting (d : nat) (hp : option MMUTranslateFunc) (m : Machine) : Prop :=
  hp = None \/ (hp = Some (get_hphys d) /\ has (hflags2 (env (cpus m !!! d))) HF2_NPT_MASK = false).

Lemma no_nesting_id d hp m mm gpa acc p : no_nesting d hp m ->
  GET_HPHYS hp gpa acc p (m <| mem := mm |>) = Ret (gpa, default 0 p) (m <| mem := mm |>).
Proof.
  intros [->|[-> Hn]]; [done|]. unfold GET_HPHYS, get_hphys.
  rewrite (bind_Ret _ _ _ (env (cpus m !!! d)) (m <| mem := mm |>)) by done. by rewrite Hn.
Qed.

Lemma rsvd_mask0_ad c pg_mode : Z.land (rsvd_mask0 c pg_mode) AD = 0.
Proof.
  assert (E : forall x, Z.land (clr PG_ADDRESS_MASK x) AD = 0).
  { intros x. rewrite <-Z.land_assoc, (Z.land_comm (Z.lnot x)), Z.land_assoc. apply Z.land_0_l. }
  unfold rsvd_mask0. case_if; [|apply E]. by rewrite Z.land_lor_distr_l, E.
Qed.

Lemma ref_walk_size mm a20 rsvd va ls : forall table es es' size,
  ref_walk mm a20 rsvd va table es ls = inr (es', size) -> 0 <= size.
Proof.
  induction ls as [|[s page] ls IH]; intros table es es' size H; [done|]. cbn [ref_walk] in H.
  destruct (negb _); [done|]. destruct (has _ _); [done|]. destruct (_ || _); [|by eapply IH].
  injection H as <- <-. apply Z.pow_nonneg. lia.
Qed.

(** The page is mapped by entries that are marked accessed, and dirty if the
    access writes: a translation then leaves memory alone. *)
Definition settled (c : CPUX86State) (mm : gmap Z Z) (cr3 va acc pg_mode : Z) : Prop :=
  match ref_walk mm (x86_get_a20_mask c) (rsvd_mask0 c pg_mode) va (Z.land cr3 PG_ADDRESS_MASK) []
          (levels pg_mode) with
  | inl _ => False
  | inr (es, _) => accessed mm es /\ (acc = 1 -> Z.testbit (ld 8 mm (hd (0, 0) es).1) 6 = true)
  end.

Lemma ref_walk_nonempty mm a20 rsvd va ls : forall table es es' size,
  ref_walk mm a20 rsvd va table es ls = inr (es', size) -> exists p l, es' = p :: l.
Proof.
  induction ls as [|[s page] ls IH]; intros table es es' size H; [done|]. cbn [ref_walk] in H.
  destruct (negb _); [done|]. destruct (has _ _); [done|]. destruct (_ || _); [|by eapply IH].
  injection H as <- <-. eauto.
Qed.

Lemma walk_pae_long hp cr3 va pg_mode rs a20 m : has pg_mode PG_MODE_LMA = true ->
  walk_pae hp cr3 va pg_mode rs a20 m =
  wbind (fun l => wret (leaf_rsvd l))
    (let! t := walk_pdpt_long hp cr3 va pg_mode rs a20 in walk_rest hp t va a20) m.
Proof. intros H. unfold walk_pae. rewrite H, wbind_assoc. done. Qed.

Section whole.
  Context (d : nat) (hp : option MMUTranslateFunc) (m : Machine) (cr3 va acc mmu_idx pg_mode : Z).
  Context (Hhp : no_nesting d hp m) (Hw : mem_wf (mem m)) (Hcr3 : is_u 52 cr3) (Hacc : 0 <= acc <= 2).
  Context (Hpae : has pg_mode PG_MODE_PAE = true) (Hlma : has pg_mode PG_MODE_LMA = true).
Let c := env (cpus m !!! d).
Let ref (a : Z) := ref_translate c (mem m) cr3 va a mmu_idx pg_mode.

(** The implementation against the reference, with what happens to memory. *)
Lemma translate_step :
  exists mm', ad_eq (mem m) mm' /\ mem_wf mm' /\
    match ref acc with
    | inl code => mmu_translate d hp va cr3 acc mmu_idx pg_mode m = Ret (inl code) (m <| mem := mm' |>)
    | inr (pa, size) =>
        exists prot,
          mmu_translate d hp va cr3 acc mmu_idx pg_mode m = Ret (inr (mkXlate pa size prot)) (m <| mem := mm' |>) /\
          has prot (bit acc) = true /\
          (forall acc', 0 <= acc' <= 2 -> has prot (bit acc') = true -> ref acc' = inr (pa, size)) /\
          (settled c (mem m) cr3 va acc pg_mode -> mm' = mem m)
    end.
Proof.
  assert (Hid : forall mm gpa a p, GET_HPHYS hp gpa a p (m <| mem := mm |>) = Ret (gpa, default 0 p) (m <| mem := mm |>))
    by (intros; by apply (no_nesting_id d)).
  assert (Em : m <| mem := mem m |> = m) by (by destruct m).
  assert (Hs : same (mem m) (mem m)) by (split; [reflexivity|done]).
  unfold mmu_translate. rewrite (bind_Ret _ _ m c m) by done. rewrite Hpae.
  destruct (long_step hp m Hid (mem m) (mem m) cr3 va pg_mode (rsvd_mask0 c pg_mode) (x86_get_a20_mask c)
    Hs Hcr3 (rsvd_mask0_ad c pg_mode)) as (mm1 & Hs1 & H1).
  rewrite Em in H1. pose proof (walk_pae_long hp cr3 va pg_mode (rsvd_mask0 c pg_mode) (x86_get_a20_mask c) m Hlma) as Ep.
  unfold ref, ref_translate, settled.
  destruct (ref_walk (mem m) (x86_get_a20_mask c) (rsvd_mask0 c pg_mode) va _ [] (levels pg_mode))
    as [f|[es size]] eqn:Ew.
  - exists mm1. split; [apply Hs1|]. split; [apply Hs1|]. rewrite (wbind_inl _ _ _ _ _ H1) in Ep.
    by rewrite (bind_Ret _ _ _ _ _ (wbind_inl _ _ _ _ _ Ep)).
  - destruct H1 as (Hacc1 & l & E & Hl). rewrite (wbind_inr _ _ _ _ _ E) in Ep.
    destruct (check_step d hp m Hid (mem m) mm1 es size _ l va acc mmu_idx pg_mode Hs1 Hl
      (rsvd_mask0_ad c pg_mode) ltac:(by eapply ref_walk_size) Hacc) as (mm2 & Hs2 & Hsame & H2).
    fold c in H2, Hsame. exists mm2. split; [apply Hs2|]. split; [apply Hs2|].
    unfold mbind, X_bind. rewrite (wbind_inr _ _ _ (leaf_rsvd l) (m <| mem := mm1 |>)) by done.
    destruct (ref_check c _ va acc mmu_idx pg_mode es size) as [f|[pa sz]]; [by rewrite H2|].
    destruct H2 as (prot & -> & Hp & Hall). exists prot. split; [done|]. split; [done|]. split.
    + intros acc' Ha' Hb. by rewrite (Hall acc' Ha' Hb).
    + intros [Ha Hd]. destruct (Hacc1 Ha) as []. destruct Hl as [_ Hpte Hh _ _ _].
      apply Hsame; rewrite Hpte; [|by rewrite Hh in Hd].
      destruct (ref_walk_nonempty _ _ _ _ _ _ _ _ _ Ew) as (p & l' & ->). cbn in Hh. subst p.
      apply (Ha (pte_addr l, clr (pte l) AD)). apply list_elem_of_here.
Qed.
End whole.

(** C10. In long mode (4- and 5-level paging, without nested paging)
    [mmu_translate] implements the reference walk: it succeeds with exactly the
    reference's physical address and page size, or fails with exactly the
    reference's page-fault error code; memory changes only in accessed and dirty
    bits of aligned entries; and the permissions it hands to the TLB include the
    access made and no access the reference walk would refuse. *)
Theorem mmu_translate_refines (d : nat) (hp : option MMUTranslateFunc) (m : Machine)
    (cr3 va acc mmu_idx pg_mode : Z) :
  no_nesting d hp m -> mem_wf (mem m) -> is_u 52 cr3 -> 0 <= acc <= 2 ->
  has pg_mode PG_MODE_PAE = true -> has pg_mode PG_MODE_LMA = true ->
  let ref a := ref_translate (env (cpus m !!! d)) (mem m) cr3 va a mmu_idx pg_mode in
  exists mm', ad_eq (mem m) mm' /\
    match ref acc with
    | inl code => mmu_translate d hp va cr3 acc mmu_idx pg_mode m = Ret (inl code) (m <| mem := mm' |>)
    | inr (pa, size) =>
        exists prot,
          mmu_translate d hp va cr3 acc mmu_idx pg_mode m = Ret (inr (mkXlate pa size prot)) (m <| mem := mm' |>) /\
          has prot (bit acc) = true /\
          (forall acc', 0 <= acc' <= 2 -> has prot (bit acc') = true -> ref acc' = inr (pa, size))
    end.
Proof.
  intros Hn Hw Hc Ha Hp Hl. cbv zeta.
  destruct (translate_step d hp m cr3 va acc mmu_idx pg_mode Hn Hw Hc Ha Hp Hl) as (mm' & Had & _ & H).
  exists mm'. split; [done|].
  destruct (ref_translate _ _ _ _ acc _ _) as [code|[pa size]]; [done|].
  destruct H as (prot & E & Hb & Hall & _). by exists prot.
Qed.

(** Page tables for the witnesses: page [k] (virtual address [k * 4096]) is
    mapped to [0x40000 + k * 4096] with the flags of its entry. *)
Definition ex_tables (ptes : list (Z * Z)) : gmap Z Z :=
  fold_right (fun p mm => st 8 (0x4000 + 8 * p.1) (0x40000 + p.1 * 4096 + p.2) mm)
    (st 8 0x3000 0x4067 (st 8 0x2000 0x3067 (st 8 0x1000 0x2067 ∅))) ptes.

Lemma ex_tables_wf ptes : mem_wf (ex_tables ptes).
Proof.
  induction ptes as [|p ptes IH]; [|exact (mem_wf_st 8 _ _ (ex_tables ptes) IH)].
  unfold ex_tables. do 3 apply mem_wf_st. intros a. unfold ldb. by rewrite lookup_empty.
Qed.

Definition ex_mode : Z := Z.lor PG_MODE_PAE (Z.lor PG_MODE_LMA (Z.lor PG_MODE_WP PG_MODE_NXE)).

(** A user-mode store to a read-only page faults with P, W and U set. *)
Lemma mmu_translate_refines_witness :
  exists mm', ad_eq (ex_tables [(16, 5)]) mm' /\
    mmu_translate 0 None 0x10123 0x1000 MMU_DATA_STORE MMU_USER_IDX ex_mode
      (ex_machine 1 <| mem := ex_tables [(16, 5)] |>) = Ret (inl 7) (ex_machine 1 <| mem := mm' |>).
Proof.
  destruct (mmu_translate_refines 0 None (ex_machine 1 <| mem := ex_tables [(16, 5)] |>) 0x1000 0x10123
    MMU_DATA_STORE MMU_USER_IDX ex_mode) as (mm' & Had & H).
  - by left.
  - apply ex_tables_wf.
  - by vm_compute.
  - by vm_compute.
  - done.
  - done.
  - exists mm'. split; [exact Had|].
    assert (E : ref_translate (env (cpus (ex_machine 1 <| mem := ex_tables [(16, 5)] |>) !!! 0%nat))
      (mem (ex_machine 1 <| mem := ex_tables [(16, 5)] |>)) 0x1000 0x10123 MMU_DATA_STORE MMU_USER_IDX ex_mode
      = inl 7) by (vm_compute; reflexivity).
    rewrite E in H. exact H.
Defined.

(** ** Walks do not disturb each other *)

(** What a translation answers: the error code, or the address and page size. *)
Definition answer (o : outcome (Z + xlate)) : option (Z + (Z * Z)) :=
  match o with
  | Ret (inl code) _ => Some (inl code)
  | Ret (inr x) _ => Some (inr (xlat x, x_page_size x))
  | _ => None
  end.

#[export] Instance ref_walk_ad a20 rsvd va e es ls :
  Proper (ad_eq ==> eq) (fun mm => ref_walk mm a20 rsvd va (Z.land e PG_ADDRESS_MASK) es ls).
Proof.
  intros mm mm' H. revert e es. induction ls as [|[s page] ls IH]; intros e es; [done|]. cbn [ref_walk].
  rewrite (entry_ad mm mm') by (done || apply entry_aligned). case_ifs; try done; apply IH.
Qed.

Lemma ref_translate_ad c mm mm' cr3 va acc mmu_idx pg_mode : ad_eq mm mm' ->
  ref_translate c mm cr3 va acc mmu_idx pg_mode = ref_translate c mm' cr3 va acc mmu_idx pg_mode.
Proof. intros H. unfold ref_translate. by rewrite (ref_walk_ad _ _ _ _ _ _ mm mm' H). Qed.

Lemma answer_ref d hp m cr3 va acc mmu_idx pg_mode :
  no_nesting d hp m -> mem_wf (mem m) -> is_u 52 cr3 -> 0 <= acc <= 2 ->
  has pg_mode PG_MODE_PAE = true -> has pg_mode PG_MODE_LMA = true ->
  answer (mmu_translate d hp va cr3 acc mmu_idx pg_mode m) =
  Some (ref_translate (env (cpus m !!! d)) (mem m) cr3 va acc mmu_idx pg_mode).
Proof.
  intros Hn Hw Hc Ha Hp Hl.
  destruct (translate_step d hp m cr3 va acc mmu_idx pg_mode Hn Hw Hc Ha Hp Hl) as (mm' & _ & _ & H).
  destruct (ref_translate _ _ _ _ acc _ _) as [code|[pa size]]; [by rewrite H|].
  by destruct H as (prot & -> & _).
Qed.

(** C30. In long mode and without nested paging, a page walk never changes what
    another walk finds. Whatever address is translated first, for whatever access
    and through whatever tables of four or five levels (they may map themselves),
    the accessed and dirty bits it sets leave the answer of every later long-mode
    translation, fault codes included, as it was. *)
Theorem mmu_translate_stable (d : nat) (hp : option MMUTranslateFunc) (m m' : Machine)
    (cr3 va acc mmu_idx pg_mode cr3' va' acc' mmu_idx' pg_mode' : Z) (r : Z + xlate) :
  no_nesting d hp m -> mem_wf (mem m) ->
  is_u 52 cr3 -> 0 <= acc <= 2 -> has pg_mode PG_MODE_PAE = true -> has pg_mode PG_MODE_LMA = true ->
  is_u 52 cr3' -> 0 <= acc' <= 2 -> has pg_mode' PG_MODE_PAE = true -> has pg_mode' PG_MODE_LMA = true ->
  mmu_translate d hp va cr3 acc mmu_idx pg_mode m = Ret r m' ->
  answer (mmu_translate d hp va' cr3' acc' mmu_idx' pg_mode' m') =
  answer (mmu_translate d hp va' cr3' acc' mmu_idx' pg_mode' m).
Proof.
  intros Hn Hw Hc Ha Hp Hl Hc' Ha' Hp' Hl' E.
  destruct (translate_step d hp m cr3 va acc mmu_idx pg_mode Hn Hw Hc Ha Hp Hl) as (mm' & Had & Hw' & H).
  assert (Em : m' = m <| mem := mm' |>).
  { destruct (ref_translate _ _ _ _ acc _ _) as [code|[pa size]]; [congruence|].
    destruct H as (prot & H & _). congruence. }
  rewrite Em, !answer_ref by done. f_equal. symmetry. by apply ref_translate_ad.
Qed.

(** A self-mapping table: the same entry serves every level. *)
Lemma mmu_translate_stable_witness :
  let m := ex_machine 1 <| mem := st 8 0x1000 0x1003 ∅ |> in
  exists m', mmu_translate 0 None 0 0x1000 1 2 ex_mode m = Ret (inr (mkXlate 0x1000 4096 7)) m' /\
    answer (mmu_translate 0 None 0x18 0x1000 0 2 ex_mode m') = Some (inr (0x1018, 4096)).
Proof.
  cbv zeta. eexists. split; [vm_compute; reflexivity|].
  etransitivity; [eapply (mmu_translate_stable 0 None (ex_machine 1 <| mem := st 8 0x1000 0x1003 ∅ |>)
    _ 0x1000 0 1 2 ex_mode 0x1000 0x18 0 2 ex_mode)|vm_compute; reflexivity].
  - by left.
  - apply mem_wf_st. intros a. unfold ldb. by rewrite lookup_empty.
  - by vm_compute.
  - by vm_compute.
  - done.
  - done.
  - by vm_compute.
  - by vm_compute.
  - done.
  - done.
  - vm_compute; reflexivity.
Defined.
