(* ===== verification/MmuSafe.v ===== *)
(** * The assertions of the translation code never fail

    A small program logic for [X]: [safe x Q] says that [x] never aborts the
    emulator, from any machine, and that a returned value satisfies [Q]. *)
From S2P Require Import Prelude Cpu Machine Mem Exec Mmu MmuFacts.

Definition safe {A} (x : X A) (Q : A -> Prop) : Prop :=
  forall m, match x m with Ret a _ => Q a | Exit _ => True | Abort _ => False end.

Create HintDb safe.

Lemma safe_ret {A} (a : A) (Q : A -> Prop) : Q a -> safe (mret a) Q.
Proof. by intros H m. Qed.

Lemma safe_bind {A B} (x : X A) (f : A -> X B) (Q : A -> Prop) (R : B -> Prop) :
  safe x Q -> (forall a, Q a -> safe (f a) R) -> safe (x ≫= f) R.
Proof.
  intros Hx Hf m. specialize (Hx m). unfold mbind, X_bind.
  destruct (x m) as [a m'|m'|m']; [by apply Hf|done|done].
Qed.

Lemma safe_weaken {A} (x : X A) (Q R : A -> Prop) : (forall a, Q a -> R a) -> safe x Q -> safe x R.
Proof. intros HQ Hx m. specialize (Hx m). destruct (x m); auto. Qed.

(** Sequencing where the value does not matter. *)
Lemma safe_seq {A B} (x : X A) (f : A -> X B) (R : B -> Prop) :
  safe x (fun _ => True) -> (forall a, safe (f a) R) -> safe (x ≫= f) R.
Proof. intros Hx Hf. eapply safe_bind; [exact Hx|auto]. Qed.

Lemma safe_gets {A} (f : Machine -> A) : safe (gets f) (fun _ => True).
Proof. by intros m. Qed.
Lemma safe_modify f : safe (modify f) (fun _ => True).
Proof. by intros m. Qed.
Lemma safe_exit {A} (Q : A -> Prop) : safe cpu_loop_exit Q.
Proof. by intros m. Qed.
Lemma safe_assert b : b = true -> safe (assert_ b) (fun _ => True).
Proof. by intros ->. Qed.

Lemma safe_when b x : safe x (fun _ => True) -> safe (when b x) (fun _ => True).
Proof. intros H. destruct b; [exact H|by apply safe_ret]. Qed.

#[export] Hint Resolve safe_gets safe_modify safe_exit safe_when : safe.
#[export] Hint Extern 1 (safe (mret _) (fun _ => True)) => (apply safe_ret; exact I) : safe.
#[export] Hint Extern 2 (safe (if ?b then _ else _) _) => (destruct b) : safe.
#[export] Hint Extern 1 (safe (mod_env _ _) _) => (apply safe_modify) : safe.
#[export] Hint Extern 1 (safe (get_env _) _) => (apply safe_gets) : safe.
#[export] Hint Extern 1 (safe (phys_ld _ _) _) => (apply safe_gets) : safe.
#[export] Hint Extern 1 (safe (phys_st _ _ _) _) => (apply safe_modify) : safe.
#[export] Hint Extern 1 (safe (x86_ldub_phys _) _) => (apply safe_gets) : safe.
#[export] Hint Extern 1 (safe (x86_lduw_phys _) _) => (apply safe_gets) : safe.
#[export] Hint Extern 1 (safe (x86_ldl_phys _) _) => (apply safe_gets) : safe.
#[export] Hint Extern 1 (safe (x86_ldq_phys _) _) => (apply safe_gets) : safe.
#[export] Hint Extern 1 (safe (x86_stl_phys _ _) _) => (apply safe_modify) : safe.
#[export] Hint Extern 1 (safe (x86_stl_phys_notdirty _ _) _) => (apply safe_modify) : safe.
#[export] Hint Extern 1 (safe (x86_stq_phys _ _) _) => (apply safe_modify) : safe.

(** Steps through a sequence whose parts are known to be safe. *)
Ltac safe_step :=
  lazymatch goal with
  | |- safe (mret _) _ => apply safe_ret
  | |- safe (_ ≫= _) _ => apply safe_seq; [solve [eauto with safe nocore]|intros]
  | |- safe (if ?b then _ else _) _ => destruct b eqn:?
  | |- safe (let '(_, _) := ?p in _) _ => destruct p
  | |- safe (match ?o with Some _ => _ | None => _ end) _ => destruct o
  | |- safe _ _ => solve [eauto with safe nocore]
  end.
Ltac safe_steps := repeat safe_step.

Section exceptions.
  Context (d : nat).

Lemma safe_vmexit {A} code info (Q : A -> Prop) : safe (cpu_vmexit d code info) Q.
Proof. unfold cpu_vmexit. safe_steps. Qed.
#[local] Hint Resolve safe_vmexit : safe.

Lemma safe_intercept type param : safe (cpu_svm_check_intercept_param d type param) (fun _ => True).
Proof. unfold cpu_svm_check_intercept_param. safe_steps; done. Qed.
#[local] Hint Resolve safe_intercept : safe.

Lemma safe_check_exception n code : safe (check_exception d n code) (fun _ => True).
Proof. unfold check_exception. safe_steps; done. Qed.
#[local] Hint Resolve safe_check_exception : safe.

Lemma safe_raise {A} n is_int code addend (Q : A -> Prop) : safe (raise_interrupt2 d n is_int code addend) Q.
Proof.
  unfold raise_interrupt2. apply (safe_bind _ _ (fun _ => True)).
  - safe_steps; done.
  - intros [? ?] _. safe_steps.
Qed.
End exceptions.
#[export] Hint Resolve safe_vmexit safe_intercept safe_check_exception safe_raise : safe.

(** ** Walks *)
Definition wpost {A} (Q : A -> Prop) (r : Z + A) : Prop := match r with inl _ => True | inr a => Q a end.

Lemma safe_wbind {A B} (k : A -> walk B) (x : walk A) (Q : A -> Prop) (R : B -> Prop) :
  safe x (wpost Q) -> (forall a, Q a -> safe (k a) (wpost R)) -> safe (wbind k x) (wpost R).
Proof.
  intros Hx Hk. unfold wbind. eapply safe_bind; [exact Hx|]. intros [f|a] H; [by apply safe_ret|by apply Hk].
Qed.

(** What the second-level translation promises: it keeps the permission of the
    access it was asked for. *)
Definition hp_safe (hp : option MMUTranslateFunc) : Prop :=
  match hp with
  | None => True
  | Some f => forall gpa acc p, 0 <= acc <= 2 ->
      safe (f gpa acc p) (fun r => match p with
                                   | Some p => has p (bit acc) = true -> has r.2 (bit acc) = true
                                   | None => True
                                   end)
  end.

Lemma safe_GET_HPHYS hp gpa acc p : hp_safe hp -> 0 <= acc <= 2 ->
  safe (GET_HPHYS hp gpa acc p) (fun r => match p with
                                          | Some p => has p (bit acc) = true -> has r.2 (bit acc) = true
                                          | None => True
                                          end).
Proof. intros H Ha. destruct hp as [f|]; [by apply H|]. apply safe_ret. by destruct p. Qed.

Section walks.
  Context (hp : option MMUTranslateFunc) (Hhp : hp_safe hp).

Lemma safe_table_access a : safe (GET_HPHYS hp a MMU_DATA_STORE None) (fun _ => True).
Proof. apply (safe_GET_HPHYS hp a MMU_DATA_STORE None Hhp). unfold MMU_DATA_STORE. lia. Qed.
#[local] Hint Resolve safe_table_access : safe.

Lemma safe_touch a e : safe (touch a e) (fun _ => True).
Proof. unfold touch. safe_steps; done. Qed.
#[local] Hint Resolve safe_touch : safe.

Definition any {A} : A -> Prop := fun _ => True.

Lemma safe_wlift {A} (x : X A) : safe x (fun _ => True) -> safe (wlift x) (wpost any).
Proof. intros H. unfold wlift. eapply safe_bind; [exact H|]. intros a _. by apply safe_ret. Qed.

Lemma safe_entry64 a mask : safe (entry64 hp a mask) (wpost any).
Proof. unfold entry64. apply safe_seq; [eauto with safe|]. intros [? ?]. safe_steps; done. Qed.

Ltac walk_step :=
  lazymatch goal with
  | |- safe (wbind _ (entry64 _ _ _)) _ => eapply safe_wbind; [apply safe_entry64|intros [? ?] _]
  | |- safe (wbind _ (wlift _)) _ => eapply safe_wbind; [apply safe_wlift, safe_touch|intros ? _]
  | |- safe (wret _) _ => apply safe_ret; done
  | |- safe (wfault _) _ => apply safe_ret; done
  | |- safe (if ?b then _ else _) _ => destruct b
  end.

Lemma safe_walk_pae cr3 addr pg_mode rs a20 : safe (walk_pae hp cr3 addr pg_mode rs a20) (wpost any).
Proof.
  unfold walk_pae. eapply (safe_wbind _ _ any).
  - destruct (has pg_mode PG_MODE_LMA).
    + unfold walk_pdpt_long. eapply (safe_wbind _ _ any); [unfold walk_pml5; repeat walk_step|].
      intros [? ?] _. unfold walk_pml4. repeat walk_step.
    + unfold walk_pdpt_pae. apply safe_seq; [eauto with safe|]. intros [? ?].
      apply safe_seq; [eauto with safe|intros]. repeat walk_step.
  - intros t _. eapply (safe_wbind _ _ any); [|intros; by apply safe_ret].
    destruct t; cbn [walk_rest]; unfold walk_pd; repeat walk_step.
Qed.

Lemma safe_walk_legacy cr3 addr pg_mode a20 : safe (walk_legacy hp cr3 addr pg_mode a20) (wpost any).
Proof.
  unfold walk_legacy. apply safe_seq; [eauto with safe|]. intros [? ?].
  apply safe_seq; [eauto with safe|intros]. repeat walk_step.
  apply safe_seq; [eauto with safe|intros]. apply safe_seq; [eauto with safe|]. intros [? ?].
  apply safe_seq; [eauto with safe|intros]. repeat walk_step.
Qed.

(** A write leaves the entry dirty. *)
Lemma safe_set_ad l acc :
  safe (set_ad l acc) (fun p => nz (Z.land acc 1) = true -> has p PG_DIRTY_MASK = true).
Proof.
  unfold set_ad. change (has ?x PG_DIRTY_MASK) with (has x (bit 6)). cbv zeta. rewrite !nz_land_bit by lia.
  destruct (nz (Z.land acc 1)) eqn:En, (Z.testbit (pte l) 6) eqn:E6; cbn [andb negb]; rewrite ?orb_true_r;
    safe_steps; try done; intros _; rewrite nz_land_bit by lia; rewrite ?Z.lor_spec, ?E6; try done;
    by rewrite orb_true_r.
Qed.

Lemma safe_finish l addr acc prot a20 : 0 <= acc <= 2 -> has prot (bit acc) = true ->
  safe (finish hp l addr acc prot a20) (fun x => has (x_prot x) (bit acc) = true).
Proof.
  intros Ha Hp. unfold finish. eapply safe_bind; [apply safe_set_ad|]. intros p Hd. cbv beta in Hd.
  eapply (safe_bind _ _ (fun p => has p (bit acc) = true)).
  - destruct (has p PG_DIRTY_MASK); cbn [negb]; [by apply safe_ret|].
    eapply safe_seq.
    + apply safe_assert. destruct (nz (Z.land acc 1)); [discriminate (Hd eq_refl)|done].
    + intros _. apply safe_ret. rewrite has_land, Hp by lia.
      assert (acc = 0 \/ acc = 1 \/ acc = 2) as [->|[->| ->]] by lia; try done. discriminate (Hd eq_refl).
  - intros p2 Hp2. eapply safe_bind; [by apply safe_GET_HPHYS|]. intros [x p3] H3. apply safe_ret. by apply H3.
Qed.
End walks.

Section translate.
  Context (d : nat).

Lemma safe_check_protect hp l addr acc mmu_idx pg_mode a20 : hp_safe hp -> 0 <= acc <= 2 ->
  safe (check_protect d hp l addr acc mmu_idx pg_mode a20) (wpost (fun x => has (x_prot x) (bit acc) = true)).
Proof.
  intros Hhp Ha. unfold check_protect. apply safe_seq; [eauto with safe|]. intros e.
  destruct (has (pte l) (rsvd l)); [by apply safe_ret|]. destruct (_ && _); [by apply safe_ret|].
  eapply (safe_wbind _ _ any).
  - unfold key_check. destruct (nz _); [|by apply safe_ret].
    rewrite pkr_prot_allows by done. destruct (key_allows _ _ _ _ acc) eqn:Ek; [by apply safe_ret|].
    apply safe_seq; [|intros; by apply safe_ret]. apply safe_assert.
    unfold key_allows in Ek. by destruct (acc =? 2).
  - intros prot _. destruct (has prot (bit acc)) eqn:Ep; [|by apply safe_ret].
    unfold wlift. eapply safe_bind; [by apply safe_finish|]. intros x Hx. by apply safe_ret.
Qed.

Lemma safe_mmu_translate hp addr cr3 acc mmu_idx pg_mode : hp_safe hp -> 0 <= acc <= 2 ->
  safe (mmu_translate d hp addr cr3 acc mmu_idx pg_mode) (wpost (fun x => has (x_prot x) (bit acc) = true)).
Proof.
  intros Hhp Ha. unfold mmu_translate. apply safe_seq; [eauto with safe|]. intros e.
  eapply safe_bind; [|intros [f|x] H; by apply safe_ret].
  eapply (safe_wbind _ _ any); [|intros; by apply safe_check_protect].
  destruct (has pg_mode PG_MODE_PAE); [by apply safe_walk_pae|by apply safe_walk_legacy].
Qed.

(** The second level keeps its promise. *)
Lemma get_hphys_safe : hp_safe (Some (get_hphys d)).
Proof.
  intros gpa acc p Ha. unfold get_hphys. apply safe_seq; [eauto with safe|]. intros e.
  destruct (negb _); [apply safe_ret; by destruct p|].
  eapply safe_bind; [by apply (safe_mmu_translate None)|]. intros [f|x] H.
  - safe_steps.
  - apply safe_ret. destruct p as [p|]; [|done]. cbn. intros Hp. rewrite has_land by lia. by rewrite Hp, H.
Qed.

Lemma safe_handle_mmu_fault addr acc mmu_idx : 0 <= acc <= 2 ->
  safe (handle_mmu_fault d addr acc mmu_idx)
    (fun r => match r with Some p => has p.2 (bit acc) = true | None => True end).
Proof.
  intros Ha. unfold handle_mmu_fault. apply safe_seq; [eauto with safe|]. intros e.
  destruct (_ && _); [safe_steps; done|].
  eapply safe_bind; [|intros [f|x] H].
  - instantiate (1 := wpost (fun x => has (x_prot x) (bit acc) = true)).
    destruct (negb _); [|by apply safe_mmu_translate, Ha; apply get_hphys_safe].
    apply safe_ret. assert (acc = 0 \/ acc = 1 \/ acc = 2) as [->|[->| ->]] by lia; done.
  - safe_steps; done.
  - apply safe_seq; [by apply safe_assert|]. intros _. by apply safe_ret.
Qed.

Lemma safe_tlb_fill addr acc mmu_idx : 0 <= acc <= 2 ->
  safe (x86_cpu_tlb_fill d addr acc mmu_idx false) (fun p => has p.2 (bit acc) = true).
Proof.
  intros Ha. unfold x86_cpu_tlb_fill. eapply safe_bind; [by apply safe_handle_mmu_fault|].
  intros [p|] H; [by apply safe_ret|]. apply safe_seq; [by apply safe_assert|intros]. apply safe_seq; [eauto with safe|intros]. apply safe_raise.
Qed.
End translate.

Lemma safe_ld d n a idx : safe (cpu_ld_mmuidx d n a idx) (fun _ => True).
Proof.
  unfold cpu_ld_mmuidx. eapply safe_bind; [apply safe_tlb_fill; unfold MMU_DATA_LOAD; lia|]. intros [? ?] _.
  case_if; [safe_steps|].
  eapply safe_bind; [apply safe_tlb_fill; unfold MMU_DATA_LOAD; lia|]. intros [? ?] _. safe_steps. done.
Qed.

Lemma safe_st d n a v idx : safe (cpu_st_mmuidx d n a v idx) (fun _ => True).
Proof.
  unfold cpu_st_mmuidx. eapply safe_bind; [apply safe_tlb_fill; unfold MMU_DATA_STORE; lia|]. intros [? ?] _.
  case_if; [safe_steps|].
  eapply safe_bind; [apply safe_tlb_fill; unfold MMU_DATA_STORE; lia|]. intros [? ?] _. safe_steps.
Qed.

Lemma safe_ld_kernel d n a : safe (cpu_ld_kernel d n a) (fun _ => True).
Proof. unfold cpu_ld_kernel. apply safe_seq; [eauto with safe|intros; apply safe_ld]. Qed.
Lemma safe_st_kernel d n a v : safe (cpu_st_kernel d n a v) (fun _ => True).
Proof. unfold cpu_st_kernel. apply safe_seq; [eauto with safe|intros; apply safe_st]. Qed.
#[export] Hint Resolve safe_ld_kernel safe_st_kernel : safe.

(** C29. None of the assertions on the way from an address to a page can fail, and
    [g_assert(!probe)] fails in one case only.  From any machine, in every paging
    format, with or without nested paging and protection keys, filling the TLB
    for a read, a write or a fetch either enters a page that permits that access
    or leaves through an exception.  (The code asserts that a written page is
    dirty, that a protection key never denies a fetch, and that the permissions
    entered include the access, also after the nested level has narrowed them.)
    The emulator is aborted exactly when the access is a probe and its
    translation faults in the tables of the guest itself. *)
Theorem tlb_fill_never_asserts (d : nat) (addr acc mmu_idx : Z) (probe : bool) (m : Machine) : 0 <= acc <= 2 ->
  match x86_cpu_tlb_fill d addr acc mmu_idx probe m with
  | Ret (_, prot) _ => has prot (bit acc) = true
  | Exit _ => True
  | Abort m' => probe = true /\ handle_mmu_fault d addr acc mmu_idx m = Ret None m'
  end /\
  (probe = true -> forall m', handle_mmu_fault d addr acc mmu_idx m = Ret None m' -> x86_cpu_tlb_fill d addr acc mmu_idx probe m = Abort m').
Proof.
  intros Ha. split; [|intros -> m' E; unfold x86_cpu_tlb_fill; by rewrite (bind_Ret _ _ _ _ _ E)].
  pose proof (safe_tlb_fill d addr acc mmu_idx Ha m) as H. pose proof (safe_handle_mmu_fault d addr acc mmu_idx Ha m) as Hh.
  destruct probe; [|by destruct (x86_cpu_tlb_fill d addr acc mmu_idx false m) as [[? ?] ?|?|?]].
  unfold x86_cpu_tlb_fill, mbind, X_bind in *. destruct (handle_mmu_fault d addr acc mmu_idx m) as [[[? ?]|] m1|m1|m1]; try done.
Qed.

(** A machine whose page tables are empty: a fetch faults, a probe aborts. *)
Definition ex_unmapped : Machine := upd_env 0 (fun e => e <| cr := <[0%nat := CR0_PG_MASK]> (cr e) |>) (ex_machine 1).

Lemma tlb_fill_never_asserts_witness :
  match x86_cpu_tlb_fill 0 0x1000 MMU_INST_FETCH MMU_USER_IDX false ex_unmapped with
  | Ret (_, prot) _ => has prot (bit MMU_INST_FETCH) = true
  | Exit _ => True
  | Abort m' => false = true /\ handle_mmu_fault 0 0x1000 MMU_INST_FETCH MMU_USER_IDX ex_unmapped = Ret None m'
  end /\
  exists m', x86_cpu_tlb_fill 0 0x1000 MMU_INST_FETCH MMU_USER_IDX true ex_unmapped = Abort m'.
Proof.
  split.
  - apply (tlb_fill_never_asserts 0 0x1000 MMU_INST_FETCH MMU_USER_IDX false ex_unmapped). by vm_compute.
  - eexists. apply (tlb_fill_never_asserts 0 0x1000 MMU_INST_FETCH MMU_USER_IDX true ex_unmapped); [by vm_compute|done|by vm_compute].
Defined.
