(* ===== verification/ExcFacts.v ===== *)
(** * Nested exceptions: double fault and shutdown (target/i386/tcg/excp_helper.c) *)
From S2P Require Import Prelude Cpu Machine Exec.

(** The classes of the architecture's double-fault table. *)
Inductive eclass := Benign | Contributory | PageFault | DoubleFault.

Definition class (n : Z) : eclass :=
  if n =? 8 then DoubleFault
  else if n =? 14 then PageFault
  else if (n =? 0) || (n =? 10) || (n =? 11) || (n =? 12) || (n =? 13) then Contributory
  else Benign.

(** The exception delivered when [second] arises while [first] is being
    delivered; [None] is shutdown. *)
Definition escalate (first second : Z) : option Z :=
  match class first, class second with
  | DoubleFault, _ => None
  | Contributory, Contributory | PageFault, (Contributory | PageFault) => Some EXCP08_DBLE
  | _, _ => Some second
  end.

Lemma contributory_class n : contributory n = match class n with Contributory => true | _ => false end.
Proof.
  unfold contributory, class.
  destruct (Z.eqb_spec n 8); [by subst|]. destruct (Z.eqb_spec n 14); [by subst|].
  destruct (Z.eqb_spec n 0); [by subst|].
  destruct (Z.leb_spec 10 n), (Z.leb_spec n 13); cbn [andb orb];
    repeat match goal with |- context [n =? ?k] => destruct (Z.eqb_spec n k) end; cbn; try done; lia.
Qed.

Lemma dble_class n : (n =? EXCP08_DBLE) = match class n with DoubleFault => true | _ => false end.
Proof. unfold class, EXCP08_DBLE. destruct (n =? 8); [done|]. by case_ifs. Qed.

Lemma page_class n : (n =? EXCP0E_PAGE) = match class n with PageFault => true | _ => false end.
Proof.
  unfold class, EXCP0E_PAGE. destruct (Z.eqb_spec n 8); [by subst|]. destruct (n =? 14); [done|]. by case_ifs.
Qed.

Definition cpu_env (d : nat) (m : Machine) : CPUX86State := env (cpus m !!! d).

(** Not inside an SVM guest. *)
Definition bare (d : nat) (m : Machine) : Prop :=
  nz (Z.land (hflags (cpu_env d m)) HF_GUEST_MASK) = false.

Lemma cpu_env_upd d f m : is_Some (cpus m !! d) -> cpu_env d (upd_env d f m) = f (cpu_env d m).
Proof.
  intros [c Hc]. unfold cpu_env, upd_env, upd_cpu. cbn. unfold lookup_total, map_lookup_total.
  by rewrite lookup_alter_eq, Hc.
Qed.

Lemma cpu_env_upd_cpu d k f m : (forall c, env (f c) = env c) -> cpu_env k (upd_cpu d f m) = cpu_env k m.
Proof.
  intros Hf. unfold cpu_env, upd_cpu. cbn. unfold lookup_total, map_lookup_total.
  destruct (decide (k = d)) as [->|].
  - rewrite lookup_alter_eq. destruct (cpus m !! d); [apply Hf|done].
  - by rewrite lookup_alter_ne by done.
Qed.

Lemma cpus_upd_env d f m k : is_Some (cpus m !! k) -> is_Some (cpus (upd_env d f m) !! k).
Proof. intros H. cbn. apply lookup_alter_is_Some. done. Qed.

Lemma intercept_bare d type param m : bare d m -> cpu_svm_check_intercept_param d type param m = Ret tt m.
Proof.
  intros H. unfold cpu_svm_check_intercept_param.
  rewrite (bind_Ret _ _ m (cpu_env d m) m) by done. by rewrite H.
Qed.

(** What raising exception [n] leaves behind. *)
Definition raised (d : nat) (n code : Z) (m : Machine) : Machine :=
  let record x c := upd_env d (fun e => e <| exception_index := x |> <| error_code := c |>
                     <| exception_is_int := 0 |> <| exception_next_eip := u64 (eip e + 0) |>) in
  match escalate (old_exception (cpu_env d m)) n with
  | None => record EXCP_HLT code (m <| reset_requested := true |>)
  | Some x =>
      record x (if x =? n then code else 0)
        (match class x with Benign => m | _ => upd_env d (fun e => e <| old_exception := x |>) m end)
  end.

Lemma raise_exception_raised {A} d n code m : bare d m ->
  raise_exception_err (A := A) d n code m = Exit (raised d n code m).
Proof.
  intros Hb. unfold raise_exception_err, raise_interrupt2. cbn [Z.eqb].
  assert (E : (cpu_svm_check_intercept_param d (SVM_EXIT_EXCP_BASE + n) code;; check_exception d n code) m
              = check_exception d n code m) by (by rewrite (bind_Ret _ _ _ _ _ (intercept_bare _ _ _ _ Hb))).
  unfold raised. set (o := old_exception (cpu_env d m)).
  assert (Ec : check_exception d n code m =
    match escalate o n with
    | None => Ret (EXCP_HLT, code) (m <| reset_requested := true |>)
    | Some x => Ret (x, if x =? n then code else 0)
        (match class x with Benign => m | _ => upd_env d (fun e => e <| old_exception := x |>) m end)
    end).
  { unfold check_exception. rewrite (bind_Ret _ _ m (cpu_env d m) m) by done. fold o.
    rewrite dble_class, !contributory_class, page_class. unfold escalate. rewrite (page_class n).
    destruct (class o) eqn:Eo; [| | |by rewrite Hb].
    all: destruct (class n) eqn:En; cbn [andb orb]; cbv iota; rewrite ?dble_class, ?page_class, ?En, ?Z.eqb_refl;
      cbn [orb when]; try done.
    all: change (EXCP08_DBLE =? EXCP08_DBLE) with true; rewrite ?orb_true_r; cbn [when];
      rewrite (Z.eqb_sym EXCP08_DBLE n), dble_class, En; done. }
  destruct (escalate o n) as [x|]; by rewrite (bind_Ret _ _ _ _ _ (eq_trans E Ec)).
Qed.

Lemma raised_cpus d n code m k : is_Some (cpus m !! k) -> is_Some (cpus (raised d n code m) !! k).
Proof.
  intros H. unfold raised. cbv zeta. destruct (escalate _ n) as [x|]; apply cpus_upd_env; [|done].
  by destruct (class x); try apply cpus_upd_env.
Qed.

(** What the execution loop sees after the exception. *)
Lemma raised_spec d n code m : is_Some (cpus m !! d) ->
  let m' := raised d n code m in
  let o := escalate (old_exception (cpu_env d m)) n in
  exception_index (cpu_env d m') = default EXCP_HLT o /\
  error_code (cpu_env d m') = (if default n o =? n then code else 0) /\
  reset_requested m' = match o with None => true | Some _ => reset_requested m end /\
  old_exception (cpu_env d m') =
    match o with
    | Some x => match class x with Benign => old_exception (cpu_env d m) | _ => x end
    | None => old_exception (cpu_env d m)
    end /\
  hflags (cpu_env d m') = hflags (cpu_env d m) /\ mem m' = mem m /\ local_apics m' = local_apics m.
Proof.
  intros Hd. cbv zeta. unfold raised. cbv zeta.
  destruct (escalate (old_exception (cpu_env d m)) n) as [x|].
  - rewrite !cpu_env_upd by (destruct (class x); try done; by apply cpus_upd_env).
    destruct (class x); try (by split_and!); rewrite !cpu_env_upd by done; by split_and!.
  - rewrite !cpu_env_upd by done. split_and!; try done. by rewrite Z.eqb_refl.
Qed.

(** C34. Exceptions escalate by the architecture's double-fault table. Outside an
    SVM guest, raising exception [n] while [first] is being delivered leaves the
    execution loop with [n] and its error code, with a double fault and error code
    0 (contributory after contributory or page fault, page fault after page
    fault), or, after a double fault, with a halted processor and a system reset
    requested; nothing else changes: the exception in flight is remembered unless
    it is benign, memory and the local APICs are untouched. *)
Theorem exception_escalation (d : nat) (n code : Z) (m : Machine) :
  bare d m -> is_Some (cpus m !! d) ->
  let o := escalate (old_exception (cpu_env d m)) n in
  exists m', raise_exception_err (A := unit) d n code m = Exit m' /\
    exception_index (cpu_env d m') = default EXCP_HLT o /\
    error_code (cpu_env d m') = (if default n o =? n then code else 0) /\
    reset_requested m' = match o with None => true | Some _ => reset_requested m end /\
    old_exception (cpu_env d m') =
      match o with
      | Some x => match class x with Benign => old_exception (cpu_env d m) | _ => x end
      | None => old_exception (cpu_env d m)
      end /\
    mem m' = mem m /\ local_apics m' = local_apics m.
Proof.
  intros Hb Hd o. exists (raised d n code m). rewrite (raise_exception_raised d n code m Hb).
  destruct (raised_spec d n code m Hd) as (? & ? & ? & ? & _ & ? & ?). by split_and!.
Qed.

Definition ex_old (o : Z) : Machine := upd_env 0 (fun e => e <| old_exception := o |>) (ex_machine 1).

(** A segment-not-present fault during the delivery of a page fault. *)
Lemma exception_escalation_witness :
  exists m', raise_exception_err (A := unit) 0 EXCP0B_NOSEG 0x18 (ex_old EXCP0E_PAGE) = Exit m' /\
    exception_index (cpu_env 0 m') = EXCP08_DBLE /\ error_code (cpu_env 0 m') = 0.
Proof.
  destruct (exception_escalation 0 EXCP0B_NOSEG 0x18 (ex_old EXCP0E_PAGE)) as (m' & E & H1 & H2 & _).
  - by vm_compute.
  - vm_compute. eauto.
  - exists m'. split; [exact E|]. split; [exact H1|exact H2].
Defined.

(** ** No endless faulting *)
Definition exit_state {A} (o : outcome A) : Machine :=
  match o with Ret _ m => m | Exit m => m | Abort m => m end.

(** Exceptions raised one after the other, none of them delivered. *)
Definition raise_all (d : nat) (ns : list Z) (m : Machine) : Machine :=
  fold_left (fun m n => exit_state (raise_exception_err (A := unit) d n 0 m)) ns m.

Definition escalating (n : Z) : bool :=
  match class n with Contributory | PageFault => true | _ => false end.

(** How close to shutdown an exception in flight is. *)
Definition severity (n : Z) : nat :=
  match class n with Benign => 0 | Contributory => 1 | PageFault => 2 | DoubleFault => 3 end.

Lemma raise_all_progress d ns m : bare d m -> is_Some (cpus m !! d) -> forallb escalating ns = true ->
  reset_requested m = true \/ (4 <= length ns + severity (old_exception (cpu_env d m)))%nat ->
  reset_requested (raise_all d ns m) = true.
Proof.
  revert m. induction ns as [|n ns IH]; intros m Hb Hd Hns Hl.
  - destruct Hl as [Hl|Hl]; [done|]. exfalso. unfold severity in Hl. cbn in Hl. destruct (class _); lia.
  - cbn [forallb] in Hns. apply andb_true_iff in Hns as [Hn Hns].
    unfold raise_all in *. cbn [fold_left]. rewrite (raise_exception_raised d n 0 m Hb). cbn [exit_state].
    destruct (raised_spec d n 0 m Hd) as (_ & _ & Hr & Ho & Hh & _).
    apply IH; [unfold bare in *; by rewrite Hh|by apply raised_cpus|done|]. rewrite Hr, Ho.
    destruct Hl as [->|Hl]; [left; by destruct (escalate _ n)|]. cbn [length] in Hl.
    unfold escalate, escalating, severity in *.
    destruct (class (old_exception (cpu_env d m))) eqn:Eo, (class n) eqn:En; try done; cbn in *;
      rewrite ?Eo, ?En; cbn; try (by left); right; lia.
Qed.

(** Faulting cannot go on for ever. If four exceptions of the contributory or
    page-fault classes are raised in a row on a processor without one of them
    being delivered, whatever they are and whatever was in flight before, the
    system has been asked to reset. *)
Theorem fault_storm_resets (d : nat) (n1 n2 n3 n4 : Z) (m : Machine) :
  bare d m -> is_Some (cpus m !! d) -> forallb escalating [n1; n2; n3; n4] = true ->
  reset_requested (raise_all d [n1; n2; n3; n4] m) = true.
Proof. intros Hb Hd H. apply raise_all_progress; try done. right. cbn. lia. Qed.

Lemma fault_storm_resets_witness :
  reset_requested (raise_all 0 [EXCP0D_GPF; EXCP0E_PAGE; EXCP0C_STACK; EXCP0D_GPF] (ex_machine 1)) = true.
Proof. apply fault_storm_resets; [by vm_compute|vm_compute; eauto|done]. Defined.
