(* ===== verification/Int.v ===== *)
(** * Integer helpers (target/i386/tcg/int_helper.c, target/i386/shift_helper_template.h)

    Division in the four widths with its error paths, the decimal adjustments,
    rotation through the carry flag, and the scatter and gather of bits.  The
    emulator is compiled with wrapping signed arithmetic; the quotient of the
    least integer by -1 stays undefined and is an argument ([div_ub]). *)
From S2P Require Import Prelude Cpu Machine Exec Cc.

Abbreviation s8 := (swrap 8).
Abbreviation s16 := (swrap 16).
Definition EXCP00_DIVZ : Z := 0.

(** ** Division of 128 by 64 bits: pairs are (low, high) *)
Definition add128 (p : Z * Z) (a b : Z) : Z * Z :=
  let '(low, high) := p in
  let low := u64 (low + a) in
  let high := if low <? a then u64 (high + 1) else high in
  (low, u64 (high + b)).

Definition neg128 (p : Z * Z) : Z * Z := add128 (u64 (Z.lnot p.1), u64 (Z.lnot p.2)) 1 0.

(** One round of the loop of [div64] on (a0, a1). *)
Definition div64_round (b : Z) (p : Z * Z) : Z * Z :=
  let '(a0, a1) := p in
  let ab := Z.shiftr a1 63 in
  let a1 := Z.lor (u64 (Z.shiftl a1 1)) (Z.shiftr a0 63) in
  let '(a1, qb) := if nz ab || (b <=? a1) then (u64 (a1 - b), 1) else (a1, 0) in
  (Z.lor (u64 (Z.shiftl a0 1)) qb, a1).

(** [None] is the overflow the C code returns 1 for. *)
Definition div64 (p : Z * Z) (b : Z) : option (Z * Z) :=
  let '(a0, a1) := p in
  if a1 =? 0 then Some (a0 / b, a0 mod b)
  else if b <=? a1 then None
  else Some (Nat.iter 64 (div64_round b) (a0, a1)).

Definition idiv64 (p : Z * Z) (b : Z) : option (Z * Z) :=
  let sa := s64 p.2 <? 0 in
  let p := if sa then neg128 p else p in
  let sb := b <? 0 in
  let b := if sb then s64 (- b) else b in
  ' (low, high) ← div64 p (u64 b);
  low ← (if xorb sa sb then if bit 63 <? low then None else Some (u64 (- low))
         else if bit 63 <=? low then None else Some low);
  Some (low, if sa then u64 (- high) else high).

Section helpers.
  Context (d : nat).
  (* the least int or int64_t divided by -1 *)
  Context (div_ub : X unit).

Definition divz : X unit := raise_exception d EXCP00_DIVZ.

Definition helper_divb_AL (t0 : Z) : X unit :=
  e ← get_env d;
  let num := Z.land (reg e R_EAX) 0xffff in
  let den := Z.land t0 0xff in
  if den =? 0 then divz
  else
    let q := num / den in
    if 0xff <? q then divz
    else
      let q := Z.land q 0xff in
      let r := Z.land (num mod den) 0xff in
      mod_env d (set_reg R_EAX (Z.lor (Z.lor (clr (reg e R_EAX) 0xffff) (Z.shiftl r 8)) q)).

Definition helper_idivb_AL (t0 : Z) : X unit :=
  e ← get_env d;
  let num := s16 (reg e R_EAX) in
  let den := s8 t0 in
  if den =? 0 then divz
  else
    let q := Z.quot num den in
    if negb (q =? s8 q) then divz
    else
      let q := Z.land q 0xff in
      let r := Z.land (Z.rem num den) 0xff in
      mod_env d (set_reg R_EAX (Z.lor (Z.lor (clr (reg e R_EAX) 0xffff) (Z.shiftl r 8)) q)).

(** The 16-bit results go to the low halves. *)
Definition set_low16 (q r : Z) (e : CPUX86State) : CPUX86State :=
  set_reg R_EDX (Z.lor (clr (reg e R_EDX) 0xffff) r) (set_reg R_EAX (Z.lor (clr (reg e R_EAX) 0xffff) q) e).

Definition helper_divw_AX (t0 : Z) : X unit :=
  e ← get_env d;
  let num := Z.lor (Z.land (reg e R_EAX) 0xffff) (Z.shiftl (Z.land (reg e R_EDX) 0xffff) 16) in
  let den := Z.land t0 0xffff in
  if den =? 0 then divz
  else
    let q := num / den in
    if 0xffff <? q then divz
    else mod_env d (set_low16 (Z.land q 0xffff) (Z.land (num mod den) 0xffff)).

Definition helper_idivw_AX (t0 : Z) : X unit :=
  e ← get_env d;
  let num := s32 (Z.lor (Z.land (reg e R_EAX) 0xffff) (Z.shiftl (Z.land (reg e R_EDX) 0xffff) 16)) in
  let den := s16 t0 in
  if den =? 0 then divz
  else if (num =? - bit 31) && (den =? -1) then div_ub
  else
    let q := Z.quot num den in
    if negb (q =? s16 q) then divz
    else mod_env d (set_low16 (Z.land q 0xffff) (Z.land (Z.rem num den) 0xffff)).

Definition helper_divl_EAX (t0 : Z) : X unit :=
  e ← get_env d;
  let num := Z.lor (u32 (reg e R_EAX)) (Z.shiftl (u32 (reg e R_EDX)) 32) in
  let den := u32 t0 in
  if den =? 0 then divz
  else
    let q := num / den in
    let r := u32 (num mod den) in
    if 0xffffffff <? q then divz
    else mod_env d (fun e => set_reg R_EDX (u32 r) (set_reg R_EAX (u32 q) e)).

Definition helper_idivl_EAX (t0 : Z) : X unit :=
  e ← get_env d;
  let num := s64 (Z.lor (u32 (reg e R_EAX)) (Z.shiftl (u32 (reg e R_EDX)) 32)) in
  let den := s32 t0 in
  if den =? 0 then divz
  else if (num =? - bit 63) && (den =? -1) then div_ub
  else
    let q := Z.quot num den in
    let r := s32 (Z.rem num den) in
    if negb (q =? s32 q) then divz
    else mod_env d (fun e => set_reg R_EDX (u32 r) (set_reg R_EAX (u32 q) e)).

Definition helper_divq_EAX (t0 : Z) : X unit :=
  if t0 =? 0 then divz
  else
    e ← get_env d;
    match div64 (reg e R_EAX, reg e R_EDX) t0 with
    | None => divz
    | Some (r0, r1) => mod_env d (fun e => set_reg R_EDX r1 (set_reg R_EAX r0 e))
    end.

Definition helper_idivq_EAX (t0 : Z) : X unit :=
  if t0 =? 0 then divz
  else
    e ← get_env d;
    match idiv64 (reg e R_EAX, reg e R_EDX) (s64 t0) with
    | None => divz
    | Some (r0, r1) => mod_env d (fun e => set_reg R_EDX r1 (set_reg R_EAX r0 e))
    end.

Definition helper_cr4_testbit (mask : Z) : X unit :=
  e ← get_env d;
  when (Z.land (crn e 4) mask =? 0) (raise_exception d EXCP06_ILLOP).
End helpers.

(** ** Decimal adjustment *)

(** [base] is not 0: translation raises the exception itself. *)
Definition helper_aam (base : Z) (e : CPUX86State) : CPUX86State :=
  let al := Z.land (reg e R_EAX) 0xff in
  let ah := Z.quot al base in
  let al := Z.rem al base in
  set_reg R_EAX (Z.lor (Z.lor (clr (reg e R_EAX) 0xffff) al) (Z.shiftl ah 8)) e <| cc_dst := al |>.

Definition helper_aad (base : Z) (e : CPUX86State) : CPUX86State :=
  let al := Z.land (reg e R_EAX) 0xff in
  let ah := Z.land (Z.shiftr (reg e R_EAX) 8) 0xff in
  let al := Z.land (ah * base + al) 0xff in
  set_reg R_EAX (Z.lor (clr (reg e R_EAX) 0xffff) al) e <| cc_dst := al |>.

(** aaa and aas: the digit, what it moves to [ah], and the carry of [al]. *)
Definition adjust_ascii (k : Z) (icarry : Z -> bool) (e : CPUX86State) : CPUX86State :=
  let eflags := cpu_cc_compute_all e (cc_op e) in
  let af := Z.land eflags CC_A in
  let al := Z.land (reg e R_EAX) 0xff in
  let ah := Z.land (Z.shiftr (reg e R_EAX) 8) 0xff in
  let '(al', ah, eflags) :=
    if (9 <? Z.land al 0x0f) || nz af
    then (Z.land (al + k * 6) 0x0f, Z.land (ah + k * (1 + b2z (icarry al))) 0xff, Z.lor eflags (Z.lor CC_C CC_A))
    else (Z.land al 0x0f, ah, clr eflags (Z.lor CC_C CC_A)) in
  set_reg R_EAX (Z.lor (Z.lor (clr (reg e R_EAX) 0xffff) al') (Z.shiftl ah 8)) e <| cc_src := u64 eflags |>.
Definition helper_aaa : CPUX86State -> CPUX86State := adjust_ascii 1 (fun al => 0xf9 <? al).
Definition helper_aas : CPUX86State -> CPUX86State := adjust_ascii (-1) (fun al => al <? 6).

(** The flags of the result, computed by hand. *)
Definition bcd_flags (al eflags : Z) : Z :=
  Z.lor (Z.lor (Z.lor eflags (Z.shiftl (b2z (al =? 0)) 6)) (parity al)) (Z.land al 0x80).

Definition helper_daa (e : CPUX86State) : CPUX86State :=
  let eflags := cpu_cc_compute_all e (cc_op e) in
  let cf := Z.land eflags CC_C in
  let af := Z.land eflags CC_A in
  let old_al := Z.land (reg e R_EAX) 0xff in
  let '(al, eflags) := if (9 <? Z.land old_al 0x0f) || nz af then (Z.land (old_al + 6) 0xff, CC_A) else (old_al, 0) in
  let '(al, eflags) := if (0x99 <? old_al) || nz cf then (Z.land (al + 0x60) 0xff, Z.lor eflags CC_C) else (al, eflags) in
  set_reg R_EAX (Z.lor (clr (reg e R_EAX) 0xff) al) e <| cc_src := bcd_flags al eflags |>.

Definition helper_das (e : CPUX86State) : CPUX86State :=
  let eflags := cpu_cc_compute_all e (cc_op e) in
  let cf := Z.land eflags CC_C in
  let af := Z.land eflags CC_A in
  let al1 := Z.land (reg e R_EAX) 0xff in
  let '(al, eflags) :=
    if (9 <? Z.land al1 0x0f) || nz af
    then (Z.land (al1 - 6) 0xff, if (al1 <? 6) || nz cf then Z.lor CC_A CC_C else CC_A) else (al1, 0) in
  let '(al, eflags) := if (0x99 <? al1) || nz cf then (Z.land (al - 0x60) 0xff, Z.lor eflags CC_C) else (al, eflags) in
  set_reg R_EAX (Z.lor (clr (reg e R_EAX) 0xff) al) e <| cc_src := bcd_flags al eflags |>.

(** ** Rotation through carry *)
Definition rclb_table : list Z :=
  [0; 1; 2; 3; 4; 5; 6; 7; 8; 0; 1; 2; 3; 4; 5; 6; 7; 8; 0; 1; 2; 3; 4; 5; 6; 7; 8; 0; 1; 2; 3; 4].
Definition rclw_table : list Z :=
  [0; 1; 2; 3; 4; 5; 6; 7; 8; 9; 10; 11; 12; 13; 14; 15; 16; 0; 1; 2; 3; 4; 5; 6; 7; 8; 9; 10; 11; 12; 13; 14].

Definition rotate_count (w : width) (t1 : Z) : Z :=
  let count := Z.land t1 (match w with WQ => 0x3f | _ => 0x1f end) in
  match w with
  | WB => nth (Z.to_nat count) rclb_table 0
  | WW => nth (Z.to_nat count) rclw_table 0
  | _ => count
  end.

(** The flags after a rotation of [src] to [t0] that moved [c] into carry. *)
Definition rotate_flags (w : width) (eflags src t0 c : Z) : Z :=
  u64 (Z.lor (Z.lor (clr eflags (Z.lor CC_C CC_O)) (Z.land (lshift (Z.lxor src t0) (11 - (data_bits w - 1))) CC_O)) (Z.land c CC_C)).

Definition helper_rcl (w : width) (t0 t1 : Z) (e : CPUX86State) : Z * CPUX86State :=
  let n := data_bits w in
  let count := rotate_count w t1 in
  if nz count then
    let eflags := s32 (cc_src e) in
    let src := wrap n t0 in
    let res := Z.lor (u64 (Z.shiftl src count)) (u64 (Z.shiftl (Z.land eflags CC_C) (count - 1))) in
    let res := if 1 <? count then Z.lor res (Z.shiftr src (n + 1 - count)) else res in
    (res, e <| cc_src := rotate_flags w eflags src res (Z.shiftr src (n - count)) |>)
  else (t0, e).

Definition helper_rcr (w : width) (t0 t1 : Z) (e : CPUX86State) : Z * CPUX86State :=
  let n := data_bits w in
  let count := rotate_count w t1 in
  if nz count then
    let eflags := s32 (cc_src e) in
    let src := wrap n t0 in
    let res := Z.lor (Z.shiftr src count) (u64 (Z.shiftl (Z.land eflags CC_C) (n - count))) in
    let res := if 1 <? count then Z.lor res (u64 (Z.shiftl src (n + 1 - count))) else res in
    (res, e <| cc_src := rotate_flags w eflags src res (Z.shiftr src (count - 1)) |>)
  else (t0, e).

(** ** Scatter and gather *)

(** [ctz64] of a value that is not 0. *)
Fixpoint ctz_pos (p : positive) : Z := match p with xO q => 1 + ctz_pos q | _ => 0 end.
Definition ctztl (x : Z) : Z := match x with Zpos p => ctz_pos p | _ => 64 end.

(** The loops clear the lowest bit of the mask each time: 64 rounds are enough. *)
Fixpoint pdep_loop (fuel : nat) (src i mask dest : Z) : Z :=
  match fuel with
  | O => dest
  | S f =>
      if nz mask then
        let o := ctztl mask in
        pdep_loop f src (i + 1) (Z.land mask (mask - 1)) (Z.lor dest (Z.shiftl (Z.land (Z.shiftr src i) 1) o))
      else dest
  end.
Definition helper_pdep (src mask : Z) : Z := pdep_loop 64 src 0 mask 0.

Fixpoint pext_loop (fuel : nat) (src o mask dest : Z) : Z :=
  match fuel with
  | O => dest
  | S f =>
      if nz mask then
        let i := ctztl mask in
        pext_loop f src (o + 1) (Z.land mask (mask - 1)) (Z.lor dest (Z.shiftl (Z.land (Z.shiftr src i) 1) o))
      else dest
  end.
Definition helper_pext (src mask : Z) : Z := pext_loop 64 src 0 mask 0.

(** The random number, or [None] when the host has none, is an argument. *)
Definition helper_rdrand (random : option Z) (e : CPUX86State) : Z * CPUX86State :=
  match random with
  | None => (0, e <| cc_src := 0 |>)
  | Some ret => (ret, e <| cc_src := CC_C |>)
  end.
