(* ===== verification/IntFacts.v ===== *)
(** * Integer helpers: division, rotation, scatter and gather

    The divisions are truncated division with the architecture's overflow rule,
    the shift-and-subtract loop included; the rotations through carry rotate a
    ring of one bit more than the operand; scatter and gather are inverse. *)
From S2P Require Import Prelude Cpu Machine Exec ExcFacts Cc CcFacts Int.

(** ** The loop of [div64] *)
Lemma lor_bit y t : 0 <= t <= 1 -> Z.lor (2 * y) t = 2 * y + t.
Proof.
  intros Ht. assert (t = 0 \/ t = 1) as [->| ->] by lia; [by rewrite Z.lor_0_r, Z.add_0_r|].
  bitwise i Hi. destruct (Z.eq_dec i 0) as [->|Hne].
  - rewrite Z.testbit_even_0, Z.testbit_odd_0. done.
  - replace i with (Z.succ (i - 1)) by lia. rewrite Z.testbit_even_succ, Z.testbit_odd_succ by lia.
    rewrite (Z.bits_above_log2 1) by (change (Z.log2 1) with 0; lia). by rewrite orb_false_r.
Qed.

Lemma double_wrap x : x * 2 mod 2 ^ 64 = 2 * (x mod 2 ^ 63).
Proof. replace (x * 2) with (2 * x) by lia. exact (Z.mul_mod_distr_l x (2 ^ 63) 2 ltac:(lia) ltac:(lia)). Qed.

Section loop.
  Context (b : Z) (Hb : 0 < b < 2 ^ 64).

Lemma round_spec x0 x1 : is_u 64 x0 -> 0 <= x1 < b ->
  let v := 2 * x1 + x0 / 2 ^ 63 in
  div64_round b (x0, x1) = if b <=? v then (2 * (x0 mod 2 ^ 63) + 1, v - b) else (2 * (x0 mod 2 ^ 63), v).
Proof.
  intros H0 H1 v. unfold div64_round. unfold is_u in H0. pose proof (Z.div_mod x0 (2 ^ 63)) as Hd. pose proof (Z.mod_pos_bound x0 (2 ^ 63)).
  assert (Ht : 0 <= x0 / 2 ^ 63 <= 1) by (split; [apply Z.div_pos; lia|]; apply Zlt_succ_le, Z.div_lt_upper_bound; lia).
  rewrite !Z.shiftr_div_pow2, !Z.shiftl_mul_pow2 by lia. unfold wrap. change (2 ^ 1) with 2.
  rewrite !double_wrap.
  rewrite (lor_bit _ (x0 / 2 ^ 63)) by done. pose proof (Z.div_mod x1 (2 ^ 63)) as Hd1. pose proof (Z.mod_pos_bound x1 (2 ^ 63)).
  assert (Hab : x1 / 2 ^ 63 = 0 \/ x1 / 2 ^ 63 = 1).
  { assert (0 <= x1 / 2 ^ 63) by (apply Z.div_pos; lia). assert (x1 / 2 ^ 63 < 2) by (apply Z.div_lt_upper_bound; lia). lia. }
  destruct Hab as [E|E]; rewrite E in *; cbn [nz Z.eqb negb orb].
  - replace (2 * (x1 mod 2 ^ 63) + x0 / 2 ^ 63) with v by lia. destruct (Z.leb_spec b v).
    + rewrite lor_bit by lia. f_equal. apply Z.mod_small. lia.
    + by rewrite lor_bit, Z.add_0_r by lia.
  - rewrite (proj2 (Z.leb_le b v)) by lia. rewrite lor_bit by lia. f_equal.
    replace (2 * (x1 mod 2 ^ 63) + x0 / 2 ^ 63 - b) with (v - b + (-1) * 2 ^ 64) by lia. rewrite Z.mod_add by lia. apply Z.mod_small. lia.
Qed.

(** After [k] rounds, with the quotient bits [q] so far. *)
Lemma loop_inv a0 a1 : is_u 64 a0 -> 0 <= a1 < b -> forall k, exists q x0 x1,
  Nat.iter k (div64_round b) (a0, a1) = (x0, x1) /\ is_u 64 x0 /\ 0 <= x1 < b /\ 0 <= q < 2 ^ Z.of_nat k /\
  x1 * 2 ^ 64 + x0 = 2 ^ Z.of_nat k * (a1 * 2 ^ 64 + a0) - q * (b * 2 ^ 64 - 1).
Proof.
  intros H0 H1 k. induction k as [|k (q & x0 & x1 & E & Hx0 & Hx1 & Hq & Heq)].
  - exists 0, a0, a1. split_and!; try done; lia.
  - change (Nat.iter (S k) (div64_round b) (a0, a1)) with (div64_round b (Nat.iter k (div64_round b) (a0, a1))). rewrite E, round_spec by done. cbv zeta. rewrite Nat2Z.inj_succ, Z.pow_succ_r by lia. unfold is_u in *.
    pose proof (Z.div_mod x0 (2 ^ 63)) as Hd. pose proof (Z.mod_pos_bound x0 (2 ^ 63)).
    assert (0 <= x0 / 2 ^ 63 <= 1) by (split; [apply Z.div_pos; lia|]; apply Zlt_succ_le, Z.div_lt_upper_bound; lia).
    set (P := 2 ^ Z.of_nat k) in *. destruct (Z.leb_spec b (2 * x1 + x0 / 2 ^ 63)).
    + exists (2 * q + 1). eexists _, _. split; [reflexivity|]. split_and!; lia.
    + exists (2 * q). eexists _, _. split; [reflexivity|]. split_and!; lia.
Qed.

(** [div64] is division of the 128-bit number, and overflows when it must. *)
Lemma div64_spec a0 a1 : is_u 64 a0 -> is_u 64 a1 -> let A := a1 * 2 ^ 64 + a0 in
  div64 (a0, a1) b = if A / b <? 2 ^ 64 then Some (A / b, A mod b) else None.
Proof.
  intros H0 H1 A. unfold is_u in *. unfold div64. destruct (Z.eqb_spec a1 0) as [->|Hne].
  - replace A with a0 by lia. rewrite (proj2 (Z.ltb_lt _ _)); [done|]. apply Z.div_lt_upper_bound; nia.
  - destruct (Z.leb_spec b a1).
    + rewrite (proj2 (Z.ltb_ge _ _)); [done|]. apply Z.div_le_lower_bound; unfold A; nia.
    + rewrite (proj2 (Z.ltb_lt _ _)) by (apply Z.div_lt_upper_bound; unfold A; nia).
      destruct (loop_inv a0 a1 H0 ltac:(lia) 64) as (q & x0 & x1 & -> & Hx0 & Hx1 & Hq & Heq). unfold is_u in Hx0. change (2 ^ Z.of_nat 64) with (2 ^ 64) in *.
      assert (Ex : x0 = q /\ A = q * b + x1) by (unfold A; lia). destruct Ex as [-> EA].
      rewrite EA. rewrite Z.add_comm, Z.div_add, Z.mod_add by lia. rewrite Z.div_small, Z.mod_small by lia. done.
Qed.
End loop.

(** ** Signed division *)
Lemma neg128_spec low high : is_u 64 low -> is_u 64 high -> 2 ^ 63 <= high ->
  let p := neg128 (low, high) in is_u 64 p.1 /\ is_u 64 p.2 /\ p.2 * 2 ^ 64 + p.1 = 2 ^ 128 - (high * 2 ^ 64 + low).
Proof.
  intros Hl Hh Hs. cbv zeta. unfold is_u in *. unfold neg128, add128, wrap. cbn [fst snd].
  replace (Z.lnot low mod 2 ^ 64) with (2 ^ 64 - 1 - low) by (unfold Z.lnot; rewrite <- (Z.mod_add _ 1), Z.mod_small by lia; lia).
  replace (Z.lnot high mod 2 ^ 64) with (2 ^ 64 - 1 - high) by (unfold Z.lnot; rewrite <- (Z.mod_add _ 1), Z.mod_small by lia; lia).
  destruct (Z.eq_dec low 0) as [->|].
  - change ((2 ^ 64 - 1 - 0 + 1) mod 2 ^ 64 <? 1) with true. cbn iota. change ((2 ^ 64 - 1 - 0 + 1) mod 2 ^ 64) with 0.
    rewrite !Z.add_0_r, Z.mod_mod by lia. rewrite Z.mod_small by lia. cbn [fst snd]. lia.
  - rewrite (Z.mod_small (2 ^ 64 - 1 - low + 1)) by lia. rewrite (proj2 (Z.ltb_ge _ _)) by lia. rewrite Z.add_0_r, Z.mod_small by lia. cbn [fst snd]. lia.
Qed.

Lemma sgn_cases x : x < 0 /\ Z.sgn x = -1 /\ Z.abs x = - x \/ 0 <= x /\ Z.abs x = x /\ (Z.sgn x = 1 \/ x = 0 /\ Z.sgn x = 0).
Proof. destruct (Z.lt_trichotomy x 0) as [?|[->|?]]; [left; lia|right; lia|right; lia]. Qed.

Lemma s64_of high : is_u 64 high -> (s64 high <? 0) = (2 ^ 63 <=? high).
Proof.
  unfold is_u, swrap. intros Hh. rewrite Z.mod_small by lia. change (2 ^ (64 - 1)) with (2 ^ 63). cbv zeta.
  destruct (Z.ltb_spec high (2 ^ 63)), (Z.leb_spec (2 ^ 63) high); lia.
Qed.

Lemma u64_neg x : 0 < x < 2 ^ 64 -> u64 (- x) = 2 ^ 64 - x.
Proof. intros Hx. unfold wrap. rewrite <- (Z.mod_add _ 1), Z.mod_small by lia. lia. Qed.

Lemma u64_abs b : - 2 ^ 63 <= b < 2 ^ 63 -> u64 (if b <? 0 then s64 (- b) else b) = Z.abs b.
Proof.
  intros Hb. destruct (Z.ltb_spec b 0); [|unfold wrap; rewrite Z.mod_small; lia]. destruct (Z.eq_dec b (- 2 ^ 63)) as [->|]; [reflexivity|].
  rewrite swrap_small by (change (2 ^ (64 - 1)) with (2 ^ 63); lia). unfold wrap. rewrite Z.mod_small; lia.
Qed.

Lemma idiv64_spec low high b : is_u 64 low -> is_u 64 high -> - 2 ^ 63 <= b < 2 ^ 63 -> b <> 0 ->
  let N := swrap 128 (high * 2 ^ 64 + low) in let q := Z.quot N b in
  idiv64 (low, high) b = if (- 2 ^ 63 <=? q) && (q <? 2 ^ 63) then Some (u64 q, u64 (Z.rem N b)) else None.
Proof.
  intros Hl Hh Hb Hne N q. unfold idiv64. cbn [fst snd]. rewrite s64_of, u64_abs by done.
  assert (HN : exists p, (if 2 ^ 63 <=? high then neg128 (low, high) else (low, high)) = p /\ is_u 64 p.1 /\ is_u 64 p.2 /\
    p.2 * 2 ^ 64 + p.1 = Z.abs N /\ (2 ^ 63 <=? high) = (N <? 0) /\ Z.abs N <= 2 ^ 127).
  { assert (EN : N = if 2 ^ 63 <=? high then high * 2 ^ 64 + low - 2 ^ 128 else high * 2 ^ 64 + low).
    { unfold N, swrap, is_u in *. rewrite Z.mod_small by lia. change (2 ^ (128 - 1)) with (2 ^ 127). cbv zeta.
      destruct (Z.ltb_spec (high * 2 ^ 64 + low) (2 ^ 127)), (Z.leb_spec (2 ^ 63) high); lia. }
    eexists. split; [reflexivity|]. destruct (Z.leb_spec (2 ^ 63) high) as [Hs|Hs].
    - pose proof (neg128_spec low high Hl Hh Hs) as (H1 & H2 & H3). unfold is_u in Hl, Hh. split_and!; [done|done|rewrite H3; lia|symmetry; apply Z.ltb_lt; lia|lia].
    - unfold is_u in *. cbn [fst snd]. split_and!; lia. }
  destruct HN as ([l h] & -> & Hp1 & Hp2 & Ep & Es & Hmax). cbn [fst snd] in *. rewrite (div64_spec (Z.abs b) ltac:(lia) l h Hp1 Hp2). cbv zeta. rewrite Ep, Es.
  pose proof (Z.quot_div N b Hne) as Hq. pose proof (Z.rem_mod N b Hne) as Hr. fold q in Hq. rewrite Hr. clear Hr Ep Es.
  assert (HQ : 0 <= Z.abs N / Z.abs b) by (apply Z.div_pos; lia). pose proof (Z.mod_pos_bound (Z.abs N) (Z.abs b) ltac:(lia)) as HR.
  set (Q := Z.abs N / Z.abs b) in *. set (R := Z.abs N mod Z.abs b) in *. assert (HR' : R <= 2 ^ 63) by lia.
  assert (H0 : N = 0 -> Q = 0 /\ R = 0) by (intros E; unfold Q, R; rewrite E; split; [apply Z.div_0_l|apply Z.mod_0_l]; lia).
  change (Z.shiftl 1 63) with (2 ^ 63).
  destruct (sgn_cases N) as [(HN & En & _)|(HN & _ & [En|[E0 En]])], (sgn_cases b) as [(Hb' & Eb & _)|(Hb' & _ & [Eb|[E1 Eb]])]; try lia; rewrite En, Eb in Hq; rewrite En.
  all: destruct (Z.ltb_spec Q (2 ^ 64)) as [HQ64|HQ64]; cbn [mbind option_bind].
  all: destruct (Z.ltb_spec N 0), (Z.ltb_spec b 0); try lia; cbn [xorb].
  all: destruct (Z.leb_spec (- 2 ^ 63) q), (Z.ltb_spec q (2 ^ 63)); cbn [andb]; try lia; try done.
  all: try (destruct (Z.ltb_spec (2 ^ 63) Q); try lia). all: try (destruct (Z.leb_spec (2 ^ 63) Q); try lia).
  all: cbn [mbind option_bind]; try done.
  all: rewrite Hq; do 2 f_equal; first [f_equal; lia | unfold wrap; rewrite Z.mod_small; lia].
Qed.

(** ** What the instructions promise *)

(** The dividend is AX for bytes, and the pair of registers otherwise. *)
Definition dividend (w : width) (sg : bool) (e : CPUX86State) : Z :=
  let n := data_bits w in
  let x := match w with WB => wrap 16 (reg e R_EAX) | _ => wrap n (reg e R_EDX) * 2 ^ n + wrap n (reg e R_EAX) end in
  if sg then swrap (2 * n) x else x.
Definition divisor (w : width) (sg : bool) (t0 : Z) : Z := if sg then swrap (data_bits w) t0 else wrap (data_bits w) t0.

(** The quotient fits the operand size. *)
Definition fits (w : width) (sg : bool) (q : Z) : bool :=
  let n := data_bits w in
  if sg then (- 2 ^ (n - 1) <=? q) && (q <? 2 ^ (n - 1)) else q <? 2 ^ n.

(** A 32-bit result clears the upper half of its register, smaller ones keep
    what they do not cover. *)
Definition div_result (w : width) (q r : Z) (e : CPUX86State) : CPUX86State :=
  let a := reg e R_EAX in let dx := reg e R_EDX in
  match w with
  | WB => set_reg R_EAX (a / 65536 * 65536 + wrap 8 r * 256 + wrap 8 q) e
  | WW => set_reg R_EDX (dx / 65536 * 65536 + wrap 16 r) (set_reg R_EAX (a / 65536 * 65536 + wrap 16 q) e)
  | WL => set_reg R_EDX (wrap 32 r) (set_reg R_EAX (wrap 32 q) e)
  | WQ => set_reg R_EDX (wrap 64 r) (set_reg R_EAX (wrap 64 q) e)
  end.

(** The instruction for a width and a signedness. *)
Definition helper_div (d : nat) (div_ub : X unit) (w : width) (sg : bool) : Z -> X unit :=
  match w, sg with
  | WB, false => helper_divb_AL d | WB, true => helper_idivb_AL d
  | WW, false => helper_divw_AX d | WW, true => helper_idivw_AX d div_ub
  | WL, false => helper_divl_EAX d | WL, true => helper_idivl_EAX d div_ub
  | WQ, false => helper_divq_EAX d | WQ, true => helper_idivq_EAX d
  end.

Lemma land_ff x n : 0 <= n -> Z.land x (2 ^ n - 1) = wrap n x.
Proof. intros Hn. unfold wrap. rewrite <- Z.land_ones by done. by rewrite Z.ones_equiv, Z.sub_1_r. Qed.

Lemma land8 x : Z.land x 0xff = wrap 8 x.
Proof. exact (land_ff x 8 ltac:(lia)). Qed.
Lemma land16 x : Z.land x 0xffff = wrap 16 x.
Proof. exact (land_ff x 16 ltac:(lia)). Qed.

(** Disjoint bits add. *)
Lemma lor_add x y n : 0 <= n -> 0 <= y < 2 ^ n -> Z.lor (x * 2 ^ n) y = x * 2 ^ n + y.
Proof.
  intros Hn Hy. symmetry. rewrite <- Z.add_lor_land. assert (E : Z.land (x * 2 ^ n) y = 0); [|lia].
  bitwise i Hi. destruct (Z.ltb_spec i n).
  - by rewrite Z.mul_pow2_bits_low by lia.
  - rewrite (is_u_testbit_high n y) by done. by rewrite andb_false_r.
Qed.

Lemma clr_low16 x : clr x 0xffff = x / 65536 * 65536.
Proof.
  change 0xffff with (Z.ones 16). rewrite <- Z.ldiff_land, Z.ldiff_ones_r, Z.shiftr_div_pow2, Z.shiftl_mul_pow2 by lia. done.
Qed.

Lemma swrap_fits n q : 0 < n -> (q =? swrap n q) = (- 2 ^ (n - 1) <=? q) && (q <? 2 ^ (n - 1)).
Proof.
  intros Hn. assert (E : 2 ^ n = 2 * 2 ^ (n - 1)) by (rewrite <- Z.pow_succ_r by lia; f_equal; lia). assert (0 < 2 ^ (n - 1)) by (apply Z.pow_pos_nonneg; lia).
  destruct (Z.leb_spec (- 2 ^ (n - 1)) q), (Z.ltb_spec q (2 ^ (n - 1))); cbn [andb].
  - apply Z.eqb_eq. symmetry. by apply swrap_small.
  - apply Z.eqb_neq. unfold swrap. cbv zeta. pose proof (Z.mod_pos_bound q (2 ^ n)). destruct (Z.ltb_spec (q mod 2 ^ n) (2 ^ (n - 1))); lia.
  - apply Z.eqb_neq. unfold swrap. cbv zeta. pose proof (Z.mod_pos_bound q (2 ^ n)). destruct (Z.ltb_spec (q mod 2 ^ n) (2 ^ (n - 1))); lia.
  - lia.
Qed.

Lemma set_env d f e m : cpu_env d m = e -> upd_env d f m = upd_env d (fun _ => f e) m.
Proof.
  intros <-. unfold upd_env, cpu_env, upd_cpu. f_equal. apply alter_ext. intros c Hc. by rewrite (lookup_total_correct _ _ _ Hc).
Qed.

Section division.
  Context (d : nat) (div_ub : X unit) (m : Machine) (t0 : Z).
  Context (Ha : is_u 64 (reg (cpu_env d m) R_EAX)) (Hd : is_u 64 (reg (cpu_env d m) R_EDX)) (Ht : is_u 64 t0).
Let e := cpu_env d m.

Definition div_spec (w : width) (sg : bool) : outcome unit :=
  let N := dividend w sg e in let D := divisor w sg t0 in
  if (D =? 0) || negb (fits w sg (Z.quot N D)) then raise_exception d EXCP00_DIVZ m
  else Ret tt (upd_env d (fun _ => div_result w (Z.quot N D) (Z.rem N D) e) m).

Lemma pair_lor n a h : 0 <= n -> is_u n a -> Z.lor a (Z.shiftl h n) = h * 2 ^ n + a.
Proof. intros Hn Hr. rewrite Z.lor_comm, Z.shiftl_mul_pow2 by done. by apply lor_add. Qed.

Lemma unsigned_quot N D : 0 <= N -> 0 <= D -> D <> 0 -> Z.quot N D = N / D /\ Z.rem N D = N mod D.
Proof. intros HN HD Hne. split; [apply Z.quot_div_nonneg|apply Z.rem_mod_nonneg]; lia. Qed.

Lemma wrap_nonneg n x : 0 <= n -> 0 <= wrap n x.
Proof. intros Hn. by apply wrap_range. Qed.

Lemma byte_result q r : Z.lor (Z.lor (clr (reg e R_EAX) 0xffff) (Z.shiftl (Z.land r 0xff) 8)) (Z.land q 0xff)
  = reg e R_EAX / 65536 * 65536 + wrap 8 r * 256 + wrap 8 q.
Proof.
  change 0xff with (2 ^ 8 - 1). rewrite !land_ff, clr_low16, Z.shiftl_mul_pow2 by lia. pose proof (wrap_range 8 r ltac:(lia)). pose proof (wrap_range 8 q ltac:(lia)).
  unfold is_u in *. change 65536 with (2 ^ 16). rewrite (lor_add _ (wrap 8 r * 2 ^ 8) 16) by lia.
  replace (reg e R_EAX / 2 ^ 16 * 2 ^ 16 + wrap 8 r * 2 ^ 8) with ((reg e R_EAX / 2 ^ 16 * 2 ^ 8 + wrap 8 r) * 2 ^ 8) by lia. rewrite lor_add by lia. lia.
Qed.

Lemma word_result q r : set_low16 (wrap 16 q) (wrap 16 r) e = div_result WW q r e.
Proof.
  unfold set_low16, div_result. rewrite !clr_low16. change 65536 with (2 ^ 16). rewrite !lor_add by (lia || by apply wrap_range). done.
Qed.

Lemma ltb_gt x n : negb (x <? 2 ^ n) = (2 ^ n - 1 <? x).
Proof. destruct (Z.ltb_spec x (2 ^ n)), (Z.ltb_spec (2 ^ n - 1) x); lia. Qed.

(** The end of every helper. *)
Lemma finish_div f g : f e = g -> mod_env d f m = Ret tt (upd_env d (fun _ => g) m).
Proof. intros <-. unfold mod_env, modify. f_equal. by apply set_env. Qed.

Lemma divb_ok : helper_divb_AL d t0 m = div_spec WB false.
Proof.
  unfold helper_divb_AL, div_spec, dividend, divisor, fits. rewrite (bind_Ret _ _ m e m) by done. cbn [data_bits]. rewrite land8, land16.
  destruct (Z.eqb_spec (wrap 8 t0) 0) as [|Hne]; [done|]. cbn [orb].
  destruct (unsigned_quot (wrap 16 (reg e R_EAX)) (wrap 8 t0)) as [-> ->]; [by apply wrap_nonneg|by apply wrap_nonneg|done|].
  rewrite ltb_gt. change (2 ^ 8 - 1) with 0xff. destruct (255 <? _); [done|]. apply finish_div. unfold div_result. by rewrite byte_result.
Qed.

Lemma idivb_ok : helper_idivb_AL d t0 m = div_spec WB true.
Proof.
  unfold helper_idivb_AL, div_spec, dividend, divisor, fits. rewrite (bind_Ret _ _ m e m) by done. cbn [data_bits].
  replace (swrap (2 * 8) (wrap 16 (reg e R_EAX))) with (s16 (reg e R_EAX)) by (unfold swrap, wrap; change (2 * 8) with 16; by rewrite Z.mod_mod).
  destruct (s8 t0 =? 0); [done|]. cbn [orb]. rewrite swrap_fits by lia. destruct (negb _); [done|]. apply finish_div. unfold div_result. by rewrite byte_result.
Qed.

Lemma divw_ok : helper_divw_AX d t0 m = div_spec WW false.
Proof.
  unfold helper_divw_AX, div_spec, dividend, divisor, fits. rewrite (bind_Ret _ _ m e m) by done. cbn [data_bits]. rewrite !land16.
  rewrite pair_lor by (lia || by apply wrap_range). destruct (Z.eqb_spec (wrap 16 t0) 0) as [|Hne]; [done|]. cbn [orb].
  pose proof (wrap_nonneg 16 (reg e R_EDX) ltac:(lia)). pose proof (wrap_nonneg 16 (reg e R_EAX) ltac:(lia)). pose proof (wrap_nonneg 16 t0 ltac:(lia)).
  destruct (unsigned_quot (wrap 16 (reg e R_EDX) * 2 ^ 16 + wrap 16 (reg e R_EAX)) (wrap 16 t0)) as [-> ->]; [lia..|].
  rewrite ltb_gt. change (2 ^ 16 - 1) with 0xffff. destruct (65535 <? _); [done|]. apply finish_div. apply word_result.
Qed.

(** The one quotient C does not define. *)
Definition undefined_div (w : width) (sg : bool) : bool :=
  sg && match w with WW | WL => true | _ => false end && (dividend w sg e =? - 2 ^ (2 * data_bits w - 1)) && (divisor w sg t0 =? -1).

Lemma idivw_ok : undefined_div WW true = false -> helper_idivw_AX d div_ub t0 m = div_spec WW true.
Proof.
  unfold undefined_div, helper_idivw_AX, div_spec, dividend, divisor, fits. rewrite (bind_Ret _ _ m e m) by done. cbn [data_bits andb]. rewrite !land16.
  rewrite pair_lor by (lia || by apply wrap_range). change (2 * 16) with 32. change (- bit 31) with (- 2 ^ (32 - 1)). intros ->.
  destruct (s16 t0 =? 0); [done|]. cbn [orb]. rewrite swrap_fits by lia. destruct (negb _); [done|]. apply finish_div, word_result.
Qed.

Lemma wrap_wrap n x : wrap n (wrap n x) = wrap n x.
Proof. unfold wrap. destruct (Z.eq_dec (2 ^ n) 0) as [->|]; [by rewrite !Z.mod_0_r|by apply Z.mod_mod]. Qed.
Lemma wrap_swrap n x : 0 < n -> wrap n (swrap n x) = wrap n x.
Proof.
  intros Hn. assert (0 < 2 ^ n) by (apply Z.pow_pos_nonneg; lia). unfold wrap, swrap. cbv zeta. destruct (_ <? _); [by apply Z.mod_mod; lia|].
  rewrite <- (Z.mod_add _ 1) by lia. replace (x mod 2 ^ n - 2 ^ n + 1 * 2 ^ n) with (x mod 2 ^ n) by lia. apply Z.mod_mod. lia.
Qed.

Lemma divl_ok : helper_divl_EAX d t0 m = div_spec WL false.
Proof.
  unfold helper_divl_EAX, div_spec, dividend, divisor, fits. rewrite (bind_Ret _ _ m e m) by done. cbn [data_bits].
  rewrite pair_lor by (lia || by apply wrap_range). destruct (Z.eqb_spec (wrap 32 t0) 0) as [|Hne]; [done|]. cbn [orb].
  pose proof (wrap_nonneg 32 (reg e R_EDX) ltac:(lia)). pose proof (wrap_nonneg 32 (reg e R_EAX) ltac:(lia)). pose proof (wrap_nonneg 32 t0 ltac:(lia)).
  destruct (unsigned_quot (wrap 32 (reg e R_EDX) * 2 ^ 32 + wrap 32 (reg e R_EAX)) (wrap 32 t0)) as [-> ->]; [lia..|].
  rewrite ltb_gt. change (2 ^ 32 - 1) with 0xffffffff. destruct (0xffffffff <? _); [done|]. apply finish_div. unfold div_result. by rewrite wrap_wrap.
Qed.

Lemma idivl_ok : undefined_div WL true = false -> helper_idivl_EAX d div_ub t0 m = div_spec WL true.
Proof.
  unfold undefined_div, helper_idivl_EAX, div_spec, dividend, divisor, fits. rewrite (bind_Ret _ _ m e m) by done. cbn [data_bits andb].
  rewrite pair_lor by (lia || by apply wrap_range). change (2 * 32) with 64. change (- bit 63) with (- 2 ^ (64 - 1)). intros ->.
  destruct (s32 t0 =? 0); [done|]. cbn [orb]. rewrite swrap_fits by lia. destruct (negb _); [done|]. apply finish_div. unfold div_result. by rewrite wrap_swrap.
Qed.

Lemma divq_ok : helper_divq_EAX d t0 m = div_spec WQ false.
Proof.
  unfold helper_divq_EAX, div_spec, dividend, divisor, fits. cbn [data_bits]. rewrite !wrap_small by done. destruct (Z.eqb_spec t0 0) as [|Hne]; [done|].
  rewrite (bind_Ret _ _ m e m) by done. cbn [orb]. unfold is_u in Ht. rewrite div64_spec by (done || lia). cbv zeta.
  pose proof (proj1 Ha) as H1. pose proof (proj1 Hd) as H2. fold e in H1, H2.
  destruct (unsigned_quot (reg e R_EDX * 2 ^ 64 + reg e R_EAX) t0) as [-> ->]; [lia..|]. destruct (Z.ltb_spec ((reg e R_EDX * 2 ^ 64 + reg e R_EAX) / t0) (2 ^ 64)); [|done].
  cbn [negb]. apply finish_div. unfold div_result. rewrite !wrap_small; [done| |].
  - split; [apply Z.div_pos|]; lia.
  - pose proof (Z.mod_pos_bound (reg e R_EDX * 2 ^ 64 + reg e R_EAX) t0). split; lia.
Qed.

Lemma s64_range x : - 2 ^ 63 <= s64 x < 2 ^ 63.
Proof. unfold swrap. cbv zeta. change (2 ^ (64 - 1)) with (2 ^ 63). pose proof (Z.mod_pos_bound x (2 ^ 64)). destruct (Z.ltb_spec (x mod 2 ^ 64) (2 ^ 63)); lia. Qed.

Lemma s64_zero_iff : (s64 t0 =? 0) = (t0 =? 0).
Proof. unfold swrap. cbv zeta. unfold is_u in Ht. rewrite Z.mod_small by lia. change (2 ^ (64 - 1)) with (2 ^ 63). destruct (Z.ltb_spec t0 (2 ^ 63)); lia. Qed.

Lemma idivq_ok : helper_idivq_EAX d t0 m = div_spec WQ true.
Proof.
  unfold helper_idivq_EAX, div_spec, dividend, divisor, fits. cbn [data_bits]. rewrite s64_zero_iff, !(wrap_small 64 (reg _ _)) by done.
  destruct (Z.eqb_spec t0 0) as [|Hne]; [done|]. rewrite (bind_Ret _ _ m e m) by done. cbn [orb].
  assert (Hz : s64 t0 <> 0) by (pose proof s64_zero_iff as E; destruct (Z.eqb_spec (s64 t0) 0); [|done]; destruct (Z.eqb_spec t0 0); done).
  rewrite idiv64_spec by (done || apply s64_range). cbv zeta. change (2 * 64) with 128. change (2 ^ (64 - 1)) with (2 ^ 63).
  destruct (_ && _); [|done]. cbn [negb]. by apply finish_div.
Qed.
End division.

(** C20. Division.  For every operand size, signed or not, [div] and [idiv] are
    truncated division of the register pair by the operand: they raise the
    divide error exactly when the divisor is 0 or the quotient does not fit, and
    otherwise leave the quotient and the remainder in the registers, with the
    parts of the registers they do not cover kept.  This includes the 64-bit
    forms, which divide 128-bit numbers by a shift-and-subtract loop; the one
    quotient that C does not define is excluded. *)
Theorem division_correct (d : nat) (div_ub : X unit) (w : width) (sg : bool) (m : Machine) (t0 : Z) :
  is_u 64 (reg (cpu_env d m) R_EAX) -> is_u 64 (reg (cpu_env d m) R_EDX) -> is_u 64 t0 -> undefined_div d m t0 w sg = false ->
  helper_div d div_ub w sg t0 m =
    let e := cpu_env d m in let N := dividend w sg e in let D := divisor w sg t0 in
    if (D =? 0) || negb (fits w sg (Z.quot N D)) then raise_exception d EXCP00_DIVZ m
    else Ret tt (upd_env d (fun _ => div_result w (Z.quot N D) (Z.rem N D) e) m).
Proof.
  intros Ha Hd Ht Hu. cbv zeta. change (if _ || _ then _ else _) with (div_spec d m t0 w sg).
  destruct w, sg; cbn [helper_div]; [apply idivb_ok|apply divb_ok|by apply idivw_ok|apply divw_ok|by apply idivl_ok|apply divl_ok|by apply idivq_ok|by apply divq_ok].
Qed.

Definition ex_div : Machine := upd_env 0 (fun e => set_reg R_EDX (2 ^ 64 - 1) (set_reg R_EAX (2 ^ 64 - 100) e)) (ex_machine 1).

Lemma division_correct_witness :
  match helper_div 0 (mret tt) WQ true 7 ex_div with
  | Ret _ m' => reg (cpu_env 0 m') R_EAX = 2 ^ 64 - 14 /\ reg (cpu_env 0 m') R_EDX = 2 ^ 64 - 2
  | _ => False
  end.
Proof.
  rewrite (division_correct 0 (mret tt) WQ true ex_div 7); [vm_compute; split; reflexivity|split; vm_compute; (reflexivity || discriminate)..|reflexivity].
Defined.

(** ** Rotation *)

(** The ring a rotation turns: the operand with the carry flag on top. *)
Definition ring_bit (w : width) (x : Z * CPUX86State) (i : Z) : bool :=
  if i =? data_bits w then Z.testbit (cc_src x.2) 0 else Z.testbit x.1 i.

Section rotate.
  Context (w : width) (t0 t1 : Z) (e : CPUX86State).
Let n := data_bits w.
Let c := rotate_count w t1.

Lemma count_range : 0 <= c <= n.
Proof.
  unfold c, n, rotate_count.
  assert (Hm : forall k, 0 <= k -> 0 <= Z.land t1 (2 ^ k - 1) < 2 ^ k).
  { intros k Hk. rewrite land_ff by done. by apply wrap_range. }
  pose proof (Hm 5 ltac:(lia)) as H5. pose proof (Hm 6 ltac:(lia)) as H6. change (2 ^ 5 - 1) with 0x1f in H5. change (2 ^ 6 - 1) with 0x3f in H6.
  assert (Ht : forall l b, Forall (fun x => 0 <= x <= b) l -> forall k, 0 <= b -> 0 <= nth k l 0 <= b).
  { intros l b Hl k Hb. destruct (decide (k < length l)%nat) as [Hk|Hk]; [|rewrite nth_overflow by lia; lia]. rewrite Forall_nth in Hl. by apply Hl. }
  destruct w; cbn [data_bits]; try lia; apply Ht; try lia; repeat constructor; lia.
Qed.

Lemma n_range : 8 <= n <= 64.
Proof. unfold n. destruct w; cbn; lia. Qed.

Lemma carry_bit i : 0 <= i -> Z.testbit (Z.land (s32 (cc_src e)) CC_C) i = (i =? 0) && Z.testbit (cc_src e) 0.
Proof.
  intros Hi. change CC_C with (Z.ones 1). rewrite Z.land_spec. destruct (Z.eqb_spec i 0) as [->|].
  - by rewrite swrap_testbit, andb_true_r by lia.
  - by rewrite Z.ones_spec_high, andb_false_r by lia.
Qed.

Lemma flags_bit0 src res x : Z.testbit (rotate_flags w (s32 (cc_src e)) src res x) 0 = Z.testbit x 0.
Proof.
  unfold rotate_flags. rewrite wrap_testbit, !Z.lor_spec, !Z.land_spec by lia. change (Z.testbit (Z.lnot (Z.lor CC_C CC_O)) 0) with false.
  change (Z.testbit CC_O 0) with false. change (Z.testbit CC_C 0) with true. rewrite !andb_false_r, andb_true_r. done.
Qed.

Lemma src_bit i : 0 <= i -> Z.testbit (wrap n t0) i = (i <? n) && Z.testbit t0 i.
Proof. intros Hi. apply wrap_testbit. pose proof n_range. lia. Qed.

(** The bits of the operand rotated left, carry coming in at [c - 1]. *)
Lemma rcl_bit j : 0 < c -> 0 <= j < n -> Z.testbit (helper_rcl w t0 t1 e).1 j =
  if c <=? j then Z.testbit t0 (j - c) else if j =? c - 1 then Z.testbit (cc_src e) 0 else Z.testbit t0 (j + n + 1 - c).
Proof.
  intros Hc Hj. pose proof n_range as Hn. pose proof count_range as Hr. unfold helper_rcl. fold n c. unfold nz. rewrite (proj2 (Z.eqb_neq c 0)) by lia. cbn [negb fst].
  set (r := Z.lor (u64 (Z.shiftl (wrap n t0) c)) (u64 (Z.shiftl (Z.land (s32 (cc_src e)) CC_C) (c - 1)))).
  assert (Er : Z.testbit r j = (c <=? j) && Z.testbit t0 (j - c) || (j =? c - 1) && Z.testbit (cc_src e) 0).
  { unfold r. rewrite Z.lor_spec, !wrap_testbit, (proj2 (Z.ltb_lt j 64)), !Z.shiftl_spec by lia. cbn [andb]. f_equal.
    - destruct (Z.leb_spec c j); [|by rewrite Z.testbit_neg_r by lia]. rewrite src_bit by lia. by rewrite (proj2 (Z.ltb_lt _ _)) by lia.
    - destruct (Z.eqb_spec j (c - 1)) as [->|]; [by rewrite Z.sub_diag, carry_bit by lia|].
      destruct (Z.ltb_spec (j - (c - 1)) 0); [by rewrite Z.testbit_neg_r by lia|]. rewrite carry_bit by lia. by rewrite (proj2 (Z.eqb_neq _ _)) by lia. }
  destruct (Z.ltb_spec 1 c).
  - rewrite Z.lor_spec, Er, Z.shiftr_spec, src_bit by lia. replace (j + (n + 1 - c)) with (j + n + 1 - c) by lia.
    destruct (Z.leb_spec c j), (Z.eqb_spec j (c - 1)), (Z.ltb_spec (j + n + 1 - c) n); try lia; cbn; rewrite ?orb_false_r; done.
  - rewrite Er. destruct (Z.leb_spec c j), (Z.eqb_spec j (c - 1)); try lia; cbn; rewrite ?orb_false_r; done.
Qed.

Lemma rcl_carry : 0 < c -> Z.testbit (cc_src (helper_rcl w t0 t1 e).2) 0 = Z.testbit t0 (n - c).
Proof.
  intros Hc. pose proof n_range as Hn. pose proof count_range as Hr. unfold helper_rcl. fold n c. unfold nz. rewrite (proj2 (Z.eqb_neq c 0)) by lia. cbn [negb snd].
  etransitivity; [apply flags_bit0|]. rewrite Z.shiftr_spec, src_bit by lia. rewrite Z.add_0_l. by rewrite (proj2 (Z.ltb_lt _ _)) by lia.
Qed.

(** The bits of the operand rotated right. *)
Lemma rcr_bit j : 0 < c -> 0 <= j < n -> Z.testbit (helper_rcr w t0 t1 e).1 j =
  if j + c <? n then Z.testbit t0 (j + c) else if j + c =? n then Z.testbit (cc_src e) 0 else Z.testbit t0 (j + c - n - 1).
Proof.
  intros Hc Hj. pose proof n_range as Hn. pose proof count_range as Hr. unfold helper_rcr. fold n c. unfold nz. rewrite (proj2 (Z.eqb_neq c 0)) by lia. cbn [negb fst].
  set (r := Z.lor (Z.shiftr (wrap n t0) c) (u64 (Z.shiftl (Z.land (s32 (cc_src e)) CC_C) (n - c)))).
  assert (Er : Z.testbit r j = (j + c <? n) && Z.testbit t0 (j + c) || (j + c =? n) && Z.testbit (cc_src e) 0).
  { unfold r. rewrite Z.lor_spec, wrap_testbit, (proj2 (Z.ltb_lt j 64)), Z.shiftl_spec, Z.shiftr_spec, src_bit by lia. cbn [andb]. f_equal.
    destruct (Z.eqb_spec (j + c) n) as [E|]; [replace (j - (n - c)) with 0 by lia; by rewrite carry_bit by lia|].
    destruct (Z.ltb_spec (j - (n - c)) 0); [by rewrite Z.testbit_neg_r by lia|]. rewrite carry_bit by lia. by rewrite (proj2 (Z.eqb_neq _ _)) by lia. }
  destruct (Z.ltb_spec 1 c).
  - rewrite Z.lor_spec, Er, wrap_testbit, (proj2 (Z.ltb_lt j 64)), Z.shiftl_spec by lia. cbn [andb]. replace (j - (n + 1 - c)) with (j + c - n - 1) by lia.
    destruct (Z.ltb_spec (j + c) n), (Z.eqb_spec (j + c) n); try lia; cbn; rewrite ?orb_false_r; try (rewrite (Z.testbit_neg_r _ (j + c - n - 1)) by lia; by rewrite orb_false_r).
    rewrite src_bit by lia. by rewrite (proj2 (Z.ltb_lt _ _)) by lia.
  - rewrite Er. destruct (Z.ltb_spec (j + c) n), (Z.eqb_spec (j + c) n); try lia; cbn; rewrite ?orb_false_r; done.
Qed.

Lemma rcr_carry : 0 < c -> Z.testbit (cc_src (helper_rcr w t0 t1 e).2) 0 = Z.testbit t0 (c - 1).
Proof.
  intros Hc. pose proof n_range as Hn. pose proof count_range as Hr. unfold helper_rcr. fold n c. unfold nz. rewrite (proj2 (Z.eqb_neq c 0)) by lia. cbn [negb snd].
  etransitivity; [apply flags_bit0|]. rewrite Z.shiftr_spec, src_bit by lia. rewrite Z.add_0_l. by rewrite (proj2 (Z.ltb_lt _ _)) by lia.
Qed.
End rotate.

Definition rotate_mask (w : width) : Z := match w with WQ => 63 | _ => 31 end.

Lemma table_spec l b t1 : forallb (fun k => nth (Z.to_nat k) l 0 =? k mod b) (seqZ 0 32) = true ->
  nth (Z.to_nat (Z.land t1 31)) l 0 = Z.land t1 31 mod b.
Proof.
  intros H. rewrite forallb_forall in H. apply Z.eqb_eq, H, list_elem_of_In, elem_of_seqZ. change 31 with (2 ^ 5 - 1). rewrite land_ff by lia.
  pose proof (wrap_range 5 t1 ltac:(lia)). unfold is_u in *. lia.
Qed.

Lemma rotate_count_spec w t1 : rotate_count w t1 = Z.land t1 (rotate_mask w) mod (data_bits w + 1).
Proof.
  pose proof (wrap_range 5 t1 ltac:(lia)) as H5. pose proof (wrap_range 6 t1 ltac:(lia)) as H6. rewrite <- land_ff in H5, H6 by lia. unfold is_u in *.
  change (2 ^ 5 - 1) with 31 in H5. change (2 ^ 6 - 1) with 63 in H6.
  unfold rotate_count, rotate_mask. destruct w; cbn [data_bits]; [apply table_spec; by vm_compute|apply table_spec; by vm_compute|symmetry; apply Z.mod_small; lia..].
Qed.

Lemma ring_index n i c : 0 <= i <= n -> 0 <= c <= n -> (i + c) mod (n + 1) = if i + c <=? n then i + c else i + c - n - 1.
Proof.
  intros Hi Hc. destruct (Z.leb_spec (i + c) n); [apply Z.mod_small; lia|]. rewrite <- (Z.mod_add _ (-1)), Z.mod_small by lia. lia.
Qed.

Lemma rotate_0 w t0 t1 e : rotate_count w t1 = 0 -> helper_rcl w t0 t1 e = (t0, e) /\ helper_rcr w t0 t1 e = (t0, e).
Proof. intros E. unfold helper_rcl, helper_rcr. by rewrite E. Qed.

(** C32. Rotation through carry.  For every operand size, operand, carry and
    count, [rcl] turns the ring of the operand bits with the carry flag on top
    to the left by the count the architecture prescribes, and [rcr] to the
    right. *)
Theorem rotate_through_carry (w : width) (t0 t1 : Z) (e : CPUX86State) :
  let n := data_bits w in
  let c := Z.land t1 (rotate_mask w) mod (n + 1) in
  forall i, 0 <= i <= n ->
    ring_bit w (helper_rcl w t0 t1 e) ((i + c) mod (n + 1)) = ring_bit w (t0, e) i /\
    ring_bit w (helper_rcr w t0 t1 e) i = ring_bit w (t0, e) ((i + c) mod (n + 1)).
Proof.
  intros n c i Hi. unfold c. unfold n. rewrite <- rotate_count_spec. pose proof (count_range w t1) as Hc. fold n in Hc. rewrite ring_index by done.
  destruct (Z.eq_dec (rotate_count w t1) 0) as [E|Hne].
  - destruct (rotate_0 w t0 t1 e E) as [-> ->]. rewrite E, Z.add_0_r. rewrite (proj2 (Z.leb_le _ _)) by (fold n; lia). done.
  - fold n. pose proof (rcl_bit w t0 t1 e) as Hl. pose proof (rcr_bit w t0 t1 e) as Hr. pose proof (rcl_carry w t0 t1 e ltac:(lia)) as Cl. pose proof (rcr_carry w t0 t1 e ltac:(lia)) as Cr.
    fold n in Hl, Hr, Cl, Cr. set (k := rotate_count w t1) in *. unfold ring_bit. fold n. cbn [fst snd]. rewrite Cl, Cr.
    split; destruct (Z.leb_spec (i + k) n).
    + destruct (Z.eqb_spec (i + k) n) as [E|]; [rewrite (proj2 (Z.eqb_neq i n)) by lia; f_equal; lia|].
      rewrite Hl, (proj2 (Z.leb_le _ _)), (proj2 (Z.eqb_neq i n)) by lia. f_equal. lia.
    + rewrite (proj2 (Z.eqb_neq (i + k - n - 1) n)), Hl, (proj2 (Z.leb_gt _ _)) by lia.
      destruct (Z.eqb_spec i n), (Z.eqb_spec (i + k - n - 1) (k - 1)); try lia; [done|]. f_equal. lia.
    + destruct (Z.eqb_spec i n); [lia|]. rewrite Hr by lia. destruct (Z.ltb_spec (i + k) n), (Z.eqb_spec (i + k) n); try lia; done.
    + rewrite (proj2 (Z.eqb_neq (i + k - n - 1) n)) by lia. destruct (Z.eqb_spec i n); [f_equal; lia|].
      rewrite Hr, (proj2 (Z.ltb_ge _ _)), (proj2 (Z.eqb_neq _ _)) by lia. done.
Qed.

(** The carry of 0x81 rotated left by 10, that is by one. *)
Lemma rotate_through_carry_witness :
  let e := env (cpus (ex_machine 1) !!! 0%nat) in
  ring_bit WB (helper_rcl WB 0x81 10 e) 8 = true /\ ring_bit WB (helper_rcr WB 0x81 10 e) 7 = false.
Proof.
  cbv zeta. split.
  - exact (proj1 (rotate_through_carry WB 0x81 10 (env (cpus (ex_machine 1) !!! 0%nat)) 7 ltac:(cbn; lia))).
  - exact (proj2 (rotate_through_carry WB 0x81 10 (env (cpus (ex_machine 1) !!! 0%nat)) 7 ltac:(cbn; lia))).
Defined.

(** ** Scatter and gather *)

(** The positions of the bits set, in order. *)
Fixpoint bits_from (n : nat) (a mask : Z) : list Z :=
  match n with
  | O => []
  | S n' => if Z.testbit mask a then a :: bits_from n' (a + 1) mask else bits_from n' (a + 1) mask
  end.
Definition set_bits (mask : Z) : list Z := bits_from 64 0 mask.

Lemma bits_ext n a x y : (forall j, a <= j < a + Z.of_nat n -> Z.testbit x j = Z.testbit y j) -> bits_from n a x = bits_from n a y.
Proof.
  revert a. induction n as [|n IH]; intros a H; [done|]. cbn [bits_from]. rewrite (H a), (IH (a + 1)) by (intros; try apply H; lia). done.
Qed.
Lemma bits_none n a x : (forall j, a <= j < a + Z.of_nat n -> Z.testbit x j = false) -> bits_from n a x = [].
Proof. intros H. rewrite (bits_ext n a x 0) by (intros; rewrite Z.bits_0; by apply H). clear H. revert a. induction n as [|n IH]; intros a; [done|]. cbn. by rewrite Z.bits_0. Qed.
Lemma bits_app n k a x : bits_from (n + k) a x = bits_from n a x ++ bits_from k (a + Z.of_nat n) x.
Proof.
  revert a. induction n as [|n IH]; intros a; [by rewrite Z.add_0_r|]. cbn [bits_from Nat.add app]. rewrite IH. replace (a + 1 + Z.of_nat n) with (a + Z.of_nat (S n)) by lia.
  by destruct (Z.testbit x a).
Qed.
Lemma bits_in n a x j : j ∈ bits_from n a x <-> a <= j < a + Z.of_nat n /\ Z.testbit x j = true.
Proof.
  revert a. induction n as [|n IH]; intros a; cbn [bits_from]; [rewrite elem_of_nil; lia|].
  destruct (Z.testbit x a) eqn:E; rewrite ?elem_of_cons, IH; split.
  - intros [->|[? ?]]; [split; [lia|done]|split; [lia|done]].
  - intros [? ?]. destruct (Z.eq_dec j a); [by left|right; split; [lia|done]].
  - intros [? ?]. split; [lia|done].
  - intros [? Hj]. destruct (Z.eq_dec j a); [congruence|split; [lia|done]].
Qed.
Lemma bits_nodup n a x : NoDup (bits_from n a x).
Proof.
  revert a. induction n as [|n IH]; intros a; cbn [bits_from]; [constructor|]. destruct (Z.testbit x a); [|done]. constructor; [|done].
  rewrite bits_in. lia.
Qed.

Lemma ctz_spec p : exists k, Z.pos p = 2 ^ ctz_pos p * (2 * k + 1) /\ 0 <= ctz_pos p /\ 0 <= k.
Proof.
  induction p as [p _|p (k & E & Hc & Hk)|]; cbn [ctz_pos].
  - exists (Z.pos p). rewrite Z.pow_0_r. lia.
  - exists k. rewrite Z.pow_add_r by lia. change (2 ^ 1) with 2. rewrite <- Z.mul_assoc, <- E. lia.
  - exists 0. done.
Qed.

(** Clearing the lowest bit. *)
Lemma clear_lowest c k j : 0 <= c -> 0 <= j -> let mask := 2 ^ c * (2 * k + 1) in
  Z.testbit (Z.land mask (mask - 1)) j = Z.testbit mask j && negb (j =? c) /\ (j < c -> Z.testbit mask j = false) /\ (j = c -> Z.testbit mask j = true).
Proof.
  intros Hc Hj mask. assert (Em : mask = (2 * k + 1) * 2 ^ c) by (unfold mask; ring). assert (Hp : 0 < 2 ^ c) by (apply Z.pow_pos_nonneg; lia).
  assert (Elow : j < c -> Z.testbit mask j = false) by (intros; rewrite Em; apply Z.mul_pow2_bits_low; lia).
  assert (Ec : j = c -> Z.testbit mask j = true) by (intros ->; rewrite Em, Z.mul_pow2_bits, Z.sub_diag by lia; apply Z.testbit_odd_0).
  split; [|done]. rewrite Z.land_spec. destruct (Z.eqb_spec j c) as [->|Hne].
  - rewrite andb_false_r. replace (mask - 1) with (2 * k * 2 ^ c + (2 ^ c - 1)) by (rewrite Em; ring). rewrite <- lor_add by lia.
    rewrite Z.lor_spec, Z.mul_pow2_bits, Z.sub_diag, Z.testbit_even_0 by lia. rewrite (is_u_testbit_high c (2 ^ c - 1) c) by (unfold is_u; lia). by rewrite andb_false_r.
  - rewrite andb_true_r. destruct (Z.ltb_spec j c); [by rewrite Elow|]. replace (mask - 1) with (2 * k * 2 ^ c + (2 ^ c - 1)) by (rewrite Em; ring). rewrite <- lor_add by lia.
    rewrite Z.lor_spec, (is_u_testbit_high c (2 ^ c - 1)), orb_false_r by (unfold is_u; lia). rewrite Em, !Z.mul_pow2_bits by lia.
    replace (j - c) with (Z.succ (j - c - 1)) by lia. rewrite Z.testbit_odd_succ, Z.testbit_even_succ by lia. apply andb_diag.
Qed.

Lemma set_bits_cons mask : is_u 64 mask -> mask <> 0 ->
  set_bits mask = ctztl mask :: set_bits (Z.land mask (mask - 1)) /\ is_u 64 (Z.land mask (mask - 1)) /\ 0 <= ctztl mask < 64.
Proof.
  intros [H0 H1] Hne. destruct mask as [|p|p]; [done| |lia]. cbn [ctztl]. destruct (ctz_spec p) as (k & E & Hc & Hk). set (c := ctz_pos p) in *.
  pose proof (fun j Hj => clear_lowest c k j Hc Hj) as Hcl. cbv zeta in Hcl. rewrite <- E in Hcl.
  assert (Hc64 : c < 64).
  { destruct (Z.ltb_spec c 64); [done|]. destruct (Hcl c Hc) as (_ & _ & Hb). specialize (Hb eq_refl). rewrite (is_u_testbit_high 64) in Hb by (done || lia). done. }
  split; [|split; [|lia]].
  - unfold set_bits. set (a := Z.to_nat c). set (b := Z.to_nat (63 - c)). change 64%nat with (Z.to_nat 64).
    replace (Z.to_nat 64) with (a + S b)%nat by lia. rewrite !bits_app. cbn [bits_from]. replace (0 + Z.of_nat a) with c by lia.
    rewrite !(bits_none a 0) by (intros j Hj; destruct (Hcl j ltac:(lia)) as (Ej & Hlow & _); rewrite ?Ej, Hlow by lia; done).
    destruct (Hcl c Hc) as (Ec & _ & Hbit). rewrite Ec, Hbit, Z.eqb_refl by done. cbn [andb negb app]. f_equal. apply bits_ext. intros j Hj.
    destruct (Hcl j ltac:(lia)) as (-> & _ & _). rewrite (proj2 (Z.eqb_neq j c)) by lia. by rewrite andb_true_r.
  - apply is_u_of_bits; [lia|apply Z.land_nonneg; lia|]. intros j Hj. rewrite Z.land_spec, (is_u_testbit_high 64) by (unfold is_u; lia). done.
Qed.

(** The loops go through the positions. *)
Lemma bits_length n a x : (length (bits_from n a x) <= n)%nat.
Proof. revert a. induction n as [|n IH]; intros a; cbn [bits_from]; [done|]. specialize (IH (a + 1)). destruct (Z.testbit x a); cbn [length]; lia. Qed.

Lemma set_bits_nodup mask : NoDup (set_bits mask).
Proof. unfold set_bits. apply bits_nodup. Qed.
Lemma set_bits_length mask : (length (set_bits mask) <= 64)%nat.
Proof. unfold set_bits. apply bits_length. Qed.
Lemma set_bits_in mask j : j ∈ set_bits mask <-> 0 <= j < 64 /\ Z.testbit mask j = true.
Proof. unfold set_bits. apply bits_in. Qed.
Lemma set_bits_0 : set_bits 0 = [].
Proof. by vm_compute. Qed.
#[local] Opaque set_bits.

Lemma bit_at src i o j : 0 <= i -> 0 <= o -> 0 <= j -> Z.testbit (Z.shiftl (Z.land (Z.shiftr src i) 1) o) j = (j =? o) && Z.testbit src i.
Proof.
  intros Hi Ho Hj. rewrite Z.shiftl_spec by lia. destruct (Z.ltb_spec j o); [by rewrite Z.testbit_neg_r, (proj2 (Z.eqb_neq j o)) by lia|].
  change 1 with (Z.ones 1). rewrite Z.land_spec, Z.shiftr_spec by lia. destruct (Z.eqb_spec j o) as [->|].
  - by rewrite Z.sub_diag, andb_true_r.
  - by rewrite Z.ones_spec_high, andb_false_r by lia.
Qed.

Lemma pdep_loop_bit fuel : forall src i mask dest j, is_u 64 mask -> (length (set_bits mask) <= fuel)%nat -> 0 <= i -> 0 <= j ->
  Z.testbit (pdep_loop fuel src i mask dest) j = Z.testbit dest j ||
    match list_find (eq j) (set_bits mask) with Some (k, _) => Z.testbit src (i + Z.of_nat k) | None => false end.
Proof.
  induction fuel as [|fuel IH]; intros src i mask dest j Hm Hl Hi Hj; cbn [pdep_loop].
  - destruct (set_bits mask); [by rewrite orb_false_r|cbn in Hl; lia].
  - unfold nz. destruct (Z.eqb_spec mask 0) as [->|Hne]; cbn [negb]; [by rewrite set_bits_0, orb_false_r|].
    destruct (set_bits_cons mask Hm Hne) as (E & Hm' & Hc). rewrite E in Hl. cbn [length] in Hl. rewrite IH by (done || lia). rewrite Z.lor_spec, bit_at by lia. rewrite E.
    pose proof (set_bits_nodup mask) as Hnd. rewrite E in Hnd. apply list.NoDup_cons in Hnd as [Hnin _].
    revert Hnin. generalize (set_bits (Z.land mask (mask - 1))). intros l Hnin. cbn [list_find]. destruct (decide (j = ctztl mask)) as [->|Hj'].
    + rewrite Z.eqb_refl, Z.add_0_r. rewrite (proj2 (list_find_None _ _)); [by rewrite orb_false_r|]. apply list.Forall_forall. intros x Hx <-. done.
    + rewrite (proj2 (Z.eqb_neq _ _)) by done. cbn [andb]. rewrite orb_false_r. f_equal. destruct (list_find (eq j) _) as [[k x]|]; cbn; [|done]. f_equal. lia.
Qed.

Lemma pext_loop_bit fuel : forall src o mask dest j, is_u 64 mask -> (length (set_bits mask) <= fuel)%nat -> 0 <= o -> 0 <= j ->
  Z.testbit (pext_loop fuel src o mask dest) j = Z.testbit dest j ||
    (o <=? j) && match set_bits mask !! Z.to_nat (j - o) with Some p => Z.testbit src p | None => false end.
Proof.
  induction fuel as [|fuel IH]; intros src o mask dest j Hm Hl Ho Hj; cbn [pext_loop].
  - destruct (set_bits mask); [by rewrite andb_false_r, orb_false_r|cbn in Hl; lia].
  - unfold nz. destruct (Z.eqb_spec mask 0) as [->|Hne]; cbn [negb]; [by rewrite set_bits_0, andb_false_r, orb_false_r|].
    destruct (set_bits_cons mask Hm Hne) as (E & Hm' & Hc). rewrite E in Hl. cbn [length] in Hl. rewrite IH by (done || lia). rewrite Z.lor_spec, bit_at by lia. rewrite E.
    generalize (set_bits (Z.land mask (mask - 1))). intros l. destruct (Z.eqb_spec j o) as [->|Hj'].
    + rewrite Z.sub_diag, (proj2 (Z.leb_gt (o + 1) o)), Z.leb_refl by lia. cbn. by rewrite orb_false_r.
    + cbn [andb]. rewrite orb_false_r. f_equal. destruct (Z.leb_spec (o + 1) j), (Z.leb_spec o j); try lia. cbn [andb].
      replace (Z.to_nat (j - o)) with (S (Z.to_nat (j - (o + 1)))) by lia. reflexivity.
Qed.

(** C33. Scatter and gather are inverse.  Gathering what was scattered by a mask
    gives the low bits of the source, as many as the mask has; scattering what
    was gathered gives the source under the mask. *)
Theorem pdep_pext_inverse (src mask : Z) : is_u 64 mask ->
  helper_pext (helper_pdep src mask) mask = wrap (Z.of_nat (length (set_bits mask))) src /\
  helper_pdep (helper_pext src mask) mask = Z.land src mask.
Proof.
  intros Hm. pose proof (set_bits_length mask) as Hl. pose proof (set_bits_nodup mask) as Hnd.
  assert (Hd : forall s j, 0 <= j -> Z.testbit (helper_pdep s mask) j = match list_find (eq j) (set_bits mask) with Some (k, _) => Z.testbit s (Z.of_nat k) | None => false end).
  { intros s j Hj. unfold helper_pdep. rewrite pdep_loop_bit by (done || lia). by rewrite Z.bits_0. }
  assert (He : forall s j, 0 <= j -> Z.testbit (helper_pext s mask) j = match set_bits mask !! Z.to_nat j with Some p => Z.testbit s p | None => false end).
  { intros s j Hj. unfold helper_pext. rewrite pext_loop_bit by (done || lia). by rewrite Z.bits_0, (proj2 (Z.leb_le 0 j)), Z.sub_0_r by lia. }
  assert (Hin : forall k p, set_bits mask !! k = Some p -> 0 <= p /\ list_find (eq p) (set_bits mask) = Some (k, p)).
  { intros k p Hk. pose proof (list_elem_of_lookup_2 _ _ _ Hk) as Hp. apply set_bits_in in Hp. split; [lia|]. apply list_find_Some. split; [done|]. split; [done|].
    intros k' y Hk' Hlt <-. pose proof (NoDup_lookup _ _ _ _ Hnd Hk Hk'). lia. }
  split; apply Z.bits_inj'; intros j Hj.
  - rewrite He, wrap_testbit by lia. destruct (set_bits mask !! Z.to_nat j) as [p|] eqn:E.
    + destruct (Hin _ _ E) as [Hp Hf]. rewrite Hd, Hf by done. rewrite Z2Nat.id by lia. apply lookup_lt_Some in E. by rewrite (proj2 (Z.ltb_lt _ _)) by lia.
    + apply lookup_ge_None in E. by rewrite (proj2 (Z.ltb_ge _ _)) by lia.
  - rewrite Hd, Z.land_spec by lia. destruct (list_find (eq j) (set_bits mask)) as [[k x]|] eqn:E.
    + apply list_find_Some in E as (Hk & <- & _). rewrite He, Nat2Z.id, Hk by lia. apply list_elem_of_lookup_2, set_bits_in in Hk as [_ ->]. by rewrite andb_true_r.
    + apply list_find_None in E. destruct (Z.testbit mask j) eqn:Eb; [|by rewrite andb_false_r]. exfalso. rewrite list.Forall_forall in E. apply (E j); [|done].
      apply set_bits_in. split; [|done]. split; [lia|]. destruct (Z.ltb_spec j 64); [done|]. by rewrite (is_u_testbit_high 64) in Eb by (done || lia).
Qed.

#[local] Transparent set_bits.
Lemma pdep_pext_inverse_witness :
  helper_pext (helper_pdep 0xabc 0xf0f) 0xf0f = 0xbc /\ helper_pdep (helper_pext 0xabc 0xf0f) 0xf0f = 0xa0c.
Proof. exact (pdep_pext_inverse 0xabc 0xf0f ltac:(split; [done|by vm_compute])). Defined.
