(* ===== verification/Keeps.v ===== *)
(** * Invariants of a processor's state across helpers

    [keeps k I x]: the state of processor [k] satisfies [I] after [x] when it did
    before, whether [x] returns, leaves the execution loop or aborts.  [x] may be
    a helper of processor [k] or of another. *)
From S2P Require Import Prelude Cpu Machine Exec ExcFacts.

Definition after {A} (o : outcome A) : Machine :=
  match o with Ret _ m => m | Exit m => m | Abort m => m end.

Definition keeps (k : nat) (I : CPUX86State -> Prop) {A} (x : X A) : Prop :=
  forall m, I (cpu_env k m) -> I (cpu_env k (after (x m))).

(** The invariant does not look at the exception being raised. *)
Definition exception_blind (I : CPUX86State -> Prop) : Prop :=
  forall e a b c w o, I e ->
    I (e <| exception_index := a |> <| error_code := b |> <| exception_is_int := c |>
         <| exception_next_eip := w |>) /\
    I (e <| old_exception := o |>) /\ I (e <| exception_index := a |>) /\ I (e <| error_code := b |>).

Lemma cpu_env_upd_cases k d f m :
  cpu_env k (upd_env d f m) = f (cpu_env k m) \/ cpu_env k (upd_env d f m) = cpu_env k m.
Proof.
  unfold cpu_env, upd_env, upd_cpu. cbn. unfold lookup_total, map_lookup_total. destruct (decide (k = d)) as [->|].
  - rewrite lookup_alter_eq. destruct (cpus m !! d); [by left|by right].
  - rewrite lookup_alter_ne by done. by right.
Qed.

Section keeps.
  Context (k d : nat) (I : CPUX86State -> Prop).

Lemma keeps_ret {A} (a : A) : keeps k I (mret a).
Proof. by intros m. Qed.

Lemma keeps_bind {A B} (x : X A) (f : A -> X B) : keeps k I x -> (forall a, keeps k I (f a)) -> keeps k I (x ≫= f).
Proof.
  intros Hx Hf m Hm. specialize (Hx m Hm). unfold mbind, X_bind. destruct (x m) as [a m'|m'|m']; [by apply Hf|done|done].
Qed.

Lemma keeps_gets {A} (f : Machine -> A) : keeps k I (gets f).
Proof. by intros m. Qed.

Lemma keeps_exit {A} : keeps k I (cpu_loop_exit (A := A)).
Proof. by intros m. Qed.

Lemma keeps_modify f : (forall m, cpus (f m) = cpus m) -> keeps k I (modify f).
Proof. intros H m Hm. unfold cpu_env. cbn. by rewrite H. Qed.

Lemma keeps_mod_env f : (forall e, I e -> I (f e)) -> keeps k I (mod_env d f).
Proof.
  intros H m Hm. change (I (cpu_env k (upd_env d f m))).
  destruct (cpu_env_upd_cases k d f m) as [-> | ->]; auto.
Qed.

Lemma keeps_when b x : keeps k I x -> keeps k I (when b x).
Proof. intros H. destruct b; [exact H|by apply keeps_ret]. Qed.
End keeps.

Create HintDb keeps discriminated.
#[export] Hint Constants Opaque : keeps.
#[export] Hint Resolve keeps_ret keeps_gets keeps_exit keeps_when : keeps.
#[export] Hint Extern 1 (keeps _ _ (get_env _)) => (apply keeps_gets) : keeps.
#[export] Hint Extern 1 (keeps _ _ (phys_ld _ _)) => (apply keeps_gets) : keeps.
#[export] Hint Extern 1 (keeps _ _ (x86_ldub_phys _)) => (apply keeps_gets) : keeps.
#[export] Hint Extern 1 (keeps _ _ (x86_ldq_phys _)) => (apply keeps_gets) : keeps.
#[export] Hint Extern 1 (keeps _ _ (x86_stq_phys _ _)) => (apply keeps_modify; reflexivity) : keeps.
#[export] Hint Extern 1 (keeps _ _ (modify _)) => (apply keeps_modify; reflexivity) : keeps.

(** Steps through a sequence whose parts keep the invariant. *)
Ltac keeps_step :=
  lazymatch goal with
  | |- keeps _ _ (_ ≫= _) => apply keeps_bind; [|intros ?]
  | |- keeps _ _ (if ?b then _ else _) => destruct b eqn:?
  | |- keeps _ _ (when _ _) => apply keeps_when
  | |- keeps _ _ (let '(_, _) := ?p in _) => destruct p
  | |- keeps _ _ (match ?o with Some _ => _ | None => _ end) => destruct o
  | |- keeps _ _ _ => solve [eauto with keeps nocore]
  end.
Ltac keeps_steps := repeat keeps_step.

Section raising.
  Context (k d : nat) (I : CPUX86State -> Prop) (Hb : exception_blind I).

Lemma blind_index e a : I e -> I (e <| exception_index := a |>).
Proof. intros H. apply (Hb e a 0 0 0 0 H). Qed.
Lemma blind_old e a : I e -> I (e <| old_exception := a |>).
Proof. intros H. apply (Hb e 0 0 0 0 a H). Qed.
#[local] Hint Resolve blind_index blind_old : core.
#[local] Hint Extern 2 (keeps _ _ (mod_env _ _)) => (apply keeps_mod_env; solve [auto]) : keeps.

Lemma keeps_vmexit {A} code info : keeps k I (cpu_vmexit (A := A) d code info).
Proof. unfold cpu_vmexit. keeps_steps. Qed.
#[local] Hint Resolve keeps_vmexit : keeps.

Lemma keeps_intercept type param : keeps k I (cpu_svm_check_intercept_param d type param).
Proof. unfold cpu_svm_check_intercept_param. keeps_steps. Qed.
#[local] Hint Resolve keeps_intercept : keeps.

Lemma keeps_check_exception n code : keeps k I (check_exception d n code).
Proof. unfold check_exception. keeps_steps. Qed.
#[local] Hint Resolve keeps_check_exception : keeps.

Lemma keeps_raise {A} n is_int code addend : keeps k I (raise_interrupt2 (A := A) d n is_int code addend).
Proof.
  unfold raise_interrupt2. keeps_steps. apply keeps_mod_env. intros e He. apply (Hb e _ _ _ _ 0 He).
Qed.
End raising.
#[export] Hint Resolve keeps_vmexit keeps_intercept keeps_check_exception keeps_raise : keeps.
