(* ===== verification/Quiet.v ===== *)
(** * The interrupt controllers leave the processors' registers alone

    Delivery changes the pending requests of a processor, never its registers:
    [cpu_env] is the same before and after every operation of the controllers
    but SIPI and the disabling of an APIC. *)
From S2P Require Import Prelude Cpu Pic Machine Apic ApicFacts Wiring Ioapic System Exec ExcFacts.
Import Machine.Apic.

Lemma env_interrupt k d q m : cpu_env k (cpu_interrupt d q m) = cpu_env k m.
Proof. by apply cpu_env_upd_cpu. Qed.
Lemma env_reset_interrupt k d q m : cpu_env k (cpu_reset_interrupt d q m) = cpu_env k m.
Proof. by apply cpu_env_upd_cpu. Qed.
Lemma env_upd_apic k d f m : cpu_env k (upd_apic d f m) = cpu_env k m.
Proof. reflexivity. Qed.
Lemma env_fold {A} k (f : Machine -> A -> Machine) l m :
  (forall m x, cpu_env k (f m x) = cpu_env k m) -> cpu_env k (fold_left f l m) = cpu_env k m.
Proof. intros Hf. revert m. induction l as [|x l IH]; intros m; [done|]. cbn. by rewrite IH. Qed.

Create Rewrite HintDb quiet.
#[export] Hint Rewrite env_interrupt env_reset_interrupt env_upd_apic : quiet.

(** Peels a machine term down to the variable it is built from. *)
Ltac quiet_step :=
  lazymatch goal with
  | |- cpu_env _ (if ?c then _ else _) = _ => destruct c
  | |- cpu_env _ (match ?o with Some _ => _ | None => _ end) = _ => destruct o
  | |- ?x = ?x => reflexivity
  | _ => progress autorewrite with quiet
  end.
Ltac quiet := intros; cbv zeta; repeat quiet_step; try reflexivity.

(** ** The local APICs *)
Lemma update_irq_env d k m : cpu_env k (apic_update_irq d m) = cpu_env k m.
Proof. unfold apic_update_irq. quiet. Qed.
Lemma sync_env k d t m : cpu_env k (apic_sync_vapic d t m) = cpu_env k m.
Proof. unfold apic_sync_vapic. cbv zeta. by case_ifs. Qed.
#[export] Hint Rewrite update_irq_env sync_env : quiet.

Lemma set_irq_env k d v t m : cpu_env k (apic_set_irq d v t m) = cpu_env k m.
Proof. unfold apic_set_irq. quiet. Qed.
#[export] Hint Rewrite set_irq_env : quiet.

Lemma local_deliver_env k d i m : cpu_env k (apic_local_deliver d i m) = cpu_env k m.
Proof. unfold apic_local_deliver. quiet. Qed.
#[export] Hint Rewrite local_deliver_env : quiet.

Lemma deliver_pic_env k d l m : cpu_env k (apic_deliver_pic_intr d l m) = cpu_env k m.
Proof. unfold apic_deliver_pic_intr. quiet. Qed.
#[export] Hint Rewrite deliver_pic_env : quiet.

Lemma foreach_env k mask code m : (forall m j, cpu_env k (code j m) = cpu_env k m) ->
  cpu_env k (foreach_apic mask code m) = cpu_env k m.
Proof. intros Hc. apply env_fold. quiet; apply Hc. Qed.

Lemma startup_env k d v m : cpu_env k (apic_startup d v m) = cpu_env k m.
Proof. unfold apic_startup. quiet. Qed.
#[export] Hint Rewrite startup_env : quiet.

Lemma bus_deliver_env k mask dm v t m : cpu_env k (apic_bus_deliver mask dm v t m) = cpu_env k m.
Proof.
  unfold apic_bus_deliver. quiet; apply foreach_env; quiet.
Qed.
#[export] Hint Rewrite bus_deliver_env : quiet.

Lemma deliver_env k d dest destmode dm v t m : cpu_env k (apic_deliver d dest destmode dm v t m) = cpu_env k m.
Proof.
  unfold apic_deliver. cbv zeta. lazymatch goal with |- context [apic_bus_deliver ?b] => generalize b end. intros mask.
  quiet; apply foreach_env; quiet.
Qed.

Lemma send_ipi_env k dest v m : cpu_env k (send_ipi dest v m) = cpu_env k m.
Proof. unfold send_ipi, apic_deliver_irq. quiet. Qed.
Lemma send_msi_env k a v m : cpu_env k (apic_send_msi a v m) = cpu_env k m.
Proof. unfold apic_send_msi, apic_deliver_irq. quiet. Qed.

Lemma check_pic_env k d m : cpu_env k (apic_check_pic d m).2 = cpu_env k m.
Proof. unfold apic_check_pic. case_if; cbn [snd]; quiet. Qed.

Lemma get_interrupt_env k o m : cpu_env k (apic_get_interrupt o m).2 = cpu_env k m.
Proof.
  destruct o as [d|]; [|done]. unfold apic_get_interrupt. cbv zeta. case_if; [done|].
  rewrite <-(sync_env k d SYNC_FROM_VAPIC m). generalize (apic_sync_vapic d SYNC_FROM_VAPIC m). intros m1.
  set (v := apic_irq_pending _). pose proof (check_pic_env k d m1) as H.
  destruct (v =? 0); cbn [snd]; [quiet|]. destruct (apic_check_pic d m1) as [b m2]. cbn [snd] in H. rewrite <-H.
  destruct b; cbn [snd]; [quiet|]. case_if; cbn [snd]; quiet.
Qed.

Lemma get_tpr_env k o m : cpu_env k (cpu_get_apic_tpr o m).2 = cpu_env k m.
Proof. destruct o; [|done]. apply sync_env. Qed.
Lemma set_tpr_env k o v m : cpu_env k (cpu_set_apic_tpr o v m) = cpu_env k m.
Proof. destruct o; [|done]. cbn [cpu_set_apic_tpr]. unfold apic_set_tpr. quiet. Qed.
Lemma timer_update_env k d t m : cpu_env k (apic_timer_update d t m) = cpu_env k m.
Proof. reflexivity. Qed.
#[export] Hint Rewrite deliver_env send_ipi_env send_msi_env set_tpr_env timer_update_env : quiet.

(** ** The 8259 pair *)
Lemma pic_request_env k l m : cpu_env k (pic_irq_request l m) = cpu_env k m.
Proof.
  unfold pic_irq_request. destruct (cpu_slots m) as [|f ks]; [done|].
  quiet_step; [apply env_fold|]; quiet.
Qed.
Lemma stat_env k i l m : cpu_env k (stat_update i l m) = cpu_env k m.
Proof. unfold stat_update. quiet. Qed.
#[export] Hint Rewrite pic_request_env stat_env : quiet.

Lemma master_update_env k m : cpu_env k (@pic_update_irq Machine master_world m) = cpu_env k m.
Proof. unfold pic_update_irq. cbv zeta. cbn [int_out master_world]. quiet. Qed.
Lemma master_set_env k n l m : cpu_env k (@pic_set_irq Machine master_world n l m) = cpu_env k m.
Proof.
  unfold pic_set_irq. cbv zeta. rewrite master_update_env.
  change (cpu_env k (stat_update (if master (pic_master m) then n else n + 8) l m) = cpu_env k m). apply stat_env.
Qed.
Lemma slave_update_env k m : cpu_env k (@pic_update_irq Machine slave_world m) = cpu_env k m.
Proof. unfold pic_update_irq. cbv zeta. case_if; apply master_set_env. Qed.
Lemma read_irq_env k m : cpu_env k (pic_read_irq m).2 = cpu_env k m.
Proof.
  assert (Hm : forall n m, cpu_env k (@pic_intack Machine master_world n m) = cpu_env k m)
    by (intros; etransitivity; [apply master_update_env|reflexivity]).
  assert (Hs : forall n m, cpu_env k (@pic_intack Machine slave_world n m) = cpu_env k m)
    by (intros; etransitivity; [apply slave_update_env|reflexivity]).
  unfold pic_read_irq. cbv zeta. case_if; [|done]. case_if; cbn [snd]; [|apply Hm].
  case_if; cbn [snd]; rewrite Hm; [apply Hs|done].
Qed.

Lemma pic_interrupt_env k d m : cpu_env k (cpu_get_pic_interrupt d m).2 = cpu_env k m.
Proof.
  unfold cpu_get_pic_interrupt. cbv zeta.
  pose proof (get_interrupt_env k (if has_apic d m then Some d else None) m) as H.
  destruct (apic_get_interrupt _ m) as [v m1]. cbn [snd] in H. rewrite <-H. case_if; [done|]. case_if; [done|].
  apply read_irq_env.
Qed.

(** ** The end of an interrupt *)
Class EoiQuiet `{EoiSink} := eoi_env : forall k v m, cpu_env k (Apic.ioapic_eoi_broadcast v m) = cpu_env k m.

Section eoi.
  Context `{EoiQuiet}.
Lemma apic_eoi_env k d m : cpu_env k (apic_eoi d m) = cpu_env k m.
Proof.
  unfold apic_eoi. cbv zeta. quiet_step; [done|]. rewrite update_irq_env, sync_env. quiet_step; [by rewrite eoi_env|done].
Qed.
Lemma clear_eoi_env k d m : cpu_env k (apic_clear_eoi d m) = cpu_env k m.
Proof. exact (apic_eoi_env k d m). Qed.

Lemma reg_write_env k d i v m : cpu_env k (apic_reg_write d i v m) = cpu_env k m.
Proof.
  unfold apic_reg_write. cbv zeta.
  repeat lazymatch goal with
  | |- context [apic_check_pic ?d ?m] =>
      let H := fresh in pose proof (check_pic_env k d m) as H; destruct (apic_check_pic d m); cbn [snd] in H
  | |- cpu_env _ (if ?c then _ else _) = _ => destruct c
  end; autorewrite with quiet; try rewrite apic_eoi_env; try reflexivity; try assumption.
  by case_if.
Qed.

Lemma mem_write_env k a v size m : cpu_env k (apic_mem_write a v size m) = cpu_env k m.
Proof. unfold apic_mem_write. quiet. apply reg_write_env. Qed.
End eoi.

(** The I/O APICs of the system satisfy this, at every depth. *)
Section ioapic.
  Context (sink : MsiSink) (k : nat) (Hsink : forall a v m, cpu_env k (sink a v m) = cpu_env k m).

Lemma service_env d m : cpu_env k (@ioapic_service sink d m) = cpu_env k m.
Proof.
  apply env_fold. intros m' i. unfold service_pin. cbv zeta. case_if; [|done].
  assert (H : forall e, cpu_env k (ioapic_entry_parse e m').2 = cpu_env k m').
  { intros e. unfold ioapic_entry_parse. cbv zeta. pose proof (read_irq_env k m').
    destruct (_ =? IOAPIC_DM_EXTINT); [|done]. by destruct (pic_read_irq m'). }
  specialize (H (aget (ioredtbl (ioapics m' !!! d)) i)). destruct (ioapic_entry_parse _ m') as [info m1]. cbn [snd] in H.
  rewrite <-H. case_if; [|done]. case_if; cbv zeta iota; [etransitivity; [apply Hsink|done]|].
  case_if; [done|]. etransitivity; [apply Hsink|done].
Qed.

Lemma broadcast_env v m : cpu_env k (@ioapic_eoi_broadcast sink v m) = cpu_env k m.
Proof.
  apply env_fold. intros m1 d. destruct (ioapics m1 !! d); [|done]. apply env_fold. intros m2 j. unfold eoi_pin. cbv zeta.
  repeat lazymatch goal with |- cpu_env _ (if ?c then _ else _) = _ => destruct c end; try reflexivity.
  by rewrite service_env.
Qed.
End ioapic.

Lemma sys_stl_env n k a v m : cpu_env k (sys_stl n a v m) = cpu_env k m.
Proof.
  revert k a v m. induction n as [|n IH]; intros k a v m; cbn [sys_stl]; cbv zeta; (destruct (_ && _); [|done]).
  - by apply (@mem_write_env (fun _ m => m)).
  - apply (@mem_write_env (@ioapic_eoi_broadcast (sys_stl n))). intros j x m'. by apply broadcast_env.
Qed.

#[export] Instance sys_eoi_quiet n : @EoiQuiet (sys_eoi n).
Proof. intros k v m. apply broadcast_env. intros a x m'. apply sys_stl_env. Qed.
