(* ===== verification/Bpt.v ===== *)
(** * Debug registers (target/i386/tcg/sysemu/bpt_helper.c)

    The debug registers and the break- and watchpoints QEMU keeps for them.  The
    slots [cpu_breakpoint] are the union of [env->cpu_breakpoint] and
    [env->cpu_watchpoint]. *)
From S2P Require Import Prelude Cpu Machine Exec.

Definition DR7_TYPE_SHIFT : Z := 16.
Definition DR7_LEN_SHIFT : Z := 18.
Definition DR7_FIXED_1 : Z := 0x400.
Definition DR7_LOCAL_BP_MASK : Z := 0x55.
Definition DR7_TYPE_BP_INST : Z := 0.
Definition DR7_TYPE_DATA_WR : Z := 1.
Definition DR7_TYPE_IO_RW : Z := 2.
Definition DR7_TYPE_DATA_RW : Z := 3.
Definition DR6_FIXED_1 : Z := 0xffff0ff0.
Definition DR_RESERVED_MASK : Z := 0xffffffff00000000.
Definition HF_IOBPT_MASK : Z := bit 24.
Definition CR4_DE_MASK : Z := bit 3.
Definition EXCP01_DB : Z := 1.
Definition BP_CPU : Z := 0x20.
Definition BP_MEM_WRITE : Z := 0x02.
Definition BP_MEM_ACCESS : Z := 0x03.
Definition BP_WATCHPOINT_HIT : Z := 0xc0.

Definition drn (e : CPUX86State) (i : Z) : Z := aget (dr e) i.
Definition set_drn (i v : Z) (e : CPUX86State) : CPUX86State := e <| dr := aset (dr e) i v |>.
Definition slot (e : CPUX86State) (i : Z) : option hwbp := nth (Z.to_nat i) (cpu_breakpoint e) None.
Definition set_slot (i : Z) (b : option hwbp) (e : CPUX86State) : CPUX86State :=
  e <| cpu_breakpoint := <[Z.to_nat i := b]> (cpu_breakpoint e) |>.

Definition hw_local_breakpoint_enabled (dr7 index : Z) : bool := nz (Z.land (Z.shiftr dr7 (index * 2)) 1).
Definition hw_global_breakpoint_enabled (dr7 index : Z) : bool := nz (Z.land (Z.shiftr dr7 (index * 2)) 2).
Definition hw_breakpoint_enabled (dr7 index : Z) : bool :=
  hw_global_breakpoint_enabled dr7 index || hw_local_breakpoint_enabled dr7 index.
Definition hw_breakpoint_type (dr7 index : Z) : Z := Z.land (Z.shiftr dr7 (DR7_TYPE_SHIFT + index * 4)) 3.
Definition hw_breakpoint_len (dr7 index : Z) : Z :=
  let len := Z.land (Z.shiftr dr7 (DR7_LEN_SHIFT + index * 4)) 3 in
  if len =? 2 then 8 else len + 1.

(** [cpu_watchpoint_insert] (softmmu/physmem.c) refuses an empty range and one
    that runs off the end of the address space. *)
Definition cpu_watchpoint_insert (addr len flags : Z) : option hwbp :=
  if (len =? 0) || (u64 (addr + len - 1) <? addr) then None else Some (mkBp addr len flags).
(** [cpu_breakpoint_insert] (cpu.c) always succeeds. *)
Definition cpu_breakpoint_insert (addr flags : Z) : hwbp := mkBp addr 0 flags.

(** The result is the I/O breakpoint flag the entry asks for. *)
Definition hw_breakpoint_insert (index : Z) (e : CPUX86State) : Z * CPUX86State :=
  let dr7 := drn e 7 in
  let drN := drn e index in
  let ty := hw_breakpoint_type dr7 index in
  if ty =? DR7_TYPE_BP_INST then
    (0, if hw_breakpoint_enabled dr7 index
        then set_slot index (Some (cpu_breakpoint_insert drN BP_CPU)) e else e)
  else if ty =? DR7_TYPE_IO_RW then
    ((if hw_breakpoint_enabled dr7 index then HF_IOBPT_MASK else 0), e)
  else
    let flags := Z.lor BP_CPU (if ty =? DR7_TYPE_DATA_WR then BP_MEM_WRITE else BP_MEM_ACCESS) in
    (0, if hw_breakpoint_enabled dr7 index
        then set_slot index (cpu_watchpoint_insert drN (hw_breakpoint_len dr7 index) flags) e else e).

Definition hw_breakpoint_remove (index : Z) (e : CPUX86State) : CPUX86State :=
  if hw_breakpoint_type (drn e 7) index =? DR7_TYPE_IO_RW then e
  else match slot e index with Some _ => set_slot index None e | None => e end.

Definition DR7_BPS : list Z := [0; 1; 2; 3].

(** A loop that inserts, collecting the flags. *)
Definition insert_all (f : Z -> CPUX86State -> Z * CPUX86State) (e : CPUX86State) : Z * CPUX86State :=
  fold_left (fun '(iobpt, e) i => let '(x, e) := f i e in (Z.lor iobpt x, e)) DR7_BPS (0, e).

Definition cpu_x86_update_dr7 (new_dr7 : Z) (e : CPUX86State) : CPUX86State :=
  let old_dr7 := drn e 7 in
  let new_dr7 := Z.lor (u32 new_dr7) DR7_FIXED_1 in
  let '(iobpt, e) :=
    if Z.land (Z.lxor old_dr7 new_dr7) (Z.lnot 0xff) =? 0 then
      (* only enable bits change: touch the registers whose state changes *)
      let md := Z.land (Z.lxor (Z.lor old_dr7 (old_dr7 * 2)) (Z.lor new_dr7 (new_dr7 * 2))) 0xff in
      let e := fold_left (fun e i =>
                 if nz (Z.land md (Z.shiftl 2 (i * 2))) && negb (hw_breakpoint_enabled new_dr7 i)
                 then hw_breakpoint_remove i e else e) DR7_BPS e in
      insert_all (fun i e =>
        if nz (Z.land md (Z.shiftl 2 (i * 2))) && hw_breakpoint_enabled new_dr7 i
        then hw_breakpoint_insert i e
        else if (hw_breakpoint_type new_dr7 i =? DR7_TYPE_IO_RW) && hw_breakpoint_enabled new_dr7 i
        then (HF_IOBPT_MASK, e) else (0, e)) (set_drn 7 new_dr7 e)
    else
      let e := fold_left (fun e i => hw_breakpoint_remove i e) DR7_BPS e in
      insert_all hw_breakpoint_insert (set_drn 7 new_dr7 e) in
  e <| hflags := Z.lor (clr (hflags e) HF_IOBPT_MASK) iobpt |>.

(** Whether a breakpoint hit is enabled; DR6 is updated when one is, or on demand. *)
Definition bp_match (e : CPUX86State) (i : Z) : bool :=
  let ty := hw_breakpoint_type (drn e 7) i in
  if ty =? DR7_TYPE_BP_INST then drn e i =? eip e
  else if ty =? DR7_TYPE_IO_RW then false
  else match slot e i with Some b => nz (Z.land (bp_flags b) BP_WATCHPOINT_HIT) | None => false end.

Definition check_hw_breakpoints (force_dr6_update : bool) (e : CPUX86State) : bool * CPUX86State :=
  let '(dr6, hit_enabled) :=
    fold_left (fun '(dr6, hit) i =>
      if bp_match e i
      then (Z.lor dr6 (bit i), hit || hw_breakpoint_enabled (drn e 7) i) else (dr6, hit))
      DR7_BPS (clr (drn e 6) 0xf, false) in
  (hit_enabled, if hit_enabled || force_dr6_update then set_drn 6 dr6 e else e).

Section helpers.
  Context (d : nat).

(** DR4 and DR5 are aliases of DR6 and DR7 unless CR4.DE forbids them. *)
Definition dr_alias (reg : Z) : X Z :=
  if (4 <=? reg) && (reg <? 6) then
    e ← get_env d;
    if nz (Z.land (crn e 4) CR4_DE_MASK) then raise_exception d EXCP06_ILLOP else mret (reg + 2)
  else mret reg.

Definition helper_get_dr (reg : Z) : X Z :=
  reg ← dr_alias reg;
  e ← get_env d;
  mret (drn e reg).

(** A write of DR0-DR3. *)
Definition set_address (reg t0 : Z) (e : CPUX86State) : CPUX86State :=
  if hw_breakpoint_enabled (drn e 7) reg && negb (hw_breakpoint_type (drn e 7) reg =? DR7_TYPE_IO_RW)
  then (hw_breakpoint_insert reg (set_drn reg t0 (hw_breakpoint_remove reg e))).2
  else set_drn reg t0 e.

Definition helper_set_dr (reg t0 : Z) : X unit :=
  reg ← dr_alias reg;
  if reg <? 4 then mod_env d (set_address reg t0)
  else if nz (Z.land t0 DR_RESERVED_MASK) then raise_exception_err d EXCP0D_GPF 0
  else if reg =? 6 then mod_env d (set_drn 6 (Z.lor t0 DR6_FIXED_1))
  else mod_env d (cpu_x86_update_dr7 t0).

(** An I/O access of [size] ports at [port]. *)
Definition io_hits (e : CPUX86State) (port size : Z) : Z :=
  fold_left (fun hit i =>
    if (hw_breakpoint_type (drn e 7) i =? DR7_TYPE_IO_RW) && hw_breakpoint_enabled (drn e 7) i
       && (drn e i <=? u32 (port + size - 1))
       && (port <=? u64 (drn e i + hw_breakpoint_len (drn e 7) i - 1))
    then Z.lor hit (bit i) else hit) DR7_BPS 0.

Definition helper_bpt_io (port size next_eip : Z) : X unit :=
  e ← get_env d;
  let hit := io_hits e port size in
  when (nz hit)
    (mod_env d (fun e => set_drn 6 (Z.lor (clr (drn e 6) 0xf) hit) e <| eip := next_eip |>);;
     raise_exception d EXCP01_DB).
End helpers.

(** ** The slots follow the registers *)

(** What DR7 and the address registers ask for. *)
Definition wanted (dr7 addr i : Z) : option hwbp :=
  if negb (hw_breakpoint_enabled dr7 i) then None
  else
    let ty := hw_breakpoint_type dr7 i in
    if ty =? DR7_TYPE_BP_INST then Some (mkBp addr 0 BP_CPU)
    else if ty =? DR7_TYPE_IO_RW then None
    else cpu_watchpoint_insert addr (hw_breakpoint_len dr7 i)
           (Z.lor BP_CPU (if ty =? DR7_TYPE_DATA_WR then BP_MEM_WRITE else BP_MEM_ACCESS)).

Definition io_wanted (dr7 i : Z) : bool :=
  hw_breakpoint_enabled dr7 i && (hw_breakpoint_type dr7 i =? DR7_TYPE_IO_RW).

Record dr_sync (e : CPUX86State) : Prop := {
  sync_dr : length (dr e) = 8%nat;
  sync_len : length (cpu_breakpoint e) = 4%nat;
  sync_slots : forall i, 0 <= i < 4 -> slot e i = wanted (drn e 7) (drn e i) i;
  sync_io : nz (Z.land (hflags e) HF_IOBPT_MASK) = existsb (io_wanted (drn e 7)) DR7_BPS;
}.
