(* ===== verification/BptFacts.v ===== *)
(** * Break- and watchpoints follow the debug registers *)
From S2P Require Import Prelude Cpu Machine Exec ExcFacts Keeps Bpt.

(** A state seen through its debug registers [R], its slots [s] and its hidden flags. *)
Record shape (R : Z -> Z) (s : Z -> option hwbp) (hf : Z) (e : CPUX86State) : Prop := {
  sh_dr : length (dr e) = 8%nat;
  sh_len : length (cpu_breakpoint e) = 4%nat;
  sh_regs : forall i, 0 <= i < 8 -> drn e i = R i;
  sh_slots : forall i, 0 <= i < 4 -> slot e i = s i;
  sh_hf : hflags e = hf;
}.

Definition upd {A} (s : Z -> A) (i : Z) (v : A) : Z -> A := fun j => if j =? i then v else s j.

Lemma shape_ext R s s' hf e : (forall i, 0 <= i < 4 -> s i = s' i) -> shape R s hf e -> shape R s' hf e.
Proof. intros H []. split; try done. intros i Hi. rewrite <-H by done. auto. Qed.

Lemma slot_set_eq e i b : length (cpu_breakpoint e) = 4%nat -> 0 <= i < 4 -> slot (set_slot i b e) i = b.
Proof.
  intros Hl Hi. unfold slot, set_slot. cbn. rewrite nth_lookup, list_lookup_insert_eq by lia. done.
Qed.

Lemma slot_set_ne e i j b : 0 <= i -> 0 <= j -> i <> j -> slot (set_slot i b e) j = slot e j.
Proof. intros. unfold slot, set_slot. cbn. rewrite !nth_lookup, list_lookup_insert_ne by lia. done. Qed.

Lemma shape_set_slot R s hf e i b : 0 <= i < 4 -> shape R s hf e -> shape R (upd s i b) hf (set_slot i b e).
Proof.
  intros Hi []. split; try done.
  - unfold set_slot. cbn. by rewrite length_insert.
  - intros j Hj. unfold upd. destruct (Z.eqb_spec j i) as [->|]; [by apply slot_set_eq|].
    rewrite slot_set_ne by lia. auto.
Qed.

Lemma shape_same R s hf e i : shape R s hf e -> shape R (upd s i (s i)) hf e.
Proof. apply shape_ext. intros j _. unfold upd. by destruct (Z.eqb_spec j i) as [->|]. Qed.

Lemma shape_set_drn R s hf e i v : 0 <= i < 8 -> shape R s hf e -> shape (upd R i v) s hf (set_drn i v e).
Proof.
  intros Hi []. split; try done.
  - change (dr (set_drn i v e)) with (aset (dr e) i v). by rewrite length_aset.
  - intros j Hj. unfold drn, upd. change (dr (set_drn i v e)) with (aset (dr e) i v).
    destruct (Z.eqb_spec j i) as [->|].
    + apply aget_aset_eq. lia.
    + rewrite aget_aset_ne by lia. by apply sh_regs0.
Qed.

(** One pass over the four registers, each step acting on its own slot. *)
Lemma shape_pass R hf (f : Z -> CPUX86State -> CPUX86State) (h : Z -> option hwbp -> option hwbp) s e :
  (forall i e s, 0 <= i < 4 -> shape R s hf e -> shape R (upd s i (h i (s i))) hf (f i e)) ->
  shape R s hf e -> shape R (fun j => h j (s j)) hf (fold_left (fun e i => f i e) DR7_BPS e).
Proof.
  intros Hf H0. cbn [fold_left DR7_BPS].
  eapply shape_ext; [|eapply (Hf 3), (Hf 2), (Hf 1), (Hf 0), H0; lia].
  intros i Hi. assert (i = 0 \/ i = 1 \/ i = 2 \/ i = 3) as [->|[->|[->| ->]]] by lia; done.
Qed.

Lemma shape_insert_pass R hf (f : Z -> CPUX86State -> Z * CPUX86State) (x : Z -> Z)
    (h : Z -> option hwbp -> option hwbp) s e :
  (forall i e s, 0 <= i < 4 -> shape R s hf e ->
     (f i e).1 = x i /\ shape R (upd s i (h i (s i))) hf (f i e).2) ->
  shape R s hf e ->
  (insert_all f e).1 = fold_left (fun a i => Z.lor a (x i)) DR7_BPS 0 /\
  shape R (fun j => h j (s j)) hf (insert_all f e).2.
Proof.
  intros Hf H0. unfold insert_all. cbn [fold_left DR7_BPS].
  destruct (Hf 0 e s ltac:(lia) H0) as [E0 H1]. destruct (f 0 e) as [x0 e1]. cbn in E0, H1. subst x0.
  destruct (Hf 1 e1 _ ltac:(lia) H1) as [E1 H2]. destruct (f 1 e1) as [x1 e2]. cbn in E1, H2. subst x1.
  destruct (Hf 2 e2 _ ltac:(lia) H2) as [E2 H3]. destruct (f 2 e2) as [x2 e3]. cbn in E2, H3. subst x2.
  destruct (Hf 3 e3 _ ltac:(lia) H3) as [E3 H4]. destruct (f 3 e3) as [x3 e4]. cbn in E3, H4. subst x3.
  split; [done|]. eapply shape_ext; [|exact H4].
  intros i Hi. assert (i = 0 \/ i = 1 \/ i = 2 \/ i = 3) as [->|[->|[->| ->]]] by lia; done.
Qed.

(** The effect of one insertion and of one removal. *)
Definition inserted (R : Z -> Z) (i : Z) (b : option hwbp) : option hwbp :=
  if hw_breakpoint_enabled (R 7) i && negb (hw_breakpoint_type (R 7) i =? DR7_TYPE_IO_RW)
  then wanted (R 7) (R i) i else b.

Definition io_flag (R : Z -> Z) (i : Z) : Z := if io_wanted (R 7) i then HF_IOBPT_MASK else 0.

Lemma insert_shape R s hf e i : 0 <= i < 4 -> shape R s hf e ->
  (hw_breakpoint_insert i e).1 = io_flag R i /\
  shape R (upd s i (inserted R i (s i))) hf (hw_breakpoint_insert i e).2.
Proof.
  intros Hi He. pose proof (sh_regs _ _ _ _ He) as Hr.
  unfold hw_breakpoint_insert, inserted, io_flag, io_wanted, wanted. rewrite (Hr 7), (Hr i) by lia.
  destruct (hw_breakpoint_enabled (R 7) i) eqn:Een; cbn [negb andb].
  - destruct (Z.eqb_spec (hw_breakpoint_type (R 7) i) DR7_TYPE_BP_INST) as [->|]; cbn.
    + split; [done|]. by apply shape_set_slot.
    + destruct (hw_breakpoint_type (R 7) i =? DR7_TYPE_IO_RW); cbn; (split; [done|]).
      * by apply shape_same.
      * by apply shape_set_slot.
  - destruct (_ =? DR7_TYPE_BP_INST); [|destruct (_ =? DR7_TYPE_IO_RW)]; cbn;
      (split; [done|by apply shape_same]).
Qed.

Definition removed (R : Z -> Z) (i : Z) (b : option hwbp) : option hwbp :=
  if hw_breakpoint_type (R 7) i =? DR7_TYPE_IO_RW then b else None.

Lemma remove_shape R s hf e i : 0 <= i < 4 -> shape R s hf e ->
  shape R (upd s i (removed R i (s i))) hf (hw_breakpoint_remove i e).
Proof.
  intros Hi He. unfold hw_breakpoint_remove, removed. rewrite (sh_regs _ _ _ _ He) by lia.
  destruct (_ =? DR7_TYPE_IO_RW); [by apply shape_same|].
  destruct (slot e i) as [b|] eqn:E; [by apply shape_set_slot|].
  rewrite (sh_slots _ _ _ _ He) in E by done. rewrite <-E. by apply shape_same.
Qed.

(** ** The enable bits *)

Lemma enabled_bits d i : 0 <= i ->
  hw_breakpoint_enabled d i = Z.testbit d (i * 2 + 1) || Z.testbit d (i * 2).
Proof.
  intros Hi. unfold hw_breakpoint_enabled, hw_global_breakpoint_enabled, hw_local_breakpoint_enabled.
  change (nz (Z.land (Z.shiftr d (i * 2)) 2)) with (nz (Z.land (Z.shiftr d (i * 2)) (bit 1))).
  change (nz (Z.land (Z.shiftr d (i * 2)) 1)) with (nz (Z.land (Z.shiftr d (i * 2)) (bit 0))).
  rewrite !nz_land_bit by lia.
  rewrite !Z.shiftr_spec by lia. f_equal; f_equal; lia.
Qed.

Definition changed (old new : Z) : Z :=
  Z.land (Z.lxor (Z.lor old (old * 2)) (Z.lor new (new * 2))) 0xff.

(** The folded enable bits tell which registers change state. *)
Lemma changed_bits old new i : 0 <= i < 4 ->
  nz (Z.land (changed old new) (Z.shiftl 2 (i * 2))) =
  xorb (hw_breakpoint_enabled old i) (hw_breakpoint_enabled new i).
Proof.
  intros Hi. rewrite !enabled_bits by lia. change (Z.shiftl 2 (i * 2)) with (Z.shiftl (bit 1) (i * 2)).
  rewrite Z.shiftl_shiftl by lia.
  rewrite nz_land_bit by lia. unfold changed. change 255 with (Z.ones 8).
  rewrite Z.land_spec, Z.lxor_spec, !Z.lor_spec, Z.ones_spec_low, andb_true_r by lia.
  replace (old * 2) with (Z.shiftl old 1) by (rewrite Z.shiftl_mul_pow2 by lia; lia).
  replace (new * 2) with (Z.shiftl new 1) by (rewrite Z.shiftl_mul_pow2 by lia; lia).
  rewrite !Z.shiftl_spec by lia. replace (1 + i * 2 - 1) with (i * 2) by lia.
  by rewrite (Z.add_comm 1).
Qed.

(** When only enable bits change, the kinds and lengths stay. *)
Lemma same_kind old new i : Z.land (Z.lxor old new) (Z.lnot 0xff) = 0 -> 0 <= i ->
  hw_breakpoint_type old i = hw_breakpoint_type new i /\ hw_breakpoint_len old i = hw_breakpoint_len new i.
Proof.
  intros H Hi. assert (Hs : forall k, 8 <= k -> Z.shiftr old k = Z.shiftr new k).
  { intros k Hk. apply Z.bits_inj'. intros n Hn. rewrite !Z.shiftr_spec by lia.
    assert (E : Z.testbit (Z.land (Z.lxor old new) (Z.lnot 0xff)) (n + k) = false) by (by rewrite H, Z.bits_0).
    rewrite Z.land_spec, Z.lxor_spec, Z.lnot_spec in E by lia. change 255 with (Z.ones 8) in E.
    rewrite Z.ones_spec_high in E by lia.
    by destruct (Z.testbit old (n + k)), (Z.testbit new (n + k)). }
  unfold hw_breakpoint_type, hw_breakpoint_len, DR7_TYPE_SHIFT, DR7_LEN_SHIFT.
  by rewrite (Hs (16 + i * 4)), (Hs (18 + i * 4)) by lia.
Qed.

Lemma wanted_same old new a i :
  hw_breakpoint_enabled old i = hw_breakpoint_enabled new i ->
  hw_breakpoint_type old i = hw_breakpoint_type new i -> hw_breakpoint_len old i = hw_breakpoint_len new i ->
  wanted old a i = wanted new a i.
Proof. unfold wanted. by intros -> -> ->. Qed.

Lemma wanted_off d a i : hw_breakpoint_enabled d i = false \/ hw_breakpoint_type d i = DR7_TYPE_IO_RW ->
  wanted d a i = None.
Proof. unfold wanted. intros [-> | ->]; [done|]. by destruct (hw_breakpoint_enabled d i). Qed.

(** ** A write of DR7 *)

Lemma io_flags R hf : nz (Z.land (Z.lor (clr hf HF_IOBPT_MASK)
    (fold_left (fun a i => Z.lor a (io_flag R i)) DR7_BPS 0)) HF_IOBPT_MASK) =
  existsb (io_wanted (R 7)) DR7_BPS.
Proof.
  unfold HF_IOBPT_MASK at 2. rewrite nz_land_bit by lia. unfold HF_IOBPT_MASK.
  rewrite Z.lor_spec, testbit_clr by lia. rewrite Z.eqb_refl, andb_false_r. cbn [orb fold_left existsb DR7_BPS].
  unfold io_flag. by destruct (io_wanted (R 7) 0), (io_wanted (R 7) 1), (io_wanted (R 7) 2), (io_wanted (R 7) 3).
Qed.

Lemma shape_sync R hf e : shape R (fun i => wanted (R 7) (R i) i) hf e ->
  nz (Z.land hf HF_IOBPT_MASK) = existsb (io_wanted (R 7)) DR7_BPS -> dr_sync e.
Proof.
  intros [] Hio. split; try done.
  - intros i Hi. rewrite sh_slots0, !sh_regs0 by lia. done.
  - by rewrite sh_hf0, sh_regs0 by lia.
Qed.

Lemma sync_shape e : dr_sync e -> shape (drn e) (fun i => wanted (drn e 7) (drn e i) i) (hflags e) e.
Proof. by intros []; split. Qed.

Lemma shape_hflags R s hf hf' e : shape R s hf e -> shape R s hf' (e <| hflags := hf' |>).
Proof. by intros []; split. Qed.

(** The insertion pass of the fast path. *)
Lemma fast_insert R s hf e old i : 0 <= i < 4 -> shape R s hf e ->
  let f := (if nz (Z.land (changed old (R 7)) (Z.shiftl 2 (i * 2))) && hw_breakpoint_enabled (R 7) i
            then hw_breakpoint_insert i e
            else if (hw_breakpoint_type (R 7) i =? DR7_TYPE_IO_RW) && hw_breakpoint_enabled (R 7) i
            then (HF_IOBPT_MASK, e) else (0, e)) in
  f.1 = io_flag R i /\
  shape R (upd s i (if negb (hw_breakpoint_enabled old i) then inserted R i (s i) else s i)) hf f.2.
Proof.
  intros Hi He. rewrite changed_bits by done. destruct (hw_breakpoint_enabled old i) eqn:Eo; cbn [negb xorb];
    destruct (hw_breakpoint_enabled (R 7) i) eqn:En; cbn [negb andb].
  - rewrite andb_true_r. unfold io_flag, io_wanted. rewrite En.
    destruct (_ =? DR7_TYPE_IO_RW); (split; [done|by apply shape_same]).
  - rewrite andb_false_r. unfold io_flag, io_wanted. rewrite En. split; [done|by apply shape_same].
  - by apply insert_shape.
  - rewrite andb_false_r. unfold io_flag, io_wanted, inserted. rewrite En. split; [done|by apply shape_same].
Qed.

(** The removal pass of the fast path. *)
Lemma fast_remove R s hf e new i : 0 <= i < 4 -> shape R s hf e ->
  shape R (upd s i (if hw_breakpoint_enabled (R 7) i && negb (hw_breakpoint_enabled new i)
                    then removed R i (s i) else s i)) hf
    (if nz (Z.land (changed (R 7) new) (Z.shiftl 2 (i * 2))) && negb (hw_breakpoint_enabled new i)
     then hw_breakpoint_remove i e else e).
Proof.
  intros Hi He. rewrite changed_bits by done.
  destruct (hw_breakpoint_enabled (R 7) i), (hw_breakpoint_enabled new i); cbn [negb andb xorb];
    solve [by apply shape_same | by apply remove_shape].
Qed.

Lemma upd7 (R : Z -> Z) v i : 0 <= i < 4 -> upd R 7 v i = R i.
Proof. intros Hi. unfold upd. destruct (Z.eqb_spec i 7); [lia|done]. Qed.

(** Both ways of changing DR7 leave the slots the new value asks for. *)
Lemma fast_slots R new i : 0 <= i < 4 -> Z.land (Z.lxor (R 7) new) (Z.lnot 0xff) = 0 ->
  let s := wanted (R 7) (R i) i in
  let s := if hw_breakpoint_enabled (R 7) i && negb (hw_breakpoint_enabled new i) then removed R i s else s in
  (if negb (hw_breakpoint_enabled (R 7) i) then inserted (upd R 7 new) i s else s) = wanted new (R i) i.
Proof.
  intros Hi Hs. cbv zeta. destruct (same_kind _ _ i Hs) as [Et El]; [lia|].
  destruct (hw_breakpoint_enabled (R 7) i) eqn:Eo, (hw_breakpoint_enabled new i) eqn:En; cbn [negb andb].
  - apply wanted_same; congruence.
  - rewrite (wanted_off new) by auto. unfold removed. destruct (Z.eqb_spec (hw_breakpoint_type (R 7) i) DR7_TYPE_IO_RW).
    + apply wanted_off. auto.
    + done.
  - unfold inserted. rewrite (upd7 _ _ i) by done. change (upd R 7 new 7) with new. rewrite En. cbn [andb].
    destruct (Z.eqb_spec (hw_breakpoint_type new i) DR7_TYPE_IO_RW); cbn [negb]; [|done].
    rewrite !wanted_off; auto.
  - unfold inserted. change (upd R 7 new 7) with new. rewrite En. cbn [andb]. by rewrite !wanted_off by auto.
Qed.

Lemma slow_slots R new i : 0 <= i < 4 ->
  inserted (upd R 7 new) i (removed R i (wanted (R 7) (R i) i)) = wanted new (R i) i.
Proof.
  intros Hi. assert (removed R i (wanted (R 7) (R i) i) = None) as ->.
  { unfold removed. destruct (Z.eqb_spec (hw_breakpoint_type (R 7) i) DR7_TYPE_IO_RW); [|done].
    apply wanted_off. auto. }
  unfold inserted. rewrite (upd7 _ _ i) by done. change (upd R 7 new 7) with new.
  destruct (hw_breakpoint_enabled new i) eqn:En; cbn [andb]; [|by rewrite wanted_off by auto].
  destruct (Z.eqb_spec (hw_breakpoint_type new i) DR7_TYPE_IO_RW); cbn [negb]; [|done].
  by rewrite wanted_off by auto.
Qed.

Lemma update_dr7_sync v e : dr_sync e -> dr_sync (cpu_x86_update_dr7 v e).
Proof.
  intros He. pose proof (sync_shape e He) as Hs. unfold cpu_x86_update_dr7. cbv zeta.
  set (R := drn e) in *. change (drn e 7) with (R 7). set (new := Z.lor (u32 v) DR7_FIXED_1).
  assert (Hgoal : forall p s, p.1 = fold_left (fun a i => Z.lor a (io_flag (upd R 7 new) i)) DR7_BPS 0 /\
    shape (upd R 7 new) s (hflags e) p.2 -> (forall i, 0 <= i < 4 -> s i = wanted new (R i) i) ->
    dr_sync (let '(iobpt, e) := p in e <| hflags := Z.lor (clr (hflags e) HF_IOBPT_MASK) iobpt |>)).
  { intros [io e'] s [Hio He'] Hw. cbn [fst snd] in Hio, He'. rewrite Hio, (sh_hf _ _ _ _ He').
    eapply (shape_sync (upd R 7 new)); [eapply shape_hflags, shape_ext, He'|apply io_flags].
    intros i Hi. rewrite Hw by done. by rewrite (upd7 _ _ i) by done. }
  clearbody R. destruct (Z.eqb_spec (Z.land (Z.lxor (R 7) new) (Z.lnot 0xff)) 0) as [E|_].
  - change (Z.land (Z.lxor (Z.lor (R 7) (R 7 * 2)) (Z.lor new (new * 2))) 255) with (changed (R 7) new).
    eapply Hgoal; [eapply (shape_insert_pass (upd R 7 new) _ _ _
      (fun i b => if negb (hw_breakpoint_enabled (R 7) i) then inserted (upd R 7 new) i b else b))|].
    + intros i e' s Hi H'. exact (fast_insert _ _ _ _ (R 7) i Hi H').
    + apply shape_set_drn; [lia|]. eapply (shape_pass _ _ _ (fun i b =>
        if hw_breakpoint_enabled (R 7) i && negb (hw_breakpoint_enabled new i) then removed R i b else b)); [|exact Hs].
      intros i e' s Hi H'. exact (fast_remove _ _ _ _ new i Hi H').
    + intros i Hi. cbv beta. by apply fast_slots.
  - eapply Hgoal; [eapply (shape_insert_pass (upd R 7 new) _ _ _ (inserted (upd R 7 new)))|].
    + intros i e' s Hi H'. exact (insert_shape _ _ _ _ i Hi H').
    + apply shape_set_drn; [lia|]. eapply (shape_pass _ _ _ (removed R)); [|exact Hs].
      intros i e' s Hi H'. exact (remove_shape _ _ _ _ i Hi H').
    + intros i Hi. cbv beta. by apply slow_slots.
Qed.

(** A write of an address register. *)
Lemma set_address_sync i v e : 0 <= i < 4 -> dr_sync e -> dr_sync (set_address i v e).
Proof.
  intros Hi He. pose proof (sync_shape e He) as Hs. unfold set_address. set (R := drn e) in *.
  change (drn e 7) with (R 7). assert (H7 : upd R i v 7 = R 7).
  { unfold upd. destruct (Z.eqb_spec 7 i); [lia|done]. }
  assert (Hw : forall j s, 0 <= j < 4 -> s = wanted (R 7) (upd R i v j) j \/ j <> i /\ s = wanted (R 7) (R j) j ->
    s = wanted (upd R i v 7) (upd R i v j) j).
  { intros j s Hj [-> |[Hne ->]]; rewrite H7; [done|]. unfold upd. by destruct (Z.eqb_spec j i). }
  assert (Hio : nz (Z.land (hflags e) HF_IOBPT_MASK) = existsb (io_wanted (upd R i v 7)) DR7_BPS).
  { rewrite H7. apply (sync_io e He). }
  eapply (shape_sync (upd R i v)); [|exact Hio]. clearbody R.
  destruct (hw_breakpoint_enabled (R 7) i && negb (hw_breakpoint_type (R 7) i =? DR7_TYPE_IO_RW)) eqn:E.
  - eapply shape_ext; [|apply insert_shape, shape_set_drn, remove_shape, Hs; lia].
    intros j Hj. cbv beta. apply Hw; [done|]. unfold upd at 1. destruct (Z.eqb_spec j i) as [->|].
    + left. unfold inserted. rewrite H7, E. unfold upd. by rewrite Z.eqb_refl.
    + right. split; [done|]. unfold upd. by destruct (Z.eqb_spec j i).
  - eapply shape_ext; [|apply shape_set_drn, Hs; lia].
    intros j Hj. cbv beta. apply Hw; [done|]. destruct (Z.eqb_spec j i) as [->|]; [left|by right].
    rewrite !wanted_off; [done| |]; apply andb_false_iff in E as [E|E]; auto;
      right; by apply negb_false_iff, Z.eqb_eq in E.
Qed.

Lemma set_dr6_sync v e : dr_sync e -> dr_sync (set_drn 6 v e).
Proof.
  intros He. pose proof (shape_set_drn _ _ _ _ 6 v ltac:(lia) (sync_shape e He)) as H.
  eapply (shape_sync (upd (drn e) 6 v)); [|exact (sync_io e He)]. eapply shape_ext; [|exact H].
  intros i Hi. unfold upd. cbn [Z.eqb]. destruct (Z.eqb_spec i 6); [lia|done].
Qed.

Lemma sync_blind : exception_blind dr_sync.
Proof. intros e a b c w o He. by split_and!; destruct He; split. Qed.

Lemma raise_no_return {A} d n is_int code addend m :
  match raise_interrupt2 (A := A) d n is_int code addend m with Ret _ _ => False | _ => True end.
Proof.
  unfold raise_interrupt2, mbind, X_bind.
  by destruct (_ : outcome (Z * Z)) as [[? ?] ?| |].
Qed.

Lemma keeps_set_dr d reg t0 : 0 <= reg < 8 -> keeps d dr_sync (helper_set_dr d reg t0).
Proof.
  intros Hr. pose proof sync_blind as Hb. unfold helper_set_dr, dr_alias.
  assert (Hk : forall r, 0 <= r < 8 -> keeps d dr_sync
    (if r <? 4 then mod_env d (set_address r t0)
     else if nz (Z.land t0 DR_RESERVED_MASK) then raise_exception_err d EXCP0D_GPF 0
     else if r =? 6 then mod_env d (set_drn 6 (Z.lor t0 DR6_FIXED_1))
     else mod_env d (cpu_x86_update_dr7 t0))).
  { intros r Hr'. destruct (Z.ltb_spec r 4).
    - apply keeps_mod_env. intros e. apply set_address_sync. lia.
    - unfold raise_exception_err. repeat (case_if; [|]); eauto using keeps_mod_env, set_dr6_sync, update_dr7_sync with keeps. }
  destruct ((4 <=? reg) && (reg <? 6)) eqn:E; [|exact (Hk reg Hr)].
  intros m Hm. unfold mbind, X_bind, get_env, gets.
  destruct (nz (Z.land (crn (env (cpus m !!! d)) 4) CR4_DE_MASK)).
  - pose proof (keeps_raise d d dr_sync Hb (A := Z) EXCP06_ILLOP 0 0 0 m Hm) as H. unfold raise_exception.
    destruct (raise_interrupt2 d EXCP06_ILLOP 0 0 0 m) as [r m'|m'|m'] eqn:Er; try exact H.
    pose proof (raise_no_return (A := Z) d EXCP06_ILLOP 0 0 0 m) as Hn. by rewrite Er in Hn.
  - apply (Hk (reg + 2)); [|done]. zbool. lia.
Qed.

(** A guest program's writes of debug registers, each of which may fault. *)
Fixpoint run_dr (d : nat) (writes : list (Z * Z)) (m : Machine) : Machine :=
  match writes with
  | [] => m
  | (reg, v) :: rest => run_dr d rest (after (helper_set_dr d reg v m))
  end.

(** C31. Whatever a guest writes to its debug registers, in whatever order and
    whether or not some writes fault, QEMU's break- and watchpoints are exactly
    the ones DR7 and DR0-DR3 ask for, and the hidden I/O breakpoint flag is set
    exactly when DR7 enables an I/O breakpoint; this covers the path of
    [cpu_x86_update_dr7] that only touches registers whose enable state changes. *)
Theorem dr_writes_sync (d : nat) (writes : list (Z * Z)) (m : Machine)
    (Hw : Forall (fun w => 0 <= w.1 < 8) writes) (Hm : dr_sync (cpu_env d m)) :
  dr_sync (cpu_env d (run_dr d writes m)).
Proof.
  revert m Hm. induction Hw as [|[reg v] rest Hr _ IH]; intros m Hm; [done|].
  cbn [run_dr]. apply IH. by apply keeps_set_dr.
Qed.

(** An instruction breakpoint, a four-byte
    write watchpoint and an I/O breakpoint, with DR0 moved while it is enabled
    and one write refused. *)
Definition ex_writes : list (Z * Z) :=
  [(0, 0x401000); (1, 0x7000); (3, 0x60); (7, 0x20d00085); (0, 0x402000); (7, bit 40); (5, 0x20d00081)].

Lemma ex_dr_sync : dr_sync (cpu_env 0 (ex_machine 1)).
Proof. split; [done|done| |done]. intros i Hi. assert (i = 0 \/ i = 1 \/ i = 2 \/ i = 3) as [->|[->|[->| ->]]] by lia; done. Qed.

Lemma dr_writes_sync_witness :
  dr_sync (cpu_env 0 (run_dr 0 ex_writes (ex_machine 1))) /\
  cpu_breakpoint (cpu_env 0 (run_dr 0 ex_writes (ex_machine 1))) = [Some (mkBp 0x402000 0 BP_CPU); None; None; None].
Proof.
  split; [|by vm_compute]. apply dr_writes_sync; [|exact ex_dr_sync]. by repeat constructor.
Defined.
