(* ===== verification/Ctl.v ===== *)
(** * Control registers, EFER and the hidden flags (target/i386/helper.c,
    target/i386/cpu.c, target/i386/cpu.h)

    [hflags] caches what translation needs of the control registers and the
    segment registers.  These operations keep the cache in step. *)
From S2P Require Import Prelude Cpu Machine Cc Exec Mmu.

Definition HF_PE_MASK : Z := bit 7.
Definition HF_TF_MASK : Z := bit 8.
Definition HF_MP_MASK : Z := bit 9.
Definition HF_EM_MASK : Z := bit 10.
Definition HF_IOPL_MASK : Z := Z.shiftl 3 12.
Definition HF_VM_MASK : Z := bit 17.
Definition HF_OSFXSR_MASK : Z := bit 22.
Definition HF_UMIP_MASK : Z := bit 27.
Definition CR0_MP_MASK : Z := bit 1.
Definition CR0_EM_MASK : Z := bit 2.
Definition CR0_ET_MASK : Z := bit 4.
Definition CR0_NW_MASK : Z := bit 29.
Definition CR0_CD_MASK : Z := bit 30.
Definition CR4_OSFXSR_MASK : Z := bit 9.
Definition CR4_UMIP_MASK : Z := bit 11.
Definition CR4_FSGSBASE_MASK : Z := bit 16.
Definition CR4_SMAP_MASK : Z := bit 21.
Definition CR4_UINTR_MASK : Z := bit 25.
Definition MSR_EFER_SCE : Z := bit 0.
Definition MSR_EFER_LME : Z := bit 8.
Definition MSR_EFER_LMA : Z := bit 10.
Definition MSR_EFER_SVME : Z := bit 12.
Definition MSR_EFER_FFXSR : Z := bit 14.
Definition CPUID_SSE : Z := bit 25.
Definition CPUID_7_0_EBX_FSGSBASE : Z := bit 0.
Definition CPUID_7_0_EBX_SMEP : Z := bit 7.
Definition CPUID_7_0_EBX_SMAP : Z := bit 20.
Definition CPUID_7_0_ECX_UMIP : Z := bit 2.
Definition CPUID_7_0_ECX_PKU : Z := bit 3.
Definition CPUID_7_0_ECX_LA57 : Z := bit 16.
Definition CPUID_7_0_ECX_PKS : Z := bit 31.
Definition V_TPR_MASK : Z := 0x0f.
Definition V_IRQ_MASK : Z := bit 8.
Definition V_GIF_MASK : Z := bit 9.
Definition V_INTR_PRIO_MASK : Z := Z.shiftl 0x0f 16.
Definition V_IGN_TPR_MASK : Z := bit 20.
Definition V_INTR_MASKING_MASK : Z := bit 24.
Definition V_GIF_ENABLED_MASK : Z := bit 25.

(** The bits of CR4 that are not reserved on any processor. *)
Definition CR4_RESERVED_MASK : Z :=
  u64 (Z.lnot (fold_left Z.lor (map (fun k => bit k) [0; 1; 2; 3; 4; 5; 6; 7; 8; 9; 10; 11; 12; 16; 17; 18; 20; 21; 22; 24]) 0)).

Definition cr4_reserved_bits (e : CPUX86State) : Z :=
  let unless (b : bool) (m r : Z) := if b then r else Z.lor r m in
  unless (has (feat_7_0_ecx e) CPUID_7_0_ECX_PKS) CR4_PKS_MASK
    (unless (has (feat_7_0_ecx e) CPUID_7_0_ECX_UMIP) CR4_UMIP_MASK
    (unless (has (feat_7_0_ecx e) CPUID_7_0_ECX_LA57) CR4_LA57_MASK
    (unless (has (feat_7_0_ecx e) CPUID_7_0_ECX_PKU) CR4_PKE_MASK
    (unless (has (feat_7_0_ebx e) CPUID_7_0_EBX_FSGSBASE) CR4_FSGSBASE_MASK
    (unless (has (feat_7_0_ebx e) CPUID_7_0_EBX_SMAP) CR4_SMAP_MASK
    (unless (has (feat_7_0_ebx e) CPUID_7_0_EBX_SMEP) CR4_SMEP_MASK
    (unless (nz (feat_xsave e)) CR4_OSXSAVE_MASK CR4_RESERVED_MASK))))))).

Definition ctl_has_irq (e : CPUX86State) : bool :=
  let int_prio := Z.shiftr (Z.land (int_ctl e) V_INTR_PRIO_MASK) 16 in
  let tpr := Z.land (int_ctl e) V_TPR_MASK in
  if has (int_ctl e) V_IGN_TPR_MASK then has (int_ctl e) V_IRQ_MASK
  else has (int_ctl e) V_IRQ_MASK && (tpr <=? int_prio).

Definition cpu_x86_virtual_addr_width (e : CPUX86State) : Z :=
  if has (feat_7_0_ecx e) CPUID_7_0_ECX_LA57 then 57 else 48.

Definition put_cr (r : nat) (v : Z) (e : CPUX86State) : CPUX86State := e <| cr := <[r := v]> (cr e) |>.

(** ** CR0 *)

(** The part of [hflags] CR0 determines. *)
Definition cr0_hflags (new_cr0 hf : Z) : Z :=
  let pe_state := Z.land (Z.lor new_cr0 CR0_ET_MASK) CR0_PE_MASK in
  let hf := Z.lor (clr hf HF_PE_MASK) (Z.shiftl pe_state 7) in
  let hf := Z.lor hf (Z.shiftl (Z.lxor pe_state 1) 6) in
  let m := Z.lor HF_MP_MASK (Z.lor HF_EM_MASK HF_TS_MASK) in
  Z.lor (clr hf m) (Z.land (Z.shiftl new_cr0 8) m).

Definition cpu_x86_update_cr0 (new_cr0 : Z) (e : CPUX86State) : CPUX86State :=
  let new_cr0 := u32 new_cr0 in
  let finish e := put_cr 0 (Z.lor new_cr0 CR0_ET_MASK) e <| hflags := cr0_hflags new_cr0 (hflags e) |> in
  if negb (has (crn e 0) CR0_PG_MASK) && has new_cr0 CR0_PG_MASK && has (efer e) MSR_EFER_LME then
    (* enter in long mode *)
    if negb (has (crn e 4) CR4_PAE_MASK) then e
    else finish (e <| efer := Z.lor (efer e) MSR_EFER_LMA |> <| hflags := Z.lor (hflags e) HF_LMA_MASK |>)
  else if has (crn e 0) CR0_PG_MASK && negb (has new_cr0 CR0_PG_MASK) && has (efer e) MSR_EFER_LMA then
    (* exit long mode *)
    finish (e <| efer := clr (efer e) MSR_EFER_LMA |>
              <| hflags := clr (hflags e) (Z.lor HF_LMA_MASK HF_CS64_MASK) |>
              <| eip := Z.land (eip e) 0xffffffff |>)
  else finish e.

Definition cpu_x86_update_cr3 (new_cr3 : Z) (e : CPUX86State) : CPUX86State := put_cr 3 new_cr3 e.

(** ** CR4 *)

(** The bits of CR4 the processor has features for. *)
Definition cr4_supported (e : CPUX86State) (v : Z) : Z :=
  let need (b : bool) (m v : Z) := if b then v else clr v m in
  need (has (feat_7_0_ecx e) CPUID_7_0_ECX_PKS) CR4_PKS_MASK
    (need (has (feat_7_0_ecx e) CPUID_7_0_ECX_PKU) CR4_PKE_MASK
    (need (has (feat_7_0_ecx e) CPUID_7_0_ECX_UMIP) CR4_UMIP_MASK
    (need (has (feat_7_0_ebx e) CPUID_7_0_EBX_SMAP) CR4_SMAP_MASK
    (need (has (feat_1_edx e) CPUID_SSE) CR4_OSFXSR_MASK v)))).

Definition cr4_hflags (v hf : Z) : Z :=
  let set (m b hf : Z) := if has v m then Z.lor hf b else hf in
  set CR4_UMIP_MASK HF_UMIP_MASK (set CR4_SMAP_MASK HF_SMAP_MASK (set CR4_OSFXSR_MASK HF_OSFXSR_MASK
    (clr hf (Z.lor HF_OSFXSR_MASK (Z.lor HF_SMAP_MASK HF_UMIP_MASK))))).

Definition cpu_x86_update_cr4 (new_cr4 : Z) (e : CPUX86State) : CPUX86State :=
  let v := cr4_supported e (u32 new_cr4) in
  cpu_sync_bndcs_hflags (put_cr 4 v e <| hflags := cr4_hflags v (hflags e) |>).

(** ** EFER *)
Definition cpu_load_efer (val : Z) (e : CPUX86State) : CPUX86State :=
  let hf := clr (hflags e) (Z.lor HF_LMA_MASK HF_SVME_MASK) in
  let hf := if has val MSR_EFER_LMA then Z.lor hf HF_LMA_MASK else hf in
  let hf := if has val MSR_EFER_SVME then Z.lor hf HF_SVME_MASK else hf in
  e <| efer := val |> <| hflags := hf |>.

(** ** The hidden flags from scratch *)
Definition HFLAG_COPY_MASK : Z :=
  Z.lnot (fold_left Z.lor [HF_CPL_MASK; HF_PE_MASK; HF_MP_MASK; HF_EM_MASK; HF_TS_MASK; HF_TF_MASK; HF_VM_MASK;
    HF_IOPL_MASK; HF_OSFXSR_MASK; HF_LMA_MASK; HF_CS32_MASK; HF_SS32_MASK; HF_CS64_MASK; HF_ADDSEG_MASK] 0).

Definition x86_update_hflags (e : CPUX86State) : CPUX86State :=
  let hf := Z.land (hflags e) HFLAG_COPY_MASK in
  let hf := Z.lor hf (Z.land (Z.shiftr (flags (seg e R_SS)) 13) HF_CPL_MASK) in
  let hf := Z.lor hf (Z.shiftl (Z.land (crn e 0) CR0_PE_MASK) 7) in
  let hf := Z.lor hf (Z.land (Z.shiftl (crn e 0) 8) (Z.lor HF_MP_MASK (Z.lor HF_EM_MASK HF_TS_MASK))) in
  let hf := Z.lor hf (Z.land (eflags e) (Z.lor HF_TF_MASK (Z.lor HF_VM_MASK HF_IOPL_MASK))) in
  let hf := if has (crn e 4) CR4_OSFXSR_MASK then Z.lor hf HF_OSFXSR_MASK else hf in
  let hf := if has (efer e) MSR_EFER_LMA then Z.lor hf HF_LMA_MASK else hf in
  let hf :=
    if has hf HF_LMA_MASK && has (flags (seg e R_CS)) DESC_L_MASK
    then Z.lor hf (Z.lor HF_CS32_MASK (Z.lor HF_SS32_MASK HF_CS64_MASK))
    else
      let hf := Z.lor hf (Z.shiftr (Z.land (flags (seg e R_CS)) DESC_B_MASK) 18) in
      let hf := Z.lor hf (Z.shiftr (Z.land (flags (seg e R_SS)) DESC_B_MASK) 17) in
      if negb (has (crn e 0) CR0_PE_MASK) || has (eflags e) VM_MASK || negb (has hf HF_CS32_MASK)
      then Z.lor hf HF_ADDSEG_MASK
      else Z.lor hf (Z.shiftl (b2z (nz (Z.lor (Z.lor (base (seg e R_DS)) (base (seg e R_ES)))
                                            (base (seg e R_SS))))) 6) in
  e <| hflags := hf |>.
