(* ===== verification/Svm.v ===== *)
(** * Leaving a guest, and the state both worlds share
    (target/i386/tcg/sysemu/svm_helper.c, target/i386/svm.h)

    A VM exit saves the guest in its control block and reloads the host from the
    save area [vmrun] filled (Vmrun.v); vmload and vmsave move the rest of the
    state. *)
From S2P Require Import Prelude Cpu Machine Cc Exec Mmu Ctl.

Definition SVM_INTERRUPT_SHADOW_MASK : Z := 1.
Definition V_VMLOAD_VMSAVE_ENABLED_MASK : Z := bit 1.
Definition CPUID_SVM_V_VMSAVE_VMLOAD : Z := bit 15.
Definition CPUID_SVM_VGIF : Z := bit 16.
Definition CPUID_EXT2_LM : Z := bit 29.
Definition MSR_EFER_RESERVED : Z :=
  u64 (Z.lnot (fold_left Z.lor [MSR_EFER_SCE; MSR_EFER_LME; MSR_EFER_LMA; MSR_EFER_NXE; MSR_EFER_SVME; MSR_EFER_FFXSR] 0)).

(** ** The control block *)

(** Offsets of [struct vmcb_control_area] and [struct vmcb_save_area] (those of
    the intercept checks are in Exec.v). *)
Module vmcb.
Definition intercept_cr_read : Z := 0x00.
Definition intercept_cr_write : Z := 0x02.
Definition intercept_dr_read : Z := 0x04.
Definition intercept_dr_write : Z := 0x06.
Definition intercept_exceptions : Z := 0x08.
Definition intercept : Z := 0x0c.
Definition tsc_offset : Z := 0x50.
Definition asid : Z := 0x58.
Definition int_ctl : Z := 0x60.
Definition int_state : Z := 0x68.
Definition exit_int_info : Z := 0x88.
Definition exit_int_info_err : Z := 0x8c.
Definition nested_ctl : Z := 0x90.
Definition nested_cr3 : Z := 0xb0.
Definition lbr_ctl : Z := 0xb8.
Definition es : Z := 0x400.
Definition cs : Z := 0x410.
Definition ss : Z := 0x420.
Definition ds : Z := 0x430.
Definition fs : Z := 0x440.
Definition gs : Z := 0x450.
Definition gdtr : Z := 0x460.
Definition ldtr : Z := 0x470.
Definition idtr : Z := 0x480.
Definition tr : Z := 0x490.
Definition cpl : Z := 0x4cb.
Definition efer : Z := 0x4d0.
Definition cr4 : Z := 0x548.
Definition cr3 : Z := 0x550.
Definition cr0 : Z := 0x558.
Definition dr7 : Z := 0x560.
Definition dr6 : Z := 0x568.
Definition rflags : Z := 0x570.
Definition rip : Z := 0x578.
Definition rsp : Z := 0x5d8.
Definition rax : Z := 0x5f8.
Definition star : Z := 0x600.
Definition lstar : Z := 0x608.
Definition cstar : Z := 0x610.
Definition sfmask : Z := 0x618.
Definition kernel_gs_base : Z := 0x620.
Definition sysenter_cs : Z := 0x628.
Definition sysenter_esp : Z := 0x630.
Definition sysenter_eip : Z := 0x638.
Definition cr2 : Z := 0x640.
End vmcb.

(** Stores at offsets from [p], in sequence: width, offset, value. *)
Definition field : Type := nat * Z * Z.
Definition st_fields (p : Z) (l : list field) (mm : gmap Z Z) : gmap Z Z :=
  fold_left (fun mm '(n, o, v) => st n (p + o) v mm) l mm.
Definition save_fields (p : Z) (l : list field) : X unit := modify (fun m => m <| mem := st_fields p l (mem m) |>).

(** [svm_save_seg] at offset [o]. *)
Definition svm_save_seg (o : Z) (sc : SegmentCache) : list field :=
  [(2%nat, o, selector sc); (8%nat, o + 8, base sc); (4%nat, o + 4, limit sc);
   (2%nat, o + 2, Z.lor (Z.land (Z.shiftr (flags sc) 8) 0xff) (Z.land (Z.shiftr (flags sc) 12) 0x0f00))].

Definition svm_canonicalization (e : CPUX86State) (b : Z) : Z :=
  let sh := 64 - cpu_x86_virtual_addr_width e in u64 (Z.shiftr (s64 (Z.shiftl b sh)) sh).

Definition svm_load_seg (e : CPUX86State) (mm : gmap Z Z) (a : Z) : SegmentCache :=
  let f := ld 2 mm (a + 2) in
  mkSeg (ld 2 mm a) (svm_canonicalization e (ld 8 mm (a + 8))) (ld 4 mm (a + 4))
    (Z.lor (Z.shiftl (Z.land f 0xff) 8) (Z.shiftl (Z.land f 0x0f00) 12)).

Definition svm_load_seg_cache (mm : gmap Z Z) (a seg_reg : Z) (e : CPUX86State) : CPUX86State :=
  let sc := svm_load_seg e mm a in
  cpu_x86_load_seg_cache seg_reg (selector sc) (base sc) (limit sc) (flags sc) e.

(** ES, CS, SS and DS. *)
Definition svm_save_segs (e : CPUX86State) : list field :=
  svm_save_seg vmcb.es (seg e R_ES) ++ svm_save_seg vmcb.cs (seg e R_CS)
  ++ svm_save_seg vmcb.ss (seg e R_SS) ++ svm_save_seg vmcb.ds (seg e R_DS).
Definition svm_load_segs (mm : gmap Z Z) (p : Z) (e : CPUX86State) : CPUX86State :=
  svm_load_seg_cache mm (p + vmcb.ds) R_DS (svm_load_seg_cache mm (p + vmcb.ss) R_SS
    (svm_load_seg_cache mm (p + vmcb.cs) R_CS (svm_load_seg_cache mm (p + vmcb.es) R_ES e))).

Definition is_efer_invalid_state (e : CPUX86State) : bool :=
  let lme_pg := has (efer e) MSR_EFER_LME && has (crn e 0) CR0_PG_MASK in
  negb (has (efer e) MSR_EFER_SVME)
  || has (efer e) MSR_EFER_RESERVED
  || (has (efer e) (Z.lor MSR_EFER_LMA MSR_EFER_LME) && negb (has (feat_8000_0001_edx e) CPUID_EXT2_LM))
  || (lme_pg && negb (has (crn e 4) CR4_PAE_MASK))
  || (lme_pg && negb (has (crn e 0) CR0_PE_MASK))
  || (lme_pg && has (crn e 4) CR4_PAE_MASK && has (flags (seg e R_CS)) DESC_L_MASK
      && has (flags (seg e R_CS)) DESC_B_MASK).

Definition virtual_gif_enabled (e : CPUX86State) : bool :=
  has (hflags e) HF_GUEST_MASK && (has (feat_svm e) CPUID_SVM_VGIF && has (int_ctl e) V_GIF_ENABLED_MASK).
Definition virtual_gif_set (e : CPUX86State) : bool :=
  negb (virtual_gif_enabled e) || has (int_ctl e) V_GIF_MASK.

(** ** A VM exit *)

(** The guest state, in the order it is saved. *)
Definition guest_fields (e : CPUX86State) : list field :=
  svm_save_segs e
  ++ [(8%nat, vmcb.gdtr + 8, base (gdt e)); (4%nat, vmcb.gdtr + 4, limit (gdt e));
      (8%nat, vmcb.idtr + 8, base (idt e)); (4%nat, vmcb.idtr + 4, limit (idt e));
      (8%nat, vmcb.efer, efer e); (8%nat, vmcb.cr0, crn e 0); (8%nat, vmcb.cr2, crn e 2);
      (8%nat, vmcb.cr3, crn e 3); (8%nat, vmcb.cr4, crn e 4); (4%nat, vmcb.int_ctl, int_ctl e);
      (8%nat, vmcb.rflags, cpu_compute_eflags e); (8%nat, vmcb.rip, eip e);
      (8%nat, vmcb.rsp, reg e R_ESP); (8%nat, vmcb.rax, reg e R_EAX);
      (8%nat, vmcb.dr7, nth 7 (dr e) 0); (8%nat, vmcb.dr6, nth 6 (dr e) 0);
      (1%nat, vmcb.cpl, Z.land (hflags e) HF_CPL_MASK)].

(** The flags a world switch loads. *)
Definition svm_flags : Z := Z.lnot (Z.lor CC_ALL DF_MASK).

(** The host state from the save area at [h]. *)
Definition reload_host (mm : gmap Z Z) (h : Z) (e : CPUX86State) : CPUX86State :=
  let q o := ld 8 mm (h + o) in
  let e := e <| gdt := gdt e <| base := q (vmcb.gdtr + 8) |> <| limit := ld 4 mm (h + (vmcb.gdtr + 4)) |> |>
             <| idt := idt e <| base := q (vmcb.idtr + 8) |> <| limit := ld 4 mm (h + (vmcb.idtr + 4)) |> |> in
  let e := cpu_x86_update_cr0 (Z.lor (q vmcb.cr0) CR0_PE_MASK) e in
  let e := cpu_x86_update_cr4 (q vmcb.cr4) e in
  let e := cpu_x86_update_cr3 (q vmcb.cr3) e in
  (* after the control registers, so that the hidden flags are right *)
  let e := cpu_load_efer (q vmcb.efer) e in
  let e := cpu_load_eflags (q vmcb.rflags) (Z.land svm_flags (Z.lnot VM_MASK)) (e <| eflags := 0 |>) in
  let e := svm_load_segs mm h e in
  let e := set_reg R_EAX (q vmcb.rax) (set_reg R_ESP (q vmcb.rsp) (e <| eip := q vmcb.rip |>)) in
  e <| dr := <[7%nat := q vmcb.dr7]> (<[6%nat := q vmcb.dr6]> (dr e)) |>.

Section helpers.
  Context (d : nat).

Definition do_vmexit : X unit :=
  e ← get_env d;
  let shadow := has (hflags e) HF_INHIBIT_IRQ_MASK in
  x86_stl_phys (vm_vmcb e + vmcb.int_state) (if shadow then SVM_INTERRUPT_SHADOW_MASK else 0);;
  mod_env d (fun e => (if shadow then e <| hflags := clr (hflags e) HF_INHIBIT_IRQ_MASK |> else e)
                        <| hflags2 := clr (hflags2 e) HF2_NPT_MASK |>);;
  e ← get_env d;
  save_fields (vm_vmcb e) (guest_fields e);;
  (* reload the host state *)
  mod_env d (fun e => e <| hflags2 := clr (hflags2 e) (Z.lor HF2_HIF_MASK HF2_VINTR_MASK) |>
                        <| hflags := clr (hflags e) HF_GUEST_MASK |>
                        <| intercept := 0 |> <| intercept_exceptions := 0 |>);;
  modify (cpu_reset_interrupt d CPU_INTERRUPT_VIRQ);;
  mm ← gets mem;
  mod_env d (fun e => reload_host mm (vm_hsave e) (e <| int_ctl := 0 |> <| tsc_offset := 0 |>));;
  (* other setups *)
  v ← x86_ldl_phys (vm_vmcb e + vmcb_event_inj);
  x86_stl_phys (vm_vmcb e + vmcb.exit_int_info) v;;
  v ← x86_ldl_phys (vm_vmcb e + vmcb_event_inj_err);
  x86_stl_phys (vm_vmcb e + vmcb.exit_int_info_err) v;;
  x86_stl_phys (vm_vmcb e + vmcb_event_inj) 0;;
  mod_env d (fun e => e <| hflags2 := clr (clr (hflags2 e) HF2_GIF_MASK) HF2_VGIF_MASK |>).

(** ** The other instructions *)
Definition helper_vmmcall : X unit :=
  cpu_svm_check_intercept_param d SVM_EXIT_VMMCALL 0;; raise_exception d EXCP06_ILLOP.

Definition virtual_vm_load_save_enabled (exit_code : Z) : X bool :=
  e ← get_env d;
  if has (hflags e) HF_GUEST_MASK then
    when (negb (has (hflags2 e) HF2_NPT_MASK) || negb (has (efer e) MSR_EFER_LMA)) (cpu_vmexit d exit_code 0);;
    lbr_ctl ← x86_ldl_phys (vm_vmcb e + vmcb.lbr_ctl);
    mret (has (feat_svm e) CPUID_SVM_V_VMSAVE_VMLOAD && has lbr_ctl V_VMLOAD_VMSAVE_ENABLED_MASK)
  else mret false.

(** The block [vmload] and [vmsave] work on. *)
Definition svm_operand (exit_code aflag access_type : Z) : X Z :=
  cpu_svm_check_intercept_param d exit_code 0;;
  e ← get_env d;
  let addr := if aflag =? 2 then reg e R_EAX else u32 (reg e R_EAX) in
  v ← virtual_vm_load_save_enabled exit_code;
  if (v : bool) then r ← get_hphys d addr access_type (Some 0); mret r.1 else mret addr.

Definition vmload_env (mm : gmap Z Z) (a : Z) (e : CPUX86State) : CPUX86State :=
  let q o := ld 8 mm (a + o) in
  let e := svm_load_seg_cache mm (a + vmcb.gs) R_GS (svm_load_seg_cache mm (a + vmcb.fs) R_FS e) in
  e <| tr := svm_load_seg e mm (a + vmcb.tr) |> <| ldt := svm_load_seg e mm (a + vmcb.ldtr) |>
    <| kernelgsbase := svm_canonicalization e (q vmcb.kernel_gs_base) |>
    <| lstar := q vmcb.lstar |> <| cstar := q vmcb.cstar |> <| fmask := q vmcb.sfmask |>
    <| star := q vmcb.star |> <| sysenter_cs := u32 (q vmcb.sysenter_cs) |>
    <| sysenter_esp := q vmcb.sysenter_esp |> <| sysenter_eip := q vmcb.sysenter_eip |>.

Definition vmsave_fields (e : CPUX86State) : list field :=
  svm_save_seg vmcb.fs (seg e R_FS) ++ svm_save_seg vmcb.gs (seg e R_GS)
  ++ svm_save_seg vmcb.tr (tr e) ++ svm_save_seg vmcb.ldtr (ldt e)
  ++ [(8%nat, vmcb.kernel_gs_base, kernelgsbase e); (8%nat, vmcb.lstar, lstar e); (8%nat, vmcb.cstar, cstar e);
      (8%nat, vmcb.sfmask, fmask e); (8%nat, vmcb.star, star e); (8%nat, vmcb.sysenter_cs, sysenter_cs e);
      (8%nat, vmcb.sysenter_esp, sysenter_esp e); (8%nat, vmcb.sysenter_eip, sysenter_eip e)].

Definition helper_vmload (aflag : Z) : X unit :=
  a ← svm_operand SVM_EXIT_VMLOAD aflag MMU_DATA_LOAD;
  mm ← gets mem;
  mod_env d (vmload_env mm a).

Definition helper_vmsave (aflag : Z) : X unit :=
  a ← svm_operand SVM_EXIT_VMSAVE aflag MMU_DATA_STORE;
  e ← get_env d;
  save_fields a (vmsave_fields e).

Definition helper_stgi : X unit :=
  cpu_svm_check_intercept_param d SVM_EXIT_STGI 0;;
  mod_env d (fun e =>
    if virtual_gif_enabled e
    then e <| int_ctl := Z.lor (int_ctl e) V_GIF_MASK |> <| hflags2 := Z.lor (hflags2 e) HF2_VGIF_MASK |>
    else e <| hflags2 := Z.lor (hflags2 e) HF2_GIF_MASK |>).

Definition helper_clgi : X unit :=
  cpu_svm_check_intercept_param d SVM_EXIT_CLGI 0;;
  mod_env d (fun e =>
    if virtual_gif_enabled e
    then e <| int_ctl := clr (int_ctl e) V_GIF_MASK |> <| hflags2 := clr (hflags2 e) HF2_VGIF_MASK |>
    else e <| hflags2 := clr (hflags2 e) HF2_GIF_MASK |>).
End helpers.
