(* ===== verification/Smm.v ===== *)
(** * System management mode (target/i386/tcg/sysemu/smm_helper.c)

    An SMI saves the processor state at [smbase] and starts the handler in real
    mode with flat segments; rsm restores it. *)
From S2P Require Import Prelude Cpu Machine Cc Exec Mmu Ctl Svm.

Definition SMM_REVISION_ID : Z := 0x00020064.
Definition HF2_SMM_INSIDE_NMI_MASK : Z := bit 4.

(** The saved rights of a segment. *)
Definition smm_attr (f : Z) : Z := Z.land (Z.shiftr f 8) 0xf0ff.

(** The state save area, from [smbase + 0x8000]. *)
Definition smm_seg_fields (e : CPUX86State) (i : Z) : list field :=
  let o := 0x7e00 + i * 16 in
  let dt := seg e i in
  [(2%nat, o, selector dt); (2%nat, o + 2, smm_attr (flags dt)); (4%nat, o + 4, limit dt); (8%nat, o + 8, base dt)].

Definition smm_fields (e : CPUX86State) : list field :=
  flat_map (smm_seg_fields e) (seqZ 0 6)
  ++ [(8%nat, 0x7e68, base (gdt e)); (4%nat, 0x7e64, limit (gdt e));
      (2%nat, 0x7e70, selector (ldt e)); (8%nat, 0x7e78, base (ldt e)); (4%nat, 0x7e74, limit (ldt e));
      (2%nat, 0x7e72, smm_attr (flags (ldt e)));
      (8%nat, 0x7e88, base (idt e)); (4%nat, 0x7e84, limit (idt e));
      (2%nat, 0x7e90, selector (tr e)); (8%nat, 0x7e98, base (tr e)); (4%nat, 0x7e94, limit (tr e));
      (2%nat, 0x7e92, smm_attr (flags (tr e)));
      (8%nat, 0x7ed0, efer e)]
  ++ map (fun i => (8%nat, 0x7ff8 - i * 8, reg e i)) (seqZ 0 16)
  ++ [(8%nat, 0x7f78, eip e); (4%nat, 0x7f70, cpu_compute_eflags e);
      (4%nat, 0x7f68, nth 6 (dr e) 0); (4%nat, 0x7f60, nth 7 (dr e) 0);
      (4%nat, 0x7f48, crn e 4); (8%nat, 0x7f50, crn e 3); (4%nat, 0x7f58, crn e 0);
      (4%nat, 0x7efc, SMM_REVISION_ID); (4%nat, 0x7f00, smbase e)].

Definition sm_state (e : CPUX86State) : Z := u32 (smbase e + 0x8000).

Definition smm_data : Z :=
  Z.lor (Z.lor (Z.lor (Z.lor DESC_P_MASK DESC_S_MASK) DESC_W_MASK) DESC_G_MASK) DESC_A_MASK.

(** The processor state the handler starts with. *)
Definition smm_init (e : CPUX86State) : CPUX86State :=
  let e := cpu_load_eflags 0 svm_flags (cpu_load_efer 0 e) in
  let e := e <| eip := 0x8000 |> in
  let e := cpu_x86_update_cr0 (clr (crn e 0) (Z.lor CR0_PE_MASK (Z.lor CR0_EM_MASK (Z.lor CR0_TS_MASK CR0_PG_MASK)))) e in
  let e := cpu_x86_update_cr4 0 e in
  let e := e <| dr := <[7%nat := 0x400]> (dr e) |> in
  let e := cpu_x86_load_seg_cache R_CS (Z.land (Z.shiftr (smbase e) 4) 0xffff) (smbase e) 0xffffffff smm_data e in
  fold_left (fun e r => cpu_x86_load_seg_cache r 0 0 0xffffffff smm_data e) [R_DS; R_ES; R_SS; R_FS; R_GS] e.

(** A segment cache and the whole state from the save area at [p]. *)
Definition rsm_seg (mm : gmap Z Z) (p i : Z) (e : CPUX86State) : CPUX86State :=
  let o := p + (0x7e00 + i * 16) in
  cpu_x86_load_seg_cache i (ld 2 mm o) (ld 8 mm (o + 8)) (ld 4 mm (o + 4))
    (Z.shiftl (Z.land (ld 2 mm (o + 2)) 0xf0ff) 8) e.

Definition rsm_env (mm : gmap Z Z) (p : Z) (e : CPUX86State) : CPUX86State :=
  let w o := ld 2 mm (p + o) in
  let l o := ld 4 mm (p + o) in
  let q o := ld 8 mm (p + o) in
  let e := cpu_load_efer (q 0x7ed0) e in
  let e := e <| gdt := gdt e <| base := q 0x7e68 |> <| limit := l 0x7e64 |> |>
             <| ldt := mkSeg (w 0x7e70) (q 0x7e78) (l 0x7e74) (Z.shiftl (Z.land (w 0x7e72) 0xf0ff) 8) |>
             <| idt := idt e <| base := q 0x7e88 |> <| limit := l 0x7e84 |> |>
             <| tr := mkSeg (w 0x7e90) (q 0x7e98) (l 0x7e94) (Z.shiftl (Z.land (w 0x7e92) 0xf0ff) 8) |> in
  let e := fold_left (fun e i => set_reg i (q (0x7ff8 - i * 8)) e) (seqZ 0 16) e in
  let e := cpu_load_eflags (l 0x7f70) svm_flags (e <| eip := q 0x7f78 |>) in
  let e := e <| dr := <[7%nat := l 0x7f60]> (<[6%nat := l 0x7f68]> (dr e)) |> in
  let e := cpu_x86_update_cr0 (l 0x7f58) (cpu_x86_update_cr3 (q 0x7f50) (cpu_x86_update_cr4 (l 0x7f48) e)) in
  let e := fold_left (fun e i => rsm_seg mm p i e) (seqZ 0 6) e in
  let e := if has (l 0x7efc) 0x20000 then e <| smbase := l 0x7f00 |> else e in
  let e := if has (hflags2 e) HF2_SMM_INSIDE_NMI_MASK then e
           else e <| hflags2 := clr (hflags2 e) HF2_NMI_MASK |> in
  e <| hflags2 := clr (hflags2 e) HF2_SMM_INSIDE_NMI_MASK |> <| hflags := clr (hflags e) HF_SMM_MASK |>.

Section helpers.
  Context (d : nat).

Definition do_smm_enter : X unit :=
  mod_env d (fun e =>
    e <| msr_smi_count := u64 (msr_smi_count e + 1) |>
      <| hflags := Z.lor (hflags e) HF_SMM_MASK |>
      <| hflags2 := Z.lor (hflags2 e)
           (if has (hflags2 e) HF2_NMI_MASK then HF2_SMM_INSIDE_NMI_MASK else HF2_NMI_MASK) |>);;
  e ← get_env d;
  save_fields (sm_state e) (smm_fields e);;
  mod_env d smm_init.

Definition helper_rsm : X unit :=
  e ← get_env d;
  mm ← gets mem;
  mod_env d (rsm_env mm (sm_state e)).
End helpers.
