(* ===== verification/Seg.v ===== *)
(** * Segment descriptors and task switches (target/i386/tcg/seg_helper.c) *)
From S2P Require Import Prelude Cpu Machine Cc Exec Mmu Bpt Ctl.

Definition DESC_TYPE_SHIFT : Z := 8.
Definition DESC_DPL_SHIFT : Z := 13.
Definition DESC_TSS_BUSY_MASK : Z := bit 9.
Definition SWITCH_TSS_JMP : Z := 0.
Definition SWITCH_TSS_IRET : Z := 1.
Definition SWITCH_TSS_CALL : Z := 2.

(** ** Descriptors *)
Definition get_seg_limit (e1 e2 : Z) : Z :=
  let lim := Z.lor (Z.land e1 0xffff) (Z.land e2 0x000f0000) in
  if has e2 DESC_G_MASK then u32 (Z.lor (Z.shiftl lim 12) 0xfff) else lim.

Definition get_seg_base (e1 e2 : Z) : Z :=
  Z.lor (Z.lor (Z.shiftr e1 16) (u32 (Z.shiftl (Z.land e2 0xff) 16))) (Z.land e2 0xff000000).

Definition load_seg_cache_raw_dt (e1 e2 : Z) (sc : SegmentCache) : SegmentCache :=
  mkSeg (selector sc) (get_seg_base e1 e2) (get_seg_limit e1 e2) e2.

(** The segment cache in vm86 mode. *)
Definition load_seg_vm (sreg sel : Z) (e : CPUX86State) : CPUX86State :=
  let sel := Z.land sel 0xffff in
  cpu_x86_load_seg_cache sreg sel (Z.shiftl sel 4) 0xffff
    (Z.lor (Z.lor (Z.lor (Z.lor DESC_P_MASK DESC_S_MASK) DESC_W_MASK) DESC_A_MASK)
       (Z.shiftl 3 DESC_DPL_SHIFT)) e.

(** The privilege level and the type of a descriptor's second word. *)
Abbreviation desc_dpl e2 := (Z.land (Z.shiftr e2 DESC_DPL_SHIFT) 3).
Abbreviation desc_type e2 := (Z.land (Z.shiftr e2 DESC_TYPE_SHIFT) 0xf).

Section helpers.
  Context (d : nat).

(** [if (b) raise_exception_err(env, n, code)]. *)
Definition fault_when (b : bool) (n code : Z) : X unit := when b (raise_exception_err d n code).

Definition load_segment (sel : Z) : X (option (Z * Z)) :=
  e ← get_env d;
  let dt := if has sel 0x4 then ldt e else gdt e in
  let index := clr sel 7 in
  if limit dt <? u32 (index + 7) then mret None
  else
    let ptr := u64 (base dt + index) in
    e1 ← cpu_ld_kernel d 4 ptr;
    e2 ← cpu_ld_kernel d 4 (ptr + 4);
    mret (Some (e1, e2)).

(** [load_segment], with the exception its caller raises on failure. *)
Definition load_segment_or (sel n code : Z) : X (Z * Z) :=
  r ← load_segment sel;
  match r with Some p => mret p | None => raise_exception_err d n code end.

Definition get_ss_esp_from_tss (dpl : Z) : X (Z * Z) :=
  e ← get_env d;
  if negb (has (flags (tr e)) DESC_P_MASK) then cpu_abort  (* invalid tss *)
  else
    let ty := desc_type (flags (tr e)) in
    if negb (Z.land ty 7 =? 1) then cpu_abort  (* invalid tss type *)
    else
      let shift := Z.shiftr ty 3 in
      let index := Z.shiftl (dpl * 4 + 2) shift in
      fault_when (limit (tr e) <? index + Z.shiftl 4 shift - 1) EXCP0A_TSS (Z.land (selector (tr e)) 0xfffc);;
      if shift =? 0 then
        esp ← cpu_ld_kernel d 2 (base (tr e) + index);
        ss ← cpu_ld_kernel d 2 (base (tr e) + index + 2);
        mret (ss, esp)
      else
        esp ← cpu_ld_kernel d 4 (base (tr e) + index);
        ss ← cpu_ld_kernel d 2 (base (tr e) + index + 4);
        mret (ss, esp).

(** ** Task switches *)

(** Whether the rights of a segment forbid loading it from a TSS at [cpl]. *)
Definition tss_seg_bad (seg_reg sel e2 cpl : Z) : bool :=
  let rpl := Z.land sel 3 in
  let dpl := desc_dpl e2 in
  if seg_reg =? R_CS then negb (has e2 DESC_CS_MASK) || negb (dpl =? rpl)
  else if seg_reg =? R_SS then
    (* SS must be writable data *)
    has e2 DESC_CS_MASK || negb (has e2 DESC_W_MASK) || negb (dpl =? cpl) || negb (dpl =? rpl)
  else
    (* not readable code; data or non conforming code checks the rights *)
    (has e2 DESC_CS_MASK && negb (has e2 DESC_R_MASK))
    || ((desc_type e2 <? 12) && ((dpl <? cpl) || (dpl <? rpl))).

Definition tss_load_seg (seg_reg sel cpl : Z) : X unit :=
  let code := Z.land sel 0xfffc in
  if nz code then
    ' (e1, e2) ← load_segment_or sel EXCP0A_TSS code;
    fault_when (negb (has e2 DESC_S_MASK)) EXCP0A_TSS code;;
    fault_when (tss_seg_bad seg_reg sel e2 cpl) EXCP0A_TSS code;;
    fault_when (negb (has e2 DESC_P_MASK)) EXCP0B_NOSEG code;;
    mod_env d (cpu_x86_load_seg_cache seg_reg sel (get_seg_base e1 e2) (get_seg_limit e1 e2) e2)
  else fault_when ((seg_reg =? R_SS) || (seg_reg =? R_CS)) EXCP0A_TSS code.

(** What a TSS holds for the incoming task. *)
Record tss_image := mkTss {
  new_cr3 : Z; new_eip : Z; new_eflags : Z; new_regs : list Z; new_segs : list Z; new_ldt : Z;
}.

(** Stores in sequence. *)
Definition st_all (n : nat) (l : list (Z * Z)) : X unit :=
  foldr (fun '(a, v) k => cpu_st_kernel d n a v;; k) (mret tt) l.

Definition tss_read (ty tss_base : Z) : X tss_image :=
  if has ty 8 then
    cr3 ← cpu_ld_kernel d 4 (tss_base + 0x1c);
    ip ← cpu_ld_kernel d 4 (tss_base + 0x20);
    fl ← cpu_ld_kernel d 4 (tss_base + 0x24);
    rs ← mapM (fun i => cpu_ld_kernel d 4 (tss_base + (0x28 + i * 4))) (seqZ 0 8);
    ss ← mapM (fun i => cpu_ld_kernel d 2 (tss_base + (0x48 + i * 4))) (seqZ 0 6);
    l ← cpu_ld_kernel d 2 (tss_base + 0x60);
    _ ← cpu_ld_kernel d 4 (tss_base + 0x64);  (* new_trap *)
    mret (mkTss cr3 ip fl rs ss l)
  else
    ip ← cpu_ld_kernel d 2 (tss_base + 0x0e);
    fl ← cpu_ld_kernel d 2 (tss_base + 0x10);
    rs ← mapM (fun i => cpu_ld_kernel d 2 (tss_base + (0x12 + i * 2))) (seqZ 0 8);
    ss ← mapM (fun i => cpu_ld_kernel d 2 (tss_base + (0x22 + i * 2))) (seqZ 0 4);
    l ← cpu_ld_kernel d 2 (tss_base + 0x2a);
    mret (mkTss 0 ip fl rs (ss ++ [0; 0]) l).

(** The outgoing task's state goes to its TSS. *)
Definition tss_save (old_type next_eip old_eflags : Z) : X unit :=
  e ← get_env d;
  let b := base (tr e) in
  if has old_type 8 then
    st_all 4 ((b + 0x20, next_eip) :: (b + 0x24, old_eflags)
                :: map (fun i => (b + (0x28 + i * 4), reg e i)) (seqZ 0 8));;
    st_all 2 (map (fun i => (b + (0x48 + i * 4), selector (seg e i))) (seqZ 0 6))
  else
    st_all 2 ((b + 0x0e, next_eip) :: (b + 0x10, old_eflags)
                :: map (fun i => (b + (0x12 + i * 2), reg e i)) (seqZ 0 8));;
    st_all 2 (map (fun i => (b + (0x22 + i * 2), selector (seg e i))) (seqZ 0 4)).

(** Change the busy bit of the TSS descriptor [sel] of the GDT. *)
Definition tss_busy (set : bool) (sel : Z) : X unit :=
  e ← get_env d;
  let ptr := base (gdt e) + clr sel 7 in
  e2 ← cpu_ld_kernel d 4 (ptr + 4);
  cpu_st_kernel d 4 (ptr + 4)
    (if set then Z.lor e2 DESC_TSS_BUSY_MASK else clr e2 DESC_TSS_BUSY_MASK).

(** A task gate names the TSS descriptor to switch to. *)
Definition tss_gate (tss_selector e1 e2 : Z) : X (Z * Z * Z) :=
  if desc_type e2 =? 5 then
    fault_when (negb (has e2 DESC_P_MASK)) EXCP0B_NOSEG (Z.land tss_selector 0xfffc);;
    let sel := Z.shiftr e1 16 in
    let code := Z.land sel 0xfffc in
    fault_when (has sel 4) EXCP0A_TSS code;;
    ' (e1, e2) ← load_segment_or sel EXCP0D_GPF code;
    fault_when (has e2 DESC_S_MASK) EXCP0D_GPF code;;
    fault_when (negb (Z.land (desc_type e2) 7 =? 1)) EXCP0D_GPF code;;
    mret (sel, e1, e2)
  else mret (tss_selector, e1, e2).

Definition tss_eflags_mask : Z :=
  Z.lor TF_MASK (Z.lor AC_MASK (Z.lor ID_MASK (Z.lor IF_MASK (Z.lor IOPL_MASK
    (Z.lor VM_MASK (Z.lor RF_MASK NT_MASK)))))).

(** The registers of the incoming task. *)
Definition tss_regs (ty : Z) (img : tss_image) (e : CPUX86State) : CPUX86State :=
  fold_left (fun e '(i, v) =>
    set_reg i (if has ty 8 then v else Z.lor (Z.land (reg e i) 0xffff0000) v) e)
    (zip (seqZ 0 8) (new_regs img)) e.

(** The segment caches before the descriptors are read. *)
Definition tss_segs (img : tss_image) (new_eflags : Z) (e : CPUX86State) : CPUX86State :=
  fold_left (fun e '(i, sel) =>
    if has new_eflags VM_MASK then load_seg_vm i sel e else cpu_x86_load_seg_cache i sel 0 0 0 e)
    (zip (seqZ 0 6) (new_segs img)) e.

(** The new processor state, before anything of the new task is checked. *)
Definition tss_install (tss_selector tss_base tss_limit e2 : Z) (img : tss_image) (new_eflags : Z)
    (e : CPUX86State) : CPUX86State :=
  let ty := desc_type e2 in
  let e := e <| cr := <[0%nat := Z.lor (crn e 0) CR0_TS_MASK]> (cr e) |>
             <| hflags := Z.lor (hflags e) HF_TS_MASK |>
             <| tr := mkSeg (u32 tss_selector) tss_base (u32 tss_limit) (clr e2 DESC_TSS_BUSY_MASK) |> in
  let e := if has ty 8 && has (crn e 0) CR0_PG_MASK then cpu_x86_update_cr3 (new_cr3 img) e else e in
  let e := e <| eip := new_eip img |> in
  let e := cpu_load_eflags new_eflags
             (if has ty 8 then tss_eflags_mask else Z.land tss_eflags_mask 0xffff) e in
  let e := tss_segs img new_eflags (tss_regs ty img e) in
  e <| ldt := mkSeg (clr (new_ldt img) 4) 0 0 0 |>.

Definition tss_load_ldt (new_ldt : Z) : X unit :=
  let code := Z.land new_ldt 0xfffc in
  fault_when (has new_ldt 4) EXCP0A_TSS code;;
  when (nz code)
    (e ← get_env d;
     let index := clr new_ldt 7 in
     fault_when (limit (gdt e) <? u32 (index + 7)) EXCP0A_TSS code;;
     let ptr := base (gdt e) + index in
     e1 ← cpu_ld_kernel d 4 ptr;
     e2 ← cpu_ld_kernel d 4 (ptr + 4);
     fault_when (has e2 DESC_S_MASK || negb (desc_type e2 =? 2)) EXCP0A_TSS code;;
     fault_when (negb (has e2 DESC_P_MASK)) EXCP0A_TSS code;;
     mod_env d (fun e => e <| ldt := load_seg_cache_raw_dt e1 e2 (ldt e) |>)).

(** The segments of the new task, in the order the code loads them. *)
Definition tss_load_segs (segs : list Z) : X unit :=
  let sel i := nth (Z.to_nat i) segs 0 in
  let cpl := Z.land (sel R_CS) 3 in
  tss_load_seg R_CS (sel R_CS) cpl;; tss_load_seg R_SS (sel R_SS) cpl;;
  tss_load_seg R_ES (sel R_ES) cpl;; tss_load_seg R_DS (sel R_DS) cpl;;
  tss_load_seg R_FS (sel R_FS) cpl;; tss_load_seg R_GS (sel R_GS) cpl.

Definition switch_tss (tss_selector e1 e2 source next_eip : Z) : X unit :=
  ' (tss_selector, e1, e2) ← tss_gate tss_selector e1 e2;
  let code := Z.land tss_selector 0xfffc in
  fault_when (negb (has e2 DESC_P_MASK)) EXCP0B_NOSEG code;;
  e ← get_env d;
  let ty := desc_type e2 in
  let tss_limit := s32 (get_seg_limit e1 e2) in  (* int tss_limit *)
  let tss_base := get_seg_base e1 e2 in
  fault_when (has tss_selector 4 || (tss_limit <? (if has ty 8 then 103 else 43))) EXCP0A_TSS code;;
  let old_type := desc_type (flags (tr e)) in
  let old_tss_limit_max := if has old_type 8 then 103 else 43 in
  img ← tss_read ty tss_base;
  (* dummy accesses, so that the stores below do not fault *)
  v1 ← cpu_ld_kernel d 1 (base (tr e));
  v2 ← cpu_ld_kernel d 1 (base (tr e) + old_tss_limit_max);
  cpu_st_kernel d 1 (base (tr e)) v1;;
  cpu_st_kernel d 1 (base (tr e) + old_tss_limit_max) v2;;
  when ((source =? SWITCH_TSS_JMP) || (source =? SWITCH_TSS_IRET)) (tss_busy false (selector (tr e)));;
  let old_eflags := cpu_compute_eflags e in
  tss_save old_type next_eip (if source =? SWITCH_TSS_IRET then clr old_eflags NT_MASK else old_eflags);;
  when (source =? SWITCH_TSS_CALL) (cpu_st_kernel d 2 tss_base (selector (tr e)));;
  let new_eflags := if source =? SWITCH_TSS_CALL then Z.lor (new_eflags img) NT_MASK else new_eflags img in
  when ((source =? SWITCH_TSS_JMP) || (source =? SWITCH_TSS_CALL)) (tss_busy true tss_selector);;
  mod_env d (tss_install tss_selector tss_base tss_limit e2 img new_eflags);;
  tss_load_ldt (new_ldt img);;
  when (negb (has new_eflags VM_MASK)) (tss_load_segs (new_segs img));;
  e ← get_env d;
  fault_when (limit (seg e R_CS) <? new_eip img) EXCP0D_GPF 0;;
  when (has (drn e 7) DR7_LOCAL_BP_MASK)
    (mod_env d (cpu_x86_update_dr7 (clr (drn e 7) DR7_LOCAL_BP_MASK))).
End helpers.
