(* ===== verification/Uintr.v ===== *)
(** * User interrupts (target/i386/tcg/seg_helper.c, target/i386/tcg/misc_helper.c)

    The instructions stui, clui, testui, uiret and senduipi, and the delivery of
    a posted user interrupt.  The structures the hardware shares with software
    are in guest memory: the target table (UITT) of the sender and the posted
    descriptor (UPID) of each receiver. *)
From S2P Require Import Prelude Cpu Machine Cc Apic Exec Mmu.

Definition UINTR_UINV : Z := 0xec.
Definition UPID_ON : Z := 1.

Record uintr_upid := mkUpid {
  status : Z;  (* uint8_t, bit 0: ON, bit 1: SN *)
  reserved1 : Z;
  nv : Z;  (* uint8_t notification vector *)
  reserved2 : Z;
  ndst : Z;  (* uint32_t notification destination *)
  puir : Z;  (* uint64_t posted user interrupt requests *)
}.

Record uintr_uitt_entry := mkUitte { uitte_valid : Z; user_vec : Z; target_upid_addr : Z }.

(** [cpu_physical_memory_rw] of the two structures, 16 bytes each. *)
Definition rd_upid (mm : gmap Z Z) (a : Z) : uintr_upid :=
  mkUpid (ld 1 mm a) (ld 1 mm (a + 1)) (ld 1 mm (a + 2)) (ld 1 mm (a + 3)) (ld 4 mm (a + 4)) (ld 8 mm (a + 8)).
Definition wr_upid (a : Z) (u : uintr_upid) (mm : gmap Z Z) : gmap Z Z :=
  st 8 (a + 8) (puir u) (st 4 (a + 4) (ndst u) (st 1 (a + 3) (reserved2 u) (st 1 (a + 2) (nv u)
    (st 1 (a + 1) (reserved1 u) (st 1 a (status u) mm))))).
Definition rd_uitte (mm : gmap Z Z) (a : Z) : uintr_uitt_entry :=
  mkUitte (ld 1 mm a) (ld 1 mm (a + 1)) (ld 8 mm (a + 8)).

Definition switch_uif (on : bool) (e : CPUX86State) : CPUX86State :=
  if on then e <| uintr_uif := 1 |> else e <| uintr_uif := 0 |>.
Definition uif_enable (e : CPUX86State) : bool := nz (uintr_uif e).

Definition helper_stui (e : CPUX86State) : CPUX86State := switch_uif true e.
Definition helper_clui (e : CPUX86State) : CPUX86State := switch_uif false e.
Definition helper_testui (e : CPUX86State) : CPUX86State :=
  if uif_enable e then cpu_load_eflags CC_C CC_ALL e else cpu_load_eflags 0 CC_ALL e.

Section helpers.
  Context `{EoiSink} (d : nat).
  (* [1 << n] in int for n >= 32, which C leaves undefined *)
  Context (shl_ub : Z -> Z).
  (* what the uninitialised local of [get_hphys2] holds *)
  Context (junk : Z).

(** [1 << n] in int. *)
Definition int_shl1 (n : Z) : Z := if n <? 32 then s32 (bit n) else shl_ub n.

Definition PUSHQ (sp val : Z) : X Z :=
  let sp := u64 (sp - 8) in
  cpu_st_kernel d 8 sp val;; mret sp.
Definition POPQ (sp : Z) : X (Z * Z) :=
  v ← cpu_ld_kernel d 8 sp;
  mret (v, u64 (sp + 8)).

(** The stack pointer the handler starts from. *)
Definition uintr_stack (e : CPUX86State) : Z :=
  clr (u64 (if has (uintr_stackadjust e) 1 then uintr_stackadjust e
            else reg e R_ESP - uintr_stackadjust e)) 0xf.

(** Enter the handler for the highest requested vector.  The request register
    is not zero here: [__builtin_clzll] is defined. *)
Definition helper_rrnzero : X unit :=
  e ← get_env d;
  let temprsp := reg e R_ESP in
  mod_env d (fun e => set_reg R_ESP (uintr_stack e) e);;
  let uintr_rrv := Z.log2 (uintr_rr e) in
  esp ← PUSHQ (uintr_stack e) temprsp;
  esp ← PUSHQ esp (eflags e);
  esp ← PUSHQ esp (eip e);
  esp ← PUSHQ esp uintr_rrv;
  mod_env d (fun e =>
    let e := e <| uintr_rr := Z.land (uintr_rr e) (u64 (Z.lnot (int_shl1 uintr_rrv))) |> in
    let e := set_reg R_ESP esp e in
    switch_uif false
      (e <| eflags := clr (eflags e) (Z.lor TF_MASK RF_MASK) |> <| eip := uintr_handler e |>)).

Definition UIRET_FLAGS : Z := 0x254dd5.

Definition helper_uiret : X unit :=
  modify (fun m => m <| uintr_in_uiret_called := true |> <| uintr_recognized := false |>);;
  e ← get_env d;
  ' (temprip, esp) ← POPQ (reg e R_ESP);
  ' (temprflags, esp) ← POPQ esp;
  ' (temprsp, _) ← POPQ esp;
  mod_env d (fun e =>
    let e := set_reg R_ESP temprsp (e <| eip := temprip |>) in
    switch_uif true
      (e <| eflags := Z.lor (clr (eflags e) UIRET_FLAGS) (Z.land temprflags UIRET_FLAGS) |>)).

(** The APIC of the processor that runs. *)
Definition helper_clear_eoi : X unit := fun m =>
  match cpu_get_current_apic m with
  | Some c => Ret tt (apic_clear_eoi c m)
  | None => Abort m
  end.

(** [get_apic_id(cpu_get_current_apic())], which the code only logs: it reads
    through the pointer. *)
Definition log_apic_id : X unit := fun m =>
  match cpu_get_current_apic m with Some _ => Ret tt m | None => Abort m end.

(** [do_interrupt64] for the notification vector: the posted requests become
    the user interrupt requests, and the handler is entered. *)
Definition do_uintr : X unit :=
  log_apic_id;;
  modify (fun m => m <| uintr_recognized := true |>);;
  e ← get_env d;
  if negb (uif_enable e) then
    modify (fun m => m <| uintr_rrzero_count := s32 (uintr_rrzero_count m + 1) |>);;
    helper_clear_eoi
  else if negb (Z.land (hflags e) HF_CPL_MASK =? 3) then helper_clear_eoi
  else
    a ← get_hphys2 d junk (uintr_pd e) MMU_DATA_LOAD;
    u ← gets (fun m => rd_upid (mem m) a);
    let st := clr (status u) 1 in  (* clear on *)
    let send := nz (puir u) in
    when send (mod_env d (fun e => e <| uintr_rr := puir u |>));;
    modify (fun m => m <| mem := wr_upid a (mkUpid st (reserved1 u) (nv u) (reserved2 u) (ndst u) 0) (mem m) |>);;
    helper_clear_eoi;;
    when send helper_rrnzero.

(** ** Sending *)
Definition uitte_index (e : CPUX86State) (reg_index : Z) : Z :=
  s32 (if reg_index =? 244 then reg e R_R12 else reg e R_EAX).

(** The posted descriptor after a request for [vec], and whether to notify. *)
Definition post (vec : Z) (u : uintr_upid) : uintr_upid * bool :=
  let p := u64 (Z.lor (puir u) (int_shl1 vec)) in
  if Z.land (status u) 0x11 =? 0
  then (mkUpid (Z.lor (status u) UPID_ON) (reserved1 u) (nv u) (reserved2 u) (ndst u) p, true)
  else (mkUpid (status u) (reserved1 u) (nv u) (reserved2 u) (ndst u) p, false).

Definition helper_senduipi (reg_index : Z) : X unit :=
  e ← get_env d;
  let uittsz := u32 (uintr_misc e) in
  let idx := uitte_index e reg_index in
  when (uittsz <? u32 idx) (raise_exception d EXCP0D_GPF);;
  ta ← get_hphys2 d junk (Z.shiftl (Z.shiftr (uintr_tt e) 3) 3) MMU_DATA_LOAD;
  t ← gets (fun m => rd_uitte (mem m) (u64 (ta + s32 (Z.shiftl idx 4))));
  a ← get_hphys2 d junk (target_upid_addr t) MMU_DATA_LOAD;
  u ← gets (fun m => rd_upid (mem m) a);
  let '(u', sendNotify) := post (user_vec t) u in
  modify (fun m => m <| mem := wr_upid a u' (mem m) |>);;
  log_apic_id;;
  when sendNotify (modify (send_ipi (u8 (Z.shiftr (ndst u') 8)) (nv u'))).
End helpers.
