(* ===== verification/Intr.v ===== *)
(** * Interrupt and exception delivery (target/i386/tcg/seg_helper.c,
    target/i386/tcg/sysemu/seg_helper.c, target/i386/cpu.c) *)
From S2P Require Import Prelude Cpu Machine Cc Apic Wiring Exec Mmu Bpt Ctl Svm Smm Seg Uintr.

Definition SVM_EVTINJ_TYPE_EXEPT : Z := Z.shiftl 3 8.
Definition SVM_EVTINJ_TYPE_SOFT : Z := Z.shiftl 4 8.
Definition SVM_EVTINJ_VALID : Z := bit 31.
Definition SVM_EVTINJ_VALID_ERR : Z := bit 11.

Definition get_sp_mask (e2 : Z) : Z :=
  if has e2 DESC_L_MASK then 0
  else if has e2 DESC_B_MASK then 0xffffffff else 0xffff.

Definition exception_has_error_code (intno : Z) : bool :=
  existsb (Z.eqb intno) [8; 10; 11; 12; 13; 14; 17].

(** [SET_ESP(val, sp_mask)] *)
Definition SET_ESP (val sp_mask : Z) (e : CPUX86State) : CPUX86State :=
  set_reg R_ESP
    (if sp_mask =? 0xffff then Z.lor (clr (reg e R_ESP) 0xffff) (Z.land val 0xffff)
     else if sp_mask =? 0xffffffff then u32 val
     else val) e.

Definition SEG_ADDL (ssp sp sp_mask : Z) : Z := u32 (ssp + Z.land sp sp_mask).

(** The flags an interrupt gate clears. *)
Definition gate_eflags (ty fl : Z) : Z :=
  let fl := if Z.land ty 1 =? 0 then clr fl IF_MASK else fl in
  clr fl (Z.lor TF_MASK (Z.lor VM_MASK (Z.lor RF_MASK NT_MASK))).

Section helpers.
  Context `{EoiSink} (d : nat) (shl_ub : Z -> Z) (junk : Z).

(** [PUSHW], [PUSHL] on a stack pointer variable of [w] bits. *)
Definition PUSHW (w ssp sp sp_mask val : Z) : X Z :=
  let sp := wrap w (sp - 2) in
  cpu_st_kernel d 2 (ssp + Z.land sp sp_mask) val;; mret sp.
Definition PUSHL (w ssp sp sp_mask val : Z) : X Z :=
  let sp := wrap w (sp - 4) in
  cpu_st_kernel d 4 (SEG_ADDL ssp sp sp_mask) (u32 val);; mret sp.

(** A sequence of pushes of the gate's width. *)
Fixpoint push_all (shift ssp sp sp_mask : Z) (vals : list Z) : X Z :=
  match vals with
  | [] => mret sp
  | v :: rest =>
      sp ← (if shift =? 1 then PUSHL 32 ssp sp sp_mask v else PUSHW 32 ssp sp sp_mask v);
      push_all shift ssp sp sp_mask rest
  end.

Fixpoint push_all64 (sp : Z) (vals : list Z) : X Z :=
  match vals with
  | [] => mret sp
  | v :: rest => sp ← PUSHQ d sp v; push_all64 sp rest
  end.

(** ** Protected mode *)

(** The error code of a task gate goes onto the new task's stack. *)
Definition push_task_error (error_code : Z) : X unit :=
  e ← get_env d;
  let shift := Z.shiftr (desc_type (flags (tr e))) 3 in
  let mask := if has (flags (seg e R_SS)) DESC_B_MASK then 0xffffffff else 0xffff in
  let esp := u32 (Z.land (reg e R_ESP - Z.shiftl 2 shift) mask) in
  let ssp := base (seg e R_SS) + esp in
  cpu_st_kernel d (if nz shift then 4 else 2) ssp error_code;;
  mod_env d (SET_ESP esp mask).

(** The stack of the handler: [new_stack], its selector and descriptor, the
    stack pointer mask, base and pointer. *)
Record gate_stack := mkStack {
  new_stack : bool; gs_ss : Z; gs_e1 : Z; gs_e2 : Z; gs_mask : Z; gs_ssp : Z; gs_esp : Z;
}.

Definition inner_stack (dpl : Z) : X gate_stack :=
  ' (ss, esp) ← get_ss_esp_from_tss d dpl;
  let code := Z.land ss 0xfffc in
  fault_when d (code =? 0) EXCP0A_TSS code;;
  fault_when d (negb (Z.land ss 3 =? dpl)) EXCP0A_TSS code;;
  ' (ss_e1, ss_e2) ← load_segment_or d ss EXCP0A_TSS code;
  fault_when d (negb (desc_dpl ss_e2 =? dpl)) EXCP0A_TSS code;;
  fault_when d (negb (has ss_e2 DESC_S_MASK) || has ss_e2 DESC_CS_MASK || negb (has ss_e2 DESC_W_MASK))
    EXCP0A_TSS code;;
  fault_when d (negb (has ss_e2 DESC_P_MASK)) EXCP0A_TSS code;;
  mret (mkStack true ss ss_e1 ss_e2 (get_sp_mask ss_e2) (get_seg_base ss_e1 ss_e2) esp).

Definition same_stack (sel : Z) : X gate_stack :=
  e ← get_env d;
  fault_when d (has (eflags e) VM_MASK) EXCP0D_GPF (Z.land sel 0xfffc);;
  mret (mkStack false 0 0 0 (get_sp_mask (flags (seg e R_SS))) (base (seg e R_SS)) (u32 (reg e R_ESP))).

(** What the handler finds on its stack, in the order it is pushed. *)
Definition gate_frame (e : CPUX86State) (new_stack : bool) (old_eip : Z) (error_code : option Z) : list Z :=
  let sel r := selector (seg e r) in
  (if new_stack then
     (if has (eflags e) VM_MASK then [sel R_GS; sel R_FS; sel R_DS; sel R_ES] else [])
     ++ [sel R_SS; reg e R_ESP]
   else [])
  ++ [cpu_compute_eflags e; sel R_CS; old_eip]
  ++ match error_code with Some c => [c] | None => [] end.

(** The code segment of a gate and the privilege level it runs at. *)
Definition gate_code (sel cpl : Z) : X (Z * Z * Z) :=
  let code := Z.land sel 0xfffc in
  fault_when d (code =? 0) EXCP0D_GPF 0;;
  ' (e1, e2) ← load_segment_or d sel EXCP0D_GPF code;
  fault_when d (negb (has e2 DESC_S_MASK) || negb (has e2 DESC_CS_MASK)) EXCP0D_GPF code;;
  fault_when d (cpl <? desc_dpl e2) EXCP0D_GPF code;;
  fault_when d (negb (has e2 DESC_P_MASK)) EXCP0B_NOSEG code;;
  mret (e1, e2, if has e2 DESC_C_MASK then cpl else desc_dpl e2).

(** Control passes to the gate: flags, stack, code segment, instruction pointer. *)
Definition enter_gate (ty sel e1 e2 dpl offset : Z) (vm86 : bool) (s : gate_stack) (esp : Z)
    (e : CPUX86State) : CPUX86State :=
  let e := e <| eflags := gate_eflags ty (eflags e) |> in
  let e :=
    if new_stack s then
      let e := if vm86 then
          fold_left (fun e r => cpu_x86_load_seg_cache r 0 0 0 0 e) [R_ES; R_DS; R_FS; R_GS] e
        else e in
      cpu_x86_load_seg_cache R_SS (Z.lor (clr (gs_ss s) 3) dpl) (gs_ssp s)
        (get_seg_limit (gs_e1 s) (gs_e2 s)) (gs_e2 s) e
    else e in
  let e := SET_ESP esp (gs_mask s) e in
  let e := cpu_x86_load_seg_cache R_CS (Z.lor (clr sel 3) dpl)
             (get_seg_base e1 e2) (get_seg_limit e1 e2) e2 e in
  e <| eip := offset |>.

Definition do_interrupt_protected (intno is_int error_code next_eip is_hw : Z) : X unit :=
  e ← get_env d;
  let vm86 := has (eflags e) VM_MASK in
  let has_error_code := negb (nz is_int) && negb (nz is_hw) && exception_has_error_code intno in
  let old_eip := u32 (if nz is_int then next_eip else eip e) in
  let code := intno * 8 + 2 in
  fault_when d (limit (idt e) <? u32 (intno * 8 + 7)) EXCP0D_GPF code;;
  let ptr := u64 (base (idt e) + intno * 8) in
  e1 ← cpu_ld_kernel d 4 ptr;
  e2 ← cpu_ld_kernel d 4 (ptr + 4);
  let ty := Z.land (Z.shiftr e2 DESC_TYPE_SHIFT) 0x1f in
  (* task, 286 interrupt and trap, 386 interrupt and trap gates *)
  fault_when d (negb (existsb (Z.eqb ty) [5; 6; 7; 14; 15])) EXCP0D_GPF code;;
  let cpl := Z.land (hflags e) HF_CPL_MASK in
  fault_when d (nz is_int && (desc_dpl e2 <? cpl)) EXCP0D_GPF code;;
  if ty =? 5 then
    fault_when d (negb (has e2 DESC_P_MASK)) EXCP0B_NOSEG code;;
    switch_tss d (intno * 8) e1 e2 SWITCH_TSS_CALL old_eip;;
    when has_error_code (push_task_error error_code)
  else
    fault_when d (negb (has e2 DESC_P_MASK)) EXCP0B_NOSEG code;;
    let sel := Z.shiftr e1 16 in
    let offset := Z.lor (Z.land e2 0xffff0000) (Z.land e1 0x0000ffff) in
    ' (e1, e2, dpl) ← gate_code sel cpl;
    s ← (if dpl <? cpl then inner_stack dpl else same_stack sel);
    esp ← push_all (Z.shiftr ty 3) (gs_ssp s) (gs_esp s) (gs_mask s)
            (gate_frame e (new_stack s) old_eip (if has_error_code then Some error_code else None));
    mod_env d (enter_gate ty sel e1 e2 dpl offset vm86 s esp).

(** ** Long mode *)
Definition get_rsp_from_tss (level : Z) : X Z :=
  e ← get_env d;
  if negb (has (flags (tr e)) DESC_P_MASK) then cpu_abort  (* invalid tss *)
  else
    let index := 8 * level + 4 in
    fault_when d (limit (tr e) <? index + 7) EXCP0A_TSS (Z.land (selector (tr e)) 0xfffc);;
    rsp ← cpu_ld_kernel d 8 (base (tr e) + index);
    let sext := Z.shiftr (s64 rsp) (if has (get_pg_mode e) PG_MODE_LA57 then 56 else 47) in
    fault_when d (negb (sext =? 0) && negb (sext =? -1)) EXCP0C_STACK 0;;
    mret rsp.

(** The stack an interrupt runs on: a stack of the TSS, or the current one. *)
Definition stack64 (sel ist dpl cpl : Z) : X (bool * Z) :=
  if (dpl <? cpl) || nz ist then
    rsp ← get_rsp_from_tss (if nz ist then ist + 3 else dpl);
    mret (true, rsp)
  else
    e ← get_env d;
    fault_when d (has (eflags e) VM_MASK) EXCP0D_GPF (Z.land sel 0xfffc);;
    mret (false, reg e R_ESP).

Definition enter_gate64 (ty sel e1 e2 dpl offset : Z) (new_stack : bool) (esp : Z)
    (e : CPUX86State) : CPUX86State :=
  let e := e <| eflags := gate_eflags ty (eflags e) |> in
  let e := if new_stack
           then cpu_x86_load_seg_cache R_SS (Z.lor 0 dpl) 0 0 (Z.shiftl dpl DESC_DPL_SHIFT) e else e in
  let e := set_reg R_ESP esp e in
  let e := cpu_x86_load_seg_cache R_CS (Z.lor (clr sel 3) dpl)
             (get_seg_base e1 e2) (get_seg_limit e1 e2) e2 e in
  e <| eip := offset |>.

Definition frame64 (e : CPUX86State) (old_eip : Z) (error_code : option Z) : list Z :=
  [selector (seg e R_SS); reg e R_ESP; cpu_compute_eflags e; selector (seg e R_CS); old_eip]
  ++ match error_code with Some c => [u64 c] | None => [] end.

(** An interrupt through the IDT. *)
Definition do_gate64 (intno is_int error_code next_eip is_hw : Z) : X unit :=
  e ← get_env d;
  let has_error_code := negb (nz is_int) && negb (nz is_hw) && exception_has_error_code intno in
  let old_eip := if nz is_int then next_eip else eip e in
  let code := intno * 16 + 2 in
  fault_when d (limit (idt e) <? u32 (intno * 16 + 15)) EXCP0D_GPF code;;
  let ptr := u64 (base (idt e) + intno * 16) in
  e1 ← cpu_ld_kernel d 4 ptr;
  e2 ← cpu_ld_kernel d 4 (ptr + 4);
  e3 ← cpu_ld_kernel d 4 (ptr + 8);
  let ty := Z.land (Z.shiftr e2 DESC_TYPE_SHIFT) 0x1f in
  fault_when d (negb ((ty =? 14) || (ty =? 15))) EXCP0D_GPF code;;
  let cpl := Z.land (hflags e) HF_CPL_MASK in
  fault_when d (nz is_int && (desc_dpl e2 <? cpl)) EXCP0D_GPF code;;
  fault_when d (negb (has e2 DESC_P_MASK)) EXCP0B_NOSEG code;;
  let sel := Z.shiftr e1 16 in
  let offset := Z.lor (Z.lor (Z.shiftl e3 32) (Z.land e2 0xffff0000)) (Z.land e1 0x0000ffff) in
  let ist := Z.land e2 7 in
  ' (e1, e2, dpl) ← gate_code sel cpl;
  fault_when d (negb (has e2 DESC_L_MASK) || has e2 DESC_B_MASK) EXCP0D_GPF (Z.land sel 0xfffc);;
  ' (ns, esp) ← stack64 sel ist dpl cpl;
  esp ← push_all64 (clr esp 0xf) (frame64 e old_eip (if has_error_code then Some error_code else None));
  mod_env d (enter_gate64 ty sel e1 e2 dpl offset ns esp).

Definition do_interrupt64 (intno is_int error_code next_eip is_hw : Z) : X unit :=
  if intno =? UINTR_UINV then do_uintr d shl_ub junk
  else do_gate64 intno is_int error_code next_eip is_hw.

(** ** System calls *)
Definition seg_flat (extra : list Z) : Z := fold_left Z.lor extra (Z.lor DESC_G_MASK (Z.lor DESC_P_MASK DESC_S_MASK)).
Definition user_dpl : Z := Z.shiftl 3 DESC_DPL_SHIFT.

Definition sysret_flags : Z := tss_eflags_mask.

(** The segments and the instruction pointer of a return to user mode. *)
Definition sysret_env (dflag : Z) (e : CPUX86State) : CPUX86State :=
  let sel := Z.land (Z.shiftr (star e) 48) 0xffff in
  let code32 := seg_flat [DESC_B_MASK; user_dpl; DESC_CS_MASK; DESC_R_MASK; DESC_A_MASK] in
  let code64 := seg_flat [user_dpl; DESC_CS_MASK; DESC_R_MASK; DESC_A_MASK; DESC_L_MASK] in
  let data := seg_flat [DESC_B_MASK; user_dpl; DESC_W_MASK; DESC_A_MASK] in
  let long := has (hflags e) HF_LMA_MASK in
  let e := if long then cpu_load_eflags (u32 (reg e R_R11)) sysret_flags e
           else e <| eflags := Z.lor (eflags e) IF_MASK |> in
  let e := if long && (dflag =? 2)
           then cpu_x86_load_seg_cache R_CS (Z.lor (sel + 16) 3) 0 0xffffffff code64 e
                  <| eip := reg e R_ECX |>
           else cpu_x86_load_seg_cache R_CS (Z.lor sel 3) 0 0xffffffff code32 e
                  <| eip := u32 (reg e R_ECX) |> in
  cpu_x86_load_seg_cache R_SS (Z.lor (sel + 8) 3) 0 0xffffffff data e.

Definition helper_sysret (dflag : Z) : X unit :=
  e ← get_env d;
  fault_when d (negb (has (efer e) MSR_EFER_SCE)) EXCP06_ILLOP 0;;
  fault_when d (negb (has (crn e 0) CR0_PE_MASK) || negb (Z.land (hflags e) HF_CPL_MASK =? 0)) EXCP0D_GPF 0;;
  mod_env d (sysret_env dflag).

Definition syscall_env (next_eip_addend : Z) (e : CPUX86State) : CPUX86State :=
  let sel := Z.land (Z.shiftr (star e) 32) 0xffff in
  let data := seg_flat [DESC_B_MASK; DESC_W_MASK; DESC_A_MASK] in
  if has (hflags e) HF_LMA_MASK then
    let code64 := has (hflags e) HF_CS64_MASK in
    let e := set_reg R_R11 (clr (cpu_compute_eflags e) RF_MASK)
               (set_reg R_ECX (u64 (eip e + next_eip_addend)) e) in
    let e := e <| eflags := clr (eflags e) (Z.lor (fmask e) RF_MASK) |> in
    let e := cpu_load_eflags (eflags e) 0 e in
    let e := cpu_x86_load_seg_cache R_CS (Z.land sel 0xfffc) 0 0xffffffff
               (seg_flat [DESC_CS_MASK; DESC_R_MASK; DESC_A_MASK; DESC_L_MASK]) e in
    let e := cpu_x86_load_seg_cache R_SS (Z.land (sel + 8) 0xfffc) 0 0xffffffff data e in
    e <| eip := if code64 then lstar e else cstar e |>
  else
    let e := set_reg R_ECX (u32 (eip e + next_eip_addend)) e in
    let e := e <| eflags := clr (eflags e) (Z.lor IF_MASK (Z.lor RF_MASK VM_MASK)) |> in
    let e := cpu_x86_load_seg_cache R_CS (Z.land sel 0xfffc) 0 0xffffffff
               (seg_flat [DESC_B_MASK; DESC_CS_MASK; DESC_R_MASK; DESC_A_MASK]) e in
    let e := cpu_x86_load_seg_cache R_SS (Z.land (sel + 8) 0xfffc) 0 0xffffffff data e in
    e <| eip := u32 (star e) |>.

Definition helper_syscall (next_eip_addend : Z) : X unit :=
  e ← get_env d;
  fault_when d (negb (has (efer e) MSR_EFER_SCE)) EXCP06_ILLOP 0;;
  mod_env d (syscall_env next_eip_addend).

(** ** Real mode *)
Definition do_interrupt_real (intno is_int error_code next_eip : Z) : X unit :=
  e ← get_env d;
  fault_when d (limit (idt e) <? u32 (intno * 4 + 3)) EXCP0D_GPF (intno * 8 + 2);;
  let ptr := u64 (base (idt e) + intno * 4) in
  offset ← cpu_ld_kernel d 2 ptr;
  sel ← cpu_ld_kernel d 2 (ptr + 2);
  let ssp := base (seg e R_SS) in
  let old_eip := u32 (if nz is_int then next_eip else eip e) in
  let old_cs := selector (seg e R_CS) in
  esp ← PUSHW 32 ssp (u32 (reg e R_ESP)) 0xffff (cpu_compute_eflags e);
  esp ← PUSHW 32 ssp esp 0xffff old_cs;
  esp ← PUSHW 32 ssp esp 0xffff old_eip;
  mod_env d (fun e =>
    let e := set_reg R_ESP (Z.lor (clr (reg e R_ESP) 0xffff) (Z.land esp 0xffff)) e in
    let cs := seg e R_CS in
    e <| eip := offset |>
      <| segs := <[Z.to_nat R_CS := mkSeg sel (Z.shiftl sel 4) (limit cs) (flags cs)]> (segs e) |>
      <| eflags := clr (eflags e) (Z.lor IF_MASK (Z.lor TF_MASK (Z.lor AC_MASK RF_MASK))) |>).

(** ** Dispatch *)

(** A guest's exception is recorded as an injected event. *)
Definition handle_even_inj (intno is_int error_code is_hw rm : Z) : X unit :=
  e ← get_env d;
  event_inj ← x86_ldl_phys (vm_vmcb e + vmcb_event_inj);
  when (negb (has event_inj SVM_EVTINJ_VALID))
    (let ty := if nz is_int then SVM_EVTINJ_TYPE_SOFT else SVM_EVTINJ_TYPE_EXEPT in
     let inj := Z.lor (Z.lor intno ty) SVM_EVTINJ_VALID in
     let with_err := negb (nz rm) && exception_has_error_code intno in
     when with_err (x86_stl_phys (vm_vmcb e + vmcb_event_inj_err) error_code);;
     x86_stl_phys (vm_vmcb e + vmcb_event_inj)
       (u32 (if with_err then Z.lor inj SVM_EVTINJ_VALID_ERR else inj))).

Definition do_interrupt_all (intno is_int error_code next_eip is_hw : Z) : X unit :=
  e ← get_env d;
  let guest := has (hflags e) HF_GUEST_MASK in
  (if has (crn e 0) CR0_PE_MASK then
     when guest (handle_even_inj intno is_int error_code is_hw 0);;
     if has (hflags e) HF_LMA_MASK then do_interrupt64 intno is_int error_code next_eip is_hw
     else do_interrupt_protected intno is_int error_code (u32 next_eip) is_hw
   else
     when guest (handle_even_inj intno is_int error_code is_hw 1);;
     do_interrupt_real intno is_int error_code (u32 next_eip));;
  e ← get_env d;
  when (has (hflags e) HF_GUEST_MASK)
    (event_inj ← x86_ldl_phys (vm_vmcb e + vmcb_event_inj);
     x86_stl_phys (vm_vmcb e + vmcb_event_inj) (clr event_inj SVM_EVTINJ_VALID)).

Definition do_interrupt_x86_hardirq (intno is_hw : Z) : X unit := do_interrupt_all intno 0 0 0 is_hw.

(** The request [x86_cpu_exec_interrupt] serves, 0 for none. *)
Definition x86_cpu_pending_interrupt (interrupt_request : Z) (e : CPUX86State) : Z :=
  if has interrupt_request CPU_INTERRUPT_POLL then CPU_INTERRUPT_POLL
  else if has interrupt_request CPU_INTERRUPT_SIPI then CPU_INTERRUPT_SIPI
  else if has (hflags2 e) HF2_GIF_MASK then
    let irq_on := has (eflags e) IF_MASK && negb (has (hflags e) HF_INHIBIT_IRQ_MASK) in
    if has interrupt_request CPU_INTERRUPT_SMI && negb (has (hflags e) HF_SMM_MASK) then CPU_INTERRUPT_SMI
    else if has interrupt_request CPU_INTERRUPT_NMI && negb (has (hflags2 e) HF2_NMI_MASK) then CPU_INTERRUPT_NMI
    else if has interrupt_request CPU_INTERRUPT_MCE then CPU_INTERRUPT_MCE
    else if has interrupt_request CPU_INTERRUPT_HARD
            && ((has (hflags2 e) HF2_VINTR_MASK && has (hflags2 e) HF2_HIF_MASK)
                || (negb (has (hflags2 e) HF2_VINTR_MASK) && irq_on)) then CPU_INTERRUPT_HARD
    else if has (hflags2 e) HF2_VGIF_MASK then
      if has interrupt_request CPU_INTERRUPT_VIRQ && irq_on then CPU_INTERRUPT_VIRQ else 0
    else 0
  else 0.

Definition x86_cpu_has_work (c : CPU) : bool := nz (x86_cpu_pending_interrupt (interrupt_request c) (env c)).

(** The whole interrupt path. *)
Definition x86_cpu_exec_interrupt (interrupt_request : Z) : X bool :=
  e ← get_env d;
  let request := x86_cpu_pending_interrupt interrupt_request e in
  if negb (nz request) then mret false
  else
    (if request =? CPU_INTERRUPT_POLL then
       modify (fun m => apic_poll_irq d (cpu_reset_interrupt d CPU_INTERRUPT_POLL m))
     else if request =? CPU_INTERRUPT_SIPI then modify (apic_sipi d)
     else if request =? CPU_INTERRUPT_SMI then
       cpu_svm_check_intercept_param d SVM_EXIT_SMI 0;;
       modify (cpu_reset_interrupt d CPU_INTERRUPT_SMI);;
       do_smm_enter d
     else if request =? CPU_INTERRUPT_NMI then
       cpu_svm_check_intercept_param d SVM_EXIT_NMI 0;;
       modify (cpu_reset_interrupt d CPU_INTERRUPT_NMI);;
       mod_env d (fun e => e <| hflags2 := Z.lor (hflags2 e) HF2_NMI_MASK |>);;
       do_interrupt_x86_hardirq EXCP02_NMI 1
     else if request =? CPU_INTERRUPT_MCE then
       modify (cpu_reset_interrupt d CPU_INTERRUPT_MCE);;
       do_interrupt_x86_hardirq EXCP12_MCHK 0
     else if request =? CPU_INTERRUPT_HARD then
       cpu_svm_check_intercept_param d SVM_EXIT_INTR 0;;
       modify (cpu_reset_interrupt d (Z.lor CPU_INTERRUPT_HARD CPU_INTERRUPT_VIRQ));;
       intno ← (fun m => let '(n, m) := cpu_get_pic_interrupt d m in Ret n m);
       do_interrupt_x86_hardirq intno 1
     else
       cpu_svm_check_intercept_param d SVM_EXIT_VINTR 0;;
       intno ← x86_ldl_phys (vm_vmcb e + vmcb_int_vector);
       do_interrupt_x86_hardirq (s32 intno) 1;;
       modify (cpu_reset_interrupt d CPU_INTERRUPT_VIRQ);;
       mod_env d (fun e => e <| int_ctl := clr (int_ctl e) V_IRQ_MASK |>));;
    mret true.

(** What the execution loop does with a recorded exception. *)
Definition x86_cpu_do_interrupt : X unit :=
  e ← get_env d;
  if exception_index e =? EXCP_VMEXIT then assert_ (old_exception e =? -1);; do_vmexit d
  else
    do_interrupt_all (exception_index e) (exception_is_int e) (error_code e) (exception_next_eip e) 0;;
    mod_env d (fun e => e <| old_exception := -1 |>).

(** ** Port permissions of the TSS *)
Definition helper_check_io (addr size : Z) : X unit :=
  e ← get_env d;
  if negb (has (flags (tr e)) DESC_P_MASK) || negb (desc_type (flags (tr e)) =? 9) || (limit (tr e) <? 103)
  then raise_exception_err d EXCP0D_GPF 0
  else
    io_offset ← cpu_ld_kernel d 2 (base (tr e) + 0x66);
    let io_offset := u32 (io_offset + Z.shiftr addr 3) in
    if limit (tr e) <? u32 (io_offset + 1) then raise_exception_err d EXCP0D_GPF 0
    else
      val ← cpu_ld_kernel d 2 (base (tr e) + io_offset);
      fault_when d (has (Z.shiftr val (Z.land addr 7)) (bit size - 1)) EXCP0D_GPF 0.
End helpers.
