(* ===== verification/Vmrun.v ===== *)
(** * Entering a guest: vmrun (target/i386/tcg/sysemu/svm_helper.c) *)
From S2P Require Import Prelude Cpu Machine Cc Apic Exec Mmu Bpt Ctl Svm Seg Uintr Intr.

Definition SVM_EXIT_VMRUN : Z := 0x080.
Definition SVM_EXIT_ERR : Z := -1.
Definition SVM_NPT_ENABLED : Z := bit 0.
Definition SVM_CR0_RESERVED_MASK : Z := 0xffffffff00000000.
Definition SVM_MSRPM_SIZE : Z := bit 13.
Definition SVM_IOPM_SIZE : Z := bit 13 + 1.
Definition SVM_EVTINJ_VEC_MASK : Z := 0xff.
Definition SVM_EVTINJ_TYPE_MASK : Z := Z.shiftl 7 8.
Definition SVM_EVTINJ_TYPE_INTR : Z := 0.
Definition SVM_EVTINJ_TYPE_NMI : Z := Z.shiftl 2 8.
Definition PG_MODE_SVM_MASK : Z := bit 15 - 1.

(** The host state, in the order it is saved. *)
Definition host_fields (e : CPUX86State) (next_eip_addend : Z) : list field :=
  [(8%nat, vmcb.gdtr + 8, base (gdt e)); (4%nat, vmcb.gdtr + 4, limit (gdt e));
   (8%nat, vmcb.idtr + 8, base (idt e)); (4%nat, vmcb.idtr + 4, limit (idt e));
   (8%nat, vmcb.cr0, crn e 0); (8%nat, vmcb.cr2, crn e 2); (8%nat, vmcb.cr3, crn e 3); (8%nat, vmcb.cr4, crn e 4);
   (8%nat, vmcb.dr6, nth 6 (dr e) 0); (8%nat, vmcb.dr7, nth 7 (dr e) 0);
   (8%nat, vmcb.efer, efer e); (8%nat, vmcb.rflags, cpu_compute_eflags e)]
  ++ svm_save_segs e
  ++ [(8%nat, vmcb.rip, eip e + next_eip_addend); (8%nat, vmcb.rsp, reg e R_ESP); (8%nat, vmcb.rax, reg e R_EAX)].

(** The interception bitmaps of the control block at [v]. *)
Definition load_intercepts (mm : gmap Z Z) (v : Z) (e : CPUX86State) : CPUX86State :=
  e <| intercept := ld 8 mm (v + vmcb.intercept) |>
    <| intercept_cr_read := ld 2 mm (v + vmcb.intercept_cr_read) |>
    <| intercept_cr_write := ld 2 mm (v + vmcb.intercept_cr_write) |>
    <| intercept_dr_read := ld 2 mm (v + vmcb.intercept_dr_read) |>
    <| intercept_dr_write := ld 2 mm (v + vmcb.intercept_dr_write) |>
    <| intercept_exceptions := ld 4 mm (v + vmcb.intercept_exceptions) |>.

(** Whether a permission map lies outside the physical address space. *)
Definition map_outside (e : CPUX86State) (pa size : Z) : bool := u64 (bit (phys_bits e) - size) <=? clr pa 0xfff.

(** The guest state of the control block, from the control registers on. *)
Definition load_guest (mm : gmap Z Z) (v : Z) (e : CPUX86State) : CPUX86State :=
  let q o := ld 8 mm (v + o) in
  let e := cpu_x86_update_cr3 (q vmcb.cr3) (cpu_x86_update_cr4 (q vmcb.cr4) (cpu_x86_update_cr0 (q vmcb.cr0) e)) in
  let e := put_cr 2 (q vmcb.cr2) e <| int_ctl := ld 4 mm (v + vmcb.int_ctl) |> in
  let e := e <| hflags2 := clr (hflags2 e) (Z.lor HF2_HIF_MASK HF2_VINTR_MASK) |> in
  let e := if has (int_ctl e) V_INTR_MASKING_MASK then
      let e := e <| hflags2 := Z.lor (hflags2 e) HF2_VINTR_MASK |> in
      if has (eflags e) IF_MASK then e <| hflags2 := Z.lor (hflags2 e) HF2_HIF_MASK |> else e
    else e in
  let e := cpu_load_efer (q vmcb.efer) e in
  let e := cpu_load_eflags (q vmcb.rflags) svm_flags (e <| eflags := 0 |>) in
  let e := svm_load_segs mm v e in
  let e := e <| idt := svm_load_seg e mm (v + vmcb.idtr) |> <| gdt := svm_load_seg e mm (v + vmcb.gdtr) |> in
  let e := set_reg R_EAX (q vmcb.rax) (set_reg R_ESP (q vmcb.rsp) (e <| eip := q vmcb.rip |>)) in
  e <| dr := <[6%nat := q vmcb.dr6]> (<[7%nat := q vmcb.dr7]> (dr e)) |>.

Section helpers.
  Context `{EoiSink} (d : nat) (shl_ub : Z -> Z) (junk : Z).

(** [if (b) cpu_vmexit(env, SVM_EXIT_ERR, 0, GETPC())]. *)
Definition vmexit_when (b : bool) : X unit := when b (cpu_vmexit d SVM_EXIT_ERR 0).

(** The checks of the control area, the intercepts and nested paging. *)
Definition vmrun_control (v : Z) : X unit :=
  mm ← gets mem;
  mod_env d (load_intercepts mm v);;
  e ← get_env d;
  vmexit_when (map_outside e (ld 8 mm (v + vmcb_msrpm_base_pa)) SVM_MSRPM_SIZE);;
  vmexit_when (map_outside e (ld 8 mm (v + vmcb_iopm_base_pa)) SVM_IOPM_SIZE);;
  mod_env d (fun e => e <| nested_pg_mode := 0 |>);;
  vmexit_when (negb (cpu_svm_has_intercept e SVM_EXIT_VMRUN));;
  vmexit_when (u32 (ld 8 mm (v + vmcb.asid)) =? 0);;
  when (has (ld 8 mm (v + vmcb.nested_ctl)) SVM_NPT_ENABLED)
    (mod_env d (fun e => e <| nested_cr3 := ld 8 mm (v + vmcb.nested_cr3) |>
                           <| hflags2 := Z.lor (hflags2 e) HF2_NPT_MASK |>
                           <| nested_pg_mode := Z.land (get_pg_mode e) PG_MODE_SVM_MASK |>));;
  (* enable intercepts *)
  mod_env d (fun e => e <| hflags := Z.lor (hflags e) HF_GUEST_MASK |>
                        <| tsc_offset := ld 8 mm (v + vmcb.tsc_offset) |>).

(** The checks of the guest's control registers, then its state. *)
Definition vmrun_state (v : Z) : X unit :=
  mm ← gets mem;
  e ← get_env d;
  let new_cr0 := ld 8 mm (v + vmcb.cr0) in
  vmexit_when (has new_cr0 SVM_CR0_RESERVED_MASK);;
  vmexit_when (has new_cr0 CR0_NW_MASK && negb (has new_cr0 CR0_CD_MASK));;
  vmexit_when (has (efer e) MSR_EFER_LMA && has (ld 8 mm (v + vmcb.cr3)) (u64 (Z.shiftl (-1) (phys_bits e))));;
  vmexit_when (has (ld 8 mm (v + vmcb.cr4)) (cr4_reserved_bits e));;
  (* clear exit_info_2 so we behave like the real hardware *)
  x86_stq_phys (v + vmcb_exit_info_2) 0;;
  mm ← gets mem;
  mod_env d (load_guest mm v);;
  e ← get_env d;
  vmexit_when (has (nth 6 (dr e) 0) DR_RESERVED_MASK);;
  vmexit_when (has (nth 7 (dr e) 0) DR_RESERVED_MASK);;
  vmexit_when (is_efer_invalid_state e);;
  mod_env d (fun e => e <| hflags2 := Z.lor (hflags2 e) HF2_GIF_MASK |>);;
  when (ctl_has_irq e) (modify (cpu_interrupt d CPU_INTERRUPT_VIRQ));;
  when (virtual_gif_set e) (mod_env d (fun e => e <| hflags2 := Z.lor (hflags2 e) HF2_VGIF_MASK |>)).

(** The exception an injected event records. *)
Definition inject (vector err is_int next_eip : Z) : X unit :=
  mod_env d (fun e => e <| exception_index := vector |> <| error_code := s32 err |>
                        <| exception_is_int := is_int |> <| exception_next_eip := next_eip |>).

Definition vmrun_event (v : Z) : X unit :=
  event_inj ← x86_ldl_phys (v + vmcb_event_inj);
  when (has event_inj SVM_EVTINJ_VALID)
    (let vector := Z.land event_inj SVM_EVTINJ_VEC_MASK in
     let type := Z.land event_inj SVM_EVTINJ_TYPE_MASK in
     err ← x86_ldl_phys (v + vmcb_event_inj_err);
     e ← get_env d;
     if type =? SVM_EVTINJ_TYPE_INTR then
       inject vector err 0 (u64 (-1));; do_interrupt_x86_hardirq d shl_ub junk vector 1
     else if type =? SVM_EVTINJ_TYPE_NMI then
       inject EXCP02_NMI err 0 (eip e);; cpu_loop_exit
     else if type =? SVM_EVTINJ_TYPE_EXEPT then
       vmexit_when ((vector =? EXCP02_NMI) || (31 <=? vector));;
       inject vector err 0 (u64 (-1));; cpu_loop_exit
     else if type =? SVM_EVTINJ_TYPE_SOFT then
       inject vector err 1 (eip e);; cpu_loop_exit
     else cpu_vmexit d SVM_EXIT_ERR 0).

Definition helper_vmrun (aflag next_eip_addend : Z) : X unit :=
  cpu_svm_check_intercept_param d SVM_EXIT_VMRUN 0;;
  e ← get_env d;
  let addr := if aflag =? 2 then reg e R_EAX else u32 (reg e R_EAX) in
  mod_env d (fun e => e <| vm_vmcb := addr |>);;
  (* save the current CPU state in the hsave page *)
  save_fields (vm_hsave e) (host_fields e next_eip_addend);;
  vmrun_control addr;;
  vmrun_state addr;;
  vmrun_event addr.
End helpers.
