(* ===== verification/Msr.v ===== *)
(** * Control and model-specific registers as instructions see them
    (target/i386/tcg/sysemu/misc_helper.c, target/i386/tcg/misc_helper.c) *)
From S2P Require Import Prelude Cpu Machine Cc Apic Exec Mmu Bpt Ctl Svm Seg Uintr Intr Vmrun.

Definition EXCP04_INTO : Z := 4.
Definition EXCP_INTERRUPT : Z := 0x10000.
Definition SVM_EXIT_CR0_SEL_WRITE : Z := 0x065.
Definition SVM_EXIT_RDTSC : Z := 0x06e.
Definition SVM_EXIT_RDPMC : Z := 0x06f.
Definition SVM_EXIT_PAUSE : Z := 0x077.
Definition SVM_EXIT_HLT : Z := 0x078.
Definition SVM_EXIT_MONITOR : Z := 0x08a.
Definition SVM_EXIT_MWAIT : Z := 0x08b.
Definition CR4_TSD_MASK : Z := bit 2.
Definition CR4_PCE_MASK : Z := bit 8.
Definition CPUID_MTRR : Z := bit 12.
Definition CPUID_EXT2_SYSCALL : Z := bit 11.
Definition CPUID_EXT2_NX : Z := bit 20.
Definition CPUID_EXT2_FFXSR : Z := bit 25.
Definition CPUID_EXT3_SVM : Z := bit 2.
Definition MCG_CTL_P : Z := bit 8.

Definition MSR_IA32_APICBASE : Z := 0x1b.
Definition MSR_SMI_COUNT : Z := 0x34.
Definition MSR_IA32_UCODE_REV : Z := 0x8b.
Definition MSR_MTRRcap : Z := 0xfe.
Definition MSR_IA32_SYSENTER_CS : Z := 0x174.
Definition MSR_IA32_SYSENTER_ESP : Z := 0x175.
Definition MSR_IA32_SYSENTER_EIP : Z := 0x176.
Definition MSR_MCG_CAP : Z := 0x179.
Definition MSR_MCG_STATUS : Z := 0x17a.
Definition MSR_MCG_CTL : Z := 0x17b.
Definition MSR_IA32_PERF_STATUS : Z := 0x198.
Definition MSR_IA32_MISC_ENABLE : Z := 0x1a0.
Definition MSR_MTRRphysBase (r : Z) : Z := 0x200 + 2 * r.
Definition MSR_MTRRphysMask (r : Z) : Z := 0x200 + 2 * r + 1.
Definition MSR_MTRRfix64K_00000 : Z := 0x250.
Definition MSR_MTRRfix16K_80000 : Z := 0x258.
Definition MSR_MTRRfix16K_A0000 : Z := 0x259.
Definition MSR_MTRRfix4K_C0000 : Z := 0x268.
Definition MSR_MTRRfix4K_F8000 : Z := 0x26f.
Definition MSR_PAT : Z := 0x277.
Definition MSR_MTRRdefType : Z := 0x2ff.
Definition MSR_MC0_CTL : Z := 0x400.
Definition MSR_IA32_PKRS : Z := 0x6e1.
Definition MSR_IA32_UINTR_RR : Z := 0x985.
Definition MSR_IA32_UINTR_HANDLER : Z := 0x986.
Definition MSR_IA32_UINTR_STACKADJUST : Z := 0x987.
Definition MSR_IA32_UINTR_MISC : Z := 0x988.
Definition MSR_IA32_UINTR_PD : Z := 0x989.
Definition MSR_IA32_UINTR_TT : Z := 0x98a.
Definition MSR_IA32_BNDCFGS : Z := 0xd90.
Definition MSR_EFER : Z := 0xc0000080.
Definition MSR_STAR : Z := 0xc0000081.
Definition MSR_LSTAR : Z := 0xc0000082.
Definition MSR_CSTAR : Z := 0xc0000083.
Definition MSR_FMASK : Z := 0xc0000084.
Definition MSR_FSBASE : Z := 0xc0000100.
Definition MSR_GSBASE : Z := 0xc0000101.
Definition MSR_KERNELGSBASE : Z := 0xc0000102.
Definition MSR_TSC_AUX : Z := 0xc0000103.
Definition MSR_VM_HSAVE_PA : Z := 0xc0010117.

(** ** Arrays of registers *)

(** The element of an array an MSR number selects. *)
Inductive msr_slot := MtrrBase (i : Z) | MtrrMask (i : Z) | MtrrFixed (i : Z) | MceBank (i : Z).

Definition mtrr_slot (c : Z) : option msr_slot :=
  if (MSR_MTRRphysBase 0 <=? c) && (c <=? MSR_MTRRphysMask 7) then
    Some (if Z.even c then MtrrBase ((c - MSR_MTRRphysBase 0) / 2) else MtrrMask ((c - MSR_MTRRphysMask 0) / 2))
  else if c =? MSR_MTRRfix64K_00000 then Some (MtrrFixed 0)
  else if (MSR_MTRRfix16K_80000 <=? c) && (c <=? MSR_MTRRfix16K_A0000) then Some (MtrrFixed (c - MSR_MTRRfix16K_80000 + 1))
  else if (MSR_MTRRfix4K_C0000 <=? c) && (c <=? MSR_MTRRfix4K_F8000) then Some (MtrrFixed (c - MSR_MTRRfix4K_C0000 + 3))
  else None.

Definition mce_slot (e : CPUX86State) (c : Z) : option msr_slot :=
  if (MSR_MC0_CTL <=? c) && (c <? MSR_MC0_CTL + Z.land (4 * mcg_cap e) 0xff) then Some (MceBank (c - MSR_MC0_CTL)) else None.

Definition slot_get (e : CPUX86State) (s : msr_slot) : Z :=
  match s with
  | MtrrBase i => aget (mtrr_var_base e) i
  | MtrrMask i => aget (mtrr_var_mask e) i
  | MtrrFixed i => aget (mtrr_fixed e) i
  | MceBank i => aget (mce_banks e) i
  end.

Definition all_ones_or_zero (val : Z) : bool := (val =? 0) || (val =? u64 (-1)).

Definition slot_set (s : msr_slot) (val : Z) (e : CPUX86State) : CPUX86State :=
  match s with
  | MtrrBase i => e <| mtrr_var_base := aset (mtrr_var_base e) i val |>
  | MtrrMask i => e <| mtrr_var_mask := aset (mtrr_var_mask e) i val |>
  | MtrrFixed i => e <| mtrr_fixed := aset (mtrr_fixed e) i val |>
  | MceBank i => if has i 0x3 || all_ones_or_zero val then e <| mce_banks := aset (mce_banks e) i val |> else e
  end.

(** ** Plain registers *)

(** The bits of EFER a write may change. *)
Definition efer_update_mask (e : CPUX86State) : Z :=
  let add (b : bool) (m r : Z) := if b then Z.lor r m else r in
  add (has (feat_8000_0001_edx e) CPUID_EXT2_FFXSR) MSR_EFER_FFXSR
    (add (has (feat_8000_0001_ecx e) CPUID_EXT3_SVM) MSR_EFER_SVME
    (add (has (feat_8000_0001_edx e) CPUID_EXT2_NX) MSR_EFER_NXE
    (add (has (feat_8000_0001_edx e) CPUID_EXT2_FFXSR) MSR_EFER_FFXSR
    (add (has (feat_8000_0001_edx e) CPUID_EXT2_LM) MSR_EFER_LME
    (add (has (feat_8000_0001_edx e) CPUID_EXT2_SYSCALL) MSR_EFER_SCE 0))))).

Definition set_seg_base (r b : Z) (e : CPUX86State) : CPUX86State :=
  e <| segs := <[Z.to_nat r := (seg e r) <| base := b |>]> (segs e) |>.

(** The writes that only change the processor state; [None] for the others. *)
Definition msr_write (c val : Z) (e : CPUX86State) : option CPUX86State :=
  if c =? MSR_IA32_SYSENTER_CS then Some (e <| sysenter_cs := Z.land val 0xffff |>)
  else if c =? MSR_IA32_SYSENTER_ESP then Some (e <| sysenter_esp := val |>)
  else if c =? MSR_IA32_SYSENTER_EIP then Some (e <| sysenter_eip := val |>)
  else if c =? MSR_EFER then
    Some (cpu_load_efer (Z.lor (clr (efer e) (efer_update_mask e)) (Z.land val (efer_update_mask e))) e)
  else if c =? MSR_STAR then Some (e <| star := val |>)
  else if c =? MSR_PAT then Some (e <| pat := val |>)
  else if c =? MSR_VM_HSAVE_PA then Some (e <| vm_hsave := val |>)
  else if c =? MSR_LSTAR then Some (e <| lstar := val |>)
  else if c =? MSR_CSTAR then Some (e <| cstar := val |>)
  else if c =? MSR_FMASK then Some (e <| fmask := val |>)
  else if c =? MSR_FSBASE then Some (set_seg_base R_FS val e)
  else if c =? MSR_GSBASE then Some (set_seg_base R_GS val e)
  else if c =? MSR_KERNELGSBASE then Some (e <| kernelgsbase := val |>)
  else if c =? MSR_IA32_UINTR_HANDLER then Some (e <| uintr_handler := val |>)
  else if c =? MSR_IA32_UINTR_STACKADJUST then Some (e <| uintr_stackadjust := val |>)
  else if c =? MSR_IA32_UINTR_MISC then Some (e <| uintr_misc := val |>)
  else if c =? MSR_IA32_UINTR_PD then Some (e <| uintr_pd := val |>)
  else if c =? MSR_IA32_UINTR_TT then Some (e <| uintr_tt := val |>)
  else if c =? MSR_MTRRdefType then Some (e <| mtrr_deftype := val |>)
  else if c =? MSR_MCG_STATUS then Some (e <| mcg_status := val |>)
  else if c =? MSR_MCG_CTL then
    Some (if has (mcg_cap e) MCG_CTL_P && all_ones_or_zero val then e <| mcg_ctl := val |> else e)
  else if c =? MSR_TSC_AUX then Some (e <| tsc_aux := val |>)
  else if c =? MSR_IA32_MISC_ENABLE then Some (e <| msr_ia32_misc_enable := val |>)
  else if c =? MSR_IA32_BNDCFGS then Some (cpu_sync_bndcs_hflags (e <| msr_bndcfgs := val |>))
  else match mtrr_slot c with Some s => Some (slot_set s val e) | None => None end.

(** The reads of the processor state. *)
Definition msr_read (c : Z) (e : CPUX86State) : Z :=
  if c =? MSR_IA32_SYSENTER_CS then sysenter_cs e
  else if c =? MSR_IA32_SYSENTER_ESP then sysenter_esp e
  else if c =? MSR_IA32_SYSENTER_EIP then sysenter_eip e
  else if c =? MSR_EFER then efer e
  else if c =? MSR_STAR then star e
  else if c =? MSR_PAT then pat e
  else if c =? MSR_IA32_PKRS then pkrs e
  else if c =? MSR_VM_HSAVE_PA then vm_hsave e
  else if c =? MSR_IA32_PERF_STATUS then Z.lor 1000 (Z.shiftl 4 40)
  else if c =? MSR_LSTAR then lstar e
  else if c =? MSR_CSTAR then cstar e
  else if c =? MSR_FMASK then fmask e
  else if c =? MSR_FSBASE then base (seg e R_FS)
  else if c =? MSR_GSBASE then base (seg e R_GS)
  else if c =? MSR_KERNELGSBASE then kernelgsbase e
  else if c =? MSR_TSC_AUX then tsc_aux e
  else if c =? MSR_IA32_UINTR_RR then uintr_rr e
  else if c =? MSR_IA32_UINTR_HANDLER then uintr_handler e
  else if c =? MSR_IA32_UINTR_STACKADJUST then uintr_stackadjust e
  else if c =? MSR_IA32_UINTR_MISC then uintr_misc e
  else if c =? MSR_IA32_UINTR_PD then uintr_pd e
  else if c =? MSR_IA32_UINTR_TT then uintr_tt e
  else if c =? MSR_SMI_COUNT then msr_smi_count e
  else if c =? MSR_MTRRdefType then mtrr_deftype e
  else if c =? MSR_MTRRcap then
    (if has (feat_1_edx e) CPUID_MTRR then Z.lor 8 (Z.lor (bit 8) (bit 10)) else 0)
  else if c =? MSR_MCG_CAP then mcg_cap e
  else if c =? MSR_MCG_CTL then (if has (mcg_cap e) MCG_CTL_P then mcg_ctl e else 0)
  else if c =? MSR_MCG_STATUS then mcg_status e
  else if c =? MSR_IA32_MISC_ENABLE then msr_ia32_misc_enable e
  else if c =? MSR_IA32_BNDCFGS then msr_bndcfgs e
  else if c =? MSR_IA32_UCODE_REV then ucode_rev e
  else match mtrr_slot c with
       | Some s => slot_get e s
       | None => match mce_slot e c with Some s => slot_get e s | None => 0 end
       end.

Section helpers.
  Context `{EoiSink} (d : nat) (shl_ub : Z -> Z).

(** ** Instructions *)
Definition helper_wrmsr : X unit :=
  cpu_svm_check_intercept_param d SVM_EXIT_MSR 1;;
  e ← get_env d;
  let c := u32 (reg e R_ECX) in
  let val := Z.lor (u32 (reg e R_EAX)) (Z.shiftl (u32 (reg e R_EDX)) 32) in
  if c =? MSR_IA32_APICBASE then modify (cpu_set_apic_base (Some d) val)
  else if c =? MSR_IA32_PKRS then
    if has val 0xffffffff00000000 then raise_exception_err d EXCP0D_GPF 0
    else mod_env d (fun e => e <| pkrs := val |>)
  else if c =? MSR_IA32_UINTR_RR then
    mod_env d (fun e => e <| uintr_rr := val |>);;
    when (nz val) (helper_rrnzero d shl_ub)
  else match msr_write c val e with
       | Some _ => mod_env d (fun e => default e (msr_write c val e))
       | None => match mce_slot e c with Some s => mod_env d (slot_set s val) | None => mret tt end
       end.

Definition helper_rdmsr : X unit :=
  cpu_svm_check_intercept_param d SVM_EXIT_MSR 0;;
  e ← get_env d;
  let c := u32 (reg e R_ECX) in
  val ← gets (fun m => if c =? MSR_IA32_APICBASE then cpu_get_apic_base (Some d) m else msr_read c e);
  mod_env d (fun e => set_reg R_EDX (u32 (Z.shiftr val 32)) (set_reg R_EAX (u32 val) e)).

Definition helper_read_crN (r : Z) : X Z :=
  e ← get_env d;
  if r =? 8 then
    if negb (has (hflags2 e) HF2_VINTR_MASK)
    then ((fun m => let '(v, m) := cpu_get_apic_tpr (Some d) m in Ret v m) : X Z)
    else mret (Z.land (int_ctl e) V_TPR_MASK)
  else mret (crn e r).

Definition helper_write_crN (r t0 : Z) : X unit :=
  e ← get_env d;
  if r =? 0 then
    when (cpu_svm_has_intercept e SVM_EXIT_CR0_SEL_WRITE
          && nz (clr (Z.lxor (crn e 0) t0) (Z.lor CR0_TS_MASK CR0_MP_MASK)))
      (cpu_vmexit d SVM_EXIT_CR0_SEL_WRITE 0);;
    mod_env d (cpu_x86_update_cr0 t0)
  else if r =? 3 then
    when (has (efer e) MSR_EFER_LMA && has t0 (u64 (Z.shiftl (-1) (phys_bits e)))) (cpu_vmexit d SVM_EXIT_ERR 0);;
    mod_env d (cpu_x86_update_cr3 (if has (efer e) MSR_EFER_LMA then t0 else Z.land t0 0xffffffff))
  else if r =? 4 then
    when (has t0 (cr4_reserved_bits e)) (cpu_vmexit d SVM_EXIT_ERR 0);;
    when (has (Z.lxor t0 (crn e 4)) CR4_LA57_MASK && has (hflags e) HF_CS64_MASK) (raise_exception d EXCP0D_GPF);;
    mod_env d (cpu_x86_update_cr4 t0)
  else if r =? 8 then
    when (negb (has (hflags2 e) HF2_VINTR_MASK)) (modify (cpu_set_apic_tpr (Some d) t0));;
    mod_env d (fun e => e <| int_ctl := Z.lor (clr (int_ctl e) V_TPR_MASK) (Z.land t0 V_TPR_MASK) |>);;
    e ← get_env d;
    modify (if ctl_has_irq e then cpu_interrupt d CPU_INTERRUPT_VIRQ else cpu_reset_interrupt d CPU_INTERRUPT_VIRQ)
  else mod_env d (put_cr (Z.to_nat r) t0).

Definition add_eip (next_eip_addend : Z) : X unit := mod_env d (fun e => e <| eip := u64 (eip e + next_eip_addend) |>).

(** [cpu_get_tsc] is an argument. *)
Definition helper_rdtsc (cpu_get_tsc : Z) : X unit :=
  e ← get_env d;
  when (has (crn e 4) CR4_TSD_MASK && negb (Z.land (hflags e) HF_CPL_MASK =? 0)) (raise_exception d EXCP0D_GPF);;
  cpu_svm_check_intercept_param d SVM_EXIT_RDTSC 0;;
  mod_env d (fun e =>
    let val := u64 (cpu_get_tsc + tsc_offset e) in
    set_reg R_EDX (u32 (Z.shiftr val 32)) (set_reg R_EAX (u32 val) e)).

Definition helper_rdtscp (cpu_get_tsc : Z) : X unit :=
  helper_rdtsc cpu_get_tsc;; mod_env d (fun e => set_reg R_ECX (u32 (tsc_aux e)) e).

Definition helper_rdpmc : X unit :=
  e ← get_env d;
  when (negb (has (crn e 4) CR4_PCE_MASK) && negb (Z.land (hflags e) HF_CPL_MASK =? 0)) (raise_exception d EXCP0D_GPF);;
  cpu_svm_check_intercept_param d SVM_EXIT_RDPMC 0;;
  raise_exception_err d EXCP06_ILLOP 0.

Definition helper_rdpkru (ecx : Z) : X Z :=
  e ← get_env d;
  fault_when d (negb (has (crn e 4) CR4_PKE_MASK)) EXCP06_ILLOP 0;;
  fault_when d (nz ecx) EXCP0D_GPF 0;;
  mret (pkru e).

Definition helper_wrpkru (ecx val : Z) : X unit :=
  e ← get_env d;
  fault_when d (negb (has (crn e 4) CR4_PKE_MASK)) EXCP06_ILLOP 0;;
  fault_when d (nz ecx || has val 0xffffffff00000000) EXCP0D_GPF 0;;
  mod_env d (fun e => e <| pkru := u32 val |>).

Definition helper_into (next_eip_addend : Z) : X unit :=
  e ← get_env d;
  when (has (cpu_cc_compute_all e (cc_op e)) CC_O) (raise_interrupt d EXCP04_INTO 1 0 next_eip_addend).

(** ** Waiting *)
Definition do_pause : X unit := mod_env d (fun e => e <| exception_index := EXCP_INTERRUPT |>);; cpu_loop_exit.
Definition helper_pause (next_eip_addend : Z) : X unit :=
  cpu_svm_check_intercept_param d SVM_EXIT_PAUSE 0;; add_eip next_eip_addend;; do_pause.

Definition do_hlt : X unit :=
  mod_env d (fun e => e <| hflags := clr (hflags e) HF_INHIBIT_IRQ_MASK |>);;
  modify (upd_cpu d (fun c => c <| halted := 1 |>));;
  mod_env d (fun e => e <| exception_index := EXCP_HLT |>);; cpu_loop_exit.
Definition helper_hlt (next_eip_addend : Z) : X unit :=
  cpu_svm_check_intercept_param d SVM_EXIT_HLT 0;; add_eip next_eip_addend;; do_hlt.

Definition helper_monitor (ptr : Z) : X unit :=
  e ← get_env d;
  when (nz (u32 (reg e R_ECX))) (raise_exception d EXCP0D_GPF);;
  cpu_svm_check_intercept_param d SVM_EXIT_MONITOR 0.

(** The list of processors is in the order of their indices. *)
Definition helper_mwait (next_eip_addend : Z) : X unit :=
  e ← get_env d;
  when (nz (u32 (reg e R_ECX))) (raise_exception d EXCP0D_GPF);;
  cpu_svm_check_intercept_param d SVM_EXIT_MWAIT 0;;
  add_eip next_eip_addend;;
  next ← gets (fun m => bool_decide (is_Some (cpus m !! S d)));
  if negb (d =? 0)%nat || next then do_pause else do_hlt.
End helpers.
