(* ===== verification/Far.v ===== *)
(** * Segment loads and far transfers (target/i386/tcg/seg_helper.c)

    lldt, ltr, segment register loads, far jumps and calls, through call and
    task gates too, returns from them and from interrupts, sysenter and sysexit,
    and the descriptor queries lsl, lar, verr and verw. *)
From S2P Require Import Prelude Cpu Machine Cc Apic Exec Mmu Bpt Ctl Svm Smm Seg Uintr Intr.

Definition VIF_MASK : Z := 0x80000.
Definition VIP_MASK : Z := 0x100000.

Section helpers.
  Context (d : nat).
  #[local] Abbreviation fault_when := (fault_when d).

(** [POPW], [POPL] on a stack pointer variable of [w] bits. *)
Definition POPW (w ssp sp sp_mask : Z) : X (Z * Z) :=
  v ← cpu_ld_kernel d 2 (ssp + Z.land sp sp_mask); mret (v, wrap w (sp + 2)).
Definition POPL (w ssp sp sp_mask : Z) : X (Z * Z) :=
  v ← cpu_ld_kernel d 4 (SEG_ADDL ssp sp sp_mask); mret (v, wrap w (sp + 4)).

(** Pushes and pops of 2, 4 or 8 bytes on a 64-bit stack pointer variable. *)
Definition push_sized (shift ssp sp sp_mask val : Z) : X Z :=
  if shift =? 2 then PUSHQ d sp val
  else if shift =? 1 then PUSHL d 64 ssp sp sp_mask val else PUSHW d 64 ssp sp sp_mask val.
Definition pop_sized (shift ssp sp sp_mask : Z) : X (Z * Z) :=
  if shift =? 2 then POPQ d sp
  else if shift =? 1 then POPL 64 ssp sp sp_mask else POPW 64 ssp sp sp_mask.

(** ** System segments *)

(** The descriptor of [lldt] and [ltr], which has 16 bytes in long mode. *)
Definition system_segment (sel : Z) (types : list Z) : X (Z * Z * Z) :=
  let code := Z.land sel 0xfffc in
  fault_when (has sel 0x4) EXCP0D_GPF code;;
  e ← get_env d;
  let index := clr sel 7 in
  let entry_limit := if has (hflags e) HF_LMA_MASK then 15 else 7 in
  fault_when (limit (gdt e) <? u32 (index + entry_limit)) EXCP0D_GPF code;;
  let ptr := u64 (base (gdt e) + index) in
  e1 ← cpu_ld_kernel d 4 ptr;
  e2 ← cpu_ld_kernel d 4 (ptr + 4);
  fault_when (has e2 DESC_S_MASK || negb (existsb (Z.eqb (desc_type e2)) types)) EXCP0D_GPF code;;
  fault_when (negb (has e2 DESC_P_MASK)) EXCP0B_NOSEG code;;
  mret (ptr, e1, e2).

(** The cache of a system segment; [e3] is the upper half of its base. *)
Definition load_wide (e1 e2 e3 : Z) (sc : SegmentCache) : SegmentCache :=
  let sc := load_seg_cache_raw_dt e1 e2 sc in sc <| base := Z.lor (base sc) (Z.shiftl e3 32) |>.

Definition helper_lldt (sel : Z) : X unit :=
  let sel := Z.land sel 0xffff in
  (if Z.land sel 0xfffc =? 0 then mod_env d (fun e => e <| ldt := ldt e <| base := 0 |> <| limit := 0 |> |>)
   else
     ' (ptr, e1, e2) ← system_segment sel [2];
     e ← get_env d;
     if has (hflags e) HF_LMA_MASK then
       e3 ← cpu_ld_kernel d 4 (ptr + 8);
       mod_env d (fun e => e <| ldt := load_wide e1 e2 e3 (ldt e) |>)
     else mod_env d (fun e => e <| ldt := load_seg_cache_raw_dt e1 e2 (ldt e) |>));;
  mod_env d (fun e => e <| ldt := ldt e <| selector := sel |> |>).

Definition helper_ltr (sel : Z) : X unit :=
  let sel := Z.land sel 0xffff in
  (if Z.land sel 0xfffc =? 0 then
     mod_env d (fun e => e <| tr := tr e <| base := 0 |> <| limit := 0 |> <| flags := 0 |> |>)
   else
     ' (ptr, e1, e2) ← system_segment sel [1; 9];
     e ← get_env d;
     (if has (hflags e) HF_LMA_MASK then
        e3 ← cpu_ld_kernel d 4 (ptr + 8);
        e4 ← cpu_ld_kernel d 4 (ptr + 12);
        fault_when (nz (desc_type e4)) EXCP0D_GPF (Z.land sel 0xfffc);;
        mod_env d (fun e => e <| tr := load_wide e1 e2 e3 (tr e) |>)
      else mod_env d (fun e => e <| tr := load_seg_cache_raw_dt e1 e2 (tr e) |>));;
     cpu_st_kernel d 4 (ptr + 4) (Z.lor e2 DESC_TSS_BUSY_MASK));;
  mod_env d (fun e => e <| tr := tr e <| selector := sel |> |>).

(** ** Data segments *)

(** Whether the rights of a segment forbid loading it into a register. *)
Definition load_seg_bad (seg_reg sel e2 cpl : Z) : bool :=
  let rpl := Z.land sel 3 in
  let dpl := desc_dpl e2 in
  if seg_reg =? R_SS then
    (* must be writable segment *)
    has e2 DESC_CS_MASK || negb (has e2 DESC_W_MASK) || negb (rpl =? cpl) || negb (dpl =? cpl)
  else
    (* must be readable segment; if not conforming code, test rights *)
    (Z.land e2 (Z.lor DESC_CS_MASK DESC_R_MASK) =? DESC_CS_MASK)
    || ((negb (has e2 DESC_CS_MASK) || negb (has e2 DESC_C_MASK)) && ((dpl <? cpl) || (dpl <? rpl))).

Definition helper_load_seg (seg_reg sel : Z) : X unit :=
  let sel := Z.land sel 0xffff in
  let code := Z.land sel 0xfffc in
  e ← get_env d;
  let cpl := Z.land (hflags e) HF_CPL_MASK in
  if code =? 0 then
    fault_when ((seg_reg =? R_SS) && (negb (has (hflags e) HF_CS64_MASK) || (cpl =? 3))) EXCP0D_GPF 0;;
    mod_env d (cpu_x86_load_seg_cache seg_reg sel 0 0 0)
  else
    let dt := if has sel 0x4 then ldt e else gdt e in
    let index := clr sel 7 in
    fault_when (limit dt <? u32 (index + 7)) EXCP0D_GPF code;;
    let ptr := u64 (base dt + index) in
    e1 ← cpu_ld_kernel d 4 ptr;
    e2 ← cpu_ld_kernel d 4 (ptr + 4);
    fault_when (negb (has e2 DESC_S_MASK)) EXCP0D_GPF code;;
    fault_when (load_seg_bad seg_reg sel e2 cpl) EXCP0D_GPF code;;
    fault_when (negb (has e2 DESC_P_MASK)) (if seg_reg =? R_SS then EXCP0C_STACK else EXCP0B_NOSEG) code;;
    (* set the access bit if not already set *)
    when (negb (has e2 DESC_A_MASK)) (cpu_st_kernel d 4 (ptr + 4) (Z.lor e2 DESC_A_MASK));;
    mod_env d (cpu_x86_load_seg_cache seg_reg sel (get_seg_base e1 e2) (get_seg_limit e1 e2) (Z.lor e2 DESC_A_MASK)).

(** ** Far jumps *)

(** The code segment a direct transfer names. *)
Definition direct_code (new_cs e2 cpl : Z) : X unit :=
  let code := Z.land new_cs 0xfffc in
  let dpl := desc_dpl e2 in
  fault_when (negb (has e2 DESC_CS_MASK)) EXCP0D_GPF code;;
  fault_when (if has e2 DESC_C_MASK then cpl <? dpl else (cpl <? Z.land new_cs 3) || negb (dpl =? cpl)) EXCP0D_GPF code;;
  fault_when (negb (has e2 DESC_P_MASK)) EXCP0B_NOSEG code.

(** Whether the offset is outside the segment. *)
Definition eip_outside (e : CPUX86State) (new_eip e1 e2 : Z) : bool :=
  (get_seg_limit e1 e2 <? new_eip) && (negb (has (hflags e) HF_LMA_MASK) || negb (has e2 DESC_L_MASK)).

Definition set_cs (sel e1 e2 : Z) (e : CPUX86State) : CPUX86State :=
  cpu_x86_load_seg_cache R_CS sel (get_seg_base e1 e2) (get_seg_limit e1 e2) e2 e.

(** The upper 8 bytes of a 64-bit call gate: the upper half of the offset. *)
Definition gate_upper (e : CPUX86State) (new_cs : Z) : X Z :=
  let code := Z.land new_cs 0xfffc in
  if has (efer e) MSR_EFER_LMA then
    ' (e1, e2) ← load_segment_or d (new_cs + 8) EXCP0D_GPF code;
    fault_when (negb (Z.land (Z.shiftr e2 DESC_TYPE_SHIFT) 0x1f =? 0)) EXCP0D_GPF code;;
    mret (Z.shiftl e1 32)
  else mret 0.

(** Long mode wants a 64-bit code segment behind a call gate. *)
Definition gate_code64 (e : CPUX86State) (sel e2 : Z) : X unit :=
  fault_when (has (efer e) MSR_EFER_LMA && (negb (has e2 DESC_L_MASK) || has e2 DESC_B_MASK)) EXCP0D_GPF (Z.land sel 0xfffc).

Definition jump_gate (new_cs e1 e2 cpl : Z) : X unit :=
  e ← get_env d;
  fault_when (negb (has e2 DESC_P_MASK)) EXCP0B_NOSEG (Z.land new_cs 0xfffc);;
  let gate_cs := Z.shiftr e1 16 in
  let code := Z.land gate_cs 0xfffc in
  let low := if desc_type e2 =? 12 then Z.lor (Z.land e1 0xffff) (Z.land e2 0xffff0000) else Z.land e1 0xffff in
  up ← gate_upper e new_cs;
  let new_eip := Z.lor low up in
  ' (e1, e2) ← load_segment_or d gate_cs EXCP0D_GPF code;
  let dpl := desc_dpl e2 in
  let m := Z.lor DESC_S_MASK DESC_CS_MASK in
  fault_when (negb (Z.land e2 m =? m)) EXCP0D_GPF code;;
  fault_when ((has e2 DESC_C_MASK && (cpl <? dpl)) || (negb (has e2 DESC_C_MASK) && negb (dpl =? cpl))) EXCP0D_GPF code;;
  gate_code64 e gate_cs e2;;
  fault_when (negb (has e2 DESC_P_MASK)) EXCP0D_GPF code;;
  fault_when (eip_outside e new_eip e1 e2) EXCP0D_GPF 0;;
  mod_env d (fun e => set_cs (Z.lor code cpl) e1 e2 e <| eip := new_eip |>).

Definition helper_ljmp_protected (new_cs new_eip next_eip : Z) : X unit :=
  let code := Z.land new_cs 0xfffc in
  fault_when (code =? 0) EXCP0D_GPF 0;;
  ' (e1, e2) ← load_segment_or d new_cs EXCP0D_GPF code;
  e ← get_env d;
  let cpl := Z.land (hflags e) HF_CPL_MASK in
  if has e2 DESC_S_MASK then
    direct_code new_cs e2 cpl;;
    fault_when (eip_outside e new_eip e1 e2) EXCP0D_GPF 0;;
    mod_env d (fun e => set_cs (Z.lor code cpl) e1 e2 e <| eip := new_eip |>)
  else
    let dpl := desc_dpl e2 in
    let rpl := Z.land new_cs 3 in
    let type := desc_type e2 in
    fault_when (has (efer e) MSR_EFER_LMA && negb (type =? 12)) EXCP0D_GPF code;;
    fault_when (negb (existsb (Z.eqb type) [1; 9; 5; 4; 12]) || (dpl <? cpl) || (dpl <? rpl)) EXCP0D_GPF code;;
    if existsb (Z.eqb type) [1; 9; 5] then switch_tss d new_cs e1 e2 SWITCH_TSS_JMP (u32 next_eip)
    else jump_gate new_cs e1 e2 cpl.

(** ** Far calls *)
Definition helper_lcall_real (new_cs new_eip1 shift next_eip : Z) : X unit :=
  e ← get_env d;
  let m := get_sp_mask (flags (seg e R_SS)) in
  let ssp := base (seg e R_SS) in
  let push sp v := if nz shift then PUSHL d 32 ssp sp m v else PUSHW d 32 ssp sp m v in
  esp ← push (u32 (reg e R_ESP)) (selector (seg e R_CS));
  esp ← push esp next_eip;
  mod_env d (fun e =>
    let e := SET_ESP esp m e <| eip := u64 (s32 new_eip1) |> in
    let cs := seg e R_CS in
    e <| segs := <[Z.to_nat R_CS := mkSeg (u32 new_cs) (u64 (Z.shiftl new_cs 4)) (limit cs) (flags cs)]> (segs e) |>).

(** A call without a gate. *)
Definition call_direct (new_cs new_eip shift next_eip e1 e2 cpl : Z) : X unit :=
  e ← get_env d;
  direct_code new_cs e2 cpl;;
  let code := Z.land new_cs 0xfffc in
  let m := get_sp_mask (flags (seg e R_SS)) in
  let ssp := base (seg e R_SS) in
  sp ← push_sized shift ssp (reg e R_ESP) m (selector (seg e R_CS));
  sp ← push_sized shift ssp sp m next_eip;
  fault_when (negb (shift =? 2) && (get_seg_limit e1 e2 <? new_eip)) EXCP0D_GPF code;;
  mod_env d (fun e =>
    let e := if shift =? 2 then set_reg R_ESP sp e else SET_ESP sp m e in
    set_cs (Z.lor code cpl) e1 e2 e <| eip := new_eip |>).

(** The parameters of a call gate, copied from the old stack; [i] is the number
    of those left. *)
Fixpoint copy_params (shift old_esp old_ssp old_mask ssp m : Z) (i : nat) (sp : Z) : X Z :=
  match i with
  | O => mret sp
  | S i' =>
      let size := if shift =? 1 then 4 else 2 in
      v ← cpu_ld_kernel d (Z.to_nat size) (old_ssp + Z.land (u64 (old_esp + Z.of_nat i' * size)) old_mask);
      sp ← push_sized shift ssp sp m v;
      copy_params shift old_esp old_ssp old_mask ssp m i' sp
  end.

(** The stack of the called procedure with the caller's stack pointer and the
    parameters on it. *)
Definition call_stack (shift dpl cpl e2 param_count : Z) : X gate_stack :=
  e ← get_env d;
  let old_m := get_sp_mask (flags (seg e R_SS)) in
  let old_ssp := base (seg e R_SS) in
  if negb (has e2 DESC_C_MASK) && (dpl <? cpl) then
    s ← (if shift =? 2 then rsp ← get_rsp_from_tss d dpl; mret (mkStack true dpl 0 0 0 0 rsp)
         else inner_stack d dpl);
    sp ← push_sized shift (gs_ssp s) (gs_esp s) (gs_mask s) (selector (seg e R_SS));
    sp ← push_sized shift (gs_ssp s) sp (gs_mask s) (reg e R_ESP);
    sp ← (if shift =? 2 then mret sp  (* parameters aren't supported for 64-bit call gates *)
          else copy_params shift (reg e R_ESP) old_ssp old_m (gs_ssp s) (gs_mask s) (Z.to_nat param_count) sp);
    mret (mkStack true (gs_ss s) (gs_e1 s) (gs_e2 s) (gs_mask s) (gs_ssp s) sp)
  else mret (mkStack false 0 0 0 old_m old_ssp (reg e R_ESP)).

(** Control passes through a call gate. *)
Definition enter_call (shift sel e1 e2 dpl offset : Z) (s : gate_stack) (sp : Z) (e : CPUX86State) : CPUX86State :=
  let e := if new_stack s then
      if shift =? 2 then cpu_x86_load_seg_cache R_SS (gs_ss s) 0 0 0 e
      else cpu_x86_load_seg_cache R_SS (Z.lor (clr (gs_ss s) 3) dpl) (gs_ssp s)
             (get_seg_limit (gs_e1 s) (gs_e2 s)) (gs_e2 s) e
    else e in
  SET_ESP sp (gs_mask s) (set_cs (Z.lor (clr sel 3) dpl) e1 e2 e) <| eip := offset |>.

Definition call_gate (new_cs next_eip e1 e2 cpl : Z) : X unit :=
  e ← get_env d;
  let code := Z.land new_cs 0xfffc in
  fault_when (negb (has e2 DESC_P_MASK)) EXCP0B_NOSEG code;;
  let shift := Z.shiftr (Z.land (Z.shiftr e2 DESC_TYPE_SHIFT) 0x1f) 3 in
  let sel := Z.shiftr e1 16 in
  let param_count := Z.land e2 0x1f in
  let low := Z.lor (Z.land e2 0xffff0000) (Z.land e1 0x0000ffff) in
  up ← gate_upper e new_cs;
  let offset := Z.lor low up in
  let code := Z.land sel 0xfffc in
  fault_when (code =? 0) EXCP0D_GPF 0;;
  ' (e1, e2) ← load_segment_or d sel EXCP0D_GPF code;
  let dpl := desc_dpl e2 in
  fault_when (negb (has e2 DESC_S_MASK) || negb (has e2 DESC_CS_MASK)) EXCP0D_GPF code;;
  fault_when (cpl <? dpl) EXCP0D_GPF code;;
  gate_code64 e sel e2;;
  let shift := if has (efer e) MSR_EFER_LMA then shift + 1 else shift in
  fault_when (negb (has e2 DESC_P_MASK)) EXCP0B_NOSEG code;;
  s ← call_stack shift dpl cpl e2 param_count;
  sp ← push_sized shift (gs_ssp s) (gs_esp s) (gs_mask s) (selector (seg e R_CS));
  sp ← push_sized shift (gs_ssp s) sp (gs_mask s) next_eip;
  mod_env d (enter_call shift sel e1 e2 dpl offset s sp).

Definition helper_lcall_protected (new_cs new_eip shift next_eip : Z) : X unit :=
  let code := Z.land new_cs 0xfffc in
  fault_when (code =? 0) EXCP0D_GPF 0;;
  ' (e1, e2) ← load_segment_or d new_cs EXCP0D_GPF code;
  e ← get_env d;
  let cpl := Z.land (hflags e) HF_CPL_MASK in
  if has e2 DESC_S_MASK then call_direct new_cs new_eip shift next_eip e1 e2 cpl
  else
    let type := Z.land (Z.shiftr e2 DESC_TYPE_SHIFT) 0x1f in
    let dpl := desc_dpl e2 in
    let rpl := Z.land new_cs 3 in
    fault_when (has (efer e) MSR_EFER_LMA && negb (type =? 12)) EXCP0D_GPF code;;
    fault_when (negb (existsb (Z.eqb type) [1; 9; 5; 4; 12]) || (dpl <? cpl) || (dpl <? rpl)) EXCP0D_GPF code;;
    if existsb (Z.eqb type) [1; 9; 5] then switch_tss d new_cs e1 e2 SWITCH_TSS_CALL (u32 next_eip)
    else call_gate new_cs next_eip e1 e2 cpl.

(** ** Returns *)
Definition iret_real_mask (e : CPUX86State) (shift : Z) : Z :=
  let m := Z.lor TF_MASK (Z.lor AC_MASK (Z.lor ID_MASK (Z.lor IF_MASK (Z.lor RF_MASK NT_MASK)))) in
  let m := if has (eflags e) VM_MASK then m else Z.lor m IOPL_MASK in
  if shift =? 0 then Z.land m 0xffff else m.

Definition helper_iret_real (shift : Z) : X unit :=
  e ← get_env d;
  let ssp := base (seg e R_SS) in
  let pop sp := if shift =? 1 then POPL 32 ssp sp 0xffff else POPW 32 ssp sp 0xffff in
  ' (new_eip, sp) ← pop (u32 (reg e R_ESP));
  ' (new_cs, sp) ← pop sp;
  let new_cs := Z.land new_cs 0xffff in
  ' (new_eflags, sp) ← pop sp;
  mod_env d (fun e =>
    let e := set_reg R_ESP (Z.lor (Z.land (reg e R_ESP) (Z.lxor 0xffffffff 0xffff)) (Z.land sp 0xffff)) e in
    let cs := seg e R_CS in
    let e := e <| segs := <[Z.to_nat R_CS := mkSeg new_cs (Z.shiftl new_cs 4) (limit cs) (flags cs)]> (segs e) |>
               <| eip := new_eip |> in
    let e := cpu_load_eflags new_eflags (iret_real_mask e shift) e in
    e <| hflags2 := clr (hflags2 e) HF2_NMI_MASK |>).

Definition validate_seg (seg_reg cpl : Z) (e : CPUX86State) : CPUX86State :=
  let s := seg e seg_reg in
  if ((seg_reg =? R_FS) || (seg_reg =? R_GS)) && (Z.land (selector s) 0xfffc =? 0) then e
  else if (negb (has (flags s) DESC_CS_MASK) || negb (has (flags s) DESC_C_MASK)) && (desc_dpl (flags s) <? cpl)
  then cpu_x86_load_seg_cache seg_reg 0 (base s) (limit s) (clr (flags s) DESC_P_MASK) e
  else e.

Definition null_ss_flags (rpl : Z) : Z :=
  seg_flat [DESC_B_MASK; Z.shiftl rpl DESC_DPL_SHIFT; DESC_W_MASK; DESC_A_MASK].

(** The stack segment of an outer return; the result is its descriptor word. *)
Definition ret_ss (new_ss rpl : Z) : X Z :=
  e ← get_env d;
  let code := Z.land new_ss 0xfffc in
  if code =? 0 then
    (* NULL ss is allowed in long mode if cpl != 3 *)
    fault_when (negb (has (hflags e) HF_LMA_MASK && negb (rpl =? 3))) EXCP0D_GPF 0;;
    mod_env d (cpu_x86_load_seg_cache R_SS new_ss 0 0xffffffff (null_ss_flags rpl));;
    mret DESC_B_MASK
  else
    fault_when (negb (Z.land new_ss 3 =? rpl)) EXCP0D_GPF code;;
    ' (ss_e1, ss_e2) ← load_segment_or d new_ss EXCP0D_GPF code;
    fault_when (negb (has ss_e2 DESC_S_MASK) || has ss_e2 DESC_CS_MASK || negb (has ss_e2 DESC_W_MASK)) EXCP0D_GPF code;;
    fault_when (negb (desc_dpl ss_e2 =? rpl)) EXCP0D_GPF code;;
    fault_when (negb (has ss_e2 DESC_P_MASK)) EXCP0B_NOSEG code;;
    mod_env d (cpu_x86_load_seg_cache R_SS new_ss (get_seg_base ss_e1 ss_e2) (get_seg_limit ss_e1 ss_e2) ss_e2);;
    mret ss_e2.

(** The code segment a return names, with its descriptor. *)
Definition ret_code (new_cs cpl : Z) : X (Z * Z) :=
  let code := Z.land new_cs 0xfffc in
  fault_when (code =? 0) EXCP0D_GPF code;;
  ' (e1, e2) ← load_segment_or d new_cs EXCP0D_GPF code;
  let rpl := Z.land new_cs 3 in
  let dpl := desc_dpl e2 in
  fault_when (negb (has e2 DESC_S_MASK) || negb (has e2 DESC_CS_MASK)) EXCP0D_GPF code;;
  fault_when (rpl <? cpl) EXCP0D_GPF code;;
  fault_when (if has e2 DESC_C_MASK then rpl <? dpl else negb (dpl =? rpl)) EXCP0D_GPF code;;
  fault_when (negb (has e2 DESC_P_MASK)) EXCP0B_NOSEG code;;
  mret (e1, e2).

(** The flags an iret may change; [cpl] is the old privilege level. *)
Definition iret_mask (e : CPUX86State) (cpl shift : Z) : Z :=
  let m := Z.lor TF_MASK (Z.lor AC_MASK (Z.lor ID_MASK (Z.lor RF_MASK NT_MASK))) in
  let m := if cpl =? 0 then Z.lor m IOPL_MASK else m in
  let m := if cpl <=? Z.land (Z.shiftr (eflags e) 12) 3 then Z.lor m IF_MASK else m in
  if shift =? 0 then Z.land m 0xffff else m.

(** The segments of an outer return; the result is the stack pointer mask. *)
Definition ret_outer (new_cs e1 e2 new_ss : Z) : X Z :=
  let rpl := Z.land new_cs 3 in
  ss_e2 ← ret_ss new_ss rpl;
  mod_env d (set_cs new_cs e1 e2);;
  e ← get_env d;
  mod_env d (fun e => validate_seg R_GS rpl (validate_seg R_FS rpl (validate_seg R_DS rpl (validate_seg R_ES rpl e))));;
  mret (if has (hflags e) HF_CS64_MASK then u64 (-1) else get_sp_mask ss_e2).

(** Back to virtual-8086 mode. *)
Definition vm86_env (new_cs new_eip new_eflags new_esp new_ss new_es new_ds new_fs new_gs : Z)
    (e : CPUX86State) : CPUX86State :=
  let m := Z.lor TF_MASK (Z.lor AC_MASK (Z.lor ID_MASK (Z.lor IF_MASK (Z.lor IOPL_MASK (Z.lor VM_MASK
             (Z.lor NT_MASK (Z.lor VIF_MASK VIP_MASK))))))) in
  let e := cpu_load_eflags new_eflags m e in
  let e := fold_left (fun e '(r, s) => load_seg_vm r (Z.land s 0xffff) e)
             [(R_CS, new_cs); (R_SS, new_ss); (R_ES, new_es); (R_DS, new_ds); (R_FS, new_fs); (R_GS, new_gs)] e in
  set_reg R_ESP new_esp (e <| eip := Z.land new_eip 0xffff |>).

Definition return_to_vm86 (ssp sp m new_cs new_eip new_eflags : Z) : X unit :=
  ' (new_esp, sp) ← POPL 64 ssp sp m;
  ' (new_ss, sp) ← POPL 64 ssp sp m;
  ' (new_es, sp) ← POPL 64 ssp sp m;
  ' (new_ds, sp) ← POPL 64 ssp sp m;
  ' (new_fs, sp) ← POPL 64 ssp sp m;
  ' (new_gs, _) ← POPL 64 ssp sp m;
  mod_env d (vm86_env new_cs new_eip new_eflags new_esp new_ss new_es new_ds new_fs new_gs).

(** Everything after the return address is popped. *)
Definition ret_to (shift : Z) (is_iret : bool) (addend ssp sp m new_cs new_eip new_eflags : Z) : X unit :=
  e ← get_env d;
  let cpl := Z.land (hflags e) HF_CPL_MASK in
  ' (e1, e2) ← ret_code new_cs cpl;
  let sp := u64 (sp + addend) in
  ' (sp, m) ←
    (if (Z.land new_cs 3 =? cpl) && (negb (has (hflags e) HF_CS64_MASK) || negb is_iret) then
       (* return to same privilege level *)
       mod_env d (set_cs new_cs e1 e2);; mret (sp, m)
     else
       ' (new_esp, sp) ← pop_sized shift ssp sp m;
       ' (new_ss, _) ← pop_sized shift ssp sp m;
       m ← ret_outer new_cs e1 e2 (Z.land new_ss 0xffff);
       mret (u64 (new_esp + addend), m));
  mod_env d (fun e =>
    let e := SET_ESP sp m e <| eip := new_eip |> in
    if is_iret then cpu_load_eflags new_eflags (iret_mask e cpl shift) e else e).

Definition helper_ret_protected (shift : Z) (is_iret : bool) (addend : Z) : X unit :=
  e ← get_env d;
  let m := if shift =? 2 then u64 (-1) else get_sp_mask (flags (seg e R_SS)) in
  let ssp := base (seg e R_SS) in
  ' (new_eip, sp) ← pop_sized shift ssp (reg e R_ESP) m;
  ' (new_cs, sp) ← pop_sized shift ssp sp m;
  let new_cs := Z.land new_cs 0xffff in
  ' (new_eflags, sp) ← (if is_iret then ' (f, sp) ← pop_sized shift ssp sp m; mret (u32 f, sp) else mret (0, sp));
  if (shift =? 1) && is_iret && has new_eflags VM_MASK then return_to_vm86 ssp sp m new_cs new_eip new_eflags
  else ret_to shift is_iret addend ssp sp m new_cs new_eip new_eflags.

Definition helper_iret_protected (shift next_eip : Z) : X unit :=
  e ← get_env d;
  (if has (eflags e) NT_MASK then
     fault_when (has (hflags e) HF_LMA_MASK) EXCP0D_GPF 0;;
     tss_selector ← cpu_ld_kernel d 2 (base (tr e));
     let code := Z.land tss_selector 0xfffc in
     fault_when (has tss_selector 4) EXCP0A_TSS code;;
     ' (e1, e2) ← load_segment_or d tss_selector EXCP0A_TSS code;
     fault_when (negb (Z.land (Z.shiftr e2 DESC_TYPE_SHIFT) 0x17 =? 3)) EXCP0A_TSS code;;
     switch_tss d tss_selector e1 e2 SWITCH_TSS_IRET (u32 next_eip)
   else helper_ret_protected shift true 0);;
  mod_env d (fun e => e <| hflags2 := clr (hflags2 e) HF2_NMI_MASK |>).

Definition helper_lret_protected (shift addend : Z) : X unit := helper_ret_protected shift false addend.

(** ** sysenter and sysexit *)
Definition sysenter_env (e : CPUX86State) : CPUX86State :=
  let e := e <| eflags := clr (eflags e) (Z.lor VM_MASK (Z.lor IF_MASK RF_MASK)) |> in
  let code := [DESC_B_MASK; DESC_CS_MASK; DESC_R_MASK; DESC_A_MASK] in
  let e := cpu_x86_load_seg_cache R_CS (Z.land (sysenter_cs e) 0xfffc) 0 0xffffffff
             (seg_flat (if has (hflags e) HF_LMA_MASK then code ++ [DESC_L_MASK] else code)) e in
  let e := cpu_x86_load_seg_cache R_SS (Z.land (sysenter_cs e + 8) 0xfffc) 0 0xffffffff
             (seg_flat [DESC_B_MASK; DESC_W_MASK; DESC_A_MASK]) e in
  set_reg R_ESP (sysenter_esp e) e <| eip := sysenter_eip e |>.

Definition helper_sysenter : X unit :=
  e ← get_env d;
  fault_when (sysenter_cs e =? 0) EXCP0D_GPF 0;;
  mod_env d sysenter_env.

Definition sysexit_env (dflag : Z) (e : CPUX86State) : CPUX86State :=
  let code := [DESC_B_MASK; user_dpl; DESC_CS_MASK; DESC_R_MASK; DESC_A_MASK] in
  let o := if dflag =? 2 then 32 else 16 in
  let e := cpu_x86_load_seg_cache R_CS (Z.lor (Z.land (sysenter_cs e + o) 0xfffc) 3) 0 0xffffffff
             (seg_flat (if dflag =? 2 then code ++ [DESC_L_MASK] else code)) e in
  let e := cpu_x86_load_seg_cache R_SS (Z.lor (Z.land (sysenter_cs e + (o + 8)) 0xfffc) 3) 0 0xffffffff
             (seg_flat [DESC_B_MASK; user_dpl; DESC_W_MASK; DESC_A_MASK]) e in
  set_reg R_ESP (reg e R_ECX) e <| eip := reg e R_EDX |>.

Definition helper_sysexit (dflag : Z) : X unit :=
  e ← get_env d;
  fault_when ((sysenter_cs e =? 0) || negb (Z.land (hflags e) HF_CPL_MASK =? 0)) EXCP0D_GPF 0;;
  mod_env d (sysexit_env dflag).

(** ** Descriptor queries *)

(** The descriptor [sel] names, if the program may see it. *)
Definition query (sel : Z) (visible : Z -> Z -> bool) : X (option (Z * Z)) :=
  if Z.land sel 0xfffc =? 0 then mret None
  else
    r ← load_segment d sel;
    e ← get_env d;
    mret (match r with
          | Some (e1, e2) => if visible e2 (Z.land (hflags e) HF_CPL_MASK) then Some (e1, e2) else None
          | None => None
          end).

Definition below (sel e2 cpl : Z) : bool := (desc_dpl e2 <? cpl) || (desc_dpl e2 <? Z.land sel 3).

(** [lsl] and [lar]: code and data, and the system segments of [types]. *)
Definition limit_visible (types : list Z) (sel e2 cpl : Z) : bool :=
  if has e2 DESC_S_MASK then (has e2 DESC_CS_MASK && has e2 DESC_C_MASK) || negb (below sel e2 cpl)
  else existsb (Z.eqb (desc_type e2)) types && negb (below sel e2 cpl).

Definition readable (sel e2 cpl : Z) : bool :=
  has e2 DESC_S_MASK
  && (if has e2 DESC_CS_MASK then has e2 DESC_R_MASK && (has e2 DESC_C_MASK || negb (below sel e2 cpl))
      else negb (below sel e2 cpl)).

Definition writable (sel e2 cpl : Z) : bool :=
  has e2 DESC_S_MASK && negb (has e2 DESC_CS_MASK) && negb (below sel e2 cpl) && has e2 DESC_W_MASK.

(** The answer in ZF; [eflags] are the condition codes before. *)
Definition answer (fl : Z) (ok : bool) : X unit :=
  mod_env d (fun e => e <| cc_src := if ok then Z.lor fl CC_Z else clr fl CC_Z |>).

Definition query_op (selector1 : Z) (visible : Z -> Z -> Z -> bool) (result : Z * Z -> Z) : X Z :=
  let sel := Z.land selector1 0xffff in
  e ← get_env d;
  let fl := u32 (cpu_cc_compute_all e (cc_op e)) in
  r ← query sel (visible sel);
  match r with
  | Some p => answer fl true;; mret (result p)
  | None => answer fl false;; mret 0
  end.

Definition helper_lsl (selector1 : Z) : X Z :=
  query_op selector1 (limit_visible [1; 2; 3; 9; 11]) (fun '(e1, e2) => get_seg_limit e1 e2).
Definition helper_lar (selector1 : Z) : X Z :=
  query_op selector1 (limit_visible [1; 2; 3; 4; 5; 9; 11; 12]) (fun '(_, e2) => Z.land e2 0x00f0ff00).
Definition helper_verr (selector1 : Z) : X unit := query_op selector1 readable (fun _ => 0);; mret tt.
Definition helper_verw (selector1 : Z) : X unit := query_op selector1 writable (fun _ => 0);; mret tt.
End helpers.
