(* ===== verification/VMem.v ===== *)
(** * Guest-virtual memory, seen page by page

    The loads, stores and translations of the helpers, for a processor in long
    mode: what they do is determined by the page the address lies in, and
    stores that stay off the page tables leave every page where it is. *)
From S2P Require Import Prelude Cpu Machine Mem Exec Mmu MmuFacts ExcFacts.

(** Long mode without nested paging. *)
Record long_mode (e : CPUX86State) : Prop := {
  lm_pg : has (crn e 0) CR0_PG_MASK = true;
  lm_pae : has (crn e 4) CR4_PAE_MASK = true;
  lm_lma : has (hflags e) HF_LMA_MASK = true;
  lm_npt : has (hflags2 e) HF2_NPT_MASK = false;
  lm_cr3 : is_u 52 (crn e 3);
}.

Lemma long_mode_pg e : long_mode e ->
  has (get_pg_mode e) PG_MODE_PAE = true /\ has (get_pg_mode e) PG_MODE_LMA = true.
Proof.
  intros [Hpg Hpae Hlma _ _]. unfold get_pg_mode. rewrite Hpg, Hpae, Hlma. cbn [negb].
  generalize (has (crn e 0) CR0_WP_MASK), (has (efer e) MSR_EFER_NXE), (has (crn e 4) CR4_PSE_MASK),
    (has (crn e 4) CR4_SMEP_MASK), (has (crn e 4) CR4_PKE_MASK), (has (crn e 4) CR4_PKS_MASK),
    (has (crn e 4) CR4_LA57_MASK).
  by intros [] [] [] [] [] [] [].
Qed.

(** The part of the processor state a translation depends on: of the hidden
    flags, all but the privilege level. *)
Record same_paging (e e' : CPUX86State) : Prop := {
  sp_cr : cr e = cr e';
  sp_hflags : Z.shiftr (hflags e) 2 = Z.shiftr (hflags e') 2;
  sp_hflags2 : hflags2 e = hflags2 e';
  sp_efer : efer e = efer e';
  sp_a20 : a20_mask e = a20_mask e';
  sp_phys : phys_bits e = phys_bits e';
  sp_pkru : pkru e = pkru e';
  sp_pkrs : pkrs e = pkrs e';
}.

#[export] Instance same_paging_equiv : Equivalence same_paging.
Proof.
  split.
  - by intros e.
  - by intros e e' [].
  - intros e1 e2 e3 [] []. split; congruence.
Qed.

Lemma same_hflag e e' k : same_paging e e' -> 2 <= k -> has (hflags e) (bit k) = has (hflags e') (bit k).
Proof.
  intros [_ Hh _ _ _ _ _ _] Hk. rewrite !nz_land_bit by lia. replace k with (k - 2 + 2) by lia.
  rewrite <- !Z.shiftr_spec by lia. by rewrite Hh.
Qed.

Lemma same_long e e' : same_paging e e' -> long_mode e -> long_mode e'.
Proof.
  intros H [H1 H2 H3 H4 H5]. pose proof (same_hflag e e' 14 H ltac:(lia)) as E. destruct H. unfold crn in *.
  split; unfold crn; [congruence|congruence|rewrite <- H3; symmetry; exact E|congruence|congruence].
Qed.

Lemma same_pg_mode e e' : same_paging e e' -> get_pg_mode e = get_pg_mode e'.
Proof.
  intros H. pose proof (same_hflag e e' 14 H ltac:(lia)) as E. destruct H as [Hc _ _ Hf _ _ _ _].
  change (bit 14) with HF_LMA_MASK in E. unfold get_pg_mode, crn. by rewrite Hc, E, Hf.
Qed.

Lemma same_a20 e e' : same_paging e e' -> x86_get_a20_mask e = x86_get_a20_mask e'.
Proof.
  intros H. pose proof (same_hflag e e' 19 H ltac:(lia)) as E. destruct H as [_ _ _ _ Ha _ _ _].
  change (bit 19) with HF_SMM_MASK in E. unfold x86_get_a20_mask. by rewrite E, Ha.
Qed.

Lemma same_rsvd e e' pm : same_paging e e' -> rsvd_mask0 e pm = rsvd_mask0 e' pm.
Proof. intros [_ _ _ _ _ Hp _ _]. unfold rsvd_mask0. by rewrite Hp. Qed.

Lemma same_check e e' rsvd va acc idx pm es size : same_paging e e' ->
  ref_check e rsvd va acc idx pm es size = ref_check e' rsvd va acc idx pm es size.
Proof.
  intros H. unfold ref_check, ref_pkr. rewrite (same_a20 _ _ H). destruct H as [_ _ _ _ _ _ Hu Hs]. by rewrite Hu, Hs.
Qed.

(** ** Within a page *)
Lemma page_multiple vp : vp mod 4096 = 0 -> exists k, vp = k * 4096.
Proof. intros H. exists (vp / 4096). pose proof (Z.div_mod vp 4096). lia. Qed.

Lemma pow_page s : 12 <= s -> 2 ^ s = 4096 * 2 ^ (s - 12) /\ 0 < 2 ^ (s - 12).
Proof.
  intros Hs. split; [|apply Z.pow_pos_nonneg; lia].
  change 4096 with (2 ^ 12). rewrite <-Z.pow_add_r by lia. f_equal. lia.
Qed.

Lemma shiftr_page vp off s : vp mod 4096 = 0 -> 0 <= off < 4096 -> 12 <= s ->
  Z.shiftr (vp + off) s = Z.shiftr vp s.
Proof.
  intros [k ->]%page_multiple Ho Hs. rewrite !Z.shiftr_div_pow2 by lia.
  destruct (pow_page s Hs) as [-> Hp]. rewrite <-!Z.div_div by lia. f_equal.
  rewrite Z.div_add_l, Z.div_mul, Z.div_small by lia. lia.
Qed.

Lemma land_page vp off s : vp mod 4096 = 0 -> 0 <= off < 4096 -> 12 <= s ->
  Z.land (vp + off) (2 ^ s - 1) = Z.land vp (2 ^ s - 1) + off.
Proof.
  intros [k ->]%page_multiple Ho Hs. replace (2 ^ s - 1) with (Z.ones s) by (rewrite Z.ones_equiv; lia).
  rewrite !Z.land_ones by lia. destruct (pow_page s Hs) as [-> Hp]. rewrite !Z.rem_mul_r by lia.
  rewrite Z.div_add_l, Z.div_mul, (Z.div_small off), Z.add_0_r by lia.
  rewrite (Z.add_comm _ off), Z.mod_add, Z.mod_small, Z.mod_mul by lia. lia.
Qed.

Lemma ref_walk_off mm a20 rsvd vp off ls : vp mod 4096 = 0 -> 0 <= off < 4096 ->
  Forall (fun l => 12 <= l.1) ls -> forall table es,
  ref_walk mm a20 rsvd (vp + off) table es ls = ref_walk mm a20 rsvd vp table es ls.
Proof.
  intros Hv Ho Hls. induction Hls as [|[s page] ls Hs _ IH]; intros table es; [done|].
  cbn [ref_walk]. rewrite shiftr_page by done. by case_ifs.
Qed.

Lemma ref_walk_size_pow mm a20 rsvd va ls : Forall (fun l => 12 <= l.1) ls -> forall table es es' size,
  ref_walk mm a20 rsvd va table es ls = inr (es', size) -> exists s, 12 <= s /\ size = 2 ^ s.
Proof.
  induction 1 as [|[s page] ls Hs _ IH]; intros table es es' size H; [done|]. cbn [ref_walk] in H.
  destruct (negb _); [done|]. destruct (has _ _); [done|]. destruct (_ || _); [|by eapply IH].
  injection H as <- <-. eauto.
Qed.

Lemma levels_12 pm : Forall (fun l => 12 <= l.1) (levels pm).
Proof. unfold levels. apply Forall_app. split; [case_if|]; repeat constructor; cbn; lia. Qed.

Lemma ref_translate_off c mm cr3 vp off acc idx pm : vp mod 4096 = 0 -> 0 <= off < 4096 ->
  ref_translate c mm cr3 (vp + off) acc idx pm =
  match ref_translate c mm cr3 vp acc idx pm with inl f => inl f | inr (pa, size) => inr (pa + off, size) end.
Proof.
  intros Hv Ho. unfold ref_translate. rewrite ref_walk_off by (done || apply levels_12).
  destruct (ref_walk _ _ _ vp _ _ _) as [f|[es size]] eqn:E; [done|].
  destruct (ref_walk_size_pow _ _ _ _ _ (levels_12 pm) _ _ _ _ E) as (s & Hs & ->).
  unfold ref_check. rewrite land_page by done. case_ifs; try done. by rewrite Z.add_assoc.
Qed.

Lemma clr_page_base x y s : 12 <= s -> Z.land (Z.land x y) (clr PG_ADDRESS_MASK (2 ^ s - 1)) mod 4096 = 0.
Proof.
  intros Hs. change 4096 with (2 ^ 12). rewrite <-Z.land_ones by lia.
  replace (2 ^ s - 1) with (Z.ones s) by (rewrite Z.ones_equiv; lia). bitwise i Hi.
  destruct (Z.ltb_spec i 12); [|by rewrite (Z.ones_spec_high 12), andb_false_r by lia].
  by rewrite (Z.ones_spec_low s), !andb_false_r by lia.
Qed.

Lemma ref_translate_base c mm cr3 vp acc idx pm pp size : vp mod 4096 = 0 ->
  ref_translate c mm cr3 vp acc idx pm = inr (pp, size) -> pp mod 4096 = 0.
Proof.
  intros Hv. unfold ref_translate. destruct (ref_walk _ _ _ vp _ _ _) as [f|[es sz]] eqn:E; [done|].
  destruct (ref_walk_size_pow _ _ _ _ _ (levels_12 pm) _ _ _ _ E) as (s & Hs & ->).
  unfold ref_check. case_ifs; try done. intros [= <- <-]. rewrite Z.add_mod, clr_page_base by lia.
  replace (Z.land vp (2 ^ s - 1) mod 4096) with 0; [done|]. symmetry.
  replace (2 ^ s - 1) with (Z.ones s) by (rewrite Z.ones_equiv; lia). rewrite Z.land_ones by lia.
  destruct (pow_page s Hs) as [-> Hp]. rewrite Z.rem_mul_r, Hv by lia.
  rewrite Z.add_0_l, Z.mul_comm, Z.mod_mul by lia. done.
Qed.

(** ** Pages *)
Definition canonical (e : CPUX86State) (va : Z) : Prop :=
  let sext := Z.shiftr (s64 va) (if has (get_pg_mode e) PG_MODE_LA57 then 56 else 47) in
  sext = 0 \/ sext = -1.

(** The page at [vp] is the physical page [pp] for accesses of kind [acc] made
    with MMU index [idx], and its entries are marked accessed (and dirty). *)
Record page (d : nat) (m : Machine) (acc idx vp pp : Z) : Prop := {
  pg_aligned : vp mod 4096 = 0;
  pg_range : 0 <= vp < 2 ^ 64;
  pg_canonical : canonical (cpu_env d m) vp;
  pg_ref : exists size, ref_translate (cpu_env d m) (mem m) (crn (cpu_env d m) 3) vp acc idx
                          (get_pg_mode (cpu_env d m)) = inr (pp, size);
  pg_settled : settled (cpu_env d m) (mem m) (crn (cpu_env d m) 3) vp acc (get_pg_mode (cpu_env d m));
}.

Lemma page_base d m acc idx vp pp : page d m acc idx vp pp -> pp mod 4096 = 0.
Proof. intros [Ha _ _ [size E] _]. by apply ref_translate_base in E. Qed.

Lemma s64_page vp off : vp mod 4096 = 0 -> 0 <= vp < 2 ^ 64 -> 0 <= off < 4096 -> s64 (vp + off) = s64 vp + off.
Proof.
  intros [k ->]%page_multiple Hr Ho. unfold swrap. cbv zeta. rewrite !Z.mod_small by lia.
  change (2 ^ (64 - 1)) with (2 ^ 51 * 4096). destruct (Z.ltb_spec (k * 4096 + off) (2 ^ 51 * 4096)), (Z.ltb_spec (k * 4096) (2 ^ 51 * 4096)); lia.
Qed.

Lemma s64_aligned vp : vp mod 4096 = 0 -> s64 vp mod 4096 = 0.
Proof.
  intros [k ->]%page_multiple. unfold swrap. cbv zeta.
  change (2 ^ 64) with (2 ^ 52 * 4096). rewrite Z.mul_mod_distr_r by lia.
  case_if; [apply Z.mod_mul; lia|]. rewrite <-Z.mul_sub_distr_r. apply Z.mod_mul. lia.
Qed.

Lemma canonical_off e vp off : vp mod 4096 = 0 -> 0 <= vp < 2 ^ 64 -> 0 <= off < 4096 ->
  canonical e vp -> canonical e (vp + off).
Proof.
  intros Ha Hr Ho. unfold canonical. cbv zeta. rewrite s64_page by done.
  rewrite shiftr_page; [done|by apply s64_aligned|done|case_if; lia].
Qed.

Section access.
  Context (d : nat) (m : Machine) (Hl : long_mode (cpu_env d m)) (Hw : mem_wf (mem m)).

Lemma page_translate acc idx vp pp off : page d m acc idx vp pp -> 0 <= acc <= 2 -> 0 <= off < 4096 ->
  exists size prot,
    mmu_translate d (Some (get_hphys d)) (vp + off) (crn (cpu_env d m) 3) acc idx (get_pg_mode (cpu_env d m)) m
    = Ret (inr (mkXlate (pp + off) size prot)) m /\ has prot (bit acc) = true.
Proof.
  intros [Ha Hr Hc [size Eref] Hset] Hacc Ho. destruct (long_mode_pg _ Hl) as [Hpae Hlma].
  assert (Hn : no_nesting d (Some (get_hphys d)) m) by (right; split; [done|apply Hl]).
  destruct (translate_step d (Some (get_hphys d)) m (crn (cpu_env d m) 3) (vp + off) acc idx
    (get_pg_mode (cpu_env d m)) Hn Hw (lm_cr3 _ Hl) Hacc Hpae Hlma) as (mm' & _ & _ & H).
  change (env (cpus m !!! d)) with (cpu_env d m) in H. rewrite ref_translate_off, Eref in H by done.
  destruct H as (prot & E & Hp & _ & Hsame). exists size, prot. split; [|done].
  rewrite E, Hsame; [by destruct m|]. revert Hset. unfold settled. rewrite ref_walk_off by (done || apply levels_12). done.
Qed.

Lemma page_fill acc idx vp pp off : page d m acc idx vp pp -> 0 <= acc <= 2 -> 0 <= off < 4096 ->
  exists prot, x86_cpu_tlb_fill d (vp + off) acc idx false m = Ret (pp, prot) m.
Proof.
  intros Hp Hacc Ho. destruct (page_translate acc idx vp pp off Hp Hacc Ho) as (size & prot & E & Hb).
  exists prot. unfold x86_cpu_tlb_fill.
  rewrite (bind_Ret _ _ m (Some (pp, prot)) m); [done|]. unfold handle_mmu_fault.
  rewrite (bind_Ret _ _ m (cpu_env d m) m) by done. cbv zeta.
  pose proof (canonical_off _ _ off (pg_aligned _ _ _ _ _ _ Hp) (pg_range _ _ _ _ _ _ Hp) Ho
    (pg_canonical _ _ _ _ _ _ Hp)) as Hc. unfold canonical in Hc. cbv zeta in Hc.
  assert (E1 : negb (Z.shiftr (s64 (vp + off)) (if has (get_pg_mode (cpu_env d m)) PG_MODE_LA57 then 56 else 47) =? 0)
    && negb (Z.shiftr (s64 (vp + off)) (if has (get_pg_mode (cpu_env d m)) PG_MODE_LA57 then 56 else 47) =? -1) = false).
  { destruct Hc as [-> | ->]; done. }
  rewrite <-andb_assoc, E1, andb_false_r. rewrite (lm_pg _ Hl). cbn [negb].
  rewrite (bind_Ret _ _ _ _ _ E). cbn [x_prot xlat]. unfold assert_. rewrite Hb.
  rewrite (bind_Ret _ _ m tt m) by done. cbn [xlat x_prot]. unfold mret, X_ret.
  replace (clr (pp + off) 0xfff) with pp; [done|].
  destruct (page_multiple pp (page_base _ _ _ _ _ _ Hp)) as [k ->].
  change 0xfff with (Z.ones 12). rewrite <-Z.ldiff_land, Z.ldiff_ones_r by lia.
  rewrite Z.shiftr_div_pow2, Z.shiftl_mul_pow2 by lia. change (2 ^ 12) with 4096.
  rewrite Z.div_add_l, Z.div_small by lia. lia.
Qed.

Lemma mod_page vp off : vp mod 4096 = 0 -> 0 <= off < 4096 -> (vp + off) mod TARGET_PAGE_SIZE = off.
Proof.
  intros [k ->]%page_multiple Ho. unfold TARGET_PAGE_SIZE. rewrite Z.add_comm, Z.mod_add, Z.mod_small; lia.
Qed.

Lemma u64_page vp off : vp mod 4096 = 0 -> 0 <= vp < 2 ^ 64 -> 0 <= off < 4096 -> u64 (vp + off) = vp + off.
Proof.
  intros [k ->]%page_multiple Hr Ho. apply wrap_small. unfold is_u. change (2 ^ 64) with (2 ^ 52 * 4096) in *. lia.
Qed.

Lemma st_page n idx vp pp off v : page d m MMU_DATA_STORE idx vp pp -> 0 <= off -> off + Z.of_nat n <= 4096 -> (0 < n)%nat ->
  cpu_st_mmuidx d n (vp + off) v idx m = Ret tt (m <| mem := st n (pp + off) v (mem m) |>).
Proof.
  intros Hp Ho Hn Hpos. pose proof (pg_aligned _ _ _ _ _ _ Hp) as Ha. unfold cpu_st_mmuidx. cbv zeta.
  rewrite u64_page, mod_page by (done || lia || apply Hp).
  destruct (page_fill MMU_DATA_STORE idx vp pp off Hp ltac:(cbv; split; discriminate) ltac:(lia)) as (prot & E). rewrite (bind_Ret _ _ _ _ _ E).
  rewrite (proj2 (Nat.leb_le n _)); [done|]. unfold TARGET_PAGE_SIZE. lia.
Qed.

Lemma ld_page n idx vp pp off : page d m MMU_DATA_LOAD idx vp pp -> 0 <= off -> off + Z.of_nat n <= 4096 -> (0 < n)%nat ->
  cpu_ld_mmuidx d n (vp + off) idx m = Ret (ld n (mem m) (pp + off)) m.
Proof.
  intros Hp Ho Hn Hpos. pose proof (pg_aligned _ _ _ _ _ _ Hp) as Ha. unfold cpu_ld_mmuidx. cbv zeta.
  rewrite u64_page, mod_page by (done || lia || apply Hp).
  destruct (page_fill MMU_DATA_LOAD idx vp pp off Hp ltac:(cbv; split; discriminate) ltac:(lia)) as (prot & E). rewrite (bind_Ret _ _ _ _ _ E).
  rewrite (proj2 (Nat.leb_le n _)); [done|]. unfold TARGET_PAGE_SIZE. lia.
Qed.

Lemma hphys2_page junk vp pp off : page d m MMU_DATA_LOAD MMU_KNOSMAP_IDX vp pp -> 0 <= off < 4096 ->
  get_hphys2 d junk (vp + off) MMU_DATA_LOAD m = Ret (pp + off) m.
Proof.
  intros Hp Ho. destruct (page_translate _ _ _ _ off Hp ltac:(cbv; split; discriminate) Ho) as (size & prot & E & _).
  unfold get_hphys2. rewrite (bind_Ret _ _ m (cpu_env d m) m) by done. by rewrite (bind_Ret _ _ _ _ _ E).
Qed.
End access.

(** ** What keeps pages in place *)

(** The page-table entries the walk for [vp] reads. *)
Definition walk_of (e : CPUX86State) (mm : gmap Z Z) (vp : Z) : list Z :=
  match ref_walk mm (x86_get_a20_mask e) (rsvd_mask0 e (get_pg_mode e)) vp (Z.land (crn e 3) PG_ADDRESS_MASK) []
          (levels (get_pg_mode e)) with
  | inl _ => []
  | inr (es, _) => map fst es
  end.

Lemma ref_walk_agree mm mm' a20 rsvd va ls : forall table es es' size,
  ref_walk mm a20 rsvd va table es ls = inr (es', size) ->
  (forall p, p ∈ es' -> ld 8 mm' p.1 = ld 8 mm p.1) ->
  ref_walk mm' a20 rsvd va table es ls = inr (es', size).
Proof.
  induction ls as [|[s pg] ls IH]; intros table es es' size H Hag; [done|]. cbn [ref_walk] in *.
  set (a := Z.land _ a20) in *.
  assert (Ha : (if negb (has (entry_of mm a) PG_PRESENT_MASK) then False
                else (a, entry_of mm a) ∈ es') -> entry_of mm' a = entry_of mm a).
  { destruct (negb _); [done|]. intros Hin. pose proof (Hag _ Hin) as E. cbn [fst] in E. unfold entry_of. by rewrite E. }
  destruct (negb (has (entry_of mm a) PG_PRESENT_MASK)) eqn:Ep; [done|].
  destruct (has (entry_of mm a) (if pg then rsvd else Z.lor rsvd PG_PSE_MASK)) eqn:Er; [done|].
  destruct ((s =? 12) || (pg && has (entry_of mm a) PG_PSE_MASK)) eqn:Es.
  - injection H as <- <-. rewrite Ha by apply list_elem_of_here. by rewrite Ep, Er, Es.
  - rewrite Ha by (eapply ref_walk_path; [exact H|apply list_elem_of_here]). rewrite Ep, Er, Es. by apply IH.
Qed.

Lemma page_frame d m m' acc idx vp pp : page d m acc idx vp pp -> same_paging (cpu_env d m) (cpu_env d m') ->
  (forall a, a ∈ walk_of (cpu_env d m) (mem m) vp -> ld 8 (mem m') a = ld 8 (mem m) a) ->
  page d m' acc idx vp pp /\ walk_of (cpu_env d m') (mem m') vp = walk_of (cpu_env d m) (mem m) vp.
Proof.
  intros [Ha Hr Hc [size Hf] Hset] Hs Hag. pose proof (same_pg_mode _ _ Hs) as Epm. pose proof (same_a20 _ _ Hs) as Ea.
  pose proof (same_rsvd _ _ (get_pg_mode (cpu_env d m)) Hs) as Er.
  assert (Ec : crn (cpu_env d m') 3 = crn (cpu_env d m) 3) by (unfold crn; by rewrite (sp_cr _ _ Hs)).
  unfold settled, ref_translate, walk_of, canonical in *. rewrite Ec, <-Epm, <-Ea, <-Er.
  destruct (ref_walk (mem m) _ _ vp _ [] _) as [f|[es sz]] eqn:E; [done|].
  assert (Hin : forall p, p ∈ es -> ld 8 (mem m') p.1 = ld 8 (mem m) p.1).
  { intros p Hp. apply Hag. apply list_elem_of_fmap. by exists p. }
  rewrite (ref_walk_agree _ _ _ _ _ _ _ _ _ _ E Hin). split; [|done].
  split; [done|done|by unfold canonical; rewrite <-Epm| |].
  - exists size. unfold ref_translate. rewrite Ec, <-Epm, <-Ea, <-Er, (ref_walk_agree _ _ _ _ _ _ _ _ _ _ E Hin).
    by rewrite <-(same_check _ _ _ _ _ _ _ _ _ Hs).
  - unfold settled. rewrite Ec, <-Epm, <-Ea, <-Er, (ref_walk_agree _ _ _ _ _ _ _ _ _ _ E Hin).
    destruct Hset as [Hacc Hd]. split.
    + intros p Hp. rewrite (Hin _ Hp). by apply Hacc.
    + intros Hw. destruct (ref_walk_nonempty _ _ _ _ _ _ _ _ _ E) as (q & l & ->). cbn [hd] in *.
      rewrite Hin by apply list_elem_of_here. by apply Hd.
Qed.

(** [n] bytes at [a] and the entries of a table list do not meet. *)
Definition off_tables (T : list Z) (a : Z) (n : Z) : Prop := Forall (fun t => t + 8 <= a \/ a + n <= t) T.

Lemma off_tables_sub T a n b k : off_tables T a n -> a <= b -> b + k <= a + n -> off_tables T b k.
Proof. intros H Hb Hk. eapply list.Forall_impl; [exact H|]. cbn. intros t. lia. Qed.

Lemma page_st d m acc idx vp pp n a v : page d m acc idx vp pp ->
  off_tables (walk_of (cpu_env d m) (mem m) vp) a (Z.of_nat n) ->
  let m' := m <| mem := st n a v (mem m) |> in
  page d m' acc idx vp pp /\ walk_of (cpu_env d m') (mem m') vp = walk_of (cpu_env d m) (mem m) vp.
Proof.
  intros Hp Ho m'. apply page_frame; [done|reflexivity|]. intros t Ht.
  change (mem m') with (st n a v (mem m)). apply ld_st_ne.
  eapply list.Forall_forall in Ho; [|exact Ht]. cbn in Ho. lia.
Qed.

(** ** Deciding a page of a concrete machine *)
Definition settledb (c : CPUX86State) (mm : gmap Z Z) (cr3 va acc pg_mode : Z) : bool :=
  match ref_walk mm (x86_get_a20_mask c) (rsvd_mask0 c pg_mode) va (Z.land cr3 PG_ADDRESS_MASK) []
          (levels pg_mode) with
  | inl _ => false
  | inr (es, _) => forallb (fun p => Z.testbit (ld 8 mm p.1) 5) es
                   && (negb (acc =? 1) || Z.testbit (ld 8 mm (hd (0, 0) es).1) 6)
  end.

Lemma settledb_ok c mm cr3 va acc pg_mode : settledb c mm cr3 va acc pg_mode = true -> settled c mm cr3 va acc pg_mode.
Proof.
  unfold settledb, settled. destruct (ref_walk _ _ _ va _ _ _) as [f|[es size]]; [done|].
  intros [Ha Hd]%andb_prop. split.
  - intros p Hp. apply list_elem_of_In in Hp. by apply (proj1 (forallb_forall _ _) Ha).
  - intros ->. exact Hd.
Qed.

Definition pageb (e : CPUX86State) (mm : gmap Z Z) (acc idx vp pp : Z) : bool :=
  let sext := Z.shiftr (s64 vp) (if has (get_pg_mode e) PG_MODE_LA57 then 56 else 47) in
  (vp mod 4096 =? 0) && (0 <=? vp) && (vp <? 2 ^ 64) && ((sext =? 0) || (sext =? -1))
  && match ref_translate e mm (crn e 3) vp acc idx (get_pg_mode e) with inr (p, _) => p =? pp | inl _ => false end
  && settledb e mm (crn e 3) vp acc (get_pg_mode e).

Lemma pageb_ok d m acc idx vp pp : pageb (cpu_env d m) (mem m) acc idx vp pp = true -> page d m acc idx vp pp.
Proof.
  unfold pageb. cbv zeta. rewrite !andb_true_iff, orb_true_iff, Z.ltb_lt, Z.leb_le, !Z.eqb_eq.
  intros (((((Ha & H0) & H1) & Hc) & Hr) & Hs). split; try done.
  - destruct (ref_translate _ _ _ vp _ _ _) as [f|[p size]]; [done|]. apply Z.eqb_eq in Hr as ->. by exists size.
  - by apply settledb_ok.
Qed.

(** A page that may be written may be read. *)
Lemma page_store_load d m idx vp pp : page d m MMU_DATA_STORE idx vp pp -> page d m MMU_DATA_LOAD idx vp pp.
Proof.
  intros [Ha Hr Hc [size Hf] Hs]. split; try done.
  - exists size. revert Hf. unfold ref_translate. destruct (ref_walk _ _ _ vp _ _ _) as [f|[es sz]]; [done|].
    unfold ref_check. destruct (has _ (Z.lor _ _)); [done|]. destruct (_ && _) eqn:Eu; [done|].
    unfold key_allows, allows, MMU_DATA_STORE, MMU_DATA_LOAD. cbn [Z.eqb Pos.eqb].
    destruct (Z.testbit (ref_pkr _ _ _) (2 * _)); cbn [negb andb]; [done|].
    destruct (_ && (_ || _)); cbn [negb]; [done|].
    destruct (negb ((idx =? MMU_KSMAP_IDX) && r_user (rights_of es))); cbn [negb andb]; [|done].
    by destruct (r_write (rights_of es) || _).
  - revert Hs. unfold settled. destruct (ref_walk _ _ _ vp _ _ _) as [f|[es sz]]; [done|]. intros [H _]. by split.
Qed.
