(* ===== verification/UintrFacts.v ===== *)
(** * User interrupts: posting, delivery and return *)
From S2P Require Import Prelude Cpu Pic Machine Apic ApicFacts ApicBus Wiring Cc Mem Exec Mmu MmuFacts ExcFacts Keeps Quiet VMem Uintr Intr.
Import Machine.Apic.

(** ** The shared structures *)
Definition upid_wf (u : uintr_upid) : Prop :=
  is_u 8 (status u) /\ is_u 8 (reserved1 u) /\ is_u 8 (nv u) /\ is_u 8 (reserved2 u) /\
  is_u 32 (ndst u) /\ is_u 64 (puir u).

Lemma ld_is_u n mm a : mem_wf mm -> is_u (8 * Z.of_nat n) (ld n mm a).
Proof.
  intros H. pose proof (ld_range n mm a H) as Hr. unfold is_u.
  rewrite Z.pow_mul_r by lia. change (2 ^ 8) with 256. done.
Qed.

Lemma rd_upid_wf mm a : mem_wf mm -> upid_wf (rd_upid mm a).
Proof.
  intros H. unfold upid_wf, rd_upid. cbn [status reserved1 nv reserved2 ndst puir].
  split_and!; [by apply (ld_is_u 1 mm)..|by apply (ld_is_u 4 mm)|by apply (ld_is_u 8 mm)].
Qed.

Lemma wr_upid_ne n mm a b u : a + 16 <= b \/ b + Z.of_nat n <= a -> ld n (wr_upid a u mm) b = ld n mm b.
Proof. intros H. unfold wr_upid. by rewrite !ld_st_ne by (cbn; lia). Qed.

Lemma wr_upid_wf mm a u : mem_wf mm -> mem_wf (wr_upid a u mm).
Proof. intros H. unfold wr_upid. by repeat apply mem_wf_st. Qed.

Lemma ld_st_word n a v mm : is_u (8 * Z.of_nat n) v -> ld n (st n a v mm) a = v.
Proof.
  intros H. rewrite ld_st_same. apply Z.mod_small. unfold is_u in H. rewrite Z.pow_mul_r in H by lia. done.
Qed.

(** What is written is what is read back. *)
Lemma rd_wr_upid mm a u : upid_wf u -> rd_upid (wr_upid a u mm) a = u.
Proof.
  intros (H1 & H2 & H3 & H4 & H5 & H6). destruct u as [s r1 n r2 nd p]. cbn [status reserved1 nv reserved2 ndst puir] in *.
  unfold rd_upid, wr_upid. cbn [status reserved1 nv reserved2 ndst puir].
  f_equal; repeat (rewrite ld_st_ne by (cbn; lia)); by apply ld_st_word.
Qed.

(** ** Pushing onto a page *)
Fixpoint pushed (a : Z) (vals : list Z) (mm : gmap Z Z) : gmap Z Z :=
  match vals with
  | [] => mm
  | v :: rest => pushed (a - 8) rest (st 8 (a - 8) v mm)
  end.

Lemma pushed_ne n a vals mm b : a <= b \/ b + Z.of_nat n <= a - 8 * Z.of_nat (length vals) ->
  ld n (pushed a vals mm) b = ld n mm b.
Proof.
  revert a mm. induction vals as [|v vals IH]; intros a mm Hb; [done|]. cbn [pushed length] in *.
  rewrite IH by lia. apply ld_st_ne. lia.
Qed.

Lemma pushed_wf a vals mm : mem_wf mm -> mem_wf (pushed a vals mm).
Proof. revert a mm. induction vals as [|v vals IH]; intros a mm H; [done|]. cbn [pushed]. apply IH. by apply mem_wf_st. Qed.

(** The [k]th value pushed, from the top. *)
Lemma pushed_nth a vals mm k v : vals !! k = Some v -> is_u 64 v ->
  ld 8 (pushed a vals mm) (a - 8 * (Z.of_nat k + 1)) = v.
Proof.
  revert a mm k. induction vals as [|w vals IH]; intros a mm k Hk Hv; [done|]. cbn [pushed].
  destruct k as [|k].
  - injection Hk as ->. rewrite pushed_ne by lia. replace (a - 8 * (Z.of_nat 0 + 1)) with (a - 8) by lia.
    by apply (ld_st_word 8).
  - replace (a - 8 * (Z.of_nat (S k) + 1)) with (a - 8 - 8 * (Z.of_nat k + 1)) by lia. by apply IH.
Qed.

Section pushes.
  Context (d : nat).
Abbreviation kidx m := (cpu_mmu_index_kernel (cpu_env d m)).

Lemma pushq_page m vp pp off v : long_mode (cpu_env d m) -> mem_wf (mem m) ->
  page d m MMU_DATA_STORE (kidx m) vp pp -> 8 <= off <= 4096 ->
  PUSHQ d (vp + off) v m = Ret (vp + (off - 8)) (m <| mem := st 8 (pp + off - 8) v (mem m) |>).
Proof.
  intros Hl Hw Hp Ho. unfold PUSHQ. replace (vp + off - 8) with (vp + (off - 8)) by lia.
  rewrite u64_page by (lia || apply Hp). unfold cpu_st_kernel.
  rewrite (bind_Ret _ _ m tt (m <| mem := st 8 (pp + off - 8) v (mem m) |>)); [done|].
  rewrite (bind_Ret _ _ m (cpu_env d m) m) by done.
  replace (pp + off - 8) with (pp + (off - 8)) by lia. apply st_page; (done || lia).
Qed.

Lemma push_all64_page vals : forall m vp pp off, long_mode (cpu_env d m) -> mem_wf (mem m) ->
  page d m MMU_DATA_STORE (kidx m) vp pp -> 8 * Z.of_nat (length vals) <= off <= 4096 ->
  off_tables (walk_of (cpu_env d m) (mem m) vp) (pp + off - 8 * Z.of_nat (length vals)) (8 * Z.of_nat (length vals)) ->
  push_all64 d (vp + off) vals m =
  Ret (vp + (off - 8 * Z.of_nat (length vals))) (m <| mem := pushed (pp + off) vals (mem m) |>).
Proof.
  induction vals as [|v vals IH]; intros m vp pp off Hl Hw Hp Ho Ht; cbn [push_all64 pushed length] in *.
  - replace (off - 8 * Z.of_nat 0) with off by lia. by destruct m.
  - rewrite (bind_Ret _ _ _ _ _ (pushq_page m vp pp off v Hl Hw Hp ltac:(lia))).
    destruct (page_st d m _ _ vp pp 8 (pp + off - 8) v Hp) as [Hp' Ewalk].
    { eapply off_tables_sub; [exact Ht|lia|lia]. }
    set (m1 := m <| mem := st 8 (pp + off - 8) v (mem m) |>) in *.
    rewrite (IH m1 vp pp (off - 8)); [|done|by apply mem_wf_st|exact Hp'|lia|].
    + f_equal; [lia|]. replace (pp + (off - 8)) with (pp + off - 8) by lia. done.
    + rewrite Ewalk. eapply off_tables_sub; [exact Ht|lia|lia].
Qed.
End pushes.

(** ** The end of interrupt *)
Lemma update_irq_mem d m : mem (apic_update_irq d m) = mem m.
Proof. unfold apic_update_irq. by case_ifs. Qed.

Lemma current_update_irq d m : current_cpu (apic_update_irq d m) = current_cpu m.
Proof. unfold apic_update_irq. by case_ifs. Qed.

Lemma update_irq_cpus d k m : is_Some (cpus m !! k) -> is_Some (cpus (apic_update_irq d m) !! k).
Proof.
  intros Hk. unfold apic_update_irq, cpu_interrupt, cpu_reset_interrupt. case_ifs; try done; cbn;
    by apply lookup_alter_is_Some.
Qed.

(** Nothing but memory, the processor [d] and its local APIC differ. *)
Definition untouched (d : nat) (m m' : Machine) : Prop :=
  m' = m <| local_apics := local_apics m' |> <| cpus := cpus m' |> <| mem := mem m' |> <| uintr_recognized := uintr_recognized m' |> /\
  forall k, k <> d -> local_apics m' !! k = local_apics m !! k /\ cpus m' !! k = cpus m !! k.

Lemma untouched_trans d m m1 m2 : untouched d m m1 -> untouched d m1 m2 -> untouched d m m2.
Proof.
  intros [E1 H1] [E2 H2]. split; [rewrite E2, E1 at 1; reflexivity|]. intros k Hk. destruct (H1 k Hk), (H2 k Hk). split; congruence.
Qed.

Lemma untouched_mem d m mm : untouched d m (m <| mem := mm |>).
Proof. split; [by destruct m|done]. Qed.

Lemma untouched_cpu d f m : untouched d m (upd_cpu d f m).
Proof. split; [by destruct m|]. intros k Hk. split; [done|]. by apply lookup_alter_ne. Qed.

Lemma untouched_apic d f m : untouched d m (upd_apic d f m).
Proof. split; [by destruct m|]. intros k Hk. split; [|done]. by apply lookup_alter_ne. Qed.

Lemma untouched_irq d m : untouched d m (apic_update_irq d m).
Proof. unfold apic_update_irq. case_ifs; try apply untouched_cpu. split; [by destruct m|done]. Qed.

(** An edge-triggered interrupt is the highest one in service. *)
Record edge_top (s : APICCommonState) : Prop := {
  et_vapic : vapic_paddr s = 0;
  et_top : 0 <= get_highest_priority_int (isr s);
  et_edge : apic_get_bit (tmr s) (get_highest_priority_int (isr s)) = false;
}.

(** Its EOI concerns the local APIC alone. *)
Lemma clear_eoi_edge `{EoiSink} d s m : local_apics m !! d = Some s -> edge_top s ->
  apic_clear_eoi d m =
  apic_update_irq d (upd_apic d (fun s => s <| isr := apic_reset_bit (isr s) (get_highest_priority_int (isr s)) |>) m).
Proof.
  intros Hs [Hv Ht He]. unfold apic_clear_eoi. rewrite (lookup_total_apic _ _ _ Hs).
  rewrite (proj2 (Z.ltb_ge _ 0)) by done. rewrite He, andb_false_r.
  assert (E : upd_apic d (fun s0 => s0 <| isr := apic_reset_bit (isr s0) (get_highest_priority_int (isr s)) |>) m =
    upd_apic d (fun s => s <| isr := apic_reset_bit (isr s) (get_highest_priority_int (isr s)) |>) m).
  { unfold upd_apic. f_equal. apply map_eq. intros k. destruct (decide (k = d)) as [->|].
    - by rewrite !lookup_alter_eq, Hs.
    - by rewrite !lookup_alter_ne. }
  rewrite E. erewrite sync_vapic_off; [done| |].
  - rewrite lookup_upd_apic, decide_True, Hs by done. done.
  - done.
Qed.

(** ** Delivery *)

(** A processor ready to receive: user mode in long mode, the descriptor [ua]
    and the top of the handler's stack [sp] (physical address [sa]) on pages
    that are present, apart from the page tables and from each other. *)
Record receiver (d : nat) (m : Machine) (ua sp sa : Z) : Prop := {
  rc_long : long_mode (cpu_env d m);
  rc_mem : mem_wf (mem m);
  rc_cpu : is_Some (cpus m !! d);
  rc_current : current_cpu m = Some d;
  rc_cpl : Z.land (hflags (cpu_env d m)) HF_CPL_MASK = 3;
  rc_uif : uintr_uif (cpu_env d m) <> 0;
  rc_upid : exists vp pp off, uintr_pd (cpu_env d m) = vp + off /\ 0 <= off /\ off + 16 <= 4096 /\
    page d m MMU_DATA_LOAD MMU_KNOSMAP_IDX vp pp /\ ua = pp + off;
  rc_sp : sp = uintr_stack (cpu_env d m);
  rc_stack : exists vp pp off, sp = vp + off /\ 32 <= off <= 4096 /\ sa = pp + off /\
    page d m MMU_DATA_STORE (cpu_mmu_index_kernel (cpu_env d m)) vp pp /\
    off_tables (walk_of (cpu_env d m) (mem m) vp) ua 16 /\
    off_tables (walk_of (cpu_env d m) (mem m) vp) (sa - 32) 32;
  rc_apart : ua + 16 <= sa - 32 \/ sa <= ua;
}.

(** The state in which the handler starts: [p] is the set of posted requests. *)
Definition handler_entry (p : Z) (e : CPUX86State) : CPUX86State :=
  set_reg R_ESP (uintr_stack e - 32) e
    <| uintr_rr := clr p (bit (Z.log2 p)) |>
    <| eflags := clr (eflags e) (Z.lor TF_MASK RF_MASK) |>
    <| eip := uintr_handler e |>
    <| uintr_uif := 0 |>.

(** Clearing the highest request with an [int] mask. *)
Lemma clear_top ub p : 0 < p -> Z.log2 p < 32 ->
  Z.land p (u64 (Z.lnot (int_shl1 ub (Z.log2 p)))) = clr p (bit (Z.log2 p)).
Proof.
  intros Hp Hv. pose proof (Z.log2_nonneg p) as H0. set (v := Z.log2 p) in *.
  unfold int_shl1. rewrite (proj2 (Z.ltb_lt v 32)) by done.
  assert (Hpv : p < 2 ^ 32).
  { apply Z.lt_le_trans with (2 ^ (v + 1)); [apply Z.log2_spec; lia|apply Z.pow_le_mono_r; lia]. }
  assert (Hu : is_u 32 p) by (unfold is_u; lia).
  bitwise i Hi. destruct (Z.testbit p i) eqn:Ep; [|done]. cbn [andb].
  pose proof (testbit_true_range 32 p i Hu Ep) as Hr.
  rewrite (proj2 (Z.ltb_lt i 64)) by lia. cbn [andb]. f_equal.
  unfold swrap. cbv zeta. assert (Hb : is_u 32 (bit v)) by (apply is_u_bit; lia).
  rewrite (Z.mod_small (bit v)) by done. case_if; [by rewrite testbit_bit by lia|].
  replace (bit v - 2 ^ 32) with (bit v + (-1) * 2 ^ 32) by lia.
  rewrite <-(Z.mod_pow2_bits_low _ 32) by lia. rewrite Z.mod_add by lia.
  rewrite Z.mod_pow2_bits_low by lia. by rewrite testbit_bit by lia.
Qed.

(** The four pushes of [helper_rrnzero] are [push_all64]. *)
Lemma four_pushes {A} d sp a b c v (k : Z -> X A) m :
  (esp ← PUSHQ d sp a; esp ← PUSHQ d esp b; esp ← PUSHQ d esp c; esp ← PUSHQ d esp v; k esp) m =
  (esp ← push_all64 d sp [a; b; c; v]; k esp) m.
Proof.
  cbn [push_all64]. unfold mbind, X_bind.
  destruct (PUSHQ d sp a m) as [s1 m1| |]; [|done..]. destruct (PUSHQ d s1 b m1) as [s2 m2| |]; [|done..].
  destruct (PUSHQ d s2 c m2) as [s3 m3| |]; [|done..]. by destruct (PUSHQ d s3 v m3).
Qed.

Lemma uintr_stack_u64 e : is_u 64 (uintr_stack e).
Proof. unfold uintr_stack. apply is_u_land; [lia|]. apply wrap_range. lia. Qed.

(** Entering the handler from a machine whose stack page is in place. *)
Lemma rrnzero_step d ub m vp pp off p : long_mode (cpu_env d m) -> mem_wf (mem m) -> is_Some (cpus m !! d) ->
  uintr_rr (cpu_env d m) = p -> 0 < p -> Z.log2 p < 32 ->
  uintr_stack (cpu_env d m) = vp + off -> 32 <= off <= 4096 ->
  page d m MMU_DATA_STORE (cpu_mmu_index_kernel (cpu_env d m)) vp pp ->
  off_tables (walk_of (cpu_env d m) (mem m) vp) (pp + off - 32) 32 ->
  exists m', helper_rrnzero d ub m = Ret tt m' /\
    cpu_env d m' = handler_entry p (cpu_env d m) /\
    mem m' = pushed (pp + off) [reg (cpu_env d m) R_ESP; eflags (cpu_env d m); eip (cpu_env d m); Z.log2 p] (mem m) /\
    local_apics m' = local_apics m /\ current_cpu m' = current_cpu m /\ is_Some (cpus m' !! d) /\ untouched d m m'.
Proof.
  intros Hl Hw Hc <- Hp Hv Hsp Ho Hpg Ht. set (e := cpu_env d m) in *. unfold helper_rrnzero.
  rewrite (bind_Ret _ _ m e m) by done. cbv zeta.
  set (m1 := upd_env d (fun e => set_reg R_ESP (uintr_stack e) e) m).
  rewrite (bind_Ret _ _ m tt m1) by done. rewrite four_pushes, Hsp.
  assert (He1 : cpu_env d m1 = set_reg R_ESP (uintr_stack e) e) by (subst m1; by rewrite cpu_env_upd).
  assert (Hs1 : same_paging e (cpu_env d m1)) by (rewrite He1; by split).
  destruct (page_frame d m m1 _ _ _ _ Hpg Hs1 ltac:(done)) as [Hpg1 Ew1].
  assert (Hk : cpu_mmu_index_kernel (cpu_env d m1) = cpu_mmu_index_kernel e) by (by rewrite He1).
  rewrite (bind_Ret _ _ _ _ _ (push_all64_page d [reg e R_ESP; eflags e; eip e; Z.log2 (uintr_rr e)] m1 vp pp off (same_long _ _ Hs1 Hl) Hw
    ltac:(rewrite Hk; exact Hpg1) ltac:(cbn; lia) ltac:(rewrite Ew1; exact Ht))).
  eexists. split; [reflexivity|].
  assert (Hc1 : is_Some (cpus m1 !! d)) by (by apply cpus_upd_env).
  match goal with |- context [upd_env d ?f ?mm] => set (f1 := f); set (m2 := mm) end.
  split; [|split_and!; try done; [by apply cpus_upd_env|]].
  2: { apply (untouched_trans d m m1 _ (untouched_cpu d _ m)), (untouched_trans d m1 m2 _ (untouched_mem d m1 _)), untouched_cpu. }
  rewrite cpu_env_upd by exact Hc1. change (cpu_env d m2) with (cpu_env d m1). rewrite He1. unfold f1.
  change (uintr_rr (set_reg R_ESP (uintr_stack e) e)) with (uintr_rr e). rewrite clear_top by done.
  unfold handler_entry, set_reg, switch_uif. cbn [length]. rewrite Hsp.
  replace (vp + (off - 8 * Z.of_nat 4)) with (vp + off - 32) by lia.
  cbn -[wrap Z.land Z.lor uintr_stack]. by rewrite list_insert_insert_eq.
Qed.

(** The descriptor once its requests are taken. *)
Definition taken (u : uintr_upid) : uintr_upid :=
  mkUpid (clr (status u) 1) (reserved1 u) (nv u) (reserved2 u) (ndst u) 0.

Lemma do_uintr_step `{EoiSink} d ub junk m ua sp sa s :
  receiver d m ua sp sa -> local_apics m !! d = Some s -> edge_top s ->
  let e := cpu_env d m in
  let u := rd_upid (mem m) ua in
  puir u <> 0 -> Z.log2 (puir u) < 32 ->
  exists m', do_uintr d ub junk m = Ret tt m' /\
    cpu_env d m' = handler_entry (puir u) e /\
    mem m' = pushed sa [reg e R_ESP; eflags e; eip e; Z.log2 (puir u)] (wr_upid ua (taken u) (mem m)) /\
    local_apics m' !! d = Some (s <| isr := apic_reset_bit (isr s) (get_highest_priority_int (isr s)) |>) /\
    current_cpu m' = Some d /\ is_Some (cpus m' !! d) /\ untouched d m m'.
Proof.
  intros Hr Hs He e u Hp Hv. destruct (rc_upid _ _ _ _ _ Hr) as (uvp & upp & uoff & Epd & Hu0 & Hu1 & Hup & Eua).
  destruct (rc_stack _ _ _ _ _ Hr) as (vp & pp & off & Esp & Ho & Esa & Hpg & Hd1 & Hd2).
  pose proof (rc_mem _ _ _ _ _ Hr) as Hw. pose proof (rc_cpu _ _ _ _ _ Hr) as Hc.
  assert (Hp0 : 0 < puir u) by (destruct (rd_upid_wf (mem m) ua Hw) as (_ & _ & _ & _ & _ & [H0 _]); subst u; lia).
  unfold do_uintr. set (m0 := m <| uintr_recognized := true |>).
  rewrite (bind_Ret _ _ m tt m) by (unfold log_apic_id; by rewrite (rc_current _ _ _ _ _ Hr : cpu_get_current_apic m = Some d)).
  rewrite (bind_Ret _ _ m tt m0) by done. rewrite (bind_Ret _ _ m0 e m0) by done.
  assert (Euif : uif_enable e = true) by (apply nz_true, Hr). rewrite Euif. cbn [negb].
  assert (Ecpl : Z.land (hflags e) HF_CPL_MASK = 3) by exact (rc_cpl _ _ _ _ _ Hr). rewrite Ecpl. cbn [Z.eqb Pos.eqb negb].
  rewrite (bind_Ret _ _ m0 ua m0).
  2: { unfold e. rewrite Epd, Eua. apply hphys2_page; [apply Hr|exact Hw| |lia].
       by eapply (page_frame d m m0). }
  rewrite (bind_Ret _ _ m0 u m0) by done. rewrite (proj2 (nz_true _) Hp). cbn [when].
  set (m1 := upd_env d (fun e => e <| uintr_rr := puir u |>) m0). rewrite (bind_Ret _ _ m0 tt m1) by done.
  change (mkUpid (clr (status u) 1) (reserved1 u) (nv u) (reserved2 u) (ndst u) 0) with (taken u).
  set (m2 := m1 <| mem := wr_upid ua (taken u) (mem m1) |>). rewrite (bind_Ret _ _ m1 tt m2) by done.
  unfold helper_clear_eoi. assert (Ecur : cpu_get_current_apic m2 = Some d) by exact (rc_current _ _ _ _ _ Hr).
  set (m3 := apic_clear_eoi d m2). rewrite (bind_Ret _ _ m2 tt m3) by (by rewrite Ecur).
  assert (Em3 : m3 = apic_update_irq d (upd_apic d (fun s => s <| isr := apic_reset_bit (isr s) (get_highest_priority_int (isr s)) |>) m2))
    by (by apply (clear_eoi_edge d s)).
  clearbody m3. assert (He3 : cpu_env d m3 = e <| uintr_rr := puir u |>).
  { rewrite Em3, update_irq_env. change (cpu_env d m1 = e <| uintr_rr := puir u |>). unfold m1. by rewrite cpu_env_upd. }
  assert (Hmem3 : mem m3 = wr_upid ua (taken u) (mem m)) by (by rewrite Em3, update_irq_mem).
  assert (Hs3 : same_paging e (cpu_env d m3)) by (rewrite He3; by split).
  assert (Hc3 : is_Some (cpus m3 !! d)) by (rewrite Em3; by apply update_irq_cpus, cpus_upd_env).
  destruct (page_frame d m m3 _ _ _ _ Hpg Hs3) as [Hpg3 Ew3].
  { intros t Ht. rewrite Hmem3. apply wr_upid_ne. eapply list.Forall_forall in Hd1; [|exact Ht]. cbn in *. lia. }
  destruct (rrnzero_step d ub m3 vp pp off (puir u)) as (m' & E & He' & Hm' & Ha' & Hc' & Hcpu & Hun).
  - apply (same_long e); [exact Hs3|apply Hr].
  - rewrite Hmem3. by apply wr_upid_wf.
  - done.
  - by rewrite He3.
  - done.
  - done.
  - rewrite <-Esp. symmetry. rewrite He3. exact (rc_sp _ _ _ _ _ Hr).
  - done.
  - rewrite He3. exact Hpg3.
  - rewrite Ew3, <-Esa. exact Hd2.
  - exists m'. split; [exact E|]. rewrite He3 in He', Hm'. rewrite Hmem3, <-Esa in Hm'.
    split; [exact He'|]. split; [exact Hm'|]. rewrite Ha', Hc', Em3, apics_update_irq, lookup_upd_apic, decide_True by done.
    change (local_apics m2) with (local_apics m). rewrite Hs. split; [done|].
    split; [rewrite current_update_irq; exact (rc_current _ _ _ _ _ Hr)|]. split; [done|]. apply (untouched_trans d m m3); [|exact Hun].
    rewrite Em3. eapply untouched_trans; [|apply untouched_irq]. eapply untouched_trans; [|apply untouched_apic].
    apply (untouched_trans d m m1); [|apply untouched_mem]. apply (untouched_trans d m m0); [split; [by destruct m|done]|apply untouched_cpu].
Qed.

(** ** From the pending notification to the handler *)
Lemma page_same d m m' acc idx vp pp : cpu_env d m' = cpu_env d m -> mem m' = mem m ->
  page d m acc idx vp pp -> page d m' acc idx vp pp.
Proof. intros He Hm Hp. apply (page_frame d m m'); [done|by rewrite He|by rewrite Hm]. Qed.

Lemma receiver_frame d m m' ua sp sa : cpu_env d m' = cpu_env d m -> mem m' = mem m ->
  current_cpu m' = current_cpu m -> is_Some (cpus m' !! d) -> receiver d m ua sp sa -> receiver d m' ua sp sa.
Proof.
  intros He Hm Hcur Hc [H1 H2 H3 H4 H5 H6 (vp & pp & off & A1 & A2 & A3 & A4 & A5) H8 (vq & pq & oq & B1 & B2 & B3 & B4 & B5) H10].
  split; rewrite ?He, ?Hm, ?Hcur; try done.
  - exists vp, pp, off. do 3 (split; [done|]). split; [by apply (page_same d m)|done].
  - exists vq, pq, oq. do 3 (split; [done|]). split; [by apply (page_same d m)|done].
Qed.

Lemma receiver_apics d m ua sp sa a : receiver d m ua sp sa -> receiver d (m <| local_apics := a |>) ua sp sa.
Proof. intros Hr. apply (receiver_frame d m); [done..|apply Hr|done]. Qed.

(** Taking the notification vector makes it the highest in service. *)
Lemma take_edge_top d s m v : ready d s m -> apic_irq_pending s = v -> 0 < v -> apic_get_bit (tmr s) v = false ->
  edge_top (take v s) /\ get_highest_priority_int (isr (take v s)) = v /\ 0 <= v < 256 /\
  vset (apic_reset_bit (isr (take v s)) v) = vset (isr s) /\ vset (irr (take v s)) = vset (irr s) ∖ {[v]}.
Proof.
  intros Hr <- Hv Ht. destruct (pending_tops s) as [Hb Htop]; [apply Hr..|done|].
  set (v := apic_irq_pending s) in *. pose proof (rd_wf _ _ _ Hr) as Hwf. pose proof (abs_take v s Hwf Hb) as Ha.
  assert (Hisr : vset (isr (take v s)) = vset (isr s) ∪ {[v]}) by (change (l_isr (abs_apic (take v s)) = vset (isr s) ∪ {[v]}); by rewrite Ha).
  assert (Hmax : is_max (vset (isr (take v s))) v).
  { rewrite Hisr. split; [by apply elem_of_union_r, elem_of_singleton|].
    intros w [Hw| ->%elem_of_singleton]%elem_of_union; [|lia]. apply Z.lt_le_incl, Htop, Hw. }
  assert (Hwf' : tab_wf (isr (take v s))) by apply (take_wf v s Hwf Hb).
  pose proof (is_max_highest _ _ Hwf' Hmax) as Eh. split_and!; try done; try lia.
  - split; [apply Hr|lia|]. rewrite Eh. exact Ht.
  - rewrite vset_reset, Hisr by done. apply set_eq. intros w.
    rewrite elem_of_difference, elem_of_union, elem_of_singleton. split; [tauto|].
    intros Hw. specialize (Htop w Hw). intuition lia.
  - change (l_irr (abs_apic (take v s)) = vset (irr s) ∖ {[v]}). by rewrite Ha.
Qed.

(** What interrupt acknowledgement leaves alone. *)
Lemma pic_interrupt_step d s m v : ready d s m -> apic_irq_pending s = v -> 0 < v -> is_Some (cpus m !! d) ->
  exists m', cpu_get_pic_interrupt d m = (v, m') /\ local_apics m' !! d = Some (take v s) /\
    cpu_env d m' = cpu_env d m /\ mem m' = mem m /\ current_cpu m' = current_cpu m /\ is_Some (cpus m' !! d) /\ untouched d m m'.
Proof.
  intros Hr Hv Hpos Hc. destruct (get_interrupt_take d s m v Hr Hv Hpos) as [E Hs]. rewrite E in Hs. cbn [snd] in Hs.
  eexists. split; [|split; [exact Hs|]].
  - unfold cpu_get_pic_interrupt, has_apic. rewrite (rd_slot _ _ _ Hr).
    rewrite bool_decide_true by done. rewrite E. by rewrite (proj2 (Z.leb_le 0 v)) by lia.
  - rewrite update_irq_env, update_irq_mem, current_update_irq. split_and!; try done; [by apply update_irq_cpus|].
    eapply untouched_trans; [apply untouched_apic|apply untouched_irq].
Qed.

Definition regs_wf (e : CPUX86State) : Prop :=
  is_u 64 (reg e R_ESP) /\ is_u 64 (eflags e) /\ is_u 64 (eip e).

Section exec.
  Context `{EoiSink} (d : nat) (ub : Z -> Z) (junk : Z).

Lemma exec_hard m req s v : bare d m -> ready d s m -> apic_irq_pending s = v -> 0 < v -> is_Some (cpus m !! d) ->
  x86_cpu_pending_interrupt req (cpu_env d m) = CPU_INTERRUPT_HARD ->
  exists m', local_apics m' !! d = Some (take v s) /\
    cpu_env d m' = cpu_env d m /\ mem m' = mem m /\ current_cpu m' = current_cpu m /\ is_Some (cpus m' !! d) /\ untouched d m m' /\
    x86_cpu_exec_interrupt d ub junk req m = (do_interrupt_x86_hardirq d ub junk v 1;; mret true) m'.
Proof.
  intros Hb Hr Hv Hpos Hc Hp. set (m1 := cpu_reset_interrupt d (Z.lor CPU_INTERRUPT_HARD CPU_INTERRUPT_VIRQ) m).
  assert (He1 : cpu_env d m1 = cpu_env d m) by (by apply cpu_env_upd_cpu).
  assert (Hc1 : is_Some (cpus m1 !! d)) by (by apply lookup_alter_is_Some).
  assert (Hr1 : ready d s m1) by (by destruct Hr; split).
  destruct (pic_interrupt_step d s m1 v Hr1 Hv Hpos Hc1) as (m' & E & Hs & He & Hm & Hcur & Hc' & Hun).
  exists m'. split_and!; [done|by rewrite He|by rewrite Hm|by rewrite Hcur|done|apply (untouched_trans d m m1); [apply untouched_cpu|exact Hun]|].
  unfold x86_cpu_exec_interrupt. rewrite (bind_Ret _ _ m (cpu_env d m) m) by done. rewrite Hp.
  change (negb (nz CPU_INTERRUPT_HARD)) with false. cbv iota.
  repeat match goal with |- context [CPU_INTERRUPT_HARD =? ?k] =>
    let b := eval vm_compute in (CPU_INTERRUPT_HARD =? k) in change (CPU_INTERRUPT_HARD =? k) with b end.
  cbv iota. unfold mbind at 1, X_bind at 1.
  rewrite (bind_Ret _ _ _ _ _ (intercept_bare _ _ _ _ Hb)). rewrite (bind_Ret _ _ m tt m1) by done.
  by rewrite (bind_Ret _ _ m1 v m') by (by rewrite E).
Qed.

Lemma hardirq_uintr m : bare d m -> has (crn (cpu_env d m) 0) CR0_PE_MASK = true ->
  has (hflags (cpu_env d m)) HF_LMA_MASK = true ->
  forall m', do_uintr d ub junk m = Ret tt m' -> bare d m' ->
  do_interrupt_x86_hardirq d ub junk UINTR_UINV 1 m = Ret tt m'.
Proof.
  intros Hb Hpe Hlma m' E Hb'. unfold do_interrupt_x86_hardirq, do_interrupt_all.
  rewrite (bind_Ret _ _ m (cpu_env d m) m) by done. unfold bare in *. rewrite Hb, Hpe, Hlma. cbn [when].
  rewrite (bind_Ret _ _ m tt m').
  - rewrite (bind_Ret _ _ m' (cpu_env d m') m') by done. by rewrite Hb'.
  - rewrite (bind_Ret _ _ m tt m) by done. exact E.
Qed.
End exec.

(** Reading the frame and the descriptor back. *)
Lemma frame_reads sa ua u vals mm : mem_wf mm -> upid_wf u -> length vals = 4%nat ->
  Forall (is_u 64) vals -> ua + 16 <= sa - 32 \/ sa <= ua ->
  let mm' := pushed sa vals (wr_upid ua u mm) in
  rd_upid mm' ua = u /\ (forall k v, vals !! k = Some v -> ld 8 mm' (sa - 8 * (Z.of_nat k + 1)) = v).
Proof.
  intros Hw Hu Hlen Hv Hd mm'. split.
  - rewrite <-(rd_wr_upid mm ua u Hu) at 1. unfold rd_upid, mm'.
    by rewrite !pushed_ne by (rewrite Hlen; cbn; lia).
  - intros k v Hk. apply pushed_nth; [done|]. eapply Forall_lookup in Hv; done.
Qed.

Lemma taken_wf u : upid_wf u -> upid_wf (taken u).
Proof. intros (H1 & H2). split; [by apply is_u_land; [lia|]|]. split_and!; try apply H2. unfold is_u; cbn; lia. Qed.

Lemma log2_u64 p : is_u 64 p -> is_u 64 (Z.log2 p).
Proof.
  intros [H0 Hp]. split; [apply Z.log2_nonneg|]. destruct (Z.eq_dec p 0) as [->|]; [done|].
  pose proof (proj1 (Z.log2_lt_pow2 p 64 ltac:(lia)) Hp). apply Z.lt_trans with 64; [done|by vm_compute].
Qed.

Lemma exec_delivers `{EoiSink} (d : nat) (ub : Z -> Z) (junk : Z)
    (m : Machine) (req ua sp sa : Z) (s : APICCommonState) :
  let e := cpu_env d m in
  let u := rd_upid (mem m) ua in
  receiver d m ua sp sa -> bare d m -> has (crn e 0) CR0_PE_MASK = true -> regs_wf e ->
  ready d s m -> apic_irq_pending s = UINTR_UINV -> apic_get_bit (tmr s) UINTR_UINV = false ->
  x86_cpu_pending_interrupt req e = CPU_INTERRUPT_HARD ->
  puir u <> 0 -> Z.log2 (puir u) < 32 ->
  exists m' s', x86_cpu_exec_interrupt d ub junk req m = Ret true m' /\
    cpu_env d m' = handler_entry (puir u) e /\
    ld 8 (mem m') (sa - 32) = Z.log2 (puir u) /\ ld 8 (mem m') (sa - 24) = eip e /\
    ld 8 (mem m') (sa - 16) = eflags e /\ ld 8 (mem m') (sa - 8) = reg e R_ESP /\
    rd_upid (mem m') ua = taken u /\
    local_apics m' !! d = Some s' /\ vset (isr s') = vset (isr s) /\
    vset (irr s') = vset (irr s) ∖ {[UINTR_UINV]} /\ s' = s <| irr := irr s' |> <| isr := isr s' |> /\
    untouched d m m' /\
    forall n a, a + Z.of_nat n <= sa - 32 \/ sa <= a -> a + Z.of_nat n <= ua \/ ua + 16 <= a -> ld n (mem m') a = ld n (mem m) a.
Proof.
  intros e u Hr Hb Hpe (Hsp & Hfl & Hip) Hrd Hv Ht Hreq Hp Hlog.
  destruct (exec_hard d ub junk m req s UINTR_UINV Hb Hrd Hv ltac:(done) (rc_cpu _ _ _ _ _ Hr) Hreq)
    as (m1 & Hs1 & He1 & Hm1 & Hcur1 & Hc1 & Hun1 & E1).
  destruct (take_edge_top d s m UINTR_UINV Hrd Hv ltac:(done) Ht) as (Het & Eh & Hv256 & Hisr & Hirr).
  destruct (do_uintr_step d ub junk m1 ua sp sa (take UINTR_UINV s)) as (m' & E & He' & Hm' & Ha' & _ & _ & Hun).
  { by apply (receiver_frame d m). }
  { done. } { done. } { by rewrite Hm1. } { by rewrite Hm1. }
  rewrite Hm1, He1 in *. fold e u in He', Hm'. rewrite Eh in Ha'.
  exists m', (take UINTR_UINV s <| isr := apic_reset_bit (isr (take UINTR_UINV s)) UINTR_UINV |>).
  pose proof (rd_upid_wf (mem m) ua (rc_mem _ _ _ _ _ Hr)) as Hu. fold u in Hu.
  destruct (frame_reads sa ua (taken u) [reg e R_ESP; eflags e; eip e; Z.log2 (puir u)] (mem m)) as [Hrd' Hfr];
    [apply Hr|by apply taken_wf|done| |apply Hr|].
  { do 3 (apply list.Forall_cons; split; [done|]). apply list.Forall_singleton, log2_u64. apply Hu. }
  rewrite <-Hm' in Hrd', Hfr. split_and!; try done.
  - rewrite E1. rewrite (bind_Ret _ _ m1 tt m'); [done|].
    apply hardirq_uintr; unfold bare in *; rewrite ?He1, ?He'; try done. apply Hr.
  - by apply (Hfr 3%nat).
  - by apply (Hfr 2%nat).
  - by apply (Hfr 1%nat).
  - by apply (Hfr 0%nat).
  - by apply (untouched_trans d m m1).
  - intros n a H1 H2. rewrite Hm', pushed_ne by (cbn; lia). apply wr_upid_ne. lia.
Qed.

(** C2. Delivery of a user interrupt, from the interrupt request to the first
    instruction of the handler.  When the notification vector is the interrupt
    the local APIC presents, a processor in user mode with UIF set enters its
    handler with the frame the architecture defines on the handler's stack (the
    vector of the highest posted request, the interrupted instruction pointer,
    flags and stack pointer), UIF clear, the posted descriptor emptied with its
    ON bit clear and its other fields kept; the local APIC has neither the
    notification requested nor in service any more, and its other vectors and
    registers are untouched.  Of memory only the frame and the descriptor have
    changed, and nothing of the other processors, their local APICs and the
    other chips.  The processor is outside an SVM guest, and the posted vectors
    are below 32, where the shifts of the C code are defined. *)
Theorem uintr_delivered `{EoiSink} (d : nat) (ub : Z -> Z) (junk : Z)
    (m : Machine) (req ua sp sa : Z) (s : APICCommonState) :
  let e := cpu_env d m in
  let u := rd_upid (mem m) ua in
  receiver d m ua sp sa -> bare d m -> has (crn e 0) CR0_PE_MASK = true -> regs_wf e ->
  ready d s m -> apic_irq_pending s = UINTR_UINV -> apic_get_bit (tmr s) UINTR_UINV = false ->
  x86_cpu_pending_interrupt req e = CPU_INTERRUPT_HARD ->
  puir u <> 0 -> Z.log2 (puir u) < 32 ->
  exists m' s', x86_cpu_exec_interrupt d ub junk req m = Ret true m' /\
    cpu_env d m' = handler_entry (puir u) e /\
    ld 8 (mem m') (sa - 32) = Z.log2 (puir u) /\ ld 8 (mem m') (sa - 24) = eip e /\
    ld 8 (mem m') (sa - 16) = eflags e /\ ld 8 (mem m') (sa - 8) = reg e R_ESP /\
    rd_upid (mem m') ua = taken u /\
    local_apics m' !! d = Some s' /\ vset (isr s') = vset (isr s) /\
    vset (irr s') = vset (irr s) ∖ {[UINTR_UINV]} /\ s' = s <| irr := irr s' |> <| isr := isr s' |> /\
    untouched d m m' /\
    forall n a, a + Z.of_nat n <= sa - 32 \/ sa <= a -> a + Z.of_nat n <= ua \/ ua + 16 <= a -> ld n (mem m') a = ld n (mem m) a.
Proof. apply exec_delivers. Qed.

(** A receiver for the witnesses: descriptor at 0x20040, stack at 0x30f00,
    vectors 1 and 3 posted. *)
Definition rx_env : CPUX86State :=
  set_reg R_ESP 0x30f00 ex_env
    <| cr := [Z.lor CR0_PE_MASK (Z.lor CR0_WP_MASK CR0_PG_MASK); 0; 0; 0x1000; CR4_PAE_MASK] |>
    <| hflags := Z.lor HF_LMA_MASK (Z.lor HF_CS64_MASK 3) |>
    <| hflags2 := HF2_GIF_MASK |>
    <| eip := 0x402000 |>
    <| uintr_uif := 1 |> <| uintr_pd := 0x20040 |> <| uintr_handler := 0x401000 |>
    <| uintr_stackadjust := 128 |>.
Definition rx_upid : uintr_upid := mkUpid 1 0 UINTR_UINV 0 0x100 10.
Definition rx_apic : APICCommonState := (ex_apic 0) <| irr := apic_set_bit (repeat 0 8) UINTR_UINV |>.
Definition rx_machine : Machine :=
  (ex_machine 1) <| cpus := {[0%nat := mkCPU CPU_INTERRUPT_HARD 0 rx_env]} |>
    <| local_apics := {[0%nat := rx_apic]} |>
    <| mem := wr_upid 0x60040 rx_upid (ex_tables [(0x20, 0x63); (0x30, 0x67)]) |>.

Lemma rx_receiver : receiver 0 rx_machine 0x60040 0x30e80 0x70e80.
Proof.
  split; try done.
  - by apply wr_upid_wf, ex_tables_wf.
  - exists 0x20000, 0x60000, 0x40. split; [done|]. split; [done|]. split; [done|]. split; [|done].
    apply pageb_ok. by vm_compute.
  - exists 0x30000, 0x70000, 0xe80. split; [done|]. split; [done|]. split; [done|]. split; [apply pageb_ok; by vm_compute|].
    split; apply (bool_decide_eq_true_1 _); by vm_compute.
  - left. by vm_compute.
Qed.

Lemma rx_ready : ready 0 rx_apic rx_machine.
Proof.
  constructor; try done.
  - destruct (ex_apic_wf 0); [lia|]. constructor; try done; by apply tab_wf_set.
  - intros v. change (irr rx_apic) with (apic_set_bit (repeat 0 8) UINTR_UINV).
    rewrite vset_single, elem_of_singleton by (unfold UINTR_UINV; lia). unfold UINTR_UINV. lia.
Qed.

Lemma uintr_delivered_witness :
  exists m', @x86_cpu_exec_interrupt no_ioapic 0 (fun _ => 0) 0 CPU_INTERRUPT_HARD rx_machine = Ret true m' /\
    eip (cpu_env 0 m') = 0x401000 /\ ld 8 (mem m') 0x70e60 = 3 /\ uintr_rr (cpu_env 0 m') = 2.
Proof.
  destruct (@uintr_delivered no_ioapic 0 (fun _ => 0) 0 rx_machine CPU_INTERRUPT_HARD
    0x60040 0x30e80 0x70e80 rx_apic) as (m' & s' & E & He & H1 & _).
  - exact rx_receiver.
  - by vm_compute.
  - by vm_compute.
  - repeat split; vm_compute; congruence.
  - exact rx_ready.
  - by vm_compute.
  - by vm_compute.
  - by vm_compute.
  - by vm_compute.
  - by vm_compute.
  - exists m'. split; [exact E|]. rewrite He. split_and!; [by vm_compute| |by vm_compute].
    exact H1.
Defined.

(** ** Returning from the handler *)
Lemma popq_page d m vp pp off : long_mode (cpu_env d m) -> mem_wf (mem m) ->
  page d m MMU_DATA_LOAD (cpu_mmu_index_kernel (cpu_env d m)) vp pp -> 0 <= off -> off + 8 <= 4096 ->
  POPQ d (vp + off) m = Ret (ld 8 (mem m) (pp + off), u64 (vp + off + 8)) m.
Proof.
  intros Hl Hw Hp H0 H1. unfold POPQ, cpu_ld_kernel.
  rewrite (bind_Ret _ _ m (ld 8 (mem m) (pp + off)) m); [done|].
  rewrite (bind_Ret _ _ m (cpu_env d m) m) by done. apply ld_page; (done || lia).
Qed.

(** The state after [uiret] has popped [ip], [fl] and [rsp]. *)
Definition returned (ip fl rsp : Z) (e : CPUX86State) : CPUX86State :=
  set_reg R_ESP rsp e <| eip := ip |>
    <| eflags := Z.lor (clr (eflags e) UIRET_FLAGS) (Z.land fl UIRET_FLAGS) |> <| uintr_uif := 1 |>.

Lemma uiret_step d m vp pp off : long_mode (cpu_env d m) -> mem_wf (mem m) -> is_Some (cpus m !! d) ->
  page d m MMU_DATA_LOAD (cpu_mmu_index_kernel (cpu_env d m)) vp pp ->
  reg (cpu_env d m) R_ESP = vp + off -> 0 <= off -> off + 24 <= 4096 ->
  exists m', helper_uiret d m = Ret tt m' /\
    cpu_env d m' = returned (ld 8 (mem m) (pp + off)) (ld 8 (mem m) (pp + (off + 8))) (ld 8 (mem m) (pp + (off + 16)))
                     (cpu_env d m) /\
    mem m' = mem m /\ local_apics m' = local_apics m.
Proof.
  intros Hl Hw Hc Hp Hsp H0 H1. unfold helper_uiret.
  set (m1 := m <| uintr_in_uiret_called := true |> <| uintr_recognized := false |>).
  rewrite (bind_Ret _ _ m tt m1) by done. rewrite (bind_Ret _ _ m1 (cpu_env d m) m1) by done.
  assert (Hp1 : page d m1 MMU_DATA_LOAD (cpu_mmu_index_kernel (cpu_env d m1)) vp pp) by (by apply (page_same d m)).
  assert (Hu : forall k, 0 <= k < 4096 -> u64 (vp + k) = vp + k) by (intros; apply u64_page; (done || apply Hp)).
  rewrite Hsp. rewrite (bind_Ret _ _ _ _ _ (popq_page d m1 vp pp off Hl Hw Hp1 H0 ltac:(lia))).
  replace (vp + off + 8) with (vp + (off + 8)) by lia. rewrite Hu by lia.
  rewrite (bind_Ret _ _ _ _ _ (popq_page d m1 vp pp (off + 8) Hl Hw Hp1 ltac:(lia) ltac:(lia))).
  replace (vp + (off + 8) + 8) with (vp + (off + 16)) by lia. rewrite Hu by lia.
  rewrite (bind_Ret _ _ _ _ _ (popq_page d m1 vp pp (off + 16) Hl Hw Hp1 ltac:(lia) ltac:(lia))).
  eexists. split; [reflexivity|]. split; [|done]. by rewrite cpu_env_upd.
Qed.

(** What a handler does with its frame before [uiret]: drop the vector. *)
Definition pop_vector (d : nat) (m : Machine) : Machine :=
  upd_env d (fun e => set_reg R_ESP (reg e R_ESP + 8) e) m.

Lemma uiret_flags_restored fl :
  Z.lor (clr (clr fl (Z.lor TF_MASK RF_MASK)) UIRET_FLAGS) (Z.land fl UIRET_FLAGS) = fl.
Proof.
  assert (Hsub : forall i, Z.testbit (Z.lor TF_MASK RF_MASK) i = true -> Z.testbit UIRET_FLAGS i = true).
  { intros i Hi. assert (E : Z.land (Z.lor TF_MASK RF_MASK) UIRET_FLAGS = Z.lor TF_MASK RF_MASK) by done.
    rewrite <-E, Z.land_spec in Hi. by apply andb_prop in Hi as [_ ?]. }
  apply Z.bits_inj'. intros i Hi. specialize (Hsub i).
  rewrite Z.lor_spec, !Z.land_spec, !Z.lnot_spec by done.
  destruct (Z.testbit (Z.lor TF_MASK RF_MASK) i); [rewrite Hsub by done|];
    by destruct (Z.testbit fl i), (Z.testbit UIRET_FLAGS i).
Qed.

Lemma set_reg_same e v w : length (regs e) = 16%nat -> is_u 64 (reg e R_ESP) ->
  <[4%nat := u64 (reg e R_ESP)]> (<[4%nat := w]> (<[4%nat := v]> (regs e))) = regs e.
Proof.
  intros Hl Hu. rewrite !list_insert_insert_eq, wrap_small by done. apply list_insert_id.
  unfold reg. destruct (regs e !! 4%nat) as [x|] eqn:E.
  - f_equal. symmetry. by apply nth_lookup_Some.
  - apply lookup_ge_None in E. lia.
Qed.

Lemma reg_set_esp e v : length (regs e) = 16%nat -> reg (set_reg R_ESP v e) R_ESP = u64 v.
Proof.
  intros Hl. unfold reg. change (regs (set_reg R_ESP v e)) with (<[4%nat := u64 v]> (regs e)).
  change (Z.to_nat R_ESP) with 4%nat. rewrite nth_lookup, list_lookup_insert_eq by lia. done.
Qed.

(** In user mode the index of kernel accesses does not depend on the flags. *)
Lemma index_kernel_user e e' : Z.land (hflags e) HF_CPL_MASK = 3 -> hflags e' = hflags e ->
  cpu_mmu_index_kernel e' = cpu_mmu_index_kernel e.
Proof. intros Hc Hh. unfold cpu_mmu_index_kernel. by rewrite Hh, Hc. Qed.

(** Entering the handler and returning from it is the identity on the rest. *)
Lemma returned_entry e p w : length (regs e) = 16%nat -> is_u 64 (reg e R_ESP) ->
  returned (eip e) (eflags e) (reg e R_ESP) (set_reg R_ESP w (handler_entry p e)) =
  e <| uintr_rr := clr p (bit (Z.log2 p)) |> <| uintr_uif := 1 |>.
Proof.
  intros Hl Hu. pose proof (set_reg_same e (u64 (uintr_stack e - 32)) (u64 w) Hl Hu) as Er.
  pose proof (uiret_flags_restored (eflags e)) as Ef. set (r := reg e R_ESP) in *. clearbody r.
  set (w' := uintr_stack e - 32) in *. unfold returned, handler_entry, set_reg. fold w'. clearbody w'.
  transitivity (e <| regs := <[4%nat := u64 r]> (<[4%nat := u64 w]> (<[4%nat := u64 w']> (regs e))) |>
    <| eflags := Z.lor (clr (clr (eflags e) (Z.lor TF_MASK RF_MASK)) UIRET_FLAGS) (Z.land (eflags e) UIRET_FLAGS) |>
    <| uintr_rr := clr p (bit (Z.log2 p)) |> <| uintr_uif := 1 |>).
  - cbn -[wrap Z.land Z.lor Z.log2]. reflexivity.
  - rewrite Er, Ef. by destruct e.
Qed.

Section roundtrip.
  Context `{EoiSink} (d : nat) (ub : Z -> Z) (junk : Z) (m : Machine) (ua sp sa : Z) (s : APICCommonState).
  Context (Hr : receiver d m ua sp sa) (Hs : local_apics m !! d = Some s) (He : edge_top s).
Let e := cpu_env d m.
Let u := rd_upid (mem m) ua.
  Context (Hwf : regs_wf e) (Hp : puir u <> 0) (Hv : Z.log2 (puir u) < 32).

(** The handler's view: its stack page is where it was, the frame is on it. *)
Lemma in_handler : exists m1, do_uintr d ub junk m = Ret tt m1 /\
  cpu_env d m1 = handler_entry (puir u) e /\ mem_wf (mem m1) /\ is_Some (cpus m1 !! d) /\
  rd_upid (mem m1) ua = taken u /\
  exists vp pp off, uintr_stack e = vp + off /\ 32 <= off <= 4096 /\
    page d m1 MMU_DATA_LOAD (cpu_mmu_index_kernel e) vp pp /\
    ld 8 (mem m1) (pp + (off - 24)) = eip e /\ ld 8 (mem m1) (pp + (off - 24 + 8)) = eflags e /\
    ld 8 (mem m1) (pp + (off - 24 + 16)) = reg e R_ESP.
Proof.
  destruct (do_uintr_step d ub junk m ua sp sa s Hr Hs He Hp Hv) as (m1 & E & He1 & Hm1 & _ & _ & Hc1 & _).
  destruct (rc_stack _ _ _ _ _ Hr) as (vp & pp & off & Esp & Ho & Esa & Hpg & Hd1 & Hd2).
  destruct Hwf as (Hsp & Hfl & Hip). pose proof (rd_upid_wf (mem m) ua (rc_mem _ _ _ _ _ Hr)) as Hu.
  destruct (frame_reads sa ua (taken u) [reg e R_ESP; eflags e; eip e; Z.log2 (puir u)] (mem m)) as [Hrd Hfr];
    [apply Hr|by apply taken_wf|done| |apply Hr|].
  { do 3 (apply list.Forall_cons; split; [done|]). apply list.Forall_singleton, log2_u64. apply Hu. }
  fold e u in He1, Hm1. rewrite <-Hm1 in Hrd, Hfr.
  exists m1. split; [exact E|]. split; [exact He1|]. split; [rewrite Hm1; apply pushed_wf, wr_upid_wf, Hr|].
  split; [done|]. split; [done|]. exists vp, pp, off. split; [rewrite <-Esp; symmetry; apply Hr|]. split; [done|]. split.
  - apply page_store_load. apply (page_frame d m m1); [exact Hpg|rewrite He1; by split|]. intros t Ht. rewrite Hm1.
    eapply list.Forall_forall in Hd1; [|exact Ht]. eapply list.Forall_forall in Hd2; [|exact Ht]. cbn in Hd1, Hd2.
    rewrite pushed_ne by (cbn; lia). apply wr_upid_ne. cbn. lia.
  - rewrite Esa in Hfr. split_and!.
    + rewrite <-(Hfr 2%nat (eip e)) by done. f_equal. lia.
    + rewrite <-(Hfr 1%nat (eflags e)) by done. f_equal. lia.
    + rewrite <-(Hfr 0%nat (reg e R_ESP)) by done. f_equal. lia.
Qed.
End roundtrip.

(** C3. Round trip: after a user interrupt is delivered, a handler that drops the
    vector and executes [uiret] puts the processor back exactly where it was
    interrupted: every register, the flags word, the stack pointer and the
    instruction pointer are the interrupted ones; only the request register has
    changed, and UIF is set. *)
Theorem uintr_roundtrip `{EoiSink} (d : nat) (ub : Z -> Z) (junk : Z) (m : Machine) (ua sp sa : Z)
    (s : APICCommonState) :
  let e := cpu_env d m in
  let u := rd_upid (mem m) ua in
  receiver d m ua sp sa -> local_apics m !! d = Some s -> edge_top s ->
  regs_wf e -> length (regs e) = 16%nat -> puir u <> 0 -> Z.log2 (puir u) < 32 ->
  exists m1 m2, do_uintr d ub junk m = Ret tt m1 /\ helper_uiret d (pop_vector d m1) = Ret tt m2 /\
    cpu_env d m2 = e <| uintr_rr := clr (puir u) (bit (Z.log2 (puir u))) |> <| uintr_uif := 1 |>.
Proof.
  intros e u Hr Hs He Hwf Hlen Hp Hv.
  destruct (in_handler d ub junk m ua sp sa s Hr Hs He Hwf Hp Hv)
    as (m1 & E & He1 & Hw1 & Hc1 & _ & vp & pp & off & Esp & Ho & Hpg & Hip & Hfl & Hrsp).
  fold e u in He1, Hip, Hfl, Hrsp, Esp, Hpg. exists m1.
  assert (Hesp : reg (handler_entry (puir u) e) R_ESP = vp + (off - 32)).
  { change (reg (set_reg R_ESP (uintr_stack e - 32) e) R_ESP = vp + (off - 32)).
    rewrite reg_set_esp, Esp by done. replace (vp + off - 32) with (vp + (off - 32)) by lia. apply u64_page; [apply Hpg..|lia]. }
  set (eh := set_reg R_ESP (vp + (off - 32) + 8) (handler_entry (puir u) e)).
  assert (Heh : cpu_env d (pop_vector d m1) = eh) by (unfold pop_vector; rewrite cpu_env_upd, He1, Hesp by done; done).
  destruct (uiret_step d (pop_vector d m1) vp pp (off - 24)) as (m2 & E2 & He2 & _).
  - rewrite Heh. apply (same_long e); [by split|apply Hr].
  - exact Hw1.
  - by apply cpus_upd_env.
  - assert (Hk : cpu_mmu_index_kernel eh = cpu_mmu_index_kernel e).
    { apply index_kernel_user; [apply Hr|done]. }
    rewrite Heh, Hk. apply (page_frame d m1); [exact Hpg|rewrite Heh, He1; by split|done].
  - rewrite Heh. unfold eh. rewrite reg_set_esp by (etransitivity; [apply length_insert|done]).
    replace (vp + (off - 32) + 8) with (vp + (off - 24)) by lia. apply u64_page; [apply Hpg..|lia].
  - lia.
  - lia.
  - exists m2. split; [exact E|]. split; [exact E2|]. rewrite He2, Heh.
    change (mem (pop_vector d m1)) with (mem m1). rewrite Hip, Hfl, Hrsp.
    by apply returned_entry; [|apply Hwf].
Qed.

(** The notification already in service. *)
Definition rx_serving : Machine :=
  rx_machine <| local_apics := {[0%nat := ex_apic 0 <| isr := apic_set_bit (repeat 0 8) UINTR_UINV |>]} |>.

Lemma uintr_roundtrip_witness :
  exists m1 m2, @do_uintr no_ioapic 0 (fun _ => 0) 0 rx_serving = Ret tt m1 /\
    helper_uiret 0 (pop_vector 0 m1) = Ret tt m2 /\
    cpu_env 0 m2 = rx_env <| uintr_rr := 2 |>.
Proof.
  destruct (@uintr_roundtrip no_ioapic 0 (fun _ => 0) 0 rx_serving 0x60040 0x30e80 0x70e80
    (ex_apic 0 <| isr := apic_set_bit (repeat 0 8) UINTR_UINV |>)) as (m1 & m2 & E1 & E2 & He).
  - exact (receiver_apics _ _ _ _ _ _ rx_receiver).
  - reflexivity.
  - by split; vm_compute.
  - repeat split; vm_compute; congruence.
  - done.
  - by vm_compute.
  - by vm_compute.
  - exists m1, m2. split; [exact E1|]. split; [exact E2|]. rewrite He. by vm_compute.
Defined.
