(* ===== verification/UintrSend.v ===== *)
(** * User interrupts: sending *)
From S2P Require Import Prelude Cpu Pic Machine Apic ApicFacts ApicBus Wiring Cc Mem Exec Mmu MmuFacts ExcFacts VMem Uintr Intr UintrFacts.
Import Machine.Apic.

(** ** A notification to one processor *)
Lemma foreach_single mask code m k s : (k < 256)%nat -> local_apics m !! k = Some s ->
  (forall j, (j < 256)%nat -> apic_get_bit mask (Z.of_nat j) = (Z.of_nat j =? Z.of_nat k)) ->
  foreach_apic mask code m = code k m.
Proof.
  intros Hk Hs Hb. unfold foreach_apic.
  assert (Hskip : forall l m', Forall (fun j => j < 256 /\ j <> k)%nat l ->
    fold_left (fun m j => if apic_get_bit mask (Z.of_nat j) then
      match local_apics m !! j with Some _ => code j m | None => m end else m) l m' = m').
  { induction l as [|j l IH]; intros m' Hl; [done|]. apply list.Forall_cons in Hl as [[Hj Hne] Hl]. cbn [fold_left].
    rewrite Hb by done. destruct (Z.eqb_spec (Z.of_nat j) (Z.of_nat k)); [lia|]. by apply IH. }
  replace (seq 0 256) with (seq 0 k ++ k :: seq (S k) (255 - k)).
  2: { change (k :: seq (S k) (255 - k)) with (seq (0 + k) (S (255 - k))). rewrite <-seq_app. f_equal. lia. }
  rewrite fold_left_app, (Hskip (seq 0 k)).
  2: { apply list.Forall_forall. intros j Hj%elem_of_seq. lia. }
  cbn [fold_left]. rewrite Hb, Z.eqb_refl, Hs by done. apply Hskip.
  apply list.Forall_forall. intros j Hj%elem_of_seq. lia.
Qed.

Lemma send_ipi_unicast n m dest v k s : topology n m -> 0 <= dest < 0xff -> local_apics m !! k = Some s ->
  id s = dest -> send_ipi dest v m = apic_set_irq k v APIC_TRIGGER_EDGE m.
Proof.
  intros Ht Hd Hs Hid. pose proof (topo_lt _ _ _ _ Ht Hs) as Hk. pose proof (topo_bound _ _ Ht).
  assert (E : apic_find_dest dest m = Z.of_nat k).
  { destruct (find_dest_spec n m dest Ht) as [(j & a & -> & Ha & Hj)|[_ Hno]]; [lia| |by destruct (Hno k s)].
    f_equal. symmetry. apply (topo_ids _ _ Ht k j s a); congruence. }
  unfold send_ipi, apic_deliver_irq, apic_get_delivery_bitmask. cbn [Z.eqb].
  rewrite (proj2 (Z.eqb_neq dest 0xff)), E, (proj2 (Z.leb_le 0 (Z.of_nat k))) by lia.
  unfold apic_bus_deliver. change (APIC_DM_FIXED =? APIC_DM_LOWPRI) with false.
  change (APIC_DM_FIXED =? APIC_DM_SMI) with false. change (APIC_DM_FIXED =? APIC_DM_NMI) with false.
  change (APIC_DM_FIXED =? APIC_DM_INIT) with false. cbn [orb Z.eqb APIC_DM_FIXED].
  apply (foreach_single _ (fun j => apic_set_irq j v APIC_TRIGGER_EDGE) m k s); [lia|done|].
  intros j Hj. by rewrite get_set_bit, get_bit_zero by (apply tab_wf_zero || lia).
Qed.

(** ** The posting *)

(** A processor about to execute [senduipi]: index [idx] of its target table is
    the entry at [ta], whose descriptor is at [a]. *)
Record sender (d : nat) (m : Machine) (ri idx ta a : Z) : Prop := {
  sd_long : long_mode (cpu_env d m);
  sd_mem : mem_wf (mem m);
  sd_idx : idx = uitte_index (cpu_env d m) ri;
  sd_size : 0 <= idx <= u32 (uintr_misc (cpu_env d m)) /\ idx < 2 ^ 27;
  sd_uitt : exists vp pp off, Z.shiftl (Z.shiftr (uintr_tt (cpu_env d m)) 3) 3 = vp + off /\ 0 <= off < 4096 /\
    page d m MMU_DATA_LOAD MMU_KNOSMAP_IDX vp pp /\ ta = pp + off + 16 * idx;
  sd_range : is_u 64 ta;
  sd_upid : exists vp pp off, target_upid_addr (rd_uitte (mem m) ta) = vp + off /\ 0 <= off < 4096 /\
    page d m MMU_DATA_LOAD MMU_KNOSMAP_IDX vp pp /\ a = pp + off;
}.

(** The machine after the descriptor is written. *)
Definition posted (ub : Z -> Z) (m : Machine) (ta a : Z) : Machine :=
  m <| mem := wr_upid a (post ub (user_vec (rd_uitte (mem m) ta)) (rd_upid (mem m) a)).1 (mem m) |>.

Lemma senduipi_step d ub junk ri m idx ta a : sender d m ri idx ta a -> is_Some (current_cpu m) ->
  let u := rd_upid (mem m) a in
  helper_senduipi d ub junk ri m =
  Ret tt (if Z.land (status u) 0x11 =? 0
          then send_ipi (u8 (Z.shiftr (ndst u) 8)) (nv u) (posted ub m ta a) else posted ub m ta a).
Proof.
  intros [Hl Hw Hi [Hsz Hb] (vp & pp & off & Ett & Ho & Hp & Eta) Hr (vq & pq & oq & Eup & Hq & Hpq & Ea)] [c Hc] u.
  unfold helper_senduipi. rewrite (bind_Ret _ _ m (cpu_env d m) m) by done. cbv zeta. rewrite <-Hi.
  rewrite (wrap_small 32 idx) by (unfold is_u; lia). rewrite (proj2 (Z.ltb_ge _ _)) by lia. cbn [when].
  rewrite (bind_Ret _ _ m tt m) by done. rewrite Ett.
  rewrite (bind_Ret _ _ _ _ _ (hphys2_page d m Hl Hw junk vp pp off Hp Ho)).
  assert (Eta' : u64 (pp + off + s32 (Z.shiftl idx 4)) = ta).
  { rewrite Z.shiftl_mul_pow2 by lia. rewrite swrap_small by lia. replace (pp + off + idx * 2 ^ 4) with ta by lia. by apply wrap_small. }
  rewrite Eta'. rewrite (bind_Ret _ _ m (rd_uitte (mem m) ta) m) by done. rewrite Eup.
  rewrite (bind_Ret _ _ _ _ _ (hphys2_page d m Hl Hw junk vq pq oq Hpq Hq)). rewrite <-Ea.
  rewrite (bind_Ret _ _ m u m) by done. unfold posted. fold u. unfold post.
  assert (Elog : forall m', current_cpu m' = Some c -> log_apic_id m' = Ret tt m') by (intros m' E; unfold log_apic_id, cpu_get_current_apic; by rewrite E).
  destruct (Z.land (status u) 17 =? 0); (etransitivity; [apply bind_Ret; reflexivity|]; etransitivity; [apply bind_Ret, Elog, Hc|]; reflexivity).
Qed.

(** ** From [senduipi] to the handler *)
Definition requested (v : Z) (s : APICCommonState) : APICCommonState :=
  s <| irr := apic_set_bit (irr s) v |> <| tmr := apic_reset_bit (tmr s) v |>.

Lemma request_interrupt k q m : is_Some (cpus m !! k) -> request k (cpu_interrupt k q m) = Z.lor (request k m) q.
Proof.
  intros [c Hc]. unfold request, cpu_interrupt, upd_cpu. cbn. by rewrite lookup_alter_eq, Hc.
Qed.

(** Requesting an edge interrupt of a processor that is not the running one. *)
Lemma set_irq_remote k v m s c : local_apics m !! k = Some s -> vapic_paddr s = 0 -> is_Some (cpus m !! k) ->
  current_cpu m = Some c -> c <> k ->
  let m' := apic_set_irq k v APIC_TRIGGER_EDGE m in
  local_apics m' !! k = Some (requested v s) /\ mem m' = mem m /\ (forall j, cpu_env j m' = cpu_env j m) /\
  is_Some (cpus m' !! k) /\ request k m' = Z.lor (request k m) CPU_INTERRUPT_POLL /\ current_cpu m' = Some c /\
  pic_master m' = pic_master m /\ isa_pic m' = isa_pic m.
Proof.
  intros Hs Hv Hc Hcur Hne m'. pose proof (set_irq_apics k v APIC_TRIGGER_EDGE s m Hs Hv) as Ha. fold m' in Ha.
  assert (E : exists z f, m' = cpu_interrupt k CPU_INTERRUPT_POLL (upd_apic k f (m <| apic_irq_delivered := z |>))).
  { unfold m', apic_set_irq. cbv zeta. set (m1 := upd_apic k _ _).
    assert (Hs1 : vapic_paddr (local_apics m1 !!! k) = 0).
    { subst m1. unfold upd_apic. cbn. unfold lookup_total, map_lookup_total. by rewrite lookup_alter_eq, Hs. }
    rewrite Hs1. cbn [nz negb Z.eqb]. unfold apic_update_irq.
    assert (Eself : qemu_cpu_is_self k m1 = false).
    { unfold qemu_cpu_is_self. change (current_cpu m1) with (current_cpu m). rewrite Hcur. by apply Nat.eqb_neq. }
    rewrite Eself. cbn [negb]. by eexists _, _. }
  destruct E as (z & f & E). clearbody m'. subst m'. split; [exact Ha|]. split; [done|].
  split; [intros j; by etransitivity; [apply cpu_env_upd_cpu|]|]. split; [by apply lookup_alter_is_Some|].
  split; [by rewrite request_interrupt|]. by rewrite <-Hcur.
Qed.

(** The interrupt the idle APIC then presents. *)
Record idle_apic (s : APICCommonState) : Prop := {
  ia_wf : apic_wf s;
  ia_vapic : vapic_paddr s = 0;
  ia_enabled : nz (Z.land (spurious_vec s) APIC_SV_ENABLE) = true;
  ia_irr : vset (irr s) = ∅;
  ia_isr : vset (isr s) = ∅;
}.

Lemma requested_wf v s : apic_wf s -> 0 <= v < 256 -> apic_wf (requested v s).
Proof. intros [] Hv. constructor; try done; [by apply tab_wf_reset|by apply tab_wf_set]. Qed.

Lemma idle_pending s v : idle_apic s -> 16 <= v < 256 -> ApicFacts.class (tpr s) < ApicFacts.class v ->
  apic_irq_pending (requested v s) = v /\ apic_get_bit (tmr (requested v s)) v = false /\
  vset (irr (requested v s)) = {[v]}.
Proof.
  intros [Hwf Hv Hen Hirr Hisr] Hr Ht.
  assert (Hset : vset (irr (requested v s)) = {[v]}).
  { change (vset (apic_set_bit (irr s) v) = {[v]}). rewrite vset_set, Hirr by (lia || apply Hwf). apply union_empty_l_L. }
  split; [|split; [|done]].
  - destruct (irq_pending_spec (requested v s)) as [[_ E]|[(_ & _ & Hno)|[_ (Hmax & _)]]].
    + apply requested_wf; [done|lia].
    + done.
    + intros w. rewrite Hset, elem_of_singleton. lia.
    + rewrite Hset in E. set_solver.
    + destruct (Hno v). split; [|split; [exact Ht|]].
      * cbn [l_irr abs_apic]. rewrite Hset. split; [by apply elem_of_singleton|]. intros w ->%elem_of_singleton. done.
      * cbn [l_isr abs_apic]. change (isr (requested v s)) with (isr s). rewrite Hisr. set_solver.
    + destruct Hmax as [Hin _]. cbn [l_irr abs_apic] in Hin. rewrite Hset in Hin. by apply elem_of_singleton in Hin.
  - change (apic_get_bit (apic_reset_bit (tmr s) v) v = false).
    rewrite get_reset_bit, Z.eqb_refl, andb_false_r by (lia || apply Hwf). done.
Qed.

(** A processor waiting for a user interrupt: idle, interruptible, and apart
    from the page tables that map its descriptor. *)
Record waiting (k : nat) (m : Machine) (s : APICCommonState) (ua sp sa : Z) : Prop := {
  wt_receiver : receiver k (m <| current_cpu := Some k |>) ua sp sa;
  wt_tables : off_tables (walk_of (cpu_env k m) (mem m)
                (uintr_pd (cpu_env k m) - uintr_pd (cpu_env k m) mod 4096)) ua 16;
  wt_apic : local_apics m !! k = Some s;
  wt_idle : idle_apic s;
  wt_tpr : ApicFacts.class (tpr s) < ApicFacts.class UINTR_UINV;
  wt_pic : apic_accept_pic_intr k m && pic_get_output (pic_master m) = false;
  wt_request : request k m = 0;
  wt_bare : bare k m;
  wt_pe : has (crn (cpu_env k m) 0) CR0_PE_MASK = true;
  wt_regs : regs_wf (cpu_env k m);
  wt_open : x86_cpu_pending_interrupt CPU_INTERRUPT_HARD (cpu_env k m) = CPU_INTERRUPT_HARD;
}.

(** The receiver after another processor has written its descriptor. *)
Lemma receiver_posted k m m' ua sp sa u : receiver k m ua sp sa ->
  off_tables (walk_of (cpu_env k m) (mem m) (uintr_pd (cpu_env k m) - uintr_pd (cpu_env k m) mod 4096)) ua 16 ->
  cpu_env k m' = cpu_env k m -> mem m' = wr_upid ua u (mem m) -> current_cpu m' = current_cpu m ->
  is_Some (cpus m' !! k) -> receiver k m' ua sp sa.
Proof.
  intros [H1 H2 H3 H4 H5 H6 (vp & pp & off & A1 & A2 & A3 & A4 & A5) H8 (vq & pq & oq & B1 & B2 & B3 & B4 & B5 & B6) H10]
    Ht He Hm Hcur Hc.
  assert (Hf : forall acc idx v p, page k m acc idx v p -> off_tables (walk_of (cpu_env k m) (mem m) v) ua 16 ->
    page k m' acc idx v p /\ walk_of (cpu_env k m') (mem m') v = walk_of (cpu_env k m) (mem m) v).
  { intros acc idx v p Hp Ho. apply page_frame; [done|by rewrite He|]. intros t Hin. rewrite Hm. apply wr_upid_ne.
    eapply list.Forall_forall in Ho; [|exact Hin]. cbn in *. lia. }
  assert (Evp : uintr_pd (cpu_env k m) - uintr_pd (cpu_env k m) mod 4096 = vp).
  { rewrite A1. change 4096 with TARGET_PAGE_SIZE. rewrite mod_page by (lia || apply A4). lia. }
  rewrite Evp in Ht. destruct (Hf _ _ _ _ A4 Ht) as [A4' _]. destruct (Hf _ _ _ _ B4 B5) as [B4' Eq].
  split; rewrite ?He, ?Hcur; try done.
  - rewrite Hm. by apply wr_upid_wf.
  - exists vp, pp, off. do 3 (split; [done|]). by split.
  - exists vq, pq, oq. do 3 (split; [done|]). rewrite He in Eq. rewrite Eq. by split.
Qed.

(** An interrupt poll raises the hard interrupt request. *)
Lemma exec_poll `{EoiSink} k ub junk m s : local_apics m !! k = Some s -> vapic_paddr s = 0 ->
  0 < apic_irq_pending s -> current_cpu m = Some k -> is_Some (cpus m !! k) -> request k m = CPU_INTERRUPT_POLL ->
  exists m', x86_cpu_exec_interrupt k ub junk (request k m) m = Ret true m' /\
    local_apics m' = local_apics m /\ cpu_env k m' = cpu_env k m /\ mem m' = mem m /\ current_cpu m' = Some k /\
    is_Some (cpus m' !! k) /\ request k m' = CPU_INTERRUPT_HARD /\ pic_master m' = pic_master m /\ isa_pic m' = isa_pic m.
Proof.
  intros Hs Hv Hp Hcur Hc Hreq. unfold x86_cpu_exec_interrupt. rewrite Hreq.
  rewrite (bind_Ret _ _ m (cpu_env k m) m) by done. cbv zeta.
  change (x86_cpu_pending_interrupt CPU_INTERRUPT_POLL (cpu_env k m)) with CPU_INTERRUPT_POLL.
  change (negb (nz CPU_INTERRUPT_POLL)) with false. cbv iota.
  change (CPU_INTERRUPT_POLL =? CPU_INTERRUPT_POLL) with true. cbv iota.
  set (m1 := cpu_reset_interrupt k CPU_INTERRUPT_POLL m).
  rewrite (bind_Ret _ _ m tt (apic_poll_irq k m1)) by done.
  assert (E : apic_poll_irq k m1 = cpu_interrupt k CPU_INTERRUPT_HARD m1).
  { unfold apic_poll_irq. rewrite (sync_vapic_off k _ m1 s) by done. unfold apic_update_irq, qemu_cpu_is_self.
    change (current_cpu m1) with (current_cpu m). rewrite Hcur, Nat.eqb_refl. cbn [negb].
    change (local_apics m1) with (local_apics m). rewrite (lookup_total_apic _ _ _ Hs).
    by rewrite (proj2 (Z.ltb_lt 0 _)). }
  rewrite E. exists (cpu_interrupt k CPU_INTERRUPT_HARD m1).
  assert (Hc1 : is_Some (cpus m1 !! k)) by (by apply lookup_alter_is_Some).
  split; [done|]. split; [done|]. split; [etransitivity; by apply cpu_env_upd_cpu|]. split; [done|]. split; [done|].
  split; [by apply lookup_alter_is_Some|]. split; [|done]. rewrite request_interrupt by done.
  assert (E1 : request k m1 = 0); [|by rewrite E1].
  destruct Hc as [c Hc]. unfold request in *. unfold m1, cpu_reset_interrupt, upd_cpu. cbn.
  rewrite lookup_alter_eq, Hc. rewrite Hc in Hreq. cbn. by rewrite Hreq.
Qed.

(** The request of a vector the C code can shift by. *)
Lemma post_puir ub vec u : upid_wf u -> 0 <= vec < 31 -> puir (post ub vec u).1 = Z.lor (puir u) (bit vec).
Proof.
  intros (_ & _ & _ & _ & _ & Hpu) Hv. unfold post, int_shl1. rewrite (proj2 (Z.ltb_lt vec 32)) by lia.
  assert (Es : s32 (bit vec) = bit vec).
  { apply swrap_small; [lia|]. rewrite Z.shiftl_1_l. split; [apply Z.le_trans with 0; [lia|apply Z.pow_nonneg; lia]|].
    apply Z.pow_lt_mono_r; lia. }
  assert (Hp : is_u 64 (Z.lor (puir u) (bit vec))) by (apply is_u_lor; [lia|done|apply is_u_bit; lia]).
  rewrite Es, (wrap_small 64) by done. by case_if.
Qed.

Lemma post_wf ub vec u : upid_wf u -> upid_wf (post ub vec u).1.
Proof.
  intros (H1 & H2 & H3 & H4 & H5 & H6). pose proof (wrap_range 64 (Z.lor (puir u) (int_shl1 ub vec)) ltac:(lia)).
  unfold post. case_if; split_and!; try done. cbn [fst status]. apply is_u_lor; [lia|done|by vm_compute].
Qed.

(** What a posting does to the descriptor. *)
Lemma post_spec ub vec u : upid_wf u -> 0 <= vec < 31 -> Z.land (status u) 0x11 = 0 ->
  let u' := (post ub vec u).1 in
  upid_wf u' /\ puir u' = Z.lor (puir u) (bit vec) /\ ndst u' = ndst u /\ nv u' = nv u /\
  taken u' = mkUpid (status u) (reserved1 u) (nv u) (reserved2 u) (ndst u) 0.
Proof.
  intros Hu Hv Hst. pose proof (post_puir ub vec u Hu Hv) as Ep. destruct Hu as (H1 & H2 & H3 & H4 & H5 & H6). revert Ep. unfold post. rewrite Hst. cbn [Z.eqb fst puir ndst nv status].
  intros ->. assert (Hp : is_u 64 (Z.lor (puir u) (bit vec))) by (apply is_u_lor; [lia|done|apply is_u_bit; lia]). split; [|split_and!; try done].
  - split_and!; try done. cbn [status]. apply is_u_lor; [lia|done|by vm_compute].
  - unfold taken. cbn [status reserved1 nv reserved2 ndst]. f_equal. change UPID_ON with (bit 0). change 1 with (bit 0) at 2.
    apply Z.bits_inj'. intros i Hi. rewrite testbit_clr, testbit_set by lia.
    assert (E0 : Z.testbit (Z.land (status u) 0x11) i = false) by (by rewrite Hst, Z.testbit_0_l).
    rewrite Z.land_spec in E0. destruct (Z.eqb_spec i 0) as [->|Hne].
    + change (Z.testbit 17 0) with true in E0. rewrite andb_true_r in E0. by rewrite E0.
    + by destruct (Z.testbit (status u) i).
Qed.

Lemma requested_ready k s m m' v : idle_apic s -> 16 <= v < 256 -> local_apics m !! k = Some s ->
  apic_accept_pic_intr k m && pic_get_output (pic_master m) = false ->
  local_apics m' !! k = Some (requested v s) -> pic_master m' = pic_master m -> isa_pic m' = isa_pic m ->
  ready k (requested v s) m'.
Proof.
  intros Hi Hv Hs Hp Hs' Hpm Hip. destruct Hi as [Hwf Hvp Hen Hirr Hisr]. split; try done.
  - apply requested_wf; [done|lia].
  - rewrite <-Hp, Hpm. unfold apic_accept_pic_intr.
    by rewrite Hs, Hs', Hip.
  - change (irr (requested v s)) with (apic_set_bit (irr s) v). intros w.
    rewrite vset_set, Hirr, elem_of_union, elem_of_singleton by (lia || apply Hwf). intros [?| ->]; [set_solver|lia].
Qed.

Lemma posted_range p vec : is_u 64 p -> p < 2 ^ 32 -> 0 <= vec < 31 ->
  Z.lor p (bit vec) <> 0 /\ Z.log2 (Z.lor p (bit vec)) < 32.
Proof.
  intros [H0 _] Hp Hv. assert (Hb : Z.lor p (bit vec) <> 0).
  { intros [_ E]%Z.lor_eq_0_iff. revert E. rewrite Z.shiftl_1_l. apply Z.pow_nonzero; lia. }
  assert (Hr : is_u 32 (Z.lor p (bit vec))) by (apply is_u_lor; [lia|by split|apply is_u_bit; lia]).
  unfold is_u in Hr. split; [done|]. apply Z.log2_lt_pow2; lia.
Qed.

(** Sending to a waiting processor: what the receiver finds. *)
Lemma send_posts (ub : Z -> Z) (junk : Z) (n d k : nat) (m : Machine) (ri idx ta ua : Z) (s : APICCommonState) :
  let u := rd_upid (mem m) ua in
  sender d m ri idx ta ua -> local_apics m !! k = Some s -> vapic_paddr s = 0 -> is_Some (cpus m !! k) ->
  request k m = 0 -> current_cpu m = Some d -> d <> k -> topology n m ->
  id s = u8 (Z.shiftr (ndst u) 8) -> id s <> 0xff -> Z.land (status u) 0x11 = 0 -> nv u = UINTR_UINV ->
  exists m1, helper_senduipi d ub junk ri m = Ret tt m1 /\
    local_apics m1 !! k = Some (requested UINTR_UINV s) /\
    mem m1 = wr_upid ua (post ub (user_vec (rd_uitte (mem m) ta)) u).1 (mem m) /\
    cpu_env k m1 = cpu_env k m /\ is_Some (cpus m1 !! k) /\ request k m1 = CPU_INTERRUPT_POLL /\
    pic_master m1 = pic_master m /\ isa_pic m1 = isa_pic m.
Proof.
  intros u Hsd Hs Hv Hc Hreq Hcur Hne Htop Hid Hff Hst Hnv.
  pose proof (senduipi_step d ub junk ri m idx ta ua Hsd ltac:(by rewrite Hcur)) as E. cbv zeta in E.
  fold u in E. rewrite Hst, <-Hid, Hnv, Z.eqb_refl in E.
  assert (Ht0 : topology n (posted ub m ta ua)) by (by destruct Htop; split).
  assert (Em0 : mem (posted ub m ta ua) = wr_upid ua (post ub (user_vec (rd_uitte (mem m) ta)) u).1 (mem m)) by reflexivity.
  assert (F : local_apics (posted ub m ta ua) = local_apics m /\ cpus (posted ub m ta ua) = cpus m /\
    current_cpu (posted ub m ta ua) = current_cpu m /\ pic_master (posted ub m ta ua) = pic_master m /\
    isa_pic (posted ub m ta ua) = isa_pic m) by (by split_and!).
  destruct F as (F1 & F2 & F3 & F4 & F5). set (m0 := posted ub m ta ua) in *. clearbody m0.
  rewrite <-F1 in Hs. rewrite <-F2 in Hc. rewrite <-F3 in Hcur.
  rewrite (send_ipi_unicast n m0 (id s) UINTR_UINV k s Ht0) in E; [|split|done|done].
  - destruct (set_irq_remote k UINTR_UINV m0 s d Hs Hv Hc Hcur Hne)
      as (Ha1 & Hm1 & He1 & Hc1 & Hr1 & _ & Hpm1 & Hip1).
    eexists. split; [exact E|]. split; [exact Ha1|]. rewrite Hm1, He1, Hr1, Hpm1, Hip1.
    split; [exact Em0|]. split; [unfold cpu_env; by rewrite F2|]. split; [exact Hc1|]. split; [|by split].
    unfold request in *. rewrite F2, Hreq. reflexivity.
  - rewrite Hid. apply wrap_range. lia.
  - pose proof (wrap_range 8 (Z.shiftr (ndst u) 8) ltac:(lia)) as Hr. rewrite <-Hid in Hr. unfold is_u in Hr. lia.
Qed.

(** C1. A user interrupt from the sending instruction to the receiving handler.
    A processor executes [senduipi] for a table entry whose descriptor belongs to
    another, waiting processor and is not yet notified.  Then the notification
    travels through the local APIC of exactly that processor: when it runs, its
    interrupt poll and its interrupt service bring it into its handler, with the
    frame for the highest posted vector (the one just sent if none was posted
    before) on the handler's stack, and the descriptor as it was before the send,
    its requests taken. *)
Theorem senduipi_delivers `{EoiSink} (ub : Z -> Z) (junk : Z) (n d k : nat) (m : Machine)
    (ri idx ta ua sp sa : Z) (s : APICCommonState) :
  let u := rd_upid (mem m) ua in
  let vec := user_vec (rd_uitte (mem m) ta) in
  let e := cpu_env k m in
  let p := Z.lor (puir u) (bit vec) in
  sender d m ri idx ta ua -> waiting k m s ua sp sa ->
  current_cpu m = Some d -> d <> k -> topology n m ->
  id s = u8 (Z.shiftr (ndst u) 8) -> id s <> 0xff -> Z.land (status u) 0x11 = 0 -> nv u = UINTR_UINV ->
  0 <= vec < 31 -> puir u < 2 ^ 32 ->
  exists m1 m2 m3, helper_senduipi d ub junk ri m = Ret tt m1 /\
    let run := m1 <| current_cpu := Some k |> in
    x86_cpu_exec_interrupt k ub junk (request k run) run = Ret true m2 /\
    x86_cpu_exec_interrupt k ub junk (request k m2) m2 = Ret true m3 /\
    cpu_env k m3 = handler_entry p e /\
    ld 8 (mem m3) (sa - 32) = Z.log2 p /\ ld 8 (mem m3) (sa - 24) = eip e /\
    ld 8 (mem m3) (sa - 16) = eflags e /\ ld 8 (mem m3) (sa - 8) = reg e R_ESP /\
    rd_upid (mem m3) ua = mkUpid (status u) (reserved1 u) (nv u) (reserved2 u) (ndst u) 0.
Proof.
  intros u vec e p Hsd [Hrc Htab Hs Hidle Htpr Hpic Hreq Hb Hpe Hregs Hopen] Hcur Hne Htop Hid Hff Hst Hnv Hvec Hpu.
  pose proof (sd_mem _ _ _ _ _ _ Hsd) as Hw. pose proof (rd_upid_wf (mem m) ua Hw) as Huwf.
  destruct (post_spec ub vec u Huwf Hvec Hst) as (Hu'wf & Epu & End & Env & Etk).
  destruct (send_posts ub junk n d k m ri idx ta ua s Hsd Hs (ia_vapic _ Hidle) (rc_cpu _ _ _ _ _ Hrc) Hreq Hcur Hne Htop
    Hid Hff Hst Hnv) as (m1 & E & Ha1 & Hm1 & He1 & Hc1 & Hr1 & Hpm1 & Hip1).
  fold u vec in Hm1. set (u' := (post ub vec u).1) in *. clearbody u'.
  set (run := m1 <| current_cpu := Some k |>).
  destruct (idle_pending s UINTR_UINV Hidle ltac:(unfold UINTR_UINV; lia) Htpr) as (Hpend & Hedge & Hirr).
  destruct (exec_poll k ub junk run (requested UINTR_UINV s) Ha1) as (m2 & E2 & Ha2 & He2 & Hm2 & Hcur2 & Hc2 & Hr2 & Hpm2 & Hip2).
  { apply Hidle. } { by rewrite Hpend. } { done. } { done. }
  { exact Hr1. }
  assert (Hek : cpu_env k m2 = e) by (rewrite He2; change (cpu_env k m1 = e); by rewrite He1).
  assert (Hmk : mem m2 = wr_upid ua u' (mem m)) by (rewrite Hm2; exact Hm1).
  assert (Hrd2 : rd_upid (mem m2) ua = u') by (rewrite Hmk; by apply rd_wr_upid).
  destruct (exec_delivers k ub junk m2 (request k m2) ua sp sa (requested UINTR_UINV s))
    as (m3 & s3 & E3 & He3 & F1 & F2 & F3 & F4 & Hrd3 & _).
  - by apply (receiver_posted k (m <| current_cpu := Some k |>) m2 ua sp sa u').
  - unfold bare. rewrite Hek. exact Hb.
  - rewrite Hek. exact Hpe.
  - rewrite Hek. exact Hregs.
  - apply (requested_ready k s m m2 UINTR_UINV); [done|unfold UINTR_UINV; lia|done|done|by rewrite Ha2| |].
    + rewrite Hpm2. exact Hpm1.
    + rewrite Hip2. exact Hip1.
  - done.
  - done.
  - rewrite Hek, Hr2. exact Hopen.
  - rewrite Hrd2, Epu. apply (posted_range (puir u) vec); (done || apply Huwf).
  - rewrite Hrd2, Epu. apply (posted_range (puir u) vec); (done || apply Huwf).
  - exists m1, m2, m3. rewrite Hrd2, Epu, Hek, Etk in *. by split_and!.
Qed.

(** Two processors for the witness: the first sends through entry 2 of its
    table at 0x28000, the second waits. *)
Definition tx_env : CPUX86State :=
  set_reg R_EAX 2 rx_env <| uintr_tt := 0x28001 |> <| uintr_misc := 4 |>.
Definition tx_memory : gmap Z Z :=
  wr_upid 0x60040 (mkUpid 0 0 UINTR_UINV 0 0x100 0)
    (st 8 0x68028 0x20040 (st 8 0x68020 0x501 (ex_tables [(0x20, 0x63); (0x28, 0x63); (0x30, 0x67)]))).
Definition tx_machine : Machine :=
  (ex_machine 2) <| cpus := {[0%nat := mkCPU 0 0 tx_env; 1%nat := mkCPU 0 0 rx_env]} |>
    <| mem := tx_memory |>.

Lemma tx_memory_wf : mem_wf tx_memory.
Proof. apply wr_upid_wf, mem_wf_st, mem_wf_st, ex_tables_wf. Qed.

Lemma tx_sender : sender 0 tx_machine 0 2 0x68020 0x60040.
Proof.
  split.
  - by split.
  - exact tx_memory_wf.
  - by vm_compute.
  - by vm_compute.
  - exists 0x28000, 0x68000, 0. split; [by vm_compute|]. split; [done|]. split; [apply pageb_ok; by vm_compute|done].
  - by vm_compute.
  - exists 0x20000, 0x60000, 0x40. split; [by vm_compute|]. split; [done|]. split; [apply pageb_ok; by vm_compute|done].
Qed.

Lemma tx_receiver : receiver 1 (tx_machine <| current_cpu := Some 1%nat |>) 0x60040 0x30e80 0x70e80.
Proof.
  split; try done.
  - exact tx_memory_wf.
  - exists 0x20000, 0x60000, 0x40. split; [done|]. split; [done|]. split; [done|]. split; [|done].
    apply pageb_ok. by vm_compute.
  - exists 0x30000, 0x70000, 0xe80. split; [done|]. split; [done|]. split; [done|]. split; [apply pageb_ok; by vm_compute|].
    split; apply (bool_decide_eq_true_1 _); by vm_compute.
  - left. by vm_compute.
Qed.

Lemma tx_waiting : waiting 1 tx_machine (ex_apic 1) 0x60040 0x30e80 0x70e80.
Proof.
  split.
  - exact tx_receiver.
  - apply (bool_decide_eq_true_1 _). by vm_compute.
  - done.
  - split; [apply ex_apic_wf; lia|done|done|apply vset_zero|apply vset_zero].
  - by vm_compute.
  - by vm_compute.
  - by vm_compute.
  - by vm_compute.
  - by vm_compute.
  - repeat split; vm_compute; congruence.
  - by vm_compute.
Qed.

Lemma senduipi_delivers_witness :
  exists m1 m2 m3, helper_senduipi 0 (fun _ => 0) 0 0 tx_machine = Ret tt m1 /\
    @x86_cpu_exec_interrupt no_ioapic 1 (fun _ => 0) 0 (request 1 m2) m2 = Ret true m3 /\
    eip (cpu_env 1 m3) = 0x401000 /\ ld 8 (mem m3) 0x70e60 = 5.
Proof.
  destruct (@senduipi_delivers no_ioapic (fun _ => 0) 0 2 0 1 tx_machine 0 2 0x68020 0x60040 0x30e80 0x70e80
    (ex_apic 1)) as (m1 & m2 & m3 & E1 & _ & E3 & He & Hf & _).
  - exact tx_sender.
  - exact tx_waiting.
  - reflexivity.
  - discriminate.
  - destruct (ex_machine_topology 2 ltac:(lia)). by split.
  - by vm_compute.
  - by vm_compute.
  - by vm_compute.
  - by vm_compute.
  - by vm_compute.
  - by vm_compute.
  - exists m1, m2, m3. split; [exact E1|]. split; [exact E3|]. rewrite He. split; [by vm_compute|exact Hf].
Defined.
