(* ===== verification/KeepsMem.v ===== *)
(** * Invariants across memory accesses

    What an access through the page tables does to a processor is record the
    fault it raises: an invariant that looks at neither the exception nor CR2 is
    kept. *)
From S2P Require Import Prelude Cpu Machine Exec Mmu ExcFacts Keeps.

Definition cr2_blind (I : CPUX86State -> Prop) : Prop := forall e v, I e -> I (e <| cr := <[2%nat := v]> (cr e) |>).

Section mem.
  Context (k d : nat) (I : CPUX86State -> Prop) (Hb : exception_blind I) (Hc : cr2_blind I).

Lemma keeps_abort {A} : keeps k I (cpu_abort (A := A)).
Proof. by intros m. Qed.
Lemma keeps_assert b : keeps k I (assert_ b).
Proof. destruct b; [apply keeps_ret|apply keeps_abort]. Qed.
Lemma keeps_phys_ld n a : keeps k I (phys_ld n a).
Proof. apply keeps_gets. Qed.
Lemma keeps_phys_st n a v : keeps k I (phys_st n a v).
Proof. by apply keeps_modify. Qed.
#[local] Hint Extern 2 (keeps _ _ (mod_env _ _)) => (apply keeps_mod_env; solve [auto]) : keeps.
#[local] Hint Resolve keeps_abort keeps_assert keeps_phys_ld keeps_phys_st : keeps.
#[local] Hint Extern 1 (keeps _ _ (x86_ldl_phys _)) => (apply keeps_phys_ld) : keeps.
#[local] Hint Extern 1 (keeps _ _ (x86_stl_phys_notdirty _ _)) => (apply keeps_phys_st) : keeps.

Lemma keeps_wbind {A B} (x : walk A) (f : A -> walk B) : keeps k I x -> (forall a, keeps k I (f a)) -> keeps k I (wbind f x).
Proof. intros Hx Hf. apply keeps_bind; [done|]. intros [c|a]; [apply keeps_ret|apply Hf]. Qed.

(** The second level keeps it. *)
Definition hp_keeps (hp : option MMUTranslateFunc) : Prop :=
  forall g a p, keeps k I (GET_HPHYS hp g a p).

Ltac walk_step :=
  lazymatch goal with
  | |- keeps _ _ (wbind _ _) => apply keeps_wbind; [|intros ?]
  | |- keeps _ _ (let '(_, _) := ?p in _) => destruct p
  | |- keeps _ _ (match ?t with Leaf _ => _ | Table _ _ _ => _ end) => destruct t
  | |- keeps _ _ (wlift _) => unfold wlift; apply keeps_bind; [|intros ?]
  | |- keeps _ _ (wret _) => apply keeps_ret
  | |- keeps _ _ (wfault _) => apply keeps_ret
  | _ => keeps_step
  end.
Ltac walk_steps := repeat walk_step.

Section walks.
  Context (hp : option MMUTranslateFunc) (Hhp : hp_keeps hp).
  #[local] Hint Resolve Hhp : keeps.

Lemma keeps_touch a e : keeps k I (touch a e).
Proof. unfold touch. cbv zeta. walk_steps. Qed.
#[local] Hint Resolve keeps_touch : keeps.

Lemma keeps_entry64 a mask : keeps k I (entry64 hp a mask).
Proof. unfold entry64. walk_steps. Qed.
#[local] Hint Resolve keeps_entry64 : keeps.

Lemma keeps_pml5 cr3 addr mode r a20 : keeps k I (walk_pml5 hp cr3 addr mode r a20).
Proof. unfold walk_pml5. walk_steps. Qed.
Lemma keeps_pml4 e p addr r a20 : keeps k I (walk_pml4 hp e p addr r a20).
Proof. unfold walk_pml4. cbv zeta. walk_steps. Qed.
Lemma keeps_pd pdpe p r addr a20 : keeps k I (walk_pd hp pdpe p r addr a20).
Proof. unfold walk_pd. cbv zeta. walk_steps. Qed.
#[local] Hint Resolve keeps_pml5 keeps_pml4 keeps_pd : keeps.

Lemma keeps_pae cr3 addr mode r a20 : keeps k I (walk_pae hp cr3 addr mode r a20).
Proof. unfold walk_pae, walk_pdpt_long, walk_pdpt_pae, walk_rest. cbv zeta. walk_steps. Qed.
Lemma keeps_legacy cr3 addr mode a20 : keeps k I (walk_legacy hp cr3 addr mode a20).
Proof. unfold walk_legacy. cbv zeta. walk_steps. Qed.
#[local] Hint Resolve keeps_pae keeps_legacy : keeps.

Lemma keeps_set_ad l w : keeps k I (set_ad l w).
Proof. unfold set_ad. cbv zeta. walk_steps. Qed.
#[local] Hint Resolve keeps_set_ad : keeps.
Lemma keeps_finish l addr w prot a20 : keeps k I (finish hp l addr w prot a20).
Proof. unfold finish. cbv zeta. walk_steps. Qed.
#[local] Hint Resolve keeps_finish : keeps.
Lemma keeps_key_check prot pkr pte u mode w : keeps k I (key_check prot pkr pte u mode w).
Proof. unfold key_check. cbv zeta. walk_steps. Qed.
#[local] Hint Resolve keeps_key_check : keeps.
Lemma keeps_check_protect l addr w mmu_idx mode a20 : keeps k I (check_protect d hp l addr w mmu_idx mode a20).
Proof. unfold check_protect. cbv zeta. walk_steps. Qed.
#[local] Hint Resolve keeps_check_protect : keeps.

Lemma keeps_translate addr cr3 w mmu_idx mode : keeps k I (mmu_translate d hp addr cr3 w mmu_idx mode).
Proof. unfold mmu_translate. cbv zeta. walk_steps. destruct a0; apply keeps_ret. Qed.
End walks.

Lemma hp_none : hp_keeps None.
Proof. intros g a p. apply keeps_ret. Qed.

Lemma keeps_get_hphys g a p : keeps k I (get_hphys d g a p).
Proof.
  unfold get_hphys. walk_steps; [apply keeps_translate, hp_none|]. destruct a1 as [c|x]; walk_steps.
Qed.
Lemma hp_get_hphys : hp_keeps (Some (get_hphys d)).
Proof. intros g a p. apply keeps_get_hphys. Qed.

Lemma keeps_get_hphys2 junk g a : keeps k I (get_hphys2 d junk g a).
Proof. unfold get_hphys2. walk_steps. apply keeps_translate, hp_get_hphys. Qed.

Lemma keeps_handle_mmu_fault addr w mmu_idx : keeps k I (handle_mmu_fault d addr w mmu_idx).
Proof.
  unfold handle_mmu_fault. cbv zeta.
  assert (Hx : forall b n, keeps k I (mod_env d (fun e => e <| error_code := b |> <| exception_index := n |>))).
  { intros b n. apply keeps_mod_env. intros e H. apply blind_index; [done|]. apply (Hb e 0 b 0 0 0 H). }
  walk_steps; [apply keeps_translate, hp_get_hphys|]. destruct a0 as [c|x]; walk_steps.
Qed.

Lemma keeps_tlb_fill addr w mmu_idx probe : keeps k I (x86_cpu_tlb_fill d addr w mmu_idx probe).
Proof. unfold x86_cpu_tlb_fill, raise_exception_err. walk_steps. apply keeps_handle_mmu_fault. Qed.
#[local] Hint Resolve keeps_tlb_fill : keeps.

Lemma keeps_ld_mmuidx n a mmu_idx : keeps k I (cpu_ld_mmuidx d n a mmu_idx).
Proof. unfold cpu_ld_mmuidx. cbv zeta. walk_steps. Qed.
Lemma keeps_st_mmuidx n a v mmu_idx : keeps k I (cpu_st_mmuidx d n a v mmu_idx).
Proof. unfold cpu_st_mmuidx. cbv zeta. walk_steps. Qed.
#[local] Hint Resolve keeps_ld_mmuidx keeps_st_mmuidx : keeps.

Lemma keeps_ld_kernel n a : keeps k I (cpu_ld_kernel d n a).
Proof. unfold cpu_ld_kernel. walk_steps. Qed.
Lemma keeps_st_kernel n a v : keeps k I (cpu_st_kernel d n a v).
Proof. unfold cpu_st_kernel. walk_steps. Qed.
End mem.
#[export] Hint Resolve keeps_abort keeps_assert keeps_phys_ld keeps_phys_st keeps_get_hphys keeps_get_hphys2
  keeps_ld_kernel keeps_st_kernel : keeps.
#[export] Hint Extern 1 (keeps _ _ (x86_ldl_phys _)) => (apply keeps_phys_ld) : keeps.
#[export] Hint Extern 1 (keeps _ _ (x86_lduw_phys _)) => (apply keeps_phys_ld) : keeps.
#[export] Hint Extern 1 (keeps _ _ (x86_stl_phys _ _)) => (apply keeps_phys_st) : keeps.
