(* ===== verification/Sync.v ===== *)
(** * The cached flags agree with the registers they are cached from

    [hflags] repeats bits of CR0, CR4, EFER and the segment registers, so that
    the translator need not look at them.  Every helper of every processor keeps
    the copy right. *)
From S2P Require Import Prelude Cpu Machine Apic ApicFacts Wiring Cc Exec Mmu ExcFacts.
From S2P Require Import Bpt Ctl Svm Smm Seg Uintr Intr Vmrun Msr Far.

(** The cached bits: position in [hflags], and the bit it repeats.  Bits 0 and 1
    are the privilege level, the DPL of SS. *)
Definition mirrored (e : CPUX86State) : list (Z * bool) :=
  [(0, Z.testbit (flags (seg e R_SS)) 13); (1, Z.testbit (flags (seg e R_SS)) 14);
   (7, Z.testbit (crn e 0) 0); (9, Z.testbit (crn e 0) 1); (10, Z.testbit (crn e 0) 2); (11, Z.testbit (crn e 0) 3);
   (14, Z.testbit (efer e) 10); (20, Z.testbit (efer e) 12);
   (22, Z.testbit (crn e 4) 9); (23, Z.testbit (crn e 4) 21); (27, Z.testbit (crn e 4) 11)].

(** All but the mode of the code segment. *)
Record mirrors (e : CPUX86State) : Prop := {
  mi_cr : length (cr e) = 5%nat;
  mi_segs : length (segs e) = 6%nat;
  mi_bits : Forall (fun '(k, b) => Z.testbit (hflags e) k = b) (mirrored e);
}.

(** 64-bit mode is only cached in long mode with a 64-bit code segment. *)
Definition cs64_ok (e : CPUX86State) : Prop :=
  Z.testbit (hflags e) 15 = true -> Z.testbit (hflags e) 14 = true /\ Z.testbit (flags (seg e R_CS)) 21 = true.

Definition hflags_sync (e : CPUX86State) : Prop := mirrors e /\ cs64_ok e.

(** ** Bits *)

(** Decide a goal on one bit [k] of a word built by the C operators. *)
Ltac one_bit :=
  autorewrite with bits;
  repeat match goal with
  | |- context [?a =? ?b] => destruct (Z.eqb_spec a b); [try lia|]
  end;
  rewrite ?orb_false_r, ?andb_true_r, ?andb_false_r; cbn [negb orb andb]; rewrite ?orb_false_r, ?andb_true_r, ?andb_false_r;
  try done; try lia.

Lemma bndcs_bit e k : 0 <= k -> k <> 25 -> Z.testbit (hflags (cpu_sync_bndcs_hflags e)) k = Z.testbit (hflags e) k.
Proof.
  intros H0 H. unfold cpu_sync_bndcs_hflags. cbv zeta.
  set (b := _ && _ && _). clearbody b. change (Z.testbit (if b then Z.lor (hflags e) HF_MPX_EN_MASK else clr (hflags e) HF_MPX_EN_MASK) k = Z.testbit (hflags e) k).
  unfold HF_MPX_EN_MASK. case_if; one_bit.
Qed.

(** A segment load changes the mode, the privilege level and the bits the code
    segment and the bases determine. *)
Definition load_bit (r f : Z) (e : CPUX86State) (k : Z) : bool :=
  if (r =? R_CS) && (k =? 15) then Z.testbit (hflags e) 14 && Z.testbit f 21
  else if (r =? R_SS) && (k <? 2) then Z.testbit f (13 + k)
  else Z.testbit (hflags e) k.

Lemma testbit_shifted_bit x a n k : 0 <= k -> 0 <= n -> 0 <= a -> k + n <> a ->
  Z.testbit (Z.shiftr (Z.land x (bit a)) n) k = false.
Proof.
  intros. rewrite Z.shiftr_spec, Z.land_spec, testbit_bit by lia. destruct (Z.eqb_spec (k + n) a); [lia|]. apply andb_false_r.
Qed.

Lemma testbit_b2z_6 (b : bool) k : 0 <= k -> k <> 6 -> Z.testbit (Z.shiftl (b2z b) 6) k = false.
Proof. intros H0 H. destruct b; cbn [b2z]; [|apply Z.testbit_0_l]. rewrite testbit_bit by lia. by apply Z.eqb_neq. Qed.

(** The last stage recomputes the size of the stack and the use of the bases. *)
Lemma load_final_bit hf a b new k : 0 <= k -> k <> 5 -> k <> 6 ->
  Z.testbit new k = false -> a = HF_SS32_MASK -> b = HF_ADDSEG_MASK ->
  Z.testbit (Z.lor (clr hf (Z.lor a b)) new) k = Z.testbit hf k.
Proof. intros H0 H5 H6 Hn -> ->. unfold HF_SS32_MASK, HF_ADDSEG_MASK. rewrite Z.lor_spec, Hn. one_bit. Qed.

(** The first stage: CS. *)
Lemma load_cs_bit hf f fl k : 0 <= k -> k <> 4 -> k <> 5 -> k <> 6 ->
  Z.testbit (if nz (Z.land hf HF_LMA_MASK) && nz (Z.land f DESC_L_MASK)
             then clr (Z.lor hf (Z.lor (Z.lor HF_CS32_MASK HF_SS32_MASK) HF_CS64_MASK)) HF_ADDSEG_MASK
             else Z.lor (clr hf (Z.lor HF_CS32_MASK HF_CS64_MASK)) (Z.shiftr (Z.land fl DESC_B_MASK) (22 - 4))) k
  = if k =? 15 then Z.testbit hf 14 && Z.testbit f 21 else Z.testbit hf k.
Proof.
  intros H0 H4 H5 H6. unfold HF_LMA_MASK, DESC_L_MASK. rewrite !nz_land_bit by lia.
  unfold HF_CS32_MASK, HF_SS32_MASK, HF_CS64_MASK, HF_ADDSEG_MASK, DESC_B_MASK.
  destruct (Z.testbit hf 14 && Z.testbit f 21); [|rewrite (Z.lor_spec _ (Z.shiftr _ _)), testbit_shifted_bit by lia]; destruct (Z.eqb_spec k 15); subst; one_bit.
Qed.

Lemma load_seg_bit r s b l f e k : 0 <= k -> k <> 4 -> k <> 5 -> k <> 6 -> k <> 25 ->
  Z.testbit (hflags (cpu_x86_load_seg_cache r s b l f e)) k = load_bit r f e k.
Proof.
  intros H0 H4 H5 H6 H25. unfold cpu_x86_load_seg_cache. cbv zeta.
  set (e1 := if r =? R_CS then _ else _). set (e2 := if r =? R_SS then _ else _).
  lazymatch goal with |- Z.testbit (hflags (set_field hflags ?v _)) k = ?r => change (Z.testbit v k = r) end.
  rewrite load_final_bit; try done; cycle 1.
  { unfold DESC_B_MASK. case_if; [by apply testbit_shifted_bit; lia|]. case_if; rewrite Z.lor_spec, testbit_shifted_bit by lia; cbn [orb].
    - unfold HF_ADDSEG_MASK. one_bit.
    - by apply testbit_b2z_6. }
  assert (H1 : Z.testbit (hflags e1) k = if (r =? R_CS) && (k =? 15) then Z.testbit (hflags e) 14 && Z.testbit f 21 else Z.testbit (hflags e) k).
  { subst e1. destruct (r =? R_CS); [|done]. cbn [andb]. rewrite <- (load_cs_bit _ f (flags (seg (e <| segs := <[Z.to_nat r:={| selector := u32 s; base := u64 b; limit := u32 l; flags := u32 f |}]> (segs e) |>) R_CS)) k H0 H4 H5 H6).
    change (hflags (e <| segs := ?x |>)) with (hflags e). case_if; reflexivity. }
  subst e2. unfold load_bit. destruct (Z.eqb_spec r R_SS) as [->|Hr]; cbn [andb].
  - rewrite bndcs_bit by done. clearbody e1. change (R_SS =? R_CS) with false in *. cbn [andb] in *.
    change (Z.testbit (Z.lor (clr (hflags e1) HF_CPL_MASK) (Z.land (Z.shiftr f 13) 3)) k = if k <? 2 then Z.testbit f (13 + k) else Z.testbit (hflags e) k).
    change HF_CPL_MASK with 3. rewrite <- H1, Z.lor_spec, !Z.land_spec, Z.lnot_spec, Z.shiftr_spec by lia.
    change 3 with (Z.ones 2). rewrite Z.testbit_ones_nonneg by lia. replace (k + 13) with (13 + k) by lia. 
    case_match; cbn [negb]; by rewrite ?andb_false_r, ?andb_true_r, ?orb_false_r.
  - exact H1.
Qed.

Lemma load_seg_frame r s b l f e :
  let e' := cpu_x86_load_seg_cache r s b l f e in
  cr e' = cr e /\ efer e' = efer e /\
  segs e' = <[Z.to_nat r := mkSeg (u32 s) (u64 b) (u32 l) (u32 f)]> (segs e).
Proof. unfold cpu_x86_load_seg_cache, cpu_sync_bndcs_hflags. cbv zeta. case_ifs; repeat split; reflexivity. Qed.

(** ** The invariant *)

(** The positions the invariant speaks about. *)
Definition tracked : list Z := [0; 1; 7; 9; 10; 11; 14; 20; 22; 23; 27].

(** Opens a goal or a hypothesis on the mirrored bits. *)
Ltac open_bits H := unfold mirrored in H; rewrite !list.Forall_cons in H; destruct H as (B0 & B1 & B7 & B9 & B10 & B11 & B14 & B20 & B22 & B23 & B27 & _).
Ltac split_bits := unfold mirrored; repeat (apply list.Forall_cons; split); [..|by apply Forall_nil].

Lemma seg_insert_ne e e' r i v : segs e' = <[Z.to_nat r := v]> (segs e) -> Z.to_nat r <> Z.to_nat i -> seg e' i = seg e i.
Proof. intros Hs Hn. unfold seg. by rewrite Hs, list_lookup_total_insert_ne. Qed.
Lemma seg_insert_eq e e' r v : segs e' = <[Z.to_nat r := v]> (segs e) -> length (segs e) = 6%nat -> 0 <= r < 6 -> seg e' r = v.
Proof. intros Hs Hl Hr. unfold seg. rewrite Hs. apply list_lookup_total_insert_eq. lia. Qed.
Lemma crn_eq e e' i : cr e' = cr e -> crn e' i = crn e i.
Proof. intros H. unfold crn. by rewrite H. Qed.
Lemma crn_put_eq e r v : length (cr e) = 5%nat -> 0 <= r < 5 -> crn (put_cr (Z.to_nat r) v e) r = v.
Proof. intros Hl Hr. unfold crn. cbn. rewrite nth_lookup, list_lookup_insert_eq by lia. done. Qed.
Lemma crn_put_ne e r i v : r <> Z.to_nat i -> crn (put_cr r v e) i = crn e i.
Proof. intros Hn. unfold crn. cbn. by rewrite !nth_lookup, list_lookup_insert_ne. Qed.

Lemma load_seg_mirrors r s b l f e : mirrors e -> mirrors (cpu_x86_load_seg_cache r s b l f e).
Proof.
  intros [Hc Hs Hb]. destruct (load_seg_frame r s b l f e) as (Fc & Fe & Fs). split.
  - by rewrite Fc.
  - by rewrite Fs, length_insert.
  - open_bits Hb. unfold mirrored. rewrite !(crn_eq _ _ _ Fc), Fe.
    assert (Hss : forall k, 13 <= k < 15 -> Z.testbit (flags (seg (cpu_x86_load_seg_cache r s b l f e) R_SS)) k
              = if r =? R_SS then Z.testbit f k else Z.testbit (flags (seg e R_SS)) k).
    { intros k Hk. destruct (Z.eqb_spec r R_SS) as [->|Hr].
      - rewrite (seg_insert_eq _ _ _ _ Fs) by (done || lia). cbn [flags]. rewrite wrap_testbit by lia. by destruct (Z.ltb_spec k 32); [|lia].
      - by rewrite (seg_insert_ne _ _ _ _ _ Fs) by (unfold R_SS in *; lia). }
    rewrite !Hss by lia. unfold load_bit.
    repeat (apply list.Forall_cons; split); try apply Forall_nil; try exact I;
      rewrite load_seg_bit by lia; unfold load_bit; cbn [Z.eqb Pos.eqb]; rewrite ?andb_false_r; case_ifs; done.
Qed.

(** Loading the code segment settles the mode. *)
Lemma load_cs_settles s b l f e : length (segs e) = 6%nat -> cs64_ok (cpu_x86_load_seg_cache R_CS s b l f e).
Proof.
  intros Hs H15. destruct (load_seg_frame R_CS s b l f e) as (_ & _ & Fs).
  rewrite load_seg_bit in H15 by lia. rewrite load_seg_bit by lia. unfold load_bit in *. cbn in H15.
  apply andb_true_iff in H15 as [H14 H21]. split; [done|].
  rewrite (seg_insert_eq _ _ _ _ Fs) by (done || lia). cbn [flags]. by rewrite wrap_testbit by lia.
Qed.

Lemma load_seg_cs64 r s b l f e : length (segs e) = 6%nat -> cs64_ok e -> cs64_ok (cpu_x86_load_seg_cache r s b l f e).
Proof.
  intros Hl H. destruct (Z.eqb_spec r R_CS) as [->|Hr]; [by apply load_cs_settles|].
  destruct (load_seg_frame r s b l f e) as (_ & _ & Fs). unfold cs64_ok. rewrite !load_seg_bit by lia.
  unfold load_bit. apply Z.eqb_neq in Hr as Hr'. rewrite Hr'. cbn [andb Z.ltb Z.compare Pos.compare Pos.compare_cont]. rewrite andb_false_r.
  rewrite (seg_insert_ne _ _ _ _ _ Fs); [exact H|]. unfold R_CS in *. lia.
Qed.

Lemma load_seg_sync r s b l f e : hflags_sync e -> hflags_sync (cpu_x86_load_seg_cache r s b l f e).
Proof. intros [H1 H2]. split; [by apply load_seg_mirrors|]. apply load_seg_cs64; [apply H1|done]. Qed.

(** A code segment makes the whole invariant out of the mirrored bits. *)
Lemma load_cs_sync s b l f e : mirrors e -> hflags_sync (cpu_x86_load_seg_cache R_CS s b l f e).
Proof. intros H. split; [by apply load_seg_mirrors|]. apply load_cs_settles, H. Qed.

(** ** Operations that leave the tracked registers alone *)
Definition same_view (e e' : CPUX86State) : Prop :=
  cr e' = cr e /\ efer e' = efer e /\ segs e' = segs e /\
  forall k, k ∈ 15 :: tracked -> Z.testbit (hflags e') k = Z.testbit (hflags e) k.

Lemma view_mirrors e e' : same_view e e' -> mirrors e -> mirrors e'.
Proof.
  intros (Fc & Fe & Fs & Hf) [Hc Hs Hb]. split; [by rewrite Fc|by rewrite Fs|].
  open_bits Hb. unfold mirrored, seg. rewrite Fs, Fe, !(crn_eq _ _ _ Fc).
  split_bits; rewrite Hf by (unfold tracked; set_solver); assumption.
Qed.

Lemma view_cs64 e e' : same_view e e' -> cs64_ok e -> cs64_ok e'.
Proof. intros (Fc & Fe & Fs & Hf) H. unfold cs64_ok, seg. rewrite Fs, !Hf by (unfold tracked; set_solver). exact H. Qed.

Lemma view_sync e e' : same_view e e' -> hflags_sync e -> hflags_sync e'.
Proof. intros V [H1 H2]. split; [by eapply view_mirrors|by eapply view_cs64]. Qed.

Lemma view_refl e : same_view e e.
Proof. by repeat split. Qed.

Definition untracked (m : Z) : bool := forallb (fun k => negb (Z.testbit m k)) (15 :: tracked).

Lemma untracked_bit m k : untracked m = true -> k ∈ 15 :: tracked -> Z.testbit m k = false.
Proof. intros H Hk. unfold untracked in H. rewrite forallb_forall in H. apply negb_true_iff, H, list_elem_of_In, Hk. Qed.

Lemma tracked_nonneg k : k ∈ 15 :: tracked -> 0 <= k.
Proof. unfold tracked. rewrite !elem_of_cons, elem_of_nil. lia. Qed.

Lemma tracked_range k : k ∈ tracked -> 0 <= k /\ k <> 15.
Proof. unfold tracked. rewrite !elem_of_cons, elem_of_nil. lia. Qed.

Lemma view_or e hf m : hf = hflags e -> untracked m = true -> same_view e (e <| hflags := Z.lor hf m |>).
Proof.
  intros -> Hm. repeat split. intros k Hk. change (Z.testbit (Z.lor (hflags e) m) k = Z.testbit (hflags e) k).
  rewrite Z.lor_spec, (untracked_bit m k Hm Hk). apply orb_false_r.
Qed.
Lemma view_clr e hf m : hf = hflags e -> untracked m = true -> same_view e (e <| hflags := clr hf m |>).
Proof.
  intros -> Hm. repeat split. intros k Hk. change (Z.testbit (clr (hflags e) m) k = Z.testbit (hflags e) k).
  rewrite Z.land_spec, Z.lnot_spec, (untracked_bit m k Hm Hk) by (by apply tracked_nonneg). apply andb_true_r.
Qed.
Lemma view_trans e1 e2 e3 : same_view e1 e2 -> same_view e2 e3 -> same_view e1 e3.
Proof.
  intros (C & E & S & H) (C' & E' & S' & H'). repeat split; [congruence..|]. intros k Hk. by rewrite H', H.
Qed.
Lemma view_bndcs e : same_view e (cpu_sync_bndcs_hflags e).
Proof.
  repeat split. intros k Hk. apply bndcs_bit; [by apply tracked_nonneg|].
  unfold tracked in Hk. rewrite !elem_of_cons, elem_of_nil in Hk. lia.
Qed.

(** Registers outside the view. *)
Ltac outside := repeat split; intros; reflexivity.

(** ** The control registers *)

(** CR2 and CR3 are not mirrored. *)
Lemma put_cr_mirrors r v e : r <> 0%nat -> r <> 4%nat -> mirrors e -> mirrors (put_cr r v e).
Proof.
  intros H0 H4 [Hc Hs Hb]. split; [by unfold put_cr; cbn; rewrite length_insert|done|].
  unfold mirrored. by rewrite !crn_put_ne by lia.
Qed.
Lemma put_cr_sync r v e : r <> 0%nat -> r <> 4%nat -> hflags_sync e -> hflags_sync (put_cr r v e).
Proof. intros H0 H4 [H1 H2]. split; [by apply put_cr_mirrors|exact H2]. Qed.

Lemma testbit_shl x n k : 0 <= k -> Z.testbit (Z.shiftl x n) k = Z.testbit x (k - n).
Proof. intros. by apply Z.shiftl_spec. Qed.

Lemma pe_state_bit n j : Z.testbit (Z.land (Z.lor n CR0_ET_MASK) CR0_PE_MASK) j = (j =? 0) && Z.testbit n 0.
Proof.
  destruct (Z.ltb_spec j 0); [rewrite Z.testbit_neg_r by lia; by destruct (Z.eqb_spec j 0); [lia|]|].
  unfold CR0_ET_MASK, CR0_PE_MASK. rewrite Z.land_spec, Z.lor_spec, !testbit_bit by lia.
  destruct (Z.eqb_spec j 0) as [->|]; [|by rewrite andb_false_r]. cbn. by rewrite orb_false_r, andb_true_r.
Qed.

Lemma cr0_hflags_bit n hf k : 0 <= k -> k <> 6 ->
  Z.testbit (cr0_hflags n hf) k =
    if k =? 7 then Z.testbit n 0 else if (9 <=? k) && (k <=? 11) then Z.testbit n (k - 8) else Z.testbit hf k.
Proof.
  intros H0 H6. unfold cr0_hflags, HF_MP_MASK, HF_EM_MASK, HF_TS_MASK, HF_PE_MASK. cbv zeta.
  rewrite Z.lor_spec, !Z.land_spec, Z.lnot_spec, !Z.lor_spec, !testbit_bit, Z.land_spec, Z.lnot_spec, testbit_bit by lia.
  rewrite !testbit_shl, Z.lxor_spec, !pe_state_bit by lia.
  assert (Hx : Z.testbit 1 (k - 6) = false).
  { destruct (Z.ltb_spec (k - 6) 0); [by apply Z.testbit_neg_r|]. change 1 with (bit 0). rewrite testbit_bit by lia. apply Z.eqb_neq. lia. }
  rewrite Hx. 
  destruct (Z.eqb_spec k 7) as [->|]; [cbn; by rewrite andb_false_r, orb_false_r, andb_true_r, ?orb_false_r|].
  destruct (Z.eqb_spec (k - 7) 0), (Z.eqb_spec (k - 6) 0); try lia.
  destruct (Z.eqb_spec k 9), (Z.eqb_spec k 10), (Z.eqb_spec k 11), (Z.leb_spec 9 k), (Z.leb_spec k 11); try lia; cbn [orb andb negb xorb];
    by rewrite ?andb_false_r, ?andb_true_r, ?orb_false_r.
Qed.

(** The last part of a write to CR0, whatever LMA has become. *)
Lemma finish_cr0_mirrors n e : mirrors e -> mirrors (put_cr 0 (Z.lor n CR0_ET_MASK) e <| hflags := cr0_hflags n (hflags e) |>).
Proof.
  intros [Hc Hs Hb]. split; [by unfold put_cr; cbn; rewrite length_insert|done|]. open_bits Hb.
  set (e' := _ <| hflags := _ |>). unfold mirrored.
  assert (H4 : crn e' 4 = crn e 4) by (apply (crn_put_ne e 0 4); lia).
  assert (H0' : crn e' 0 = Z.lor n CR0_ET_MASK) by (apply (crn_put_eq e 0); [done|lia]).
  assert (Hh : hflags e' = cr0_hflags n (hflags e)) by done.
  change (seg e') with (seg e). change (efer e') with (efer e). rewrite H4, H0', Hh.
  assert (Ht : forall j, 0 <= j < 4 -> Z.testbit (Z.lor n CR0_ET_MASK) j = Z.testbit n j).
  { intros j Hj. unfold CR0_ET_MASK. one_bit. }
  rewrite !Ht by lia.
  split_bits; rewrite cr0_hflags_bit by lia; first [reflexivity|assumption].
Qed.

(** A new EFER with the flags it determines. *)
Lemma efer_mirrors v hf e : mirrors e ->
  Z.testbit hf 14 = Z.testbit v 10 -> Z.testbit hf 20 = Z.testbit v 12 ->
  (forall k, k ∈ tracked -> k <> 14 -> k <> 20 -> Z.testbit hf k = Z.testbit (hflags e) k) ->
  mirrors (e <| efer := v |> <| hflags := hf |>).
Proof.
  intros [Hc Hs Hb] H14 H20 Hk. split; [done|done|]. open_bits Hb. set (e' := _ <| hflags := _ |>).
  unfold mirrored. change (crn e') with (crn e). change (seg e') with (seg e). change (efer e') with v. change (hflags e') with hf.
  split_bits; first [assumption|rewrite Hk by (lia || unfold tracked; set_solver); assumption].
Qed.

Lemma lma_on_mirrors e : mirrors e ->
  mirrors (e <| efer := Z.lor (efer e) MSR_EFER_LMA |> <| hflags := Z.lor (hflags e) HF_LMA_MASK |>).
Proof.
  intros Hm. pose proof (mi_bits e Hm) as Hb. open_bits Hb. unfold MSR_EFER_LMA, HF_LMA_MASK. apply efer_mirrors; [done|..].
  - one_bit.
  - one_bit.
  - intros k Hk N14 N20. destruct (tracked_range k Hk). one_bit.
Qed.

Lemma lma_off_mirrors e : mirrors e ->
  mirrors (e <| efer := clr (efer e) MSR_EFER_LMA |> <| hflags := clr (hflags e) (Z.lor HF_LMA_MASK HF_CS64_MASK) |>).
Proof.
  intros Hm. pose proof (mi_bits e Hm) as Hb. open_bits Hb. unfold MSR_EFER_LMA, HF_LMA_MASK, HF_CS64_MASK. apply efer_mirrors; [done|..].
  - one_bit.
  - one_bit.
  - intros k Hk N14 N20. destruct (tracked_range k Hk). one_bit.
Qed.

Lemma load_efer_mirrors v e : mirrors e -> mirrors (cpu_load_efer v e).
Proof.
  intros Hm. unfold cpu_load_efer. cbv zeta. unfold MSR_EFER_LMA, MSR_EFER_SVME. rewrite !nz_land_bit by lia.
  apply efer_mirrors; [done|..]; unfold HF_LMA_MASK, HF_SVME_MASK.
  - case_ifs; one_bit.
  - case_ifs; one_bit.
  - intros k Hk N14 N20. destruct (tracked_range k Hk). case_ifs; one_bit.
Qed.

(** A write to EFER that keeps LMA. *)
Lemma load_efer_sync v e : Z.testbit v 10 = Z.testbit (efer e) 10 -> hflags_sync e -> hflags_sync (cpu_load_efer v e).
Proof.
  intros Hv [Hm Hc]. split; [by apply load_efer_mirrors|].
  pose proof (mi_bits _ Hm) as Hb. pose proof (mi_bits _ (load_efer_mirrors v e Hm)) as Hb'.
  intros H15. assert (Z.testbit (hflags e) 15 = true) as H15'.
  { revert H15. unfold cpu_load_efer. cbn [hflags set_field]. cbv zeta. unfold HF_LMA_MASK, HF_SVME_MASK. 
    lazymatch goal with |- Z.testbit (hflags (_ <| hflags := ?v |>)) 15 = _ -> _ => change (Z.testbit v 15 = true -> Z.testbit (hflags e) 15 = true) end.
    intros <-. case_ifs; one_bit. }
  specialize (Hc H15') as [H14 Hl]. split; [|done]. open_bits Hb. rewrite Forall_forall in Hb'.
  specialize (Hb' (14, Z.testbit (efer (cpu_load_efer v e)) 10)). cbn beta iota in Hb'. rewrite Hb' by (unfold mirrored; set_solver).
  change (Z.testbit v 10 = true). congruence.
Qed.

Lemma finish_cr0_sync n e : hflags_sync e -> hflags_sync (put_cr 0 (Z.lor n CR0_ET_MASK) e <| hflags := cr0_hflags n (hflags e) |>).
Proof.
  intros [Hm Hc]. split; [by apply finish_cr0_mirrors|]. unfold cs64_ok.
  change (Z.testbit (cr0_hflags n (hflags e)) 15 = true -> Z.testbit (cr0_hflags n (hflags e)) 14 = true /\ Z.testbit (flags (seg e R_CS)) 21 = true).
  rewrite !cr0_hflags_bit by lia. exact Hc.
Qed.

(** Both properties of an operation: it keeps the mirrored bits of any state,
    and the whole invariant. *)
Definition tracks (f : CPUX86State -> CPUX86State) : Prop :=
  (forall e, mirrors e -> mirrors (f e)) /\ (forall e, hflags_sync e -> hflags_sync (f e)).

Lemma tracks_cr0 v : tracks (cpu_x86_update_cr0 v).
Proof.
  split; intros e H; unfold cpu_x86_update_cr0; cbv zeta.
  - case_ifs; first [done|apply finish_cr0_mirrors]; [by apply lma_on_mirrors| |done].
    eapply view_mirrors; [|by apply lma_off_mirrors]. outside.
  - case_ifs; first [done|apply finish_cr0_sync]; [| |done]; destruct H as [Hm Hc]; split.
    + by apply lma_on_mirrors.
    + unfold cs64_ok. change (Z.testbit (Z.lor (hflags e) HF_LMA_MASK) 15 = true ->
        Z.testbit (Z.lor (hflags e) HF_LMA_MASK) 14 = true /\ Z.testbit (flags (seg e R_CS)) 21 = true).
      unfold HF_LMA_MASK. rewrite !Z.lor_spec, !testbit_bit by lia. cbn [Z.eqb Pos.eqb]. rewrite !orb_false_r, !orb_true_r.
      intros H. split; [done|by apply Hc].
    + eapply view_mirrors; [|by apply lma_off_mirrors]. outside.
    + unfold cs64_ok. change (Z.testbit (clr (hflags e) (Z.lor HF_LMA_MASK HF_CS64_MASK)) 15 = true -> 
        Z.testbit (clr (hflags e) (Z.lor HF_LMA_MASK HF_CS64_MASK)) 14 = true /\ Z.testbit (flags (seg e R_CS)) 21 = true).
      intros H15. exfalso. revert H15. unfold HF_LMA_MASK, HF_CS64_MASK. rewrite Z.land_spec, Z.lnot_spec, Z.lor_spec, !testbit_bit by lia.
      cbn. by rewrite andb_false_r.
Qed.

Lemma tracks_cr3 v : tracks (cpu_x86_update_cr3 v).
Proof. split; intros e H; [by apply put_cr_mirrors|by apply put_cr_sync]. Qed.

Lemma cr4_hflags_bit v hf k : 0 <= k ->
  Z.testbit (cr4_hflags v hf) k =
    if k =? 22 then Z.testbit v 9 else if k =? 23 then Z.testbit v 21 else if k =? 27 then Z.testbit v 11 else Z.testbit hf k.
Proof.
  intros H0. unfold cr4_hflags, CR4_UMIP_MASK, CR4_SMAP_MASK, CR4_OSFXSR_MASK. cbv zeta. rewrite !nz_land_bit by lia.
  unfold HF_UMIP_MASK, HF_SMAP_MASK, HF_OSFXSR_MASK.
  destruct (Z.testbit v 11), (Z.testbit v 21), (Z.testbit v 9); autorewrite with bits; try lia;
    destruct (Z.eqb_spec k 22), (Z.eqb_spec k 23), (Z.eqb_spec k 27); try lia; cbn [orb andb negb];
    by rewrite ?andb_false_r, ?andb_true_r, ?orb_false_r, ?orb_true_r.
Qed.

Lemma put_cr4_mirrors v e : mirrors e -> mirrors (put_cr 4 v e <| hflags := cr4_hflags v (hflags e) |>).
Proof.
  intros [Hc Hs Hb]. split; [by unfold put_cr; cbn; rewrite length_insert|done|]. open_bits Hb.
  set (e' := _ <| hflags := _ |>). unfold mirrored.
  assert (C4 : crn e' 4 = v) by (apply (crn_put_eq e 4); [done|lia]).
  assert (C0 : crn e' 0 = crn e 0) by (apply (crn_put_ne e 4 0); lia).
  assert (Hh : hflags e' = cr4_hflags v (hflags e)) by done.
  change (seg e') with (seg e). change (efer e') with (efer e). rewrite C4, C0, Hh.
  split_bits; rewrite cr4_hflags_bit by lia; first [reflexivity|assumption].
Qed.

Lemma tracks_cr4 v : tracks (cpu_x86_update_cr4 v).
Proof.
  split; intros e H; unfold cpu_x86_update_cr4; cbv zeta; generalize (cr4_supported e (u32 v)); intros w.
  - eapply view_mirrors; [apply view_bndcs|]. by apply put_cr4_mirrors.
  - eapply view_sync; [apply view_bndcs|]. destruct H as [Hm Hc]. split; [by apply put_cr4_mirrors|]. unfold cs64_ok.
    change (Z.testbit (cr4_hflags w (hflags e)) 15 = true -> Z.testbit (cr4_hflags w (hflags e)) 14 = true /\ Z.testbit (flags (seg e R_CS)) 21 = true).
    rewrite !cr4_hflags_bit by lia. exact Hc.
Qed.

(** ** Composite operations

    [sync_step] peels one operation off a state in a goal on [mirrors] or
    [hflags_sync]. *)
Lemma mirrors_of_sync e : hflags_sync e -> mirrors e.
Proof. by intros []. Qed.

Ltac view_of e0 :=
  lazymatch goal with
  | |- same_view _ (set_field hflags (Z.lor _ _) _) => apply view_or; reflexivity
  | |- same_view _ (set_field hflags (Z.land _ _) _) => apply view_clr; reflexivity
  | _ => let e := fresh "e" in generalize e0; intros e; outside
  end.

Ltac sync_step :=
  lazymatch goal with
  | |- mirrors (if ?b then _ else _) => destruct b
  | |- hflags_sync (if ?b then _ else _) => destruct b
  | |- mirrors (cpu_x86_load_seg_cache _ _ _ _ _ _) => apply load_seg_mirrors
  | |- hflags_sync (cpu_x86_load_seg_cache _ _ _ _ _ _) => apply load_seg_sync
  | |- mirrors (cpu_x86_update_cr0 _ _) => apply (proj1 (tracks_cr0 _))
  | |- hflags_sync (cpu_x86_update_cr0 _ _) => apply (proj2 (tracks_cr0 _))
  | |- mirrors (cpu_x86_update_cr3 _ _) => apply (proj1 (tracks_cr3 _))
  | |- hflags_sync (cpu_x86_update_cr3 _ _) => apply (proj2 (tracks_cr3 _))
  | |- mirrors (cpu_x86_update_cr4 _ _) => apply (proj1 (tracks_cr4 _))
  | |- hflags_sync (cpu_x86_update_cr4 _ _) => apply (proj2 (tracks_cr4 _))
  | |- mirrors (cpu_load_efer _ _) => apply load_efer_mirrors
  | |- mirrors (put_cr _ _ _) => apply put_cr_mirrors; [done|done|]
  | |- hflags_sync (put_cr _ _ _) => apply put_cr_sync; [done|done|]
  | |- mirrors (cpu_load_eflags _ _ ?e) => apply (view_mirrors e); [view_of e|]
  | |- hflags_sync (cpu_load_eflags _ _ ?e) => apply (view_sync e); [view_of e|]
  | |- mirrors (set_reg _ _ ?e) => apply (view_mirrors e); [view_of e|]
  | |- hflags_sync (set_reg _ _ ?e) => apply (view_sync e); [view_of e|]
  | |- mirrors (set_field _ _ ?e) => apply (view_mirrors e); [view_of e|]
  | |- hflags_sync (set_field _ _ ?e) => apply (view_sync e); [view_of e|]
  end.
Ltac have_it := lazymatch goal with |- ?P => match goal with H : P |- _ => exact H end end.
Ltac sync_steps := repeat first [have_it | apply mirrors_of_sync; have_it | sync_step].

(** ES, CS, SS and DS are loaded in this order: CS settles the mode. *)
Lemma svm_segs_settle mm p e : mirrors e -> hflags_sync (svm_load_segs mm p e).
Proof. intros H. unfold svm_load_segs, svm_load_seg_cache. cbv zeta. do 2 sync_step. apply load_cs_sync. sync_steps. Qed.

(** Names the state a [let] binds, with the property [Q] of it. *)
Ltac let_step Q :=
  lazymatch goal with
  | |- ?P ?t =>
      lazymatch t with
      | let x := ?v in @?b x =>
          lazymatch type of v with
          | CPUX86State =>
              let H := fresh "Hm" in
              assert (H : Q v) by sync_steps; change (P (b v)); revert H;
              let e' := fresh "e" in generalize v; intros e' H; cbv beta
          | _ => change (P (b v)); cbv beta
          end
      end
  end.

Lemma reload_host_settles mm h e : mirrors e -> hflags_sync (reload_host mm h e).
Proof.
  intros H. cbv beta delta [reload_host]. do 7 let_step mirrors.
  pose proof (svm_segs_settle mm h _ Hm4).
  do 2 let_step hflags_sync. sync_steps.
Qed.

Lemma load_guest_settles mm v e : mirrors e -> hflags_sync (load_guest mm v e).
Proof.
  intros H. cbv beta delta [load_guest]. do 4 let_step mirrors.
  lazymatch goal with |- hflags_sync (let x := ?w in @?b x) => assert (Hg : mirrors w) end.
  { case_ifs; [cbv zeta; case_ifs|]; sync_steps. }
  revert Hg. generalize (if has (int_ctl e2) V_INTR_MASKING_MASK then
      let e := e2 <| hflags2 := Z.lor (hflags2 e2) HF2_VINTR_MASK |> in
      if has (eflags e) IF_MASK then e <| hflags2 := Z.lor (hflags2 e) HF2_HIF_MASK |> else e
    else e2). intros e3 Hg. cbv beta.
  let_step mirrors. let_step mirrors. let_step mirrors.
  pose proof (svm_segs_settle mm v _ Hm4). do 3 let_step hflags_sync. sync_steps.
Qed.

Lemma smm_init_settles e : mirrors e -> hflags_sync (smm_init e).
Proof.
  intros H. cbv beta delta [smm_init]. do 5 let_step mirrors.
  lazymatch goal with |- hflags_sync (let e := cpu_x86_load_seg_cache _ ?s ?b ?l ?f ?e0 in _) => pose proof (load_cs_sync s b l f e0 Hm3) end.
  let_step hflags_sync. cbn [fold_left]. sync_steps.
Qed.

Lemma fold_mirrors {A} (f : CPUX86State -> A -> CPUX86State) l e : (forall e x, mirrors e -> mirrors (f e x)) -> mirrors e -> mirrors (fold_left f l e).
Proof. intros Hf. revert e. induction l as [|x l IH]; intros e H; [done|]. apply IH, Hf, H. Qed.
Lemma fold_sync {A} (f : CPUX86State -> A -> CPUX86State) l e : (forall e x, hflags_sync e -> hflags_sync (f e x)) -> hflags_sync e -> hflags_sync (fold_left f l e).
Proof. intros Hf. revert e. induction l as [|x l IH]; intros e H; [done|]. apply IH, Hf, H. Qed.

Lemma rsm_segs_settle mm p e : mirrors e -> hflags_sync (fold_left (fun e i => rsm_seg mm p i e) (seqZ 0 6) e).
Proof.
  intros H. change (seqZ 0 6) with [0; 1; 2; 3; 4; 5]. cbn [fold_left]. unfold rsm_seg. cbv zeta. do 4 sync_step.
  apply load_cs_sync. sync_steps.
Qed.

Lemma rsm_settles mm p e : mirrors e -> hflags_sync (rsm_env mm p e).
Proof.
  intros H. cbv beta delta [rsm_env]. do 5 let_step mirrors.
  lazymatch goal with |- hflags_sync (let x := ?w in _) => assert (Hr : mirrors w) by (apply fold_mirrors; [intros; sync_steps|done]) end.
  do 4 let_step mirrors.
  lazymatch goal with |- hflags_sync (let x := fold_left _ _ ?w in _) => assert (Hs : hflags_sync (fold_left (fun e i => rsm_seg mm p i e) (seqZ 0 6) w)) by (by apply rsm_segs_settle) end.
  do 3 let_step hflags_sync. sync_steps.
Qed.

(** ** Single registers *)

(** CS.base and CS.selector in real mode; the bases of FS and GS. *)
Lemma set_seg_sync r v e : Z.testbit (flags v) 21 = Z.testbit (flags (seg e R_CS)) 21 \/ r <> R_CS ->
  r <> R_SS -> 0 <= r -> hflags_sync e -> hflags_sync (e <| segs := <[Z.to_nat r := v]> (segs e) |>).
Proof.
  intros Hv Hss Hr [[Hc Hs Hb] H64]. set (e' := _ <| segs := _ |>).
  assert (Fs : segs e' = <[Z.to_nat r := v]> (segs e)) by done.
  assert (E : seg e' R_SS = seg e R_SS) by (apply (seg_insert_ne _ _ _ _ _ Fs); unfold R_SS in *; lia).
  split; [split; [done|by rewrite Fs, length_insert|]|].
  - unfold mirrored. rewrite E. exact Hb.
  - intros H15. specialize (H64 H15) as [H14 Hl]. split; [done|]. destruct (Z.eq_dec r R_CS) as [->|Hcs].
    + rewrite (seg_insert_eq _ _ _ _ Fs) by (done || lia). destruct Hv; [congruence|done].
    + rewrite (seg_insert_ne _ _ _ _ _ Fs) by (unfold R_CS in *; lia). exact Hl.
Qed.

Lemma set_seg_base_sync r b e : r = R_FS \/ r = R_GS -> hflags_sync e -> hflags_sync (set_seg_base r b e).
Proof. intros Hr. apply set_seg_sync; destruct Hr as [-> | ->]; try done; by right. Qed.

(** The task-switched bit is written to both places. *)
Lemma ts_sync v hf e : Z.testbit hf 11 = Z.testbit v 3 ->
  (forall j, 0 <= j < 3 -> Z.testbit v j = Z.testbit (crn e 0) j) ->
  (forall k, k ∈ 15 :: tracked -> k <> 11 -> Z.testbit hf k = Z.testbit (hflags e) k) ->
  hflags_sync e -> hflags_sync (e <| cr := <[0%nat := v]> (cr e) |> <| hflags := hf |>).
Proof.
  intros H3 Hv Hk [[Hc Hs Hb] H64]. set (e' := _ <| hflags := _ |>). open_bits Hb.
  assert (C0 : crn e' 0 = v) by (apply (crn_put_eq e 0); [done|lia]).
  assert (C4 : crn e' 4 = crn e 4) by (apply (crn_put_ne e 0 4); lia).
  assert (K : forall k, existsb (Z.eqb k) (15 :: tracked) && negb (k =? 11) = true -> Z.testbit hf k = Z.testbit (hflags e) k).
  { intros k [K1 K2]%andb_true_iff. apply Hk; [|by intros ->]. apply existsb_exists in K1 as (x & Hx & E).
    apply Z.eqb_eq in E as ->. by apply list_elem_of_In. }
  split; [split; [unfold e'; cbn; by rewrite length_insert|done|]|].
  - unfold mirrored. change (seg e') with (seg e). change (efer e') with (efer e). change (hflags e') with hf.
    rewrite C0, C4, !Hv by lia. split_bits; first [assumption|rewrite K by reflexivity; assumption].
  - unfold cs64_ok. change (hflags e') with hf. change (seg e') with (seg e). rewrite !K by reflexivity. exact H64.
Qed.

Lemma clts_sync e : hflags_sync e -> hflags_sync (helper_clts e).
Proof.
  apply ts_sync; unfold CR0_TS_MASK, HF_TS_MASK.
  - one_bit.
  - intros j Hj. one_bit.
  - intros k Hk H11. apply tracked_nonneg in Hk. one_bit.
Qed.

Lemma set_ts_sync e : hflags_sync e ->
  hflags_sync (e <| cr := <[0%nat := Z.lor (crn e 0) CR0_TS_MASK]> (cr e) |> <| hflags := Z.lor (hflags e) HF_TS_MASK |>).
Proof.
  apply ts_sync; unfold CR0_TS_MASK, HF_TS_MASK.
  - rewrite !Z.lor_spec, !testbit_bit by lia. cbn. by rewrite !orb_true_r.
  - intros j Hj. one_bit.
  - intros k Hk H11. apply tracked_nonneg in Hk. one_bit.
Qed.

(** ** Debug registers *)
Lemma set_slot_view i v e : same_view e (set_slot i v e).
Proof. outside. Qed.
Lemma set_drn_view i v e : same_view e (set_drn i v e).
Proof. outside. Qed.
Lemma bp_remove_view i e : same_view e (hw_breakpoint_remove i e).
Proof. unfold hw_breakpoint_remove. case_if; [apply view_refl|]. destruct (slot e i); [apply set_slot_view|apply view_refl]. Qed.

Lemma fold_view {A} (f : CPUX86State -> A -> CPUX86State) l e : (forall e x, same_view e (f e x)) -> same_view e (fold_left f l e).
Proof.
  intros Hf. revert e. induction l as [|x l IH]; intros e; [apply view_refl|]. eapply view_trans; [apply Hf|apply IH].
Qed.

(** The I/O breakpoint flag is the only bit an insertion returns. *)
Definition inserts (f : Z -> CPUX86State -> Z * CPUX86State) : Prop :=
  forall i e, same_view e (f i e).2 /\ ((f i e).1 = 0 \/ (f i e).1 = HF_IOBPT_MASK).

Lemma bp_insert_view : inserts hw_breakpoint_insert.
Proof. intros i e. unfold hw_breakpoint_insert. cbv zeta. case_ifs; cbn [fst snd]; (split; [|by auto]); first [apply view_refl|outside]. Qed.

Lemma insert_all_view f e : inserts f -> same_view e (insert_all f e).2 /\ untracked (insert_all f e).1 = true.
Proof.
  intros Hf. unfold insert_all, DR7_BPS.
  assert (G : forall l x e0, same_view e e0 -> x = 0 \/ x = HF_IOBPT_MASK ->
    let r := fold_left (fun '(iobpt, e) i => let '(x, e) := f i e in (Z.lor iobpt x, e)) l (x, e0) in
    same_view e r.2 /\ (r.1 = 0 \/ r.1 = HF_IOBPT_MASK)).
  { induction l as [|i l IH]; intros x e0 V Hx; [done|]. cbn [fold_left]. destruct (Hf i e0) as [V' Hy].
    destruct (f i e0) as [y e1]. cbn [fst snd] in *. apply IH; [by eapply view_trans|].
    destruct Hx as [-> | ->], Hy as [-> | ->]; auto. }
  destruct (G [0; 1; 2; 3] 0 e (view_refl e) (or_introl eq_refl)) as [V H]. split; [exact V|].
  by destruct H as [-> | ->].
Qed.

Lemma dr7_view v e : same_view e (cpu_x86_update_dr7 v e).
Proof.
  unfold cpu_x86_update_dr7. cbv zeta.
  set (ie := if _ =? 0 then _ else _).
  assert (H : same_view e ie.2 /\ untracked ie.1 = true).
  { subst ie. case_if.
    - lazymatch goal with |- context [insert_all ?f ?e1] => destruct (insert_all_view f e1) as [V U] end.
      { intros i e0. case_ifs; try apply bp_insert_view; cbn [fst snd]; split; auto using view_refl. }
      split; [|exact U]. eapply view_trans; [|exact V]. eapply view_trans; [|apply set_drn_view]. apply fold_view.
      intros e0 i. case_if; [apply bp_remove_view|apply view_refl].
    - lazymatch goal with |- context [insert_all ?f ?e1] => destruct (insert_all_view f e1 bp_insert_view) as [V U] end.
      split; [|exact U]. eapply view_trans; [|exact V]. eapply view_trans; [|apply set_drn_view].
      apply fold_view. intros e0 i. apply bp_remove_view. }
  destruct ie as [x e1]. cbn [fst snd] in H. destruct H as [V U]. eapply view_trans; [exact V|].
  apply (view_trans _ (e1 <| hflags := clr (hflags e1) HF_IOBPT_MASK |>)); [by apply view_clr|].
  exact (view_or (e1 <| hflags := clr (hflags e1) HF_IOBPT_MASK |>) (clr (hflags e1) HF_IOBPT_MASK) x eq_refl U).
Qed.

(** ** Task switches, MSRs and start-up *)
Lemma tss_segs_sync img fl e : hflags_sync e -> hflags_sync (tss_segs img fl e).
Proof. apply fold_sync. intros e0 [i s] H. unfold load_seg_vm. cbv zeta. sync_steps. Qed.

Lemma tss_regs_sync ty img e : hflags_sync e -> hflags_sync (tss_regs ty img e).
Proof. apply fold_sync. intros e0 [i v] H. sync_steps. Qed.

Lemma tss_install_sync s b l e2 img fl e : hflags_sync e -> hflags_sync (tss_install s b l e2 img fl e).
Proof.
  intros H. pose proof (set_ts_sync e H) as H0. cbv beta delta [tss_install].
  do 5 let_step hflags_sync.
  lazymatch goal with |- hflags_sync (let x := ?w in _) => assert (Hw : hflags_sync w) by (by apply tss_segs_sync, tss_regs_sync) end.
  let_step hflags_sync. sync_steps.
Qed.

Lemma efer_mask_lma e : Z.testbit (efer_update_mask e) 10 = false.
Proof. unfold efer_update_mask. case_ifs; reflexivity. Qed.

Lemma msr_write_sync c v e e' : msr_write c v e = Some e' -> hflags_sync e -> hflags_sync e'.
Proof.
  intros E H. unfold msr_write in E.
  repeat (lazymatch type of E with (if ?b then _ else _) = _ => destruct b end;
          [injection E as <-; first
             [ solve [sync_steps]
             | apply load_efer_sync; [rewrite Z.lor_spec, !Z.land_spec, Z.lnot_spec, efer_mask_lma by lia; cbn [negb]; by rewrite andb_true_r, andb_false_r, orb_false_r|done]
             | by apply set_seg_base_sync; auto
             | eapply view_sync; [apply view_bndcs|]; sync_steps ]|]).
  destruct (mtrr_slot c) as [s|]; [|done]. injection E as <-. destruct s; cbn [slot_set]; sync_steps.
Qed.

Lemma sipi_sync v c : hflags_sync (env c) -> hflags_sync (env (cpu_x86_load_seg_cache_sipi v c)).
Proof. intros H. apply load_seg_sync. by apply (view_sync (env c)); [outside|]. Qed.
