(* ===== verification/SyncAll.v ===== *)
(** * Every helper keeps the cached flags right

    The invariant of Sync.v across the helpers that may fault, exit to the host
    or abort, of the processor itself and of the others. *)
From S2P Require Import Prelude Cpu Machine Apic Wiring System Cc Exec Mmu ExcFacts Keeps Quiet KeepsMem.
From S2P Require Import Bpt Ctl Svm Smm Seg Uintr Intr Vmrun Msr Far Sync.

Lemma sync_exception_blind : exception_blind hflags_sync.
Proof. intros e a b c w o H. split_and!; sync_steps. Qed.
Lemma sync_cr2_blind : cr2_blind hflags_sync.
Proof. intros e v. by apply (put_cr_sync 2). Qed.

(** ** The state changes of the far transfers *)
Lemma set_esp_view v m e : same_view e (SET_ESP v m e).
Proof. outside. Qed.
Lemma set_esp_sync v m e : hflags_sync e -> hflags_sync (SET_ESP v m e).
Proof. apply view_sync, set_esp_view. Qed.
Lemma load_vm_sync r s e : hflags_sync e -> hflags_sync (load_seg_vm r s e).
Proof. intros H. unfold load_seg_vm. cbv zeta. sync_steps. Qed.
Lemma set_cs_sync s e1 e2 e : hflags_sync e -> hflags_sync (set_cs s e1 e2 e).
Proof. unfold set_cs. apply load_seg_sync. Qed.

Ltac env_step :=
  first
  [ have_it
  | lazymatch goal with
    | |- hflags_sync (SET_ESP _ _ _) => apply set_esp_sync
    | |- hflags_sync (load_seg_vm _ _ _) => apply load_vm_sync
    | |- hflags_sync (set_cs _ _ _ _) => apply set_cs_sync
    | |- hflags_sync ?t => first [let_step hflags_sync | sync_step]
    end ].
Ltac env_steps := repeat env_step.

Lemma enter_gate_sync ty sel e1 e2 dpl offset vm86 s esp e : hflags_sync e ->
  hflags_sync (enter_gate ty sel e1 e2 dpl offset vm86 s esp e).
Proof.
  intros H. cbv beta delta [enter_gate]. let_step hflags_sync.
  lazymatch goal with |- hflags_sync (let x := ?w in _) => assert (Hw : hflags_sync w) end.
  { case_if; [|done]. cbv zeta. destruct vm86; cbn [fold_left]; sync_steps. }
  let_step hflags_sync. pose proof (set_esp_sync esp (gs_mask s) _ Hm0). env_steps.
Qed.

Lemma enter_gate64_sync ty sel e1 e2 dpl offset ns esp e : hflags_sync e ->
  hflags_sync (enter_gate64 ty sel e1 e2 dpl offset ns esp e).
Proof. intros H. cbv beta delta [enter_gate64]. env_steps. Qed.

Lemma sysret_sync dflag e : hflags_sync e -> hflags_sync (sysret_env dflag e).
Proof. intros H. cbv beta delta [sysret_env]. env_steps. Qed.
Lemma syscall_sync n e : hflags_sync e -> hflags_sync (syscall_env n e).
Proof. intros H. cbv beta delta [syscall_env]. env_steps. Qed.
Lemma sysenter_sync e : hflags_sync e -> hflags_sync (sysenter_env e).
Proof. intros H. cbv beta delta [sysenter_env]. env_steps. Qed.
Lemma sysexit_sync dflag e : hflags_sync e -> hflags_sync (sysexit_env dflag e).
Proof. intros H. cbv beta delta [sysexit_env]. env_steps. Qed.
Lemma enter_call_sync sh sel e1 e2 dpl o s sp e : hflags_sync e -> hflags_sync (enter_call sh sel e1 e2 dpl o s sp e).
Proof.
  intros H. cbv beta delta [enter_call].
  lazymatch goal with |- hflags_sync (let x := ?w in _) => assert (Hw : hflags_sync w) by (case_ifs; sync_steps) end. env_steps.
Qed.
Lemma vm86_sync cs ip fl sp ss es ds fs gs e : hflags_sync e -> hflags_sync (vm86_env cs ip fl sp ss es ds fs gs e).
Proof. intros H. cbv beta delta [vm86_env]. do 2 let_step hflags_sync. cbn [fold_left]. env_steps. Qed.
Lemma validate_sync r cpl e : hflags_sync e -> hflags_sync (validate_seg r cpl e).
Proof. intros H. unfold validate_seg. cbv zeta. sync_steps. Qed.

Lemma real_cs_sync s b l f sg e : sg = segs e -> f = flags (seg e R_CS) -> hflags_sync e ->
  hflags_sync (e <| segs := <[Z.to_nat R_CS := mkSeg s b l f]> sg |>).
Proof. intros -> ->. by apply set_seg_sync; [left|done|done]. Qed.

(** ** Helpers *)
Section helpers.
  Context `{EoiQuiet} (k d : nat) (shl_ub : Z -> Z) (junk : Z).
  #[local] Abbreviation ok x := (keeps k hflags_sync x).
  #[local] Hint Resolve sync_exception_blind sync_cr2_blind : keeps.
  #[local] Hint Extern 1 (keeps _ _ (raise_exception_err _ _ _)) => (apply keeps_raise, sync_exception_blind) : keeps.
  #[local] Hint Extern 1 (keeps _ _ (raise_exception _ _)) => (apply keeps_raise, sync_exception_blind) : keeps.
  #[local] Hint Extern 1 (keeps _ _ (raise_interrupt _ _ _ _ _)) => (apply keeps_raise, sync_exception_blind) : keeps.
  #[local] Hint Extern 1 (keeps _ _ (fault_when _ _ _ _)) => (apply keeps_when, keeps_raise, sync_exception_blind) : keeps.
  #[local] Hint Extern 2 (keeps _ _ (mod_env _ _)) => (apply keeps_mod_env; solve [intros; sync_steps]) : keeps.

(** A change of the machine that leaves the registers alone. *)
Lemma ok_quiet f : (forall m, cpu_env k (f m) = cpu_env k m) -> ok (modify f).
Proof. intros Hf m Hm. cbn [modify after]. by rewrite Hf. Qed.

Lemma ok_interrupt j q : ok (modify (cpu_interrupt j q)).
Proof. apply ok_quiet. intros m. apply env_interrupt. Qed.
Lemma ok_reset_interrupt j q : ok (modify (cpu_reset_interrupt j q)).
Proof. apply ok_quiet. intros m. apply env_reset_interrupt. Qed.
#[local] Hint Resolve ok_interrupt ok_reset_interrupt : keeps.

Lemma ok_mapM {A B} (f : A -> X B) l : (forall a, ok (f a)) -> ok (mapM f l).
Proof. intros Hf. induction l as [|a l IH]; cbn [mapM]; keeps_steps. Qed.
Lemma ok_st_all n l : ok (st_all d n l).
Proof. unfold st_all. induction l as [|[a v] l IH]; cbn [foldr]; keeps_steps. Qed.
#[local] Hint Resolve ok_st_all : keeps.

Lemma ok_load_segment sel : ok (load_segment d sel).
Proof. unfold load_segment. cbv zeta. keeps_steps. Qed.
#[local] Hint Resolve ok_load_segment : keeps.
Lemma ok_load_segment_or sel n code : ok (load_segment_or d sel n code).
Proof. unfold load_segment_or. keeps_steps. Qed.
#[local] Hint Resolve ok_load_segment_or : keeps.
Lemma ok_ss_esp dpl : ok (get_ss_esp_from_tss d dpl).
Proof. unfold get_ss_esp_from_tss. cbv zeta. keeps_steps. Qed.
#[local] Hint Resolve ok_ss_esp : keeps.

Lemma ok_tss_load_seg r sel cpl : ok (tss_load_seg d r sel cpl).
Proof. unfold tss_load_seg. cbv zeta. keeps_steps. Qed.
Lemma ok_tss_read ty b : ok (tss_read d ty b).
Proof. unfold tss_read. keeps_steps; apply ok_mapM; intros; keeps_steps. Qed.
Lemma ok_tss_save ty n fl : ok (tss_save d ty n fl).
Proof. unfold tss_save. cbv zeta. keeps_steps. Qed.
Lemma ok_tss_busy b sel : ok (tss_busy d b sel).
Proof. unfold tss_busy. cbv zeta. keeps_steps. Qed.
Lemma ok_tss_gate s e1 e2 : ok (tss_gate d s e1 e2).
Proof. unfold tss_gate. cbv zeta. keeps_steps. Qed.
Lemma ok_tss_ldt l : ok (tss_load_ldt d l).
Proof. unfold tss_load_ldt. cbv zeta. keeps_steps. Qed.
#[local] Hint Resolve ok_tss_load_seg ok_tss_read ok_tss_save ok_tss_busy ok_tss_gate ok_tss_ldt : keeps.
Lemma ok_tss_segs l : ok (tss_load_segs d l).
Proof. unfold tss_load_segs. cbv zeta. keeps_steps. Qed.
#[local] Hint Resolve ok_tss_segs : keeps.

Lemma ok_dr7 v : ok (mod_env d (cpu_x86_update_dr7 v)).
Proof. apply keeps_mod_env. intros e. apply view_sync, dr7_view. Qed.
Lemma ok_tss_install s b l e2 img fl : ok (mod_env d (tss_install s b l e2 img fl)).
Proof. apply keeps_mod_env. apply tss_install_sync. Qed.
#[local] Hint Resolve ok_dr7 ok_tss_install : keeps.

Lemma ok_switch_tss s e1 e2 source next : ok (switch_tss d s e1 e2 source next).
Proof. unfold switch_tss. cbv zeta. keeps_steps. Qed.
#[local] Hint Resolve ok_switch_tss : keeps.

(** *** User interrupts *)
Lemma ok_pushq sp v : ok (PUSHQ d sp v).
Proof. unfold PUSHQ. cbv zeta. keeps_steps. Qed.
Lemma ok_popq sp : ok (POPQ d sp).
Proof. unfold POPQ. keeps_steps. Qed.
#[local] Hint Resolve ok_pushq ok_popq : keeps.

Lemma switch_uif_sync b e : hflags_sync e -> hflags_sync (switch_uif b e).
Proof. intros He. destruct b; unfold switch_uif; sync_steps. Qed.
#[local] Hint Resolve switch_uif_sync : core.

Lemma ok_rrnzero : ok (helper_rrnzero d shl_ub).
Proof.
  unfold helper_rrnzero. cbv zeta. keeps_steps. apply keeps_mod_env. intros e He. apply switch_uif_sync. sync_steps.
Qed.
Lemma ok_uiret : ok (helper_uiret d).
Proof.
  unfold helper_uiret. cbv zeta. keeps_steps. apply keeps_mod_env. intros e He. apply switch_uif_sync. sync_steps.
Qed.
Lemma ok_clear_eoi : ok helper_clear_eoi.
Proof.
  intros m Hm. unfold helper_clear_eoi. destruct (cpu_get_current_apic m) as [c|]; [|done]. cbn [after]. by rewrite clear_eoi_env.
Qed.
#[local] Hint Resolve ok_rrnzero ok_clear_eoi : keeps.

Lemma ok_log_apic_id : ok log_apic_id.
Proof. intros m Hm. unfold log_apic_id. by destruct (cpu_get_current_apic m). Qed.
#[local] Hint Resolve ok_log_apic_id : keeps.

Lemma ok_do_uintr : ok (do_uintr d shl_ub junk).
Proof. unfold do_uintr. cbv zeta. keeps_steps. Qed.
Lemma ok_send_ipi dest v : ok (modify (send_ipi dest v)).
Proof. apply ok_quiet. intros m. apply send_ipi_env. Qed.
#[local] Hint Resolve ok_do_uintr ok_send_ipi : keeps.
Lemma ok_senduipi r : ok (helper_senduipi d shl_ub junk r).
Proof. unfold helper_senduipi. cbv zeta. keeps_steps. Qed.

(** *** Interrupts *)
Lemma ok_pushw w ssp sp m v : ok (PUSHW d w ssp sp m v).
Proof. unfold PUSHW. cbv zeta. keeps_steps. Qed.
Lemma ok_pushl w ssp sp m v : ok (PUSHL d w ssp sp m v).
Proof. unfold PUSHL. cbv zeta. keeps_steps. Qed.
#[local] Hint Resolve ok_pushw ok_pushl : keeps.
Lemma ok_push_all sh ssp m l sp : ok (push_all d sh ssp sp m l).
Proof. revert sp. induction l as [|v l IH]; intros sp; cbn [push_all]; keeps_steps. Qed.
Lemma ok_push_all64 l sp : ok (push_all64 d sp l).
Proof. revert sp. induction l as [|v l IH]; intros sp; cbn [push_all64]; keeps_steps. Qed.
#[local] Hint Resolve ok_push_all ok_push_all64 : keeps.

Lemma ok_set_esp v m : ok (mod_env d (SET_ESP v m)).
Proof. apply keeps_mod_env. intros e. apply set_esp_sync. Qed.
#[local] Hint Resolve ok_set_esp : keeps.
Lemma ok_task_error c : ok (push_task_error d c).
Proof. unfold push_task_error. cbv zeta. keeps_steps. Qed.
Lemma ok_inner_stack dpl : ok (inner_stack d dpl).
Proof. unfold inner_stack. cbv zeta. keeps_steps. Qed.
Lemma ok_same_stack sel : ok (same_stack d sel).
Proof. unfold same_stack. cbv zeta. keeps_steps. Qed.
Lemma ok_gate_code sel cpl : ok (gate_code d sel cpl).
Proof. unfold gate_code. cbv zeta. keeps_steps. Qed.
#[local] Hint Resolve ok_task_error ok_inner_stack ok_same_stack ok_gate_code : keeps.

Lemma ok_enter_gate ty sel e1 e2 dpl o v s esp : ok (mod_env d (enter_gate ty sel e1 e2 dpl o v s esp)).
Proof. apply keeps_mod_env. intros e. apply enter_gate_sync. Qed.
Lemma ok_enter_gate64 ty sel e1 e2 dpl o ns esp : ok (mod_env d (enter_gate64 ty sel e1 e2 dpl o ns esp)).
Proof. apply keeps_mod_env. intros e. apply enter_gate64_sync. Qed.
#[local] Hint Resolve ok_enter_gate ok_enter_gate64 : keeps.

Lemma ok_protected n i c next hw : ok (do_interrupt_protected d n i c next hw).
Proof. unfold do_interrupt_protected. cbv zeta. keeps_steps. Qed.
Lemma ok_rsp l : ok (get_rsp_from_tss d l).
Proof. unfold get_rsp_from_tss. cbv zeta. keeps_steps. Qed.
#[local] Hint Resolve ok_rsp : keeps.
Lemma ok_stack64 sel ist dpl cpl : ok (stack64 d sel ist dpl cpl).
Proof. unfold stack64. cbv zeta. keeps_steps. Qed.
#[local] Hint Resolve ok_stack64 : keeps.
Lemma ok_gate64 n i c next hw : ok (do_gate64 d n i c next hw).
Proof. unfold do_gate64. cbv zeta. keeps_steps. Qed.
#[local] Hint Resolve ok_gate64 : keeps.
Lemma ok_interrupt64 n i c next hw : ok (do_interrupt64 d shl_ub junk n i c next hw).
Proof. unfold do_interrupt64. keeps_steps. Qed.
Lemma ok_real n i c next : ok (do_interrupt_real d n i c next).
Proof.
  unfold do_interrupt_real. cbv zeta. keeps_steps. apply keeps_mod_env. intros e He.
  sync_step. apply real_cs_sync; [done|done|]. sync_steps.
Qed.
Lemma ok_even_inj n i c hw rm : ok (handle_even_inj d n i c hw rm).
Proof. unfold handle_even_inj. cbv zeta. keeps_steps. Qed.
#[local] Hint Resolve ok_protected ok_interrupt64 ok_real ok_even_inj : keeps.
Lemma ok_interrupt_all n i c next hw : ok (do_interrupt_all d shl_ub junk n i c next hw).
Proof. unfold do_interrupt_all. cbv zeta. keeps_steps. Qed.
#[local] Hint Resolve ok_interrupt_all : keeps.

(** *** World switches *)
Lemma ok_save_fields p l : ok (save_fields p l).
Proof. by apply keeps_modify. Qed.
#[local] Hint Resolve ok_save_fields : keeps.

Lemma sync_mod_settles f : (forall e, mirrors e -> hflags_sync (f e)) -> ok (mod_env d f).
Proof. intros Hf. apply keeps_mod_env. intros e [Hm _]. by apply Hf. Qed.

Lemma ok_reload_host mm : ok (mod_env d (fun e => reload_host mm (vm_hsave e) (e <| int_ctl := 0 |> <| tsc_offset := 0 |>))).
Proof. apply sync_mod_settles. intros e He. apply reload_host_settles. sync_steps. Qed.
#[local] Hint Resolve ok_reload_host : keeps.

Lemma ok_vmexit : ok (do_vmexit d).
Proof. unfold do_vmexit. cbv zeta. keeps_steps. Qed.
Lemma ok_smm_enter : ok (do_smm_enter d).
Proof. unfold do_smm_enter. keeps_steps. apply sync_mod_settles, smm_init_settles. Qed.
Lemma ok_rsm : ok (helper_rsm d).
Proof. unfold helper_rsm. keeps_steps. apply sync_mod_settles. intros e. apply rsm_settles. Qed.
#[local] Hint Resolve ok_vmexit ok_smm_enter : keeps.

Lemma ok_vmmcall : ok (helper_vmmcall d).
Proof. unfold helper_vmmcall. keeps_steps. Qed.
Lemma ok_vls c : ok (virtual_vm_load_save_enabled d c).
Proof. unfold virtual_vm_load_save_enabled. cbv zeta. keeps_steps. Qed.
#[local] Hint Resolve ok_vls : keeps.
Lemma ok_svm_operand c a t : ok (svm_operand d c a t).
Proof. unfold svm_operand. cbv zeta. keeps_steps. Qed.
#[local] Hint Resolve ok_svm_operand : keeps.
Lemma vmload_sync mm a e : hflags_sync e -> hflags_sync (vmload_env mm a e).
Proof. intros He. cbv beta delta [vmload_env]. let_step hflags_sync. unfold svm_load_seg_cache. cbv zeta. sync_steps. Qed.
Lemma ok_vmload a : ok (helper_vmload d a).
Proof. unfold helper_vmload. keeps_steps. apply keeps_mod_env. intros e. apply vmload_sync. Qed.
Lemma ok_vmsave a : ok (helper_vmsave d a).
Proof. unfold helper_vmsave. keeps_steps. Qed.
Lemma ok_stgi : ok (helper_stgi d).
Proof. unfold helper_stgi. keeps_steps. Qed.
Lemma ok_clgi : ok (helper_clgi d).
Proof. unfold helper_clgi. keeps_steps. Qed.

Lemma ok_vmexit_when b : ok (vmexit_when d b).
Proof. unfold vmexit_when. keeps_steps. Qed.
#[local] Hint Resolve ok_vmexit_when : keeps.
Lemma ok_load_intercepts mm v : ok (mod_env d (load_intercepts mm v)).
Proof. apply keeps_mod_env. intros e. apply view_sync. outside. Qed.
#[local] Hint Resolve ok_load_intercepts : keeps.
Lemma ok_vmrun_control v : ok (vmrun_control d v).
Proof. unfold vmrun_control. cbv zeta. keeps_steps. Qed.
Lemma ok_vmrun_state v : ok (vmrun_state d v).
Proof.
  unfold vmrun_state. cbv zeta. keeps_steps. apply sync_mod_settles. intros e. apply load_guest_settles.
Qed.
Lemma ok_inject v c i n : ok (inject d v c i n).
Proof. unfold inject. keeps_steps. Qed.
#[local] Hint Resolve ok_vmrun_control ok_vmrun_state ok_inject : keeps.
Lemma ok_hardirq n hw : ok (do_interrupt_x86_hardirq d shl_ub junk n hw).
Proof. unfold do_interrupt_x86_hardirq. keeps_steps. Qed.
#[local] Hint Resolve ok_hardirq : keeps.
Lemma ok_vmrun_event v : ok (vmrun_event d shl_ub junk v).
Proof. unfold vmrun_event. cbv zeta. keeps_steps. Qed.
#[local] Hint Resolve ok_vmrun_event : keeps.
Lemma ok_vmrun a n : ok (helper_vmrun d shl_ub junk a n).
Proof. unfold helper_vmrun. cbv zeta. keeps_steps. Qed.

(** *** The execution loop *)
Lemma ok_poll : ok (modify (fun m => apic_poll_irq d (cpu_reset_interrupt d CPU_INTERRUPT_POLL m))).
Proof. apply ok_quiet. intros m. unfold apic_poll_irq. by rewrite update_irq_env, sync_env, env_reset_interrupt. Qed.

Lemma upd_cpu_sync f m : (forall c, hflags_sync (env c) -> hflags_sync (env (f c))) ->
  hflags_sync (cpu_env k m) -> hflags_sync (cpu_env k (upd_cpu d f m)).
Proof.
  intros Hf. unfold cpu_env, upd_cpu. cbn. unfold lookup_total, map_lookup_total. destruct (decide (k = d)) as [->|].
  - rewrite lookup_alter_eq. destruct (cpus m !! d); [apply Hf|done].
  - by rewrite lookup_alter_ne.
Qed.

Lemma ok_sipi : ok (modify (apic_sipi d)).
Proof.
  intros m Hm. cbn [modify after]. unfold apic_sipi. cbv zeta. rewrite <- (env_reset_interrupt k d CPU_INTERRUPT_SIPI m) in Hm.
  case_if; [done|]. rewrite env_upd_apic. apply upd_cpu_sync; [|done]. intros c. apply sipi_sync.
Qed.
Lemma ok_pic_interrupt : ok (fun m => let '(n, m) := cpu_get_pic_interrupt d m in Ret n m).
Proof.
  intros m Hm. pose proof (pic_interrupt_env k d m) as E. destruct (cpu_get_pic_interrupt d m) as [n m']. cbn [snd after] in *. by rewrite E.
Qed.
#[local] Hint Resolve ok_poll ok_sipi ok_pic_interrupt : keeps.

Lemma ok_exec_interrupt q : ok (x86_cpu_exec_interrupt d shl_ub junk q).
Proof. unfold x86_cpu_exec_interrupt. cbv zeta. keeps_steps. Qed.
Lemma ok_do_interrupt : ok (x86_cpu_do_interrupt d shl_ub junk).
Proof. unfold x86_cpu_do_interrupt. keeps_steps. Qed.
Lemma ok_check_io a n : ok (helper_check_io d a n).
Proof. unfold helper_check_io. cbv zeta. keeps_steps. Qed.
Lemma ok_sysret f : ok (helper_sysret d f).
Proof. unfold helper_sysret. keeps_steps. apply keeps_mod_env. intros e. apply sysret_sync. Qed.
Lemma ok_syscall n : ok (helper_syscall d n).
Proof. unfold helper_syscall. keeps_steps. apply keeps_mod_env. intros e. apply syscall_sync. Qed.

(** *** Registers *)
Lemma ok_set_base v : ok (modify (cpu_set_apic_base (Some d) v)).
Proof.
  intros m Hm. cbn [modify after]. unfold cpu_set_apic_base, apic_set_base. cbv zeta.
  case_ifs; rewrite ?env_upd_apic; try done; apply upd_cpu_sync; try done; intros c Hc; by apply (view_sync (env c)); [outside|].
Qed.
Lemma ok_set_tpr v : ok (modify (cpu_set_apic_tpr (Some d) v)).
Proof. apply ok_quiet. intros m. apply set_tpr_env. Qed.
Lemma ok_msr_write c v : ok (mod_env d (fun e => default e (msr_write c v e))).
Proof. apply keeps_mod_env. intros e He. destruct (msr_write c v e) eqn:E; [by eapply msr_write_sync|done]. Qed.
Lemma ok_slot s v : ok (mod_env d (slot_set s v)).
Proof. apply keeps_mod_env. intros e He. destruct s; cbn [slot_set]; sync_steps. Qed.
#[local] Hint Resolve ok_set_base ok_set_tpr ok_msr_write ok_slot : keeps.

Lemma ok_wrmsr : ok (helper_wrmsr d shl_ub).
Proof. unfold helper_wrmsr. cbv zeta. keeps_steps. Qed.
Lemma ok_rdmsr : ok (helper_rdmsr d).
Proof. unfold helper_rdmsr. cbv zeta. keeps_steps. Qed.
Lemma ok_get_tpr : ok (fun m => let '(v, m) := cpu_get_apic_tpr (Some d) m in Ret v m).
Proof.
  intros m Hm. pose proof (get_tpr_env k (Some d) m) as E. destruct (cpu_get_apic_tpr (Some d) m) as [v m']. cbn [snd after] in *. by rewrite E.
Qed.
#[local] Hint Resolve ok_get_tpr : keeps.
Lemma ok_read_crN r : ok (helper_read_crN d r).
Proof. unfold helper_read_crN. keeps_steps. Qed.
Lemma ok_virq e : ok (modify (if ctl_has_irq e then cpu_interrupt d CPU_INTERRUPT_VIRQ else cpu_reset_interrupt d CPU_INTERRUPT_VIRQ)).
Proof. destruct (ctl_has_irq e); [apply ok_interrupt|apply ok_reset_interrupt]. Qed.
#[local] Hint Resolve ok_virq : keeps.

Lemma ok_write_crN r v : 0 <= r -> ok (helper_write_crN d r v).
Proof.
  intros Hr. unfold helper_write_crN. keeps_steps. apply keeps_mod_env. intros e. zbool. apply put_cr_sync; lia.
Qed.
Lemma ok_add_eip n : ok (add_eip d n).
Proof. unfold add_eip. keeps_steps. Qed.
#[local] Hint Resolve ok_add_eip : keeps.
Lemma ok_rdtsc t : ok (helper_rdtsc d t).
Proof. unfold helper_rdtsc. keeps_steps. Qed.
#[local] Hint Resolve ok_rdtsc : keeps.
Lemma ok_rdtscp t : ok (helper_rdtscp d t).
Proof. unfold helper_rdtscp. keeps_steps. Qed.
Lemma ok_rdpmc : ok (helper_rdpmc d).
Proof. unfold helper_rdpmc. keeps_steps. Qed.
Lemma ok_rdpkru c : ok (helper_rdpkru d c).
Proof. unfold helper_rdpkru. keeps_steps. Qed.
Lemma ok_wrpkru c v : ok (helper_wrpkru d c v).
Proof. unfold helper_wrpkru. keeps_steps. Qed.
Lemma ok_into n : ok (helper_into d n).
Proof. unfold helper_into. keeps_steps. Qed.
Lemma ok_do_pause : ok (do_pause d).
Proof. unfold do_pause. keeps_steps. Qed.
Lemma ok_halted : ok (modify (upd_cpu d (fun c => c <| halted := 1 |>))).
Proof. intros m Hm. by apply upd_cpu_sync. Qed.
#[local] Hint Resolve ok_halted : keeps.
Lemma ok_do_hlt : ok (do_hlt d).
Proof. unfold do_hlt. keeps_steps. Qed.
#[local] Hint Resolve ok_do_pause ok_do_hlt : keeps.
Lemma ok_pause n : ok (helper_pause d n).
Proof. unfold helper_pause. keeps_steps. Qed.
Lemma ok_hlt n : ok (helper_hlt d n).
Proof. unfold helper_hlt. keeps_steps. Qed.
Lemma ok_monitor p : ok (helper_monitor d p).
Proof. unfold helper_monitor. keeps_steps. Qed.
Lemma ok_mwait n : ok (helper_mwait d n).
Proof. unfold helper_mwait. keeps_steps. Qed.

Lemma ok_dr_alias r : ok (dr_alias d r).
Proof. unfold dr_alias. keeps_steps. Qed.
Lemma ok_view f : (forall e, same_view e (f e)) -> ok (mod_env d f).
Proof. intros Hf. apply keeps_mod_env. intros e. apply view_sync, Hf. Qed.
Lemma set_address_view r v e : same_view e (set_address r v e).
Proof.
  unfold set_address. case_if; [|apply set_drn_view].
  eapply view_trans; [|apply bp_insert_view]. eapply view_trans; [apply bp_remove_view|apply set_drn_view].
Qed.
Lemma ok_set_address r v : ok (mod_env d (set_address r v)).
Proof. apply ok_view. intros e. apply set_address_view. Qed.
Lemma ok_set_drn r v : ok (mod_env d (set_drn r v)).
Proof. apply ok_view. intros e. apply set_drn_view. Qed.
#[local] Hint Resolve ok_dr_alias ok_set_address ok_set_drn : keeps.
Lemma ok_get_dr r : ok (helper_get_dr d r).
Proof. unfold helper_get_dr. keeps_steps. Qed.
Lemma ok_set_dr r v : ok (helper_set_dr d r v).
Proof. unfold helper_set_dr. keeps_steps. Qed.
Lemma ok_bpt_io p n e : ok (helper_bpt_io d p n e).
Proof. unfold helper_bpt_io. cbv zeta. keeps_steps. apply ok_view. intros e0. outside. Qed.
Lemma ok_svm_check_io p q n : ok (helper_svm_check_io d p q n).
Proof. unfold helper_svm_check_io. cbv zeta. keeps_steps. Qed.

(** *** Far transfers *)
Lemma ok_popw w ssp sp m : ok (POPW d w ssp sp m).
Proof. unfold POPW. keeps_steps. Qed.
Lemma ok_popl w ssp sp m : ok (POPL d w ssp sp m).
Proof. unfold POPL. keeps_steps. Qed.
#[local] Hint Resolve ok_popw ok_popl : keeps.
Lemma ok_push_sized sh ssp sp m v : ok (push_sized d sh ssp sp m v).
Proof. unfold push_sized. keeps_steps. Qed.
Lemma ok_pop_sized sh ssp sp m : ok (pop_sized d sh ssp sp m).
Proof. unfold pop_sized. keeps_steps. Qed.
Lemma ok_system_segment sel l : ok (system_segment d sel l).
Proof. unfold system_segment. cbv zeta. keeps_steps. Qed.
#[local] Hint Resolve ok_push_sized ok_pop_sized ok_system_segment : keeps.
Lemma ok_lldt sel : ok (helper_lldt d sel).
Proof. unfold helper_lldt. cbv zeta. keeps_steps. Qed.
Lemma ok_ltr sel : ok (helper_ltr d sel).
Proof. unfold helper_ltr. cbv zeta. keeps_steps. Qed.
Lemma ok_load_seg r sel : ok (helper_load_seg d r sel).
Proof. unfold helper_load_seg. cbv zeta. keeps_steps. Qed.

Lemma ok_direct_code cs e2 cpl : ok (direct_code d cs e2 cpl).
Proof. unfold direct_code. cbv zeta. keeps_steps. Qed.
Lemma ok_set_cs s e1 e2 : ok (mod_env d (set_cs s e1 e2)).
Proof. apply keeps_mod_env. intros e. apply set_cs_sync. Qed.
Lemma ok_set_cs_eip s e1 e2 ip : ok (mod_env d (fun e => set_cs s e1 e2 e <| eip := ip |>)).
Proof. apply keeps_mod_env. intros e He. sync_step. by apply set_cs_sync. Qed.
#[local] Hint Resolve ok_direct_code ok_set_cs ok_set_cs_eip : keeps.
Lemma ok_gate_upper e cs : ok (gate_upper d e cs).
Proof. unfold gate_upper. cbv zeta. keeps_steps. Qed.
Lemma ok_gate_code64 e sel e2 : ok (gate_code64 d e sel e2).
Proof. unfold gate_code64. keeps_steps. Qed.
#[local] Hint Resolve ok_gate_upper ok_gate_code64 : keeps.
Lemma ok_jump_gate cs e1 e2 cpl : ok (jump_gate d cs e1 e2 cpl).
Proof. unfold jump_gate. cbv zeta. keeps_steps. Qed.
#[local] Hint Resolve ok_jump_gate : keeps.
Lemma ok_ljmp cs ip n : ok (helper_ljmp_protected d cs ip n).
Proof. unfold helper_ljmp_protected. cbv zeta. keeps_steps. Qed.

Lemma ok_lcall_real cs ip sh n : ok (helper_lcall_real d cs ip sh n).
Proof.
  unfold helper_lcall_real. cbv zeta. keeps_steps; apply keeps_mod_env; intros e He;
    (apply real_cs_sync; [done|done|]); sync_step; by apply set_esp_sync.
Qed.
Lemma ok_call_direct cs ip sh n e1 e2 cpl : ok (call_direct d cs ip sh n e1 e2 cpl).
Proof.
  unfold call_direct. cbv zeta. keeps_steps. apply keeps_mod_env. intros e He. sync_step. apply set_cs_sync.
  case_if; [sync_steps|by apply set_esp_sync].
Qed.
Lemma ok_copy_params sh oe os om ssp m i sp : ok (copy_params d sh oe os om ssp m i sp).
Proof. revert sp. induction i as [|i IH]; intros sp; cbn [copy_params]; cbv zeta; keeps_steps. Qed.
#[local] Hint Resolve ok_call_direct ok_copy_params : keeps.
Lemma ok_call_stack sh dpl cpl e2 n : ok (call_stack d sh dpl cpl e2 n).
Proof. unfold call_stack. cbv zeta. keeps_steps. Qed.
Lemma ok_enter_call sh sel e1 e2 dpl o s sp : ok (mod_env d (enter_call sh sel e1 e2 dpl o s sp)).
Proof. apply keeps_mod_env. intros e. apply enter_call_sync. Qed.
#[local] Hint Resolve ok_call_stack ok_enter_call : keeps.
Lemma ok_call_gate cs n e1 e2 cpl : ok (call_gate d cs n e1 e2 cpl).
Proof. unfold call_gate. cbv zeta. keeps_steps. Qed.
#[local] Hint Resolve ok_call_gate : keeps.
Lemma ok_lcall cs ip sh n : ok (helper_lcall_protected d cs ip sh n).
Proof. unfold helper_lcall_protected. cbv zeta. keeps_steps. Qed.

Lemma ok_iret_real sh : ok (helper_iret_real d sh).
Proof.
  unfold helper_iret_real. cbv zeta. keeps_steps; apply keeps_mod_env; intros e He; do 3 sync_step;
    (apply real_cs_sync; [done|done|]); sync_steps.
Qed.
Lemma ok_ret_ss ss rpl : ok (ret_ss d ss rpl).
Proof. unfold ret_ss. cbv zeta. keeps_steps. Qed.
Lemma ok_ret_code cs cpl : ok (ret_code d cs cpl).
Proof. unfold ret_code. cbv zeta. keeps_steps. Qed.
#[local] Hint Resolve ok_ret_ss ok_ret_code : keeps.
Lemma ok_ret_outer cs e1 e2 ss : ok (ret_outer d cs e1 e2 ss).
Proof. unfold ret_outer. cbv zeta. keeps_steps. apply keeps_mod_env. intros e He. by do 4 apply validate_sync. Qed.
Lemma ok_vm86 cs ip fl sp ss es ds fs gs : ok (mod_env d (vm86_env cs ip fl sp ss es ds fs gs)).
Proof. apply keeps_mod_env. intros e. apply vm86_sync. Qed.
#[local] Hint Resolve ok_ret_outer ok_vm86 : keeps.
Lemma ok_return_to_vm86 ssp sp m cs ip fl : ok (return_to_vm86 d ssp sp m cs ip fl).
Proof. unfold return_to_vm86. keeps_steps. Qed.
Lemma ok_ret_to sh i a ssp sp m cs ip fl : ok (ret_to d sh i a ssp sp m cs ip fl).
Proof.
  unfold ret_to. cbv zeta. keeps_steps; apply keeps_mod_env; intros e He; repeat sync_step; by apply set_esp_sync.
Qed.
#[local] Hint Resolve ok_return_to_vm86 ok_ret_to : keeps.
Lemma ok_ret_protected sh i a : ok (helper_ret_protected d sh i a).
Proof. unfold helper_ret_protected. cbv zeta. keeps_steps. Qed.
#[local] Hint Resolve ok_ret_protected : keeps.
Lemma ok_iret_protected sh n : ok (helper_iret_protected d sh n).
Proof. unfold helper_iret_protected. cbv zeta. keeps_steps. Qed.
Lemma ok_sysenter : ok (helper_sysenter d).
Proof. unfold helper_sysenter. keeps_steps. apply keeps_mod_env, sysenter_sync. Qed.
Lemma ok_sysexit f : ok (helper_sysexit d f).
Proof. unfold helper_sysexit. keeps_steps. apply keeps_mod_env. intros e. apply sysexit_sync. Qed.
Lemma ok_query_op s v r : ok (query_op d s v r).
Proof. unfold query_op, query, answer. cbv zeta. keeps_steps. Qed.
End helpers.

(** ** Runs *)

(** The helpers that only compute on the processor state. *)
Definition env_helpers : list (CPUX86State -> CPUX86State) :=
  [helper_clts; helper_reset_rf; helper_cli; helper_sti; helper_clac; helper_stac; helper_stui; helper_clui; helper_testui].

Lemma env_helpers_sync f e : f ∈ env_helpers -> hflags_sync e -> hflags_sync (f e).
Proof.
  unfold env_helpers. rewrite !elem_of_cons, elem_of_nil. intros Hf He.
  repeat destruct Hf as [-> | Hf]; try done; [by apply clts_sync|..]; apply (view_sync e); try done; try outside.
  unfold helper_testui. case_if; outside.
Qed.

(** What a processor can execute: the helpers called by the translated code and
    by the execution loop. *)
Inductive helper (shl_ub : Z -> Z) (junk : Z) (n d : nat) : forall {A}, X A -> Prop :=
| h_env f : f ∈ env_helpers -> helper shl_ub junk n d (mod_env d f)
| h_write_eflags t0 m : helper shl_ub junk n d (mod_env d (helper_write_eflags t0 m))
| h_raise_interrupt i a : helper shl_ub junk n d (helper_raise_interrupt d i a)
| h_raise_exception i : helper shl_ub junk n d (helper_raise_exception d i)
| h_check_intercept t : helper shl_ub junk n d (helper_svm_check_intercept d t)
| h_svm_check_io p q a : helper shl_ub junk n d (helper_svm_check_io d p q a)
| h_ld k a i : helper shl_ub junk n d (cpu_ld_mmuidx d k a i)
| h_st k a v i : helper shl_ub junk n d (cpu_st_mmuidx d k a v i)
| h_get_dr r : helper shl_ub junk n d (helper_get_dr d r)
| h_set_dr r v : helper shl_ub junk n d (helper_set_dr d r v)
| h_bpt_io p s a : helper shl_ub junk n d (helper_bpt_io d p s a)
| h_uiret : helper shl_ub junk n d (helper_uiret d)
| h_senduipi r : helper shl_ub junk n d (helper_senduipi d shl_ub junk r)
| h_exec_interrupt q : helper shl_ub junk n d (x86_cpu_exec_interrupt (H := sys_eoi n) d shl_ub junk q)
| h_do_interrupt : helper shl_ub junk n d (x86_cpu_do_interrupt (H := sys_eoi n) d shl_ub junk)
| h_check_io a s : helper shl_ub junk n d (helper_check_io d a s)
| h_syscall a : helper shl_ub junk n d (helper_syscall d a)
| h_sysret f : helper shl_ub junk n d (helper_sysret d f)
| h_sysenter : helper shl_ub junk n d (helper_sysenter d)
| h_sysexit f : helper shl_ub junk n d (helper_sysexit d f)
| h_vmrun a b : helper shl_ub junk n d (helper_vmrun (H := sys_eoi n) d shl_ub junk a b)
| h_vmmcall : helper shl_ub junk n d (helper_vmmcall d)
| h_vmload a : helper shl_ub junk n d (helper_vmload d a)
| h_vmsave a : helper shl_ub junk n d (helper_vmsave d a)
| h_stgi : helper shl_ub junk n d (helper_stgi d)
| h_clgi : helper shl_ub junk n d (helper_clgi d)
| h_rsm : helper shl_ub junk n d (helper_rsm d)
| h_read_crN r : helper shl_ub junk n d (helper_read_crN d r)
| h_write_crN r v : 0 <= r -> helper shl_ub junk n d (helper_write_crN d r v)
| h_wrmsr : helper shl_ub junk n d (helper_wrmsr d shl_ub)
| h_rdmsr : helper shl_ub junk n d (helper_rdmsr d)
| h_rdtsc t : helper shl_ub junk n d (helper_rdtsc d t)
| h_rdtscp t : helper shl_ub junk n d (helper_rdtscp d t)
| h_rdpmc : helper shl_ub junk n d (helper_rdpmc d)
| h_rdpkru c : helper shl_ub junk n d (helper_rdpkru d c)
| h_wrpkru c v : helper shl_ub junk n d (helper_wrpkru d c v)
| h_into a : helper shl_ub junk n d (helper_into d a)
| h_pause a : helper shl_ub junk n d (helper_pause d a)
| h_hlt a : helper shl_ub junk n d (helper_hlt d a)
| h_monitor p : helper shl_ub junk n d (helper_monitor d p)
| h_mwait a : helper shl_ub junk n d (helper_mwait d a)
| h_lldt s : helper shl_ub junk n d (helper_lldt d s)
| h_ltr s : helper shl_ub junk n d (helper_ltr d s)
| h_load_seg r s : helper shl_ub junk n d (helper_load_seg d r s)
| h_ljmp c i a : helper shl_ub junk n d (helper_ljmp_protected d c i a)
| h_lcall_real c i s a : helper shl_ub junk n d (helper_lcall_real d c i s a)
| h_lcall c i s a : helper shl_ub junk n d (helper_lcall_protected d c i s a)
| h_iret_real s : helper shl_ub junk n d (helper_iret_real d s)
| h_iret s a : helper shl_ub junk n d (helper_iret_protected d s a)
| h_lret s a : helper shl_ub junk n d (helper_lret_protected d s a)
| h_lsl s : helper shl_ub junk n d (helper_lsl d s)
| h_lar s : helper shl_ub junk n d (helper_lar d s)
| h_verr s : helper shl_ub junk n d (helper_verr d s)
| h_verw s : helper shl_ub junk n d (helper_verw d s).

Create HintDb sync discriminated.
#[local] Hint Constants Opaque : sync.
#[local] Hint Resolve ok_svm_check_io ok_get_dr ok_set_dr ok_bpt_io ok_uiret ok_senduipi ok_exec_interrupt
  ok_do_interrupt ok_check_io ok_syscall ok_sysret ok_sysenter ok_sysexit ok_vmrun ok_vmmcall ok_vmload
  ok_vmsave ok_stgi ok_clgi ok_rsm ok_read_crN ok_write_crN ok_wrmsr ok_rdmsr ok_rdtsc ok_rdtscp ok_rdpmc
  ok_rdpkru ok_wrpkru ok_into ok_pause ok_hlt ok_monitor ok_mwait ok_lldt ok_ltr ok_load_seg ok_ljmp
  ok_lcall_real ok_lcall ok_iret_real ok_iret_protected ok_ret_protected ok_query_op
  keeps_ld_mmuidx keeps_st_mmuidx keeps_raise keeps_intercept sync_exception_blind sync_cr2_blind sys_eoi_quiet : sync.

Lemma helper_ok shl_ub junk n k d A (x : X A) : helper shl_ub junk n d x -> keeps k hflags_sync x.
Proof.
  destruct 1; try solve [eauto with sync nocore].
  - apply keeps_mod_env. intros e. by apply env_helpers_sync.
  - apply keeps_mod_env. intros e He. unfold helper_write_eflags. sync_steps.
  - unfold helper_raise_interrupt, raise_interrupt. eauto with sync.
  - unfold helper_raise_exception, raise_exception. eauto with sync.
  - unfold helper_svm_check_intercept. eauto with sync.
  - unfold helper_lret_protected. eauto with sync.
  - unfold helper_lsl. eauto with sync.
  - unfold helper_lar. eauto with sync.
  - apply keeps_bind; [apply ok_query_op|intros; apply keeps_ret].
  - apply keeps_bind; [apply ok_query_op|intros; apply keeps_ret].
Qed.

(** A step of the machine: a processor runs a helper to its end, or the bus
    writes to an interrupt controller. *)
Inductive cpu_step (shl_ub : Z -> Z) (junk : Z) (n : nat) : relation Machine :=
| step_helper d A (x : X A) m : helper shl_ub junk n d x -> cpu_step shl_ub junk n m (after (x m))
| step_bus a v m : cpu_step shl_ub junk n m (sys_stl n a v m).

(** C8. The cached flags of every processor are right at all times: whatever
    helpers the processors run, in whatever order, and however each of them ends
    (returns, faults, exits to the host or aborts), the bits of [hflags] that
    repeat CR0, CR4, EFER and the DPL of SS equal the bits they repeat, and the
    64-bit mode bit is only set in long mode with a 64-bit code segment. *)
Theorem hflags_always_synced shl_ub junk n k m m' :
  rtc (cpu_step shl_ub junk n) m m' -> hflags_sync (cpu_env k m) -> hflags_sync (cpu_env k m').
Proof.
  induction 1 as [|m1 m2 m3 Hstep _ IH]; [done|]. intros Hm. apply IH. destruct Hstep as [d A x m Hx|a v m].
  - by eapply helper_ok.
  - by rewrite sys_stl_env.
Qed.

(** Protected mode is switched on. *)
Lemma hflags_always_synced_witness :
  let m := after (helper_write_crN 0 0 0x11 (ex_machine 2)) in
  Z.testbit (hflags (cpu_env 0 m)) 7 = true /\ hflags_sync (cpu_env 0 m).
Proof.
  split; [vm_compute; reflexivity|].
  apply (hflags_always_synced (fun _ => 0) 0 0 0 (ex_machine 2)).
  - apply rtc_once. apply (step_helper _ _ _ 0 unit). apply h_write_crN. lia.
  - split; [split; [reflexivity|reflexivity|vm_compute; repeat constructor]|]. intros H. vm_compute in H. discriminate.
Defined.
