(* ===== verification/Scf.v ===== *)
(** * The system-call forwarding queue (nimbos/kernel/src/scf/queue.rs,
    nimbos-driver/apps/libs/scf.c, nimbos-driver/apps/libs/syscall.c)

    The real-time kernel forwards system calls to a Linux process through a page
    of shared memory: descriptors, a ring of requests and a ring of responses.
    The kernel (Rust) and the process (C) each keep private indices.  A Rust
    panic or a failed C assertion is [None]. *)
From S2P Require Import Prelude.

(** ** Layout of the buffer *)
Definition SYSCALL_QUEUE_BUFFER_MAGIC : Z := 0x4643537f.
Definition size_of_metadata : Z := 12.
Definition size_of_descriptor : Z := 24.
Definition align_of_descriptor : Z := 8.
Definition size_of_u16 : Z := 2.

Definition align_up (addr alignment : Z) : Z := clr (addr + alignment - 1) (alignment - 1).

(** [usize::is_power_of_two] and [usize::next_power_of_two]. *)
Definition is_power_of_two (n : Z) : bool := (0 <? n) && (Z.land n (n - 1) =? 0).
Definition next_power_of_two (n : Z) : Z := if n <=? 1 then 1 else bit (Z.log2_up n).

Record layout := mkLayout { lo_capacity : Z; desc_base : Z; req_base : Z; rsp_base : Z }.

Definition queue_capacity (buf_size : Z) : option Z :=
  let meta_size := align_up size_of_metadata align_of_descriptor in
  if buf_size <? meta_size then None  (* attempt to subtract with overflow *)
  else
    let capacity := (buf_size - meta_size) / (size_of_descriptor + size_of_u16 * 2) in
    let capacity := if is_power_of_two capacity then capacity else next_power_of_two (capacity / 2) in
    if (0 <? capacity) && (capacity <? 0xffff) then Some capacity else None.

(** The kernel's view of the buffer at [meta_base]. *)
Definition queue_layout (meta_base buf_size : Z) : option layout :=
  capacity ← queue_capacity buf_size;
  if nz (Z.land meta_base 0xfff) then None else  (* assert!(base_vaddr.is_aligned()) *)
  let meta_size := align_up size_of_metadata align_of_descriptor in
  let desc_base := meta_base + meta_size in
  let req_base := desc_base + capacity * size_of_descriptor in
  Some (mkLayout capacity desc_base req_base (req_base + capacity * size_of_u16)).

(** The process's view, from the fields it finds in the buffer. *)
Definition setup_layout (meta_base magic capacity : Z) : option layout :=
  if negb (magic =? SYSCALL_QUEUE_BUFFER_MAGIC) then None
  else if (capacity =? 0) || nz (Z.land capacity (capacity - 1)) then None
  else
    let desc := meta_base + align_up size_of_metadata 8 in
    let req_ring := desc + capacity * size_of_descriptor in
    Some (mkLayout capacity desc req_ring (req_ring + capacity * size_of_u16)).

(** ** Shared and private state *)
Record ScfDescriptor := mkDesc { valid : bool; opcode : Z; args : Z; ret_val : Z }.
#[export] Instance desc_inhabited : Inhabited ScfDescriptor := populate (mkDesc false 0 0 0).

Record shared := mkShared {
  magic : Z; capacity : Z; req_index : Z; rsp_index : Z;
  desc : list ScfDescriptor; req_ring : list Z; rsp_ring : list Z;
}.

(** [SyscallQueueBuffer] of the kernel. *)
Record kernel := mkKernel {
  free_count : Z; capacity_mask : Z; req_index_shadow : Z; rsp_index_last : Z; tokens : list Z;
}.

(** [struct syscall_queue_buffer] of the process. *)
Record driver := mkDriver { d_mask : Z; req_index_last : Z; rsp_index_shadow : Z }.

Record ScfResponse := mkResponse { rsp_opcode : Z; rsp_token : Z; rsp_ret_val : Z }.

#[export] Instance eta_desc : Eta ScfDescriptor := fun s => mkDesc (valid s) (opcode s) (args s) (ret_val s).
#[export] Instance set_valid : Setter valid := ltac:(derive_setter).
#[export] Instance set_opcode : Setter opcode := ltac:(derive_setter).
#[export] Instance set_args : Setter args := ltac:(derive_setter).
#[export] Instance set_ret_val : Setter ret_val := ltac:(derive_setter).
#[export] Instance eta_shared : Eta shared := fun s => mkShared (magic s) (capacity s) (req_index s) (rsp_index s) (desc s) (req_ring s) (rsp_ring s).
#[export] Instance set_magic : Setter magic := ltac:(derive_setter).
#[export] Instance set_capacity : Setter capacity := ltac:(derive_setter).
#[export] Instance set_req_index : Setter req_index := ltac:(derive_setter).
#[export] Instance set_rsp_index : Setter rsp_index := ltac:(derive_setter).
#[export] Instance set_desc : Setter desc := ltac:(derive_setter).
#[export] Instance set_req_ring : Setter req_ring := ltac:(derive_setter).
#[export] Instance set_rsp_ring : Setter rsp_ring := ltac:(derive_setter).
#[export] Instance eta_kernel : Eta kernel := fun s => mkKernel (free_count s) (capacity_mask s) (req_index_shadow s) (rsp_index_last s) (tokens s).
#[export] Instance set_free_count : Setter free_count := ltac:(derive_setter).
#[export] Instance set_capacity_mask : Setter capacity_mask := ltac:(derive_setter).
#[export] Instance set_req_index_shadow : Setter req_index_shadow := ltac:(derive_setter).
#[export] Instance set_rsp_index_last : Setter rsp_index_last := ltac:(derive_setter).
#[export] Instance set_tokens : Setter tokens := ltac:(derive_setter).
#[export] Instance eta_driver : Eta driver := fun s => mkDriver (d_mask s) (req_index_last s) (rsp_index_shadow s).
#[export] Instance set_d_mask : Setter d_mask := ltac:(derive_setter).
#[export] Instance set_req_index_last : Setter req_index_last := ltac:(derive_setter).
#[export] Instance set_rsp_index_shadow : Setter rsp_index_shadow := ltac:(derive_setter).

(** ** The kernel *)

(** [SyscallQueueBuffer::new]: the buffer it leaves and its private state. *)
Definition queue_new (cap : Z) : shared * kernel :=
  let n := Z.to_nat cap in
  (mkShared SYSCALL_QUEUE_BUFFER_MAGIC cap 0 0 (repeat (mkDesc false 0 0 0) n) (repeat 0 n) (repeat 0 n),
   mkKernel cap (cap - 1) 0 0 (repeat 0 n)).

Definition is_full (k : kernel) : bool := free_count k =? 0.
Definition has_response (s : shared) (k : kernel) : bool := negb (rsp_index_last k =? rsp_index s).

(** The first descriptor that is not valid. *)
Fixpoint first_free (l : list ScfDescriptor) (i : Z) : option Z :=
  match l with
  | [] => None
  | e :: l' => if negb (valid e) then Some i else first_free l' (i + 1)
  end.
Definition find_free_desc_locked (s : shared) : option Z := first_free (desc s) 0.

Definition free_desc_locked (index : Z) (sk : shared * kernel) : option (shared * kernel) :=
  let '(s, k) := sk in
  if negb (index <=? capacity_mask k) then None
  else
    let i := Z.to_nat index in
    if 0xffff <=? free_count k then None  (* attempt to add with overflow *)
    else Some (s <| desc := alter (fun e => e <| valid := false |>) i (desc s) |>,
               k <| tokens := <[i := 0]> (tokens k) |> <| free_count := free_count k + 1 |>).

(** Indexing panics out of bounds. *)
Definition at_index {A} (l : list A) (i : Z) : option A := l !! Z.to_nat i.

Definition pop_response_locked (sk : shared * kernel) : option (option ScfResponse * (shared * kernel)) :=
  let '(s, k) := sk in
  if has_response s k then
    entry_idx ← at_index (rsp_ring s) (Z.land (rsp_index_last k) (capacity_mask k));
    let k := k <| rsp_index_last := u16 (rsp_index_last k + 1) |> in
    if capacity_mask k <? entry_idx then Some (None, (s, k))
    else
      entry ← at_index (desc s) entry_idx;
      if negb (valid entry) then Some (None, (s, k))
      else
        token ← at_index (tokens k) entry_idx;
        sk ← free_desc_locked entry_idx (s, k);
        Some (Some (mkResponse (opcode entry) token (ret_val entry)), sk)
  else Some (None, (s, k)).

Definition send_locked (op ar token : Z) (sk : shared * kernel) : option (bool * (shared * kernel)) :=
  let '(s, k) := sk in
  if is_full k then Some (false, (s, k))
  else
    entry_idx ← find_free_desc_locked s;  (* unwrap *)
    let i := Z.to_nat entry_idx in
    _ ← at_index (tokens k) entry_idx;
    let k := k <| tokens := <[i := token]> (tokens k) |> in
    let s := s <| desc := <[i := mkDesc true op ar 0]> (desc s) |> in
    let k := k <| free_count := free_count k - 1 |> in
    let slot := Z.land (req_index_shadow k) (capacity_mask k) in
    _ ← at_index (req_ring s) slot;
    let s := s <| req_ring := <[Z.to_nat slot := entry_idx]> (req_ring s) |> in
    let k := k <| req_index_shadow := u16 (req_index_shadow k + 1) |> in
    Some (true, (s <| req_index := req_index_shadow k |>, k)).

Definition token_is_valid (token : Z) : bool := 0 <? token.

(** [handle_irq]: the conditions signalled, with the values they get.  The loop
    runs until no response is left. *)
Fixpoint handle_irq (fuel : nat) (sk : shared * kernel) : option (list (Z * Z) * (shared * kernel)) :=
  match fuel with
  | O => None
  | S f =>
      ' (r, sk) ← pop_response_locked sk;
      match r with
      | None => Some ([], sk)
      | Some rsp =>
          ' (l, sk) ← handle_irq f sk;
          Some ((if token_is_valid (rsp_token rsp) then [(rsp_token rsp, rsp_ret_val rsp)] else []) ++ l, sk)
      end
  end.

(** ** The process *)
Definition EINVAL : Z := 22.
Definition EBUSY : Z := 16.
Definition IPC_OP_READ : Z := 1.
Definition IPC_OP_WRITE : Z := 2.
Definition ICP_OP_INIT_UINTR : Z := 5.

(** [nimbos_setup_syscall_buffers], from the fields of the buffer. *)
Definition setup_buffers (s : shared) : option driver :=
  if negb (magic s =? SYSCALL_QUEUE_BUFFER_MAGIC) then None
  else if (capacity s =? 0) || nz (Z.land (capacity s) (capacity s - 1)) then None
  else Some (mkDriver (u16 (capacity s - 1)) 0 (rsp_index s)).

Definition has_request (s : shared) (b : driver) : bool := negb (req_index_last b =? req_index s).

(** The error, or the index and the descriptor popped. *)
Definition pop_syscall_request (s : shared) (b : driver) : Z + (Z * ScfDescriptor * driver) :=
  if has_request s b then
    let idx := nth (Z.to_nat (Z.land (req_index_last b) (d_mask b))) (req_ring s) 0 in
    if d_mask b <? idx then inl (- EINVAL)
    else inr (idx, nth (Z.to_nat idx) (desc s) inhabitant, b <| req_index_last := u16 (req_index_last b + 1) |>)
  else inl (- EBUSY).

Definition push_syscall_response (index v : Z) (sb : shared * driver) : Z * (shared * driver) :=
  let '(s, b) := sb in
  if d_mask b <? index then (- EINVAL, (s, b))
  else
    let s := s <| desc := alter (fun e => e <| ret_val := u64 v |>) (Z.to_nat index) (desc s) |> in
    let s := s <| rsp_ring := <[Z.to_nat (Z.land (rsp_index_shadow b) (d_mask b)) := index]> (rsp_ring s) |> in
    let b := b <| rsp_index_shadow := u16 (rsp_index_shadow b + 1) |> in
    (0, (s <| rsp_index := rsp_index_shadow b |>, b)).

(** ** The two together

    [current] is the descriptor the loop of [poll_requests] works on, [reading]
    those of the running [read_thread_fn] threads; [cur_op] is the opcode in the
    loop's copy of the descriptor, and [dead] tells that an assertion has ended
    the process.  The operations on the queue run under the lock of the buffer:
    each is one step.  What the system calls the process makes return, and the
    length a request asks for, are in the label. *)
Record system := mkSystem { sh : shared; ker : kernel; drv : option driver; current : option Z; reading : list Z; cur_op : Z; dead : bool }.
#[export] Instance eta_system : Eta system := fun s => mkSystem (sh s) (ker s) (drv s) (current s) (reading s) (cur_op s) (dead s).
#[export] Instance set_sh : Setter sh := ltac:(derive_setter).
#[export] Instance set_ker : Setter ker := ltac:(derive_setter).
#[export] Instance set_drv : Setter drv := ltac:(derive_setter).
#[export] Instance set_current : Setter current := ltac:(derive_setter).
#[export] Instance set_reading : Setter reading := ltac:(derive_setter).
#[export] Instance set_cur_op : Setter cur_op := ltac:(derive_setter).
#[export] Instance set_dead : Setter dead := ltac:(derive_setter).

(** What an observer sees of a step. *)
Inductive event :=
| Sent (op ar token : Z)  (* the kernel's send returned true *)
| Refused                 (* send returned false *)
| Taken (op ar : Z)       (* the process popped a request *)
| Answered (index v : Z)  (* a response went out *)
| Collected (r : ScfResponse)  (* pop_response returned it *)
| NoResponse              (* pop_response returned nothing *)
| Idle                    (* the process found no request *)
| Attached                (* the process mapped the buffer *)
| Died (len v : Z).       (* a write of len bytes returned v: the process aborted *)

(** Who answers a request popped by [poll_requests]: a new thread, the loop
    itself, or nobody. *)
Inductive answerer := Thread | Inline | Nobody.
Definition dispatch (op : Z) : answerer :=
  if op =? IPC_OP_READ then Thread
  else if (op =? IPC_OP_WRITE) || (op =? ICP_OP_INIT_UINTR) then Inline
  else Nobody.

Definition attach (t : system) : option system :=
  b ← setup_buffers (sh t);
  Some (t <| drv := Some b |>).

Definition do_send (op ar token : Z) (t : system) : option (event * system) :=
  ' (r, (s, k)) ← send_locked op ar token (sh t, ker t);
  Some (if (r : bool) then Sent op ar token else Refused, t <| sh := s |> <| ker := k |>).

Definition do_collect (t : system) : option (event * system) :=
  ' (r, (s, k)) ← pop_response_locked (sh t, ker t);
  Some (match r with Some rsp => Collected rsp | None => NoResponse end, t <| sh := s |> <| ker := k |>).

(** The head of the loop of [poll_requests]: pop and dispatch. *)
Definition do_poll (b : driver) (t : system) : event * system :=
  match pop_syscall_request (sh t) b with
  | inl _ => (Idle, t)
  | inr (idx, e, b) =>
      let t := t <| drv := Some b |> in
      (Taken (opcode e) (args e),
       match dispatch (opcode e) with
       | Thread => t <| reading := reading t ++ [idx] |>
       | Inline => t <| current := Some idx |> <| cur_op := opcode e |>
       | Nobody => t
       end)
  end.

Definition do_respond (idx v : Z) (b : driver) (t : system) : event * system :=
  let '(_, (s, b)) := push_syscall_response idx v (sh t, b) in
  (Answered idx v, t <| sh := s |> <| drv := Some b |>).

(** The end of a case of [poll_requests]: the response, with what the call made
    for the request returned.  The case of a write asserts [ret == args->len]. *)
Definition do_reply (idx len v : Z) (b : driver) (t : system) : option (event * system) :=
  if (cur_op t =? IPC_OP_WRITE) && negb (u64 v =? len) then None
  else let '(ev, t) := do_respond idx v b t in Some (ev, t <| current := None |>).

(** The end of [read_thread_fn] for descriptor [idx]. *)
Definition do_read_done (idx v : Z) (b : driver) (t : system) : event * system :=
  let '(ev, t) := do_respond idx v b t in (ev, t <| reading := filter (.≠ idx) (reading t) |>).

Inductive scf_step : system -> event -> system -> Prop :=
| step_send op ar token t ev t' : 0 <= op < 256 -> do_send op ar token t = Some (ev, t') -> scf_step t ev t'
| step_collect t ev t' : do_collect t = Some (ev, t') -> scf_step t ev t'
| step_attach t t' : drv t = None -> dead t = false -> attach t = Some t' -> scf_step t Attached t'
| step_poll b t ev t' : drv t = Some b -> dead t = false -> current t = None -> do_poll b t = (ev, t') -> scf_step t ev t'
| step_reply idx len v b t ev t' : drv t = Some b -> dead t = false -> current t = Some idx -> do_reply idx len v b t = Some (ev, t') -> scf_step t ev t'
| step_abort idx len v b t : drv t = Some b -> dead t = false -> current t = Some idx -> do_reply idx len v b t = None -> scf_step t (Died len v) (t <| dead := true |>)
| step_read_done idx v b t ev t' : drv t = Some b -> dead t = false -> idx ∈ reading t -> do_read_done idx v b t = (ev, t') -> scf_step t ev t'.

Inductive scf_run : system -> list event -> system -> Prop :=
| scf_nil t : scf_run t [] t
| scf_cons t ev t1 evs t2 : scf_step t ev t1 -> scf_run t1 evs t2 -> scf_run t (ev :: evs) t2.

(** A step that fails: a panic of the kernel, or a refused buffer. *)
Inductive scf_panics : system -> Prop :=
| panic_send op ar token t : do_send op ar token t = None -> scf_panics t
| panic_collect t : do_collect t = None -> scf_panics t
| panic_attach t : attach t = None -> scf_panics t.

Definition scf_init (cap : Z) : system :=
  let '(s, k) := queue_new cap in mkSystem s k None None [] 0 false.
