(* ===== verification/ScfFacts.v ===== *)
(** * The forwarding queue refines a bag of requests

    What the queue promises, and that the kernel and the process implement it
    together. *)
From S2P Require Import Prelude Scf.

(** ** The promise *)
Record request := mkRequest { r_op : Z; r_args : Z; r_token : Z }.

(** Requests on their way, requests the process works on, and responses on
    their way back. *)
Record spec := mkSpec { waiting : list request; serving : gmap Z request; answered : list (request * Z) }.

Definition outstanding (a : spec) : Z :=
  Z.of_nat (length (waiting a) + size (serving a) + length (answered a)).

(** Requests are taken in the order they were sent; a response goes to one
    request that was taken and not answered yet; responses are collected in the
    order they were given, with the token of their request; a request is refused
    only when [cap] are outstanding. *)
Inductive spec_step (cap : Z) : spec -> event -> spec -> Prop :=
| sp_sent op ar token w s d : outstanding (mkSpec w s d) < cap ->
    spec_step cap (mkSpec w s d) (Sent op ar token) (mkSpec (w ++ [mkRequest op ar token]) s d)
| sp_refused a : outstanding a = cap -> spec_step cap a Refused a
| sp_taken r i w s d : s !! i = None ->
    spec_step cap (mkSpec (r :: w) s d) (Taken (r_op r) (r_args r)) (mkSpec w (<[i := r]> s) d)
| sp_answered i v r w s d : s !! i = Some r ->
    spec_step cap (mkSpec w s d) (Answered i v) (mkSpec w (delete i s) (d ++ [(r, u64 v)]))
| sp_collected r v w s d :
    spec_step cap (mkSpec w s ((r, v) :: d)) (Collected (mkResponse (r_op r) (r_token r) v)) (mkSpec w s d)
| sp_no_response w s : spec_step cap (mkSpec w s []) NoResponse (mkSpec w s [])
| sp_idle s d : spec_step cap (mkSpec [] s d) Idle (mkSpec [] s d)
| sp_attached a : spec_step cap a Attached a
| sp_died i r len v w s d : s !! i = Some r -> r_op r = IPC_OP_WRITE -> u64 v <> len -> spec_step cap (mkSpec w s d) (Died len v) (mkSpec w s d).

Inductive spec_run (cap : Z) : spec -> list event -> spec -> Prop :=
| run_nil a : spec_run cap a [] a
| run_cons a ev b evs c : spec_step cap a ev b -> spec_run cap b evs c -> spec_run cap a (ev :: evs) c.

(** ** Rings *)
Section ring.
  Context (c : Z) (Hc : 0 <= c <= 15).
  #[local] Abbreviation cap := (2 ^ c).

Lemma cap_range : 0 < cap <= 32768.
Proof. split; [lia|]. change 32768 with (2 ^ 15). apply Z.pow_le_mono_r; lia. Qed.

Lemma mask_mod x : Z.land x (cap - 1) = x mod cap.
Proof. rewrite <- Z.land_ones by lia. by rewrite Z.ones_equiv, Z.sub_1_r. Qed.

Lemma u16_mod x : u16 x mod cap = x mod cap.
Proof.
  unfold wrap. apply Z.mod_mod_divide.
  exists (2 ^ (16 - c)). rewrite <- Z.pow_add_r by lia. f_equal. lia.
Qed.

(** [q] is what the ring holds from index [from] on. *)
Definition window (ring : list Z) (from : Z) (q : list Z) : Prop :=
  forall j i, q !! j = Some i -> ring !! Z.to_nat ((from + Z.of_nat j) mod cap) = Some i.

Lemma window_push ring from q i : window ring from q -> length ring = Z.to_nat cap -> Z.of_nat (length q) < cap ->
  window (<[Z.to_nat (Z.land (u16 (from + Z.of_nat (length q))) (cap - 1)) := i]> ring) from (q ++ [i]).
Proof.
  intros Hw Hl Hq j x Hj. pose proof cap_range. rewrite mask_mod, u16_mod.
  pose proof (Z.mod_pos_bound (from + Z.of_nat (length q)) cap ltac:(lia)).
  pose proof (Z.mod_pos_bound (from + Z.of_nat j) cap ltac:(lia)).
  destruct (decide (j = length q)) as [->|Hne].
  - rewrite lookup_app_r, Nat.sub_diag in Hj by lia. cbn in Hj. injection Hj as ->. rewrite list_lookup_insert_eq by lia. done.
  - assert (j < length q)%nat by (apply lookup_lt_Some in Hj; rewrite length_app in Hj; cbn in Hj; lia).
    rewrite lookup_app_l in Hj by lia. rewrite list_lookup_insert_ne; [by apply Hw|]. intros E.
    apply Z2Nat.inj in E; try lia. assert (D : (Z.of_nat (length q) - Z.of_nat j) mod cap = 0).
    { replace (Z.of_nat (length q) - Z.of_nat j) with ((from + Z.of_nat (length q)) - (from + Z.of_nat j)) by lia.
      rewrite Zminus_mod, E, Z.sub_diag. apply Z.mod_0_l. lia. }
    rewrite Z.mod_small in D by lia. lia.
Qed.

Lemma window_pop ring from i q : window ring from (i :: q) ->
  ring !! Z.to_nat (Z.land from (cap - 1)) = Some i /\ window ring (u16 (from + 1)) q.
Proof.
  intros Hw. split.
  - rewrite mask_mod. specialize (Hw 0%nat i eq_refl). by rewrite Z.add_0_r in Hw.
  - intros j x Hj. specialize (Hw (S j) x Hj). rewrite <- Zplus_mod_idemp_l, u16_mod, Zplus_mod_idemp_l.
    replace (from + 1 + Z.of_nat j) with (from + Z.of_nat (S j)) by lia. exact Hw.
Qed.

(** The indices tell an empty ring. *)
Lemma index_empty from (q : list Z) : 0 <= from < 65536 -> Z.of_nat (length q) <= cap ->
  (from =? u16 (from + Z.of_nat (length q))) = match q with [] => true | _ => false end.
Proof.
  intros Hf Hq. pose proof cap_range. unfold wrap. change (2 ^ 16) with 65536. destruct q as [|i q].
  - cbn [length]. rewrite Z.add_0_r, Z.mod_small by lia. apply Z.eqb_refl.
  - cbn [length] in *. apply Z.eqb_neq. intros E. assert (D : Z.of_nat (S (length q)) mod 65536 = 0).
    { replace (Z.of_nat (S (length q))) with (from + Z.of_nat (S (length q)) - from) by lia.
      rewrite Zminus_mod, <- E, (Z.mod_small from) by lia. by rewrite Z.sub_diag. }
    rewrite Z.mod_small in D by lia. lia.
Qed.
End ring.

(** ** The relation *)

(** Descriptor [i] carries request [r]. *)
Definition holds (s : shared) (k : kernel) (i : Z) (r : request) : Prop :=
  0 <= i /\ tokens k !! Z.to_nat i = Some (r_token r) /\
  exists v, desc s !! Z.to_nat i = Some (mkDesc true (r_op r) (r_args r) v).

(** ... and its response [v]. *)
Definition holds_ret (s : shared) (k : kernel) (i : Z) (rv : request * Z) : Prop :=
  0 <= i /\ tokens k !! Z.to_nat i = Some (r_token rv.1) /\
  desc s !! Z.to_nat i = Some (mkDesc true (r_op rv.1) (r_args rv.1) rv.2).

Definition req_last (t : system) : Z := match drv t with Some b => req_index_last b | None => 0 end.

(** The descriptors in use. *)
Definition ids (q1 : list Z) (a : spec) (q3 : list Z) : list Z := q1 ++ (map_to_list (serving a)).*1 ++ q3.

(** Fixed sizes. *)
Record sized (c : Z) (s : shared) (k : kernel) : Prop := {
  sz_desc : length (desc s) = Z.to_nat (2 ^ c);
  sz_req : length (req_ring s) = Z.to_nat (2 ^ c);
  sz_rsp : length (rsp_ring s) = Z.to_nat (2 ^ c);
  sz_tokens : length (tokens k) = Z.to_nat (2 ^ c);
  sz_mask : capacity_mask k = 2 ^ c - 1;
  sz_cap : capacity s = 2 ^ c;
  sz_magic : magic s = SYSCALL_QUEUE_BUFFER_MAGIC;
}.

Record rel (c : Z) (t : system) (q1 : list Z) (a : spec) (q3 : list Z) : Prop := {
  re_sized : sized c (sh t) (ker t);
  (* the rings *)
  re_shadow : req_index_shadow (ker t) = req_index (sh t);
  re_last : 0 <= req_last t < 65536;
  re_req : req_index (sh t) = u16 (req_last t + Z.of_nat (length q1));
  re_win : window c (req_ring (sh t)) (req_last t) q1;
  re_rlast : 0 <= rsp_index_last (ker t) < 65536;
  re_rsp : rsp_index (sh t) = u16 (rsp_index_last (ker t) + Z.of_nat (length q3));
  re_rwin : window c (rsp_ring (sh t)) (rsp_index_last (ker t)) q3;
  re_drv : forall b, drv t = Some b -> d_mask b = 2 ^ c - 1 /\ rsp_index_shadow b = rsp_index (sh t);
  (* the descriptors *)
  re_nodup : NoDup (ids q1 a q3);
  re_valid : forall i e, 0 <= i -> desc (sh t) !! Z.to_nat i = Some e -> valid e = true <-> i ∈ ids q1 a q3;
  re_free : free_count (ker t) = 2 ^ c - Z.of_nat (length (ids q1 a q3));
  re_waiting : Forall2 (holds (sh t) (ker t)) q1 (waiting a);
  re_serving : map_Forall (holds (sh t) (ker t)) (serving a);
  re_answered : Forall2 (holds_ret (sh t) (ker t)) q3 (answered a);
  (* the threads *)
  re_reading : forall i, i ∈ reading t -> is_Some (serving a !! i);
  re_current : forall i, current t = Some i -> (i ∉ reading t) /\ (exists r, serving a !! i = Some r /\ r_op r = cur_op t);
}.

Section sim.
  Context (c : Z) (Hc : 0 <= c <= 15).
  #[local] Abbreviation cap := (2 ^ c).

Lemma holds_range s k i r : sized c s k -> holds s k i r -> 0 <= i < cap.
Proof. intros Hs (H0 & Ht & _). apply lookup_lt_Some in Ht. rewrite (sz_tokens _ _ _ Hs) in Ht. lia. Qed.

Lemma outstanding_ids t q1 a q3 : rel c t q1 a q3 -> outstanding a = Z.of_nat (length (ids q1 a q3)).
Proof.
  intros H. unfold outstanding, ids. rewrite !length_app, length_fmap, length_map_to_list.
  by rewrite (Forall2_length (re_waiting _ _ _ _ _ H)), (Forall2_length (re_answered _ _ _ _ _ H)), Nat.add_assoc.
Qed.

(** Every descriptor in use is one of the buffer's. *)
Lemma ids_range t q1 a q3 i : rel c t q1 a q3 -> i ∈ ids q1 a q3 -> 0 <= i < cap.
Proof.
  intros H. unfold ids. rewrite !elem_of_app. intros [Hi|[Hi|Hi]].
  - apply list_elem_of_lookup in Hi as [j Hj]. destruct (Forall2_lookup_l _ _ _ _ _ (re_waiting _ _ _ _ _ H) Hj) as (r & _ & Hr).
    eapply holds_range; [apply H|exact Hr].
  - apply list_elem_of_fmap in Hi as ([x r] & -> & Hx). apply elem_of_map_to_list in Hx.
    eapply holds_range; [apply H|]. by apply (re_serving _ _ _ _ _ H).
  - apply list_elem_of_lookup in Hi as [j Hj]. destruct (Forall2_lookup_l _ _ _ _ _ (re_answered _ _ _ _ _ H) Hj) as (r & _ & H0 & Ht & _).
    apply lookup_lt_Some in Ht. rewrite (sz_tokens _ _ _ (re_sized _ _ _ _ _ H)) in Ht. lia.
Qed.

Lemma ids_bound t q1 a q3 : rel c t q1 a q3 -> Z.of_nat (length (ids q1 a q3)) <= cap.
Proof.
  intros H. assert (Hs : (length (ids q1 a q3) <= length (seqZ 0 cap))%nat).
  { apply submseteq_length, NoDup_submseteq; [apply H|]. intros i Hi. apply elem_of_seqZ. pose proof (ids_range _ _ _ _ _ H Hi). lia. }
  rewrite length_seqZ in Hs. lia.
Qed.

(** *** Frames *)
Definition same_slot (s s' : shared) (k k' : kernel) (i : Z) : Prop :=
  desc s' !! Z.to_nat i = desc s !! Z.to_nat i /\ tokens k' !! Z.to_nat i = tokens k !! Z.to_nat i.

Lemma holds_frame s s' k k' i r : same_slot s s' k k' i -> holds s k i r -> holds s' k' i r.
Proof. intros [Hd Ht]. unfold holds. by rewrite Hd, Ht. Qed.

Lemma holds_ret_frame s s' k k' i r : same_slot s s' k k' i -> holds_ret s k i r -> holds_ret s' k' i r.
Proof. intros [Hd Ht]. unfold holds_ret. by rewrite Hd, Ht. Qed.

Lemma Forall2_frame {A} (P P' : Z -> A -> Prop) q l :
  Forall2 P q l -> (forall i x, i ∈ q -> P i x -> P' i x) -> Forall2 P' q l.
Proof. induction 1; intros Hf; constructor; [apply Hf; [left|done]|]. apply IHForall2. intros. apply Hf; [by right|done]. Qed.

Lemma in_ids_1 q1 a q3 i : i ∈ q1 -> i ∈ ids q1 a q3.
Proof. intros. unfold ids. apply elem_of_app. by left. Qed.
Lemma in_ids_2 q1 a q3 i r : serving a !! i = Some r -> i ∈ ids q1 a q3.
Proof.
  intros. unfold ids. rewrite !elem_of_app. right. left. apply list_elem_of_fmap. exists (i, r). split; [done|]. by apply elem_of_map_to_list.
Qed.
Lemma in_ids_3 q1 a q3 i : i ∈ q3 -> i ∈ ids q1 a q3.
Proof. intros. unfold ids. rewrite !elem_of_app. auto. Qed.
Hint Resolve in_ids_1 in_ids_2 in_ids_3 : core.

(** The three groups of descriptors keep what they hold while their slots are
    untouched. *)
Lemma slots_kept t q1 a q3 s' k' : rel c t q1 a q3 ->
  (forall i, i ∈ ids q1 a q3 -> same_slot (sh t) s' (ker t) k' i) ->
  Forall2 (holds s' k') q1 (waiting a) /\ map_Forall (holds s' k') (serving a) /\ Forall2 (holds_ret s' k') q3 (answered a).
Proof.
  intros H Hk. split; [|split].
  - eapply Forall2_frame; [apply H|]. intros. eapply holds_frame; eauto.
  - intros i r Hi. eapply holds_frame; [eauto|]. by apply (re_serving _ _ _ _ _ H).
  - eapply Forall2_frame; [apply H|]. intros. eapply holds_ret_frame; eauto.
Qed.

(** *** Finding a free descriptor *)
Lemma first_free_some l k i : first_free l k = Some i -> k <= i /\ exists e, l !! Z.to_nat (i - k) = Some e /\ valid e = false.
Proof.
  revert k. induction l as [|e l IH]; cbn; [done|]. intros k. destruct (valid e) eqn:E; cbn.
  - intros Hf. destruct (IH _ Hf) as (Hk & e' & He & Hv). split; [lia|]. exists e'. split; [|done].
    by replace (Z.to_nat (i - k)) with (S (Z.to_nat (i - (k + 1)))) by lia.
  - intros [= <-]. split; [lia|]. exists e. by rewrite Z.sub_diag.
Qed.

Lemma first_free_none l k : first_free l k = None -> Forall (fun e => valid e = true) l.
Proof. revert k. induction l as [|e l IH]; cbn; [done|]. intros k. destruct (valid e) eqn:E; cbn; [|done]. constructor; eauto. Qed.

Lemma find_free_ok t q1 a q3 : rel c t q1 a q3 -> Z.of_nat (length (ids q1 a q3)) < cap ->
  exists i, find_free_desc_locked (sh t) = Some i /\ 0 <= i < cap /\ i ∉ ids q1 a q3.
Proof.
  intros H Hlt. unfold find_free_desc_locked. pose proof (sz_desc _ _ _ (re_sized _ _ _ _ _ H)) as Hd.
  destruct (first_free _ _) as [i|] eqn:E.
  - apply first_free_some in E as (H0 & e & He & Hv). rewrite Z.sub_0_r in He. exists i. split; [done|]. split.
    + apply lookup_lt_Some in He. lia.
    + rewrite <- (re_valid _ _ _ _ _ H i e) by done. by rewrite Hv.
  - exfalso. apply first_free_none in E. assert (Hs : (length (seqZ 0 cap) <= length (ids q1 a q3))%nat).
    { apply submseteq_length, NoDup_submseteq; [apply NoDup_seqZ|]. intros i Hi. apply elem_of_seqZ in Hi.
      destruct (lookup_lt_is_Some_2 (desc (sh t)) (Z.to_nat i)) as [e He]; [lia|].
      apply (re_valid _ _ _ _ _ H i e); [lia|done|]. by eapply (proj1 (Forall_lookup _ _) E). }
    rewrite length_seqZ in Hs. lia.
Qed.

(** *** Moving a descriptor between the groups *)
Lemma ids_sent q1 a a' q3 i : serving a' = serving a -> ids (q1 ++ [i]) a' q3 ≡ₚ i :: ids q1 a q3.
Proof. intros E. unfold ids. rewrite E, <- app_assoc. symmetry. apply Permutation_middle. Qed.

Lemma ids_taken q1 a a' q3 i r : serving a !! i = None -> serving a' = <[i := r]> (serving a) ->
  ids q1 a' q3 ≡ₚ ids (i :: q1) a q3.
Proof.
  intros Hn E. unfold ids. rewrite E, (map_to_list_insert _ _ _ Hn). cbn. symmetry. apply Permutation_middle.
Qed.

Lemma ids_answered q1 a a' q3 i r : serving a !! i = Some r -> serving a' = delete i (serving a) ->
  ids q1 a' (q3 ++ [i]) ≡ₚ ids q1 a q3.
Proof.
  intros Hs E. unfold ids. rewrite E. rewrite <- (insert_delete_id _ _ _ Hs) at 2.
  rewrite map_to_list_insert by apply lookup_delete_eq. cbn. f_equiv. by rewrite app_assoc, <- Permutation_cons_append.
Qed.

Lemma ids_collected q1 a a' q3 i : serving a' = serving a -> ids q1 a (i :: q3) ≡ₚ i :: ids q1 a' q3.
Proof. intros E. unfold ids. rewrite E, !app_assoc. symmetry. apply Permutation_middle. Qed.

(** *** The kernel *)
Lemma u16_succ x : u16 (u16 x + 1) = u16 (x + 1).
Proof. unfold wrap. apply Zplus_mod_idemp_l. Qed.
Lemma u16_range x : 0 <= u16 x < 65536.
Proof. apply Z.mod_pos_bound. lia. Qed.

Lemma slot_lt l (x : Z) {A} (r : list A) : length r = Z.to_nat cap -> l = Z.land x (cap - 1) -> (Z.to_nat l < length r)%nat.
Proof. intros -> ->. rewrite mask_mod by lia. pose proof (cap_range c Hc). pose proof (Z.mod_pos_bound x cap). lia. Qed.

(** What [send_locked] does with descriptor [i]. *)
Definition sent_shared (op ar i : Z) (s : shared) (k : kernel) : shared :=
  s <| desc := <[Z.to_nat i := mkDesc true op ar 0]> (desc s) |>
    <| req_ring := <[Z.to_nat (Z.land (req_index_shadow k) (capacity_mask k)) := i]> (req_ring s) |>
    <| req_index := u16 (req_index_shadow k + 1) |>.
Definition sent_kernel (token i : Z) (k : kernel) : kernel :=
  k <| tokens := <[Z.to_nat i := token]> (tokens k) |> <| free_count := free_count k - 1 |>
    <| req_index_shadow := u16 (req_index_shadow k + 1) |>.

Lemma send_locked_ok op ar token t q1 a q3 : rel c t q1 a q3 ->
  (outstanding a = cap /\ send_locked op ar token (sh t, ker t) = Some (false, (sh t, ker t))) \/
  (outstanding a < cap /\ exists i, (0 <= i < cap) /\ (i ∉ ids q1 a q3) /\
   send_locked op ar token (sh t, ker t) = Some (true, (sent_shared op ar i (sh t) (ker t), sent_kernel token i (ker t)))).
Proof.
  intros H. pose proof (re_sized _ _ _ _ _ H) as Hs. rewrite (outstanding_ids _ _ _ _ H). unfold send_locked, is_full.
  rewrite (re_free _ _ _ _ _ H). pose proof (ids_bound _ _ _ _ H). case_eq (cap - Z.of_nat (length (ids q1 a q3)) =? 0); intros E.
  - left. split; [lia|done].
  - right. split; [lia|]. destruct (find_free_ok _ _ _ _ H) as (i & -> & Hi & Hn); [lia|]. exists i. split; [done|]. split; [done|].
    cbn [mbind option_bind]. unfold at_index. destruct (lookup_lt_is_Some_2 (tokens (ker t)) (Z.to_nat i)) as [tk ->].
    { rewrite (sz_tokens _ _ _ Hs). lia. }
    cbn. rewrite (sz_mask _ _ _ Hs). edestruct (lookup_lt_is_Some_2 (req_ring (sh t))) as [w ->].
    { eapply slot_lt; [apply Hs|reflexivity]. }
    unfold sent_shared, sent_kernel. cbn. by rewrite (re_free _ _ _ _ _ H), (sz_mask _ _ _ Hs).
Qed.

Lemma sim_send op ar token t q1 a q3 : rel c t q1 a q3 ->
  exists ev t' q1' a', do_send op ar token t = Some (ev, t') /\ spec_step cap a ev a' /\ rel c t' q1' a' q3.
Proof.
  intros H. unfold do_send. destruct (send_locked_ok op ar token _ _ _ _ H) as [[Ho ->]|(Ho & i & Hi & Hn & ->)].
  - exists Refused, t, q1, a. split; [by destruct t|]. split; [by constructor|done].
  - cbn. destruct a as [w sv d]. set (a' := mkSpec (w ++ [mkRequest op ar token]) sv d).
    eexists _, _, (q1 ++ [i]), a'. split; [reflexivity|]. split; [by constructor|].
    pose proof (ids_sent q1 _ a' q3 i (eq_refl : serving a' = serving (mkSpec w sv d))) as Hp.
    pose proof (re_sized _ _ _ _ _ H) as Hs. pose proof (ids_bound _ _ _ _ H). rewrite (outstanding_ids _ _ _ _ H) in Ho.
    destruct (slots_kept t q1 (mkSpec w sv d) q3 (sent_shared op ar i (sh t) (ker t)) (sent_kernel token i (ker t)) H) as (F1 & F2 & F3).
    { intros j Hj. pose proof (ids_range _ _ _ _ _ H Hj). assert (j <> i) by (by intros ->).
      split; cbn; apply list_lookup_insert_ne; lia. }
    assert (Hq : Z.of_nat (length q1) < cap) by (unfold ids in Ho; rewrite !length_app in Ho; lia).
    destruct H as [[] ? ? ? ? ? ? ? ? ? ? ? ? ? ? ? ?]. constructor; cbn in *; try done.
    + constructor; cbn; rewrite ?length_insert; done.
    + rewrite re_shadow0, re_req0, length_app, u16_succ. cbn. f_equal. change (req_last _) with (req_last t). lia.
    + rewrite re_shadow0, re_req0, sz_mask0. by apply window_push.
    + rewrite Hp. by constructor.
    + intros j e Hj He. rewrite Hp, elem_of_cons. destruct (decide (j = i)) as [->|Hne].
      * rewrite list_lookup_insert_eq in He by lia. injection He as <-. cbn. tauto.
      * rewrite list_lookup_insert_ne in He by lia. rewrite (re_valid0 j e Hj He). intuition.
    + rewrite re_free0, Hp. cbn. lia.
    + apply Forall2_app; [done|]. constructor; [|constructor]. split; [lia|]. cbn. rewrite !list_lookup_insert_eq by lia. eauto.
Qed.

(** What [pop_response_locked] does with descriptor [i]. *)
Definition freed_shared (i : Z) (s : shared) : shared :=
  s <| desc := alter (fun e => e <| valid := false |>) (Z.to_nat i) (desc s) |>.
Definition freed_kernel (i : Z) (k : kernel) : kernel :=
  k <| rsp_index_last := u16 (rsp_index_last k + 1) |> <| tokens := <[Z.to_nat i := 0]> (tokens k) |>
    <| free_count := free_count k + 1 |>.

Lemma rings_bound t q1 a q3 : rel c t q1 a q3 -> Z.of_nat (length q1) <= cap /\ Z.of_nat (length q3) <= cap.
Proof. intros H. pose proof (ids_bound _ _ _ _ H) as Hb. unfold ids in Hb. rewrite !length_app in Hb. lia. Qed.

Lemma pop_none t q1 a : rel c t q1 a [] -> pop_response_locked (sh t, ker t) = Some (None, (sh t, ker t)).
Proof.
  intros H. pose proof (rings_bound _ _ _ _ H). unfold pop_response_locked, has_response. rewrite (re_rsp _ _ _ _ _ H), (index_empty c Hc); [done|apply H|lia].
Qed.

Lemma pop_some t q1 a i q3 r v d : rel c t q1 a (i :: q3) -> answered a = (r, v) :: d ->
  pop_response_locked (sh t, ker t) =
  Some (Some (mkResponse (r_op r) (r_token r) v), (freed_shared i (sh t), freed_kernel i (ker t))).
Proof.
  intros H Ha. pose proof (rings_bound _ _ _ _ H) as [_ Hb]. pose proof (re_sized _ _ _ _ _ H) as Hs. pose proof (cap_range c Hc).
  pose proof (ids_range _ _ _ _ i H ltac:(apply in_ids_3; left)) as Hi.
  pose proof (re_answered _ _ _ _ _ H) as Hh. rewrite Ha in Hh. apply list.Forall2_cons in Hh as [(_ & Ht & Hd) _]. cbn in Ht, Hd.
  unfold pop_response_locked, has_response. rewrite (re_rsp _ _ _ _ _ H), (index_empty c Hc) by (try apply H; lia). cbn.
  rewrite (sz_mask _ _ _ Hs). unfold at_index. destruct (window_pop c Hc _ _ _ _ (re_rwin _ _ _ _ _ H)) as [-> _]. cbn.
  rewrite (proj2 (Z.ltb_ge _ _)) by lia. rewrite Hd. cbn. rewrite Ht. cbn.
  rewrite ?(sz_mask _ _ _ Hs), (proj2 (Z.leb_le _ _)) by lia. cbn.
  rewrite (re_free _ _ _ _ _ H), (proj2 (Z.leb_gt _ _)) by lia. unfold freed_shared, freed_kernel. by rewrite (re_free _ _ _ _ _ H).
Qed.

Lemma sim_collect t q1 a q3 : rel c t q1 a q3 ->
  exists ev t' a' q3', do_collect t = Some (ev, t') /\ spec_step cap a ev a' /\ rel c t' q1 a' q3'.
Proof.
  intros H. unfold do_collect. destruct a as [w sv d]. pose proof (re_answered _ _ _ _ _ H) as Hf. cbn in Hf. destruct Hf as [|i [r v] q3 d Hi Hf].
  - rewrite (pop_none _ _ _ H). exists NoResponse, t, (mkSpec w sv []), []. split; [by destruct t|]. split; [constructor|done].
  - rewrite (pop_some _ _ _ _ _ r v d H eq_refl). cbn. set (a' := mkSpec w sv d).
    eexists _, _, a', q3. split; [reflexivity|]. split; [apply sp_collected|].
    pose proof (ids_collected q1 (mkSpec w sv ((r, v) :: d)) a' q3 i eq_refl) as Hp.
    pose proof (ids_range _ _ _ _ i H ltac:(apply in_ids_3; left)) as Hr.
    pose proof (re_nodup _ _ _ _ _ H) as Hnd. rewrite Hp in Hnd. inversion_clear Hnd as [|? ? Hn Hnd'].
    assert (Hk : forall j, j ∈ ids q1 a' q3 -> same_slot (sh t) (freed_shared i (sh t)) (ker t) (freed_kernel i (ker t)) j).
    { intros j Hj. assert (j <> i) by (by intros ->). pose proof (ids_range _ _ _ _ j H ltac:(rewrite Hp; by right)).
      split; cbn; [apply list_lookup_alter_ne|apply list_lookup_insert_ne]; lia. }
    destruct H as [[] ? ? ? ? ? ? ? ? ? ? ? ? ? ? ? ?]. cbn in *. apply window_pop in re_rwin0 as [_ Hw]; [|done]. constructor; cbn; try done.
    + constructor; cbn; rewrite ?length_insert, ?length_alter; done.
    + apply u16_range.
    + rewrite re_rsp0. unfold wrap. rewrite Zplus_mod_idemp_l. f_equal. lia.
    + intros j e Hj. destruct (decide (j = i)) as [->|Hne].
      * rewrite list_lookup_alter_eq. destruct (desc (sh t) !! Z.to_nat i); [|done]. intros [= <-]. cbn. split; [done|]. intros. by destruct Hn.
      * rewrite list_lookup_alter_ne by lia. intros He. rewrite (re_valid0 j e Hj He), Hp, elem_of_cons. intuition.
    + rewrite re_free0, Hp. cbn. lia.
    + eapply Forall2_frame; [exact re_waiting0|]. intros. eapply holds_frame; [apply Hk|]; eauto.
    + intros j x Hj. eapply holds_frame; [apply Hk|]; eauto.
    + eapply Forall2_frame; [exact Hf|]. intros. eapply holds_ret_frame; [apply Hk|]; eauto.
Qed.

(** *** The process *)
Lemma setup_buffers_ok t q1 a q3 : rel c t q1 a q3 ->
  setup_buffers (sh t) = Some (mkDriver (cap - 1) 0 (rsp_index (sh t))).
Proof.
  intros H. unfold setup_buffers. pose proof (re_sized _ _ _ _ _ H) as Hs. pose proof (cap_range c Hc).
  rewrite (sz_magic _ _ _ Hs), (sz_cap _ _ _ Hs), Z.eqb_refl, (proj2 (Z.eqb_neq _ _)) by lia. cbn [negb orb].
  rewrite mask_mod, Z.mod_same by lia. cbn. do 2 f_equal. apply Z.mod_small. lia.
Qed.

Lemma sim_attach t q1 a q3 : rel c t q1 a q3 -> drv t = None -> exists t', attach t = Some t' /\ rel c t' q1 a q3.
Proof.
  intros H Hd. unfold attach. rewrite (setup_buffers_ok _ _ _ _ H). cbn. eexists. split; [reflexivity|].
  destruct H. unfold req_last in *. rewrite Hd in *. constructor; cbn; try done. intros b [= <-]. done.
Qed.

Lemma pop_request_none t b a q3 : rel c t [] a q3 -> drv t = Some b -> exists e, pop_syscall_request (sh t) b = inl e.
Proof.
  intros H Hd. pose proof (rings_bound _ _ _ _ H). unfold pop_syscall_request, has_request.
  pose proof (re_req _ _ _ _ _ H) as Hr. pose proof (re_last _ _ _ _ _ H) as Hl. unfold req_last in Hr, Hl. rewrite Hd in Hr, Hl.
  rewrite Hr, (index_empty c Hc) by (done || lia). eauto.
Qed.

Lemma pop_request_some t b i q1 a q3 r w : rel c t (i :: q1) a q3 -> drv t = Some b -> waiting a = r :: w ->
  exists v, pop_syscall_request (sh t) b = inr (i, mkDesc true (r_op r) (r_args r) v, b <| req_index_last := u16 (req_index_last b + 1) |>).
Proof.
  intros H Hd Hw. pose proof (rings_bound _ _ _ _ H). unfold pop_syscall_request, has_request.
  pose proof (ids_range _ _ _ _ i H ltac:(apply in_ids_1; left)) as Hi.
  pose proof (re_waiting _ _ _ _ _ H) as Hh. rewrite Hw in Hh. apply list.Forall2_cons in Hh as [(_ & _ & v & Hv) _].
  pose proof (re_req _ _ _ _ _ H) as Hr. pose proof (re_last _ _ _ _ _ H) as Hl. pose proof (re_win _ _ _ _ _ H) as Hn.
  unfold req_last in Hr, Hl, Hn. rewrite Hd in Hr, Hl, Hn. destruct (re_drv _ _ _ _ _ H b Hd) as [Em _].
  rewrite Hr, (index_empty c Hc) by (done || lia). cbn. rewrite Em. destruct (window_pop c Hc _ _ _ _ Hn) as [E _].
  rewrite (nth_lookup_Some _ _ _ _ E), (proj2 (Z.ltb_ge _ _)) by lia. rewrite (nth_lookup_Some _ _ _ _ Hv). eauto.
Qed.

(** The request moves to the ones served, whatever thread serves it. *)
Lemma rel_taken t b i q1 w s d q3 r rd cu co de : rel c t (i :: q1) (mkSpec (r :: w) s d) q3 -> drv t = Some b ->
  (forall j, j ∈ rd -> j ∈ reading t \/ j = i) ->
  (forall j, cu = Some j -> j = i /\ rd = reading t /\ co = r_op r) ->
  s !! i = None /\
  rel c (mkSystem (sh t) (ker t) (Some (b <| req_index_last := u16 (req_index_last b + 1) |>)) cu rd co de) q1 (mkSpec w (<[i := r]> s) d) q3.
Proof.
  intros H Hd Hrd Hcu. assert (Hn : s !! i = None).
  { destruct (s !! i) as [x|] eqn:E; [|done]. exfalso. pose proof (re_nodup _ _ _ _ _ H) as Hnd. unfold ids in Hnd.
    inversion_clear Hnd as [|? ? Hx _]. apply Hx. apply (in_ids_2 q1 (mkSpec (r :: w) s d) q3 i x E). }
  split; [done|]. pose proof (ids_taken q1 (mkSpec (r :: w) s d) (mkSpec w (<[i := r]> s) d) q3 i r Hn eq_refl) as Hp.
  destruct H. unfold req_last in *. rewrite Hd in *. cbn in *. apply list.Forall2_cons in re_waiting0 as [Hi Hq].
  constructor; cbn; try done.
  - apply u16_range.
  - rewrite re_req0. unfold wrap. rewrite Zplus_mod_idemp_l. f_equal. lia.
  - by apply window_pop in re_win0 as [_ ?].
  - intros b' [= <-]. by apply (re_drv0 b).
  - by rewrite Hp.
  - intros j e Hj He. by rewrite Hp, <- (re_valid0 j e).
  - by rewrite re_free0, Hp.
  - by apply map_Forall_insert_2.
  - intros j Hj. destruct (decide (j = i)) as [->|Hne]; [by rewrite lookup_insert_eq|]. rewrite lookup_insert_ne by done.
    destruct (Hrd j Hj) as [?|]; [by apply re_reading0|done].
  - intros j Hj. destruct (Hcu j Hj) as (-> & -> & ->). rewrite lookup_insert_eq. split; [|eauto].
    intros Hx. apply re_reading0 in Hx. rewrite Hn in Hx. by destruct Hx.
Qed.

Lemma sim_poll t b q1 a q3 : rel c t q1 a q3 -> drv t = Some b -> current t = None ->
  exists ev t' q1' a', do_poll b t = (ev, t') /\ spec_step cap a ev a' /\ rel c t' q1' a' q3.
Proof.
  intros H Hd Hcu. unfold do_poll. destruct a as [w s d]. pose proof (re_waiting _ _ _ _ _ H) as Hf. cbn in Hf. destruct Hf as [|i r q1 w Hi Hf].
  - destruct (pop_request_none _ _ _ _ H Hd) as [e ->]. exists Idle, t, [], (mkSpec [] s d). split; [done|]. split; [constructor|done].
  - destruct (pop_request_some _ _ _ _ _ _ r w H Hd eq_refl) as [v ->]. cbn [opcode args]. destruct (dispatch (r_op r)).
    + destruct (rel_taken t b i q1 w s d q3 r (reading t ++ [i]) None (cur_op t) (dead t) H Hd) as [Hn Hr]; [|done|].
      { intros j. rewrite elem_of_app, list_elem_of_singleton. tauto. }
      eexists _, _, _, _. split; [reflexivity|]. split; [by apply (sp_taken _ r i)|]. rewrite <- Hcu in Hr. exact Hr.
    + destruct (rel_taken t b i q1 w s d q3 r (reading t) (Some i) (r_op r) (dead t) H Hd) as [Hn Hr]; [auto|intros j [= <-]; auto|].
      eexists _, _, _, _. split; [reflexivity|]. split; [by apply (sp_taken _ r i)|]. done.
    + destruct (rel_taken t b i q1 w s d q3 r (reading t) None (cur_op t) (dead t) H Hd) as [Hn Hr]; [auto|done|].
      eexists _, _, _, _. split; [reflexivity|]. split; [by apply (sp_taken _ r i)|]. rewrite <- Hcu in Hr. exact Hr.
Qed.

(** What [push_syscall_response] does. *)
Definition answered_shared (i v : Z) (s : shared) (b : driver) : shared :=
  s <| desc := alter (fun e => e <| ret_val := u64 v |>) (Z.to_nat i) (desc s) |>
    <| rsp_ring := <[Z.to_nat (Z.land (rsp_index_shadow b) (d_mask b)) := i]> (rsp_ring s) |>
    <| rsp_index := u16 (rsp_index_shadow b + 1) |>.

Lemma push_ok t b i v q1 a q3 r : rel c t q1 a q3 -> drv t = Some b -> serving a !! i = Some r ->
  push_syscall_response i v (sh t, b) = (0, (answered_shared i v (sh t) b, b <| rsp_index_shadow := u16 (rsp_index_shadow b + 1) |>)).
Proof.
  intros H Hd Hi. unfold push_syscall_response. destruct (re_drv _ _ _ _ _ H b Hd) as [Em _].
  pose proof (ids_range _ _ _ _ i H ltac:(by eapply in_ids_2)). by rewrite Em, (proj2 (Z.ltb_ge _ _)), <- Em by lia.
Qed.

(** The descriptor that is answered changes groups; the slots of the others stay. *)
Lemma answered_slots i v t b j : 0 <= i -> 0 <= j -> j <> i ->
  same_slot (sh t) (answered_shared i v (sh t) b) (ker t) (ker t) j.
Proof. intros. split; [|done]. cbn. apply list_lookup_alter_ne. lia. Qed.

Lemma rel_answered t b i v q1 w s d q3 r rd cu de : rel c t q1 (mkSpec w s d) q3 -> drv t = Some b -> s !! i = Some r ->
  (forall j, j ∈ rd -> j ∈ reading t /\ j <> i) -> (forall j, cu = Some j -> current t = Some j /\ j <> i) ->
  rel c (mkSystem (answered_shared i v (sh t) b) (ker t) (Some (b <| rsp_index_shadow := u16 (rsp_index_shadow b + 1) |>)) cu rd (cur_op t) de)
      q1 (mkSpec w (delete i s) (d ++ [(r, u64 v)])) (q3 ++ [i]).
Proof.
  intros H Hd Hi Hrd Hcu.
  pose proof (ids_answered q1 (mkSpec w s d) (mkSpec w (delete i s) (d ++ [(r, u64 v)])) q3 i r Hi eq_refl) as Hp.
  pose proof (ids_range _ _ _ _ i H ltac:(by eapply in_ids_2)) as Hr.
  assert (Hlt : Z.of_nat (length q3) < cap).
  { pose proof (ids_bound _ _ _ _ H) as Hb. rewrite <- Hp in Hb. unfold ids in Hb. rewrite !length_app in Hb. cbn in Hb. lia. }
  pose proof (re_nodup _ _ _ _ _ H) as Hnd. rewrite <- Hp in Hnd. unfold ids in Hnd.
  rewrite !app_assoc, <- Permutation_cons_append in Hnd. inversion_clear Hnd as [|? ? Hn _]. rewrite !elem_of_app in Hn.
  assert (Hk : forall j, j ∈ ids q1 (mkSpec w s d) q3 -> j <> i -> same_slot (sh t) (answered_shared i v (sh t) b) (ker t) (ker t) j).
  { intros j Hj ?. pose proof (ids_range _ _ _ _ j H Hj). apply answered_slots; lia. }
  destruct (re_drv _ _ _ _ _ H b Hd) as [Em Esh]. pose proof (re_serving _ _ _ _ _ H i r Hi) as Hh.
  destruct H as [[] ? ? ? ? ? ? ? ? ? ? ? ? ? ? ? ?]. unfold req_last in *. rewrite Hd in *. cbn in *.
  constructor; cbn; try done.
  - constructor; cbn; rewrite ?length_insert, ?length_alter; done.
  - rewrite Esh, re_rsp0, length_app, u16_succ. cbn. f_equal. lia.
  - rewrite Esh, Em, re_rsp0. by apply window_push.
  - intros b' [= <-]. cbn. auto.
  - by rewrite Hp.
  - intros j e Hj. rewrite Hp. destruct (decide (j = i)) as [->|Hne].
    + rewrite list_lookup_alter_eq. destruct (desc (sh t) !! Z.to_nat i) as [x|] eqn:Ex; [|done]. intros [= <-]. apply (re_valid0 i x Hj Ex).
    + rewrite list_lookup_alter_ne by lia. by apply re_valid0.
  - by rewrite re_free0, Hp.
  - eapply Forall2_frame; [exact re_waiting0|]. intros j x Hj. apply holds_frame, Hk; [auto|]. intros ->. tauto.
  - intros j x Hj. apply lookup_delete_Some in Hj as [Hne Hj]. eapply holds_frame; [apply Hk|]; eauto.
  - apply Forall2_app.
    + eapply Forall2_frame; [exact re_answered0|]. intros j x Hj. apply holds_ret_frame, Hk; [auto|]. intros ->. tauto.
    + constructor; [|constructor]. destruct Hh as (H0 & Ht & v0 & Hv). split; [done|]. split; [done|].
      cbn. by rewrite list_lookup_alter_eq, Hv.
  - intros j Hj. destruct (Hrd j Hj) as [Hj' Hne]. rewrite lookup_delete_ne by done. by apply re_reading0.
  - intros j Hj. destruct (Hcu j Hj) as [Hj' Hne]. destruct (re_current0 j Hj') as [Hnr Hex]. rewrite lookup_delete_ne by done.
    split; [|done]. intros Hx. by destruct (Hrd j Hx).
Qed.

Lemma sim_reply t b i len v q1 a q3 : rel c t q1 a q3 -> drv t = Some b -> current t = Some i ->
  match do_reply i len v b t with
  | Some (ev, t') => exists a' q3', spec_step cap a ev a' /\ rel c t' q1 a' q3'
  | None => spec_step cap a (Died len v) a
  end.
Proof.
  intros H Hd Hcu. destruct (re_current _ _ _ _ _ H i Hcu) as (Hni & r & Hr & Hop). destruct a as [w s d]. unfold do_reply, do_respond. rewrite <- Hop.
  destruct (Z.eqb_spec (r_op r) IPC_OP_WRITE), (Z.eqb_spec (u64 v) len); cbn [andb negb]; try (by eapply sp_died);
    (rewrite (push_ok _ _ _ v _ _ _ r H Hd Hr); eexists _, _; split; [by apply sp_answered|];
     refine (rel_answered t b i v q1 w s d q3 r (reading t) None (dead t) H Hd Hr _ _); [|done]; intros j Hj; split; [done|]; by intros ->).
Qed.

Lemma sim_read_done t b i v q1 a q3 : rel c t q1 a q3 -> drv t = Some b -> i ∈ reading t ->
  exists ev t' a' q3', do_read_done i v b t = (ev, t') /\ spec_step cap a ev a' /\ rel c t' q1 a' q3'.
Proof.
  intros H Hd Hi. destruct (re_reading _ _ _ _ _ H i Hi) as [r Hr]. destruct a as [w s d]. unfold do_read_done, do_respond.
  rewrite (push_ok _ _ _ v _ _ _ r H Hd Hr). eexists _, _, _, _. split; [reflexivity|]. split; [by apply sp_answered|].
  refine (rel_answered t b i v q1 w s d q3 r (filter (.≠ i) (reading t)) (current t) (dead t) H Hd Hr _ _); cbn.
  - intros j Hj. apply list_elem_of_filter in Hj. tauto.
  - intros j Hj. split; [done|]. intros ->. by destruct (re_current _ _ _ _ _ H i Hj).
Qed.

(** *** Every step *)
Lemma sim_step t ev t' q1 a q3 : scf_step t ev t' -> rel c t q1 a q3 ->
  exists q1' a' q3', spec_step cap a ev a' /\ rel c t' q1' a' q3'.
Proof.
  intros Hst H. destruct Hst as [op ar token t ev t' _ E|t ev t' E|t t' Hd _ E|b t ev t' Hd _ Hcu E|i len v b t ev t' Hd _ Hcu E|i len v b t Hd _ Hcu E|i v b t ev t' Hd _ Hi E].
  - destruct (sim_send op ar token _ _ _ _ H) as (? & ? & q1' & a' & E' & Hs & Hr). rewrite E in E'. injection E' as <- <-. eauto.
  - destruct (sim_collect _ _ _ _ H) as (? & ? & a' & q3' & E' & Hs & Hr). rewrite E in E'. injection E' as <- <-. eauto.
  - destruct (sim_attach _ _ _ _ H Hd) as (? & E' & Hr). rewrite E in E'. injection E' as <-. exists q1, a, q3. split; [constructor|done].
  - destruct (sim_poll _ _ _ _ _ H Hd Hcu) as (? & ? & q1' & a' & E' & Hs & Hr). rewrite E in E'. injection E' as <- <-. eauto.
  - pose proof (sim_reply _ _ _ len v _ _ _ H Hd Hcu) as Hp. rewrite E in Hp. destruct Hp as (a' & q3' & ? & ?). eauto.
  - pose proof (sim_reply _ _ _ len v _ _ _ H Hd Hcu) as Hp. rewrite E in Hp. exists q1, a, q3. split; [done|]. by destruct H.
  - destruct (sim_read_done _ _ _ v _ _ _ H Hd Hi) as (? & ? & a' & q3' & E' & Hs & Hr). rewrite E in E'. injection E' as <- <-. eauto.
Qed.

Lemma sim_run t evs t' q1 a q3 : scf_run t evs t' -> rel c t q1 a q3 ->
  exists q1' a' q3', spec_run cap a evs a' /\ rel c t' q1' a' q3'.
Proof.
  intros Hrun. revert q1 a q3. induction Hrun as [t|t ev t1 evs t2 Hst Hrun IH]; intros q1 a q3 H.
  - exists q1, a, q3. split; [constructor|done].
  - destruct (sim_step _ _ _ _ _ _ Hst H) as (q1' & a' & q3' & Hs & Hr). destruct (IH _ _ _ Hr) as (q1'' & a'' & q3'' & Hs' & Hr').
    exists q1'', a'', q3''. split; [by econstructor|done].
Qed.

Lemma rel_no_panic t q1 a q3 : rel c t q1 a q3 -> ~ scf_panics t.
Proof.
  intros H Hp. destruct Hp as [op ar token t E|t E|t E].
  - destruct (sim_send op ar token _ _ _ _ H) as (? & ? & ? & ? & E' & _). congruence.
  - destruct (sim_collect _ _ _ _ H) as (? & ? & ? & ? & E' & _). congruence.
  - unfold attach in E. by rewrite (setup_buffers_ok _ _ _ _ H) in E.
Qed.

(** *** The interrupt handler *)

(** What [handle_irq] signals for the responses waiting. *)
Definition signals (d : list (request * Z)) : list (Z * Z) :=
  omap (fun '(r, v) => if token_is_valid (r_token r) then Some (r_token r, v) else None) d.

Lemma irq_drains d : forall t q1 w s q3 fuel, rel c t q1 (mkSpec w s d) q3 -> (length d < fuel)%nat ->
  exists s' k', handle_irq fuel (sh t, ker t) = Some (signals d, (s', k')) /\
                rel c (t <| sh := s' |> <| ker := k' |>) q1 (mkSpec w s []) [].
Proof.
  induction d as [|[r v] d IH]; intros t q1 w s q3 [|fuel] H Hf; cbn in Hf; try lia;
    pose proof (re_answered _ _ _ _ _ H) as Ha; inversion Ha as [|i ? q ? Hi Hq]; subst.
  - exists (sh t), (ker t). cbn [handle_irq]. rewrite (pop_none _ _ _ H). split; [done|]. by destruct t.
  - destruct (sim_collect _ _ _ _ H) as (ev & t' & a' & q3' & E & Hs & Hr). unfold do_collect in E.
    pose proof (pop_some _ _ _ _ _ r v d H eq_refl) as Hp. rewrite Hp in E. cbn in E. injection E as <- <-. inversion Hs; subst.
    destruct (IH _ _ _ _ _ fuel Hr ltac:(lia)) as (s' & k' & E & Hr'). exists s', k'. split; [|exact Hr'].
    cbn [handle_irq]. rewrite Hp. cbn [mbind option_bind]. cbn in E. rewrite E. cbn. by case_match.
Qed.

Lemma rel_init : rel c (scf_init cap) [] (mkSpec [] ∅ []) [].
Proof.
  pose proof (cap_range c Hc). constructor; cbn; try done; try (intros; by rewrite ?list_lookup_fmap).
  - constructor; cbn; rewrite ?repeat_length; done.
  - constructor.
  - intros i e Hi He. apply list_elem_of_lookup_2 in He. apply list_elem_of_In, repeat_spec in He as ->. cbn.
    split; [done|]. unfold ids. cbn. by rewrite map_to_list_empty, elem_of_nil.
  - unfold ids. cbn. rewrite map_to_list_empty. cbn. lia.
  - intros i Hi. by apply elem_of_nil in Hi.
Qed.
End sim.

(** C5. The kernel and the process implement the queue: whatever both do, in
    whatever order, from a new buffer of [2 ^ c] descriptors, what is seen is a
    run of the promise (first in first out, each response with the token of its
    request, refusals only when full, and an assertion ends the process only when
    the write it serves returned something other than the length asked for).
    The kernel never panics, also when the process is gone, and the interrupt
    handler ends after signalling the responses that wait, in order. *)
Theorem scf_refines c evs t : 0 <= c <= 15 -> scf_run (scf_init (2 ^ c)) evs t ->
  exists a, spec_run (2 ^ c) (mkSpec [] ∅ []) evs a /\ outstanding a <= 2 ^ c /\ ~ scf_panics t /\
            exists s k, handle_irq (S (Z.to_nat (2 ^ c))) (sh t, ker t) = Some (signals (answered a), (s, k)) /\
                        has_response s k = false.
Proof.
  intros Hc Hrun. destruct (sim_run c Hc _ _ _ _ _ _ Hrun (rel_init c Hc)) as (q1 & [w s d] & q3 & Hs & Hr).
  exists (mkSpec w s d). split; [done|]. split; [rewrite (outstanding_ids _ _ _ _ _ Hr); by eapply ids_bound|].
  split; [by eapply rel_no_panic|]. pose proof (rings_bound c Hc _ _ _ _ Hr). pose proof (Forall2_length (re_answered _ _ _ _ _ Hr)) as El. cbn in El.
  destruct (irq_drains c Hc d t q1 w s q3 (S (Z.to_nat (2 ^ c))) Hr ltac:(lia)) as (s' & k' & E & Hr').
  exists s', k'. split; [exact E|]. unfold has_response. pose proof (re_rsp _ _ _ _ _ Hr') as Er. cbn in Er. rewrite Er, Z.add_0_r.
  pose proof (re_rlast _ _ _ _ _ Hr') as Hl. cbn in Hl. unfold wrap. rewrite Z.mod_small by (change (2 ^ 16) with 65536; lia).
  by rewrite Z.eqb_refl.
Qed.

(** A write request: sent, taken, answered. *)
Lemma scf_refines_witness : exists evs t,
  evs = [Attached; Sent 2 64 7; Taken 2 64; Answered 0 5] /\ scf_run (scf_init (2 ^ 2)) evs t /\
  exists a, spec_run (2 ^ 2) (mkSpec [] ∅ []) evs a /\ outstanding a <= 2 ^ 2 /\ ~ scf_panics t /\
            exists s k, handle_irq (S (Z.to_nat (2 ^ 2))) (sh t, ker t) = Some (signals (answered a), (s, k)) /\
                        has_response s k = false.
Proof.
  eexists _, _. split; [reflexivity|]. match goal with |- scf_run ?i ?e ?t /\ _ => assert (Hrun : scf_run i e t) end.
  { eapply scf_cons; [eapply step_attach; reflexivity|].
    eapply scf_cons; [eapply (step_send 2 64 7); [lia|reflexivity]|].
    eapply scf_cons; [eapply step_poll; reflexivity|].
    eapply scf_cons; [eapply (step_reply 0 5 5); reflexivity|]. apply scf_nil. }
  split; [exact Hrun|]. apply (scf_refines 2); [lia|exact Hrun].
Defined.

(** ** The layout *)
Lemma is_power_of_two_spec n : is_power_of_two n = true -> exists c, 0 <= c /\ n = 2 ^ c.
Proof.
  unfold is_power_of_two. intros [H0 H]%andb_true_iff. apply Z.ltb_lt in H0. apply Z.eqb_eq in H. exists (Z.log2 n).
  split; [apply Z.log2_nonneg|]. destruct (Z.log2_spec n H0) as [Hl Hu]. destruct (Z.eq_dec n (2 ^ Z.log2 n)) as [|Hne]; [done|].
  assert (E : Z.log2 (n - 1) = Z.log2 n) by (apply Z.log2_unique; [apply Z.log2_nonneg|lia]).
  assert (Hb : Z.testbit (Z.land n (n - 1)) (Z.log2 n) = true).
  { rewrite Z.land_spec, Z.bit_log2 by lia. cbn. rewrite <- E. apply Z.bit_log2. assert (0 < 2 ^ Z.log2 n) by (apply Z.pow_pos_nonneg; lia || apply Z.log2_nonneg). lia. }
  rewrite H, Z.bits_0 in Hb. done.
Qed.

Lemma power_of_two_mask c : 0 <= c -> is_power_of_two (2 ^ c) = true.
Proof.
  intros Hc. unfold is_power_of_two. rewrite (proj2 (Z.ltb_lt _ _)) by lia. cbn. rewrite Z.sub_1_r, <- Z.ones_equiv, Z.land_ones by lia.
  rewrite Z.mod_same by lia. done.
Qed.

Lemma next_power_of_two_spec m : 1 <= m -> exists c, 0 <= c /\ next_power_of_two m = 2 ^ c /\ m <= 2 ^ c < 2 * m.
Proof.
  intros Hm. unfold next_power_of_two. destruct (m <=? 1) eqn:E.
  - exists 0. lia.
  - exists (Z.log2_up m). split; [apply Z.log2_up_nonneg|]. split; [apply Z.shiftl_1_l|].
    destruct (Z.log2_up_spec m) as [H1 H2]; [lia|]. split; [done|].
    assert (0 < Z.log2_up m) by (apply Z.log2_up_pos; lia).
    replace (Z.log2_up m) with (Z.succ (Z.pred (Z.log2_up m))) by lia. rewrite Z.pow_succ_r by lia. lia.
Qed.

(** The capacity is the power of two below the number of entries that fit. *)
Lemma queue_capacity_spec buf_size : 44 <= buf_size < 1835024 ->
  exists c, 0 <= c <= 15 /\ queue_capacity buf_size = Some (2 ^ c) /\ 2 ^ c <= (buf_size - 16) / 28 < 2 * 2 ^ c + 2.
Proof.
  intros Hb. unfold queue_capacity. change (align_up size_of_metadata align_of_descriptor) with 16. change (size_of_descriptor + size_of_u16 * 2) with 28.
  rewrite (proj2 (Z.ltb_ge _ _)) by lia. cbv zeta. set (n := (buf_size - 16) / 28).
  assert (Hn : 1 <= n < 65536) by (unfold n; split; [apply Z.div_le_lower_bound|apply Z.div_lt_upper_bound]; lia).
  assert (Hfit : forall c, 0 <= c -> 2 ^ c <= n -> c <= 15 /\ 0 < 2 ^ c < 0xffff).
  { intros c Hc Hle. assert (c < 16) by (apply (Z.pow_lt_mono_r_iff 2); lia). split; [lia|]. split; [lia|].
    assert (2 ^ c <= 2 ^ 15) by (apply Z.pow_le_mono_r; lia). lia. }
  destruct (is_power_of_two n) eqn:E.
  - destruct (is_power_of_two_spec n E) as (c & Hc & En). rewrite En in *. destruct (Hfit c Hc ltac:(lia)). exists c.
    rewrite (proj2 (Z.ltb_lt _ _)), (proj2 (Z.ltb_lt _ _)) by lia. cbn. repeat split; lia.
  - assert (H2 : 1 <= n / 2) by (apply Z.div_le_lower_bound; [lia|]; destruct (Z.eq_dec n 1) as [->|]; [done|lia]).
    destruct (next_power_of_two_spec _ H2) as (c & Hc & -> & Hl & Hu). pose proof (Z.mul_div_le n 2). pose proof (Z.mod_pos_bound n 2).
    pose proof (Z.div_mod n 2). destruct (Hfit c Hc ltac:(lia)). exists c.
    rewrite (proj2 (Z.ltb_lt _ _)), (proj2 (Z.ltb_lt _ _)) by lia. cbn. repeat split; lia.
Qed.

(** C27. A buffer of at least 44 bytes holds the queue: the kernel finds a
    capacity that is a power of two, at least half of what fits; its regions are
    aligned, do not overlap and stay inside the buffer; and the process, from the
    fields it finds there, computes the same addresses. *)
Theorem scf_layout_fits meta_base buf_size : 44 <= buf_size < 1835024 -> meta_base mod 4096 = 0 ->
  exists c l, 0 <= c <= 15 /\ queue_layout meta_base buf_size = Some l /\
    setup_layout meta_base SYSCALL_QUEUE_BUFFER_MAGIC (u16 (lo_capacity l)) = Some l /\
    lo_capacity l = 2 ^ c /\ (buf_size - 16) / 28 < 2 * 2 ^ c + 2 /\
    meta_base + size_of_metadata <= desc_base l /\ desc_base l mod 8 = 0 /\
    desc_base l + lo_capacity l * size_of_descriptor <= req_base l /\ req_base l mod 2 = 0 /\
    req_base l + lo_capacity l * size_of_u16 <= rsp_base l /\ rsp_base l mod 2 = 0 /\
    rsp_base l + lo_capacity l * size_of_u16 <= meta_base + buf_size.
Proof.
  intros Hb Hm. destruct (queue_capacity_spec _ Hb) as (c & Hc & Ec & Hle & Hu). unfold queue_layout. rewrite Ec. cbn [mbind option_bind].
  change 0xfff with (Z.ones 12). rewrite Z.land_ones by lia. change (2 ^ 12) with 4096. rewrite Hm. cbn [nz Z.eqb negb].
  eexists c, _. split; [done|]. split; [reflexivity|]. pose proof (cap_range c Hc) as Hr. pose proof (Z.mul_div_le (buf_size - 16) 28).
  cbn [lo_capacity desc_base req_base rsp_base]. change (align_up size_of_metadata align_of_descriptor) with 16.
  assert (Em : exists q, meta_base = 4096 * q) by (exists (meta_base / 4096); rewrite (Z.div_mod meta_base 4096) at 1; lia).
  destruct Em as [q ->]. split; [|unfold size_of_metadata, size_of_descriptor, size_of_u16; repeat split; Z.to_euclidean_division_equations; lia].
  unfold setup_layout. rewrite Z.eqb_refl. unfold wrap. rewrite Z.mod_small by (change (2 ^ 16) with 65536; lia).
  pose proof (power_of_two_mask c ltac:(lia)) as Hp. unfold is_power_of_two in Hp. apply andb_true_iff in Hp as [Hp1 Hp2].
  unfold nz. rewrite Hp2, (proj2 (Z.eqb_neq _ _)) by lia. reflexivity.
Qed.

(** The page the kernel sets aside: 128 entries. *)
Lemma scf_layout_fits_witness : queue_layout 0x67000 4096 = Some (mkLayout 128 0x67010 0x67c10 0x67d10) /\
  exists c l, 0 <= c <= 15 /\ queue_layout 0x67000 4096 = Some l /\
    setup_layout 0x67000 SYSCALL_QUEUE_BUFFER_MAGIC (u16 (lo_capacity l)) = Some l /\
    lo_capacity l = 2 ^ c /\ (4096 - 16) / 28 < 2 * 2 ^ c + 2 /\
    0x67000 + size_of_metadata <= desc_base l /\ desc_base l mod 8 = 0 /\
    desc_base l + lo_capacity l * size_of_descriptor <= req_base l /\ req_base l mod 2 = 0 /\
    req_base l + lo_capacity l * size_of_u16 <= rsp_base l /\ rsp_base l mod 2 = 0 /\
    rsp_base l + lo_capacity l * size_of_u16 <= 0x67000 + 4096.
Proof. split; [reflexivity|]. apply (scf_layout_fits 0x67000 4096); [lia|reflexivity]. Defined.

(** Smaller buffers overflow: 20 bytes get one entry of 28. *)
Lemma scf_layout_small : exists l, queue_layout 0 20 = Some l /\ rsp_base l + lo_capacity l * size_of_u16 = 44.
Proof. eexists. split; reflexivity. Qed.
