(* ===== verification/Kernel.v ===== *)
(** * Kernel code on the modelled processor

    The instructions kernel code is made of, as programs over the processor
    model: loads and stores in the current mode, and the accesses to
    model-specific registers.  [put] describes the machines a stretch of such
    code goes through. *)
From S2P Require Import Prelude Cpu Machine Mem Exec Mmu MmuFacts ExcFacts Cc Seg Uintr Msr VMem.

Section instructions.
  Context (d : nat) (ub : Z -> Z).

(** Data accesses of translated code. *)
Definition cpu_ld_data (n : nat) (a : Z) : X Z :=
  e ← get_env d; cpu_ld_mmuidx d n a (cpu_mmu_index e).
Definition cpu_st_data (n : nat) (a v : Z) : X unit :=
  e ← get_env d; cpu_st_mmuidx d n a v (cpu_mmu_index e).

(** [asm!("wrmsr")] and [asm!("rdmsr")] with their operands. *)
Definition asm_wrmsr (c lo hi : Z) : X unit :=
  mod_env d (fun e => set_reg R_EDX hi (set_reg R_EAX lo (set_reg R_ECX c e)));;
  helper_wrmsr d ub.
Definition asm_rdmsr (c : Z) : X (Z * Z) :=
  mod_env d (set_reg R_ECX c);; helper_rdmsr d;;
  e ← get_env d; mret (u32 (reg e R_EAX), u32 (reg e R_EDX)).
End instructions.

(** ** Machines that differ in one processor and in memory *)
Definition put (d : nat) (m : Machine) (e : CPUX86State) (M : gmap Z Z) : Machine :=
  upd_env d (fun _ => e) (m <| mem := M |>).

(** The registers with the number of a general register. *)
Definition regs16 (e : CPUX86State) : Prop := length (regs e) = 16%nat.

Lemma reg_set_eq r v e : regs16 e -> 0 <= r < 16 -> reg (set_reg r v e) r = u64 v.
Proof. intros He Hr. unfold reg, set_reg. cbn. apply nth_lookup_Some, list_lookup_insert_eq. rewrite He. lia. Qed.
Lemma reg_set_ne r k v e : 0 <= r -> 0 <= k -> r <> k -> reg (set_reg r v e) k = reg e k.
Proof. intros. unfold reg, set_reg. cbn. rewrite !nth_lookup, list_lookup_insert_ne by lia. done. Qed.
Lemma regs16_set r v e : regs16 e -> regs16 (set_reg r v e).
Proof. unfold regs16, set_reg. cbn. by rewrite length_insert. Qed.

Section put.
  Context (d : nat) (m : Machine) (Hcpu : is_Some (cpus m !! d)).

Lemma put_env e M : cpu_env d (put d m e M) = e.
Proof. unfold put. by rewrite cpu_env_upd. Qed.
Lemma put_mem e M : mem (put d m e M) = M.
Proof. done. Qed.
Lemma put_cpu e M : is_Some (cpus (put d m e M) !! d).
Proof. destruct Hcpu as [c Hc]. unfold put, upd_env, upd_cpu. cbn. rewrite lookup_alter_eq, Hc. eauto. Qed.

Lemma put_upd f e M : upd_env d f (put d m e M) = put d m (f e) M.
Proof.
  assert (E : alter (fun c => c <| env := f (env c) |>) d (alter (fun c => c <| env := e |>) d (cpus m))
              = alter (fun c => c <| env := f e |>) d (cpus m)).
  { apply map_eq. intros k. destruct (decide (k = d)) as [->|Hk]; [rewrite !lookup_alter_eq|by rewrite !lookup_alter_ne by done].
    by destruct Hcpu as [c ->]. }
  change (m <| mem := M |> <| cpus := alter (fun c => c <| env := f (env c) |>) d (alter (fun c => c <| env := e |>) d (cpus m)) |>
          = put d m (f e) M). by rewrite E.
Qed.

Lemma put_self : m = put d m (cpu_env d m) (mem m).
Proof.
  assert (E : alter (fun c => c <| env := cpu_env d m |>) d (cpus m) = cpus m).
  { apply map_eq. intros k. destruct (decide (k = d)) as [->|Hk]; [rewrite !lookup_alter_eq|by rewrite !lookup_alter_ne by done].
    unfold cpu_env, lookup_total, map_lookup_total. destruct Hcpu as [c ->]. by destruct c. }
  unfold put, upd_env, upd_cpu. cbn. rewrite E. by destruct m.
Qed.

Lemma put_get e M : get_env d (put d m e M) = Ret e (put d m e M).
Proof. unfold get_env, gets. f_equal. apply put_env. Qed.
Lemma put_mod f e M : mod_env d f (put d m e M) = Ret tt (put d m (f e) M).
Proof. unfold mod_env, modify. by rewrite put_upd. Qed.
End put.

(** ** Running kernel code

    [T] are the page-table entries in use; code that keeps off them and leaves
    the paging registers alone keeps every page where it is. *)
Section kernel.
  Context (d : nat) (m : Machine) (T : list Z).
  Context (Hcpu : is_Some (cpus m !! d)) (Hlong : long_mode (cpu_env d m)).

Record steady (e : CPUX86State) (M : gmap Z Z) : Prop := {
  sy_paging : same_paging (cpu_env d m) e;
  sy_idx : cpu_mmu_index e = cpu_mmu_index (cpu_env d m);
  sy_regs : regs16 e;
  sy_wf : mem_wf M;
  sy_tables : Forall (fun t => ld 8 M t = ld 8 (mem m) t) T;
}.

Definition mapped (acc idx vp pp : Z) : Prop :=
  page d m acc idx vp pp /\ forall a, a ∈ walk_of (cpu_env d m) (mem m) vp -> a ∈ T.

Lemma steady_page e M acc idx vp pp : steady e M -> mapped acc idx vp pp -> page d (put d m e M) acc idx vp pp.
Proof.
  intros [Hp Hi Hr Hw Ht] [Hpg Hin]. refine (proj1 (page_frame d m (put d m e M) acc idx vp pp Hpg _ _)).
  - by rewrite put_env.
  - intros a Ha. rewrite put_mem. by apply (proj1 (list.Forall_forall _ _) Ht a), Hin.
Qed.

Lemma steady_st e M n a v : steady e M -> off_tables T a (Z.of_nat n) -> steady e (st n a v M).
Proof.
  intros [Hp Hi Hr Hw Ht] Ho. split; try done; [by apply mem_wf_st|]. apply list.Forall_forall. intros t Hin.
  rewrite <- (proj1 (list.Forall_forall _ _) Ht t Hin). apply ld_st_ne.
  eapply list.Forall_forall in Ho; [|exact Hin]. cbn in Ho. lia.
Qed.

(** A change of the processor state that leaves paging alone. *)
Lemma steady_upd e e' M : steady e M -> same_paging e e' -> cpu_mmu_index e' = cpu_mmu_index e -> regs16 e' -> steady e' M.
Proof. intros [Hp Hi Hr Hw Ht] Hs Hi' Hr'. split; try done; [by transitivity e|congruence]. Qed.

Lemma steady_set_reg r v e M : steady e M -> steady (set_reg r v e) M.
Proof. intros H. eapply steady_upd; [exact H|done|done|]. apply regs16_set, H. Qed.

Lemma steady_long e M : steady e M -> long_mode (cpu_env d (put d m e M)).
Proof. intros H. rewrite put_env by done. eapply same_long; [apply H|exact Hlong]. Qed.

Lemma st_put n vp pp off v e M : steady e M -> mapped MMU_DATA_STORE (cpu_mmu_index (cpu_env d m)) vp pp ->
  0 <= off -> off + Z.of_nat n <= 4096 -> (0 < n)%nat ->
  cpu_st_data d n (vp + off) v (put d m e M) = Ret tt (put d m e (st n (pp + off) v M)).
Proof.
  intros H Hm H0 Hn Hpos. unfold cpu_st_data. rewrite (bind_Ret _ _ _ _ _ (put_get d m Hcpu e M)), (sy_idx _ _ H).
  rewrite (st_page d (put d m e M) (steady_long _ _ H) (sy_wf _ _ H) n _ vp pp off v); [done| |done|done|done].
  by apply steady_page.
Qed.

Lemma ld_put n vp pp off e M : steady e M -> mapped MMU_DATA_LOAD (cpu_mmu_index (cpu_env d m)) vp pp ->
  0 <= off -> off + Z.of_nat n <= 4096 -> (0 < n)%nat ->
  cpu_ld_data d n (vp + off) (put d m e M) = Ret (ld n M (pp + off)) (put d m e M).
Proof.
  intros H Hm H0 Hn Hpos. unfold cpu_ld_data. rewrite (bind_Ret _ _ _ _ _ (put_get d m Hcpu e M)), (sy_idx _ _ H).
  rewrite (ld_page d (put d m e M) (steady_long _ _ H) (sy_wf _ _ H) n _ vp pp off); [done| |done|done|done].
  by apply steady_page.
Qed.

Lemma mapped_load idx vp pp : mapped MMU_DATA_STORE idx vp pp -> mapped MMU_DATA_LOAD idx vp pp.
Proof. intros [Hp Hi]. split; [by apply page_store_load|done]. Qed.
End kernel.

(** ** The user-interrupt registers *)

(** [set_umsr c v e] writes one of the registers 0x986 ... 0x98a. *)
Definition umsr (c : Z) : Prop := 0x986 <= c <= 0x98a.
Definition set_umsr (c v : Z) (e : CPUX86State) : CPUX86State := default e (msr_write c v e).

Lemma umsr_cases c : umsr c -> c = 0x986 \/ c = 0x987 \/ c = 0x988 \/ c = 0x989 \/ c = 0x98a.
Proof. unfold umsr. lia. Qed.

Lemma set_umsr_paging c v e : umsr c -> same_paging e (set_umsr c v e) /\ regs (set_umsr c v e) = regs e /\
  cpu_mmu_index (set_umsr c v e) = cpu_mmu_index e.
Proof. intros [->|[->|[->|[->| ->]]]]%umsr_cases; by split. Qed.

Lemma umsr_write c v e : umsr c -> msr_write c v e = Some (set_umsr c v e).
Proof. by intros [->|[->|[->|[->| ->]]]]%umsr_cases. Qed.

Lemma umsr_other c : umsr c ->
  (c =? MSR_IA32_APICBASE) = false /\ (c =? MSR_IA32_PKRS) = false /\ (c =? MSR_IA32_UINTR_RR) = false.
Proof. by intros [->|[->|[->|[->| ->]]]]%umsr_cases. Qed.

Lemma join32 v : is_u 64 v -> Z.lor (u32 v) (Z.shiftl (u32 (Z.shiftr v 32)) 32) = v.
Proof.
  intros Hv. rewrite (wrap_small 32 (Z.shiftr v 32)).
  - unfold wrap. rewrite <- Z.land_ones by lia. bitwise i Hi. destruct (Z.ltb_spec i 32).
    + by rewrite Z.ones_spec_low, Z.shiftl_spec_low, andb_true_r, orb_false_r by lia.
    + rewrite Z.ones_spec_high, andb_false_r, Z.shiftl_spec, Z.shiftr_spec by lia. cbn. f_equal. lia.
  - unfold is_u in *. rewrite Z.shiftr_div_pow2 by lia. split; [apply Z.div_pos; lia|]. apply Z.div_lt_upper_bound; lia.
Qed.

Section msr.
  Context (d : nat) (ub : Z -> Z) (m : Machine) (Hcpu : is_Some (cpus m !! d)).

(** Outside a guest the instructions are not intercepted. *)
Definition no_guest (e : CPUX86State) : Prop := nz (Z.land (hflags e) HF_GUEST_MASK) = false.

Lemma wrmsr_put c e M : no_guest e -> umsr c -> u32 (reg e R_ECX) = c ->
  helper_wrmsr d ub (put d m e M) =
  Ret tt (put d m (set_umsr c (Z.lor (u32 (reg e R_EAX)) (Z.shiftl (u32 (reg e R_EDX)) 32)) e) M).
Proof.
  intros Hg Hc Er. unfold helper_wrmsr. rewrite (bind_Ret _ _ _ tt (put d m e M)).
  2:{ unfold cpu_svm_check_intercept_param. rewrite (bind_Ret _ _ _ _ _ (put_get d m Hcpu e M)). by rewrite Hg. }
  rewrite (bind_Ret _ _ _ _ _ (put_get d m Hcpu e M)), Er. cbv zeta.
  set (v := Z.lor _ _). clearbody v. destruct (umsr_other c Hc) as (-> & -> & ->).
  rewrite (umsr_write c v e Hc). apply put_mod. done.
Qed.

Lemma rdmsr_put c e M : no_guest e -> umsr c -> u32 (reg e R_ECX) = c ->
  helper_rdmsr d (put d m e M) =
  Ret tt (put d m (set_reg R_EDX (u32 (Z.shiftr (msr_read c e) 32)) (set_reg R_EAX (u32 (msr_read c e)) e)) M).
Proof.
  intros Hg Hc Er. unfold helper_rdmsr. rewrite (bind_Ret _ _ _ tt (put d m e M)).
  2:{ unfold cpu_svm_check_intercept_param. rewrite (bind_Ret _ _ _ _ _ (put_get d m Hcpu e M)). by rewrite Hg. }
  rewrite (bind_Ret _ _ _ _ _ (put_get d m Hcpu e M)), Er. cbv zeta.
  rewrite (bind_Ret _ _ _ (msr_read c e) (put d m e M)).
  2:{ unfold gets. by destruct (umsr_other c Hc) as (-> & _). }
  exact (put_mod d m Hcpu _ e M).
Qed.
End msr.
