(* ===== verification/Switch.v ===== *)
(** * The context switch of the kernel (nimbos/kernel/src/arch/x86_64/context.rs)

    [context_switch] saves the registers the calling convention preserves, the
    user-interrupt flag and the user-interrupt registers on the stack of the
    task it leaves, and loads those of the task it enters.  It is translated
    instruction by instruction; the instruction pointer moves only at [ret]. *)
From S2P Require Import Prelude Cpu Machine Exec Mmu Cc Uintr Msr Kernel.

Definition R_R13 : Z := 13.
Definition R_R14 : Z := 14.
Definition R_R15 : Z := 15.

Section asm.
  Context (d : nat) (ub : Z -> Z).

Definition push (r : Z) : X unit :=
  e ← get_env d;
  let sp := u64 (reg e R_ESP - 8) in
  cpu_st_data d 8 sp (reg e r);; mod_env d (set_reg R_ESP sp).

Definition pop (r : Z) : X unit :=
  e ← get_env d;
  v ← cpu_ld_data d 8 (reg e R_ESP);
  mod_env d (fun e => set_reg r v (set_reg R_ESP (u64 (reg e R_ESP + 8)) e)).

Definition ret : X unit :=
  e ← get_env d;
  v ← cpu_ld_data d 8 (reg e R_ESP);
  mod_env d (fun e => set_reg R_ESP (u64 (reg e R_ESP + 8)) e <| eip := v |>).

(** [sub rsp, k] and [add rsp, k], with the flags they leave. *)
Definition sub_rsp (k : Z) : X unit := mod_env d (fun e =>
  let v := u64 (reg e R_ESP - k) in
  set_reg R_ESP v e <| cc_src := k |> <| cc_dst := v |> <| cc_op := cc_number (CC_SUB WQ) |>).
Definition add_rsp (k : Z) : X unit := mod_env d (fun e =>
  let v := u64 (reg e R_ESP + k) in
  set_reg R_ESP v e <| cc_src := k |> <| cc_dst := v |> <| cc_op := cc_number (CC_ADD WQ) |>).

(** [mov r, imm32], [mov [rsp + off], r32] and [mov r32, [rsp + off]]. *)
Definition mov_imm (r v : Z) : X unit := mod_env d (set_reg r v).
Definition mov_store (off r : Z) : X unit :=
  e ← get_env d; cpu_st_data d 4 (u64 (reg e R_ESP + off)) (u32 (reg e r)).
Definition mov_load (r off : Z) : X unit :=
  e ← get_env d; v ← cpu_ld_data d 4 (u64 (reg e R_ESP + off)); mod_env d (set_reg r v).

(** [setc al], [test al, al] and [jz]. *)
Definition setc_al : X unit := mod_env d (fun e =>
  set_reg R_EAX (Z.lor (clr (reg e R_EAX) 0xff) (helper_cc_compute_c (cc_dst e) (cc_src e) (cc_src2 e) (cc_op e))) e).
Definition test_al : X unit := mod_env d (fun e =>
  e <| cc_dst := u8 (reg e R_EAX) |> <| cc_op := cc_number (CC_LOGIC WB) |>).
Definition jz {A} (taken next : X A) : X A :=
  e ← get_env d; if nz (Z.land (cpu_cc_compute_all e (cc_op e)) CC_Z) then taken else next.

Definition testui : X unit := mod_env d helper_testui.
Definition stui : X unit := mod_env d helper_stui.
Definition clui : X unit := mod_env d helper_clui.

(** One register to its place in the frame, and back. *)
Definition save_msr (c off : Z) : X unit :=
  mov_imm R_ECX c;; helper_rdmsr d;; mov_store off R_EAX;; mov_store (off + 4) R_EDX.
Definition restore_msr (c off : Z) : X unit :=
  mov_imm R_ECX c;; mov_load R_EAX off;; mov_load R_EDX (off + 4);; helper_wrmsr d ub.

Definition save_task : X unit :=
  push R_EBP;; push R_EBX;; push R_R12;; push R_R13;; push R_R14;; push R_R15;;
  testui;; setc_al;; push R_EAX;;
  sub_rsp 40;;
  save_msr 0x986 32;; save_msr 0x987 24;; save_msr 0x988 16;; save_msr 0x989 8;; save_msr 0x98a 0.

(** [mov [rdi], rsp] and [mov rsp, [rsi]] *)
Definition switch_stacks : X unit :=
  e ← get_env d; cpu_st_data d 8 (reg e R_EDI) (reg e R_ESP);;
  e ← get_env d; v ← cpu_ld_data d 8 (reg e R_ESI); mod_env d (set_reg R_ESP v).

Definition restore_task : X unit :=
  restore_msr 0x98a 0;; restore_msr 0x989 8;; restore_msr 0x988 16;; restore_msr 0x987 24;; restore_msr 0x986 32;;
  add_rsp 40;;
  pop R_EAX;; test_al;; jz clui stui;;
  pop R_R15;; pop R_R14;; pop R_R13;; pop R_R12;; pop R_EBX;; pop R_EBP;; ret.

Definition context_switch : X unit := save_task;; switch_stacks;; restore_task.
End asm.

(** [struct ContextSwitchFrame]. *)
Record ContextSwitchFrame := mkFrame {
  msr98a : Z; msr989 : Z; msr988 : Z; msr987 : Z; msr986 : Z; uif : Z;
  f_r15 : Z; f_r14 : Z; f_r13 : Z; f_r12 : Z; f_rbx : Z; f_rbp : Z; f_rip : Z;
}.

Definition rd_frame (mm : gmap Z Z) (a : Z) : ContextSwitchFrame :=
  mkFrame (ld 8 mm a) (ld 8 mm (a + 8)) (ld 8 mm (a + 16)) (ld 8 mm (a + 24)) (ld 8 mm (a + 32)) (ld 8 mm (a + 40))
    (ld 8 mm (a + 48)) (ld 8 mm (a + 56)) (ld 8 mm (a + 64)) (ld 8 mm (a + 72)) (ld 8 mm (a + 80)) (ld 8 mm (a + 88))
    (ld 8 mm (a + 96)).

(** [TaskContext::init] for a new task whose kernel stack ends at [kstack_top]
    (physical address): the frame it starts from, and its stack pointer. *)
Definition init_frame (kstack_top entry : Z) (mm : gmap Z Z) : Z * gmap Z Z :=
  let p := kstack_top - 104 in
  (p, fold_left (fun mm i => st 8 (p + 8 * i) (if i =? 12 then entry else 0) mm) (seqZ 0 13) mm).
