(* ===== verification/SwitchFacts.v ===== *)
(** * The context switch saves and restores a task

    What [context_switch] writes to the stack it leaves, what the processor has
    after it, and that a task which is switched away from and back to finds its
    registers and its user-interrupt state as they were. *)
From S2P Require Import Prelude Cpu Machine Mem Exec Mmu MmuFacts ExcFacts Cc Uintr Msr VMem UintrFacts Kernel Switch.

(** ** Split stores *)
Lemma st_app n k a v mm : st (n + k) a v mm = st k (a + Z.of_nat n) (v / 256 ^ Z.of_nat n) (st n a v mm).
Proof.
  revert a v mm. induction n as [|n IH]; intros a v mm; cbn [Nat.add st].
  - by rewrite Z.add_0_r, Z.div_1_r.
  - rewrite IH. f_equal; [lia|]. rewrite Nat2Z.inj_succ, Z.pow_succ_r, Z.div_div by lia. done.
Qed.

Lemma st_wrap n a v mm : st n a (v mod 256 ^ Z.of_nat n) mm = st n a v mm.
Proof.
  revert a v mm. induction n as [|n IH]; intros a v mm; [done|]. cbn [st].
  rewrite Nat2Z.inj_succ, Z.pow_succ_r by lia. rewrite Z.rem_mul_r by lia.
  rewrite (Z.mul_comm 256), Z.div_add, Z.mod_add by lia.
  rewrite Z.mod_mod, (Z.div_small (v mod 256)) by (apply Z.mod_pos_bound || lia; lia). rewrite Z.add_0_l. by rewrite IH.
Qed.

Lemma st_halves a v mm : st 4 (a + 4) (u32 (Z.shiftr v 32)) (st 4 a (u32 v) mm) = st 8 a v mm.
Proof.
  change (u32 v) with (v mod 256 ^ Z.of_nat 4). change (u32 (Z.shiftr v 32)) with (Z.shiftr v 32 mod 256 ^ Z.of_nat 4).
  rewrite !st_wrap, Z.shiftr_div_pow2 by lia. symmetry. apply (st_app 4 4).
Qed.

Lemma ld_app n k mm a : ld (n + k) mm a = ld n mm a + 256 ^ Z.of_nat n * ld k mm (a + Z.of_nat n).
Proof.
  revert a. induction n as [|n IH]; intros a; cbn [Nat.add ld].
  - rewrite Z.add_0_r. change (256 ^ Z.of_nat 0) with 1. lia.
  - rewrite IH, Nat2Z.inj_succ, Z.pow_succ_r by lia. replace (a + Z.succ (Z.of_nat n)) with (a + 1 + Z.of_nat n) by lia. lia.
Qed.

Lemma ld_halves mm a : mem_wf mm -> Z.lor (u32 (ld 4 mm a)) (Z.shiftl (u32 (ld 4 mm (a + 4))) 32) = ld 8 mm a.
Proof.
  intros Hw. change 8%nat with (4 + 4)%nat. rewrite ld_app. pose proof (ld_range 4 mm a Hw). pose proof (ld_range 4 mm (a + 4) Hw).
  change (256 ^ Z.of_nat 4) with (2 ^ 32) in *. change (Z.of_nat 4) with 4. rewrite !wrap_small by (unfold is_u; lia).
  rewrite Z.shiftl_mul_pow2 by lia. rewrite <- Z.add_nocarry_lor, (Z.mul_comm (2 ^ 32)); [done|].
  apply Z.bits_inj'. intros i Hi. rewrite Z.land_spec, Z.bits_0. destruct (Z.ltb_spec i 32).
  - by rewrite Z.mul_pow2_bits_low, andb_false_r by lia.
  - rewrite (Z.bits_above_log2 (ld 4 mm a)), andb_false_l; [done|lia|]. destruct (Z.eq_dec (ld 4 mm a) 0) as [->|]; [cbn; lia|].
    apply Z.log2_lt_pow2; [lia|]. assert (2 ^ 32 <= 2 ^ i) by (apply Z.pow_le_mono_r; lia). lia.
Qed.

(** ** Saving *)

(** The two states have the same task: all but the stack pointer, the scratch
    registers and the flags. *)
Record alike (e0 e : CPUX86State) : Prop := {
  al_regs : forall r, 3 <= r < 16 -> r <> R_ESP -> reg e r = reg e0 r;
  al_handler : uintr_handler e = uintr_handler e0;
  al_stackadjust : uintr_stackadjust e = uintr_stackadjust e0;
  al_misc : uintr_misc e = uintr_misc e0;
  al_pd : uintr_pd e = uintr_pd e0;
  al_tt : uintr_tt e = uintr_tt e0;
  al_uif : uintr_uif e = uintr_uif e0;
}.

Lemma alike_refl e : alike e e.
Proof. by split. Qed.
Lemma alike_trans e1 e2 e3 : alike e1 e2 -> alike e2 e3 -> alike e1 e3.
Proof. intros [H1 ? ? ? ? ? ?] [H2 ? ? ? ? ? ?]. split; [|congruence..]. intros r Hr Hn. by rewrite H2, H1. Qed.
Lemma alike_set_reg r v e : 0 <= r <= 2 \/ r = R_ESP -> alike e (set_reg r v e).
Proof. intros Hr. split; try done. intros k Hk Hn. apply reg_set_ne; unfold R_ESP in *; lia. Qed.

Section run.
  Context (d : nat) (ub : Z -> Z) (m : Machine) (T : list Z).
  Context (Hcpu : is_Some (cpus m !! d)) (Hlong : long_mode (cpu_env d m)) (Hguest : no_guest (cpu_env d m)).
  #[local] Abbreviation P := (put d m).
  #[local] Abbreviation K := (cpu_mmu_index (cpu_env d m)).

(** [x] runs from the state to one that satisfies [Q]. *)
Definition runs (x : X unit) (e : CPUX86State) (M : gmap Z Z) (Q : CPUX86State -> gmap Z Z -> Prop) : Prop :=
  exists e' M', x (P e M) = Ret tt (P e' M') /\ Q e' M'.

Lemma runs_bind x y e M Q R : runs x e M Q -> (forall e' M', Q e' M' -> runs y e' M' R) -> runs (x;; y) e M R.
Proof.
  intros (e' & M' & E & HQ) Hy. destruct (Hy e' M' HQ) as (e2 & M2 & E2 & HR). exists e2, M2. split; [|done].
  by rewrite (bind_Ret _ _ _ _ _ E).
Qed.

Lemma runs_bind2 (x y z : X unit) e M Q R : runs (x;; y) e M Q -> (forall e' M', Q e' M' -> runs z e' M' R) -> runs (x;; y;; z) e M R.
Proof.
  intros (e' & M' & E & HQ) Hz. destruct (Hz e' M' HQ) as (e2 & M2 & E2 & HR). exists e2, M2. split; [|done].
  unfold mbind, X_bind in *. destruct (x (P e M)) as [[] mx|mx|mx]; try done. by rewrite E.
Qed.

Lemma runs_mod f e M (Q : CPUX86State -> gmap Z Z -> Prop) : Q (f e) M -> runs (mod_env d f) e M Q.
Proof. intros HQ. exists (f e), M. split; [|done]. by apply put_mod. Qed.

Lemma steady_guest e M : steady d m T e M -> no_guest e.
Proof. intros H. unfold no_guest. etransitivity; [symmetry; apply (same_hflag _ _ 21 (sy_paging _ _ _ _ _ H)); lia|exact Hguest]. Qed.

Section stack.
  Context (vp pp : Z) (Hmap : mapped d m T MMU_DATA_STORE K vp pp) (Htop : vp + 4096 < 2 ^ 64).

Lemma stack_u64 off : 0 <= off <= 4096 -> u64 (vp + off) = vp + off.
Proof. intros. destruct Hmap as [[_ Hr _ _ _] _]. apply wrap_small. unfold is_u. lia. Qed.

(** The state while saving: [off] is the offset of the stack pointer. *)
Definition saving (e0 : CPUX86State) (off : Z) (M' : gmap Z Z) (e : CPUX86State) (M : gmap Z Z) : Prop :=
  alike e0 e /\ reg e R_ESP = vp + off /\ steady d m T e M /\ M = M'.

Lemma push_runs r e0 off M' e M : saving e0 off M' e M -> 8 <= off <= 4096 -> off_tables T (pp + off - 8) 8 ->
  runs (push d r) e M (fun e' => saving e0 (off - 8) (st 8 (pp + off - 8) (reg e r) M') e').
Proof.
  intros (Ha & Hsp & Hs & ->) Ho Ht. unfold push, runs.
  assert (E : cpu_st_data d 8 (vp + (off - 8)) (reg e r) (P e M') = Ret tt (P e (st 8 (pp + (off - 8)) (reg e r) M'))).
  { apply (st_put d m T Hcpu Hlong 8); (done || lia). }
  exists (set_reg R_ESP (vp + (off - 8)) e), (st 8 (pp + off - 8) (reg e r) M'). split.
  - rewrite (bind_Ret _ _ _ _ _ (put_get d m Hcpu e M')). cbv zeta. rewrite Hsp. replace (vp + off - 8) with (vp + (off - 8)) by lia.
    rewrite stack_u64 by lia. rewrite (bind_Ret _ _ _ _ _ E). replace (pp + (off - 8)) with (pp + off - 8) by lia. by apply put_mod.
  - split_and!; [|rewrite reg_set_eq, stack_u64; [done|lia|apply Hs|unfold R_ESP; lia]| |done].
    + eapply alike_trans; [exact Ha|]. apply alike_set_reg. auto.
    + apply steady_set_reg, steady_st; [done|exact Ht].
Qed.

Lemma testui_env e : helper_testui e = cpu_load_eflags (b2z (uif_enable e)) CC_ALL e.
Proof. unfold helper_testui. by destruct (uif_enable e). Qed.

Lemma load_eflags_index b e : cpu_mmu_index (cpu_load_eflags (b2z b) CC_ALL e) = cpu_mmu_index e.
Proof.
  assert (E : has (eflags (cpu_load_eflags (b2z b) CC_ALL e)) AC_MASK = has (eflags e) AC_MASK).
  { change (eflags (cpu_load_eflags (b2z b) CC_ALL e)) with (u64 (Z.lor (Z.lor (clr (eflags e) CC_ALL) (Z.land (s32 (b2z b)) CC_ALL)) 2)).
    change AC_MASK with (bit 18). rewrite !nz_land_bit by lia. autorewrite with bits.
    change (Z.testbit CC_ALL 18) with false. by rewrite andb_true_r, andb_false_r, !orb_false_r. }
  unfold cpu_mmu_index. by rewrite E.
Qed.

(** The flag is in the low byte pushed. *)
Lemma low_byte x b : u8 (u64 (Z.lor (clr x 0xff) (b2z b))) = b2z b.
Proof.
  apply Z.bits_inj'. intros i Hi. rewrite !wrap_testbit, Z.lor_spec, Z.land_spec, Z.lnot_spec by lia. change 255 with (Z.ones 8).
  destruct (Z.ltb_spec i 8).
  - rewrite Z.ones_spec_low, andb_false_r, (proj2 (Z.ltb_lt i 64)) by lia. done.
  - cbn. symmetry. apply Z.bits_above_log2; destruct b; cbn; lia.
Qed.

Lemma alike_testui e : alike e (helper_testui e).
Proof. by rewrite testui_env. Qed.

Lemma steady_testui e M : steady d m T e M -> steady d m T (helper_testui e) M.
Proof.
  intros H. rewrite testui_env. eapply steady_upd; [exact H|done|apply load_eflags_index|]. apply H.
Qed.

Lemma testui_runs e0 off M' e M : saving e0 off M' e M ->
  runs (testui d;; setc_al d) e M (fun e' M =>
    saving e0 off M' e' M /\ u8 (reg e' R_EAX) = b2z (uif_enable e0) /\ is_u 64 (reg e' R_EAX)).
Proof.
  intros (Ha & Hsp & Hs & ->). eapply runs_bind; [apply (runs_mod _ _ _ (fun e' M => e' = helper_testui e /\ M = M')); done|].
  intros ? ? [-> ->]. apply runs_mod. pose proof (steady_testui _ _ Hs) as Ht. split; [split_and!|].
  - eapply alike_trans; [exact Ha|]. eapply alike_trans; [apply alike_testui|]. apply alike_set_reg. unfold R_EAX. lia.
  - rewrite reg_set_ne by (unfold R_EAX, R_ESP; lia). rewrite testui_env. exact Hsp.
  - by apply steady_set_reg.
  - done.
  - rewrite reg_set_eq by (apply Ht || (unfold R_EAX; lia)). split; [|apply wrap_range; lia]. rewrite testui_env.
    assert (Ec : forall b, helper_cc_compute_c (cc_dst (cpu_load_eflags (b2z b) CC_ALL e)) (cc_src (cpu_load_eflags (b2z b) CC_ALL e))
      (cc_src2 (cpu_load_eflags (b2z b) CC_ALL e)) (cc_op (cpu_load_eflags (b2z b) CC_ALL e)) = b2z b) by (by intros []).
    rewrite Ec, low_byte. unfold uif_enable. by rewrite (al_uif _ _ Ha).
Qed.

Lemma sub_rsp_runs e0 off M' e M k : saving e0 off M' e M -> 0 <= k <= off -> off - k < 4096 ->
  runs (sub_rsp d k) e M (saving e0 (off - k) M').
Proof.
  intros (Ha & Hsp & Hs & ->) Hk Ho. apply runs_mod. cbv zeta. rewrite Hsp. replace (vp + off - k) with (vp + (off - k)) by lia.
  rewrite stack_u64 by lia. split_and!.
  - eapply alike_trans; [exact Ha|]. by eapply alike_trans; [apply (alike_set_reg R_ESP (vp + (off - k))); auto|].
  - transitivity (reg (set_reg R_ESP (vp + (off - k)) e) R_ESP); [done|].
    rewrite reg_set_eq, stack_u64; [done|lia|apply Hs|unfold R_ESP; lia].
  - eapply steady_upd; [apply (steady_set_reg d m T R_ESP (vp + (off - k)) e M' Hs)|done|done|]. apply regs16_set, Hs.
  - done.
Qed.

Lemma low_half x : u32 (u64 (u32 x)) = u32 x.
Proof.
  pose proof (wrap_range 32 x ltac:(lia)) as H. rewrite (wrap_small 64), wrap_small; [done|done|]. unfold is_u in *. lia.
Qed.

Lemma mov_store_runs o r off e M : reg e R_ESP = vp + off -> steady d m T e M -> 0 <= off + o -> off + o + 4 <= 4096 ->
  runs (mov_store d o r) e M (fun e' M1 => e' = e /\ M1 = st 4 (pp + off + o) (u32 (reg e r)) M).
Proof.
  intros Hsp Hs H0 H1. eexists e, _. split; [|done]. unfold mov_store. rewrite (bind_Ret _ _ _ _ _ (put_get d m Hcpu e M)).
  rewrite Hsp. replace (vp + off + o) with (vp + (off + o)) by lia. rewrite stack_u64 by lia.
  rewrite (st_put d m T Hcpu Hlong 4 vp pp (off + o)) by (done || lia). by replace (pp + (off + o)) with (pp + off + o) by lia.
Qed.

Lemma alike_msr c e0 e : umsr c -> alike e0 e -> msr_read c e = msr_read c e0.
Proof. intros [->|[->|[->|[->| ->]]]]%umsr_cases []; done. Qed.

Lemma save_msr_runs c o e0 off M' e M : saving e0 off M' e M -> umsr c -> 0 <= o -> 0 <= off -> off + o + 8 <= 4096 ->
  off_tables T (pp + off + o) 8 ->
  runs (save_msr d c o) e M (saving e0 off (st 8 (pp + off + o) (msr_read c e0) M')).
Proof.
  intros (Ha & Hsp & Hs & ->) Hc Ho Hoff Hb Ht. unfold save_msr.
  eapply runs_bind; [apply (runs_mod _ _ _ (fun e' M1 => e' = set_reg R_ECX c e /\ M1 = M')); done|]. intros ? ? [-> ->].
  pose proof (steady_set_reg d m T R_ECX c _ _ Hs) as Hs1. set (e1 := set_reg R_ECX c e) in *.
  assert (Hc32 : u32 (reg e1 R_ECX) = c).
  { unfold e1. rewrite reg_set_eq by (apply Hs || (unfold R_ECX; lia)). unfold umsr in Hc. rewrite (wrap_small 64 c), wrap_small by (unfold is_u; lia). done. }
  assert (Ha1 : alike e0 e1) by (eapply alike_trans; [exact Ha|apply alike_set_reg; unfold R_ECX; lia]).
  assert (Hsp1 : reg e1 R_ESP = vp + off) by (unfold e1; rewrite reg_set_ne by (unfold R_ECX, R_ESP; lia); done).
  pose proof (rdmsr_put d m Hcpu c e1 M' (steady_guest _ _ Hs1) Hc Hc32) as Erd. rewrite (alike_msr c e0 e1 Hc Ha1) in Erd.
  set (v := msr_read c e0) in *. set (e2 := set_reg R_EDX _ _) in Erd.
  eapply runs_bind; [exists e2, M'; split; [exact Erd|exact (conj eq_refl eq_refl : (fun e M1 => e = e2 /\ M1 = M') e2 M')]|].
  intros ? ? [-> ->]. clear Erd.
  assert (Hs2 : steady d m T e2 M') by (by do 2 apply steady_set_reg).
  assert (Hsp2 : reg e2 R_ESP = vp + off) by (unfold e2; rewrite !reg_set_ne by (unfold R_EAX, R_EDX, R_ESP; lia); done).
  assert (Hlo : u32 (reg e2 R_EAX) = u32 v).
  { unfold e2. rewrite reg_set_ne, reg_set_eq by (apply Hs1 || (unfold R_EAX, R_EDX; lia)). apply low_half. }
  assert (Hhi : u32 (reg e2 R_EDX) = u32 (Z.shiftr v 32)).
  { unfold e2. rewrite reg_set_eq by (apply regs16_set, Hs1 || (unfold R_EDX; lia)). apply low_half. }
  eapply runs_bind; [apply (mov_store_runs o R_EAX off e2 M' Hsp2 Hs2); lia|]. intros ? ? [-> ->]. rewrite Hlo.
  destruct (mov_store_runs (o + 4) R_EDX off e2 (st 4 (pp + off + o) (u32 v) M') Hsp2) as (e3 & M3 & E3 & -> & ->); [|lia|lia|].
  { apply steady_st; [done|]. eapply off_tables_sub; [exact Ht|lia|lia]. }
  eexists _, _. split; [exact E3|]. rewrite Hhi, (Z.add_assoc (pp + off) o 4), st_halves. split_and!; [|done| |done].
  - eapply alike_trans; [exact Ha1|]. eapply alike_trans; apply alike_set_reg; unfold R_EAX, R_EDX; lia.
  - by apply steady_st.
Qed.

(** What is pushed, from the return address down; [w] carries the flag. *)
Definition task_words (e : CPUX86State) (w : Z) : list Z :=
  [reg e R_EBP; reg e R_EBX; reg e R_R12; reg e R_R13; reg e R_R14; reg e R_R15; w;
   uintr_handler e; uintr_stackadjust e; uintr_misc e; uintr_pd e; uintr_tt e].

Lemma push_saved r e0 off M' e M : saving e0 off M' e M -> 3 <= r < 16 -> r <> R_ESP -> 8 <= off <= 4096 ->
  off_tables T (pp + off - 8) 8 ->
  runs (push d r) e M (fun e' => saving e0 (off - 8) (st 8 (pp + off - 8) (reg e0 r) M') e').
Proof. intros H Hr Hn Ho Ht. rewrite <- (al_regs _ _ (proj1 H) r Hr Hn). by apply push_runs. Qed.

Ltac within := eapply off_tables_sub; [eassumption|lia|lia].
Ltac push_next H := eapply runs_bind;
  [apply (push_saved _ _ _ _ _ _ H); [done|done|lia|within]|clear H; intros ? ? H].
Ltac save_next H := eapply runs_bind;
  [apply (save_msr_runs _ _ _ _ _ _ _ H); [done|lia|lia|lia|within]|clear H; intros ? ? H].

Lemma save_task_runs e M off : reg e R_ESP = vp + off -> steady d m T e M -> 96 <= off <= 4096 ->
  off_tables T (pp + off - 96) 96 ->
  runs (save_task d) e M (fun e' M' => exists w, u8 w = b2z (uif_enable e) /\ is_u 64 w /\
    saving e (off - 96) (pushed (pp + off) (task_words e w) M) e' M').
Proof.
  intros Hsp Hs Ho Ht. assert (H : saving e off M e M) by (split_and!; [apply alike_refl|done|done|done]).
  unfold save_task. do 6 push_next H. eapply runs_bind2; [by apply (testui_runs _ _ _ _ _ H)|]. clear H. intros e7 M7 (H & Hw & Hwu).
  eapply runs_bind; [apply (push_runs R_EAX _ _ _ _ _ H); [lia|within]|]. clear H. intros ? ? H.
  eapply runs_bind; [apply (sub_rsp_runs _ _ _ _ _ 40 H); lia|]. clear H. intros ? ? H.
  do 4 save_next H. destruct (save_msr_runs 0x98a 0 _ _ _ _ _ H) as (e9 & M9 & E & H9); [done|lia|lia|lia|within|].
  exists e9, M9. split; [exact E|]. exists (reg e7 R_EAX). split; [done|]. split; [done|].
  replace (off - 8 - 8 - 8 - 8 - 8 - 8 - 8 - 40) with (off - 96) in H9 by lia.
  unfold task_words. cbn [pushed]. destruct H9 as (A & B & C & ->). split_and!; [done|done|done|]. repeat f_equal; lia.
Qed.

(** ** Restoring

    Here the first state of [saving] is the task rebuilt so far. *)
Lemma alike_set r v e0 e : regs16 e0 -> regs16 e -> 0 <= r < 16 -> alike e0 e -> alike (set_reg r v e0) (set_reg r v e).
Proof.
  intros H0 H1 Hr []. split; try done. intros k Hk Hn. destruct (Z.eq_dec k r) as [->|Hne]; [by rewrite !reg_set_eq|].
  rewrite !reg_set_ne by lia. auto.
Qed.

Lemma alike_umsr c v e0 e : umsr c -> alike e0 e -> alike (set_umsr c v e0) (set_umsr c v e).
Proof. intros [->|[->|[->|[->| ->]]]]%umsr_cases []; by split. Qed.

Lemma steady_umsr c v e M : umsr c -> steady d m T e M -> steady d m T (set_umsr c v e) M.
Proof.
  intros Hc H. destruct (set_umsr_paging c v e Hc) as (Hp & Er & Hi). eapply steady_upd; [exact H|done|done|]. unfold regs16. rewrite Er. apply H.
Qed.

Lemma mov_load_runs r o off e M : reg e R_ESP = vp + off -> steady d m T e M -> 0 <= off + o -> off + o + 4 <= 4096 ->
  runs (mov_load d r o) e M (fun e' M1 => e' = set_reg r (ld 4 M (pp + off + o)) e /\ M1 = M).
Proof.
  intros Hsp Hs H0 H1. eexists _, M. split; [|done]. unfold mov_load. rewrite (bind_Ret _ _ _ _ _ (put_get d m Hcpu e M)).
  rewrite Hsp. replace (vp + off + o) with (vp + (off + o)) by lia. rewrite stack_u64 by lia.
  rewrite (bind_Ret _ _ _ _ _ (ld_put d m T Hcpu Hlong 4 vp pp (off + o) e M Hs (mapped_load _ _ _ _ _ _ Hmap) ltac:(lia) ltac:(lia) ltac:(lia))).
  replace (pp + (off + o)) with (pp + off + o) by lia. by apply put_mod.
Qed.

Lemma restore_msr_runs c o e0 off e M : saving e0 off M e M -> umsr c -> 0 <= o -> 0 <= off -> off + o + 8 <= 4096 ->
  runs (restore_msr d ub c o) e M (saving (set_umsr c (ld 8 M (pp + off + o)) e0) off M).
Proof.
  intros (Ha & Hsp & Hs & _) Hc Ho Hoff Hb. unfold restore_msr.
  eapply runs_bind; [apply (runs_mod _ _ _ (fun e' M1 => e' = set_reg R_ECX c e /\ M1 = M)); done|]. intros ? ? [-> ->].
  pose proof (steady_set_reg d m T R_ECX c _ _ Hs) as Hs1.
  eapply runs_bind; [apply (mov_load_runs R_EAX o off); [rewrite reg_set_ne by (unfold R_ECX, R_ESP; lia); done|done|lia|lia]|].
  intros ? ? [-> ->]. pose proof (steady_set_reg d m T R_EAX (ld 4 M (pp + off + o)) _ _ Hs1) as Hs2.
  eapply runs_bind; [apply (mov_load_runs R_EDX (o + 4) off); [rewrite !reg_set_ne by (unfold R_ECX, R_EAX, R_ESP; lia); done|done|lia|lia]|].
  intros ? ? [-> ->]. pose proof (steady_set_reg d m T R_EDX (ld 4 M (pp + off + (o + 4))) _ _ Hs2) as Hs3.
  set (e3 := set_reg R_EDX _ _) in *. pose proof (sy_wf _ _ _ _ _ Hs) as Hw.
  assert (Elo : u32 (reg e3 R_EAX) = u32 (ld 4 M (pp + off + o))).
  { unfold e3. rewrite reg_set_ne, reg_set_eq by (apply Hs1 || (unfold R_EAX, R_EDX; lia)). rewrite (wrap_small 64); [done|].
    pose proof (ld_is_u 4 M (pp + off + o) Hw) as H. unfold is_u in *. lia. }
  assert (Ehi : u32 (reg e3 R_EDX) = u32 (ld 4 M (pp + off + o + 4))).
  { unfold e3. rewrite reg_set_eq by (apply Hs2 || (unfold R_EDX; lia)). rewrite (wrap_small 64), (Z.add_assoc (pp + off)); [done|].
    pose proof (ld_is_u 4 M (pp + off + (o + 4)) Hw) as H. unfold is_u in *. lia. }
  assert (Ec : u32 (reg e3 R_ECX) = c).
  { unfold e3. rewrite !reg_set_ne, reg_set_eq by (apply Hs || (unfold R_ECX, R_EAX, R_EDX; lia)).
    unfold umsr in Hc. rewrite (wrap_small 64 c), wrap_small by (unfold is_u; lia). done. }
  eexists _, M. split; [apply (wrmsr_put d ub m Hcpu c e3 M (steady_guest _ _ Hs3) Hc Ec)|]. rewrite Elo, Ehi, ld_halves by done.
  destruct (set_umsr_paging c (ld 8 M (pp + off + o)) e3 Hc) as (_ & Er & _). split_and!; [|unfold reg; rewrite Er|by apply steady_umsr|done].
  - apply alike_umsr; [done|]. unfold e3. eapply alike_trans; [exact Ha|]. 
    do 2 (eapply alike_trans; [|apply alike_set_reg; unfold R_EAX, R_EDX; lia]). apply alike_set_reg. unfold R_ECX. lia.
  - change (reg e3 R_ESP = vp + off). unfold e3. rewrite !reg_set_ne by (unfold R_ECX, R_EAX, R_EDX, R_ESP; lia). done.
Qed.

(** A new stack pointer in the page. *)
Lemma saving_rsp e0 off off' M e f : saving e0 off M e M -> 0 <= off' <= 4096 ->
  same_paging (set_reg R_ESP (vp + off') e) (f (set_reg R_ESP (vp + off') e)) ->
  cpu_mmu_index (f (set_reg R_ESP (vp + off') e)) = cpu_mmu_index e ->
  regs (f (set_reg R_ESP (vp + off') e)) = regs (set_reg R_ESP (vp + off') e) ->
  alike (set_reg R_ESP (vp + off') e) (f (set_reg R_ESP (vp + off') e)) ->
  saving e0 off' M (f (set_reg R_ESP (vp + off') e)) M.
Proof.
  intros (Ha & Hsp & Hs & _) Ho Hp Hi Hr Hf. split_and!; [| | |done].
  - eapply alike_trans; [exact Ha|]. eapply alike_trans; [apply alike_set_reg; auto|exact Hf].
  - unfold reg. rewrite Hr. change (reg (set_reg R_ESP (vp + off') e) R_ESP = vp + off').
    rewrite reg_set_eq, stack_u64; [done|done|apply Hs|unfold R_ESP; lia].
  - eapply steady_upd; [apply (steady_set_reg d m T R_ESP (vp + off') e M Hs)|done|done|]. unfold regs16. rewrite Hr. apply regs16_set, Hs.
Qed.

Lemma add_rsp_runs e0 off e M k : saving e0 off M e M -> 0 <= k -> 0 <= off -> off + k <= 4096 ->
  runs (add_rsp d k) e M (saving e0 (off + k) M).
Proof.
  intros H Hk H0 Ho. apply runs_mod. cbv zeta. rewrite (proj1 (proj2 H)). rewrite <- Z.add_assoc, stack_u64 by lia.
  apply (saving_rsp e0 off (off + k) M e (fun e => e <| cc_src := k |> <| cc_dst := vp + (off + k) |> <| cc_op := cc_number (CC_ADD WQ) |>)); try done. lia.
Qed.

Lemma ld_stack off e M : steady d m T e M -> 0 <= off -> off + 8 <= 4096 ->
  cpu_ld_data d 8 (vp + off) (P e M) = Ret (ld 8 M (pp + off)) (P e M).
Proof. intros Hs H0 H1. apply (ld_put d m T Hcpu Hlong 8 vp pp off e M Hs (mapped_load _ _ _ _ _ _ Hmap)); cbn; lia. Qed.

Lemma pop_runs r e0 off e M : saving e0 off M e M -> regs16 e0 -> 0 <= r < 16 -> r <> R_ESP -> 0 <= off -> off + 8 <= 4096 ->
  runs (pop d r) e M (fun e' M1 => saving (set_reg r (ld 8 M (pp + off)) e0) (off + 8) M e' M1 /\ reg e' r = ld 8 M (pp + off)).
Proof.
  intros H He0 Hr Hne H0 H1. pose proof H as (Ha & Hsp & Hs & _). eexists _, M. split.
  - unfold pop. rewrite (bind_Ret _ _ _ _ _ (put_get d m Hcpu e M)), Hsp. rewrite (bind_Ret _ _ _ _ _ (ld_stack off e M Hs H0 ltac:(lia))).
    by apply put_mod.
  - cbv beta. rewrite Hsp, <- Z.add_assoc, stack_u64 by lia. pose proof (ld_is_u 8 M (pp + off) (sy_wf _ _ _ _ _ Hs)) as Hu.
    pose proof (saving_rsp e0 off (off + 8) M e id H ltac:(lia)) as (A & B & C & _); try done. cbn [id] in *.
    split; [split_and!|].
    + apply alike_set; [done|apply C|done|done].
    + rewrite reg_set_ne by (unfold R_ESP in *; lia). done.
    + by apply steady_set_reg.
    + done.
    + rewrite reg_set_eq by (apply C || done). by apply wrap_small.
Qed.

Lemma ret_runs e0 off e M : saving e0 off M e M -> 0 <= off -> off + 8 <= 4096 ->
  runs (ret d) e M (fun e' M1 => saving e0 (off + 8) M e' M1 /\ eip e' = ld 8 M (pp + off)).
Proof.
  intros H H0 H1. pose proof H as (Ha & Hsp & Hs & _). eexists _, M. split.
  - unfold ret. rewrite (bind_Ret _ _ _ _ _ (put_get d m Hcpu e M)), Hsp. rewrite (bind_Ret _ _ _ _ _ (ld_stack off e M Hs H0 ltac:(lia))).
    by apply put_mod.
  - cbv beta. rewrite Hsp, <- Z.add_assoc, stack_u64 by lia. split; [|done].
    apply (saving_rsp e0 off (off + 8) M e (fun e => e <| eip := ld 8 M (pp + off) |>)); try done. lia.
Qed.

(** The flag comes back from the low byte of the word popped. *)
Lemma zf_test x s1 s2 : is_u 8 x ->
  nz (Z.land (u32 (helper_cc_compute_all x s1 s2 (cc_number (CC_LOGIC WB)))) CC_Z) = (x =? 0).
Proof.
  intros Hx. change (nz (Z.land (u32 (compute_all_logic 8 x 0)) CC_Z) = (x =? 0)).
  assert (H : forallb (fun x => Bool.eqb (nz (Z.land (u32 (compute_all_logic 8 x 0)) CC_Z)) (x =? 0)) (seqZ 0 256) = true) by (by vm_compute).
  apply eqb_prop. rewrite forallb_forall in H. apply H. apply list_elem_of_In, elem_of_seqZ. unfold is_u in Hx. lia.
Qed.

Lemma alike_uif b e0 e : alike e0 e -> alike (switch_uif b e0) (switch_uif b e).
Proof. intros []. by destruct b. Qed.

Lemma flag_runs e0 off e M : saving e0 off M e M ->
  runs (test_al d;; jz d (clui d) (stui d)) e M (saving (switch_uif (nz (u8 (reg e R_EAX))) e0) off M).
Proof.
  intros (Ha & Hsp & Hs & _). set (w := reg e R_EAX). eapply runs_bind.
  { apply (runs_mod _ _ _ (fun e' M1 => e' = e <| cc_dst := u8 w |> <| cc_op := cc_number (CC_LOGIC WB) |> /\ M1 = M)). done. }
  intros ? ? [-> ->]. set (e1 := e <| cc_dst := u8 w |> <| cc_op := cc_number (CC_LOGIC WB) |>).
  assert (Ez : nz (Z.land (cpu_cc_compute_all e1 (cc_op e1)) CC_Z) = negb (nz (u8 w))).
  { unfold nz at 2. rewrite negb_involutive. apply (zf_test (u8 w) (cc_src e) (cc_src2 e)). apply wrap_range. lia. }
  exists (switch_uif (nz (u8 w)) e1), M. split.
  - unfold jz. rewrite (bind_Ret _ _ _ _ _ (put_get d m Hcpu e1 M)), Ez. destruct (nz (u8 w)); by apply put_mod.
  - split_and!; [apply alike_uif; by eapply alike_trans|by destruct (nz (u8 w))| |done].
    eapply steady_upd; [exact Hs|by destruct (nz (u8 w))|by destruct (nz (u8 w))|]. destruct (nz (u8 w)); apply Hs.
Qed.

(** The processor resumes the task of frame [F], whose stack pointer is [sp]
    once the frame is gone. *)
Record resumes (F : ContextSwitchFrame) (sp : Z) (e : CPUX86State) : Prop := {
  rs_rbp : reg e R_EBP = f_rbp F;
  rs_rbx : reg e R_EBX = f_rbx F;
  rs_r12 : reg e R_R12 = f_r12 F;
  rs_r13 : reg e R_R13 = f_r13 F;
  rs_r14 : reg e R_R14 = f_r14 F;
  rs_r15 : reg e R_R15 = f_r15 F;
  rs_handler : uintr_handler e = msr986 F;
  rs_stackadjust : uintr_stackadjust e = msr987 F;
  rs_misc : uintr_misc e = msr988 F;
  rs_pd : uintr_pd e = msr989 F;
  rs_tt : uintr_tt e = msr98a F;
  rs_uif : uif_enable e = nz (u8 (uif F));
  rs_rsp : reg e R_ESP = sp;
  rs_rip : eip e = f_rip F;
}.

Ltac restore_next H := eapply runs_bind;
  [apply (restore_msr_runs _ _ _ _ _ _ H); [done|lia|lia|lia]|clear H; intros ? ? H; pose proof (proj2 (proj2 (proj2 H))) as ->].
Ltac pop_next H := eapply runs_bind;
  [apply (pop_runs _ _ _ _ _ H); [repeat apply regs16_set; assumption|done|done|lia|lia]|clear H; intros ? ? [H _]; pose proof (proj2 (proj2 (proj2 H))) as ->].

Lemma regs16_uif b e : regs16 e -> regs16 (switch_uif b e).
Proof. by destruct b. Qed.
Lemma regs16_umsr c v e : umsr c -> regs16 e -> regs16 (set_umsr c v e).
Proof. intros Hc. unfold regs16. by rewrite (proj1 (proj2 (set_umsr_paging c v e Hc))). Qed.

Lemma restore_task_runs e M off : reg e R_ESP = vp + off -> steady d m T e M -> 0 <= off -> off + 104 <= 4096 ->
  runs (restore_task d ub) e M (fun e' M' => resumes (rd_frame M (pp + off)) (vp + off + 104) e' /\ steady d m T e' M /\ M' = M).
Proof.
  intros Hsp Hs Ho Hb. assert (H : saving e off M e M) by (split_and!; [apply alike_refl|done|done|done]).
  unfold restore_task. do 5 restore_next H. set (e5 := set_umsr 0x986 _ _) in H.
  assert (H5 : regs16 e5) by (unfold e5; repeat apply regs16_umsr; (done || apply Hs)).
  eapply runs_bind; [apply (add_rsp_runs _ _ _ _ 40 H); lia|]. clear H. intros ? ? H. pose proof (proj2 (proj2 (proj2 H))) as ->.
  eapply runs_bind; [apply (pop_runs R_EAX _ _ _ _ H); [done|done|done|lia|lia]|]. clear H. intros ? ? [H Hw]. pose proof (proj2 (proj2 (proj2 H))) as ->.
  eapply runs_bind2; [apply (flag_runs _ _ _ _ H)|]. clear H. intros ? ? H. pose proof (proj2 (proj2 (proj2 H))) as ->. rewrite Hw in H.
  set (e7 := switch_uif _ _) in H. assert (H7 : regs16 e7) by (by apply regs16_uif, regs16_set).
  do 6 pop_next H. destruct (ret_runs _ _ _ _ H) as (e9 & M9 & E & (Ha & Hsp9 & Hs9 & ->) & Hip); [lia|lia|].
  exists e9, M. split; [exact E|]. split; [|done].
  assert (Hu : forall a, is_u 64 (ld 8 M a)) by (intros a; apply (ld_is_u 8), Hs).
  assert (Hr : forall r, 3 <= r < 16 -> r <> R_ESP -> reg e9 r = reg _ r) by (exact (al_regs _ _ Ha)).
  unfold rd_frame. split; cbn [f_rbp f_rbx f_r12 f_r13 f_r14 f_r15 f_rip msr986 msr987 msr988 msr989 msr98a uif].
  1-6: rewrite Hr by done; rewrite ?reg_set_ne, reg_set_eq, wrap_small by (done || (repeat apply regs16_set; done)); f_equal; lia.
  - rewrite (al_handler _ _ Ha). unfold e7. by destruct (nz (u8 _)).
  - rewrite (al_stackadjust _ _ Ha). unfold e7. by destruct (nz (u8 _)).
  - rewrite (al_misc _ _ Ha). unfold e7. by destruct (nz (u8 _)).
  - rewrite (al_pd _ _ Ha). unfold e7. by destruct (nz (u8 _)).
  - rewrite (al_tt _ _ Ha). unfold e7, e5. rewrite Z.add_0_r. by destruct (nz (u8 _)).
  - unfold uif_enable. rewrite (al_uif _ _ Ha). unfold e7. replace (pp + off + 40) with (pp + (off + 40)) by lia. by destruct (nz (u8 _)).
  - rewrite Hsp9. lia.
  - rewrite Hip. f_equal. lia.
Qed.
End stack.
End run.

(** ** The whole switch *)

(** [n] bytes at [a] and [k] bytes at [b] do not meet. *)
Definition apart (a n b k : Z) : Prop := a + n <= b \/ b + k <= a.

(** A processor about to run [context_switch]: its stack pointer is at offset
    [off] of the page [vp] (physical [pp]); [rdi] and [rsi] point to the words
    at the physical addresses [sa] and [ta]; the next task's frame is at offset
    [oq] of the page [vq] (physical [pq]). *)
Record switch_ready (d : nat) (m : Machine) (T : list Z) (vp pp off sa ta vq pq oq : Z) : Prop := {
  rw_cpu : is_Some (cpus m !! d);
  rw_long : long_mode (cpu_env d m);
  rw_guest : no_guest (cpu_env d m);
  rw_regs : regs16 (cpu_env d m);
  rw_mem : mem_wf (mem m);
  rw_rsp : reg (cpu_env d m) R_ESP = vp + off;
  rw_stack : mapped d m T MMU_DATA_STORE (cpu_mmu_index (cpu_env d m)) vp pp /\ vp + 4096 < 2 ^ 64 /\ 96 <= off /\ off + 8 <= 4096;
  rw_this : exists vs ps os, reg (cpu_env d m) R_EDI = vs + os /\ 0 <= os /\ os + 8 <= 4096 /\ sa = ps + os /\
    mapped d m T MMU_DATA_STORE (cpu_mmu_index (cpu_env d m)) vs ps;
  rw_next : exists vt pt ot, reg (cpu_env d m) R_ESI = vt + ot /\ 0 <= ot /\ ot + 8 <= 4096 /\ ta = pt + ot /\
    mapped d m T MMU_DATA_LOAD (cpu_mmu_index (cpu_env d m)) vt pt;
  rw_frame : mapped d m T MMU_DATA_STORE (cpu_mmu_index (cpu_env d m)) vq pq /\ vq + 4096 < 2 ^ 64 /\ 0 <= oq /\ oq + 104 <= 4096;
  rw_tables : off_tables T (pp + off - 96) 96 /\ off_tables T sa 8;
  rw_apart : apart sa 8 (pp + off - 96) 104 /\ apart ta 8 (pp + off - 96) 96 /\ apart ta 8 sa 8 /\
    apart (pq + oq) 104 (pp + off - 96) 96 /\ apart (pq + oq) 104 sa 8;
  rw_value : ld 8 (mem m) ta = vq + oq;
}.

(** The frame [F] holds the task of [e], to return to [rip]. *)
Record suspended (e : CPUX86State) (rip : Z) (F : ContextSwitchFrame) : Prop := {
  su_regs : [f_rbp F; f_rbx F; f_r12 F; f_r13 F; f_r14 F; f_r15 F] =
            [reg e R_EBP; reg e R_EBX; reg e R_R12; reg e R_R13; reg e R_R14; reg e R_R15];
  su_msrs : [msr986 F; msr987 F; msr988 F; msr989 F; msr98a F] =
            [uintr_handler e; uintr_stackadjust e; uintr_misc e; uintr_pd e; uintr_tt e];
  su_uif : u8 (uif F) = b2z (uif_enable e);
  su_rip : f_rip F = rip;
}.

(** Registers hold 64 bits. *)
Definition task_wf (e : CPUX86State) : Prop := Forall (is_u 64) (task_words e 0).

Lemma task_word e w k v : task_wf e -> k <> 6%nat -> task_words e w !! k = Some v -> is_u 64 v.
Proof.
  intros Hw Hk Hv. eapply (proj1 (Forall_lookup _ _) Hw k). rewrite <- Hv. unfold task_words.
  do 13 (destruct k as [|k]; [done|]). done.
Qed.

(** The words pushed are the frame. *)
Lemma pushed_frame a e w mm mm' : task_wf e -> is_u 64 w -> u8 w = b2z (uif_enable e) ->
  (forall i, 0 <= i < 13 -> ld 8 mm' (a - 96 + 8 * i) = ld 8 (pushed a (task_words e w) mm) (a - 96 + 8 * i)) ->
  suspended e (ld 8 mm a) (rd_frame mm' (a - 96)).
Proof.
  intros Hw Hwu Eu Hag.
  assert (Hk : forall k v, task_words e w !! k = Some v -> ld 8 mm' (a - 8 * (Z.of_nat k + 1)) = v).
  { intros k v Hv. pose proof (lookup_lt_Some _ _ _ Hv) as Hlt. cbn in Hlt.
    replace (a - 8 * (Z.of_nat k + 1)) with (a - 96 + 8 * (11 - Z.of_nat k)) by lia. rewrite Hag by lia.
    replace (a - 96 + 8 * (11 - Z.of_nat k)) with (a - 8 * (Z.of_nat k + 1)) by lia. apply pushed_nth; [done|].
    destruct (decide (k = 6%nat)) as [->|Hne]; [injection Hv as <-; done|by eapply task_word]. }
  assert (He : forall k v o, task_words e w !! k = Some v -> o = 96 - 8 * (Z.of_nat k + 1) -> ld 8 mm' (a - 96 + o) = v).
  { intros k v o Hv ->. rewrite <- (Hk k v Hv). f_equal. lia. }
  unfold rd_frame. split; cbn [f_rbp f_rbx f_r12 f_r13 f_r14 f_r15 f_rip msr986 msr987 msr988 msr989 msr98a uif].
  - rewrite (He 0%nat (reg e R_EBP)), (He 1%nat (reg e R_EBX)), (He 2%nat (reg e R_R12)), (He 3%nat (reg e R_R13)),
      (He 4%nat (reg e R_R14)), (He 5%nat (reg e R_R15)) by done. done.
  - replace (a - 96) with (a - 96 + 0) by lia. rewrite <- (Z.add_assoc _ 0 8), <- (Z.add_assoc _ 0 16), <- (Z.add_assoc _ 0 24), <- (Z.add_assoc _ 0 32).
    rewrite (He 7%nat (uintr_handler e)), (He 8%nat (uintr_stackadjust e)), (He 9%nat (uintr_misc e)), (He 10%nat (uintr_pd e)), (He 11%nat (uintr_tt e)) by done. done.
  - rewrite (He 6%nat w) by done. done.
  - replace 96 with (8 * 12) at 2 by done. rewrite Hag by lia. rewrite pushed_ne by (cbn; lia). f_equal. lia.
Qed.

Lemma context_switch_step d ub m T vp pp off sa ta vq pq oq :
  switch_ready d m T vp pp off sa ta vq pq oq -> task_wf (cpu_env d m) ->
  exists m', context_switch d ub m = Ret tt m' /\
    resumes (rd_frame (mem m) (pq + oq)) (vq + oq + 104) (cpu_env d m') /\
    suspended (cpu_env d m) (ld 8 (mem m) (pp + off)) (rd_frame (mem m') (pp + off - 96)) /\
    ld 8 (mem m') sa = vp + (off - 96).
Proof.
  intros [Hcpu Hlong Hguest Hregs Hmem Hsp (Hmap & Htop & Ho & Ho') (vs & ps & os & Edi & Hs0 & Hs1 & -> & Hms)
    (vt & pt & ot & Esi & Ht0 & Ht1 & -> & Hmt) (Hmq & Htopq & Hq0 & Hq1) (Htab1 & Htab2) (Ap1 & Ap2 & Ap3 & Ap4 & Ap5) Hval] Hwf.
  set (e := cpu_env d m) in *. assert (Hst : steady d m T e (mem m)) by (split; (done || by apply list.Forall_forall)).
  destruct (save_task_runs d m T Hcpu Hlong Hguest vp pp Hmap Htop e (mem m) off Hsp Hst ltac:(lia) Htab1)
    as (e1 & M1 & E1 & w & Hw & Hwu & Ha & Hsp1 & Hst1 & EM1).
  assert (Edi1 : reg e1 R_EDI = vs + os) by (rewrite (al_regs _ _ Ha) by done; exact Edi).
  assert (Esi1 : reg e1 R_ESI = vt + ot) by (rewrite (al_regs _ _ Ha) by done; exact Esi).
  set (M2 := st 8 (ps + os) (vp + (off - 96)) M1).
  assert (Hst2 : steady d m T e1 M2) by (by apply steady_st).
  assert (Hfar : forall n a, apart a (Z.of_nat n) (pp + off - 96) 96 -> apart a (Z.of_nat n) (ps + os) 8 -> ld n M2 a = ld n (mem m) a).
  { unfold apart. intros n a H1 H2. unfold M2. rewrite ld_st_ne by (cbn; lia). rewrite EM1. apply pushed_ne. cbn. lia. }
  assert (Ef : rd_frame M2 (pq + oq) = rd_frame (mem m) (pq + oq)).
  { unfold rd_frame, apart in *. f_equal; apply Hfar; unfold apart; cbn; lia. }
  assert (Esw : switch_stacks d (put d m e1 M1) = Ret tt (put d m (set_reg R_ESP (vq + oq) e1) M2)).
  { unfold switch_stacks. rewrite (bind_Ret _ _ _ _ _ (put_get d m Hcpu e1 M1)), Edi1, Hsp1.
    rewrite (bind_Ret _ _ _ _ _ (st_put d m T Hcpu Hlong 8 vs ps os (vp + (off - 96)) e1 M1 Hst1 Hms Hs0 ltac:(cbn; lia) ltac:(lia))).
    fold M2. rewrite (bind_Ret _ _ _ _ _ (put_get d m Hcpu e1 M2)), Esi1.
    rewrite (bind_Ret _ _ _ _ _ (ld_put d m T Hcpu Hlong 8 vt pt ot e1 M2 Hst2 Hmt Ht0 ltac:(cbn; lia) ltac:(lia))).
    rewrite Hfar, Hval by (unfold apart in *; cbn; lia). by apply put_mod. }
  set (e2 := set_reg R_ESP (vq + oq) e1) in *. assert (Hst3 : steady d m T e2 M2) by (by apply steady_set_reg).
  assert (Hsp2 : reg e2 R_ESP = vq + oq).
  { unfold e2. rewrite reg_set_eq by (apply Hst2 || done). apply (stack_u64 d m T vq pq Hmq Htopq). lia. }
  destruct (restore_task_runs d ub m T Hcpu Hlong Hguest vq pq Hmq Htopq e2 M2 oq Hsp2 Hst3 Hq0 Hq1) as (e3 & M3 & E3 & Hres & _ & ->).
  exists (put d m e3 M2). split_and!.
  - rewrite (put_self d m Hcpu) at 1. unfold context_switch. by rewrite (bind_Ret _ _ _ _ _ E1), (bind_Ret _ _ _ _ _ Esw).
  - rewrite put_env by done. by rewrite <- Ef.
  - rewrite put_mem. apply (pushed_frame (pp + off) e w); [done|done|done|]. intros i Hi. unfold M2, apart in *.
    rewrite ld_st_ne by (cbn; lia). by rewrite EM1.
  - rewrite put_mem. unfold M2. apply (ld_st_word 8). unfold is_u. pose proof (pg_range _ _ _ _ _ _ (proj1 Hmap)). lia.
Qed.

(** The task of [e] goes on after its call to [context_switch]. *)
Record continues (e : CPUX86State) (rip : Z) (e' : CPUX86State) : Prop := {
  ct_regs : [reg e' R_EBP; reg e' R_EBX; reg e' R_R12; reg e' R_R13; reg e' R_R14; reg e' R_R15] =
            [reg e R_EBP; reg e R_EBX; reg e R_R12; reg e R_R13; reg e R_R14; reg e R_R15];
  ct_msrs : [uintr_handler e'; uintr_stackadjust e'; uintr_misc e'; uintr_pd e'; uintr_tt e'] =
            [uintr_handler e; uintr_stackadjust e; uintr_misc e; uintr_pd e; uintr_tt e];
  ct_uif : uif_enable e' = uif_enable e;
  ct_rsp : reg e' R_ESP = reg e R_ESP + 8;
  ct_rip : eip e' = rip;
}.

Lemma suspended_resumes e rip F sp e' : suspended e rip F -> resumes F sp e' -> sp = reg e R_ESP + 8 -> continues e rip e'.
Proof.
  intros [Hr Hm Hu Hi] [] ->. injection Hr as ? ? ? ? ? ?. injection Hm as ? ? ? ? ?. split; try congruence.
  rewrite rs_uif0, Hu. by destruct (uif_enable e).
Qed.

(** C6. A task that is switched away from and back to goes on as if nothing
    happened, as far as the switch saves it.  [context_switch] ends, with the next
    task's callee-saved registers, user-interrupt flag and user-interrupt registers
    0x986 to 0x98a (handler, stack adjustment, misc, descriptor and target table)
    in the processor and the address of the frame of the task it left in that
    task's context; and whatever runs in between, if it leaves that frame alone and
    switches back to it, the task continues after its call with those as they were.
    The request register 0x985 is not saved and not spoken of. *)
Theorem context_switch_roundtrip d ub m T vp pp off sa ta vq pq oq :
  switch_ready d m T vp pp off sa ta vq pq oq -> task_wf (cpu_env d m) ->
  exists m1, context_switch d ub m = Ret tt m1 /\
    resumes (rd_frame (mem m) (pq + oq)) (vq + oq + 104) (cpu_env d m1) /\
    ld 8 (mem m1) sa = reg (cpu_env d m) R_ESP - 96 /\
    forall m2 T2 vp2 pp2 off2 sb, rd_frame (mem m2) (pp + off - 96) = rd_frame (mem m1) (pp + off - 96) ->
      switch_ready d m2 T2 vp2 pp2 off2 sb sa vp pp (off - 96) -> task_wf (cpu_env d m2) ->
      exists m3, context_switch d ub m2 = Ret tt m3 /\
        continues (cpu_env d m) (ld 8 (mem m) (pp + off)) (cpu_env d m3).
Proof.
  intros H Hwf. destruct (context_switch_step d ub m T vp pp off sa ta vq pq oq H Hwf) as (m1 & E1 & Hres & Hsus & Hslot).
  pose proof (rw_rsp _ _ _ _ _ _ _ _ _ _ _ H) as Hsp. exists m1. split_and!; [done|done|rewrite Hslot; lia|].
  intros m2 T2 vp2 pp2 off2 sb Hf H2 Hwf2.
  destruct (context_switch_step d ub m2 T2 vp2 pp2 off2 sb sa vp pp (off - 96) H2 Hwf2) as (m3 & E3 & Hres2 & _).
  exists m3. split; [done|]. replace (pp + (off - 96)) with (pp + off - 96) in Hres2 by lia. rewrite Hf in Hres2.
  eapply suspended_resumes; [exact Hsus|exact Hres2|]. rewrite Hsp. lia.
Qed.

(** Two tasks for the witness: stacks at 0x30200 and 0x31100, the words that
    hold their stack pointers at 0x20000 and 0x20008. *)
Definition sw_env : CPUX86State :=
  set_reg R_EBP 77 (set_reg R_ESI 0x20008 (set_reg R_EDI 0x20000 (set_reg R_ESP 0x30200 rx_env)))
    <| hflags := Z.lor HF_LMA_MASK HF_CS64_MASK |>.
Definition sw_machine : Machine :=
  (ex_machine 1) <| cpus := {[0%nat := mkCPU 0 0 sw_env]} |>
    <| mem := st 8 0x71160 0x8000 (st 8 0x70200 0x9000 (st 8 0x60008 0x31100 (ex_tables [(0x20, 0x63); (0x30, 0x63); (0x31, 0x63)]))) |>.
Definition sw_tables : list Z := [0x1000; 0x2000; 0x3000; 0x4100; 0x4180; 0x4188].

(** The machine when the second task runs, about to switch back. *)
Definition sw_between : Machine :=
  match context_switch 0 (fun _ => 0) sw_machine with
  | Ret _ m => upd_env 0 (fun e => set_reg R_ESI 0x20000 (set_reg R_EDI 0x20008 e)) m
  | _ => sw_machine
  end.

Lemma mappedb_ok d m T acc idx vp pp :
  pageb (cpu_env d m) (mem m) acc idx vp pp = true ->
  forallb (fun a => existsb (Z.eqb a) T) (walk_of (cpu_env d m) (mem m) vp) = true -> mapped d m T acc idx vp pp.
Proof.
  intros Hp Hf. split; [by apply pageb_ok|]. intros a Ha. rewrite forallb_forall in Hf. apply list_elem_of_In in Ha.
  specialize (Hf a Ha). apply existsb_exists in Hf as (x & Hx & E). apply Z.eqb_eq in E as ->. by apply list_elem_of_In.
Qed.

Ltac map_page := apply mappedb_ok; by vm_compute.
Ltac is_ready := split;
  [eexists; by vm_compute|split; vm_compute; (reflexivity || (split; congruence))|by vm_compute|by vm_compute| |by vm_compute|split_and!; [map_page|lia|lia|lia]| | |
   split_and!; [map_page|lia|lia|lia]|split; apply (bool_decide_eq_true_1 _); by vm_compute|unfold apart; lia|by vm_compute].

Lemma sw_ready : switch_ready 0 sw_machine sw_tables 0x30000 0x70000 0x200 0x60000 0x60008 0x31000 0x71000 0x100.
Proof.
  is_ready.
  - do 3 apply mem_wf_st. apply ex_tables_wf.
  - exists 0x20000, 0x60000, 0. split_and!; [by vm_compute|lia|lia|lia|map_page].
  - exists 0x20000, 0x60000, 8. split_and!; [by vm_compute|lia|lia|lia|map_page].
Qed.

Lemma mem_wf_check mm : forallb (fun p => (0 <=? p.2) && (p.2 <? 256)) (map_to_list mm) = true -> mem_wf mm.
Proof.
  intros H a. unfold ldb. destruct (mm !! a) as [v|] eqn:E; [|by cbn]. rewrite forallb_forall in H.
  apply elem_of_map_to_list, list_elem_of_In in E. specialize (H _ E). cbn in *. unfold is_u. lia.
Qed.

Lemma sw_between_ready :
  switch_ready 0 sw_between sw_tables 0x31000 0x71000 0x168 0x60008 0x60000 0x30000 0x70000 (0x200 - 96).
Proof.
  is_ready.
  - apply mem_wf_check. by vm_compute.
  - exists 0x20000, 0x60000, 8. split_and!; [by vm_compute|lia|lia|lia|map_page].
  - exists 0x20000, 0x60000, 0. split_and!; [by vm_compute|lia|lia|lia|map_page].
Qed.

Lemma context_switch_roundtrip_witness : exists m1 m3,
  context_switch 0 (fun _ => 0) sw_machine = Ret tt m1 /\ eip (cpu_env 0 m1) = 0x8000 /\
  context_switch 0 (fun _ => 0) sw_between = Ret tt m3 /\ eip (cpu_env 0 m3) = 0x9000 /\
  reg (cpu_env 0 m3) R_EBP = 77 /\ uintr_handler (cpu_env 0 m3) = 0x401000 /\ uif_enable (cpu_env 0 m3) = true.
Proof.
  destruct (context_switch_roundtrip 0 (fun _ => 0) sw_machine sw_tables 0x30000 0x70000 0x200 0x60000 0x60008 0x31000 0x71000 0x100)
    as (m1 & E1 & Hres & _ & Hback).
  { exact sw_ready. } { repeat constructor; by vm_compute. }
  destruct (Hback sw_between sw_tables 0x31000 0x71000 0x168 0x60008) as (m3 & E3 & [Hr Hm Hu _ Hi]).
  { unfold sw_between. rewrite E1. reflexivity. } { exact sw_between_ready. } { repeat constructor; by vm_compute. }
  exists m1, m3. split; [exact E1|]. split; [rewrite (rs_rip _ _ _ Hres); by vm_compute|]. split; [exact E3|].
  split; [rewrite Hi; by vm_compute|]. injection Hr as -> _ _ _ _ _. injection Hm as -> _ _ _ _. rewrite Hu. split_and!; by vm_compute.
Defined.

(** ** New tasks *)

(** The frame of a new task: it starts at its entry, without user interrupts. *)
Lemma init_frame_ok top entry mm : is_u 64 entry ->
  let '(p, mm') := init_frame top entry mm in rd_frame mm' p = mkFrame 0 0 0 0 0 0 0 0 0 0 0 0 entry.
Proof.
  intros He. unfold init_frame, rd_frame. change (seqZ 0 13) with [0; 1; 2; 3; 4; 5; 6; 7; 8; 9; 10; 11; 12]. cbn [fold_left].
  set (p := top - 104). replace p with (p + 8 * 0) at 14 by lia.
  f_equal; repeat (rewrite ld_st_ne by (cbn; lia)); (by apply (ld_st_word 8)).
Qed.

(** The request register 0x985 is not part of the frame: the next task finds
    the requests of the one that was left. *)
Lemma switch_keeps_requests : exists m1,
  context_switch 0 (fun _ => 0) (upd_env 0 (fun e => e <| uintr_rr := 8 |>) sw_machine) = Ret tt m1 /\ uintr_rr (cpu_env 0 m1) = 8.
Proof. eexists. split; [vm_compute; reflexivity|]. by vm_compute. Qed.
