(* ===== verification/Register.v ===== *)
(** * Registration of user interrupts (nimbos/kernel/src/syscall/uintr.rs)

    The system calls with which a task becomes a receiver or a sender of user
    interrupts.  The structures shared with the hardware, the target table and
    the posted descriptor, are in guest memory at the addresses the allocator
    gives ([uitt_at], [upid_at]); the rest of the task's context is a record.  A
    Rust panic is [Abort]. *)
From S2P Require Import Prelude Cpu Machine Exec Mmu Uintr Msr Kernel.

Definition UINTR_MAX_UITT_NR : Z := 16.
Definition UINTR_UITT_MASK_WORDS : Z := (UINTR_MAX_UITT_NR + 63) / 64.
Definition OS_ABI_REDZONE : Z := 0.
Definition UINTR_NOTIFICATION_VECTOR : Z := 0xec.
Definition EINVAL : Z := 22.
Definition ENOSPC : Z := 28.

(** ** Bit sets: [BitSet<N, M>], the words [bits] *)
Module BitSet.
Definition U64_MAX : Z := 2 ^ 64 - 1.

(** [u64::trailing_ones] *)
Fixpoint count_ones (fuel : nat) (w : Z) : Z :=
  match fuel with O => 0 | S f => if Z.odd w then 1 + count_ones f (Z.div2 w) else 0 end.
Definition trailing_ones (w : Z) : Z := count_ones 64 w.

Definition new (M : Z) : list Z := repeat 0 (Z.to_nat M).

(** [None]: [assert!(index < N)] or the index of a word out of bounds. *)
Definition set (N index : Z) (bits : list Z) : option (list Z) :=
  if index <? N then
    w ← bits !! Z.to_nat (index / 64);
    Some (<[Z.to_nat (index / 64) := Z.lor w (bit (index mod 64))]> bits)
  else None.
Definition clear (N index : Z) (bits : list Z) : option (list Z) :=
  if index <? N then
    w ← bits !! Z.to_nat (index / 64);
    Some (<[Z.to_nat (index / 64) := clr w (bit (index mod 64))]> bits)
  else None.
Definition test (N index : Z) (bits : list Z) : option bool :=
  if index <? N then
    w ← bits !! Z.to_nat (index / 64);
    Some (nz (Z.land w (bit (index mod 64))))
  else None.

Fixpoint find_from (N word_idx : Z) (bits : list Z) : option Z :=
  match bits with
  | [] => None
  | word :: rest =>
      let index := word_idx * 64 + trailing_ones word in
      if negb (word =? U64_MAX) && (index <? N) then Some index else find_from N (word_idx + 1) rest
  end.
Definition find_first_zero (N : Z) (bits : list Z) : option Z := find_from N 0 bits.

Definition is_empty (bits : list Z) : bool := forallb (fun x => x =? 0) bits.
Definition is_full (N : Z) (bits : list Z) : option bool :=
  if forallb (fun x => x =? U64_MAX) (take (Z.to_nat (N / 64)) bits) then
    if negb (N mod 64 =? 0) then
      w ← bits !! Z.to_nat (N / 64);
      Some (w =? bit (N mod 64) - 1)
    else Some true
  else Some false.
End BitSet.

(** [genmask_ull]: [None] where it panics. *)
Definition genmask_ull (h l : Z) : option Z :=
  if (64 <=? h) || (64 <=? l) || (h <? l) then None
  else Some (Z.land (u64 (Z.shiftl BitSet.U64_MAX l)) (Z.shiftr BitSet.U64_MAX (63 - h))).

(** ** The task's context: the fields of [TaskContext] for user interrupts *)
Record UintrUittCtx := mkUitt { uitt_ptr : Z; uitt_mask : list Z }.
Record TaskContext := mkCtx {
  uitt : option UintrUittCtx; uitt_activated : bool; upid_activated : bool; uintr_upid_ctx : option Z;
}.
#[export] Instance eta_uitt : Eta UintrUittCtx := fun s => mkUitt (uitt_ptr s) (uitt_mask s).
#[export] Instance set_uitt_ptr : Setter uitt_ptr := ltac:(derive_setter).
#[export] Instance set_uitt_mask : Setter uitt_mask := ltac:(derive_setter).
#[export] Instance eta_ctx : Eta TaskContext := fun s => mkCtx (uitt s) (uitt_activated s) (upid_activated s) (uintr_upid_ctx s).
#[export] Instance set_uitt : Setter uitt := ltac:(derive_setter).
#[export] Instance set_uitt_activated : Setter uitt_activated := ltac:(derive_setter).
#[export] Instance set_upid_activated : Setter upid_activated := ltac:(derive_setter).
#[export] Instance set_uintr_upid_ctx : Setter uintr_upid_ctx := ltac:(derive_setter).

(** A value that a panic prevents. *)
Definition unwrap {A} (o : option A) : X A := match o with Some a => mret a | None => cpu_abort end.

Section calls.
  Context (d : nat) (ub : Z -> Z).

(** A structure written as a whole. *)
Definition put_uitte (a valid vec addr : Z) : X unit :=
  cpu_st_data d 1 a valid;; cpu_st_data d 1 (a + 1) vec;; cpu_st_data d 6 (a + 2) 0;; cpu_st_data d 8 (a + 8) addr.
Definition put_upid (a : Z) (u : uintr_upid) : X unit :=
  cpu_st_data d 1 a (status u);; cpu_st_data d 1 (a + 1) (reserved1 u);; cpu_st_data d 1 (a + 2) (nv u);;
  cpu_st_data d 1 (a + 3) (reserved2 u);; cpu_st_data d 4 (a + 4) (ndst u);; cpu_st_data d 8 (a + 8) (puir u).

(** An array of empty entries. *)
Fixpoint put_empty (a : Z) (n : nat) : X unit :=
  match n with O => mret tt | S n' => put_uitte a 0 0 0;; put_empty (a + 16) n' end.

Definition uintr_init_sender (uitt_at : Z) (ctx : TaskContext) : X TaskContext :=
  match uitt ctx with
  | None =>
      put_empty uitt_at (Z.to_nat UINTR_MAX_UITT_NR);;
      mret (ctx <| uitt := Some (mkUitt uitt_at (BitSet.new UINTR_UITT_MASK_WORDS)) |>)
  | Some _ => mret ctx
  end.

Definition uintr_set_sender_msrs (ctx : TaskContext) : X TaskContext :=
  u ← unwrap (uitt ctx);
  let uitt_ptr := uitt_ptr u in
  asm_wrmsr d ub MSR_IA32_UINTR_TT (Z.lor (u32 uitt_ptr) 1) (u32 (Z.shiftr uitt_ptr 32));;
  ' (msr64_low, msr64_high) ← asm_rdmsr d MSR_IA32_UINTR_MISC;
  mask ← unwrap (genmask_ull 63 32);
  let msr64_high := Z.land msr64_high (u32 (Z.shiftr mask 32)) in
  let msr64_low := Z.lor msr64_low (u32 (UINTR_MAX_UITT_NR - 1)) in
  asm_wrmsr d ub MSR_IA32_UINTR_MISC msr64_low msr64_high;;
  mret (ctx <| uitt_activated := true |>).

Definition do_uintr_register_sender (uitt_at uvec upid : Z) (ctx : TaskContext) : X (Z * TaskContext) :=
  if upid =? 0 then mret (- EINVAL, ctx)
  else
    ctx ← uintr_init_sender uitt_at ctx;
    u ← unwrap (uitt ctx);
    match BitSet.find_first_zero UINTR_MAX_UITT_NR (uitt_mask u) with
    | Some entry =>
        let a := uitt_ptr u + 16 * entry in
        cpu_st_data d 1 a 1;; cpu_st_data d 1 (a + 1) (Z.land uvec 0xff);; cpu_st_data d 8 (a + 8) upid;;
        mask ← unwrap (BitSet.set UINTR_MAX_UITT_NR entry (uitt_mask u));
        let ctx := ctx <| uitt := Some (u <| uitt_mask := mask |>) |> in
        ctx ← (if negb (uitt_activated ctx) then uintr_set_sender_msrs ctx else mret ctx);
        mret (entry, ctx)
    | None => mret (- ENOSPC, ctx)
    end.

Definition sys_uintr_register_sender (uitt_at upid_addr uvec : Z) (ctx : TaskContext) : X (Z * TaskContext) :=
  do_uintr_register_sender uitt_at uvec upid_addr ctx.

(** [get_apic_id] is an argument. *)
Definition do_uintr_register_handler (upid_at get_apic_id handler : Z) (ctx : TaskContext) : X (Z * TaskContext) :=
  if upid_activated ctx then mret (0, ctx)
  else
    ctx ← match uintr_upid_ctx ctx with
          | None => put_upid upid_at (mkUpid 0 0 0 0 0 0);; mret (ctx <| uintr_upid_ctx := Some upid_at |>)
          | Some _ => mret ctx
          end;
    upid_addr ← unwrap (uintr_upid_ctx ctx);
    cpu_st_data d 1 (upid_addr + 2) UINTR_NOTIFICATION_VECTOR;;
    cpu_st_data d 4 (upid_addr + 4) (u32 (Z.shiftl get_apic_id 8));;
    asm_wrmsr d ub MSR_IA32_UINTR_HANDLER (u32 handler) (u32 (Z.shiftr handler 32));;
    asm_wrmsr d ub MSR_IA32_UINTR_PD (u32 upid_addr) (u32 (Z.shiftr upid_addr 32));;
    asm_wrmsr d ub MSR_IA32_UINTR_STACKADJUST (u32 OS_ABI_REDZONE) (u32 (Z.shiftr OS_ABI_REDZONE 32));;
    ' (misc_msr_low, misc_msr_high) ← asm_rdmsr d MSR_IA32_UINTR_MISC;
    asm_wrmsr d ub MSR_IA32_UINTR_MISC misc_msr_low (Z.lor misc_msr_high UINTR_NOTIFICATION_VECTOR);;
    mret (upid_addr, ctx <| upid_activated := true |>).

Definition sys_uintr_register_handler (upid_at get_apic_id handler : Z) (ctx : TaskContext) : X (Z * TaskContext) :=
  if handler =? 0 then mret (0, ctx) else do_uintr_register_handler upid_at get_apic_id handler ctx.
End calls.
