(* ===== verification/RegisterFacts.v ===== *)
(** * Registration prepares the hardware

    A task that registers as a sender gets the lowest free index of its target
    table, the entry there names the receiver, and the processor is ready to
    execute [senduipi] with that index; a task that registers a handler gets a
    descriptor that routes notifications to its processor. *)
From S2P Require Import Prelude Cpu Machine Apic Mem Exec Mmu MmuFacts ExcFacts Uintr Msr VMem UintrFacts UintrSend.
From S2P Require Import Kernel Switch SwitchFacts Register.

(** ** Bit sets *)
Definition bmem (bits : list Z) (i : Z) : bool :=
  match bits !! Z.to_nat (i / 64) with Some w => Z.testbit w (i mod 64) | None => false end.

Lemma count_ones_spec n : forall w, let k := BitSet.count_ones n w in
  0 <= k <= Z.of_nat n /\ (forall j, 0 <= j < k -> Z.testbit w j = true) /\ (k < Z.of_nat n -> Z.testbit w k = false).
Proof.
  induction n as [|n IH]; intros w; cbn [BitSet.count_ones]; cbv zeta; [repeat split; intros; lia|].
  destruct (Z.odd w) eqn:Eo.
  - destruct (IH (Z.div2 w)) as (Hk & Hj & Hz). set (k := BitSet.count_ones n (Z.div2 w)) in *. split; [lia|]. split.
    + intros j Hj'. destruct (Z.eq_dec j 0) as [->|]; [by rewrite Z.bit0_odd|].
      replace j with (Z.succ (j - 1)) by lia. rewrite <- Z.div2_bits, <- Z.div2_div by lia. apply Hj. lia.
    + intros Hlt. replace (1 + k) with (Z.succ k) by lia. rewrite <- Z.div2_bits, <- Z.div2_div by lia. apply Hz. lia.
  - split; [lia|]. split; [lia|]. intros _. by rewrite Z.bit0_odd.
Qed.

Lemma trailing_ones_spec w : is_u 64 w -> w <> BitSet.U64_MAX -> let k := BitSet.trailing_ones w in
  0 <= k < 64 /\ (forall j, 0 <= j < k -> Z.testbit w j = true) /\ Z.testbit w k = false.
Proof.
  intros Hw Hne k. destruct (count_ones_spec 64 w) as (Hk & Hj & Hz). fold (BitSet.trailing_ones w) in *. fold k in Hk, Hj, Hz.
  assert (k < 64).
  { destruct (Z.eq_dec k 64) as [E|]; [|lia]. exfalso. apply Hne. unfold BitSet.U64_MAX. rewrite Z.sub_1_r, <- Z.ones_equiv.
    bitwise i Hi. destruct (Z.ltb_spec i 64); [rewrite Z.ones_spec_low by lia; apply Hj; lia|].
    rewrite Z.ones_spec_high by lia. apply (is_u_testbit_high 64); [done|lia]. }
  repeat split; try lia; [done|]. apply Hz. lia.
Qed.

Lemma bmem_cons w bits i : 64 <= i -> bmem (w :: bits) i = bmem bits (i - 64).
Proof.
  intros Hi. unfold bmem. replace (i / 64) with ((i - 64) / 64 + 1) by (rewrite <- Z.div_add by lia; f_equal; lia).
  rewrite Z2Nat.inj_add by (try apply Z.div_pos; lia). rewrite Nat.add_comm. cbn [lookup list_lookup Nat.add].
  replace ((i - 64) mod 64) with (i mod 64); [done|]. rewrite <- (Z.mod_add (i - 64) 1) by lia. f_equal. lia.
Qed.

Lemma bmem_word w bits i : 0 <= i < 64 -> bmem (w :: bits) i = Z.testbit w i.
Proof. intros Hi. unfold bmem. by rewrite Z.div_small, Z.mod_small by lia. Qed.

Lemma find_from_spec N bits : forall b, Forall (is_u 64) bits ->
  match BitSet.find_from N b bits with
  | Some i => 64 * b <= i < N /\ i < 64 * (b + Z.of_nat (length bits)) /\ bmem bits (i - 64 * b) = false /\
              forall j, 0 <= j < i - 64 * b -> bmem bits j = true
  | None => forall j, 0 <= j -> 64 * b + j < N -> j < 64 * Z.of_nat (length bits) -> bmem bits j = true
  end.
Proof.
  induction bits as [|w bits IH]; intros b Hb; cbn [BitSet.find_from length]; [intros; lia|]. apply list.Forall_cons in Hb as [Hw Hb].
  destruct (Z.eqb_spec w BitSet.U64_MAX) as [->|Hne]; cbn [negb andb].
  - assert (Hall : forall j, 0 <= j < 64 -> bmem (BitSet.U64_MAX :: bits) j = true).
    { intros j Hj. rewrite bmem_word by lia. unfold BitSet.U64_MAX. rewrite Z.sub_1_r, <- Z.ones_equiv. apply Z.ones_spec_low. lia. }
    specialize (IH (b + 1) Hb). destruct (BitSet.find_from N (b + 1) bits) as [i|].
    + destruct IH as (Hi & Hi' & Hz & Hj). split; [lia|]. split; [lia|]. split.
      * rewrite bmem_cons by lia. replace (i - 64 * b - 64) with (i - 64 * (b + 1)) by lia. done.
      * intros j Hlt. destruct (Z.ltb_spec j 64); [apply Hall; lia|]. rewrite bmem_cons by lia. apply Hj. lia.
    + intros j H0 H1 H2. destruct (Z.ltb_spec j 64); [apply Hall; lia|]. rewrite bmem_cons by lia. apply IH; lia.
  - destruct (trailing_ones_spec w Hw Hne) as (Hk & Hj & Hz). set (k := BitSet.trailing_ones w) in *.
    destruct (Z.ltb_spec (b * 64 + k) N) as [Hlt|Hge].
    + split; [lia|]. split; [lia|]. replace (b * 64 + k - 64 * b) with k by lia. split; [by rewrite bmem_word by lia|].
      intros j Hj'. rewrite bmem_word by lia. apply Hj. lia.
    + specialize (IH (b + 1) Hb). destruct (BitSet.find_from N (b + 1) bits) as [i|]; [lia|].
      intros j H0 H1 H2. rewrite bmem_word by lia. apply Hj. lia.
Qed.

Lemma bset_spec N i bits : Forall (is_u 64) bits -> 0 <= i < N -> i < 64 * Z.of_nat (length bits) ->
  exists bits', BitSet.set N i bits = Some bits' /\ length bits' = length bits /\ Forall (is_u 64) bits' /\
    forall j, 0 <= j -> bmem bits' j = (j =? i) || bmem bits j.
Proof.
  intros Hb Hi Hl. unfold BitSet.set. rewrite (proj2 (Z.ltb_lt _ _)) by lia.
  pose proof (Z.div_mod i 64 ltac:(lia)) as Ed. pose proof (Z.mod_pos_bound i 64 ltac:(lia)) as Hm.
  assert (Hq : 0 <= i / 64) by (apply Z.div_pos; lia).
  destruct (lookup_lt_is_Some_2 bits (Z.to_nat (i / 64))) as [w Hw]; [lia|]. rewrite Hw. cbn [mbind option_bind].
  eexists. split; [reflexivity|]. split; [apply length_insert|]. pose proof (proj1 (Forall_lookup _ _) Hb _ _ Hw) as Hwu. split.
  - apply Forall_insert; [done|]. apply is_u_of_bits; [lia|apply Z.lor_nonneg; split; [apply Hwu|apply Z.shiftl_nonneg; lia]|].
    intros k Hk. rewrite Z.lor_spec, testbit_bit, (is_u_testbit_high 64 w) by (done || lia). cbn. apply Z.eqb_neq. lia.
  - intros j Hj. unfold bmem. pose proof (Z.div_mod j 64 ltac:(lia)) as Ej. pose proof (Z.mod_pos_bound j 64 ltac:(lia)) as Hjm.
    assert (Hjq : 0 <= j / 64) by (apply Z.div_pos; lia). destruct (Z.eq_dec (j / 64) (i / 64)) as [E|Hne].
    + rewrite E, list_lookup_insert_eq, Hw by (apply lookup_lt_Some in Hw; done). rewrite Z.lor_spec, testbit_bit, orb_comm by lia. f_equal.
      destruct (Z.eqb_spec j i), (Z.eqb_spec (j mod 64) (i mod 64)); try done; lia.
    + rewrite list_lookup_insert_ne by lia. rewrite (proj2 (Z.eqb_neq j i)); [done|]. intros ->. done.
Qed.

(** ** Programs on [put] machines *)
Section calls.
  Context (d : nat) (ub : Z -> Z) (m : Machine) (T : list Z).
  Context (Hcpu : is_Some (cpus m !! d)) (Hlong : long_mode (cpu_env d m)) (Hguest : no_guest (cpu_env d m)).
  #[local] Abbreviation P := (put d m).
  #[local] Abbreviation K := (cpu_mmu_index (cpu_env d m)).

Lemma asm_wrmsr_put c lo hi e M : steady d m T e M -> umsr c -> is_u 32 lo -> is_u 32 hi ->
  exists e', asm_wrmsr d ub c lo hi (P e M) = Ret tt (P e' M) /\ steady d m T e' M /\
    alike (set_umsr c (Z.lor lo (Z.shiftl hi 32)) e) e'.
Proof.
  intros Hs Hc Hlo Hhi. set (e3 := set_reg R_EDX hi (set_reg R_EAX lo (set_reg R_ECX c e))).
  assert (H3 : steady d m T e3 M) by (by do 3 apply steady_set_reg). pose proof (sy_regs _ _ _ _ _ Hs) as Hr.
  assert (H32 : forall x, is_u 32 x -> u32 (u64 x) = x) by (intros x Hx; rewrite (wrap_small 64), wrap_small; [done|done|unfold is_u in *; lia]).
  assert (Ec : u32 (reg e3 R_ECX) = c).
  { unfold e3. rewrite !reg_set_ne, reg_set_eq by done. apply H32. unfold umsr in Hc. unfold is_u. lia. }
  assert (Ea : u32 (reg e3 R_EAX) = lo).
  { unfold e3. rewrite reg_set_ne, reg_set_eq by (done || by apply regs16_set). by apply H32. }
  assert (Ed : u32 (reg e3 R_EDX) = hi).
  { unfold e3. rewrite reg_set_eq by (done || by do 2 apply regs16_set). by apply H32. }
  exists (set_umsr c (Z.lor lo (Z.shiftl hi 32)) e3). split; [|split].
  - unfold asm_wrmsr. rewrite (bind_Ret _ _ _ _ _ (put_mod d m Hcpu _ e M)). fold e3.
    rewrite (wrmsr_put d ub m Hcpu c e3 M (steady_guest d m T Hguest _ _ H3) Hc Ec). by rewrite Ea, Ed.
  - by apply steady_umsr.
  - apply alike_umsr; [done|]. unfold e3. do 2 (eapply alike_trans; [|apply alike_set_reg; unfold R_EAX, R_EDX; lia]).
    apply alike_set_reg. unfold R_ECX. lia.
Qed.

Lemma asm_rdmsr_put c e M : steady d m T e M -> umsr c ->
  exists e', asm_rdmsr d c (P e M) = Ret (u32 (msr_read c e), u32 (Z.shiftr (msr_read c e) 32)) (P e' M) /\
    steady d m T e' M /\ alike e e'.
Proof.
  intros Hs Hc. set (e1 := set_reg R_ECX c e). assert (H1 : steady d m T e1 M) by (by apply steady_set_reg).
  assert (Ec : u32 (reg e1 R_ECX) = c).
  { unfold e1. rewrite reg_set_eq by (done || apply Hs). unfold umsr in Hc. rewrite (wrap_small 64 c), wrap_small by (unfold is_u; lia). done. }
  assert (Ha1 : alike e e1) by (apply alike_set_reg; unfold R_ECX; lia).
  set (v := msr_read c e). assert (Ev : msr_read c e1 = v) by (by apply alike_msr).
  set (e2 := set_reg R_EDX (u32 (Z.shiftr v 32)) (set_reg R_EAX (u32 v) e1)).
  exists e2. split; [|split; [by do 2 apply steady_set_reg|]].
  - unfold asm_rdmsr. rewrite (bind_Ret _ _ _ _ _ (put_mod d m Hcpu _ e M)). fold e1.
    rewrite (bind_Ret _ _ _ _ _ (rdmsr_put d m Hcpu c e1 M (steady_guest d m T Hguest _ _ H1) Hc Ec)), Ev. fold e2.
    rewrite (bind_Ret _ _ _ _ _ (put_get d m Hcpu e2 M)). unfold mret, X_ret. unfold e2.
    rewrite (reg_set_ne R_EDX R_EAX), !reg_set_eq by (done || apply H1 || apply regs16_set, H1). by rewrite !low_half.
  - unfold e2. do 2 (eapply alike_trans; [|apply alike_set_reg; unfold R_EAX, R_EDX; lia]). done.
Qed.

Lemma lor_halves v w : is_u 64 v -> 0 <= w -> Z.lor (Z.lor (u32 v) w) (Z.shiftl (u32 (Z.shiftr v 32)) 32) = Z.lor v w.
Proof. intros Hv Hw. rewrite <- (join32 v Hv) at 3. rewrite <- !Z.lor_assoc. f_equal. apply Z.lor_comm. Qed.

Lemma lor_u32 a b : is_u 32 a -> is_u 32 b -> is_u 32 (Z.lor a b).
Proof.
  intros Ha Hb. apply is_u_of_bits; [lia|apply Z.lor_nonneg; split; [apply Ha|apply Hb]|].
  intros k Hk. by rewrite Z.lor_spec, (is_u_testbit_high 32 a), (is_u_testbit_high 32 b) by done.
Qed.

(** The registers of a sender. *)
Lemma set_sender_msrs_put u ctx e M : steady d m T e M -> uitt ctx = Some u -> is_u 64 (uitt_ptr u) -> is_u 64 (uintr_misc e) ->
  exists e', uintr_set_sender_msrs d ub ctx (P e M) = Ret (ctx <| uitt_activated := true |>) (P e' M) /\ steady d m T e' M /\
    alike (e <| uintr_tt := Z.lor (uitt_ptr u) 1 |> <| uintr_misc := Z.lor (uintr_misc e) 15 |>) e'.
Proof.
  intros Hs Hu Hp Hm. unfold uintr_set_sender_msrs. rewrite Hu. cbn [unwrap]. rewrite (bind_Ret _ _ _ u (P e M)) by done. cbv zeta.
  destruct (asm_wrmsr_put MSR_IA32_UINTR_TT (Z.lor (u32 (uitt_ptr u)) 1) (u32 (Z.shiftr (uitt_ptr u) 32)) e M Hs ltac:(done)
    ltac:(apply lor_u32; [apply wrap_range; lia|done]) ltac:(apply wrap_range; lia)) as (e1 & E1 & H1 & A1).
  rewrite (bind_Ret _ _ _ _ _ E1). rewrite lor_halves in A1 by (done || lia).
  destruct (asm_rdmsr_put MSR_IA32_UINTR_MISC e1 M H1 ltac:(done)) as (e2 & E2 & H2 & A2).
  assert (Ev : msr_read MSR_IA32_UINTR_MISC e1 = uintr_misc e) by (rewrite (alike_msr MSR_IA32_UINTR_MISC _ _ ltac:(done) A1); done).
  rewrite Ev in E2. rewrite (bind_Ret _ _ _ _ _ E2). change (genmask_ull 63 32) with (Some 0xffffffff00000000). cbn [unwrap].
  rewrite (bind_Ret _ _ _ 0xffffffff00000000 (P e2 M)) by done.
  change (u32 (Z.shiftr 0xffffffff00000000 32)) with (Z.ones 32). rewrite Z.land_ones by lia.
  change (u32 (UINTR_MAX_UITT_NR - 1)) with 15. set (hi := u32 (Z.shiftr (uintr_misc e) 32)).
  assert (Hh : is_u 32 hi) by (apply wrap_range; lia). rewrite (Z.mod_small hi) by apply Hh.
  destruct (asm_wrmsr_put MSR_IA32_UINTR_MISC (Z.lor (u32 (uintr_misc e)) 15) hi e2 M H2 ltac:(done)
    ltac:(apply lor_u32; [apply wrap_range; lia|done]) Hh) as (e3 & E3 & H3 & A3).
  rewrite (bind_Ret _ _ _ _ _ E3). unfold hi in A3. rewrite lor_halves in A3 by (done || lia). exists e3. split; [done|]. split; [done|].
  eapply alike_trans; [|exact A3]. apply (alike_umsr MSR_IA32_UINTR_MISC); [done|]. by eapply alike_trans.
Qed.

(** ** The target table *)
Section table.
  Context (vp pp off : Z) (Hmap : mapped d m T MMU_DATA_STORE K vp pp).
  Context (Hoff : 0 <= off /\ off + 256 <= 4096) (Htab : off_tables T (pp + off) 256).

(** A store of [n] bytes at offset [o] of the table. *)
Lemma st_table n o v e M : steady d m T e M -> 0 <= o -> o + Z.of_nat n <= 256 -> (0 < n)%nat ->
  cpu_st_data d n (vp + off + o) v (P e M) = Ret tt (P e (st n (pp + off + o) v M)) /\ steady d m T e (st n (pp + off + o) v M).
Proof.
  intros Hs H0 Hn Hp. split.
  - replace (vp + off + o) with (vp + (off + o)) by lia. replace (pp + off + o) with (pp + (off + o)) by lia.
    apply (st_put d m T Hcpu Hlong); (done || lia).
  - apply steady_st; [done|]. eapply off_tables_sub; [exact Htab|lia|lia].
Qed.

Definition outside_table (M M' : gmap Z Z) : Prop :=
  forall n a, apart a (Z.of_nat n) (pp + off) 256 -> ld n M' a = ld n M a.

Lemma outside_refl M : outside_table M M.
Proof. done. Qed.
Lemma outside_st n o v M M' : outside_table M M' -> 0 <= o -> o + Z.of_nat n <= 256 -> outside_table M (st n (pp + off + o) v M').
Proof. unfold outside_table, apart. intros H H0 Hn k a Ha. rewrite ld_st_ne by lia. by apply H. Qed.

Lemma put_empty_put n : forall o e M, steady d m T e M -> 0 <= o -> o + 16 * Z.of_nat n <= 256 ->
  exists M', put_empty d (vp + off + o) n (P e M) = Ret tt (P e M') /\ steady d m T e M' /\ outside_table M M'.
Proof.
  induction n as [|n IH]; intros o e M Hs H0 Hn; cbn [put_empty].
  - exists M. split; [done|]. split; [done|]. apply outside_refl.
  - unfold put_uitte.
    destruct (st_table 1 o 0 e M Hs ltac:(lia) ltac:(lia) ltac:(lia)) as [E1 H1].
    destruct (st_table 1 (o + 1) 0 e _ H1 ltac:(lia) ltac:(lia) ltac:(lia)) as [E2 H2].
    destruct (st_table 6 (o + 2) 0 e _ H2 ltac:(lia) ltac:(lia) ltac:(lia)) as [E3 H3].
    destruct (st_table 8 (o + 8) 0 e _ H3 ltac:(lia) ltac:(lia) ltac:(lia)) as [E4 H4].
    destruct (IH (o + 16) e _ H4 ltac:(lia) ltac:(lia)) as (M' & E5 & H5 & Hout). rewrite !Z.add_assoc in *.
    exists M'. split; [|split; [done|]].
    + erewrite bind_Ret; [exact E5|]. by rewrite (bind_Ret _ _ _ _ _ E1), (bind_Ret _ _ _ _ _ E2), (bind_Ret _ _ _ _ _ E3).
    + intros k a Ha. rewrite Hout by done. rewrite !ld_st_ne by (unfold apart in Ha; cbn; lia). done.
Qed.

(** The table holds the registrations [R]: vector and descriptor by index. *)
Record registered (bits : list Z) (R : gmap Z (Z * Z)) (M : gmap Z Z) : Prop := {
  rg_len : length bits = 1%nat;
  rg_words : Forall (is_u 64) bits;
  rg_dom : forall i, 0 <= i < 16 -> bmem bits i = true <-> is_Some (R !! i);
  rg_range : forall i x, R !! i = Some x -> 0 <= i < 16;
  rg_entry : forall i v u, R !! i = Some (v, u) -> rd_uitte M (pp + off + 16 * i) = mkUitte 1 v u;
}.

(** The context and the registers of a task whose registrations are [R]. *)
Record sender_ctx (ctx : TaskContext) (R : gmap Z (Z * Z)) (e : CPUX86State) (M : gmap Z Z) : Prop := {
  sc_table : match uitt ctx with
             | None => R = ∅ /\ uitt_activated ctx = false
             | Some u => uitt_ptr u = vp + off /\ registered (uitt_mask u) R M
             end;
  sc_active : uitt_activated ctx = true -> uintr_tt e = Z.lor (vp + off) 1 /\ 15 <= u32 (uintr_misc e);
  sc_misc : is_u 64 (uintr_misc e);
}.

Lemma registered_new M : registered (BitSet.new UINTR_UITT_MASK_WORDS) ∅ M.
Proof.
  split; try done; [by repeat constructor|]. intros i Hi. rewrite lookup_empty. change (BitSet.new UINTR_UITT_MASK_WORDS) with [0].
  rewrite bmem_word, Z.testbit_0_l by lia. split; [done|by intros [? ?]].
Qed.

Lemma init_sender_put ctx R e M : steady d m T e M -> sender_ctx ctx R e M ->
  exists ctx' u M', uintr_init_sender d (vp + off) ctx (P e M) = Ret ctx' (P e M') /\ steady d m T e M' /\ outside_table M M' /\
    uitt ctx' = Some u /\ uitt_ptr u = vp + off /\ registered (uitt_mask u) R M' /\
    uitt_activated ctx' = uitt_activated ctx /\ (is_Some (uitt ctx) -> ctx' = ctx /\ M' = M).
Proof.
  intros Hs [Ht _ _]. unfold uintr_init_sender. destruct (uitt ctx) as [u|] eqn:Eu.
  - destruct Ht as [Hp Hr]. exists ctx, u, M. split_and!; try done.
  - destruct Ht as [-> Ha]. destruct (put_empty_put (Z.to_nat UINTR_MAX_UITT_NR) 0 e M Hs ltac:(lia) ltac:(by vm_compute)) as (M' & E & H' & Ho).
    rewrite Z.add_0_r in E. eexists _, _, M'. rewrite (bind_Ret _ _ _ _ _ E). split_and!; try done; apply registered_new.
Qed.

(** The entry of a new registration. *)
Definition entry_st (i vec upid : Z) (M : gmap Z Z) : gmap Z Z :=
  st 8 (pp + off + (16 * i + 8)) upid (st 1 (pp + off + (16 * i + 1)) vec (st 1 (pp + off + 16 * i) 1 M)).

Lemma entry_same i vec upid M : is_u 8 vec -> is_u 64 upid -> rd_uitte (entry_st i vec upid M) (pp + off + 16 * i) = mkUitte 1 vec upid.
Proof.
  intros Hv Hu. unfold rd_uitte, entry_st. f_equal.
  - rewrite !ld_st_ne by (cbn; lia). by apply (ld_st_word 1).
  - rewrite ld_st_ne by (cbn; lia). replace (pp + off + 16 * i + 1) with (pp + off + (16 * i + 1)) by lia. by apply (ld_st_word 1).
  - replace (pp + off + 16 * i + 8) with (pp + off + (16 * i + 8)) by lia. by apply (ld_st_word 8).
Qed.

Lemma entry_other i j vec upid M : i <> j -> rd_uitte (entry_st i vec upid M) (pp + off + 16 * j) = rd_uitte M (pp + off + 16 * j).
Proof. intros Hne. unfold rd_uitte, entry_st. f_equal; by rewrite !ld_st_ne by (cbn; lia). Qed.

Lemma registered_insert bits bits' R M i vec upid : registered bits R M -> 0 <= i < 16 -> is_u 8 vec -> is_u 64 upid ->
  length bits' = length bits -> Forall (is_u 64) bits' -> (forall j, 0 <= j -> bmem bits' j = (j =? i) || bmem bits j) -> R !! i = None ->
  registered bits' (<[i := (vec, upid)]> R) (entry_st i vec upid M).
Proof.
  intros [Hl Hw Hd Hr He] Hi Hv Hu Hl' Hw' Hb Hn. split; [congruence|done| | |].
  - intros j Hj. rewrite Hb by lia. destruct (Z.eqb_spec j i) as [->|Hne]; cbn; [by rewrite lookup_insert_eq|].
    rewrite lookup_insert_ne by done. by apply Hd.
  - intros j x. destruct (Z.eq_dec j i) as [->|Hne]; [done|]. rewrite lookup_insert_ne by done. apply Hr.
  - intros j v u. destruct (Z.eq_dec j i) as [->|Hne].
    + rewrite lookup_insert_eq. intros [= <- <-]. by apply entry_same.
    + rewrite lookup_insert_ne by done. intros Hj. rewrite entry_other by done. by apply He.
Qed.

Lemma st_entry i vec upid e M : steady d m T e M -> 0 <= i < 16 ->
  steady d m T e (entry_st i vec upid M) /\ outside_table M (entry_st i vec upid M) /\
  forall A (k : X A), (cpu_st_data d 1 (vp + off + 16 * i) 1;; cpu_st_data d 1 (vp + off + 16 * i + 1) vec;;
                       cpu_st_data d 8 (vp + off + 16 * i + 8) upid;; k) (P e M) = k (P e (entry_st i vec upid M)).
Proof.
  intros Hs Hi.
  destruct (st_table 1 (16 * i) 1 e M Hs ltac:(lia) ltac:(lia) ltac:(lia)) as [E1 H1].
  destruct (st_table 1 (16 * i + 1) vec e _ H1 ltac:(lia) ltac:(lia) ltac:(lia)) as [E2 H2].
  destruct (st_table 8 (16 * i + 8) upid e _ H2 ltac:(lia) ltac:(lia) ltac:(lia)) as [E3 H3].
  split; [exact H3|]. split; [repeat (apply outside_st; [|lia|lia]); apply outside_refl|]. intros A k.
  rewrite (Z.add_assoc (vp + off) (16 * i) 1) in E2. rewrite (Z.add_assoc (vp + off) (16 * i) 8) in E3.
  by rewrite (bind_Ret _ _ _ _ _ E1), (bind_Ret _ _ _ _ _ E2), (bind_Ret _ _ _ _ _ E3).
Qed.

(** What the registers keep of the first registration. *)
Lemma active_regs x w : is_u 64 w -> u32 (Z.lor w 15) <= x -> 15 <= x.
Proof.
  intros Hw Hx. assert (E : Z.land (u32 (Z.lor w 15)) 15 = 15).
  { change 15 with (Z.ones 4) at 2 3. unfold wrap. rewrite <- Z.land_ones by lia. bitwise i Hi. change 15 with (Z.ones 4).
    destruct (Z.ltb_spec i 4); [rewrite !Z.ones_spec_low, orb_true_r by lia; done|rewrite (Z.ones_spec_high 4) by lia; by rewrite !andb_false_r]. }
  pose proof (wrap_range 32 (Z.lor w 15) ltac:(lia)) as Hr. rewrite (Z.land_ones _ 4) in E by lia.
  pose proof (Z.mod_le (u32 (Z.lor w 15)) (2 ^ 4)). unfold is_u in Hr. lia.
Qed.

Lemma lor_u64 a b : is_u 64 a -> is_u 64 b -> is_u 64 (Z.lor a b).
Proof.
  intros Ha Hb. apply is_u_of_bits; [lia|apply Z.lor_nonneg; split; [apply Ha|apply Hb]|].
  intros k Hk. by rewrite Z.lor_spec, (is_u_testbit_high 64 a), (is_u_testbit_high 64 b) by done.
Qed.

Lemma activate u ctx R e M : steady d m T e M -> uitt ctx = Some u -> uitt_ptr u = vp + off -> is_u 64 (vp + off) ->
  registered (uitt_mask u) R M -> is_u 64 (uintr_misc e) ->
  (uitt_activated ctx = true -> uintr_tt e = Z.lor (vp + off) 1 /\ 15 <= u32 (uintr_misc e)) ->
  exists e', (if negb (uitt_activated ctx) then uintr_set_sender_msrs d ub ctx else mret ctx) (P e M)
               = Ret (ctx <| uitt_activated := true |>) (P e' M) /\
    steady d m T e' M /\ sender_ctx (ctx <| uitt_activated := true |>) R e' M.
Proof.
  intros Hs Hu Hp Hpu Hr Hm Ha. destruct (uitt_activated ctx) eqn:Eact; cbn [negb].
  - exists e. split; [|split; [done|]]; [destruct ctx; cbn in Eact; by subst|]. split; cbn; [by rewrite Hu|auto|done].
  - destruct (set_sender_msrs_put u ctx e M Hs Hu ltac:(by rewrite Hp) Hm) as (e' & E & Hs' & A). exists e'. split; [done|]. split; [done|].
    destruct A as [_ _ _ Emisc _ Ett _]. cbn in Emisc, Ett. split; cbn; [by rewrite Hu| |].
    + intros _. rewrite Ett, Emisc, Hp. split; [done|]. eapply active_regs; [exact Hm|lia].
    + rewrite Emisc. by apply lor_u64.
Qed.

Lemma register_sender_put uvec upid ctx R e M : steady d m T e M -> sender_ctx ctx R e M -> upid <> 0 -> is_u 64 upid -> is_u 64 (vp + off) ->
  (exists ctx' M', do_uintr_register_sender d ub (vp + off) uvec upid ctx (P e M) = Ret (- ENOSPC, ctx') (P e M') /\
     (forall j, 0 <= j < 16 -> is_Some (R !! j)) /\ ctx' = ctx /\ M' = M) \/
  (exists i ctx' e' M', do_uintr_register_sender d ub (vp + off) uvec upid ctx (P e M) = Ret (i, ctx') (P e' M') /\
     0 <= i < 16 /\ R !! i = None /\ (forall j, 0 <= j < i -> is_Some (R !! j)) /\ uitt_activated ctx' = true /\
     sender_ctx ctx' (<[i := (Z.land uvec 0xff, upid)]> R) e' M' /\ steady d m T e' M' /\ outside_table M M').
Proof.
  intros Hs Hc Hne Hu Hp. unfold do_uintr_register_sender. rewrite (proj2 (Z.eqb_neq _ _) Hne).
  destruct (init_sender_put ctx R e M Hs Hc) as (ctx1 & u & M1 & E1 & H1 & Ho1 & Eu & Ep & Hr & Eact & Hkeep).
  rewrite (bind_Ret _ _ _ _ _ E1), Eu. cbn [unwrap]. rewrite (bind_Ret _ _ _ u (P e M1)) by done.
  pose proof (find_from_spec UINTR_MAX_UITT_NR (uitt_mask u) 0 (rg_words _ _ _ Hr)) as Hf. fold (BitSet.find_first_zero UINTR_MAX_UITT_NR (uitt_mask u)) in Hf.
  rewrite (rg_len _ _ _ Hr) in Hf. destruct (BitSet.find_first_zero _ _) as [i|].
  - right. destruct Hf as (Hi & _ & Hz & Hall). rewrite Z.mul_0_r, Z.sub_0_r in *. change UINTR_MAX_UITT_NR with 16 in Hi.
    rewrite Ep. assert (Hv : is_u 8 (Z.land uvec 0xff)) by (change 0xff with (Z.ones 8); rewrite Z.land_ones by lia; apply (wrap_range 8); lia).
    destruct (st_entry i (Z.land uvec 0xff) upid e M1 H1 Hi) as (H2 & Ho2 & E2). rewrite E2.
    destruct (bset_spec UINTR_MAX_UITT_NR i (uitt_mask u) (rg_words _ _ _ Hr) Hi ltac:(rewrite (rg_len _ _ _ Hr); lia)) as (bits' & -> & Hl' & Hw' & Hb').
    cbn [unwrap]. rewrite (bind_Ret _ _ _ bits' (P e (entry_st i (Z.land uvec 0xff) upid M1))) by done. cbv zeta.
    assert (Hn : R !! i = None) by (destruct (R !! i) eqn:E; [|done]; pose proof (proj2 (rg_dom _ _ _ Hr i Hi) ltac:(rewrite E; eauto)); congruence).
    set (u' := u <| uitt_mask := bits' |>). set (ctx2 := ctx1 <| uitt := Some u' |>).
    destruct (activate u' ctx2 (<[i := (Z.land uvec 0xff, upid)]> R) e
      (entry_st i (Z.land uvec 0xff) upid M1) H2 eq_refl Ep Hp) as (e' & E3 & H3 & Hc3).
    { by apply (registered_insert (uitt_mask u)). } { apply Hc. } { cbn. rewrite Eact. apply Hc. }
    rewrite (bind_Ret _ _ _ _ _ E3). eexists i, _, e', _. split; [reflexivity|]. split_and!; try done; try lia.
    + intros j Hj. apply (rg_dom _ _ _ Hr); [lia|]. by apply Hall.
    + intros n a Ha. rewrite Ho2, Ho1 by done. done.
  - left. change (64 * 0) with 0 in Hf. assert (Hall : forall j, 0 <= j < 16 -> is_Some (R !! j)).
    { intros j Hj. apply (rg_dom _ _ _ Hr); [lia|]. apply Hf; change UINTR_MAX_UITT_NR with 16; lia. }
    assert (Hsome : is_Some (uitt ctx)).
    { pose proof (sc_table _ _ _ _ Hc) as Ht. destruct (uitt ctx); [eauto|]. destruct Ht as [-> _]. destruct (Hall 0 ltac:(lia)). by rewrite lookup_empty in *. }
    destruct (Hkeep Hsome) as [-> ->]. exists ctx, M. done.
Qed.
End table.
End calls.

(** ** The system calls *)

(** A processor in kernel code: long mode, no guest, no SMAP. *)
Record in_kernel (d : nat) (m : Machine) : Prop := {
  ik_cpu : is_Some (cpus m !! d);
  ik_long : long_mode (cpu_env d m);
  ik_guest : no_guest (cpu_env d m);
  ik_regs : regs16 (cpu_env d m);
  ik_mem : mem_wf (mem m);
  ik_idx : cpu_mmu_index (cpu_env d m) = MMU_KNOSMAP_IDX;
}.

(** [n] bytes of kernel memory at offset [off] of the page [vp] (physical [pp]),
    apart from the page tables. *)
Record kernel_page (d : nat) (m : Machine) (T : list Z) (n vp pp off : Z) : Prop := {
  kp_map : mapped d m T MMU_DATA_STORE (cpu_mmu_index (cpu_env d m)) vp pp;
  kp_off : 0 <= off /\ off + n <= 4096;
  kp_tables : off_tables T (pp + off) n;
  kp_range : is_u 64 (vp + off) /\ 0 <= pp + off /\ pp + off + n <= 2 ^ 64;
}.

Lemma in_kernel_steady d m T : in_kernel d m -> steady d m T (cpu_env d m) (mem m).
Proof. intros []. split; try done. by apply list.Forall_forall. Qed.

(** Any machine with the same paging, tables and user-interrupt registers can
    send through a registered entry. *)
Lemma registered_sender d m T vp pp off vu pu ou ctx R e M mu r vec : in_kernel d m -> kernel_page d m T 256 vp pp off -> off mod 16 = 0 ->
  steady d m T e M -> sender_ctx vp pp off ctx R e M -> uitt_activated ctx = true -> R !! r = Some (vec, vu + ou) ->
  mapped d m T MMU_DATA_LOAD MMU_KNOSMAP_IDX vu pu -> 0 <= ou < 4096 ->
  is_Some (cpus mu !! d) -> same_paging e (cpu_env d mu) -> uintr_tt (cpu_env d mu) = uintr_tt e ->
  uintr_misc (cpu_env d mu) = uintr_misc e -> mem mu = M -> reg (cpu_env d mu) R_EAX = r ->
  sender d mu 0 r (pp + off + 16 * r) (pu + ou) /\ user_vec (rd_uitte (mem mu) (pp + off + 16 * r)) = vec.
Proof.
  intros [Hcpu Hlong Hguest Hregs Hmem Hidx] [Hmap Hoff Htab (Hvr & Hpr & Hpr')] Hal Hs [Ht Ha Hm] Hact Hr Hmu Hou Hcu Hsp Ett Emi Emm Er.
  destruct (Ha Hact) as [Htt Hmisc]. destruct (uitt ctx) as [u|]; [|destruct Ht as [_ Hf]; congruence]. destruct Ht as [_ Hreg].
  pose proof (rg_range _ _ _ _ _ Hreg r _ Hr) as Hrr. pose proof (rg_entry _ _ _ _ _ Hreg r vec (vu + ou) Hr) as Hent.
  assert (Hpage : forall idx vq pq, mapped d m T MMU_DATA_LOAD idx vq pq -> page d mu MMU_DATA_LOAD idx vq pq).
  { intros idx vq pq Hmq. refine (proj1 (page_frame d m mu MMU_DATA_LOAD idx vq pq (proj1 Hmq) _ _)).
    - transitivity e; [apply Hs|exact Hsp].
    - intros a Hin. rewrite Emm. apply (proj1 (list.Forall_forall _ _) (sy_tables _ _ _ _ _ Hs)), Hmq, Hin. }
  rewrite Emm, Hent. split; [|done]. split.
  - eapply same_long; [exact Hsp|]. eapply same_long; [apply Hs|exact Hlong].
  - rewrite Emm. apply Hs.
  - unfold uitte_index. cbn. rewrite Er. symmetry. apply swrap_small; lia.
  - rewrite Emi. lia.
  - exists vp, pp, off. split_and!; [|lia|lia|apply Hpage, mapped_load; rewrite <- Hidx; exact Hmap|lia].
    rewrite Ett, Htt. pose proof (pg_aligned _ _ _ _ _ _ (proj1 Hmap)) as Hva.
    rewrite Z.shiftr_div_pow2, Z.shiftl_mul_pow2 by lia. change (2 ^ 3) with 8.
    assert (E8 : (vp + off) mod 8 = 0) by (Z.to_euclidean_division_equations; lia).
    assert (Ed : Z.lor (vp + off) 1 / 8 = (vp + off) / 8).
    { change 8 with (2 ^ 3). rewrite <- !Z.shiftr_div_pow2 by lia. rewrite Z.shiftr_lor. change (Z.shiftr 1 3) with 0. apply Z.lor_0_r. }
    rewrite Ed. Z.to_euclidean_division_equations. lia.
  - unfold is_u. lia.
  - rewrite Emm, Hent. cbn. exists vu, pu, ou. split_and!; [done|lia|lia|by apply Hpage|done].
Qed.

(** C7. Registering a sender.  A task whose registrations are [R] registers the
    descriptor [upid] for a vector.  If its table is full, nothing changes and
    the call fails with ENOSPC.  Otherwise it gets the lowest free index, its
    other registrations stay, and from then on, in any state of the processor
    that keeps paging, memory and the two registers the call set, [senduipi]
    with a registered index writes a request to the registered descriptor and,
    when neither bit 0 nor bit 4 of its status is set, notifies the processor
    named there.  For a vector below 31 the request is the bit of the registered
    vector, in addition to those posted before; the shift of the C code gives
    other bits, or has no meaning, for higher ones. *)
Theorem register_sender_ready d ub junk m T vp pp off ctx R uvec upid :
  in_kernel d m -> kernel_page d m T 256 vp pp off -> off mod 16 = 0 ->
  sender_ctx vp pp off ctx R (cpu_env d m) (mem m) -> upid <> 0 -> is_u 64 upid ->
  exists r ctx' m', sys_uintr_register_sender d ub (vp + off) upid uvec ctx m = Ret (r, ctx') m' /\
    (r = - ENOSPC /\ (forall j, 0 <= j < 16 -> is_Some (R !! j)) /\ ctx' = ctx /\ m' = m \/
     0 <= r < 16 /\ R !! r = None /\ (forall j, 0 <= j < r -> is_Some (R !! j)) /\
     sender_ctx vp pp off ctx' (<[r := (Z.land uvec 0xff, upid)]> R) (cpu_env d m') (mem m') /\
     forall mu i vec vu pu ou, <[r := (Z.land uvec 0xff, upid)]> R !! i = Some (vec, vu + ou) ->
       mapped d m T MMU_DATA_LOAD MMU_KNOSMAP_IDX vu pu -> 0 <= ou < 4096 ->
       is_Some (cpus mu !! d) -> same_paging (cpu_env d m') (cpu_env d mu) -> mem mu = mem m' ->
       uintr_tt (cpu_env d mu) = uintr_tt (cpu_env d m') -> uintr_misc (cpu_env d mu) = uintr_misc (cpu_env d m') ->
       reg (cpu_env d mu) R_EAX = i -> is_Some (current_cpu mu) ->
       let u := rd_upid (mem mu) (pu + ou) in
       let m1 := mu <| mem := wr_upid (pu + ou) (post ub vec u).1 (mem mu) |> in
       helper_senduipi d ub junk 0 mu =
         Ret tt (if Z.land (status u) 0x11 =? 0 then send_ipi (u8 (Z.shiftr (ndst u) 8)) (nv u) m1 else m1) /\
       rd_upid (mem m1) (pu + ou) = (post ub vec u).1 /\ (vec < 31 -> puir (post ub vec u).1 = Z.lor (puir u) (bit vec))).
Proof.
  intros Hk Hp Hal Hc Hne Hu. pose proof (in_kernel_steady d m T Hk) as Hs. pose proof Hk as [Hcpu Hlong Hguest _ _ _].
  pose proof Hp as [Hmap Hoff Htab (Hvr & _)]. unfold sys_uintr_register_sender.
  destruct (register_sender_put d ub m T Hcpu Hlong Hguest vp pp off Hmap Hoff Htab uvec upid ctx R (cpu_env d m) (mem m) Hs Hc Hne Hu Hvr)
    as [(ctx' & M' & E & Hall & -> & ->)|(r & ctx' & e' & M' & E & Hr & Hn & Hlow & Hact & Hc' & Hs' & _)];
    rewrite <- (put_self d m Hcpu) in E.
  - exists (- ENOSPC), ctx, m. split; [exact E|]. by left.
  - exists r, ctx', (put d m e' M'). split; [exact E|]. right. rewrite put_env, put_mem by done.
    split; [done|]. split; [done|]. split; [done|]. split; [done|].
    intros mu i vec vu pu ou Hi Hmu Hou Hcu Hsp Emm Ett Emi Er Hcur.
    destruct (registered_sender d m T vp pp off vu pu ou ctx' _ e' M' mu i vec Hk Hp Hal Hs' Hc' Hact Hi Hmu Hou Hcu Hsp Ett Emi Emm Er) as [Hsd Hvec].
    cbv zeta. pose proof (rd_upid_wf (mem mu) (pu + ou) (sd_mem _ _ _ _ _ _ Hsd)) as Hwf. rewrite (senduipi_step d ub junk 0 mu i _ _ Hsd Hcur). unfold posted. rewrite Hvec.
    split; [done|]. split; [cbn [mem]; by apply rd_wr_upid, post_wf|]. intros Hv. apply post_puir; [done|]. rewrite <- Hvec in *. split; [|done].
    apply (ld_range 1), (sd_mem _ _ _ _ _ _ Hsd).
Qed.

(** The machine of the witness: the table goes to 0x20100, the descriptor of
    the receiver is at 0x31040. *)
Definition rg_machine : Machine :=
  sw_machine <| mem := wr_upid 0x71040 (mkUpid 0 0 0xec 0 0 0) (mem sw_machine) |>.
Definition rg_ctx : TaskContext := mkCtx None false false None.
Definition rg_after : Machine :=
  match sys_uintr_register_sender 0 (fun _ => 0) 0x20100 0x31040 5 rg_ctx rg_machine with
  | Ret _ m => upd_env 0 (set_reg R_EAX 0) m
  | _ => rg_machine
  end.

Lemma rg_kernel : in_kernel 0 rg_machine.
Proof.
  split; [eexists; by vm_compute|split; vm_compute; (reflexivity || (split; congruence))|by vm_compute|by vm_compute| |by vm_compute].
  apply wr_upid_wf, sw_ready.
Qed.

Lemma register_sender_ready_witness : exists ctx' m' m2,
  sys_uintr_register_sender 0 (fun _ => 0) 0x20100 0x31040 5 rg_ctx rg_machine = Ret (0, ctx') m' /\
  helper_senduipi 0 (fun _ => 0) 0 0 rg_after = Ret tt m2 /\ puir (rd_upid (mem m2) 0x71040) = 32.
Proof.
  destruct (register_sender_ready 0 (fun _ => 0) 0 rg_machine sw_tables 0x20000 0x60000 0x100 rg_ctx ∅ 5 0x31040)
    as (r & ctx' & m' & E & [(_ & Hf & _)|(Hr & _ & Hlow & _ & Hsend)]).
  - exact rg_kernel.
  - split; [map_page|lia|apply (bool_decide_eq_true_1 _); by vm_compute|unfold is_u; lia].
  - done.
  - split; [done|done|by vm_compute].
  - done.
  - unfold is_u. lia.
  - destruct (Hf 0 ltac:(lia)) as [x Hx]. by rewrite lookup_empty in Hx.
  - assert (r = 0) as ->.
    { destruct (Z.eq_dec r 0) as [|Hne]; [done|]. destruct (Hlow 0 ltac:(lia)) as [x Hx]. by rewrite lookup_empty in Hx. }
    change (0x20000 + 0x100) with 0x20100 in E.
    assert (Em : rg_after = upd_env 0 (set_reg R_EAX 0) m') by (unfold rg_after; rewrite E; reflexivity).
    assert (Hc : is_Some (cpus rg_after !! 0%nat)) by (eexists; by vm_compute).
    assert (Hc' : is_Some (cpus m' !! 0%nat)).
    { rewrite Em in Hc. unfold upd_env, upd_cpu in Hc. cbn in Hc. rewrite lookup_alter_eq in Hc. by destruct (cpus m' !! 0%nat). }
    assert (Ee : cpu_env 0 rg_after = set_reg R_EAX 0 (cpu_env 0 m')) by (rewrite Em; by apply cpu_env_upd).
    assert (Emm : mem rg_after = mem m') by (by rewrite Em).
    exists ctx', m'. eexists. split; [exact E|]. split.
    + eapply (Hsend rg_after 0 5 0x31000 0x71000 0x40).
      * by rewrite lookup_insert_eq.
      * map_page.
      * lia.
      * exact Hc.
      * rewrite Ee. generalize (cpu_env 0 m'). by split.
      * exact Emm.
      * rewrite Ee. reflexivity.
      * rewrite Ee. reflexivity.
      * by vm_compute.
      * eexists. by vm_compute.
    + by vm_compute.
Defined.

(** ** Receivers *)
Lemma st_kernel_page d m T N vp pp off n o v e M : in_kernel d m -> kernel_page d m T N vp pp off -> steady d m T e M ->
  0 <= o -> o + Z.of_nat n <= N -> (0 < n)%nat ->
  cpu_st_data d n (vp + off + o) v (put d m e M) = Ret tt (put d m e (st n (pp + off + o) v M)) /\
  steady d m T e (st n (pp + off + o) v M).
Proof.
  intros [Hcpu Hlong _ _ _ _] [Hmap Hoff Htab _] Hs H0 Hn Hp. split.
  - replace (vp + off + o) with (vp + (off + o)) by lia. replace (pp + off + o) with (pp + (off + o)) by lia.
    apply (st_put d m T Hcpu Hlong); (done || lia).
  - apply steady_st; [done|]. eapply off_tables_sub; [exact Htab|lia|lia].
Qed.

(** The descriptor as the call leaves it. *)
Definition new_upid (apic : Z) : uintr_upid := mkUpid 0 0 UINTR_NOTIFICATION_VECTOR 0 (u32 (Z.shiftl apic 8)) 0.

Lemma write_new_upid d m T vp pp off apic e M : in_kernel d m -> kernel_page d m T 16 vp pp off -> steady d m T e M ->
  exists M', steady d m T e M' /\ rd_upid M' (pp + off) = new_upid apic /\
    (forall n a, apart a (Z.of_nat n) (pp + off) 16 -> ld n M' a = ld n M a) /\
    forall A (k : X A), (put_upid d (vp + off) (mkUpid 0 0 0 0 0 0);;
      cpu_st_data d 1 (vp + off + 2) UINTR_NOTIFICATION_VECTOR;; cpu_st_data d 4 (vp + off + 4) (u32 (Z.shiftl apic 8));; k) (put d m e M)
      = k (put d m e M').
Proof.
  intros Hk Hp Hs. unfold put_upid. cbn [status reserved1 nv reserved2 ndst puir].
  pose proof (st_kernel_page d m T 16 vp pp off) as St.
  destruct (St 1%nat 0 0 e M Hk Hp Hs ltac:(lia) ltac:(lia) ltac:(lia)) as [E0 H0]. rewrite (Z.add_0_r (pp + off)) in E0, H0. rewrite (Z.add_0_r (vp + off)) in E0.
  destruct (St 1%nat 1 0 e _ Hk Hp H0 ltac:(lia) ltac:(lia) ltac:(lia)) as [E1 H1].
  destruct (St 1%nat 2 0 e _ Hk Hp H1 ltac:(lia) ltac:(lia) ltac:(lia)) as [E2 H2].
  destruct (St 1%nat 3 0 e _ Hk Hp H2 ltac:(lia) ltac:(lia) ltac:(lia)) as [E3 H3].
  destruct (St 4%nat 4 0 e _ Hk Hp H3 ltac:(lia) ltac:(lia) ltac:(lia)) as [E4 H4].
  destruct (St 8%nat 8 0 e _ Hk Hp H4 ltac:(lia) ltac:(lia) ltac:(lia)) as [E5 H5].
  destruct (St 1%nat 2 UINTR_NOTIFICATION_VECTOR e _ Hk Hp H5 ltac:(lia) ltac:(lia) ltac:(lia)) as [E6 H6].
  destruct (St 4%nat 4 (u32 (Z.shiftl apic 8)) e _ Hk Hp H6 ltac:(lia) ltac:(lia) ltac:(lia)) as [E7 H7].
  eexists. split; [exact H7|]. split; [|split].
  - unfold rd_upid, new_upid. f_equal; repeat (rewrite ld_st_ne by (cbn; lia)); (apply (ld_st_word 1); done) || (apply (ld_st_word 8); done) || idtac.
    apply (ld_st_word 4). apply wrap_range. lia.
  - intros n a Ha. unfold apart in Ha. by rewrite !ld_st_ne by (cbn; lia).
  - intros A k. erewrite bind_Ret.
    + by rewrite (bind_Ret _ _ _ _ _ E6), (bind_Ret _ _ _ _ _ E7).
    + rewrite (bind_Ret _ _ _ _ _ E0), (bind_Ret _ _ _ _ _ E1), (bind_Ret _ _ _ _ _ E2), (bind_Ret _ _ _ _ _ E3), (bind_Ret _ _ _ _ _ E4). exact E5.
Qed.

(** The registers of a receiver. *)
Definition receiving (handler upid : Z) (e : CPUX86State) : CPUX86State :=
  e <| uintr_handler := handler |> <| uintr_pd := upid |> <| uintr_stackadjust := 0 |>
    <| uintr_misc := Z.lor (uintr_misc e) (Z.shiftl UINTR_NOTIFICATION_VECTOR 32) |>.

Lemma split_u32 v : is_u 32 (u32 v) /\ is_u 32 (u32 (Z.shiftr v 32)).
Proof. split; apply wrap_range; lia. Qed.

Lemma receiver_msrs d ub m T handler upid e M A (k : X A) : in_kernel d m -> steady d m T e M ->
  is_u 64 handler -> is_u 64 upid -> is_u 64 (uintr_misc e) ->
  exists e', steady d m T e' M /\ alike (receiving handler upid e) e' /\
   (asm_wrmsr d ub MSR_IA32_UINTR_HANDLER (u32 handler) (u32 (Z.shiftr handler 32));;
    asm_wrmsr d ub MSR_IA32_UINTR_PD (u32 upid) (u32 (Z.shiftr upid 32));;
    asm_wrmsr d ub MSR_IA32_UINTR_STACKADJUST (u32 OS_ABI_REDZONE) (u32 (Z.shiftr OS_ABI_REDZONE 32));;
    ' (misc_msr_low, misc_msr_high) ← asm_rdmsr d MSR_IA32_UINTR_MISC;
    asm_wrmsr d ub MSR_IA32_UINTR_MISC misc_msr_low (Z.lor misc_msr_high UINTR_NOTIFICATION_VECTOR);; k) (put d m e M) = k (put d m e' M).
Proof.
  intros [Hcpu Hlong Hguest _ _ _] Hs Hh Hu Hm. destruct (split_u32 handler), (split_u32 upid), (split_u32 (uintr_misc e)).
  pose proof (fun c lo hi e => asm_wrmsr_put d ub m T Hcpu Hguest c lo hi e M) as Wr.
  destruct (Wr MSR_IA32_UINTR_HANDLER (u32 handler) (u32 (Z.shiftr handler 32)) e Hs ltac:(done)) as (e1 & E1 & H1' & A1); [done|done|].
  rewrite join32 in A1 by done.
  destruct (Wr MSR_IA32_UINTR_PD (u32 upid) (u32 (Z.shiftr upid 32)) e1 H1' ltac:(done)) as (e2 & E2 & H2' & A2); [done|done|].
  rewrite join32 in A2 by done.
  destruct (Wr MSR_IA32_UINTR_STACKADJUST (u32 OS_ABI_REDZONE) (u32 (Z.shiftr OS_ABI_REDZONE 32)) e2 H2' ltac:(done)) as (e3 & E3 & H3' & A3); [done|done|].
  destruct (asm_rdmsr_put d m T Hcpu Hguest MSR_IA32_UINTR_MISC e3 M H3' ltac:(done)) as (e4 & E4 & H4' & A4).
  assert (A13 : alike (e <| uintr_handler := handler |> <| uintr_pd := upid |> <| uintr_stackadjust := 0 |>) e3).
  { eapply alike_trans; [|exact A3]. apply (alike_umsr MSR_IA32_UINTR_STACKADJUST 0); [done|].
    eapply alike_trans; [|exact A2]. apply (alike_umsr MSR_IA32_UINTR_PD upid); [done|exact A1]. }
  assert (Ev : msr_read MSR_IA32_UINTR_MISC e3 = uintr_misc e) by (exact (al_misc _ _ A13)). rewrite Ev in E4.
  destruct (Wr MSR_IA32_UINTR_MISC (u32 (uintr_misc e)) (Z.lor (u32 (Z.shiftr (uintr_misc e) 32)) UINTR_NOTIFICATION_VECTOR) e4 H4' ltac:(done))
    as (e5 & E5 & H5' & A5); [done|by apply lor_u32|].
  rewrite Z.shiftl_lor, Z.lor_assoc, join32 in A5 by done. exists e5. split; [done|]. split.
  - eapply alike_trans; [|exact A5]. unfold receiving. apply (alike_umsr MSR_IA32_UINTR_MISC); [done|]. by eapply alike_trans.
  - rewrite (bind_Ret _ _ _ _ _ E1), (bind_Ret _ _ _ _ _ E2), (bind_Ret _ _ _ _ _ E3), (bind_Ret _ _ _ _ _ E4). cbv beta iota.
    rewrite (bind_Ret _ _ _ _ _ E5). reflexivity.
Qed.

Lemma bind_assoc_ret {A B} (x : X unit) (a : A) (g : A -> X B) m : ((x;; mret a) ≫= g) m = (x;; g a) m.
Proof. unfold mbind, X_bind. by destruct (x m). Qed.

(** C26. Registering a handler.  The call gives the task a descriptor without
    requests that routes notifications, with the vector the processor treats as
    user-interrupt notification, to the processor it runs on; it points the
    processor to the handler and to the descriptor by its virtual address [vp + off]
    (the comment in uintr.rs asks for the physical address [pp + off]), changes no
    other memory, and a second call changes nothing. *)
Theorem register_handler_ready d ub m T vp pp off ctx handler apic :
  in_kernel d m -> kernel_page d m T 16 vp pp off -> upid_activated ctx = false -> uintr_upid_ctx ctx = None ->
  handler <> 0 -> is_u 64 handler -> 0 <= apic < 256 -> is_u 64 (uintr_misc (cpu_env d m)) ->
  exists m', let ctx' := ctx <| uintr_upid_ctx := Some (vp + off) |> <| upid_activated := true |> in
    sys_uintr_register_handler d ub (vp + off) apic handler ctx m = Ret (vp + off, ctx') m' /\
    alike (receiving handler (vp + off) (cpu_env d m)) (cpu_env d m') /\ same_paging (cpu_env d m) (cpu_env d m') /\
    (let u := rd_upid (mem m') (pp + off) in
     u8 (Z.shiftr (ndst u) 8) = apic /\ nv u = UINTR_UINV /\ Z.land (status u) 0x11 = 0 /\ puir u = 0) /\
    (forall n a, apart a (Z.of_nat n) (pp + off) 16 -> ld n (mem m') a = ld n (mem m) a) /\
    forall at2 apic2 handler2, sys_uintr_register_handler d ub at2 apic2 handler2 ctx' m' = Ret (0, ctx') m'.
Proof.
  intros Hk Hp Hact Hctx Hne Hh Ha Hm. pose proof (in_kernel_steady d m T Hk) as Hs. pose proof (ik_cpu _ _ Hk) as Hcpu.
  destruct (write_new_upid d m T vp pp off apic _ _ Hk Hp Hs) as (M' & Hs' & Hrd & Hout & Ew).
  destruct (receiver_msrs d ub m T handler (vp + off) (cpu_env d m) M' _
    (mret (vp + off, ctx <| uintr_upid_ctx := Some (vp + off) |> <| upid_activated := true |>)) Hk Hs' Hh (proj1 (kp_range _ _ _ _ _ _ _ Hp)) Hm)
    as (e' & Hs2 & Hal & Er).
  exists (put d m e' M'). cbv zeta. rewrite put_env, put_mem by done. rewrite Hrd. split; [|split; [done|split; [apply Hs2|split; [|split; [done|]]]]].
  - unfold sys_uintr_register_handler. rewrite (proj2 (Z.eqb_neq _ _) Hne). unfold do_uintr_register_handler. rewrite Hact, Hctx.
    rewrite bind_assoc_ret. rewrite (put_self d m Hcpu) at 1. etransitivity; [apply (Ew _ _)|]. exact Er.
  - unfold new_upid. cbn [ndst nv status puir]. split_and!; try done. rewrite (wrap_small 32) by (rewrite Z.shiftl_mul_pow2 by lia; unfold is_u; lia).
    rewrite Z.shiftr_shiftl_l, Z.shiftl_0_r by lia. apply wrap_small. unfold is_u. lia.
  - intros at2 apic2 handler2. unfold sys_uintr_register_handler. by destruct (handler2 =? 0).
Qed.

Lemma register_handler_ready_witness : exists m',
  sys_uintr_register_handler 0 (fun _ => 0) 0x20040 3 0x401000 rg_ctx rg_machine = Ret (0x20040, mkCtx None false true (Some 0x20040)) m' /\
  uintr_pd (cpu_env 0 m') = 0x20040 /\ u8 (Z.shiftr (ndst (rd_upid (mem m') 0x60040)) 8) = 3.
Proof.
  destruct (register_handler_ready 0 (fun _ => 0) rg_machine sw_tables 0x20000 0x60000 0x40 rg_ctx 0x401000 3) as (m' & E & Hal & _ & (Hn & _) & _).
  - exact rg_kernel.
  - split; [map_page|lia|apply (bool_decide_eq_true_1 _); by vm_compute|unfold is_u; lia].
  - reflexivity.
  - reflexivity.
  - lia.
  - unfold is_u. lia.
  - lia.
  - by vm_compute.
  - exists m'. split; [exact E|]. split; [exact (al_pd _ _ Hal)|exact Hn].
Defined.
