(* ===== verification/Paging.v ===== *)
(** * Page tables of the kernel (nimbos/kernel/src/mm/paging.rs,
    arch/x86_64/page_table.rs, mm/frame_allocator.rs, utils/allocator.rs)

    The kernel reaches physical memory through a linear map; here a pointer
    [paddr.into_kvaddr()] is the physical address.  A panic is [None]. *)
From S2P Require Import Prelude Machine.

Definition PAGE_SIZE : Z := 0x1000.
Definition PA_1TB_BITS : Z := 40.
Definition PhysAddr_MAX : Z := bit PA_1TB_BITS - 1.
Definition PhysAddr_new (pa : Z) : Z := Z.land pa PhysAddr_MAX.
Definition align_down (addr page_size : Z) : Z := clr addr (page_size - 1).
Definition page_offset (addr page_size : Z) : Z := Z.land addr (page_size - 1).

(** ** Frames *)

(** [FreeListAllocator]; the last element of the list is the top of the stack. *)
Record FreeListAllocator := mkFree { range_start : Z; range_end : Z; next_available : Z; free_list : list Z }.
#[export] Instance eta_free : Eta FreeListAllocator := fun s => mkFree (range_start s) (range_end s) (next_available s) (free_list s).
#[export] Instance set_range_start : Setter range_start := ltac:(derive_setter).
#[export] Instance set_range_end : Setter range_end := ltac:(derive_setter).
#[export] Instance set_next_available : Setter next_available := ltac:(derive_setter).
#[export] Instance set_free_list : Setter free_list := ltac:(derive_setter).

Definition fla_empty : FreeListAllocator := mkFree 0 0 0 [].
Definition fla_init (start stop : Z) (a : FreeListAllocator) : FreeListAllocator :=
  a <| next_available := start |> <| range_start := start |> <| range_end := stop |>.
Definition available_space (a : FreeListAllocator) : Z :=
  Z.of_nat (length (free_list a)) + range_end a - next_available a.
Definition fla_alloc (a : FreeListAllocator) : option Z * FreeListAllocator :=
  match rev (free_list a) with
  | value :: rest => (Some value, a <| free_list := rev rest |>)  (* pop *)
  | [] =>
      if range_end a <=? next_available a then (None, a)
      else (Some (next_available a), a <| next_available := next_available a + 1 |>)
  end.
Definition fla_dealloc (value : Z) (a : FreeListAllocator) : option FreeListAllocator :=
  if (range_start a <=? value) && (value <? next_available a) && negb (existsb (Z.eqb value) (free_list a))
  then Some (a <| free_list := free_list a ++ [value] |>) else None.

(** Memory and the frames that are free. *)
Record world := mkWorld { w_mem : gmap Z Z; w_free : FreeListAllocator }.
#[export] Instance eta_world : Eta world := fun s => mkWorld (w_mem s) (w_free s).
#[export] Instance set_w_mem : Setter w_mem := ltac:(derive_setter).
#[export] Instance set_w_free : Setter w_free := ltac:(derive_setter).

(** [PhysFrame::alloc_zero]: the address of the frame. *)
Definition frame_alloc_zero (w : world) : option Z * world :=
  match fla_alloc (w_free w) with
  | (Some value, a) =>
      let paddr := PhysAddr_new (value * PAGE_SIZE) in
      (Some paddr, w <| w_free := a |> <| w_mem := st (Z.to_nat PAGE_SIZE) paddr 0 (w_mem w) |>)
  | (None, a) => (None, w <| w_free := a |>)
  end.
Definition frame_drop (paddr : Z) (w : world) : option world :=
  a ← fla_dealloc (paddr / PAGE_SIZE) (w_free w);
  Some (w <| w_free := a |>).

(** ** Entries *)
Definition READ : Z := bit 0.
Definition WRITE : Z := bit 1.
Definition EXECUTE : Z := bit 2.
Definition USER : Z := bit 3.
Definition DEVICE : Z := bit 4.

(** The flags of an entry as the x86_64 crate names them: bits of the architecture. *)
Definition PTF_PRESENT : Z := bit 0.
Definition PTF_WRITABLE : Z := bit 1.
Definition PTF_USER_ACCESSIBLE : Z := bit 2.
Definition PTF_WRITE_THROUGH : Z := bit 3.
Definition PTF_NO_CACHE : Z := bit 4.
Definition PTF_HUGE_PAGE : Z := bit 7.
Definition PTF_NO_EXECUTE : Z := bit 63.

Definition contains (f m : Z) : bool := Z.land f m =? m.

(** [From<PTF> for MemFlags] and [From<MemFlags> for PTF]. *)
Definition mem_flags_of (f : Z) : Z :=
  if f =? 0 then 0
  else
    let ret := READ in
    let ret := if contains f PTF_WRITABLE then Z.lor ret WRITE else ret in
    let ret := if negb (contains f PTF_NO_EXECUTE) then Z.lor ret EXECUTE else ret in
    let ret := if contains f PTF_USER_ACCESSIBLE then Z.lor ret USER else ret in
    if contains f PTF_NO_CACHE then Z.lor ret DEVICE else ret.
Definition ptf_of (f : Z) : Z :=
  if f =? 0 then 0
  else
    let ret := PTF_PRESENT in
    let ret := if contains f WRITE then Z.lor ret PTF_WRITABLE else ret in
    let ret := if negb (contains f EXECUTE) then Z.lor ret PTF_NO_EXECUTE else ret in
    let ret := if contains f USER then Z.lor ret PTF_USER_ACCESSIBLE else ret in
    if contains f DEVICE then Z.lor ret (Z.lor PTF_NO_CACHE PTF_WRITE_THROUGH) else ret.

Definition PHYS_ADDR_MASK : Z := 0x000ffffffffff000.
(** The bits [PTF::from_bits_truncate] keeps. *)
Definition PTF_ALL : Z := 0xfff0000000000fff.

Definition new_page (paddr flags : Z) (is_block : bool) : Z :=
  let flags := ptf_of flags in
  let flags := if is_block then Z.lor flags PTF_HUGE_PAGE else flags in
  Z.lor flags (Z.land paddr PHYS_ADDR_MASK).
Definition new_table (paddr : Z) : Z :=
  Z.lor (Z.lor PTF_PRESENT (Z.lor PTF_WRITABLE PTF_USER_ACCESSIBLE)) (Z.land paddr PHYS_ADDR_MASK).
Definition pte_paddr (e : Z) : Z := PhysAddr_new (Z.land e PHYS_ADDR_MASK).
Definition pte_flags (e : Z) : Z := mem_flags_of (Z.land e PTF_ALL).
Definition is_unused (e : Z) : bool := e =? 0.
Definition is_present (e : Z) : bool := contains (Z.land e PTF_ALL) PTF_PRESENT.
Definition is_block (e : Z) : bool := contains (Z.land e PTF_ALL) PTF_HUGE_PAGE.

(** ** Tables *)
Definition ENTRY_COUNT : Z := 512.
Definition p4_index (vaddr : Z) : Z := Z.land (Z.shiftr vaddr (12 + 27)) (ENTRY_COUNT - 1).
Definition p3_index (vaddr : Z) : Z := Z.land (Z.shiftr vaddr (12 + 18)) (ENTRY_COUNT - 1).
Definition p2_index (vaddr : Z) : Z := Z.land (Z.shiftr vaddr (12 + 9)) (ENTRY_COUNT - 1).
Definition p1_index (vaddr : Z) : Z := Z.land (Z.shiftr vaddr 12) (ENTRY_COUNT - 1).

(** [&mut table[i]] is the address of the entry. *)
Definition entry_at (table i : Z) : Z := table + 8 * i.
Definition read_entry (w : world) (a : Z) : Z := ld 8 (w_mem w) a.
Definition write_entry (a e : Z) (w : world) : world := w <| w_mem := st 8 a e (w_mem w) |>.

Record PageTable := mkPT { root_paddr : Z; intrm_tables : list Z }.

(** A page table and the rest of the system. *)
Definition pts : Type := PageTable * world.

(** [PageTableImpl::new] *)
Definition pt_new (w : world) : option pts :=
  match frame_alloc_zero w with
  | (Some f, w) => Some (mkPT f [f], w)
  | (None, _) => None  (* unwrap *)
  end.

Definition alloc_intrm_table (s : pts) : option (Z * pts) :=
  let '(pt, w) := s in
  match frame_alloc_zero w with
  | (Some f, w) => Some (f, (mkPT (root_paddr pt) (intrm_tables pt ++ [f]), w))
  | (None, _) => None
  end.

(** The inner option is the result; the outer one the panic. *)
Definition next_table_mut (w : world) (entry : Z) : option (option Z) :=
  let e := read_entry w entry in
  if negb (is_present e) then Some None
  else if is_block e then None else Some (Some (pte_paddr e)).

Definition next_table_mut_or_create (entry : Z) (s : pts) : option (option Z * pts) :=
  if is_unused (read_entry s.2 entry) then
    ' (paddr, (pt, w)) ← alloc_intrm_table s;
    Some (Some paddr, (pt, write_entry entry (new_table paddr) w))
  else
    r ← next_table_mut s.2 entry;
    Some (r, s).

Definition get_entry_mut (vaddr : Z) (s : pts) : option (option Z) :=
  let w := s.2 in
  let p4e := entry_at (root_paddr s.1) (p4_index vaddr) in
  r ← next_table_mut w p4e;
  match r with None => Some None | Some p3 =>
  let p3e := entry_at p3 (p3_index vaddr) in
  r ← next_table_mut w p3e;
  match r with None => Some None | Some p2 =>
  let p2e := entry_at p2 (p2_index vaddr) in
  r ← next_table_mut w p2e;
  match r with None => Some None | Some p1 => Some (Some (entry_at p1 (p1_index vaddr))) end end end.

Definition get_entry_mut_or_create (vaddr : Z) (s : pts) : option (option Z * pts) :=
  let p4e := entry_at (root_paddr s.1) (p4_index vaddr) in
  ' (r, s) ← next_table_mut_or_create p4e s;
  match r with None => Some (None, s) | Some p3 =>
  let p3e := entry_at p3 (p3_index vaddr) in
  ' (r, s) ← next_table_mut_or_create p3e s;
  match r with None => Some (None, s) | Some p2 =>
  let p2e := entry_at p2 (p2_index vaddr) in
  ' (r, s) ← next_table_mut_or_create p2e s;
  match r with None => Some (None, s) | Some p1 => Some (Some (entry_at p1 (p1_index vaddr)), s) end end end.

Definition pt_map (vaddr paddr flags : Z) (s : pts) : option pts :=
  ' (r, (pt, w)) ← get_entry_mut_or_create vaddr s;
  entry ← r;
  if negb (is_unused (read_entry w entry)) then None
  else Some (pt, write_entry entry (new_page (align_down paddr PAGE_SIZE) flags false) w).

Definition pt_unmap (vaddr : Z) (s : pts) : option pts :=
  r ← get_entry_mut vaddr s;
  entry ← r;
  if is_unused (read_entry s.2 entry) then None
  else Some (s.1, write_entry entry 0 s.2).

Definition pt_query (vaddr : Z) (s : pts) : option (option (Z * Z)) :=
  r ← get_entry_mut vaddr s;
  match r with
  | None => Some None
  | Some entry =>
      let e := read_entry s.2 entry in
      if is_unused e then Some None
      else Some (Some (PhysAddr_new (pte_paddr e + page_offset vaddr PAGE_SIZE), pte_flags e))
  end.
