(* ===== verification/PagingTree.v ===== *)
(** * The tree of page tables

    The frame allocator's invariant, and the tables in memory as a tree: what
    mapping, unmapping and asking do to the address space the tree stands for,
    which frames an operation may change, and that the marks the processor sets
    leave the tree alone.  A tree may own only a part of its root table ([own]);
    the rest is shared with another. *)
From S2P Require Import Prelude Machine Mem Mmu MmuFacts Paging.

(** ** Entries *)
Definition frame_ok (f : Z) : Prop := f mod 4096 = 0 /\ 0 <= f < 2 ^ 40.

Lemma frame_bits f i : frame_ok f -> Z.testbit f i = true -> 12 <= i < 40.
Proof.
  intros [Hm Hr] Hi. destruct (Z.ltb_spec i 0); [by rewrite Z.testbit_neg_r in Hi by lia|]. split.
  - destruct (Z.ltb_spec i 12); [|lia]. rewrite <- (Z.mod_pow2_bits_low f 12 i) in Hi by lia. change (2 ^ 12) with 4096 in Hi.
    by rewrite Hm, Z.bits_0 in Hi.
  - destruct (Z.ltb_spec i 40); [lia|]. by rewrite (is_u_testbit_high 40) in Hi by done.
Qed.

Lemma mask_bits i : 0 <= i -> Z.testbit PHYS_ADDR_MASK i = (12 <=? i) && (i <? 52).
Proof.
  intros Hi. change PHYS_ADDR_MASK with (Z.ldiff (Z.ones 52) (Z.ones 12)). rewrite Z.ldiff_spec.
  destruct (Z.leb_spec 12 i), (Z.ltb_spec i 52); cbn.
  - by rewrite Z.ones_spec_low, Z.ones_spec_high by lia.
  - by rewrite Z.ones_spec_high by lia.
  - by rewrite (Z.ones_spec_low 12), andb_false_r by lia.
  - lia.
Qed.

(** [e] is [x] but for the marks the hardware sets. *)
Definition marks (e x : Z) : Prop := clr e AD = x.

Lemma marks_bit e x i : marks e x -> i <> 5 -> i <> 6 -> Z.testbit e i = Z.testbit x i.
Proof.
  intros <- H5 H6. destruct (Z.ltb_spec i 0); [by rewrite !Z.testbit_neg_r by lia|].
  rewrite Z.land_spec, Z.lnot_spec by lia. change AD with (Z.lor (bit 5) (bit 6)). rewrite Z.lor_spec, !testbit_bit by lia.
  rewrite (proj2 (Z.eqb_neq i 5)), (proj2 (Z.eqb_neq i 6)) by done. cbn. by rewrite andb_true_r.
Qed.

Lemma pte_paddr_of e f : frame_ok f -> (forall i, 12 <= i < 52 -> Z.testbit e i = Z.testbit f i) -> pte_paddr e = f.
Proof.
  intros Hf He. unfold pte_paddr, PhysAddr_new. bitwise i Hi. rewrite mask_bits by lia.
  change PhysAddr_MAX with (Z.ones 40). destruct (Z.testbit f i) eqn:E.
  - pose proof (frame_bits f i Hf E). rewrite He, E, Z.ones_spec_low by lia. rewrite (proj2 (Z.leb_le _ _)), (proj2 (Z.ltb_lt _ _)) by lia. done.
  - destruct (Z.leb_spec 12 i), (Z.ltb_spec i 52); cbn; rewrite ?andb_false_r; try done. by rewrite He, E by lia.
Qed.

Lemma frame_mask f : frame_ok f -> Z.land f PHYS_ADDR_MASK = f.
Proof.
  intros Hf. bitwise i Hi. rewrite mask_bits by lia. destruct (Z.testbit f i) eqn:E; [|done].
  pose proof (frame_bits f i Hf E). rewrite (proj2 (Z.leb_le _ _)), (proj2 (Z.ltb_lt _ _)) by lia. done.
Qed.

(** The bits of the two kinds of entries. *)
Lemma table_bit f i : frame_ok f -> 0 <= i -> Z.testbit (new_table f) i = (i <? 3) || Z.testbit f i.
Proof.
  intros Hf Hi. unfold new_table. rewrite frame_mask by done.
  change (Z.lor PTF_PRESENT (Z.lor PTF_WRITABLE PTF_USER_ACCESSIBLE)) with (Z.ones 3). rewrite Z.lor_spec. f_equal.
  destruct (Z.ltb_spec i 3); [apply Z.ones_spec_low|apply Z.ones_spec_high]; lia.
Qed.

Lemma contains_bit f k : 0 <= k -> contains f (bit k) = Z.testbit f k.
Proof.
  intros Hk. unfold contains. destruct (Z.testbit f k) eqn:E.
  - apply Z.eqb_eq. bitwise i Hi. destruct (Z.eqb_spec i k) as [->|]; [by rewrite E|by rewrite andb_false_r].
  - apply Z.eqb_neq. intros H. apply (f_equal (fun x => Z.testbit x k)) in H. rewrite Z.land_spec, E, testbit_bit, Z.eqb_refl in H by lia. done.
Qed.

Lemma truncate_bit e k : 0 <= k < 12 \/ 52 <= k < 64 -> contains (Z.land e PTF_ALL) (bit k) = Z.testbit e k.
Proof.
  intros Hk. rewrite contains_bit by lia. rewrite Z.land_spec.
  assert (E : Z.testbit PTF_ALL k = true); [|by rewrite E, andb_true_r].
  change PTF_ALL with (Z.lor (Z.ones 12) (Z.shiftl (Z.ones 12) 52)). rewrite Z.lor_spec, Z.shiftl_spec by lia.
  destruct Hk; [rewrite Z.ones_spec_low by lia; done|]. rewrite (Z.ones_spec_low 12 (k - 52)) by lia. by rewrite orb_true_r.
Qed.

(** What the kernel reads in an entry that points to the table [f]. *)
Lemma read_table e f : frame_ok f -> marks e (new_table f) ->
  is_unused e = false /\ is_present e = true /\ is_block e = false /\ pte_paddr e = f.
Proof.
  intros Hf Hm. assert (Hb : forall i, 0 <= i -> i <> 5 -> i <> 6 -> Z.testbit e i = (i <? 3) || Z.testbit f i).
  { intros i Hi H5 H6. by rewrite (marks_bit e _ i Hm), table_bit. }
  assert (H0 : Z.testbit e 0 = true) by (by rewrite Hb). split_and!.
  - apply Z.eqb_neq. intros ->. by rewrite Z.bits_0 in H0.
  - unfold is_present. change PTF_PRESENT with (bit 0). rewrite truncate_bit by lia. done.
  - unfold is_block. change PTF_HUGE_PAGE with (bit 7). rewrite truncate_bit, Hb by lia. cbn.
    destruct (Z.testbit f 7) eqn:E; [|done]. pose proof (frame_bits f 7 Hf E). lia.
  - apply pte_paddr_of; [done|]. intros i Hi. rewrite Hb by lia. rewrite (proj2 (Z.ltb_ge _ _)) by lia. done.
Qed.

Definition flags_ok (fl : Z) : Prop := 0 < fl < 32.

Lemma ptf_bit fl i : flags_ok fl -> 0 <= i -> Z.testbit (ptf_of fl) i =
  (i =? 0) || (i =? 1) && Z.testbit fl 1 || (i =? 2) && Z.testbit fl 3 || ((i =? 3) || (i =? 4)) && Z.testbit fl 4 ||
  (i =? 63) && negb (Z.testbit fl 2).
Proof.
  intros Hf Hi. unfold ptf_of, flags_ok in *. rewrite (proj2 (Z.eqb_neq _ _)) by lia.
  change WRITE with (bit 1). change EXECUTE with (bit 2). change USER with (bit 3). change DEVICE with (bit 4).
  rewrite !contains_bit by lia. unfold PTF_PRESENT, PTF_WRITABLE, PTF_NO_EXECUTE, PTF_USER_ACCESSIBLE, PTF_NO_CACHE, PTF_WRITE_THROUGH.
  destruct (Z.testbit fl 1), (Z.testbit fl 2), (Z.testbit fl 3), (Z.testbit fl 4); cbn [negb];
    rewrite ?Z.lor_spec, ?testbit_bit by lia; destruct (i =? 0), (i =? 1), (i =? 2), (i =? 3), (i =? 4), (i =? 63); done.
Qed.

Lemma page_bit pa fl i : frame_ok pa -> flags_ok fl -> 0 <= i ->
  Z.testbit (new_page pa fl false) i = Z.testbit (ptf_of fl) i || Z.testbit pa i.
Proof. intros Hp Hf Hi. unfold new_page. by rewrite Z.lor_spec, frame_mask. Qed.

(** The flags read back: what is readable is not recorded. *)
Lemma flags_of_bits x fl : flags_ok fl -> x <> 0 -> contains x PTF_WRITABLE = Z.testbit fl 1 -> contains x PTF_NO_EXECUTE = negb (Z.testbit fl 2) ->
  contains x PTF_USER_ACCESSIBLE = Z.testbit fl 3 -> contains x PTF_NO_CACHE = Z.testbit fl 4 -> mem_flags_of x = Z.lor READ fl.
Proof.
  intros Hf Hx Hw Hn Hu Hc. unfold mem_flags_of. rewrite (proj2 (Z.eqb_neq _ _) Hx).
  rewrite Hw, Hn, Hu, Hc.
  set (g := fun fl => (let ret := READ in let ret := if Z.testbit fl 1 then Z.lor ret WRITE else ret in
    let ret := if negb (negb (Z.testbit fl 2)) then Z.lor ret EXECUTE else ret in
    let ret := if Z.testbit fl 3 then Z.lor ret USER else ret in if Z.testbit fl 4 then Z.lor ret DEVICE else ret)).
  assert (H : forallb (fun fl => g fl =? Z.lor READ fl) (seqZ 1 31) = true) by (by vm_compute).
  rewrite forallb_forall in H. apply Z.eqb_eq, (H fl). apply list_elem_of_In, elem_of_seqZ. unfold flags_ok in Hf. lia.
Qed.

Lemma read_page e pa fl : frame_ok pa -> flags_ok fl -> marks e (new_page pa fl false) ->
  is_unused e = false /\ pte_paddr e = pa /\ pte_flags e = Z.lor READ fl.
Proof.
  intros Hp Hf Hm. assert (Hb : forall i, 0 <= i -> i <> 5 -> i <> 6 -> Z.testbit e i = Z.testbit (ptf_of fl) i || Z.testbit pa i).
  { intros i Hi H5 H6. by rewrite (marks_bit e _ i Hm), page_bit. }
  assert (Hlow : forall i, 0 <= i < 12 \/ 40 <= i -> i <> 5 -> i <> 6 -> Z.testbit e i = Z.testbit (ptf_of fl) i).
  { intros i Hi H5 H6. rewrite Hb by lia. destruct (Z.testbit pa i) eqn:E; [pose proof (frame_bits pa i Hp E); lia|by rewrite orb_false_r]. }
  assert (H0 : Z.testbit e 0 = true) by (rewrite Hlow, ptf_bit by (done || lia); done). split_and!.
  - apply Z.eqb_neq. intros ->. by rewrite Z.bits_0 in H0.
  - apply pte_paddr_of; [done|]. intros i Hi. rewrite Hb, ptf_bit by (done || lia).
    rewrite !(proj2 (Z.eqb_neq i _)) by lia. done.
  - apply flags_of_bits; [done| | | | |].
    + intros E. pose proof (truncate_bit e 0 ltac:(lia)) as H. rewrite E, H0 in H. done.
    + change PTF_WRITABLE with (bit 1). rewrite truncate_bit, Hlow, ptf_bit by (done || lia). by destruct (Z.testbit fl 1).
    + change PTF_NO_EXECUTE with (bit 63). rewrite truncate_bit, Hlow, ptf_bit by (done || lia). by destruct (Z.testbit fl 2).
    + change PTF_USER_ACCESSIBLE with (bit 2). rewrite truncate_bit, Hlow, ptf_bit by (done || lia). by destruct (Z.testbit fl 3).
    + change PTF_NO_CACHE with (bit 4). rewrite truncate_bit, Hlow, ptf_bit by (done || lia). by destruct (Z.testbit fl 4).
Qed.

(** ** Frames *)
Record fla_ok (a : FreeListAllocator) : Prop := {
  fo_range : 0 <= range_start a <= next_available a /\ range_end a <= 2 ^ 28 /\ next_available a <= Z.max (range_start a) (range_end a);
  fo_list : forall n, n ∈ free_list a -> range_start a <= n < next_available a;
  fo_nodup : NoDup (free_list a);
}.

(** The frame at [f] is in use. *)
Definition owned (a : FreeListAllocator) (f : Z) : Prop :=
  frame_ok f /\ range_start a <= f / 4096 < next_available a /\ f / 4096 ∉ free_list a.

Lemma frame_number n : 0 <= n < 2 ^ 28 -> frame_ok (n * 4096) /\ PhysAddr_new (n * PAGE_SIZE) = n * 4096 /\ n * 4096 / 4096 = n.
Proof.
  intros Hn. split; [split; [apply Z.mod_mul; lia|lia]|]. split; [|apply Z.div_mul; lia].
  unfold PhysAddr_new. change PhysAddr_MAX with (Z.ones 40). rewrite Z.land_ones by lia. apply Z.mod_small. unfold PAGE_SIZE. lia.
Qed.

Lemma frame_div f n : frame_ok f -> f / 4096 = n -> f = n * 4096.
Proof. intros [Hf _] <-. pose proof (Z.div_mod f 4096). lia. Qed.

Lemma fla_alloc_ok a : fla_ok a -> 0 < available_space a ->
  exists n a', fla_alloc a = (Some n, a') /\ fla_ok a' /\ ~ owned a (n * 4096) /\ owned a' (n * 4096) /\ 0 <= n < 2 ^ 28 /\
    (forall f, owned a' f <-> owned a f \/ f = n * 4096) /\ available_space a' = available_space a - 1.
Proof.
  intros [(Hs & He & Hn) Hl Hd] Hav. unfold fla_alloc. destruct (rev (free_list a)) as [|v rest] eqn:E.
  - assert (Ef : free_list a = []) by (rewrite <- (rev_involutive (free_list a)), E; done). unfold available_space in Hav. rewrite Ef in Hav. cbn in Hav.
    rewrite (proj2 (Z.leb_gt _ _)) by lia. destruct (frame_number (next_available a)) as (Hfo & _ & Hdiv); [lia|].
    eexists _, _. split; [reflexivity|]. split; [split; cbn; [lia|rewrite Ef; by intros n ?%elem_of_nil|done]|].
    split; [intros (_ & ? & _); rewrite Hdiv in *; lia|]. split; [split; [done|]; cbn; rewrite Hdiv, Ef; split; [lia|apply not_elem_of_nil]|].
    split; [lia|]. split; [|unfold available_space; cbn; lia]. intros f. split.
    + intros (Hf & Hr & Hnin). cbn in Hr. destruct (Z.eq_dec (f / 4096) (next_available a)) as [Eq|]; [right; by apply frame_div|left; split; [done|]; split; [lia|by rewrite Ef; apply not_elem_of_nil]].
    + intros [(Hf & Hr & Hnin)| ->]; (split; [done|]); cbn; [split; [lia|done]|rewrite Hdiv, Ef; split; [lia|apply not_elem_of_nil]].
  - assert (Ef : free_list a = rev rest ++ [v]) by (rewrite <- (rev_involutive (free_list a)), E; done).
    assert (Hv : v ∈ free_list a) by (rewrite Ef, elem_of_app, list_elem_of_singleton; auto). pose proof (Hl v Hv) as Hvr.
    rewrite Ef in Hd. apply list.NoDup_app in Hd. destruct Hd as (Hd1 & Hd2 & _). destruct (frame_number v) as (Hfo & _ & Hdiv); [lia|].
    eexists _, _. split; [reflexivity|]. split; [split; cbn; [lia|intros n Hin; apply Hl; rewrite Ef, elem_of_app; auto|done]|].
    split; [intros (_ & _ & Hnin); by rewrite Hdiv in Hnin|]. split; [split; [done|]; cbn; rewrite Hdiv; split; [lia|]|].
    { intros Hin. apply (Hd2 v Hin), list_elem_of_singleton. done. }
    split; [lia|]. split; [|unfold available_space; cbn; rewrite Ef, length_app; cbn; lia].
    intros f. split.
    + intros (Hf & Hr & Hnin). cbn in Hr, Hnin. destruct (Z.eq_dec (f / 4096) v) as [Eq|Hne]; [right; by apply frame_div|left; split; [done|]; split; [done|]].
      rewrite Ef, elem_of_app, list_elem_of_singleton. tauto.
    + intros [(Hf & Hr & Hnin)| ->]; (split; [done|]); cbn.
      * split; [done|]. intros Hin. apply Hnin. rewrite Ef, elem_of_app. auto.
      * rewrite Hdiv. split; [lia|]. intros Hin. apply (Hd2 v Hin), list_elem_of_singleton. done.
Qed.

(** ** The frame allocator's own invariant *)
Lemma fla_init_ok start stop : 0 <= start -> stop <= 2 ^ 28 ->
  fla_ok (fla_init start stop fla_empty) /\ available_space (fla_init start stop fla_empty) = stop - start.
Proof. intros H0 H1. split; [split; cbn; [lia|intros n Hn; by apply elem_of_nil in Hn|constructor]|]. unfold available_space. cbn. lia. Qed.

Lemma fla_dealloc_ok a f : fla_ok a -> frame_ok f ->
  match fla_dealloc (f / PAGE_SIZE) a with
  | Some a' => owned a f /\ fla_ok a' /\ (forall g, owned a' g <-> owned a g /\ g <> f) /\ available_space a' = available_space a + 1
  | None => ~ owned a f
  end.
Proof.
  intros [Hr Hl Hd] Hf. unfold fla_dealloc, owned, PAGE_SIZE. change 0x1000 with 4096. set (n := f / 4096).
  assert (Ex : existsb (Z.eqb n) (free_list a) = true <-> n ∈ free_list a).
  { rewrite existsb_exists. split; [intros (x & Hx & E%Z.eqb_eq); subst x; by apply list_elem_of_In|]. intros Hn. exists n.
    by rewrite Z.eqb_refl; split; [apply list_elem_of_In|]. }
  destruct (Z.leb_spec (range_start a) n), (Z.ltb_spec n (next_available a)); cbn [andb]; try (intros (_ & ? & _); lia).
  destruct (existsb _ _); cbn [negb]; [intros (_ & _ & Hn); tauto|]. assert (Hn : n ∉ free_list a) by (intros ?%Ex; done).
  split; [done|]. split; [split; cbn; [done| |]|].
  - intros x [Hx|Hx%list_elem_of_singleton]%elem_of_app; [by apply Hl|subst x; lia].
  - apply list.NoDup_app. split; [done|]. split; [|apply NoDup_singleton]. intros x Hx Hx'%list_elem_of_singleton. congruence.
  - split; [|unfold available_space; cbn; rewrite length_app; cbn; lia]. intros g. cbn. rewrite elem_of_app, list_elem_of_singleton. split.
    + intros (Hg & Hgr & Hx). split; [tauto|]. intros ->. tauto.
    + intros [(Hg & Hgr & Hx) Hne]. split; [done|]. split; [done|]. intros [?|E]; [done|]. apply Hne. rewrite (frame_div g n), (frame_div f n) by done. done.
Qed.

(** A zeroed frame reads as zero. *)
Lemma ld_zeroed n k a mm x : a <= x -> x + Z.of_nat n <= a + Z.of_nat k -> ld n (st k a 0 mm) x = 0.
Proof.
  revert x. induction n as [|n IH]; intros x Hx Hk; [done|]. cbn [ld]. rewrite IH, ldb_st by lia.
  rewrite (proj2 (Z.leb_le _ _)), (proj2 (Z.ltb_lt _ _)) by lia. cbn [andb]. by rewrite Z.div_0_l by (apply Z.pow_nonzero; lia).
Qed.

(** Entries of tables do not overlap. *)
Lemma entries_apart f g i j : frame_ok f -> frame_ok g -> 0 <= i < 512 -> 0 <= j < 512 -> f <> g \/ i <> j ->
  entry_at f i + 8 <= entry_at g j \/ entry_at g j + 8 <= entry_at f i.
Proof.
  intros [Hf _] [Hg _] Hi Hj Hne. unfold entry_at. pose proof (Z.div_mod f 4096). pose proof (Z.div_mod g 4096).
  destruct (Z.lt_trichotomy (f / 4096) (g / 4096)) as [?|[?|?]]; lia.
Qed.

(** ** The tree of tables

    [tabs] has the table of level [l] (3 is the root) for the pages whose number
    starts with [p]; [A] are the pages mapped. *)
Abbreviation aspace := (gmap Z (Z * Z)).

Definition entry_ok (mm : gmap Z Z) (tabs : gmap (Z * Z) Z) (A : aspace) (l n a : Z) : Prop :=
  if l =? 0 then match A !! n with Some (pa, fl) => marks (ld 8 mm a) (new_page pa fl false) | None => ld 8 mm a = 0 end
  else match tabs !! (l - 1, n) with Some f => marks (ld 8 mm a) (new_table f) | None => ld 8 mm a = 0 end.

Record tree (own : Z -> Prop) (root : Z) (mm : gmap Z Z) (tabs : gmap (Z * Z) Z) (A : aspace) : Prop := {
  tr_root : tabs !! (3, 0) = Some root;
  tr_inj : forall k k' f, tabs !! k = Some f -> tabs !! k' = Some f -> k = k';
  tr_entries : forall l p f i, tabs !! (l, p) = Some f -> 0 <= i < 512 -> (l = 3 -> own i) -> entry_ok mm tabs A l (p * 512 + i) (entry_at f i);
  tr_level : forall l p f, tabs !! (l, p) = Some f -> 0 <= l <= 3 /\ 0 <= p /\ (l = 3 -> p = 0) /\ (l < 3 -> is_Some (tabs !! (l + 1, p / 512)));
  tr_pages : forall v x, A !! v = Some x -> is_Some (tabs !! (0, v / 512)) /\ frame_ok x.1 /\ flags_ok x.2;
}.

Record pt_inv (own : Z -> Prop) (s : pts) (tabs : gmap (Z * Z) Z) (A : aspace) : Prop := {
  pi_tree : tree own (root_paddr s.1) (w_mem s.2) tabs A;
  pi_free : fla_ok (w_free s.2);
  pi_owned : forall k f, tabs !! k = Some f -> owned (w_free s.2) f;
  pi_wf : mem_wf (w_mem s.2);
  pi_list : NoDup (intrm_tables s.1) /\ forall f, f ∈ intrm_tables s.1 <-> exists k, tabs !! k = Some f;
}.

(** The number of the page of an address. *)
Definition page_no (vaddr : Z) : Z := Z.shiftr vaddr 12 mod 2 ^ 36.

Lemma page_no_range va : 0 <= page_no va < 2 ^ 36.
Proof. apply Z.mod_pos_bound. lia. Qed.

Lemma index_of va k : 0 <= k <= 27 -> Z.land (Z.shiftr va (12 + k)) (ENTRY_COUNT - 1) = (page_no va / 2 ^ k) mod 512.
Proof.
  intros Hk. change (ENTRY_COUNT - 1) with (Z.ones 9). change 512 with (2 ^ 9). unfold page_no. rewrite <- !Z.land_ones, <- Z.shiftr_div_pow2 by lia.
  bitwise i Hi. rewrite !Z.shiftr_spec by lia. rewrite ?Z.land_spec, ?Z.shiftr_spec by lia. destruct (Z.ltb_spec i 9).
  - rewrite (Z.ones_spec_low 36) by lia. rewrite andb_true_r. do 2 f_equal. lia.
  - by rewrite (Z.ones_spec_high 9), !andb_false_r by lia.
Qed.

(** The four indices are the digits of the page number. *)
Lemma indices va : let v := page_no va in
  p4_index va = v / 512 / 512 / 512 /\ p3_index va = v / 512 / 512 mod 512 /\ p2_index va = v / 512 mod 512 /\ p1_index va = v mod 512.
Proof.
  cbv zeta. pose proof (page_no_range va) as Hv. unfold p4_index, p3_index, p2_index, p1_index.
  change (Z.shiftr va 12) with (Z.shiftr va (12 + 0)). rewrite !index_of by lia. rewrite !Z.div_div by lia.
  change (2 ^ 0) with 1. rewrite Z.div_1_r. change (2 ^ 27) with (512 * (512 * 512)). change (2 ^ 18) with (512 * 512). change (2 ^ 9) with 512.
  split; [|done]. rewrite Z.mod_small; [f_equal; lia|]. split; [apply Z.div_pos; lia|apply Z.div_lt_upper_bound; lia].
Qed.

Section inv.
  Context (own : Z -> Prop) (s : pts) (tabs : gmap (Z * Z) Z) (A : aspace) (H : pt_inv own s tabs A).

Lemma table_frame k f : tabs !! k = Some f -> frame_ok f.
Proof. intros Hk. apply (pi_owned _ _ _ _ H k f Hk). Qed.

Lemma next_table_ok l p f i : tabs !! (l, p) = Some f -> 1 <= l -> 0 <= i < 512 -> (l = 3 -> own i) ->
  next_table_mut s.2 (entry_at f i) = Some (tabs !! (l - 1, p * 512 + i)).
Proof.
  intros Hf Hl Hi Ho. pose proof (tr_entries _ _ _ _ _ (pi_tree _ _ _ _ H) l p f i Hf Hi Ho) as He. unfold entry_ok in He.
  rewrite (proj2 (Z.eqb_neq l 0)) in He by lia. unfold next_table_mut, read_entry. destruct (tabs !! (l - 1, p * 512 + i)) as [f'|] eqn:E.
  - destruct (read_table _ f' (table_frame _ _ E) He) as (_ & -> & -> & ->). done.
  - by rewrite He.
Qed.

(** The levels above a table. *)
Lemma table_up l p f : tabs !! (l, p) = Some f -> l < 3 -> exists g, tabs !! (l + 1, p / 512) = Some g.
Proof. intros Hf Hl. destruct (tr_level _ _ _ _ _ (pi_tree _ _ _ _ H) l p f Hf) as (_ & _ & _ & Hup). destruct (Hup Hl) as [g Hg]. eauto. Qed.

Lemma digits v : v / 512 * 512 + v mod 512 = v.
Proof. pose proof (Z.div_mod v 512). lia. Qed.
Lemma digit v : 0 <= v mod 512 < 512.
Proof. apply Z.mod_pos_bound. lia. Qed.

Lemma get_entry_ok va : let v := page_no va in own (v / 512 / 512 / 512) ->
  get_entry_mut va s = Some (match tabs !! (0, v / 512) with Some f => Some (entry_at f (v mod 512)) | None => None end).
Proof.
  cbv zeta. intros Hown. destruct (indices va) as (E4 & E3 & E2 & E1). pose proof (page_no_range va) as Hr. set (v := page_no va) in *.
  assert (Hd : v / 512 / 512 / 512 < 512) by (rewrite !Z.div_div by lia; apply Z.div_lt_upper_bound; lia).
  assert (Hp : 0 <= v / 512 / 512 / 512) by (repeat apply Z.div_pos; lia).
  unfold get_entry_mut. cbv zeta. rewrite E4, E3, E2, E1.
  pose proof (next_table_ok 3 0 _ (v / 512 / 512 / 512) (tr_root _ _ _ _ _ (pi_tree _ _ _ _ H)) ltac:(lia) ltac:(lia) (fun _ => Hown)) as N4.
  rewrite N4. change (3 - 1) with 2. rewrite Z.mul_0_l, Z.add_0_l. cbn [mbind option_bind].
  assert (Hnone : forall l p f, tabs !! (l, p) = Some f -> l < 3 -> tabs !! (l + 1, p / 512) <> None).
  { intros l p f Hf Hl. destruct (table_up l p f Hf Hl) as [g ->]. done. }
  destruct (tabs !! (2, v / 512 / 512 / 512)) as [f3|] eqn:E3'.
  2:{ destruct (tabs !! (0, v / 512)) as [f|] eqn:F; [|done]. exfalso. destruct (table_up _ _ _ F ltac:(lia)) as [g G]. by apply (Hnone _ _ _ G). }
  pose proof (next_table_ok 2 _ _ _ E3' ltac:(lia) (digit (v / 512 / 512)) ltac:(lia)) as N3. rewrite N3.
  change (2 - 1) with 1. rewrite digits. cbn [mbind option_bind]. destruct (tabs !! (1, v / 512 / 512)) as [f2|] eqn:E2'.
  2:{ destruct (tabs !! (0, v / 512)) as [f|] eqn:F; [|done]. exfalso. by apply (Hnone _ _ _ F). }
  pose proof (next_table_ok 1 _ _ _ E2' ltac:(lia) (digit (v / 512)) ltac:(lia)) as N2. rewrite N2.
  change (1 - 1) with 0. rewrite digits. cbn [mbind option_bind]. by destruct (tabs !! (0, v / 512)).
Qed.
End inv.

(** ** Writing an entry *)
Lemma marks_written a v mm : is_u 64 v -> Z.testbit v 5 = false -> Z.testbit v 6 = false -> marks (ld 8 (st 8 a v mm) a) v.
Proof.
  intros Hv H5 H6. rewrite ld_st_same, Z.mod_small by exact Hv. unfold marks. bitwise i Hi.
  change AD with (Z.lor (bit 5) (bit 6)). rewrite Z.lor_spec, !testbit_bit by lia.
  destruct (Z.eqb_spec i 5) as [->|]; [by rewrite H5|]. destruct (Z.eqb_spec i 6) as [->|]; [by rewrite H6|]. by rewrite andb_true_r.
Qed.

Lemma frame_bit_false f i : frame_ok f -> i < 12 \/ 40 <= i -> Z.testbit f i = false.
Proof. intros Hf Hi. destruct (Z.testbit f i) eqn:E; [|done]. pose proof (frame_bits f i Hf E). lia. Qed.

Lemma table_written a f mm : frame_ok f -> marks (ld 8 (st 8 a (new_table f) mm) a) (new_table f).
Proof.
  intros Hf. apply marks_written.
  - apply is_u_of_bits; [lia|apply Z.lor_nonneg; split; [done|]; rewrite frame_mask by done; apply Hf|].
    intros i Hi. rewrite table_bit by (done || lia). rewrite (proj2 (Z.ltb_ge _ _)), frame_bit_false by (done || lia). done.
  - by rewrite table_bit, frame_bit_false by (done || lia).
  - by rewrite table_bit, frame_bit_false by (done || lia).
Qed.

Lemma ptf_nonneg fl : flags_ok fl -> 0 <= ptf_of fl < 2 ^ 64.
Proof.
  intros Hf. assert (H : forallb (fun fl => (0 <=? ptf_of fl) && (ptf_of fl <? 2 ^ 64)) (seqZ 1 31) = true) by (by vm_compute).
  rewrite forallb_forall in H. specialize (H fl ltac:(apply list_elem_of_In, elem_of_seqZ; unfold flags_ok in Hf; lia)). lia.
Qed.

Lemma page_written a pa fl mm : frame_ok pa -> flags_ok fl -> marks (ld 8 (st 8 a (new_page pa fl false) mm) a) (new_page pa fl false).
Proof.
  intros Hp Hf. pose proof (ptf_nonneg fl Hf) as Hn. apply marks_written.
  - apply is_u_of_bits; [lia|apply Z.lor_nonneg; split; [apply Hn|]; rewrite frame_mask by done; apply Hp|].
    intros i Hi. rewrite page_bit, (is_u_testbit_high 64 (ptf_of fl)), (frame_bit_false pa) by (done || lia). done.
  - by rewrite page_bit, ptf_bit, (frame_bit_false pa) by (done || lia).
  - by rewrite page_bit, ptf_bit, (frame_bit_false pa) by (done || lia).
Qed.

Lemma key_split p i p' j : 0 <= i < 512 -> 0 <= j < 512 -> p' * 512 + j = p * 512 + i -> p' = p /\ j = i.
Proof. lia. Qed.

Lemma more_tables (tabs : gmap (Z * Z) Z) k k' f : is_Some (tabs !! k) -> is_Some (<[k' := f]> tabs !! k).
Proof. rewrite lookup_insert_is_Some'. auto. Qed.

(** The entries of other tables do not change when a table is cleared and
    entered. *)
Lemma ld_elsewhere f g fr i j mm v : frame_ok f -> frame_ok g -> frame_ok fr -> g <> fr -> 0 <= i < 512 -> 0 <= j < 512 -> (g <> f \/ j <> i) ->
  ld 8 (st 8 (entry_at f i) v (st (Z.to_nat PAGE_SIZE) fr 0 mm)) (entry_at g j) = ld 8 mm (entry_at g j).
Proof.
  intros Hf Hg Hfr Hne Hi Hj Hd. pose proof (entries_apart g f j i Hg Hf Hj Hi Hd) as Hap. rewrite ld_st_ne by (cbn; lia).
  apply ld_st_ne. rewrite Z2Nat.id by done. unfold PAGE_SIZE, entry_at. destruct Hg as [Hg _], Hfr as [Hfr _].
  pose proof (Z.div_mod g 4096). pose proof (Z.div_mod fr 4096). destruct (Z.lt_trichotomy (g / 4096) (fr / 4096)) as [?|[?|?]]; lia.
Qed.

(** A new, empty table. *)
Lemma tree_table own root mm tabs A l p f i fr : tree own root mm tabs A -> (forall k g, tabs !! k = Some g -> frame_ok g) ->
  tabs !! (l, p) = Some f -> 1 <= l -> 0 <= i < 512 -> tabs !! (l - 1, p * 512 + i) = None ->
  frame_ok fr -> (forall k, tabs !! k <> Some fr) ->
  tree own root (st 8 (entry_at f i) (new_table fr) (st (Z.to_nat PAGE_SIZE) fr 0 mm)) (<[(l - 1, p * 512 + i) := fr]> tabs) A.
Proof.
  intros [Hroot Hinj Hent Hlev Hpag] Hok Hf Hl Hi Hnone Hfr Hfresh. set (n := p * 512 + i) in *. set (mm1 := st (Z.to_nat PAGE_SIZE) fr 0 mm).
  destruct (Hlev _ _ _ Hf) as (Hlr & Hp0 & _ & _).
  assert (Hdiv : n / 512 = p) by (unfold n; rewrite Z.div_add_l, Z.div_small by lia; lia).
  assert (Hold : forall k g, tabs !! k = Some g -> k <> (l - 1, n)) by (intros k g Hk ->; congruence).
  pose proof (fun g j => ld_elsewhere f g fr i j mm (new_table fr) (Hok _ _ Hf)) as Hmem. fold mm1 in Hmem.
  split.
  - rewrite lookup_insert_ne; [done|]. intros [= E1 E2]. lia.
  - intros k k' g Hk Hk'. destruct (decide (k = (l - 1, n))) as [->|H1], (decide (k' = (l - 1, n))) as [->|H2]; [done| | |].
    + rewrite lookup_insert_eq in Hk. injection Hk as <-. rewrite lookup_insert_ne in Hk' by done. by destruct (Hfresh k').
    + rewrite lookup_insert_eq in Hk'. injection Hk' as <-. rewrite lookup_insert_ne in Hk by done. by destruct (Hfresh k).
    + rewrite lookup_insert_ne in Hk, Hk' by done. by eapply Hinj.
  - intros l' p' g j Hg Hj Ho. destruct (decide ((l', p') = (l - 1, n))) as [[= -> ->]|Hk].
    + rewrite lookup_insert_eq in Hg. injection Hg as <-.
      assert (Hz : ld 8 (st 8 (entry_at f i) (new_table fr) mm1) (entry_at fr j) = 0).
      { destruct (entries_apart fr f j i Hfr (Hok _ _ Hf) Hj Hi) as [?|?]; [left; intros ->; by apply (Hfresh (l, p))| |];
        rewrite ld_st_ne by (cbn; lia); apply ld_zeroed; rewrite ?Z2Nat.id by done; unfold entry_at, PAGE_SIZE; cbn; lia. }
      unfold entry_ok. destruct (Z.eqb_spec (l - 1) 0) as [E0|Hne0].
      * destruct (A !! (n * 512 + j)) as [x|] eqn:EA; [|done]. destruct (Hpag _ _ EA) as [[g Hg] _].
        rewrite Z.div_add_l, Z.div_small, Z.add_0_r in Hg by lia. rewrite <- E0 in Hg. congruence.
      * rewrite lookup_insert_ne by (intros [= E1 E2]; lia). destruct (tabs !! (l - 1 - 1, n * 512 + j)) as [g|] eqn:Eg; [|done].
        destruct (Hlev _ _ _ Eg) as (_ & _ & _ & Hup). destruct (Hup ltac:(lia)) as [g' Hg'].
        rewrite Z.div_add_l, Z.div_small, Z.add_0_r in Hg' by lia. replace (l - 1 - 1 + 1) with (l - 1) in Hg' by lia. congruence.
    + rewrite lookup_insert_ne in Hg by done. pose proof (Hent l' p' g j Hg Hj Ho) as He. unfold entry_ok in *.
      destruct (decide (g = f /\ j = i)) as [[-> ->]|Hd].
      * pose proof (Hinj _ _ _ Hg Hf) as [= -> ->]. rewrite (proj2 (Z.eqb_neq l 0)) by lia. fold n. rewrite lookup_insert_eq. by apply table_written.
      * rewrite Hmem; [| by eapply Hok | done | intros ->; by apply (Hfresh (l', p')) | done | done | destruct (Z.eq_dec g f); [right; tauto|by left]].
        destruct (Z.eqb_spec l' 0) as [->|Hl0]; [done|]. rewrite lookup_insert_ne; [done|]. intros [= E1 E2]. assert (l' = l) by lia. subst l'.
        destruct (key_split p i p' j Hi Hj (eq_sym E2)) as [-> ->]. apply Hd. split; [congruence|done].
  - intros l' p' g Hg. destruct (decide ((l', p') = (l - 1, n))) as [[= -> ->]|Hk].
    + split; [lia|]. split; [unfold n; lia|]. split; [lia|]. intros _. rewrite lookup_insert_ne by (intros [= E1 E2]; lia). replace (l - 1 + 1) with l by lia. rewrite Hdiv, Hf. eauto.
    + rewrite lookup_insert_ne in Hg by done. destruct (Hlev _ _ _ Hg) as (? & ? & ? & Hup). split; [done|]. split; [done|]. split; [done|]. intros Hlt. by apply more_tables, Hup.
  - intros v x Hv. destruct (Hpag _ _ Hv) as [Hs Hx]. split; [by apply more_tables|done].
Qed.

#[local] Arguments st : simpl never.
#[local] Arguments ld : simpl never.

(** ** What an operation may change

    The frame has the contents it had. *)
Definition same_frame (mm mm' : gmap Z Z) (f : Z) : Prop := forall a, f <= a < f + 4096 -> ldb mm' a = ldb mm a.

(** The tables may have grown by frames that were free; nothing in use but the
    tables has changed, nor has the part of the root that is shared. *)
Record grows (own : Z -> Prop) (s s' : pts) (tabs tabs' : gmap (Z * Z) Z) : Prop := {
  gr_root : root_paddr s'.1 = root_paddr s.1;
  gr_tabs : forall k f, tabs !! k = Some f -> tabs' !! k = Some f;
  gr_owned : forall f, owned (w_free s'.2) f <-> owned (w_free s.2) f \/ exists k, tabs' !! k = Some f;
  gr_fresh : forall k f, tabs' !! k = Some f -> tabs !! k = Some f \/ ~ owned (w_free s.2) f;
  gr_mem : forall f, owned (w_free s.2) f -> (forall k, tabs !! k <> Some f) -> same_frame (w_mem s.2) (w_mem s'.2) f;
  gr_shared : tabs !! (3, 0) = Some (root_paddr s.1) -> forall i, 0 <= i < 512 -> ~ own i ->
    ld 8 (w_mem s'.2) (entry_at (root_paddr s.1) i) = ld 8 (w_mem s.2) (entry_at (root_paddr s.1) i);
  gr_space : available_space (w_free s'.2) + Z.of_nat (length (intrm_tables s'.1)) = available_space (w_free s.2) + Z.of_nat (length (intrm_tables s.1));
}.

Lemma grows_refl own s tabs A : pt_inv own s tabs A -> grows own s s tabs tabs.
Proof.
  intros H. split; try done; auto. intros f. split; [auto|]. intros [?|[k Hk]]; [done|]. by apply (pi_owned _ _ _ _ H k).
Qed.

Lemma grows_trans own s s1 s2 t t1 t2 : grows own s s1 t t1 -> grows own s1 s2 t1 t2 -> grows own s s2 t t2.
Proof.
  intros [R1 T1 O1 F1 M1 D1 S1] [R2 T2 O2 F2 M2 D2 S2]. split.
  - congruence.
  - eauto.
  - intros f. rewrite O2, O1. split; [intros [[?|[k Hk]]|?]; eauto|intros [?|?]; auto].
  - intros k f Hk. destruct (F2 k f Hk) as [Hk1|Hn]; [by apply F1|]. right. intros Ho. apply Hn, O1. auto.
  - intros f Ho Hn a Ha. rewrite M2, M1; try done; [apply O1; auto|]. intros k Hk. destruct (F1 k f Hk) as [?|?]; [by apply (Hn k)|done].
  - intros Hr i Hi Hno. rewrite <- (D1 Hr i Hi Hno), <- R1. apply D2; [|done..]. rewrite R1. by apply T1.
  - lia.
Qed.

Lemma frames_apart f g : frame_ok f -> frame_ok g -> f <> g -> f + 4096 <= g \/ g + 4096 <= f.
Proof. intros [Hf _] [Hg _] Hne. pose proof (Z.div_mod f 4096). pose proof (Z.div_mod g 4096). destruct (Z.lt_trichotomy (f / 4096) (g / 4096)) as [?|[?|?]]; lia. Qed.

Lemma ldb_outside n a v mm x : x < a \/ a + Z.of_nat n <= x -> ldb (st n a v mm) x = ldb mm x.
Proof. intros Hx. rewrite ldb_st. destruct (Z.leb_spec a x), (Z.ltb_spec x (a + Z.of_nat n)); try lia; done. Qed.

Lemma same_frame_entry g mm f i v : frame_ok f -> frame_ok g -> f <> g -> 0 <= i < 512 -> same_frame mm (st 8 (entry_at g i) v mm) f.
Proof. intros Hf Hg Hne Hi a Ha. apply ldb_outside. pose proof (frames_apart f g Hf Hg Hne). unfold entry_at. cbn. lia. Qed.

Lemma same_frame_zero g mm f : frame_ok f -> frame_ok g -> f <> g -> same_frame mm (st (Z.to_nat PAGE_SIZE) g 0 mm) f.
Proof. intros Hf Hg Hne a Ha. apply ldb_outside. rewrite Z2Nat.id by done. pose proof (frames_apart f g Hf Hg Hne). unfold PAGE_SIZE. lia. Qed.

Lemma create_ok own s tabs A l p f i : pt_inv own s tabs A -> tabs !! (l, p) = Some f -> 1 <= l -> 0 <= i < 512 -> (l = 3 -> own i) ->
  0 < available_space (w_free s.2) ->
  exists f' s' tabs', next_table_mut_or_create (entry_at f i) s = Some (Some f', s') /\ pt_inv own s' tabs' A /\
    tabs' !! (l - 1, p * 512 + i) = Some f' /\ grows own s s' tabs tabs' /\
    available_space (w_free s.2) - 1 <= available_space (w_free s'.2) /\ (is_Some (tabs !! (l - 1, p * 512 + i)) -> s' = s /\ tabs' = tabs).
Proof.
  intros H Hf Hl Hi Ho Hav. pose proof (tr_entries _ _ _ _ _ (pi_tree _ _ _ _ H) l p f i Hf Hi Ho) as He. unfold entry_ok in He.
  rewrite (proj2 (Z.eqb_neq l 0)) in He by lia. unfold next_table_mut_or_create, read_entry.
  destruct (tabs !! (l - 1, p * 512 + i)) as [f'|] eqn:E.
  - destruct (read_table _ f' (table_frame own s tabs A H _ _ E) He) as (-> & _). rewrite (next_table_ok own s tabs A H l p f i Hf Hl Hi Ho), E. cbn.
    exists f', s, tabs. split_and!; try (done || lia). by eapply grows_refl.
  - rewrite He. change (is_unused 0) with true. cbn iota. destruct s as [pt w]. cbn [fst snd] in *.
    destruct (fla_alloc_ok (w_free w) (pi_free _ _ _ _ H) Hav) as (n & a' & Ea & Hok' & Hnew & Hown & Hn & Hkeep & Hsp).
    destruct (frame_number n Hn) as (Hfr & Epa & _). unfold alloc_intrm_table, frame_alloc_zero. rewrite Ea, Epa. cbn.
    assert (Hfresh : forall k, tabs !! k <> Some (n * 4096)) by (intros k Hk; apply Hnew, (pi_owned _ _ _ _ H k _ Hk)).
    assert (Hins : forall k g, <[(l - 1, p * 512 + i) := n * 4096]> tabs !! k = Some g <-> k = (l - 1, p * 512 + i) /\ g = n * 4096 \/ tabs !! k = Some g).
    { intros k g. rewrite lookup_insert_Some. split; [intros [[<- <-]|[_ ?]]; auto|]. intros [[-> ->]|Hk]; [auto|]. right. split; [|done]. intros <-. congruence. }
    eexists _, _, (<[(l - 1, p * 512 + i) := n * 4096]> tabs). split; [reflexivity|]. split; [|split; [by rewrite lookup_insert_eq|split; [|split; [cbn; lia|by intros [? ?]]]]].
    + split; cbn.
      * apply tree_table; try done; [apply H|by apply table_frame with (1 := H)].
      * done.
      * intros k g [[_ ->]|Hk]%Hins; [done|]. apply Hkeep. left. apply (pi_owned _ _ _ _ H k g Hk).
      * apply (mem_wf_st 8), (mem_wf_st (Z.to_nat PAGE_SIZE)), H.
      * destruct (pi_list _ _ _ _ H) as [Hnd Hin]. cbn [fst] in *. split.
        -- apply list.NoDup_app. split; [done|]. split; [|apply NoDup_singleton]. intros x Hx Hx'%list_elem_of_singleton. apply Hin in Hx as [k Hk]. subst x. by apply (Hfresh k).
        -- intros g. rewrite elem_of_app, list_elem_of_singleton, Hin. split.
           ++ intros [[k Hk]| ->]; eexists; apply Hins; eauto.
           ++ intros [k [[_ ->]|Hk]%Hins]; eauto.
    + split; [cbn..| |cbn].
      * done.
      * intros k g Hk. apply Hins. auto.
      * intros g. rewrite Hkeep. split; [intros [?| ->]; [auto|right; eexists; apply Hins; auto]|].
        intros [?|[k [[_ ->]|Hk]%Hins]]; auto. left. by apply (pi_owned _ _ _ _ H k).
      * intros k g [[_ ->]|Hk]%Hins; auto.
      * intros g Hg Hno a Ha. pose proof (proj1 Hg) as Hgf. assert (g <> f) by (intros ->; by apply (Hno (l, p))). assert (g <> n * 4096) by (intros ->; done).
        etransitivity; [apply (same_frame_entry f _ g i); [done|by apply (table_frame own _ tabs A H (l, p))|done..]|exact (same_frame_zero (n * 4096) (w_mem w) g Hgf Hfr ltac:(done) a Ha)].
      * cbn [fst snd root_paddr]. intros Hrt j Hj Hnj. apply (ld_elsewhere f (root_paddr pt) (n * 4096) i j (w_mem w) (new_table (n * 4096)));
          [by apply (table_frame own _ tabs A H (l, p))|by apply (table_frame own _ tabs A H (3, 0))|exact Hfr|intros Er; rewrite Er in Hrt; by apply (Hfresh (3, 0))|exact Hi|exact Hj|].
        destruct (Z.eq_dec (root_paddr pt) f) as [Ef|Ef]; [right|left; exact Ef]. intros ->. apply Hnj, Ho. rewrite Ef in Hrt. by injection (tr_inj _ _ _ _ _ (pi_tree _ _ _ _ H) _ _ _ Hf Hrt).
      * rewrite length_app. cbn. lia.
Qed.

Lemma get_or_create_ok own va s tabs A : pt_inv own s tabs A -> own (page_no va / 512 / 512 / 512) -> 3 <= available_space (w_free s.2) ->
  exists f s' tabs', get_entry_mut_or_create va s = Some (Some (entry_at f (page_no va mod 512)), s') /\ pt_inv own s' tabs' A /\
    tabs' !! (0, page_no va / 512) = Some f /\ grows own s s' tabs tabs' /\ available_space (w_free s.2) - 3 <= available_space (w_free s'.2) /\
    (is_Some (tabs !! (0, page_no va / 512)) -> s' = s).
Proof.
  intros H Hown Hav. destruct (indices va) as (E4 & E3 & E2 & E1). pose proof (page_no_range va) as Hr. set (v := page_no va) in *.
  assert (Hd : v / 512 / 512 / 512 < 512) by (rewrite !Z.div_div by lia; apply Z.div_lt_upper_bound; lia).
  assert (Hp : 0 <= v / 512 / 512 / 512) by (repeat apply Z.div_pos; lia).
  unfold get_entry_mut_or_create. rewrite E4, E3, E2, E1. cbv zeta.
  destruct (create_ok own s tabs A 3 0 _ (v / 512 / 512 / 512) H (tr_root _ _ _ _ _ (pi_tree _ _ _ _ H)) ltac:(lia) ltac:(lia) (fun _ => Hown) ltac:(lia))
    as (f3 & s3 & t3 & -> & H3 & F3 & G3 & A3 & K3). rewrite Z.mul_0_l, Z.add_0_l in F3, K3. change (3 - 1) with 2 in F3, K3. cbn [mbind option_bind].
  destruct (create_ok own s3 t3 A 2 _ _ _ H3 F3 ltac:(lia) (digit (v / 512 / 512)) ltac:(lia) ltac:(lia)) as (f2 & s2 & t2 & -> & H2 & F2 & G2 & A2 & K2).
  rewrite digits in F2, K2. change (2 - 1) with 1 in F2, K2. cbn [mbind option_bind].
  destruct (create_ok own s2 t2 A 1 _ _ _ H2 F2 ltac:(lia) (digit (v / 512)) ltac:(lia) ltac:(lia)) as (f1 & s1 & t1 & -> & H1 & F1 & G1 & A1 & K1).
  rewrite digits in F1, K1. change (1 - 1) with 0 in F1, K1. cbn [mbind option_bind]. exists f1, s1, t1. split_and!; try (done || lia); [by do 2 (eapply grows_trans; [eassumption|])|].
  intros [f Hf]. destruct (table_up own s tabs A H 0 _ _ Hf ltac:(lia)) as [g Hg]. destruct (table_up own s tabs A H 1 _ _ Hg ltac:(lia)) as [h Hh].
  destruct (K3 (mk_is_Some _ _ Hh)) as [-> ->]. destruct (K2 (mk_is_Some _ _ Hg)) as [-> ->]. by destruct (K1 (mk_is_Some _ _ Hf)) as [-> ->].
Qed.

(** A leaf entry. *)
Lemma tree_leaf own root mm tabs A A' v f e : tree own root mm tabs A -> (forall k g, tabs !! k = Some g -> frame_ok g) ->
  tabs !! (0, v / 512) = Some f -> (forall w, w <> v -> A' !! w = A !! w) ->
  (forall x, A' !! v = Some x -> frame_ok x.1 /\ flags_ok x.2) ->
  let mm' := st 8 (entry_at f (v mod 512)) e mm in
  match A' !! v with Some (pa, fl) => marks (ld 8 mm' (entry_at f (v mod 512))) (new_page pa fl false) | None => ld 8 mm' (entry_at f (v mod 512)) = 0 end ->
  tree own root mm' tabs A'.
Proof.
  intros [Hroot Hinj Hent Hlev Hpag] Hok Hf Hother Hnew mm' Hv. split; try done.
  - intros l p g j Hg Hj Ho. pose proof (Hent l p g j Hg Hj Ho) as He. destruct (decide (g = f /\ j = v mod 512)) as [[-> ->]|Hd].
    + pose proof (Hinj _ _ _ Hg Hf) as [= -> ->]. unfold entry_ok. cbn [Z.eqb]. rewrite digits. exact Hv.
    + assert (Em : ld 8 mm' (entry_at g j) = ld 8 mm (entry_at g j)).
      { unfold mm'. pose proof (entries_apart g f j (v mod 512) (Hok _ _ Hg) (Hok _ _ Hf) Hj (digit v)) as Hap.
        apply ld_st_ne. destruct Hap; [destruct (Z.eq_dec g f); [right; tauto|by left]|cbn; lia|cbn; lia]. }
      unfold entry_ok in *. rewrite Em. destruct (Z.eqb_spec l 0) as [->|]; [|done]. rewrite Hother; [done|].
      intros E. rewrite <- (digits v) in E. apply key_split in E as [-> ->]; [|apply digit|done]. apply Hd. split; [congruence|done].
  - intros w x Hw. destruct (Z.eq_dec w v) as [->|Hne]; [split; [eauto|by apply Hnew]|]. rewrite Hother in Hw by done. by apply Hpag.
Qed.

Lemma align_down_frame pa : 0 <= pa < 2 ^ 40 -> frame_ok (align_down pa PAGE_SIZE) /\ align_down pa PAGE_SIZE = pa / 4096 * 4096.
Proof.
  intros Hp. unfold align_down, PAGE_SIZE. change (0x1000 - 1) with (Z.ones 12). rewrite <- Z.ldiff_land, Z.ldiff_ones_r by lia.
  rewrite Z.shiftr_div_pow2, Z.shiftl_mul_pow2 by lia. change (2 ^ 12) with 4096. split; [|done].
  pose proof (Z.div_mod pa 4096). pose proof (Z.mod_pos_bound pa 4096). split; [apply Z.mod_mul; lia|]. split; [|lia]. assert (0 <= pa / 4096) by (apply Z.div_pos; lia). lia.
Qed.

(** ** The operations *)
Lemma grows_write own s tabs A k f i e : pt_inv own s tabs A -> tabs !! k = Some f -> 0 <= i < 512 -> k.1 < 3 ->
  grows own s (s.1, write_entry (entry_at f i) e s.2) tabs tabs.
Proof.
  intros H Hf Hi Hk. destruct (grows_refl own s tabs A H) as [_ _ O F _ _ _]. pose proof (table_frame own s tabs A H k f Hf) as Hff. split; try done.
  - intros g Hg Hno. apply same_frame_entry; [apply Hg|done|intros ->; by apply (Hno k)|done].
  - intros Hrt j Hj _. apply (ld_st_ne 8 8). change (Z.of_nat 8) with 8. apply (entries_apart f _ i j); try done; [by apply (table_frame own s tabs A H (3, 0))|].
    left. intros Ef. rewrite <- Ef in Hrt. pose proof (tr_inj _ _ _ _ _ (pi_tree _ _ _ _ H) _ _ _ Hf Hrt) as ->. cbn in Hk. lia.
Qed.

(** The part of the root table an address uses. *)
Definition top (va : Z) : Z := page_no va / 512 / 512 / 512.

Section ops.
  Context (own : Z -> Prop) (s : pts) (tabs : gmap (Z * Z) Z) (A : aspace) (H : pt_inv own s tabs A).

Lemma pt_map_ok va pa fl : own (top va) -> 3 <= available_space (w_free s.2) -> 0 <= pa < 2 ^ 40 -> flags_ok fl ->
  match A !! page_no va with
  | Some _ => pt_map va pa fl s = None
  | None => exists s' tabs', pt_map va pa fl s = Some s' /\ grows own s s' tabs tabs' /\
      available_space (w_free s.2) - 3 <= available_space (w_free s'.2) /\ (is_Some (tabs !! (0, page_no va / 512)) -> w_free s'.2 = w_free s.2) /\
      pt_inv own s' tabs' (<[page_no va := (align_down pa PAGE_SIZE, fl)]> A)
  end.
Proof.
  intros Ho Hav Hpa Hfl. unfold pt_map. destruct (get_or_create_ok own va s tabs A H Ho Hav) as (f & [pt w] & t & -> & H' & Hf & Hr & Ha & Hk).
  cbn [mbind option_bind fst snd] in *. pose proof (tr_entries _ _ _ _ _ (pi_tree _ _ _ _ H') 0 _ f _ Hf (digit (page_no va)) ltac:(lia)) as He.
  unfold entry_ok in He. cbn [Z.eqb fst snd] in He. rewrite digits in He. unfold read_entry. set (v := page_no va) in *.
  destruct (A !! v) as [[pa' fl']|] eqn:E.
  - destruct (tr_pages _ _ _ _ _ (pi_tree _ _ _ _ H') v _ E) as (_ & Hp & Hl). by destruct (read_page _ pa' fl' Hp Hl He) as (-> & _).
  - rewrite He. eexists _, t. split; [reflexivity|]. split; [eapply grows_trans; [exact Hr|exact (grows_write own (pt, w) t A _ f _ _ H' Hf (digit v) eq_refl)]|].
    split; [done|]. split; [intros Hl; specialize (Hk Hl); by subst s|]. destruct (align_down_frame pa Hpa) as [Hfr _].
    split; [|apply H'|apply H'|apply (mem_wf_st 8), H'|apply H']. apply (tree_leaf own _ (w_mem w) t A).
    + apply H'.
    + apply (table_frame _ _ _ _ H').
    + done.
    + intros u Hu. by rewrite lookup_insert_ne.
    + rewrite lookup_insert_eq. by intros x [= <-].
    + rewrite lookup_insert_eq. by apply page_written.
Qed.

Lemma leaf_read va f : tabs !! (0, page_no va / 512) = Some f ->
  match A !! page_no va with
  | Some (pa, fl) => frame_ok pa /\ flags_ok fl /\ marks (read_entry s.2 (entry_at f (page_no va mod 512))) (new_page pa fl false)
  | None => read_entry s.2 (entry_at f (page_no va mod 512)) = 0
  end.
Proof.
  intros Hf. pose proof (tr_entries _ _ _ _ _ (pi_tree _ _ _ _ H) 0 _ f _ Hf (digit (page_no va)) ltac:(lia)) as He. unfold entry_ok in He. cbn [Z.eqb] in He.
  rewrite digits in He. destruct (A !! page_no va) as [[pa fl]|] eqn:E; [|done].
  destruct (tr_pages _ _ _ _ _ (pi_tree _ _ _ _ H) _ _ E) as (_ & ? & ?). done.
Qed.

Lemma leaf_table va x : A !! page_no va = Some x -> exists f, tabs !! (0, page_no va / 512) = Some f.
Proof. intros E. by destruct (tr_pages _ _ _ _ _ (pi_tree _ _ _ _ H) _ _ E) as ([f ?] & _); eauto. Qed.

Lemma pt_unmap_ok va : own (top va) ->
  match A !! page_no va with
  | None => pt_unmap va s = None
  | Some _ => exists s', pt_unmap va s = Some s' /\ grows own s s' tabs tabs /\ w_free s'.2 = w_free s.2 /\ s'.1 = s.1 /\
      pt_inv own s' tabs (delete (page_no va) A)
  end.
Proof.
  intros Ho. unfold pt_unmap. rewrite (get_entry_ok own s tabs A H va Ho). cbv zeta. cbn [mbind option_bind]. pose proof (leaf_read va) as Hl. pose proof (leaf_table va) as Ht.
  destruct (A !! page_no va) as [[pa fl]|] eqn:E.
  - destruct (Ht _ eq_refl) as [f Hf]. rewrite Hf. cbn [mbind option_bind]. destruct (Hl f Hf) as (Hp & Hfl & Hm). destruct (read_page _ pa fl Hp Hfl Hm) as (-> & _).
    eexists. split; [reflexivity|]. split; [by eapply grows_write; [exact H|exact Hf|apply digit|]|]. split; [done|]. split; [done|].
    split; [|apply H|apply H|apply (mem_wf_st 8), H|apply H]. apply (tree_leaf own _ (w_mem s.2) tabs A).
    + apply H.
    + apply (table_frame _ _ _ _ H).
    + done.
    + intros u Hu. by rewrite lookup_delete_ne.
    + by rewrite lookup_delete_eq.
    + rewrite lookup_delete_eq, ld_st_same. done.
  - destruct (tabs !! (0, page_no va / 512)) as [f|]; [|done]. cbn [mbind option_bind]. by rewrite (Hl f eq_refl).
Qed.

Lemma pt_query_ok va : own (top va) -> pt_query va s =
  Some (match A !! page_no va with Some (pa, fl) => Some (pa + va mod 4096, Z.lor READ fl) | None => None end).
Proof.
  intros Ho. unfold pt_query. rewrite (get_entry_ok own s tabs A H va Ho). cbv zeta. cbn [mbind option_bind]. pose proof (leaf_read va) as Hl. pose proof (leaf_table va) as Ht.
  destruct (A !! page_no va) as [[pa fl]|] eqn:E.
  - destruct (Ht _ eq_refl) as [f Hf]. rewrite Hf. destruct (Hl f Hf) as (Hp & Hfl & Hm). destruct (read_page _ pa fl Hp Hfl Hm) as (-> & -> & ->).
    unfold page_offset, PAGE_SIZE, PhysAddr_new. change (0x1000 - 1) with (Z.ones 12). change PhysAddr_MAX with (Z.ones 40). rewrite !Z.land_ones by lia.
    change (2 ^ 12) with 4096. rewrite Z.mod_small; [done|]. destruct Hp as [Hp1 Hp2]. pose proof (Z.mod_pos_bound va 4096). pose proof (Z.div_mod pa 4096). lia.
  - destruct (tabs !! (0, page_no va / 512)) as [f|]; [|done]. by rewrite (Hl f eq_refl).
Qed.
End ops.

(** A fresh table maps nothing. *)
Lemma pt_new_ok own w : mem_wf (w_mem w) -> fla_ok (w_free w) -> 0 < available_space (w_free w) ->
  exists s, pt_new w = Some s /\ let tabs := {[(3, 0) := root_paddr s.1]} in pt_inv own s tabs ∅ /\
    grows own (mkPT (root_paddr s.1) [], w) s ∅ tabs /\ available_space (w_free s.2) = available_space (w_free w) - 1.
Proof.
  intros Hw Hok Hav. destruct (fla_alloc_ok _ Hok Hav) as (n & a' & Ea & Hok' & Hnew & Hown & Hn & Hkeep & Hsp).
  destruct (frame_number n Hn) as (Hfr & Epa & _). unfold pt_new, frame_alloc_zero. rewrite Ea, Epa. cbn.
  eexists. split; [reflexivity|]. cbn. split; [|split; [|done]].
  - split; cbn; [|exact Hok'| |apply (mem_wf_st (Z.to_nat PAGE_SIZE)), Hw|].
    + split.
      * apply lookup_singleton_eq.
      * intros k k' f [<- _]%lookup_singleton_Some [<- _]%lookup_singleton_Some. done.
      * intros l p f i [[= <- <-] <-]%lookup_singleton_Some Hi _. unfold entry_ok. cbn [Z.eqb]. rewrite lookup_singleton_ne by (intros [=]).
        apply ld_zeroed; cbn [w_mem]; unfold entry_at, PAGE_SIZE; lia.
      * intros l p f [[= <- <-] <-]%lookup_singleton_Some. split_and!; lia.
      * intros v x Hx. by rewrite lookup_empty in Hx.
    + intros k f [<- <-]%lookup_singleton_Some. done.
    + split; [apply NoDup_singleton|]. intros f. rewrite list_elem_of_singleton. split; [intros ->; exists (3, 0); apply lookup_singleton_eq|].
      by intros [k [_ <-]%lookup_singleton_Some].
  - split; cbn.
    + done.
    + intros k f Hk. by rewrite lookup_empty in Hk.
    + intros f. rewrite Hkeep. split; [intros [?| ->]; [auto|right; exists (3, 0); apply lookup_singleton_eq]|].
      intros [?|[k [_ <-]%lookup_singleton_Some]]; auto.
    + intros k f [_ <-]%lookup_singleton_Some. auto.
    + intros f Hf _. apply same_frame_zero; [apply Hf|done|intros ->; done].
    + intros Hrt. exfalso. rewrite lookup_empty in Hrt. discriminate Hrt.
    + lia.
Qed.

(** The processor marks an entry that is present as accessed or dirty. *)
Definition mark (a b : Z) (s : pts) : pts :=
  if (a mod 8 =? 0) && has (ld 8 (w_mem s.2) a) PG_PRESENT_MASK
  then (s.1, s.2 <| w_mem := st 8 a (Z.lor (ld 8 (w_mem s.2) a) (Z.land b AD)) (w_mem s.2) |>) else s.

Lemma ld_mark mm a b x : mem_wf mm -> a mod 8 = 0 -> x mod 8 = 0 -> has (ld 8 mm a) PG_PRESENT_MASK = true ->
  let e := ld 8 mm x in let e' := ld 8 (st 8 a (Z.lor (ld 8 mm a) (Z.land b AD)) mm) x in
  clr e' AD = clr e AD /\ (e = 0 -> e' = 0).
Proof.
  intros Hw Ha Hx Hp. cbv zeta. destruct (Z.eq_dec x a) as [->|Hne].
  - rewrite ld_st_same. change (256 ^ Z.of_nat 8) with (2 ^ 64). pose proof (ld_range 8 mm a Hw) as Hr. change (256 ^ Z.of_nat 8) with (2 ^ 64) in Hr.
    assert (E : Z.lor (ld 8 mm a) (Z.land b AD) mod 2 ^ 64 = Z.lor (ld 8 mm a) (Z.land b AD)).
    { apply Z.mod_small. assert (Hl : 0 <= Z.land b AD) by (apply Z.land_nonneg; right; done).
      apply (is_u_of_bits 64); [lia|apply Z.lor_nonneg; lia|]. intros i Hi.
      rewrite Z.lor_spec, Z.land_spec, (is_u_testbit_high 64), (is_u_testbit_high 7 AD), andb_false_r by (done || lia). done. }
    rewrite E. split; [apply clr_lor_ad; by rewrite <- Z.land_assoc, Z.land_lnot_diag, Z.land_0_r|]. intros E0. by rewrite E0 in Hp.
  - rewrite ld_st_ne; [done|]. cbn. pose proof (Z.div_mod a 8). pose proof (Z.div_mod x 8). lia.
Qed.

Lemma entry_mod8 f i : frame_ok f -> entry_at f i mod 8 = 0.
Proof. intros [Hf _]. unfold entry_at. pose proof (Z.div_mod f 4096). replace (f + 8 * i) with ((f / 4096 * 512 + i) * 8) by lia. apply Z.mod_mul. lia. Qed.

Lemma mark_ok own s tabs A a b : pt_inv own s tabs A -> pt_inv own (mark a b s) tabs A /\ root_paddr (mark a b s).1 = root_paddr s.1 /\ w_free (mark a b s).2 = w_free s.2.
Proof.
  intros H. unfold mark. destruct (Z.eqb_spec (a mod 8) 0) as [Ha|]; [|done]. destruct (has _ _) eqn:Hp; [|done]. split; [|done].
  pose proof (table_frame _ _ _ _ H) as Hfr. destruct s as [pt w], H as [[Hroot Hinj Hent Hlev Hpag] Hfree Hown Hwf Hlist].
  split; [|done|done|apply (mem_wf_st 8), Hwf|done]. split; try done. intros l p f i Hf Hi Ho. pose proof (Hent l p f i Hf Hi Ho) as He.
  destruct (ld_mark (w_mem w) a b (entry_at f i) Hwf Ha (entry_mod8 f i (Hfr _ _ Hf)) Hp) as [Ec E0].
  change (entry_ok (st 8 a (Z.lor (ld 8 (w_mem w) a) (Z.land b AD)) (w_mem w)) tabs A l (p * 512 + i) (entry_at f i)). unfold entry_ok, marks in *.
  cbn [snd] in He. revert He. destruct (l =? 0); [destruct (A !! _) as [[pa fl]|]|destruct (tabs !! (l - 1, _))]; first [exact E0 | by rewrite Ec].
Qed.

