(* ===== verification/PagingFacts.v ===== *)
(** * The page tables are an address space

    The tables the kernel builds are a finite map from pages to frames with
    flags: mapping, unmapping and asking do to the map what their names say, and
    the processor translates every address as the map tells. *)
From S2P Require Import Prelude Cpu Machine Mem Mmu MmuFacts Paging PagingTree.

(** ** The processor's view *)

(** What the reference walk of the processor needs of an entry: the reserved
    bits of the configuration are above the addresses the kernel uses. *)
Section walk.
  Context (own : Z -> Prop) (root : Z) (mm : gmap Z Z) (tabs : gmap (Z * Z) Z) (A : aspace) (T : tree own root mm tabs A).
  Context (Hfr : forall k f, tabs !! k = Some f -> frame_ok f).
  Context (rsvd : Z) (Hrs : forall i, Z.testbit rsvd i = true -> 40 <= i < 52).

Lemma has_none e mask : (forall i, 0 <= i -> Z.testbit e i = true -> Z.testbit mask i = true -> False) -> has e mask = false.
Proof.
  intros Hn. assert (E : Z.land e mask = 0); [|by rewrite E]. bitwise i Hi.
  destruct (Z.testbit e i) eqn:E1, (Z.testbit mask i) eqn:E2; try done. by destruct (Hn i).
Qed.

Lemma table_entry f : frame_ok f ->
  has (new_table f) PG_PRESENT_MASK = true /\ has (new_table f) (Z.lor rsvd PG_PSE_MASK) = false /\ has (new_table f) rsvd = false /\
  has (new_table f) PG_PSE_MASK = false /\ Z.land (new_table f) PG_ADDRESS_MASK = f.
Proof.
  intros Hf. assert (Hb : forall i, 0 <= i -> Z.testbit (new_table f) i = true -> i < 3 \/ 12 <= i < 40).
  { intros i Hi. rewrite table_bit by done. destruct (Z.ltb_spec i 3); [by left|]. intros E. right. by apply (frame_bits f). }
  split_and!.
  - change PG_PRESENT_MASK with (bit 0). by rewrite nz_land_bit, table_bit by (done || lia).
  - apply has_none. intros i Hi E1. rewrite Z.lor_spec. change PG_PSE_MASK with (bit 7). rewrite testbit_bit by lia.
    intros [E2|E2]%orb_true_iff; [apply Hrs in E2; specialize (Hb i Hi E1); lia|]. apply Z.eqb_eq in E2. specialize (Hb i Hi E1). lia.
  - apply has_none. intros i Hi E1 E2. apply Hrs in E2. specialize (Hb i Hi E1). lia.
  - apply has_none. intros i Hi E1. change PG_PSE_MASK with (bit 7). rewrite testbit_bit by lia. intros E2%Z.eqb_eq. specialize (Hb i Hi E1). lia.
  - bitwise i Hi. change PG_ADDRESS_MASK with PHYS_ADDR_MASK. rewrite table_bit, mask_bits by (done || lia). destruct (Z.testbit f i) eqn:E.
    + pose proof (frame_bits f i Hf E). rewrite (proj2 (Z.leb_le _ _)), (proj2 (Z.ltb_lt i 52)) by lia. by rewrite orb_true_r.
    + destruct (Z.ltb_spec i 3); [|done]. by rewrite (proj2 (Z.leb_gt _ _)) by lia.
Qed.

Lemma page_entry pa fl : frame_ok pa -> flags_ok fl -> let e := new_page pa fl false in
  has e PG_PRESENT_MASK = true /\ has e rsvd = false /\ Z.land e PG_ADDRESS_MASK = pa /\
  Z.testbit e 1 = Z.testbit fl 1 /\ Z.testbit e 2 = Z.testbit fl 3 /\ Z.testbit e 63 = negb (Z.testbit fl 2).
Proof.
  intros Hp Hf. cbv zeta. assert (Hb : forall i, 0 <= i -> Z.testbit (new_page pa fl false) i = Z.testbit (ptf_of fl) i || Z.testbit pa i)
    by (intros; by apply page_bit).
  assert (Hn : forall i, 0 <= i < 12 \/ 40 <= i -> Z.testbit pa i = false).
  { intros i Hi. destruct (Z.testbit pa i) eqn:E; [|done]. pose proof (frame_bits pa i Hp E). lia. }
  assert (Hlow : forall i, 0 <= i < 12 \/ 40 <= i -> Z.testbit (new_page pa fl false) i = Z.testbit (ptf_of fl) i).
  { intros i Hi. rewrite Hb, Hn by lia. by rewrite orb_false_r. }
  split_and!.
  - change PG_PRESENT_MASK with (bit 0). by rewrite nz_land_bit, Hlow, ptf_bit by (done || lia).
  - apply has_none. intros i Hi E1 E2. apply Hrs in E2. rewrite Hlow, ptf_bit, !(proj2 (Z.eqb_neq i _)) in E1 by (done || lia). done.
  - bitwise i Hi. change PG_ADDRESS_MASK with PHYS_ADDR_MASK. rewrite Hb, mask_bits by lia. destruct (Z.leb_spec 12 i), (Z.ltb_spec i 52); cbn.
    + rewrite ptf_bit, !(proj2 (Z.eqb_neq i _)) by (done || lia). by rewrite andb_true_r.
    + by rewrite Hn, andb_false_r by lia.
    + by rewrite Hn, andb_false_r by lia.
    + lia.
  - rewrite Hlow, ptf_bit by (done || lia). by destruct (Z.testbit fl 1).
  - rewrite Hlow, ptf_bit by (done || lia). by destruct (Z.testbit fl 3).
  - rewrite Hlow, ptf_bit by (done || lia). by destruct (Z.testbit fl 2).
Qed.

Lemma walk_table va l p f es ls : tabs !! (l, p) = Some f -> 1 <= l <= 3 ->
  let i := Z.shiftr va (12 + 9 * l) mod 512 in (l = 3 -> own i) ->
  ref_walk mm (-1) rsvd va f es ((12 + 9 * l, l <? 3) :: ls) =
  match tabs !! (l - 1, p * 512 + i) with
  | Some g => ref_walk mm (-1) rsvd va g ((entry_at f i, new_table g) :: es) ls
  | None => inl do_fault
  end.
Proof.
  intros Hf Hl i Ho. cbn [ref_walk]. fold i. rewrite Z.land_m1_r. change (f + 8 * i) with (entry_at f i).
  pose proof (tr_entries _ _ _ _ _ T l p f i Hf (digit _) Ho) as He. unfold entry_ok, marks in He. rewrite (proj2 (Z.eqb_neq l 0)) in He by lia.
  unfold entry_of. destruct (tabs !! (l - 1, p * 512 + i)) as [g|] eqn:E.
  - rewrite He. destruct (table_entry g (Hfr _ _ E)) as (-> & H1 & H2 & H3 & ->). rewrite H3, andb_false_r, (proj2 (Z.eqb_neq (12 + 9 * l) 12)) by lia.
    destruct (l <? 3); [rewrite H2|rewrite H1]; done.
  - by rewrite He.
Qed.

Lemma walk_leaf va p f es : tabs !! (0, p) = Some f -> let i := Z.shiftr va 12 mod 512 in
  ref_walk mm (-1) rsvd va f es [(12, true)] =
  match A !! (p * 512 + i) with
  | Some (pa, fl) => inr ((entry_at f i, new_page pa fl false) :: es, 4096)
  | None => inl do_fault
  end.
Proof.
  intros Hf i. cbn [ref_walk]. fold i. rewrite Z.land_m1_r. change (f + 8 * i) with (entry_at f i).
  pose proof (tr_entries _ _ _ _ _ T 0 p f i Hf (digit _) ltac:(lia)) as He. unfold entry_ok, marks in He. cbn [Z.eqb] in He.
  unfold entry_of. destruct (A !! (p * 512 + i)) as [[pa fl]|] eqn:E.
  - rewrite He. destruct (tr_pages _ _ _ _ _ T _ _ E) as (_ & Hp & Hl). by destruct (page_entry pa fl Hp Hl) as (-> & -> & _).
  - by rewrite He.
Qed.
End walk.

(** The processor runs the kernel's configuration: four levels, no-execute, no
    protection keys, 40 address bits at least. *)
Record config (c : CPUX86State) (pg_mode : Z) : Prop := {
  cf_pae : has pg_mode PG_MODE_PAE = true; cf_lma : has pg_mode PG_MODE_LMA = true;
  cf_la57 : has pg_mode PG_MODE_LA57 = false; cf_nxe : has pg_mode PG_MODE_NXE = true;
  cf_pke : has pg_mode PG_MODE_PKE = false; cf_pks : has pg_mode PG_MODE_PKS = false;
  cf_bits : 40 <= phys_bits c; cf_a20 : x86_get_a20_mask c = -1;
}.

Definition page_rights (fl : Z) : rights := mkRights (contains fl USER) (contains fl WRITE) (contains fl EXECUTE).

(** What the address space [A] promises of an access. *)
Definition spec_translate (A : aspace) (va acc mmu_idx pg_mode : Z) : Z + (Z * Z) :=
  match A !! page_no va with
  | None => inl (fault_code do_fault acc mmu_idx pg_mode)
  | Some (pa, fl) =>
      let r := page_rights fl in
      if (mmu_idx =? MMU_USER_IDX) && negb (r_user r) || negb (allows r mmu_idx pg_mode acc)
      then inl (fault_code do_fault_protect acc mmu_idx pg_mode) else inr (pa + va mod 4096, 4096)
  end.

Lemma config_rsvd c pg_mode : config c pg_mode -> forall i, Z.testbit (rsvd_mask0 c pg_mode) i = true -> 40 <= i < 52.
Proof.
  intros C i Hi. destruct (Z.ltb_spec i 0); [by rewrite Z.testbit_neg_r in Hi by lia|]. pose proof (cf_bits _ _ C).
  unfold rsvd_mask0 in Hi. rewrite (cf_nxe _ _ C) in Hi. cbn [negb] in Hi.
  rewrite Z.land_spec, Z.lnot_spec in Hi by lia. change PG_ADDRESS_MASK with PHYS_ADDR_MASK in Hi. rewrite mask_bits in Hi by lia.
  destruct (Z.leb_spec 12 i), (Z.ltb_spec i 52); try done. split; [|lia]. destruct (Z.ltb_spec i 40); [|lia].
  by rewrite Z.ones_spec_low in Hi by lia.
Qed.

Lemma digit_of va k : 0 <= k <= 27 -> Z.shiftr va (12 + k) mod 512 = (page_no va / 2 ^ k) mod 512.
Proof. intros Hk. rewrite <- index_of by done. change (ENTRY_COUNT - 1) with (Z.ones 9). by rewrite Z.land_ones by lia. Qed.

Section translate.
  Context (own : Z -> Prop) (s : pts) (tabs : gmap (Z * Z) Z) (A : aspace) (H : pt_inv own s tabs A).
  Context (c : CPUX86State) (pg_mode : Z) (C : config c pg_mode) (va : Z) (Hown : own (top va)).

(** No table at some level: the page is not mapped. *)
Lemma no_table : let v := page_no va in
  tabs !! (0, v / 512) = None \/ tabs !! (1, v / 512 / 512) = None \/ tabs !! (2, v / 512 / 512 / 512) = None -> A !! v = None.
Proof.
  cbv zeta. set (v := page_no va). intros Hn. destruct (A !! v) as [x|] eqn:E; [|done]. exfalso.
  destruct (leaf_table own s tabs A H va x E) as [f0 F0]. fold v in F0. destruct (table_up own s tabs A H 0 _ _ F0 ltac:(lia)) as [f1 F1].
  change (0 + 1) with 1 in F1. destruct (table_up own s tabs A H 1 _ _ F1 ltac:(lia)) as [f2 F2]. change (1 + 1) with 2 in F2.
  destruct Hn as [Hn|[Hn|Hn]]; congruence.
Qed.

Lemma walk_ok : let root := root_paddr s.1 in let W := ref_walk (w_mem s.2) (-1) (rsvd_mask0 c pg_mode) va root [] (levels pg_mode) in
  match A !! page_no va with
  | None => W = inl do_fault
  | Some (pa, fl) => exists a0 a1 a2 a3 g0 g1 g2, frame_ok g0 /\ frame_ok g1 /\ frame_ok g2 /\
      W = inr ([(a0, new_page pa fl false); (a1, new_table g0); (a2, new_table g1); (a3, new_table g2)], 4096)
  end.
Proof.
  cbv zeta. pose proof (pi_tree _ _ _ _ H) as T. pose proof (table_frame _ _ _ _ H) as Hfr. pose proof (config_rsvd c pg_mode C) as Hrs.
  unfold levels. rewrite (cf_la57 _ _ C). cbn [app]. set (rs := rsvd_mask0 c pg_mode) in *. pose proof (page_no_range va) as Hv.
  pose proof no_table as Hno. cbv zeta in Hno.
  pose proof (digit_of va 27 ltac:(lia)) as D3. pose proof (digit_of va 18 ltac:(lia)) as D2. pose proof (digit_of va 9 ltac:(lia)) as D1.
  pose proof (digit_of va 0 ltac:(lia)) as D0. set (v := page_no va) in *.
  change (2 ^ 27) with (512 * 512 * 512) in D3. change (2 ^ 18) with (512 * 512) in D2. change (2 ^ 9) with 512 in D1. change (2 ^ 0) with 1 in D0.
  rewrite Z.div_1_r in D0. rewrite <- (Z.div_div v (512 * 512)), <- (Z.div_div v 512) in D3 by lia. rewrite <- Z.div_div in D2 by lia.
  assert (Hd : v / 512 / 512 / 512 < 512) by (rewrite !Z.div_div by lia; apply Z.div_lt_upper_bound; lia).
  assert (Hp : 0 <= v / 512 / 512 / 512) by (repeat apply Z.div_pos; lia). rewrite (Z.mod_small (v / 512 / 512 / 512)) in D3 by lia.
  pose proof (walk_table _ _ _ _ _ T Hfr rs Hrs va 3 0 _ [] [(30, true); (21, true); (12, true)] (tr_root _ _ _ _ _ T) ltac:(lia)) as W3.
  assert (Ho3 : own (Z.shiftr va (12 + 9 * 3) mod 512)) by (change (12 + 9 * 3) with (12 + 27); by rewrite D3). specialize (W3 (fun _ => Ho3)). clear Ho3.
  cbv zeta in W3. change (12 + 9 * 3) with (12 + 27) in W3. change (3 - 1) with 2 in W3. rewrite D3, Z.mul_0_l, Z.add_0_l in W3.
  change (12 + 27) with 39 in W3. change (3 <? 3) with false in W3. rewrite W3. clear W3.
  destruct (tabs !! (2, v / 512 / 512 / 512)) as [g2|] eqn:F2; [|by rewrite Hno by auto].
  pose proof (fun es => walk_table _ _ _ _ _ T Hfr rs Hrs va 2 _ _ es [(21, true); (12, true)] F2 ltac:(lia) ltac:(lia)) as W2.
  cbv zeta in W2. change (12 + 9 * 2) with (12 + 18) in W2. change (2 - 1) with 1 in W2. rewrite D2, digits in W2. rewrite (W2 _). clear W2.
  destruct (tabs !! (1, v / 512 / 512)) as [g1|] eqn:F1; [|by rewrite Hno by auto].
  pose proof (fun es => walk_table _ _ _ _ _ T Hfr rs Hrs va 1 _ _ es [(12, true)] F1 ltac:(lia) ltac:(lia)) as W1.
  cbv zeta in W1. change (12 + 9 * 1) with (12 + 9) in W1. change (1 - 1) with 0 in W1. rewrite D1, digits in W1. rewrite (W1 _). clear W1.
  destruct (tabs !! (0, v / 512)) as [g0|] eqn:F0; [|by rewrite Hno by auto].
  pose proof (fun es => walk_leaf _ _ _ _ _ T rs Hrs va _ _ es F0) as W0.
  cbv zeta in W0. change (12 + 0) with 12 in D0. rewrite D0, digits in W0. rewrite W0.
  destruct (A !! v) as [[pa fl]|]; [|done]. eauto 20.
Qed.

Lemma rights_ok pa fl a0 a1 a2 a3 g0 g1 g2 : frame_ok pa -> flags_ok fl -> frame_ok g0 -> frame_ok g1 -> frame_ok g2 ->
  rights_of [(a0, new_page pa fl false); (a1, new_table g0); (a2, new_table g1); (a3, new_table g2)] = page_rights fl.
Proof.
  intros Hp Hf H0 H1 H2. destruct (page_entry 0 ltac:(by intros i; rewrite Z.bits_0) pa fl Hp Hf) as (_ & _ & _ & Hw & Hu & Hx).
  assert (Hg : forall g, frame_ok g -> Z.testbit (new_table g) 1 = true /\ Z.testbit (new_table g) 2 = true /\ Z.testbit (new_table g) 63 = false).
  { intros g Hg. rewrite !table_bit by (done || lia). split; [done|]. split; [done|]. cbn. destruct (Z.testbit g 63) eqn:E; [|done].
    pose proof (frame_bits g 63 Hg E). lia. }
  destruct (Hg g0 H0) as (A1 & A2 & A3), (Hg g1 H1) as (B1 & B2 & B3), (Hg g2 H2) as (C1 & C2 & C3).
  unfold rights_of, page_rights. change USER with (bit 3). change WRITE with (bit 1). change EXECUTE with (bit 2). rewrite !contains_bit by lia.
  cbn [forallb snd]. rewrite Hw, Hu, Hx, A1, A2, A3, B1, B2, B3, C1, C2, C3. cbn. by rewrite !andb_true_r, negb_involutive.
Qed.

(** The reference walk finds the address space. *)
Lemma translate_ok acc mmu_idx :
  ref_translate c (w_mem s.2) (root_paddr s.1) va acc mmu_idx pg_mode = spec_translate A va acc mmu_idx pg_mode.
Proof.
  pose proof walk_ok as W. cbv zeta in W. unfold ref_translate, spec_translate.
  pose proof (table_frame _ _ _ _ H _ _ (tr_root _ _ _ _ _ (pi_tree _ _ _ _ H))) as Hroot.
  change PG_ADDRESS_MASK with PHYS_ADDR_MASK. rewrite (frame_mask _ Hroot), (cf_a20 _ _ C).
  destruct (A !! page_no va) as [[pa fl]|] eqn:E; [|by rewrite W]. destruct W as (a0 & a1 & a2 & a3 & g0 & g1 & g2 & H0 & H1 & H2 & ->).
  destruct (tr_pages _ _ _ _ _ (pi_tree _ _ _ _ H) _ _ E) as (_ & Hp & Hf). cbn [fst snd] in Hp, Hf.
  destruct (page_entry _ (config_rsvd c pg_mode C) pa fl Hp Hf) as (_ & Hrs & Hpa & _).
  unfold ref_check. rewrite rights_ok by done. cbn [hd snd].
  change (clr (Z.land (4096 - 1) PG_ADDRESS_MASK) PG_PSE_PAT_MASK) with 0. rewrite Z.lor_0_r, Hrs.
  assert (Ek : ref_pkr c (page_rights fl) pg_mode = 0) by (unfold ref_pkr; rewrite (cf_pke _ _ C), (cf_pks _ _ C); by case_if).
  rewrite Ek, key_allows_0, (cf_a20 _ _ C), Z.land_m1_r. change (clr PG_ADDRESS_MASK (4096 - 1)) with PG_ADDRESS_MASK. rewrite Hpa.
  change (4096 - 1) with (Z.ones 12). rewrite Z.land_ones by lia. change (2 ^ 12) with 4096.
  destruct (mmu_idx =? MMU_USER_IDX), (r_user (page_rights fl)), (allows (page_rights fl) mmu_idx pg_mode acc); done.
Qed.
End translate.

(** ** The contract of a page table *)
Inductive pt_op :=
| OMap (va pa fl : Z)
| OUnmap (va : Z)
| OQuery (va : Z)
| OMark (a b : Z).

Definition op_ok (o : pt_op) : Prop :=
  match o with OMap _ pa fl => 0 <= pa < 2 ^ 40 /\ flags_ok fl | _ => True end.

(** The state after the operation and what a query returned; [None] is a panic. *)
Definition pt_step (o : pt_op) (s : pts) : option (pts * list (option (Z * Z))) :=
  match o with
  | OMap va pa fl => s ← pt_map va pa fl s; Some (s, [])
  | OUnmap va => s ← pt_unmap va s; Some (s, [])
  | OQuery va => r ← pt_query va s; Some (s, [r])
  | OMark a b => Some (mark a b s, [])
  end.

Definition spec_step (o : pt_op) (A : aspace) : option (aspace * list (option (Z * Z))) :=
  match o with
  | OMap va pa fl => match A !! page_no va with Some _ => None | None => Some (<[page_no va := (align_down pa PAGE_SIZE, fl)]> A, []) end
  | OUnmap va => match A !! page_no va with Some _ => Some (delete (page_no va) A, []) | None => None end
  | OQuery va => Some (A, [match A !! page_no va with Some (pa, fl) => Some (pa + va mod 4096, Z.lor READ fl) | None => None end])
  | OMark _ _ => Some (A, [])
  end.

Section run.
  Context {S : Type} (step : pt_op -> S -> option (S * list (option (Z * Z)))).
Fixpoint op_run (os : list pt_op) (s : S) : option (S * list (option (Z * Z))) :=
  match os with
  | [] => Some (s, [])
  | o :: os => ' (s, q) ← step o s; ' (s, qs) ← op_run os s; Some (s, q ++ qs)
  end.
End run.

(** A page table that is not shared: all of the root is its own. *)
Definition whole (_ : Z) : Prop := True.

Lemma pt_step_ok o s tabs A : pt_inv whole s tabs A -> op_ok o -> 3 <= available_space (w_free s.2) ->
  match spec_step o A with
  | None => pt_step o s = None
  | Some (A', q) => exists s' tabs', pt_step o s = Some (s', q) /\ pt_inv whole s' tabs' A' /\
      available_space (w_free s.2) - 3 <= available_space (w_free s'.2)
  end.
Proof.
  intros H Ho Hav. destruct o as [va pa fl|va|va|a b]; cbn [op_ok] in Ho; unfold pt_step, spec_step.
  - pose proof (pt_map_ok whole s tabs A H va pa fl I Hav (proj1 Ho) (proj2 Ho)) as Hs. destruct (A !! page_no va); [by rewrite Hs|].
    destruct Hs as (s' & t' & -> & _ & Ha & _ & Hi). exists s', t'. done.
  - pose proof (pt_unmap_ok whole s tabs A H va I) as Hs. destruct (A !! page_no va); [|by rewrite Hs].
    destruct Hs as (s' & -> & _ & Ef & _ & Hi). exists s', tabs. split; [done|]. split; [done|]. rewrite Ef. lia.
  - rewrite (pt_query_ok whole s tabs A H va I). exists s, tabs. split; [done|]. split; [done|]. lia.
  - destruct (mark_ok whole s tabs A a b H) as (Hi & _ & Ef). exists (mark a b s), tabs. split; [done|]. split; [done|]. rewrite Ef. lia.
Qed.

Lemma pt_run_ok os : forall s tabs A, pt_inv whole s tabs A -> Forall op_ok os -> 3 * Z.of_nat (length os) <= available_space (w_free s.2) ->
  match op_run spec_step os A with
  | None => op_run pt_step os s = None
  | Some (A', qs) => exists s' tabs', op_run pt_step os s = Some (s', qs) /\ pt_inv whole s' tabs' A'
  end.
Proof.
  induction os as [|o os IH]; intros s tabs A H Ho Hav; [by exists s, tabs|]. apply list.Forall_cons in Ho as [Ho Hos]. cbn [length] in Hav. cbn [op_run].
  pose proof (pt_step_ok o s tabs A H Ho ltac:(lia)) as Hs. destruct (spec_step o A) as [[A1 q]|]; [|by rewrite Hs].
  destruct Hs as (s1 & t1 & -> & H1 & Ha). cbn [mbind option_bind]. specialize (IH s1 t1 A1 H1 Hos ltac:(lia)).
  destruct (op_run spec_step os A1) as [[A' qs]|]; [|by rewrite IH]. destruct IH as (s' & t' & -> & H'). cbn. eauto.
Qed.

(** C4. The kernel's page tables implement an address space, and the processor
    sees it.  From a fresh table and with enough free frames, any sequence of
    [map], [unmap] and [query] calls, interleaved with accessed and dirty marks
    of the processor, does to the table tree what it does to a finite map from
    pages to frames with flags: it panics exactly when a page mapped is mapped
    or a page not mapped is unmapped, and queries answer from the map.  At the
    end [mmu_translate] finds for every address, access and privilege what the
    map promises: the frame with the offset, a not-present fault, or a
    protection fault for an access its flags do not allow. *)
Theorem page_table_refines (w : world) (ops : list pt_op) :
  mem_wf (w_mem w) -> fla_ok (w_free w) -> Forall op_ok ops ->
  1 + 3 * Z.of_nat (length ops) <= available_space (w_free w) ->
  exists s0, pt_new w = Some s0 /\
  match op_run spec_step ops ∅ with
  | None => op_run pt_step ops s0 = None
  | Some (A, qs) => exists s, op_run pt_step ops s0 = Some (s, qs) /\
      forall d hp m va acc mmu_idx pg_mode, mem m = w_mem s.2 -> no_nesting d hp m -> config (env (cpus m !!! d)) pg_mode -> 0 <= acc <= 2 ->
        answer (mmu_translate d hp va (root_paddr s.1) acc mmu_idx pg_mode m) = Some (spec_translate A va acc mmu_idx pg_mode)
  end.
Proof.
  intros Hw Hok Hops Hav. destruct (pt_new_ok whole w Hw Hok ltac:(lia)) as (s0 & E0 & H0 & _ & Ha). exists s0. split; [done|].
  pose proof (pt_run_ok ops s0 _ ∅ H0 Hops ltac:(lia)) as Hr. destruct (op_run spec_step ops ∅) as [[A qs]|]; [|done].
  destruct Hr as (s & t & -> & H). exists s. split; [done|]. intros d hp m va acc mmu_idx pg_mode Em Hn C Hacc.
  rewrite answer_ref; try done; [|rewrite Em; apply H| |apply C|apply C].
  - by rewrite Em, (translate_ok whole s t A H).
  - destruct (table_frame _ _ _ _ H _ _ (tr_root _ _ _ _ _ (pi_tree _ _ _ _ H))) as [_ Hr]. split; lia.
Qed.

Definition ex_world : world := mkWorld ∅ (fla_init 16 64 fla_empty).
Definition ex_ops : list pt_op :=
  [OMap 0x400000 0x7abc (Z.lor READ (Z.lor WRITE USER)); OMark 0x13000 0x60; OMap 0x401000 0x9000 READ; OQuery 0x400123;
   OUnmap 0x401000; OQuery 0x401000].

Lemma page_table_refines_witness :
  exists s0 s, pt_new ex_world = Some s0 /\ op_run pt_step ex_ops s0 = Some (s, [Some (0x7123, 11); None]) /\
    let m := ex_machine 1 <| mem := w_mem s.2 |> in
    answer (mmu_translate 0 None 0x400123 (root_paddr s.1) 1 MMU_USER_IDX ex_mode m) = Some (inr (0x7123, 4096)) /\
    answer (mmu_translate 0 None 0x400123 (root_paddr s.1) 2 MMU_USER_IDX ex_mode m) = Some (inl 0x15).
Proof.
  destruct (page_table_refines ex_world ex_ops) as (s0 & E0 & Hr).
  - intros a. unfold ldb, ex_world. cbn [w_mem]. by rewrite lookup_empty.
  - by apply fla_init_ok.
  - repeat constructor; done.
  - by vm_compute.
  - assert (E : op_run spec_step ex_ops ∅ = Some ({[0x400 := (0x7000, 11)]}, [Some (0x7123, 11); None])) by (vm_compute; reflexivity).
    rewrite E in Hr. destruct Hr as (s & Es & Hm). exists s0, s. split; [done|]. split; [done|]. cbv zeta.
    assert (C : config (env (cpus (ex_machine 1 <| mem := w_mem s.2 |>) !!! 0%nat)) ex_mode) by (split; vm_compute; (reflexivity || discriminate)).
    split; (rewrite Hm; [vm_compute; reflexivity|reflexivity|by left|exact C|lia]).
Defined.
