(* ===== verification/Aspace.v ===== *)
(** * Address spaces of the kernel (nimbos/kernel/src/mm/memory_set.rs,
    the area operations of nimbos/kernel/src/mm/paging.rs)

    An address space is a page table with the areas mapped in it; an area that
    is backed by frames owns them.  Rust's drops are written out: a frame goes
    back to the allocator when its owner goes.  A panic is [None]; arithmetic on
    addresses wraps, as in the release build. *)
From S2P Require Import Prelude Machine Paging.

(** ** Ordered maps: [BTreeMap] *)
Section btree.
  Context {V : Type}.
Fixpoint bt_get (k : Z) (m : list (Z * V)) : option V :=
  match m with [] => None | (k', v) :: m => if k =? k' then Some v else bt_get k m end.
Fixpoint bt_insert (k : Z) (v : V) (m : list (Z * V)) : list (Z * V) :=
  match m with
  | [] => [(k, v)]
  | (k', v') :: m' => if k <? k' then (k, v) :: m else if k =? k' then (k, v) :: m' else (k', v') :: bt_insert k v m'
  end.
Fixpoint bt_remove (k : Z) (m : list (Z * V)) : list (Z * V) :=
  match m with [] => [] | (k', v) :: m => if k =? k' then m else (k', v) :: bt_remove k m end.
End btree.

Definition KERNEL_ASPACE_BASE : Z := 0xffffff8000000000.
Definition KERNEL_ASPACE_SIZE : Z := 0x7ffffff000.
Definition USER_STACK_SIZE : Z := 4096 * 4.
Definition USER_STACK_BASE : Z := 0x7fff00000000 - USER_STACK_SIZE.

(** [VirtAddr::new] *)
Definition VirtAddr_new (va : Z) : option Z :=
  let top_bits := Z.shiftr va 47 in
  if negb (top_bits =? 0) && negb (top_bits =? 0x1ffff) then None else Some va.
Definition align_up (addr page_size : Z) : Z := clr (u64 (addr + page_size - 1)) (page_size - 1).
Definition is_aligned (addr page_size : Z) : bool := page_offset addr page_size =? 0.

(** ** Frames: [PhysFrame::alloc], and the drop of a list of frames *)
Definition frame_alloc (w : world) : option Z * world :=
  match fla_alloc (w_free w) with
  | (Some value, a) => (Some (PhysAddr_new (value * PAGE_SIZE)), w <| w_free := a |>)
  | (None, a) => (None, w <| w_free := a |>)
  end.
Definition frames_drop (fs : list Z) (w : world) : option world :=
  fold_left (fun w f => w ← w; frame_drop f w) fs (Some w).

(** ** Areas *)
Inductive Mapper := Offset (off : Z) | Framed (frames : list (Z * Z)).
Record MapArea := mkArea { ar_start : Z; ar_size : Z; ar_flags : Z; ar_mapper : Mapper }.
#[export] Instance eta_area : Eta MapArea := fun s => mkArea (ar_start s) (ar_size s) (ar_flags s) (ar_mapper s).
#[export] Instance set_ar_mapper : Setter ar_mapper := ltac:(derive_setter).

Definition new_offset (start_vaddr start_paddr size flags : Z) : option MapArea :=
  if is_aligned start_vaddr PAGE_SIZE && is_aligned start_paddr PAGE_SIZE && is_aligned size PAGE_SIZE
  then Some (mkArea start_vaddr size flags (Offset (u64 (start_vaddr - start_paddr)))) else None.
Definition new_framed (start_vaddr size flags : Z) : option MapArea :=
  if is_aligned start_vaddr PAGE_SIZE && is_aligned size PAGE_SIZE then Some (mkArea start_vaddr size flags (Framed [])) else None.

(** The frames an area still owns when it is dropped. *)
Definition area_frames (ar : MapArea) : list Z := match ar_mapper ar with Offset _ => [] | Framed frames => map snd frames end.

(** A frame with the contents of another. *)
Definition copy_frame (dst src : Z) (w : world) : world :=
  w <| w_mem := st (Z.to_nat PAGE_SIZE) dst (ld (Z.to_nat PAGE_SIZE) (w_mem w) src) (w_mem w) |>.

Definition dup_frame (o : option (list (Z * Z) * world)) (p : Z * Z) : option (list (Z * Z) * world) :=
  ' (new_frames, w) ← o;
  match frame_alloc w with
  | (Some f, w) => Some (bt_insert p.1 f new_frames, copy_frame f p.2 w)
  | (None, _) => None  (* unwrap *)
  end.
Definition area_dup (ar : MapArea) (w : world) : option (MapArea * world) :=
  match ar_mapper ar with
  | Offset off => Some (ar, w)
  | Framed orig_frames =>
      ' (new_frames, w) ← fold_left dup_frame orig_frames (Some ([], w));
      Some (ar <| ar_mapper := Framed new_frames |>, w)
  end.

Definition area_map (vaddr : Z) (aw : MapArea * world) : option (Z * (MapArea * world)) :=
  let '(ar, w) := aw in
  if negb (is_aligned vaddr PAGE_SIZE) then None
  else
    match ar_mapper ar with
    | Offset off => Some (PhysAddr_new (u64 (vaddr - off)), (ar, w))
    | Framed frames =>
        match bt_get vaddr frames with
        | Some f => Some (f, (ar, w))
        | None =>
            match frame_alloc_zero w with
            | (Some f, w) => Some (f, (ar <| ar_mapper := Framed (bt_insert vaddr f frames) |>, w))
            | (None, _) => None
            end
        end
    end.

Definition area_unmap (vaddr : Z) (aw : MapArea * world) : option (MapArea * world) :=
  let '(ar, w) := aw in
  match ar_mapper ar with
  | Offset _ => Some (ar, w)
  | Framed frames =>
      match bt_get vaddr frames with
      | Some f => w ← frame_drop f w; Some (ar <| ar_mapper := Framed (bt_remove vaddr frames) |>, w)
      | None => Some (ar, w)
      end
  end.

(** Bytes to memory. *)
Fixpoint wr_bytes (a : Z) (data : list Z) (mm : gmap Z Z) : gmap Z Z :=
  match data with [] => mm | b :: data => wr_bytes (a + 1) data (st 1 a b mm) end.

(** The loop of [write_data]: every round takes at least one byte. *)
Fixpoint write_loop (fuel : nat) (start : Z) (data : list Z) (aw : MapArea * world) : option (MapArea * world) :=
  match fuel, data with
  | S fuel, _ :: _ =>
      let start_align := align_down start PAGE_SIZE in
      let pgoff := start - start_align in
      let n := Z.min (PAGE_SIZE - pgoff) (Z.of_nat (length data)) in
      vaddr ← VirtAddr_new (u64 (ar_start aw.1 + start_align));
      ' (paddr, (ar, w)) ← area_map vaddr aw;
      write_loop fuel (start + n) (drop (Z.to_nat n) data)
        (ar, w <| w_mem := wr_bytes (paddr + pgoff) (take (Z.to_nat n) data) (w_mem w) |>)
  | _, _ => Some aw
  end.
Definition write_data (offset : Z) (data : list Z) (aw : MapArea * world) : option (MapArea * world) :=
  if (offset <? ar_size aw.1) && (u64 (offset + Z.of_nat (length data)) <=? ar_size aw.1)
  then write_loop (length data) offset data aw else None.

(** ** Areas in a page table *)

(** The loops go page by page: [ar_size / PAGE_SIZE + 1] rounds are enough. *)
Definition area_rounds (ar : MapArea) : nat := Z.to_nat (ar_size ar / PAGE_SIZE + 1).

Fixpoint map_loop (fuel : nat) (vaddr stop : Z) (ar : MapArea) (s : pts) : option (MapArea * pts) :=
  match fuel with
  | O => Some (ar, s)
  | S fuel =>
      if vaddr <? stop then
        va ← VirtAddr_new vaddr;
        ' (paddr, (ar, w)) ← area_map va (ar, s.2);
        s ← pt_map va paddr (ar_flags ar) (s.1, w);
        map_loop fuel (u64 (vaddr + PAGE_SIZE)) stop ar s
      else Some (ar, s)
  end.
Definition map_area (ar : MapArea) (s : pts) : option (MapArea * pts) :=
  map_loop (area_rounds ar) (ar_start ar) (u64 (ar_start ar + ar_size ar)) ar s.

Fixpoint unmap_loop (fuel : nat) (vaddr stop : Z) (ar : MapArea) (s : pts) : option (MapArea * pts) :=
  match fuel with
  | O => Some (ar, s)
  | S fuel =>
      if vaddr <? stop then
        va ← VirtAddr_new vaddr;
        ' (ar, w) ← area_unmap va (ar, s.2);
        s ← pt_unmap va (s.1, w);
        unmap_loop fuel (u64 (vaddr + PAGE_SIZE)) stop ar s
      else Some (ar, s)
  end.
Definition unmap_area (ar : MapArea) (s : pts) : option (MapArea * pts) :=
  unmap_loop (area_rounds ar) (ar_start ar) (u64 (ar_start ar + ar_size ar)) ar s.

(** [clone_from]: a new table that shares the entries of [src_root] for the
    addresses from [start] to [stop]. *)
Definition pt_clone_from (src_root start stop : Z) (w : world) : option pts :=
  ' (pt, w) ← pt_new w;
  last ← VirtAddr_new (stop - 1);
  let start_idx := p4_index start in
  let end_idx := p4_index last + 1 in
  if end_idx <? start_idx then None
  else
    let n := Z.to_nat (8 * (end_idx - start_idx)) in
    Some (pt, w <| w_mem := st n (entry_at (root_paddr pt) start_idx) (ld n (w_mem w) (entry_at src_root start_idx)) (w_mem w) |>).

(** ** Address spaces *)
Record MemorySet := mkMS { ms_pt : PageTable; ms_areas : list (Z * MapArea) }.

(** [kroot] is the root of the kernel's own table. *)
Definition ms_new (kroot : Z) (w : world) : option (MemorySet * world) :=
  ' (pt, w) ← pt_clone_from kroot KERNEL_ASPACE_BASE (KERNEL_ASPACE_BASE + KERNEL_ASPACE_SIZE) w;
  Some (mkMS pt [], w).

Definition ms_insert (area : MapArea) (mw : MemorySet * world) : option (MemorySet * world) :=
  let '(ms, w) := mw in
  if 0 <? ar_size area then
    match bt_get (ar_start area) (ms_areas ms) with
    | None => ' (ar, (pt, w)) ← map_area area (ms_pt ms, w); Some (mkMS pt (bt_insert (ar_start area) ar (ms_areas ms)), w)
    | Some _ => None
    end
  else w ← frames_drop (area_frames area) w; Some (ms, w).  (* the area goes *)

(** ** Programs

    What the ELF reader (the crate xmas-elf) finds in a file: the checks of its
    header, where the program starts and its program headers.  The data of a
    header is [None] when the reader has none that is plain. *)
Record ProgramHeader := mkPh {
  ph_is_load : bool; ph_virtual_addr : Z; ph_mem_size : Z; ph_is_read : bool; ph_is_write : bool; ph_is_execute : bool;
  ph_data : option (list Z) }.
Record ElfFile := mkElf { elf_is_executable : bool; elf_is_x86_64 : bool; elf_entry_point : Z; elf_program : list ProgramHeader }.

(** [From<Flags> for MemFlags] *)
Definition mem_flags_of_elf (ph : ProgramHeader) : Z :=
  let ret := USER in
  let ret := if ph_is_read ph then Z.lor ret READ else ret in
  let ret := if ph_is_write ph then Z.lor ret WRITE else ret in
  if ph_is_execute ph then Z.lor ret EXECUTE else ret.

(** One round of the loop over the program headers. *)
Definition load_ph (ph : ProgramHeader) (mw : MemorySet * world) : option (MemorySet * world) :=
  if negb (ph_is_load ph) then Some mw
  else
    vaddr ← VirtAddr_new (ph_virtual_addr ph);
    let offset := page_offset vaddr PAGE_SIZE in
    let area_start := align_down vaddr PAGE_SIZE in
    stop ← VirtAddr_new (u64 (ph_virtual_addr ph + ph_mem_size ph));
    let area_end := align_up stop PAGE_SIZE in
    data ← ph_data ph;
    area ← new_framed area_start (u64 (area_end - area_start)) (mem_flags_of_elf ph);
    ' (area, w) ← write_data offset data (area, mw.2);
    ms_insert area (mw.1, w).

Definition load_step (o : option (MemorySet * world)) (ph : ProgramHeader) : option (MemorySet * world) := mw ← o; load_ph ph mw.

Definition load_user (elf_new : list Z -> option ElfFile) (elf_data : list Z) (mw : MemorySet * world) : option ((Z * Z) * (MemorySet * world)) :=
  elf ← elf_new elf_data;
  if negb (elf_is_executable elf && elf_is_x86_64 elf) then None
  else
    mw ← fold_left load_step (elf_program elf) (Some mw);
    base ← VirtAddr_new USER_STACK_BASE;
    stack ← new_framed base USER_STACK_SIZE (Z.lor (Z.lor READ WRITE) USER);
    mw ← ms_insert stack mw;
    entry ← VirtAddr_new (elf_entry_point elf);
    ustack_top ← VirtAddr_new (USER_STACK_BASE + USER_STACK_SIZE);
    Some ((entry, ustack_top), mw).

(** [dup]: one round of its loop, and all of it. *)
Definition dup_step (o : option (MemorySet * world)) (p : Z * MapArea) : option (MemorySet * world) :=
  ' (ms, w) ← o;
  ' (ar, w) ← area_dup p.2 w;
  ms_insert ar (ms, w).
Definition ms_dup (kroot : Z) (ms : MemorySet) (w : world) : option (MemorySet * world) :=
  fold_left dup_step (ms_areas ms) (ms_new kroot w).

(** [clear]: every area is unmapped, then all are dropped. *)
Definition clear_step (o : option (list MapArea * pts)) (p : Z * MapArea) : option (list MapArea * pts) :=
  ' (areas, s) ← o;
  ' (ar, s) ← unmap_area p.2 s;
  Some (areas ++ [ar], s).
Definition ms_clear (ms : MemorySet) (w : world) : option (MemorySet * world) :=
  ' (areas, (pt, w)) ← fold_left clear_step (ms_areas ms) (Some ([], (ms_pt ms, w)));
  w ← frames_drop (concat (map area_frames areas)) w;
  Some (mkMS pt [], w).

(** The end of a memory set: its areas, then the frames of its tables. *)
Definition ms_drop (ms : MemorySet) (w : world) : option world :=
  ' (ms, w) ← ms_clear ms w;
  frames_drop (intrm_tables (ms_pt ms)) w.

(** ** The kernel's own address space *)
Definition PHYS_VIRT_OFFSET : Z := 0xffffff8000000000.
Definition phys_to_virt (paddr : Z) : Z := u64 (paddr + PHYS_VIRT_OFFSET).
Definition virt_to_phys (vaddr : Z) : Z := u64 (vaddr - PHYS_VIRT_OFFSET).

(** The symbols of the linker script, and what the platform's configuration says. *)
Record kernel_symbols := mkSymbols {
  stext : Z; etext : Z; srodata : Z; erodata : Z; sdata : Z; edata : Z; sbss : Z; ebss : Z; boot_stack : Z; boot_stack_top : Z; ekernel : Z }.
Record platform := mkPlatform { phys_memory_end : Z; mmio_regions : list (Z * Z); feature_rvm : bool }.
Definition SYSCALL_DATA_BUF_SIZE : Z := 0x100000.
Definition SYSCALL_QUEUE_BUF_SIZE : Z := 4096.

Definition ms_new_kernel (w : world) : option (MemorySet * world) := ' (pt, w) ← pt_new w; Some (mkMS pt [], w).

Record krange := mkRange { kr_start : Z; kr_end : Z; kr_flags : Z }.

(** The closure [map_range] of [init_kernel_aspace]. *)
Definition map_range (o : option (MemorySet * world)) (r : krange) : option (MemorySet * world) :=
  mw ← o;
  if negb (kr_start r <? kr_end r) then None
  else
    start ← VirtAddr_new (kr_start r);
    stop ← VirtAddr_new (kr_end r);
    if negb (is_aligned start PAGE_SIZE && is_aligned stop PAGE_SIZE) then None
    else
      area ← new_offset start (PhysAddr_new (virt_to_phys (kr_start r))) (kr_end r - kr_start r) (kr_flags r);
      ms_insert area mw.

(** Its calls, in order. *)
Definition kernel_ranges (sym : kernel_symbols) (pf : platform) : list krange :=
  let SYSCALL_DATA_BUF_PADDR := phys_memory_end pf in
  let SYSCALL_QUEUE_BUF_PADDR := SYSCALL_DATA_BUF_PADDR + SYSCALL_DATA_BUF_SIZE in
  [mkRange (stext sym) (etext sym) (Z.lor READ EXECUTE);
   mkRange (srodata sym) (erodata sym) READ;
   mkRange (sdata sym) (edata sym) (Z.lor READ WRITE);
   mkRange (sbss sym) (ebss sym) (Z.lor READ WRITE);
   mkRange (boot_stack sym) (boot_stack_top sym) (Z.lor READ WRITE);
   mkRange (ekernel sym) (phys_to_virt (phys_memory_end pf)) (Z.lor READ WRITE)] ++
  (if feature_rvm pf then
    [mkRange (phys_to_virt SYSCALL_DATA_BUF_PADDR) (phys_to_virt (SYSCALL_DATA_BUF_PADDR + SYSCALL_DATA_BUF_SIZE)) (Z.lor READ WRITE);
     mkRange (phys_to_virt SYSCALL_QUEUE_BUF_PADDR) (phys_to_virt (SYSCALL_QUEUE_BUF_PADDR + SYSCALL_QUEUE_BUF_SIZE)) (Z.lor READ WRITE)]
   else []) ++
  map (fun '(base, size) => mkRange (phys_to_virt base) (phys_to_virt (u64 (base + size))) (Z.lor (Z.lor READ WRITE) DEVICE)) (mmio_regions pf).

(** The set that becomes [KERNEL_ASPACE]; its root goes to the processor. *)
Definition init_kernel_aspace (sym : kernel_symbols) (pf : platform) (w : world) : option (MemorySet * world) :=
  fold_left map_range (kernel_ranges sym pf) (ms_new_kernel w).

(** The assertions of [remap_test]; [None] is one that fails. *)
Definition query_flags (vaddr : Z) (mw : MemorySet * world) : option Z := q ← pt_query vaddr (ms_pt mw.1, mw.2); x ← q; Some (snd x).
Definition remap_test (sym : kernel_symbols) (pf : platform) (mw : MemorySet * world) : option unit :=
  mid_text ← VirtAddr_new (stext sym + (etext sym - stext sym) / 2);
  mid_rodata ← VirtAddr_new (srodata sym + (erodata sym - srodata sym) / 2);
  _ ← VirtAddr_new (sdata sym + (edata sym - sdata sym) / 2);
  f ← query_flags mid_text mw;
  if contains f WRITE then None
  else
    f ← query_flags mid_rodata mw;
    if contains f EXECUTE then None
    else
      match mmio_regions pf with
      | [] => Some tt
      | (base, _) :: _ =>
          mid_mmio ← VirtAddr_new (phys_to_virt base);
          f ← query_flags mid_mmio mw;
          if contains f DEVICE then Some tt else None
      end.
