(* ===== verification/Uaccess.v ===== *)
(** * User memory (nimbos/kernel/src/mm/uaccess.rs)

    How a program and the kernel reach the memory of the current address space
    byte by byte.  The processor's walk of the tables is [pt_query]; that the two
    agree is proved with the page tables, and the accessed and dirty marks that
    the walk leaves in entries change no answer.  [None] is a fault: in the
    kernel it is a panic, as a failed assertion is. *)
From S2P Require Import Prelude Machine Paging Aspace.

Definition USER_ASPACE_BASE : Z := 0.
Definition USER_ASPACE_SIZE : Z := 0x7ffffffff000.

(** ** One byte *)
Definition vm_read (ms : MemorySet) (w : world) (va : Z) : option Z :=
  q ← pt_query va (ms_pt ms, w);
  x ← q;
  Some (ldb (w_mem w) (fst x)).
(** What the flags of the page must be depends on who writes: the kernel runs
    with write protection on. *)
Definition vm_write (may_write : Z -> bool) (ms : MemorySet) (va b : Z) (w : world) : option world :=
  q ← pt_query va (ms_pt ms, w);
  x ← q;
  if may_write (snd x) then Some (w <| w_mem := st 1 (fst x) b (w_mem w) |>) else None.
Definition by_kernel (fl : Z) : bool := contains fl WRITE.
Definition by_user (fl : Z) : bool := contains fl WRITE && contains fl USER.

Fixpoint vm_write_bytes (ms : MemorySet) (va : Z) (data : list Z) (w : world) : option world :=
  match data with [] => Some w | b :: data => w ← vm_write by_kernel ms va b w; vm_write_bytes ms (va + 1) data w end.

(** ** The kernel's accesses *)
Definition uaccess_ok (vaddr size : Z) : bool :=
  negb (vaddr =? 0) && (USER_ASPACE_BASE <=? vaddr) && (vaddr - USER_ASPACE_BASE <=? u64 (USER_ASPACE_SIZE - size)).

Definition copy_to_user (ms : MemorySet) (udst : Z) (ksrc : list Z) (w : world) : option world :=
  if uaccess_ok udst (Z.of_nat (length ksrc)) then vm_write_bytes ms udst ksrc w else None.

(** The bytes before the end of the string, at most [max_len] of them. *)
Fixpoint str_loop (max_len : nat) (ms : MemorySet) (w : world) (usrc : Z) : option (list Z) :=
  match max_len with
  | O => Some []
  | S n =>
      if usrc <? USER_ASPACE_BASE + USER_ASPACE_SIZE then
        c ← vm_read ms w usrc;
        if c =? 0 then Some [] else l ← str_loop n ms w (usrc + 1); Some (c :: l)
      else None
  end.
Definition copy_from_user_str (ms : MemorySet) (w : world) (usrc : Z) (max_len : nat) : option (list Z) :=
  if uaccess_ok usrc 1 then str_loop max_len ms w usrc else None.

(** [UserPtr::from] for a type of the alignment [align]. *)
Definition UserPtr_from (align user_vaddr : Z) : option Z :=
  if uaccess_ok user_vaddr 1 && (user_vaddr mod align =? 0) then Some user_vaddr else None.

(** [read_str] with a buffer of [n] bytes, and [write] of an [i32]. *)
Definition read_str (n : nat) (ms : MemorySet) (w : world) (ptr : Z) : option (list Z) := copy_from_user_str ms w ptr (n - 1).
Definition i32_bytes (value : Z) : list Z := map (fun i => u8 (Z.shiftr value (8 * i))) [0; 1; 2; 3].
Definition write_i32 (ms : MemorySet) (ptr value : Z) (w : world) : option world := copy_to_user ms ptr (i32_bytes value) w.

(** ** UTF-8: what [core::str::from_utf8] accepts *)
Definition cont (b : Z) : bool := (0x80 <=? b) && (b <=? 0xbf).
Definition utf8_2 (a b : Z) : bool := (0xc2 <=? a) && (a <=? 0xdf) && cont b.
Definition utf8_3 (a b c : Z) : bool :=
  ((a =? 0xe0) && (0xa0 <=? b) && (b <=? 0xbf) || (0xe1 <=? a) && (a <=? 0xec) && cont b ||
   (a =? 0xed) && (0x80 <=? b) && (b <=? 0x9f) || (0xee <=? a) && (a <=? 0xef) && cont b) && cont c.
Definition utf8_4 (a b c d : Z) : bool :=
  ((a =? 0xf0) && (0x90 <=? b) && (b <=? 0xbf) || (0xf1 <=? a) && (a <=? 0xf3) && cont b ||
   (a =? 0xf4) && (0x80 <=? b) && (b <=? 0x8f)) && cont c && cont d.
Fixpoint utf8 (l : list Z) : bool :=
  match l with
  | [] => true
  | a :: l1 =>
      if a <? 0x80 then utf8 l1
      else
        match l1 with
        | b :: l2 =>
            if utf8_2 a b then utf8 l2
            else
              match l2 with
              | c :: l3 => if utf8_3 a b c then utf8 l3 else match l3 with d :: l4 => utf8_4 a b c d && utf8 l4 | [] => false end
              | [] => false
              end
        | [] => false
        end
  end.
