(* ===== verification/Regions.v ===== *)
(** * Frames and areas

    What the operations on areas do to the frames in use: the frames an
    operation takes are new, the frames in use before it keep their contents, and
    no frame is lost.  On top of it, the loops that map and unmap an area. *)
From S2P Require Import Prelude Machine Mem Paging PagingTree Aspace.

#[local] Opaque st ld Z.to_nat.

(** ** Ordered maps *)
Lemma bt_get_none {V} k (m : list (Z * V)) : (forall x, x ∈ m -> x.1 <> k) -> bt_get k m = None.
Proof.
  induction m as [|[k' v] m IH]; intros Hm; [done|]. cbn. rewrite (proj2 (Z.eqb_neq k k')).
  - apply IH. intros x Hx. apply Hm. by right.
  - intros ->. by apply (Hm (k', v)); [left|].
Qed.

Lemma bt_get_app {V} k (m1 m2 : list (Z * V)) : (forall x, x ∈ m1 -> x.1 <> k) -> bt_get k (m1 ++ m2) = bt_get k m2.
Proof.
  induction m1 as [|[k' v] m IH]; intros Hm; [done|]. cbn. rewrite (proj2 (Z.eqb_neq k k')).
  - apply IH. intros x Hx. apply Hm. by right.
  - intros ->. by apply (Hm (k', v)); [left|].
Qed.

Lemma bt_insert_mid {V} k (v : V) m1 m2 : (forall x, x ∈ m1 -> x.1 < k) -> (forall x, x ∈ m2 -> k < x.1) ->
  bt_insert k v (m1 ++ m2) = m1 ++ (k, v) :: m2.
Proof.
  intros H1 H2. induction m1 as [|[k' v'] m IH]; cbn.
  - destruct m2 as [|[k' v'] m]; [done|]. cbn. rewrite (proj2 (Z.ltb_lt k k')); [done|]. by apply (H2 (k', v')); left.
  - pose proof (H1 (k', v') ltac:(by left)) as Hk. cbn in Hk. rewrite (proj2 (Z.ltb_ge k k')), (proj2 (Z.eqb_neq k k')) by lia.
    rewrite IH; [done|]. intros x Hx. apply H1. by right.
Qed.

(** ** The frames of consecutive pages *)
Fixpoint frames_at (va : Z) (fs : list Z) : list (Z * Z) :=
  match fs with [] => [] | f :: fs => (va, f) :: frames_at (va + 4096) fs end.

Lemma frames_at_snd va fs : map snd (frames_at va fs) = fs.
Proof. revert va. induction fs as [|f fs IH]; intros va; [done|]. cbn. by rewrite IH. Qed.

Lemma frames_at_key va fs x : x ∈ frames_at va fs -> va <= x.1 < va + 4096 * Z.of_nat (length fs).
Proof.
  revert va. induction fs as [|f fs IH]; intros va; cbn [frames_at length]; [by intros ?%elem_of_nil|].
  intros [->|Hx]%elem_of_cons; cbn [fst]; [lia|]. apply IH in Hx. lia.
Qed.

Lemma frames_at_app va fs gs : frames_at va (fs ++ gs) = frames_at va fs ++ frames_at (va + 4096 * Z.of_nat (length fs)) gs.
Proof.
  revert va. induction fs as [|f fs IH]; intros va; cbn [frames_at length app]; [f_equal; lia|]. rewrite IH. do 3 f_equal. lia.
Qed.

Lemma frames_at_get va fs f gs : bt_get (va + 4096 * Z.of_nat (length fs)) (frames_at va (fs ++ f :: gs)) = Some f.
Proof.
  rewrite frames_at_app, bt_get_app; [cbn; by rewrite Z.eqb_refl|]. intros x Hx%frames_at_key. lia.
Qed.

Lemma frames_at_end va fs : bt_get (va + 4096 * Z.of_nat (length fs)) (frames_at va fs) = None.
Proof. apply bt_get_none. intros x Hx%frames_at_key. lia. Qed.

Lemma frames_at_insert va fs f : bt_insert (va + 4096 * Z.of_nat (length fs)) f (frames_at va fs) = frames_at va (fs ++ [f]).
Proof.
  rewrite frames_at_app, <- (app_nil_r (frames_at va fs)) at 1. rewrite bt_insert_mid; [done| |by intros x ?%elem_of_nil].
  intros x Hx%frames_at_key. lia.
Qed.

(** ** Frames taken *)

(** The last entry of the root table belongs to the kernel. *)
Definition user (i : Z) : Prop := i <> 511.
Definition kernel_entry (s : pts) : Z := ld 8 (w_mem s.2) (entry_at (root_paddr s.1) 511).

(** From [s] to [s'] the tables have grown and the frames [new] were taken;
    nothing that was in use but the tables has changed. *)
Record extends (s s' : pts) (tabs tabs' : gmap (Z * Z) Z) (new : list Z) : Prop := {
  ex_root : root_paddr s'.1 = root_paddr s.1;
  ex_tabs : forall k f, tabs !! k = Some f -> tabs' !! k = Some f;
  ex_owned : forall f, owned (w_free s'.2) f <-> owned (w_free s.2) f \/ f ∈ new \/ exists k, tabs' !! k = Some f;
  ex_fresh : forall k f, tabs' !! k = Some f -> tabs !! k = Some f \/ ~ owned (w_free s.2) f;
  ex_new : forall f, f ∈ new -> ~ owned (w_free s.2) f /\ forall k, tabs' !! k <> Some f;
  ex_nodup : NoDup new;
  ex_mem : forall f, owned (w_free s.2) f -> (forall k, tabs !! k <> Some f) -> same_frame (w_mem s.2) (w_mem s'.2) f;
  ex_shared : tabs !! (3, 0) = Some (root_paddr s.1) -> kernel_entry s' = kernel_entry s;
  ex_space : available_space (w_free s'.2) + Z.of_nat (length (intrm_tables s'.1)) + Z.of_nat (length new) =
    available_space (w_free s.2) + Z.of_nat (length (intrm_tables s.1));
}.

Lemma extends_grows s s' t t' : grows user s s' t t' -> extends s s' t t' [].
Proof.
  intros [R T O F M D S]. split; try done; [| |constructor|unfold kernel_entry; rewrite R; intros Hr; apply D; [done|lia|unfold user; lia]|cbn; lia].
  - intros f. rewrite O. split; [intros [?|?]; auto|]. intros [?|[?%elem_of_nil|?]]; auto. done.
  - by intros f ?%elem_of_nil.
Qed.

Lemma extends_trans s s1 s2 t t1 t2 n1 n2 : extends s s1 t t1 n1 -> extends s1 s2 t1 t2 n2 -> extends s s2 t t2 (n1 ++ n2).
Proof.
  intros [R1 T1 O1 F1 N1 D1 M1 K1 S1] [R2 T2 O2 F2 N2 D2 M2 K2 S2]. split.
  - congruence.
  - eauto.
  - intros f. rewrite O2, O1, elem_of_app. split; [intros [[?|[?|[k Hk]]]|[?|?]]; eauto|]. intros [?|[[?|?]|?]]; auto.
  - intros k f Hk. destruct (F2 k f Hk) as [Hk1|Hn]; [by apply F1|]. right. intros Ho. apply Hn, O1. auto.
  - intros f [Hf|Hf]%elem_of_app.
    + destruct (N1 f Hf) as [Hn Hk]. split; [done|]. intros k Hk2. destruct (F2 k f Hk2) as [?|Hno]; [by apply (Hk k)|]. apply Hno, O1. auto.
    + destruct (N2 f Hf) as [Hn Hk]. split; [|done]. intros Ho. apply Hn, O1. auto.
  - apply list.NoDup_app. split; [done|]. split; [|done]. intros f Hf Hf2. destruct (N2 f Hf2) as [Hn _]. apply Hn, O1. auto.
  - intros f Ho Hn a Ha. rewrite M2, M1; try done; [apply O1; auto|]. intros k Hk. destruct (F1 k f Hk) as [?|?]; [by apply (Hn k)|done].
  - intros Hr. rewrite K2, K1; try done. rewrite R1. by apply T1.
  - rewrite length_app. lia.
Qed.

Lemma extends_refl own s tabs A : pt_inv own s tabs A -> extends s s tabs tabs [].
Proof.
  intros H. destruct (grows_refl own s tabs A H) as [R T O F M _ S]. split; try done; [| |constructor|cbn; lia].
  - intros f. rewrite O. split; [intros [?|?]; auto|]. intros [?|[?%elem_of_nil|?]]; auto. done.
  - by intros f ?%elem_of_nil.
Qed.

(** ** Frames that keep their contents *)
Lemma same_frame_refl mm f : same_frame mm mm f.
Proof. done. Qed.

Lemma same_frame_ld n mm mm' f a : same_frame mm mm' f -> f <= a -> a + Z.of_nat n <= f + 4096 -> ld n mm' a = ld n mm a.
Proof.
  intros Hs Ha Hn. apply ld_ext. intros x Hx. apply Hs. lia.
Qed.

(** A tree of tables does not depend on the rest of memory. *)
Lemma pt_inv_frame own pt w w' tabs A : pt_inv own (pt, w) tabs A -> fla_ok (w_free w') -> mem_wf (w_mem w') ->
  (forall k f, tabs !! k = Some f -> owned (w_free w') f /\ same_frame (w_mem w) (w_mem w') f) -> pt_inv own (pt, w') tabs A.
Proof.
  intros [[Hroot Hinj Hent Hlev Hpag] Hfree Hown Hwf Hlist] Hok Hw Hk. split; [|done| |done|done]; cbn [fst snd] in *.
  - split; try done. intros l p f i Hf Hi Ho. pose proof (Hent l p f i Hf Hi Ho) as He. unfold entry_ok in *.
    rewrite (same_frame_ld 8 (w_mem w) (w_mem w') f); [exact He|by apply (Hk (l, p))|unfold entry_at; lia..].
  - intros k f Hf. by apply (Hk k).
Qed.

(** The kernel's entry may change. *)
Lemma pt_inv_shared pt w tabs A v : pt_inv user (pt, w) tabs A ->
  let w' := w <| w_mem := st 8 (entry_at (root_paddr pt) 511) v (w_mem w) |> in
  pt_inv user (pt, w') tabs A /\ kernel_entry (pt, w') = v mod 2 ^ 64 /\ (forall f, owned (w_free w) f -> f <> root_paddr pt -> same_frame (w_mem w) (w_mem w') f).
Proof.
  intros H w'. pose proof (tr_root _ _ _ _ _ (pi_tree _ _ _ _ H)) as Hr. pose proof (table_frame _ _ _ _ H) as Hfr. pose proof (Hfr (3, 0) _ Hr) as Hrf. cbn [fst] in Hrf.
  split; [|split; [apply (ld_st_same 8)|intros f Hf Hne; apply same_frame_entry; (apply Hf || done || lia)]].
  destruct H as [[Hroot Hinj Hent Hlev Hpag] Hfree Hown Hwf Hlist].
  split; try done; [|apply (mem_wf_st 8), Hwf]. split; try done. intros l p f j Hf Hj Ho. pose proof (Hent l p f j Hf Hj Ho) as He.
  unfold entry_ok in *. cbn [fst snd] in *. change (w_mem w') with (st 8 (entry_at (root_paddr pt) 511) v (w_mem w)). rewrite ld_st_ne; [exact He|].
  destruct (entries_apart f (root_paddr pt) j 511) as [?|?]; try done; try (cbn; lia); [by apply (Hfr (l, p))|].
  destruct (Z.eq_dec f (root_paddr pt)) as [->|]; [right|by left]. intros ->. pose proof (Hinj _ _ _ Hf Hr) as [= -> _]. by apply Ho.
Qed.

(** ** One frame more *)
Definition zeroed (mm : gmap Z Z) (f : Z) : Prop := forall i, 0 <= i < 4096 -> ldb mm (f + i) = 0.
Definition copied (mm : gmap Z Z) (f : Z) (mm' : gmap Z Z) (f' : Z) : Prop := forall i, 0 <= i < 4096 -> ldb mm' (f' + i) = ldb mm (f + i).

Lemma take_frame own pt w tabs A : pt_inv own (pt, w) tabs A -> 0 < available_space (w_free w) ->
  exists n a', fla_alloc (w_free w) = (Some n, a') /\ let f := n * 4096 in PhysAddr_new (n * PAGE_SIZE) = f /\ frame_ok f /\ ~ owned (w_free w) f /\
    forall mm', mem_wf mm' -> (forall g, frame_ok g -> g <> f -> same_frame (w_mem w) mm' g) ->
      extends (pt, w) (pt, mkWorld mm' a') tabs tabs [f] /\ pt_inv own (pt, mkWorld mm' a') tabs A.
Proof.
  intros H Hav. destruct (fla_alloc_ok _ (pi_free _ _ _ _ H) Hav) as (n & a' & Ea & Hok & Hnew & Hown & Hn & Hkeep & Hsp).
  destruct (frame_number n Hn) as (Hfr & Epa & _). exists n, a'. split; [done|]. cbv zeta. split_and!; try done. intros mm' Hw Hsame.
  assert (Ht : forall k f, tabs !! k = Some f -> owned (w_free w) f) by (intros; by eapply (pi_owned _ _ _ _ H)).
  assert (Hne : forall f, owned (w_free w) f -> f <> n * 4096) by (by intros f Hf ->). split; [split; cbn [fst snd w_free w_mem]|].
  - done.
  - done.
  - intros f. rewrite Hkeep, list_elem_of_singleton. split; [intros [?|?]; auto|]. intros [?|[?|[k Hk]]]; eauto.
  - auto.
  - intros f ->%list_elem_of_singleton. split; [done|]. intros k Hk. by apply Hnew, (Ht k).
  - apply NoDup_singleton.
  - intros f Hf _. apply Hsame; [apply Hf|auto].
  - intros Hr. unfold kernel_entry. cbn [fst snd w_mem]. apply (same_frame_ld 8 _ _ (root_paddr pt)); [|unfold entry_at; lia..].
    apply Hsame; [apply (Ht _ _ Hr)|apply Hne, (Ht _ _ Hr)].
  - cbn [length]. cbn [snd] in Hsp. lia.
  - eapply pt_inv_frame; [exact H|done|done|]. intros k f Hf. cbn [w_free w_mem]. pose proof (Ht k f Hf) as Ho. split; [apply Hkeep; auto|]. apply Hsame; [apply Ho|auto].
Qed.

Lemma ldb_zeroed f mm : zeroed (st (Z.to_nat PAGE_SIZE) f 0 mm) f.
Proof.
  intros i Hi. rewrite ldb_st, Z2Nat.id by done. unfold PAGE_SIZE. rewrite (proj2 (Z.leb_le _ _)), (proj2 (Z.ltb_lt _ _)) by lia. cbn [andb].
  by rewrite Z.div_0_l by (apply Z.pow_nonzero; lia).
Qed.

Lemma ldb_copied f g mm : mem_wf mm -> copied mm g (st (Z.to_nat PAGE_SIZE) f (ld (Z.to_nat PAGE_SIZE) mm g) mm) f.
Proof.
  intros Hw i Hi. rewrite ldb_st, Z2Nat.id by done. rewrite (proj2 (Z.leb_le _ _)), (proj2 (Z.ltb_lt _ _)) by (unfold PAGE_SIZE; lia). cbn [andb].
  replace (f + i - f) with (Z.of_nat (Z.to_nat i)) by lia. rewrite ld_byte; [|done|apply Z2Nat.inj_lt; unfold PAGE_SIZE; lia]. f_equal. lia.
Qed.

Lemma same_frame_store g v mm f : frame_ok f -> frame_ok g -> f <> g -> same_frame mm (st (Z.to_nat PAGE_SIZE) g v mm) f.
Proof. intros Hf Hg Hne a Ha. apply ldb_outside. rewrite Z2Nat.id by done. pose proof (frames_apart f g Hf Hg Hne). unfold PAGE_SIZE. lia. Qed.

Lemma alloc_zero_ok own pt w tabs A : pt_inv own (pt, w) tabs A -> 0 < available_space (w_free w) ->
  exists f w', frame_alloc_zero w = (Some f, w') /\ extends (pt, w) (pt, w') tabs tabs [f] /\ pt_inv own (pt, w') tabs A /\ zeroed (w_mem w') f.
Proof.
  intros H Hav. destruct (take_frame own pt w tabs A H Hav) as (n & a' & Ea & Epa & Hfr & _ & Hw). unfold frame_alloc_zero. rewrite Ea, Epa.
  eexists _, _. split; [reflexivity|]. destruct (Hw (st (Z.to_nat PAGE_SIZE) (n * 4096) 0 (w_mem w))) as [He Hi].
  - apply mem_wf_st, H.
  - intros g Hg Hne. by apply same_frame_store.
  - split; [exact He|]. split; [exact Hi|]. exact (ldb_zeroed _ _).
Qed.

Lemma alloc_copy_ok own pt w tabs A g : pt_inv own (pt, w) tabs A -> 0 < available_space (w_free w) ->
  exists f w', frame_alloc w = (Some f, w') /\ let w' := copy_frame f g w' in
    extends (pt, w) (pt, w') tabs tabs [f] /\ pt_inv own (pt, w') tabs A /\ copied (w_mem w) g (w_mem w') f.
Proof.
  intros H Hav. destruct (take_frame own pt w tabs A H Hav) as (n & a' & Ea & Epa & Hfr & _ & Hw). unfold frame_alloc. rewrite Ea, Epa.
  eexists _, _. split; [reflexivity|]. cbv zeta.
  destruct (Hw (st (Z.to_nat PAGE_SIZE) (n * 4096) (ld (Z.to_nat PAGE_SIZE) (w_mem w) g) (w_mem w))) as [He Hi].
  - apply mem_wf_st, H.
  - intros f Hf Hne. by apply same_frame_store.
  - split; [exact He|]. split; [exact Hi|]. apply ldb_copied, H.
Qed.

(** ** The user's half of an address space *)
Lemma user_page va : 0 <= va < 2 ^ 47 -> page_no va = va / 4096 /\ user (top va) /\ VirtAddr_new va = Some va.
Proof.
  intros Hv. assert (E : page_no va = va / 4096).
  { unfold page_no. rewrite Z.shiftr_div_pow2 by lia. apply Z.mod_small. split; [apply Z.div_pos; lia|apply Z.div_lt_upper_bound; lia]. }
  split; [done|]. split; [|unfold VirtAddr_new; rewrite Z.shiftr_div_pow2, Z.div_small by lia; done].
  unfold user, top. rewrite E, !Z.div_div by lia. assert (va / (4096 * 512 * 512 * 512) < 511); [apply Z.div_lt_upper_bound; lia|].
  change (4096 * 512 * 512 * 512) with (4096 * (512 * (512 * 512))) in *. lia.
Qed.

Lemma aligned_of va : va mod 4096 = 0 -> is_aligned va PAGE_SIZE = true.
Proof. intros H. unfold is_aligned, page_offset, PAGE_SIZE. change (0x1000 - 1) with (Z.ones 12). rewrite Z.land_ones by lia. change (2 ^ 12) with 4096. by rewrite H. Qed.

Lemma frame_aligned f : frame_ok f -> align_down f PAGE_SIZE = f.
Proof. intros Hf. destruct (align_down_frame f (proj2 Hf)) as [_ ->]. destruct Hf as [Hf _]. pose proof (Z.div_mod f 4096). lia. Qed.

(** Consecutive pages from [n] in the frames [fs]. *)
Fixpoint map_pages (n : Z) (fs : list Z) (fl : Z) (A : aspace) : aspace :=
  match fs with [] => A | f :: fs => map_pages (n + 1) fs fl (<[n := (f, fl)]> A) end.

Lemma map_pages_lookup n fs fl A v : map_pages n fs fl A !! v =
  if (n <=? v) && (v <? n + Z.of_nat (length fs)) then (fun f => (f, fl)) <$> fs !! Z.to_nat (v - n) else A !! v.
Proof.
  revert n A. induction fs as [|f fs IH]; intros n A; cbn [map_pages length].
  - destruct (Z.leb_spec n v), (Z.ltb_spec v (n + Z.of_nat 0)); cbn [andb]; (done || lia).
  - rewrite IH. destruct (Z.leb_spec (n + 1) v), (Z.leb_spec n v), (Z.ltb_spec v (n + 1 + Z.of_nat (length fs))), (Z.ltb_spec v (n + Z.of_nat (S (length fs))));
      cbn [andb]; try lia.
    + replace (Z.to_nat (v - n)) with (S (Z.to_nat (v - (n + 1)))) by lia. done.
    + by rewrite lookup_insert_ne by lia.
    + assert (v = n) as -> by lia. by rewrite lookup_insert_eq, Z.sub_diag.
    + by rewrite lookup_insert_ne by lia.
Qed.

Lemma zeroed_same mm mm' f : same_frame mm mm' f -> zeroed mm f -> zeroed mm' f.
Proof. intros Hs Hz i Hi. rewrite Hs by lia. by apply Hz. Qed.

(** One page of an area is entered in the tables. *)
Lemma map_page s tabs A va f fl : pt_inv user s tabs A -> user (top va) -> frame_ok f -> flags_ok fl -> A !! page_no va = None -> 3 <= available_space (w_free s.2) ->
  exists s' tabs', pt_map va f fl s = Some s' /\ extends s s' tabs tabs' [] /\ pt_inv user s' tabs' (<[page_no va := (f, fl)]> A) /\
    available_space (w_free s.2) - 3 <= available_space (w_free s'.2).
Proof.
  intros H Ho Hf Hfl HA Hav. pose proof (pt_map_ok user s tabs A H va f fl Ho Hav (proj2 Hf) Hfl) as Hm. rewrite HA in Hm.
  destruct Hm as (s' & t' & E & G & Ha & _ & Hi). rewrite frame_aligned in Hi by done. exists s', t'. split_and!; try done. by apply extends_grows.
Qed.

(** What a run of [map_loop] over [k] pages, of which the first have the frames
    [fs2], does. *)
Definition maps (k : nat) (start sz fl va : Z) (fs1 fs2 : list Z) (s : pts) (tabs : gmap (Z * Z) Z) (A : aspace) (r : option (MapArea * pts)) : Prop :=
  exists new s' tabs', r = Some (mkArea start sz fl (Framed (frames_at start (fs1 ++ fs2 ++ new))), s') /\
    extends s s' tabs tabs' new /\ pt_inv user s' tabs' (map_pages (va / 4096) (fs2 ++ new) fl A) /\
    length (fs2 ++ new) = k /\ Forall (zeroed (w_mem s'.2)) new /\ available_space (w_free s.2) - 4 * Z.of_nat k <= available_space (w_free s'.2).

Definition mappable (k : nat) (va : Z) (A : aspace) : Prop :=
  0 <= va /\ va mod 4096 = 0 /\ va + 4096 * Z.of_nat k <= 2 ^ 47 /\ forall v, va / 4096 <= v < va / 4096 + Z.of_nat k -> A !! v = None.

Lemma next_page va : (va + 4096) / 4096 = va / 4096 + 1.
Proof. rewrite <- (Z.mul_1_l 4096) at 1. by rewrite Z.div_add by lia. Qed.

Lemma mappable_next k va A x : mappable (S k) va A -> mappable k (va + 4096) (<[va / 4096 := x]> A).
Proof.
  intros (H0 & Hm & Hb & HA). split_and!; [lia|rewrite <- (Z.mul_1_l 4096) at 1; by rewrite Z.mod_add by lia|lia|].
  intros v Hv. rewrite next_page in Hv. rewrite lookup_insert_ne by lia. apply HA. lia.
Qed.

Lemma extends_kept s s' t t' new f : extends s s' t t' new -> owned (w_free s.2) f -> (forall k, t !! k <> Some f) ->
  owned (w_free s'.2) f /\ (forall k, t' !! k <> Some f) /\ same_frame (w_mem s.2) (w_mem s'.2) f.
Proof.
  intros [R T O F N D M _ S] Ho Hn. split; [apply O; auto|]. split; [|by apply M]. intros k Hk. destruct (F k f Hk); [by apply (Hn k)|done].
Qed.

(** One round with the frame [f] at hand. *)
Lemma map_round k fuel start sz fl fs1 f fs2 pt w tabs A : let va := start + 4096 * Z.of_nat (length fs1) in
  pt_inv user (pt, w) tabs A -> mappable (S k) va A -> flags_ok fl -> frame_ok f -> 3 <= available_space (w_free w) ->
  (forall s t A, pt_inv user s t A -> mappable k (va + 4096) A -> available_space (w_free w) - 3 <= available_space (w_free s.2) ->
    maps k start sz fl (va + 4096) (fs1 ++ [f]) fs2 s t A
      (map_loop fuel (va + 4096) (va + 4096 + 4096 * Z.of_nat k) (mkArea start sz fl (Framed (frames_at start ((fs1 ++ [f]) ++ fs2)))) s)) ->
  exists new s' tabs', (s ← pt_map va f fl (pt, w);
      map_loop fuel (u64 (va + PAGE_SIZE)) (va + 4096 * Z.of_nat (S k)) (mkArea start sz fl (Framed (frames_at start (fs1 ++ f :: fs2)))) s) =
      Some (mkArea start sz fl (Framed (frames_at start (fs1 ++ f :: fs2 ++ new))), s') /\
    extends (pt, w) s' tabs tabs' new /\ pt_inv user s' tabs' (map_pages (va / 4096) (f :: fs2 ++ new) fl A) /\
    length (f :: fs2 ++ new) = S k /\ Forall (zeroed (w_mem s'.2)) new /\ available_space (w_free w) - 3 - 4 * Z.of_nat k <= available_space (w_free s'.2).
Proof.
  intros va H Hma Hfl Hf Hav IH. pose proof Hma as (H0 & Hm & Hb & HA). destruct (user_page va ltac:(lia)) as (Epg & Hus & _).
  destruct (map_page (pt, w) tabs A va f fl H Hus Hf Hfl ltac:(rewrite Epg; apply HA; lia) Hav) as (s1 & t1 & -> & E1 & H1 & A1).
  cbn [mbind option_bind]. rewrite Epg in H1. unfold PAGE_SIZE. change 0x1000 with 4096. rewrite u64_small by lia.
  replace (va + 4096 * Z.of_nat (S k)) with (va + 4096 + 4096 * Z.of_nat k) by lia.
  destruct (IH s1 t1 _ H1 (mappable_next _ _ _ _ Hma) A1) as (new & s' & t' & Er & E2 & H2 & L2 & Z2 & A2). rewrite <- !app_assoc in Er. cbn [app] in Er. cbn [snd] in A1.
  exists new, s', t'. split; [exact Er|]. split; [exact (extends_trans _ _ _ _ _ _ _ _ E1 E2)|]. rewrite next_page in H2. split; [exact H2|].
  split; [cbn [length]; by rewrite L2|]. split; [done|lia].
Qed.

Lemma map_loop_ok k : forall fuel start sz fl fs1 fs2 pt w tabs A, let va := start + 4096 * Z.of_nat (length fs1) in
  pt_inv user (pt, w) tabs A -> (k <= fuel)%nat -> (length fs2 <= k)%nat -> mappable k va A ->
  flags_ok fl -> Forall frame_ok fs2 -> 4 * Z.of_nat k <= available_space (w_free w) ->
  maps k start sz fl va fs1 fs2 (pt, w) tabs A (map_loop fuel va (va + 4096 * Z.of_nat k) (mkArea start sz fl (Framed (frames_at start (fs1 ++ fs2)))) (pt, w)).
Proof.
  induction k as [|k IH]; intros fuel start sz fl fs1 fs2 pt w tabs A va H Hfu Hlen Hma Hfl Hfs Hav.
  - destruct fs2; [|cbn in Hlen; lia]. exists [], (pt, w), tabs. rewrite !app_nil_r. split.
    + destruct fuel; cbn [map_loop]; [done|]. by rewrite Z.mul_0_r, Z.add_0_r, Z.ltb_irrefl.
    + split; [by eapply extends_refl|]. split; [done|]. split; [done|]. split; [constructor|lia].
  - destruct fuel as [|fuel]; [lia|]. pose proof Hma as (H0 & Hm & Hb & HA). destruct (user_page va ltac:(lia)) as (_ & _ & Eva).
    assert (IH' : forall f fs2, (length fs2 <= k)%nat -> Forall frame_ok fs2 -> forall s t A, pt_inv user s t A -> mappable k (va + 4096) A ->
      4 * Z.of_nat k <= available_space (w_free s.2) -> maps k start sz fl (va + 4096) (fs1 ++ [f]) fs2 s t A
        (map_loop fuel (va + 4096) (va + 4096 + 4096 * Z.of_nat k) (mkArea start sz fl (Framed (frames_at start ((fs1 ++ [f]) ++ fs2)))) s)).
    { intros f gs Hl Hg [pt1 w1] t A' H1 Hma1 Ha1. pose proof (IH fuel start sz fl (fs1 ++ [f]) gs pt1 w1 t A') as IH1. cbv zeta in IH1.
      replace (start + 4096 * Z.of_nat (length (fs1 ++ [f]))) with (va + 4096) in IH1 by (rewrite length_app; cbn [length]; unfold va; lia). apply IH1; (done || lia). }
    cbn [map_loop]. rewrite (proj2 (Z.ltb_lt _ _)), Eva by lia. cbn [mbind option_bind]. unfold area_map. rewrite aligned_of by done. cbn [negb ar_mapper fst snd].
    destruct fs2 as [|f fs2].
    + rewrite app_nil_r. pose proof (frames_at_end start fs1) as Eg. fold va in Eg. rewrite Eg. destruct (alloc_zero_ok user pt w tabs A H ltac:(lia)) as (f & w1 & -> & E1 & H1 & Z1).
      cbn [mbind option_bind]. change (mkArea start sz fl (Framed (frames_at start fs1)) <| ar_mapper := Framed (bt_insert va f (frames_at start fs1)) |>) with
        (mkArea start sz fl (Framed (bt_insert va f (frames_at start fs1)))). pose proof (frames_at_insert start fs1 f) as Ei. fold va in Ei. rewrite Ei. cbn [ar_flags fst snd].
      pose proof (ex_space _ _ _ _ _ E1) as S1. cbn [fst snd length] in S1.
      assert (Hf : owned (w_free w1) f) by (apply (ex_owned _ _ _ _ _ E1); right; left; by left).
      destruct (map_round k fuel start sz fl fs1 f [] pt w1 tabs A H1 Hma Hfl (proj1 Hf) ltac:(lia)) as (new & s' & t' & Er & E2 & H2 & L2 & Z2 & A2).
      { intros s t A' Hs Hk Ha. apply IH'; (done || constructor || lia || idtac). cbn. lia. }
      exists (f :: new), s', t'. split; [exact Er|]. split; [exact (extends_trans _ _ _ _ _ _ _ _ E1 E2)|]. split; [exact H2|]. split; [exact L2|].
      split; [|cbn [snd]; lia]. constructor; [|done]. eapply zeroed_same; [|exact Z1]. apply (extends_kept _ _ _ _ _ f E2 Hf).
      apply (ex_new _ _ _ _ _ E1 f). by left.
    + pose proof (frames_at_get start fs1 f fs2) as Eg. fold va in Eg. rewrite Eg. apply list.Forall_cons in Hfs as [Hf Hfs]. cbn [mbind option_bind ar_flags fst snd length] in *.
      destruct (map_round k fuel start sz fl fs1 f fs2 pt w tabs A H Hma Hfl Hf ltac:(lia)) as (new & s' & t' & Er & E2 & H2 & L2 & Z2 & A2).
      { intros s t A' Hs Hk Ha. apply IH'; (done || lia). }
      exists new, s', t'. split; [exact Er|]. split_and!; try done. cbn [snd]. lia.
Qed.

(** ** Frames given back *)
Record frees (s s' : pts) (tabs : gmap (Z * Z) Z) (fs : list Z) : Prop := {
  fr_pt : s'.1 = s.1;
  fr_owned : forall f, owned (w_free s'.2) f <-> owned (w_free s.2) f /\ f ∉ fs;
  fr_mem : forall f, owned (w_free s.2) f -> f ∉ fs -> (forall k, tabs !! k <> Some f) -> same_frame (w_mem s.2) (w_mem s'.2) f;
  fr_shared : tabs !! (3, 0) = Some (root_paddr s.1) -> kernel_entry s' = kernel_entry s;
  fr_space : available_space (w_free s'.2) = available_space (w_free s.2) + Z.of_nat (length fs);
}.

Lemma frees_trans s s1 s2 t fs gs : frees s s1 t fs -> frees s1 s2 t gs -> frees s s2 t (fs ++ gs).
Proof.
  intros [P1 O1 M1 K1 S1] [P2 O2 M2 K2 S2]. split.
  - congruence.
  - intros f. rewrite O2, O1, not_elem_of_app. tauto.
  - intros f Ho [H1 H2]%not_elem_of_app Hk a Ha. rewrite M2, M1; try done. by apply O1.
  - intros Hr. rewrite K2, K1; try done. by rewrite P1.
  - rewrite length_app. lia.
Qed.

Lemma frame_drop_ok w f : fla_ok (w_free w) -> owned (w_free w) f ->
  exists a', frame_drop f w = Some (mkWorld (w_mem w) a') /\ fla_ok a' /\ (forall g, owned a' g <-> owned (w_free w) g /\ g <> f) /\
    available_space a' = available_space (w_free w) + 1.
Proof.
  intros Hok Ho. pose proof (fla_dealloc_ok _ f Hok (proj1 Ho)) as Hd. unfold frame_drop. destruct (fla_dealloc _ _) as [a'|]; [|done].
  destruct Hd as (_ & Hok' & Hown & Hsp). by exists a'.
Qed.

Lemma frames_drop_ok fs : forall w, fla_ok (w_free w) -> NoDup fs -> (forall f, f ∈ fs -> owned (w_free w) f) ->
  exists a', frames_drop fs w = Some (mkWorld (w_mem w) a') /\ fla_ok a' /\ (forall g, owned a' g <-> owned (w_free w) g /\ g ∉ fs) /\
    available_space a' = available_space (w_free w) + Z.of_nat (length fs).
Proof.
  induction fs as [|f fs IH]; intros w Hok Hnd Ho.
  - exists (w_free w). destruct w as [mm a]. split; [done|]. split; [done|]. split; [|cbn; lia]. intros g. split; [intros ?; split; [done|by intros ?%elem_of_nil]|by intros [? _]].
  - apply list.NoDup_cons in Hnd as [Hf Hnd]. destruct (frame_drop_ok w f Hok (Ho f ltac:(by left))) as (a1 & E1 & Hok1 & Hown1 & Hsp1).
    destruct (IH (mkWorld (w_mem w) a1) Hok1 Hnd) as (a' & E & Hok' & Hown & Hsp).
    { intros g Hg. apply Hown1. split; [apply Ho; by right|]. by intros ->. }
    exists a'. cbn [w_mem w_free] in *. split; [|split; [done|split; [|cbn [length]; lia]]].
    + unfold frames_drop in *. cbn [fold_left]. change (Some w ≫= frame_drop f) with (frame_drop f w). cbn [mbind option_bind]. rewrite E1. exact E.
    + intros g. rewrite Hown, Hown1, not_elem_of_cons. tauto.
Qed.

(** ** Unmapping an area *)
Lemma unmap_pages n f fs fl A : A !! n = None -> delete n (map_pages n (f :: fs) fl A) = map_pages (n + 1) fs fl A.
Proof.
  intros HA. apply map_eq. intros v. rewrite lookup_delete, !map_pages_lookup. cbn [length]. case_decide as E.
  - subst v. by rewrite (proj2 (Z.leb_gt _ _)) by lia.
  - destruct (Z.leb_spec (n + 1) v), (Z.leb_spec n v), (Z.ltb_spec v (n + 1 + Z.of_nat (length fs))), (Z.ltb_spec v (n + Z.of_nat (S (length fs))));
      cbn [andb]; try lia; try done. replace (Z.to_nat (v - n)) with (S (Z.to_nat (v - (n + 1)))) by lia. done.
Qed.

Lemma mappable_tail k va A : mappable (S k) va A -> mappable k (va + 4096) A.
Proof.
  intros (H0 & Hm & Hb & HA). split_and!; [lia|rewrite <- (Z.mul_1_l 4096) at 1; by rewrite Z.mod_add by lia|lia|].
  intros v Hv. rewrite next_page in Hv. apply HA. lia.
Qed.

Lemma unmap_loop_ok fs : forall fuel va start sz fl pt w tabs A,
  pt_inv user (pt, w) tabs (map_pages (va / 4096) fs fl A) -> (length fs <= fuel)%nat -> mappable (length fs) va A ->
  NoDup fs -> (forall f, f ∈ fs -> owned (w_free w) f /\ forall k, tabs !! k <> Some f) ->
  exists w', unmap_loop fuel va (va + 4096 * Z.of_nat (length fs)) (mkArea start sz fl (Framed (frames_at va fs))) (pt, w) =
      Some (mkArea start sz fl (Framed []), (pt, w')) /\
    frees (pt, w) (pt, w') tabs fs /\ pt_inv user (pt, w') tabs A.
Proof.
  induction fs as [|f fs IH]; intros fuel va start sz fl pt w tabs A H Hfu Hma Hnd Hfs.
  - exists w. split; [|split; [|done]].
    + destruct fuel; cbn [unmap_loop length]; [done|]. by rewrite Z.mul_0_r, Z.add_0_r, Z.ltb_irrefl.
    + split; try done; [|cbn; lia]. intros g. split; [intros ?; split; [done|by intros ?%elem_of_nil]|by intros [? _]].
  - cbn [length] in *. destruct fuel as [|fuel]; [lia|]. pose proof Hma as (H0 & Hm & Hb & HA). destruct (user_page va ltac:(lia)) as (Epg & Hus & Eva).
    apply list.NoDup_cons in Hnd as [Hf Hnd]. destruct (Hfs f ltac:(by left)) as [Hof Hft].
    destruct (frame_drop_ok w f (pi_free _ _ _ _ H) Hof) as (a1 & E1 & Hok1 & Hown1 & Hsp1).
    assert (H1 : pt_inv user (pt, mkWorld (w_mem w) a1) tabs (map_pages (va / 4096) (f :: fs) fl A)).
    { eapply pt_inv_frame; [exact H|done|apply H|]. intros k g Hg. split; [|done]. apply Hown1. split; [by apply (pi_owned _ _ _ _ H k)|]. intros ->. by apply (Hft k). }
    pose proof (pt_unmap_ok _ _ _ _ H1 va Hus) as Hu. rewrite Epg, map_pages_lookup in Hu. rewrite (proj2 (Z.leb_le _ _)), (proj2 (Z.ltb_lt _ _)), Z.sub_diag in Hu by (cbn [length]; lia).
    change ((f :: fs) !! Z.to_nat 0) with (Some f) in Hu. cbn [andb fmap option_fmap option_map] in Hu. destruct Hu as ([pt2 w2] & E2 & G2 & Ew2 & Ept & H2). cbn [fst snd w_free] in *. subst pt2.
    rewrite unmap_pages in H2 by (apply HA; lia). rewrite <- next_page in H2.
    destruct (IH fuel (va + 4096) start sz fl pt w2 tabs A H2 ltac:(lia) (mappable_tail _ _ _ Hma) Hnd) as (w' & E & F & H').
    { intros g Hg. rewrite Ew2. destruct (Hfs g ltac:(by right)) as [Hog Hgt]. split; [|done]. apply Hown1. split; [done|]. by intros ->. }
    exists w'. split; [|split; [|done]].
    + cbn [unmap_loop]. rewrite (proj2 (Z.ltb_lt _ _)), Eva by lia. cbn [mbind option_bind]. unfold area_unmap. cbn [ar_mapper frames_at bt_get fst snd]. rewrite Z.eqb_refl, E1.
      cbn [mbind option_bind bt_remove]. rewrite Z.eqb_refl, E2. cbn [mbind option_bind]. unfold PAGE_SIZE. change 0x1000 with 4096. rewrite u64_small by lia.
      replace (va + 4096 * Z.of_nat (S (length fs))) with (va + 4096 + 4096 * Z.of_nat (length fs)) by lia. exact E.
    + destruct F as [_ FO FM FK FS]. cbn [fst snd] in *. split; cbn [fst snd].
      * done.
      * intros g. rewrite FO, Ew2, Hown1, not_elem_of_cons. tauto.
      * intros g Hg [Hne Hin]%not_elem_of_cons Hgt a Ha. assert (Hg1 : owned a1 g) by (by apply Hown1).
        rewrite FM; try done; [|by rewrite Ew2]. by apply (gr_mem _ _ _ _ _ G2 g).
      * intros Hr. rewrite FK by done. apply (gr_shared _ _ _ _ _ G2 Hr 511); [lia|unfold user; lia].
      * rewrite FS, Ew2. cbn [length]. lia.
Qed.
