(* ===== verification/Spaces.v ===== *)
(** * An address space is a list of regions

    The invariant of a memory set: the page table maps exactly the pages of the
    areas, in frames that no one else has.  The operations keep it: a new set
    is empty, an area inserted is a region more, a copy has regions alike, and
    what is dropped gives every frame back. *)
From Stdlib Require Import Sorting.Sorted.
From S2P Require Import Prelude Machine Mem Paging PagingTree Aspace Regions.

#[local] Opaque st ld Z.to_nat.

Record region := mkRegion { rg_start : Z; rg_flags : Z; rg_frames : list Z }.
Definition rg_end (r : region) : Z := rg_start r + 4096 * Z.of_nat (length (rg_frames r)).

Record region_ok (r : region) : Prop := {
  ro_start : 0 <= rg_start r /\ rg_start r mod 4096 = 0;
  ro_end : rg_end r <= 2 ^ 47;
  ro_flags : flags_ok (rg_flags r);
  ro_frames : rg_frames r <> [];
}.

(** The area of a region, its pages, the frames of a list of regions. *)
Definition area_of (r : region) : MapArea :=
  mkArea (rg_start r) (4096 * Z.of_nat (length (rg_frames r))) (rg_flags r) (Framed (frames_at (rg_start r) (rg_frames r))).
Definition map_region (r : region) (A : aspace) : aspace := map_pages (rg_start r / 4096) (rg_frames r) (rg_flags r) A.
Definition space (V : list region) : aspace := foldr map_region ∅ V.
Definition frames (V : list region) : list Z := concat (map rg_frames V).

(** Regions in the order of their addresses. *)
Definition before (r r' : region) : Prop := rg_end r <= rg_start r'.
Definition ordered (V : list region) : Prop := StronglySorted before V.

Record holds (ms : MemorySet) (w : world) (tabs : gmap (Z * Z) Z) (V : list region) : Prop := {
  ho_pt : pt_inv user (ms_pt ms, w) tabs (space V);
  ho_areas : ms_areas ms = map (fun r => (rg_start r, area_of r)) V;
  ho_ok : Forall region_ok V;
  ho_order : ordered V;
  ho_nodup : NoDup (frames V);
  ho_frames : forall f, f ∈ frames V -> owned (w_free w) f /\ forall k, tabs !! k <> Some f;
}.

(** A set needs only its own frames. *)
Lemma holds_kept ms w w' tabs V : holds ms w tabs V -> fla_ok (w_free w') -> mem_wf (w_mem w') ->
  (forall k f, tabs !! k = Some f -> owned (w_free w') f /\ same_frame (w_mem w) (w_mem w') f) -> (forall f, f ∈ frames V -> owned (w_free w') f) -> holds ms w' tabs V.
Proof.
  intros [Hp Ha Ho Hor Hnd Hfr] Hok Hw Ht Hf. split; try done; [by eapply pt_inv_frame|]. intros f Hin. split; [by apply Hf|by apply Hfr].
Qed.

Lemma holds_extends ms w w' tabs tabs' V new : holds ms w tabs V -> extends (ms_pt ms, w) (ms_pt ms, w') tabs tabs' new -> pt_inv user (ms_pt ms, w') tabs (space V) -> holds ms w' tabs V.
Proof.
  intros [Hp Ha Ho Hor Hnd Hfr] X Hi. split; try done. intros f Hf. destruct (Hfr f Hf) as [Hof Hk]. by destruct (extends_kept _ _ _ _ _ f X Hof Hk) as (? & ? & _).
Qed.

(** ** Regions *)
Lemma region_pages r : region_ok r -> rg_end r / 4096 = rg_start r / 4096 + Z.of_nat (length (rg_frames r)).
Proof. intros [[_ Hm] _ _ _]. unfold rg_end. rewrite Z.mul_comm, Z.div_add by lia. done. Qed.

Lemma region_nonempty r : region_ok r -> rg_start r < rg_end r.
Proof. intros H. pose proof (ro_frames _ H). unfold rg_end. destruct (rg_frames r); [done|]. cbn [length]. lia. Qed.

Lemma space_none V v : Forall region_ok V -> (forall r, r ∈ V -> v < rg_start r / 4096 \/ rg_end r / 4096 <= v) -> space V !! v = None.
Proof.
  induction V as [|r V IH]; intros Hok Hv; [apply lookup_empty|]. apply list.Forall_cons in Hok as [Hr Hok]. cbn. unfold map_region. rewrite map_pages_lookup.
  pose proof (region_pages r Hr). destruct (Hv r ltac:(by left)) as [?|?];
    destruct (Z.leb_spec (rg_start r / 4096) v), (Z.ltb_spec v (rg_start r / 4096 + Z.of_nat (length (rg_frames r)))); cbn [andb]; try lia;
    (apply IH; [done|]; intros r' Hr'; apply Hv; by right).
Qed.

Lemma map_region_comm r r' A : region_ok r -> region_ok r' -> before r r' \/ before r' r -> map_region r (map_region r' A) = map_region r' (map_region r A).
Proof.
  intros Hr Hr' Hb. apply map_eq. intros v. unfold map_region. rewrite !map_pages_lookup. pose proof (region_pages r Hr). pose proof (region_pages r' Hr').
  assert (rg_end r / 4096 <= rg_start r' / 4096 \/ rg_end r' / 4096 <= rg_start r / 4096) by (unfold before in Hb; destruct Hb; [left|right]; apply Z.div_le_mono; lia).
  destruct (Z.leb_spec (rg_start r / 4096) v), (Z.ltb_spec v (rg_start r / 4096 + Z.of_nat (length (rg_frames r)))),
    (Z.leb_spec (rg_start r' / 4096) v), (Z.ltb_spec v (rg_start r' / 4096 + Z.of_nat (length (rg_frames r')))); cbn [andb]; try lia; done.
Qed.

Lemma space_mid V1 r V2 : Forall region_ok V1 -> region_ok r -> (forall r', r' ∈ V1 -> before r' r) -> space (V1 ++ r :: V2) = map_region r (space (V1 ++ V2)).
Proof.
  intros Hok Hr. induction V1 as [|r' V1 IH]; intros Hb; [done|]. apply list.Forall_cons in Hok as [Hr' Hok]. cbn [app space foldr]. fold (space (V1 ++ r :: V2)). fold (space (V1 ++ V2)).
  rewrite IH; [|done|intros x Hx; apply Hb; by right]. apply map_region_comm; [done..|]. left. apply Hb. by left.
Qed.

Lemma ordered_mid V1 r V2 : ordered (V1 ++ V2) -> (forall r', r' ∈ V1 -> before r' r) -> (forall r', r' ∈ V2 -> before r r') -> ordered (V1 ++ r :: V2).
Proof.
  unfold ordered. intros Hs H1 H2. induction V1 as [|x V1 IH]; cbn in *.
  - constructor; [done|]. by apply list.Forall_forall.
  - apply StronglySorted_inv in Hs as [Hs Hx]. constructor; [apply IH; [done|]; intros y Hy; apply H1; by right|].
    rewrite list.Forall_app in *. destruct Hx as [Hx1 Hx2]. split; [done|]. constructor; [|done]. apply H1. by left.
Qed.

Lemma ordered_app V1 V2 : ordered (V1 ++ V2) -> ordered V1.
Proof. unfold ordered. induction V1 as [|x V1 IH]; cbn; [constructor|]. intros [Hs [Hx _]%list.Forall_app]%StronglySorted_inv. constructor; auto. Qed.

Lemma ordered_before V1 r V2 r' : ordered (V1 ++ r :: V2) -> r' ∈ V1 -> before r' r.
Proof.
  unfold ordered. induction V1 as [|x V1 IH]; [by intros _ ?%elem_of_nil|]. cbn. intros [Hor Hx]%StronglySorted_inv [->|Hin]%elem_of_cons; [|by apply IH].
  rewrite list.Forall_app, list.Forall_cons in Hx. apply Hx.
Qed.

(** A range that meets no region has its place in the order. *)
Lemma place V start stop : Forall region_ok V -> ordered V -> start < stop -> (forall r, r ∈ V -> rg_end r <= start \/ stop <= rg_start r) ->
  exists V1 V2, V = V1 ++ V2 /\ (forall r, r ∈ V1 -> rg_end r <= start) /\ (forall r, r ∈ V2 -> stop <= rg_start r).
Proof.
  induction V as [|r V IH]; intros Hok Hs Hlt Hd.
  - exists [], []. split; [done|]. by split; intros r ?%elem_of_nil.
  - apply list.Forall_cons in Hok as [Hr Hok]. apply StronglySorted_inv in Hs as [Hs Hx]. rewrite list.Forall_forall in Hx. destruct (Hd r ltac:(by left)) as [Hl|Hg].
    + destruct IH as (V1 & V2 & -> & H1 & H2); [done..| |]; [intros r' Hr'; apply Hd; by right|]. exists (r :: V1), V2. split; [done|]. split; [|done].
      intros r' [->|Hr']%elem_of_cons; auto.
    + exists [], (r :: V). split; [done|]. split; [by intros r' ?%elem_of_nil|]. intros r' [->|Hr']%elem_of_cons; [done|].
      specialize (Hx r' Hr'). unfold before in Hx. pose proof (region_nonempty r Hr). lia.
Qed.

Lemma frames_mid V1 r V2 : frames (V1 ++ r :: V2) ≡ₚ rg_frames r ++ frames (V1 ++ V2).
Proof. unfold frames. rewrite !map_app, !concat_app. cbn. by rewrite !app_assoc, (Permutation_app_comm (rg_frames r)). Qed.

(** ** A new set *)
Lemma clone_from_kernel kroot w : pt_clone_from kroot KERNEL_ASPACE_BASE (KERNEL_ASPACE_BASE + KERNEL_ASPACE_SIZE) w =
  ' (pt, w) ← pt_new w; Some (pt, w <| w_mem := st 8 (entry_at (root_paddr pt) 511) (ld 8 (w_mem w) (entry_at kroot 511)) (w_mem w) |>).
Proof.
  unfold pt_clone_from. destruct (pt_new w) as [[pt w1]|]; [|done]. cbn [mbind option_bind].
  assert (E : VirtAddr_new (KERNEL_ASPACE_BASE + KERNEL_ASPACE_SIZE - 1) = Some 0xffffffffffffefff) by (by vm_compute). rewrite E. cbn [mbind option_bind].
  assert (E1 : p4_index KERNEL_ASPACE_BASE = 511) by (by vm_compute). assert (E2 : p4_index 0xffffffffffffefff = 511) by (by vm_compute). rewrite E1, E2.
  assert (E3 : Z.to_nat (8 * (511 + 1 - 511)) = 8%nat) by (by vm_compute). by rewrite E3.
Qed.

(** The kernel's part of the address space: the entry of the kernel's own root. *)
Definition kernel_part (kroot : Z) (w : world) : Z := ld 8 (w_mem w) (entry_at kroot 511).

Lemma kernel_part_same kroot w w' : same_frame (w_mem w) (w_mem w') kroot -> kernel_part kroot w' = kernel_part kroot w.
Proof. intros Hs. apply (same_frame_ld 8 _ _ kroot); [done|unfold entry_at; lia..]. Qed.

Lemma ms_new_ok kroot w : mem_wf (w_mem w) -> fla_ok (w_free w) -> 0 < available_space (w_free w) -> owned (w_free w) kroot ->
  exists ms w' tabs, ms_new kroot w = Some (ms, w') /\ holds ms w' tabs [] /\ kernel_entry (ms_pt ms, w') = kernel_part kroot w /\
    extends (mkPT (root_paddr (ms_pt ms)) [], w) (ms_pt ms, w') ∅ tabs [] /\ available_space (w_free w') = available_space (w_free w) - 1.
Proof.
  intros Hw Hok Hav Hkr. unfold ms_new. rewrite clone_from_kernel. destruct (pt_new_ok user w Hw Hok Hav) as ([pt w1] & -> & H & G & Ha). cbn [mbind option_bind fst snd] in *.
  destruct (pt_inv_shared pt w1 _ _ (ld 8 (w_mem w1) (entry_at kroot 511)) H) as (H' & Ek & Hs).
  pose proof (extends_grows _ _ _ _ G) as [R T O F N D M K S]. cbn [fst snd] in *.
  assert (Hne : forall f, owned (w_free w) f -> f <> root_paddr pt).
  { intros f Hf ->. destruct (F (3, 0) (root_paddr pt)) as [E|E]; [apply lookup_singleton_eq|by rewrite lookup_empty in E|done]. }
  assert (Hk : forall f, owned (w_free w) f -> same_frame (w_mem w) (w_mem w1) f) by (intros f Hf; apply M; [done|intros k; by rewrite lookup_empty]).
  eexists _, _, _. split; [reflexivity|]. split; [|split; [|split; [|exact Ha]]].
  - split; [exact H'|reflexivity|constructor..|by intros f ?%elem_of_nil].
  - cbn [ms_pt]. rewrite Ek. pose proof (ld_range 8 (w_mem w1) (entry_at kroot 511) (pi_wf _ _ _ _ H)) as Hr. change (256 ^ Z.of_nat 8) with (2 ^ 64) in Hr.
    rewrite Z.mod_small by exact Hr. apply (kernel_part_same kroot w w1), Hk, Hkr.
  - split; try done; cbn [fst snd].
    intros f Hf _ a Hr. rewrite <- (Hk f Hf a Hr). exact (Hs f (proj2 (O f) (or_introl Hf)) (Hne f Hf) a Hr).
Qed.

(** ** A region more *)
Lemma keys_of (V : list region) x : x ∈ map (fun r => (rg_start r, area_of r)) V -> exists r, r ∈ V /\ x.1 = rg_start r.
Proof. intros (r & -> & Hr)%list_elem_of_fmap. eauto. Qed.

Lemma area_map_ok n start fl fs pt w tabs A : pt_inv user (pt, w) tabs A -> (length fs <= n)%nat -> mappable n start A -> flags_ok fl ->
  Forall frame_ok fs -> 4 * Z.of_nat n <= available_space (w_free w) ->
  maps n start (4096 * Z.of_nat n) fl start [] fs (pt, w) tabs A (map_area (mkArea start (4096 * Z.of_nat n) fl (Framed (frames_at start fs))) (pt, w)).
Proof.
  intros H Hl Hma Hfl Hfs Hav. pose proof (map_loop_ok n (area_rounds (mkArea start (4096 * Z.of_nat n) fl (Framed (frames_at start fs)))) start (4096 * Z.of_nat n) fl [] fs pt w tabs A) as M.
  cbv zeta in M. cbn [length app] in M. rewrite Z.mul_0_r, Z.add_0_r in M. unfold map_area. cbn [ar_start ar_size]. rewrite u64_small by (destruct Hma as (? & ? & ? & _); lia).
  apply M; try done. unfold area_rounds, PAGE_SIZE. cbn [ar_size]. change 0x1000 with 4096. rewrite Z.mul_comm, Z.div_mul by lia. lia.
Qed.

Section insert.
  Context (ms : MemorySet) (w : world) (tabs : gmap (Z * Z) Z) (V1 V2 : list region) (H : holds ms w tabs (V1 ++ V2)).
  Context (n : nat) (start fl : Z) (fs : list Z).
  Context (Hn : (1 <= n)%nat) (Hlen : (length fs <= n)%nat) (Hst : 0 <= start /\ start mod 4096 = 0) (Hend : start + 4096 * Z.of_nat n <= 2 ^ 47) (Hfl : flags_ok fl).
  Context (Hnd : NoDup fs) (Hfs : forall f, f ∈ fs -> owned (w_free w) f /\ (forall k, tabs !! k <> Some f) /\ f ∉ frames (V1 ++ V2)).
  Context (H1 : forall r, r ∈ V1 -> rg_end r <= start) (H2 : forall r, r ∈ V2 -> start + 4096 * Z.of_nat n <= rg_start r).

Lemma range_mappable : mappable n start (space (V1 ++ V2)).
Proof.
  split_and!; try lia. intros v Hv. apply space_none; [apply H|]. pose proof (ho_ok _ _ _ _ H) as Hok. rewrite list.Forall_forall in Hok.
  assert (E : (start + 4096 * Z.of_nat n) / 4096 = start / 4096 + Z.of_nat n) by (rewrite (Z.mul_comm 4096), Z.div_add by lia; done).
  intros r [Hr|Hr]%elem_of_app; [right|left].
  - specialize (H1 r Hr). assert (rg_end r / 4096 <= start / 4096) by (apply Z.div_le_mono; lia). lia.
  - specialize (H2 r Hr). assert ((start + 4096 * Z.of_nat n) / 4096 <= rg_start r / 4096) by (apply Z.div_le_mono; lia). lia.
Qed.

Lemma insert_ok : 4 * Z.of_nat n <= available_space (w_free w) ->
  exists new ms' w' tabs', let r := mkRegion start fl (fs ++ new) in
    ms_insert (mkArea start (4096 * Z.of_nat n) fl (Framed (frames_at start fs))) (ms, w) = Some (ms', w') /\
    extends (ms_pt ms, w) (ms_pt ms', w') tabs tabs' new /\ holds ms' w' tabs' (V1 ++ r :: V2) /\ length (fs ++ new) = n /\
    Forall (zeroed (w_mem w')) new /\ available_space (w_free w) - 4 * Z.of_nat n <= available_space (w_free w').
Proof.
  intros Hav. pose proof (ho_ok _ _ _ _ H) as Hok. rewrite list.Forall_app in Hok. destruct Hok as [Hok1 Hok2].
  destruct (area_map_ok n start fl fs (ms_pt ms) w tabs _ (ho_pt _ _ _ _ H) Hlen range_mappable Hfl) as (new & [pt' w'] & tabs' & Em & E & Hi & Hl & Hz & Ha); [|lia|].
  { apply list.Forall_forall. intros f Hf. apply (Hfs f Hf). }
  exists new, (mkMS pt' (map (fun r => (rg_start r, area_of r)) (V1 ++ mkRegion start fl (fs ++ new) :: V2))), w', tabs'. cbv zeta.
  assert (Hr : region_ok (mkRegion start fl (fs ++ new))).
  { split; cbn; [done| |done|]; [unfold rg_end; cbn [rg_start rg_frames]; by rewrite Hl|]. intros E0. rewrite E0 in Hl. cbn in Hl. lia. }
  assert (Hb1 : forall r, r ∈ V1 -> before r (mkRegion start fl (fs ++ new))) by done.
  assert (Hb2 : forall r, r ∈ V2 -> before (mkRegion start fl (fs ++ new)) r) by (intros r Hin; unfold before, rg_end; cbn [rg_start rg_frames]; rewrite Hl; by apply H2).
  split; [|split; [exact E|split; [split|split; [done|split; [done|exact Ha]]]]]; cbn [ms_pt ms_areas].
  - unfold ms_insert. cbn [ar_size ar_start]. rewrite (proj2 (Z.ltb_lt _ _)) by lia. rewrite (ho_areas _ _ _ _ H), bt_get_none.
    + rewrite Em. cbn [mbind option_bind app]. rewrite !map_app, bt_insert_mid; [| |].
      * cbn [map]. change (area_of (mkRegion start fl (fs ++ new))) with (mkArea start (4096 * Z.of_nat (length (fs ++ new))) fl (Framed (frames_at start (fs ++ new)))). by rewrite Hl.
      * intros x (r & Hin & ->)%keys_of. specialize (H1 r Hin). rewrite list.Forall_forall in Hok1. pose proof (region_nonempty r (Hok1 r Hin)). lia.
      * intros x (r & Hin & ->)%keys_of. specialize (H2 r Hin). lia.
    + intros x (r & [Hin|Hin]%elem_of_app & ->)%keys_of; [specialize (H1 r Hin); rewrite list.Forall_forall in Hok1; pose proof (region_nonempty r (Hok1 r Hin)); lia|specialize (H2 r Hin); lia].
  - rewrite space_mid by done. exact Hi.
  - done.
  - apply list.Forall_app. split; [done|]. by constructor.
  - by apply ordered_mid; [apply H|..].
  - rewrite frames_mid. cbn [rg_frames]. rewrite <- app_assoc. apply list.NoDup_app. split; [done|]. split.
    + intros f Hf [Hf'|Hf']%elem_of_app; [by apply (ex_new _ _ _ _ _ E f Hf'), (Hfs f)|by apply (Hfs f Hf)].
    + apply list.NoDup_app. split; [apply E|]. split; [|apply H]. intros f Hf Hf'. apply (ex_new _ _ _ _ _ E f Hf), (ho_frames _ _ _ _ H f Hf').
  - intros f. rewrite frames_mid. cbn [rg_frames]. rewrite !elem_of_app. intros [[Hf|Hf]|Hf].
    + destruct (Hfs f Hf) as (Ho & Hk & _). destruct (extends_kept _ _ _ _ _ f E Ho Hk) as (? & ? & _). done.
    + split; [|by apply (ex_new _ _ _ _ _ E f Hf)]. apply (ex_owned _ _ _ _ _ E). auto.
    + destruct (ho_frames _ _ _ _ H f Hf) as (Ho & Hk). destruct (extends_kept _ _ _ _ _ f E Ho Hk) as (? & ? & _). done.
Qed.
End insert.

(** ** A copy *)
Definition alike (mm mm' : gmap Z Z) (r r' : region) : Prop :=
  rg_start r' = rg_start r /\ rg_flags r' = rg_flags r /\ Forall2 (fun f f' => copied mm f mm' f') (rg_frames r) (rg_frames r').

Lemma copied_same mm mm1 f mm2 mm' f' : same_frame mm mm1 f -> copied mm1 f mm2 f' -> same_frame mm2 mm' f' -> copied mm f mm' f'.
Proof. intros H1 Hc H2 i Hi. rewrite H2, Hc, H1 by lia. done. Qed.

Lemma copied_all mm mm1 mm2 mm' fs fs' : (forall f, f ∈ fs -> same_frame mm mm1 f) -> (forall f, f ∈ fs' -> same_frame mm2 mm' f) ->
  Forall2 (fun f f' => copied mm1 f mm2 f') fs fs' -> Forall2 (fun f f' => copied mm f mm' f') fs fs'.
Proof.
  intros H1 H2 Hc. induction Hc as [|f f' fs fs' Hc Hcs IH]; constructor.
  - eapply copied_same; [apply H1; by left|exact Hc|apply H2; by left].
  - apply IH; intros g Hg; [apply H1|apply H2]; by right.
Qed.

Lemma dup_frames_ok own fs : forall start old pt w tabs A, let va := start + 4096 * Z.of_nat (length old) in
  pt_inv own (pt, w) tabs A -> (forall f, f ∈ fs -> owned (w_free w) f /\ forall k, tabs !! k <> Some f) -> Z.of_nat (length fs) <= available_space (w_free w) ->
  exists new w', fold_left dup_frame (frames_at va fs) (Some (frames_at start old, w)) = Some (frames_at start (old ++ new), w') /\
    extends (pt, w) (pt, w') tabs tabs new /\ pt_inv own (pt, w') tabs A /\ Forall2 (fun f f' => copied (w_mem w) f (w_mem w') f') fs new.
Proof.
  induction fs as [|f fs IH]; intros start old pt w tabs A va H Hfs Hav.
  - exists [], w. rewrite app_nil_r. split; [done|]. split; [by eapply extends_refl|]. split; [done|constructor].
  - cbn [length] in Hav. cbn [frames_at fold_left]. unfold dup_frame at 2. cbn [mbind option_bind fst snd].
    destruct (alloc_copy_ok own pt w tabs A f H ltac:(lia)) as (f' & w0 & -> & E1 & H1 & C1). set (w1 := copy_frame f' f w0) in *.
    pose proof (frames_at_insert start old f') as Ei. fold va in Ei. rewrite Ei. pose proof (ex_space _ _ _ _ _ E1) as S1. cbn [fst snd length] in S1.
    destruct (IH start (old ++ [f']) pt w1 tabs A H1) as (new & w' & Ef & E2 & H2 & C2); [|lia|].
    { intros g Hg. destruct (Hfs g ltac:(by right)) as [Ho Hk]. by destruct (extends_kept _ _ _ _ _ g E1 Ho Hk) as (? & ? & _). }
    replace (start + 4096 * Z.of_nat (length (old ++ [f']))) with (va + 4096) in Ef by (rewrite length_app; cbn [length]; unfold va; lia).
    exists (f' :: new), w'. split; [rewrite Ef, <- app_assoc; done|]. split; [exact (extends_trans _ _ _ _ _ _ _ _ E1 E2)|]. split; [done|]. constructor.
    + eapply copied_same; [apply same_frame_refl|exact C1|]. apply (extends_kept _ _ _ _ _ f' E2).
      * apply (ex_owned _ _ _ _ _ E1). right. left. by left.
      * apply (ex_new _ _ _ _ _ E1 f'). by left.
    + eapply copied_all; [|intros g _; apply same_frame_refl|exact C2]. intros g Hg. destruct (Hfs g ltac:(by right)) as [Ho Hk].
      apply (extends_kept _ _ _ _ _ g E1 Ho Hk).
Qed.

(** One area of the parent. *)
Lemma dup_region_ok ms w tabs V r : holds ms w tabs V -> region_ok r -> (forall r', r' ∈ V -> before r' r) ->
  (forall f, f ∈ rg_frames r -> owned (w_free w) f /\ forall k, tabs !! k <> Some f) -> 5 * Z.of_nat (length (rg_frames r)) <= available_space (w_free w) ->
  exists r' ms' w' tabs', dup_step (Some (ms, w)) (rg_start r, area_of r) = Some (ms', w') /\ alike (w_mem w) (w_mem w') r r' /\
    extends (ms_pt ms, w) (ms_pt ms', w') tabs tabs' (rg_frames r') /\ holds ms' w' tabs' (V ++ [r']) /\
    available_space (w_free w) - 5 * Z.of_nat (length (rg_frames r)) <= available_space (w_free w').
Proof.
  intros H Hr Hb Hfs Hav. unfold dup_step, area_dup. cbn [mbind option_bind snd ar_mapper area_of].
  destruct (dup_frames_ok user (rg_frames r) (rg_start r) [] (ms_pt ms) w tabs _ (ho_pt _ _ _ _ H) Hfs ltac:(lia)) as (new & w1 & Ef & E1 & H1 & C1).
  cbn [length app] in Ef. rewrite Z.mul_0_r, Z.add_0_r in Ef. change (frames_at (rg_start r) []) with (@nil (Z * Z)) in Ef. rewrite Ef. cbn [mbind option_bind].
  pose proof (Forall2_length C1) as Hl. pose proof (ex_space _ _ _ _ _ E1) as S1. cbn [fst snd] in S1.
  assert (Hh : holds ms w1 tabs (V ++ [])).
  { rewrite app_nil_r. by eapply holds_extends. }
  assert (Hnew : forall f, f ∈ new -> owned (w_free w1) f /\ (forall k, tabs !! k <> Some f) /\ f ∉ frames (V ++ [])).
  { intros f Hf. destruct (ex_new _ _ _ _ _ E1 f Hf) as [Hno Hk]. split; [apply (ex_owned _ _ _ _ _ E1); auto|]. split; [done|].
    rewrite app_nil_r. intros Hin. by apply Hno, (ho_frames _ _ _ _ H f). }
  destruct (insert_ok ms w1 tabs V [] Hh (length new) (rg_start r) (rg_flags r) new) as (new2 & ms' & w' & t' & Ei & E2 & H2 & L2 & _ & A2); try done.
  - pose proof (ro_frames _ Hr). destruct (rg_frames r); [done|]. cbn in Hl. lia.
  - apply Hr.
  - rewrite <- Hl. apply (ro_end _ Hr).
  - apply Hr.
  - apply E1.
  - intros r' ?%elem_of_nil. done.
  - lia.
  - rewrite length_app in L2. assert (new2 = []) as -> by (destruct new2; [done|cbn in L2; lia]). rewrite app_nil_r in H2.
    exists (mkRegion (rg_start r) (rg_flags r) new), ms', w', t'. split; [rewrite <- Hl in Ei; exact Ei|]. split; [|split; [|split; [exact H2|lia]]].
    + split_and!; [done..|]. eapply copied_all; [intros f _; apply same_frame_refl| |exact C1]. intros f Hf. destruct (Hnew f Hf) as (Ho & Hk & _). apply (extends_kept _ _ _ _ _ f E2 Ho Hk).
    + cbn [rg_frames]. rewrite <- (app_nil_r new). exact (extends_trans _ _ _ _ _ _ _ _ E1 E2).
Qed.

Lemma alike_end mm mm' r r' : alike mm mm' r r' -> rg_end r' = rg_end r.
Proof. intros (Es & _ & Hc). unfold rg_end. by rewrite Es, (Forall2_length Hc). Qed.

Lemma alike_same mm mm1 mm2 mm' r r' : (forall f, f ∈ rg_frames r -> same_frame mm mm1 f) -> (forall f, f ∈ rg_frames r' -> same_frame mm2 mm' f) ->
  alike mm1 mm2 r r' -> alike mm mm' r r'.
Proof. intros H1 H2 (Es & Ef & Hc). split_and!; [done..|]. by eapply copied_all. Qed.

Lemma alike_all mm mm1 mm2 mm' V V' : (forall f, f ∈ frames V -> same_frame mm mm1 f) -> (forall f, f ∈ frames V' -> same_frame mm2 mm' f) ->
  Forall2 (alike mm1 mm2) V V' -> Forall2 (alike mm mm') V V'.
Proof.
  intros H1 H2 Hc. induction Hc as [|r r' V V' Hc Hcs IH]; constructor.
  - eapply alike_same; [| |exact Hc]; intros f Hf; [apply H1|apply H2]; apply elem_of_app; by left.
  - apply IH; intros f Hf; [apply H1|apply H2]; apply elem_of_app; by right.
Qed.

(** The rest of the parent's areas. *)
Lemma dup_all V2 : forall ms w tabs V1, holds ms w tabs V1 -> Forall region_ok V2 -> ordered V2 -> (forall r r', r ∈ V1 -> r' ∈ V2 -> before r r') ->
  (forall f, f ∈ frames V2 -> owned (w_free w) f /\ forall k, tabs !! k <> Some f) -> 5 * Z.of_nat (length (frames V2)) <= available_space (w_free w) ->
  exists V2' ms' w' tabs', fold_left dup_step (map (fun r => (rg_start r, area_of r)) V2) (Some (ms, w)) = Some (ms', w') /\
    Forall2 (alike (w_mem w) (w_mem w')) V2 V2' /\ extends (ms_pt ms, w) (ms_pt ms', w') tabs tabs' (frames V2') /\ holds ms' w' tabs' (V1 ++ V2').
Proof.
  induction V2 as [|r V2 IH]; intros ms w tabs V1 H Hok Hor Hb Hfs Hav.
  - exists [], ms, w, tabs. rewrite app_nil_r. split; [done|]. split; [constructor|]. split; [|done]. eapply extends_refl, H.
  - apply list.Forall_cons in Hok as [Hr Hok]. apply StronglySorted_inv in Hor as [Hor Hx]. rewrite list.Forall_forall in Hx.
    change (frames (r :: V2)) with (rg_frames r ++ frames V2) in *. rewrite length_app in Hav.
    destruct (dup_region_ok ms w tabs V1 r H Hr) as (r' & ms1 & w1 & t1 & Es & Al & E1 & H1 & A1).
    { intros x Hin. apply Hb; [done|by left]. }
    { intros f Hf. apply Hfs, elem_of_app. by left. }
    { lia. }
    assert (Hk : forall f, f ∈ frames V2 -> owned (w_free w1) f /\ (forall k, t1 !! k <> Some f) /\ same_frame (w_mem w) (w_mem w1) f).
    { intros f Hf. destruct (Hfs f ltac:(apply elem_of_app; by right)) as [Ho Ht]. apply (extends_kept _ _ _ _ _ f E1 Ho Ht). }
    destruct (IH ms1 w1 t1 (V1 ++ [r']) H1 Hok Hor) as (V2' & ms' & w' & t' & Ef & Al2 & E2 & H2).
    { intros x y [Hin| ->%list_elem_of_singleton]%elem_of_app Hy; [apply Hb; [done|by right]|]. unfold before. rewrite (alike_end _ _ _ _ Al). by apply Hx. }
    { intros f Hf. by destruct (Hk f Hf) as (? & ? & _). }
    { lia. }
    exists (r' :: V2'), ms', w', t'. cbn [map fold_left]. rewrite Es. split; [exact Ef|]. split; [|split; [exact (extends_trans _ _ _ _ _ _ _ _ E1 E2)|by rewrite <- app_assoc in H2]].
    constructor.
    + eapply alike_same; [intros f _; apply same_frame_refl| |exact Al]. intros f Hf. apply (extends_kept _ _ _ _ _ f E2).
      * apply (ex_owned _ _ _ _ _ E1). auto.
      * by apply (ex_new _ _ _ _ _ E1).
    + eapply alike_all; [|intros f _; apply same_frame_refl|exact Al2]. intros f Hf. by apply Hk.
Qed.

Lemma ms_dup_ok kroot ms w tabs V : holds ms w tabs V -> owned (w_free w) kroot -> 1 + 5 * Z.of_nat (length (frames V)) <= available_space (w_free w) ->
  exists V' ms' w' tabs', ms_dup kroot ms w = Some (ms', w') /\ Forall2 (alike (w_mem w) (w_mem w')) V V' /\
    extends (mkPT (root_paddr (ms_pt ms')) [], w) (ms_pt ms', w') ∅ tabs' (frames V') /\ holds ms' w' tabs' V' /\ holds ms w' tabs V /\
    kernel_entry (ms_pt ms', w') = kernel_part kroot w.
Proof.
  intros H Hkr Hav. pose proof (ho_pt _ _ _ _ H) as Hp. destruct (ms_new_ok kroot w (pi_wf _ _ _ _ Hp) (pi_free _ _ _ _ Hp) ltac:(lia) Hkr) as (ms0 & w0 & t0 & E0 & H0 & K0 & X0 & A0).
  assert (Hk : forall f, owned (w_free w) f -> owned (w_free w0) f /\ (forall k, t0 !! k <> Some f) /\ same_frame (w_mem w) (w_mem w0) f).
  { intros f Hf. apply (extends_kept _ _ _ _ _ f X0 Hf). intros k. by rewrite lookup_empty. }
  destruct (dup_all V ms0 w0 t0 [] H0 (ho_ok _ _ _ _ H) (ho_order _ _ _ _ H)) as (V' & ms' & w' & t' & Ef & Al & X & H').
  { intros r r' ?%elem_of_nil. done. }
  { intros f Hf. destruct (ho_frames _ _ _ _ H f Hf) as [Ho _]. by destruct (Hk f Ho) as (? & ? & _). }
  { lia. }
  pose proof (extends_trans _ _ _ _ _ _ _ _ X0 X) as XX. pose proof (ex_root _ _ _ _ _ X) as Er. cbn [fst] in Er.
  exists V', ms', w', t'. split; [unfold ms_dup; by rewrite E0, (ho_areas _ _ _ _ H)|]. split; [|split; [by rewrite Er|split; [done|split]]].
  - eapply alike_all; [|intros f _; apply same_frame_refl|exact Al]. intros f Hf. apply Hk, (ho_frames _ _ _ _ H f Hf).
  - assert (Hkk : forall f, owned (w_free w) f -> owned (w_free w') f /\ same_frame (w_mem w) (w_mem w') f).
    { intros f Hf. destruct (extends_kept _ _ _ _ _ f XX Hf) as (? & _ & ?); [|done]. intros k. by rewrite lookup_empty. }
    eapply holds_kept; [exact H|apply H'|apply H'|..].
    + intros k f Hf. apply Hkk, (pi_owned _ _ _ _ Hp k f Hf).
    + intros f Hf. apply Hkk, (ho_frames _ _ _ _ H f Hf).
  - rewrite <- K0. apply (ex_shared _ _ _ _ _ X), (tr_root _ _ _ _ _ (pi_tree _ _ _ _ (ho_pt _ _ _ _ H0))).
Qed.

(** ** The end of a set *)
Lemma region_mappable r V : region_ok r -> Forall region_ok V -> ordered (r :: V) -> mappable (length (rg_frames r)) (rg_start r) (space V).
Proof.
  intros Hr Hok Hor. apply StronglySorted_inv in Hor as [_ Hx]. rewrite list.Forall_forall in Hx. pose proof (ro_start _ Hr). pose proof (ro_end _ Hr) as He. unfold rg_end in He.
  split_and!; try lia. intros v Hv. apply space_none; [done|]. intros r' Hin. left. specialize (Hx r' Hin). unfold before in Hx.
  pose proof (region_pages r Hr). assert (rg_end r / 4096 <= rg_start r' / 4096) by (apply Z.div_le_mono; lia). lia.
Qed.

Lemma unmap_region r V pt w tabs : pt_inv user (pt, w) tabs (space (r :: V)) -> region_ok r -> Forall region_ok V -> ordered (r :: V) ->
  NoDup (rg_frames r) -> (forall f, f ∈ rg_frames r -> owned (w_free w) f /\ forall k, tabs !! k <> Some f) ->
  exists ar w', unmap_area (area_of r) (pt, w) = Some (ar, (pt, w')) /\ area_frames ar = [] /\
    frees (pt, w) (pt, w') tabs (rg_frames r) /\ pt_inv user (pt, w') tabs (space V).
Proof.
  intros H Hr Hok Hor Hnd Hfs. pose proof (region_mappable r V Hr Hok Hor) as Hma. pose proof (ro_start _ Hr). pose proof (ro_end _ Hr) as He. unfold rg_end in He.
  destruct (unmap_loop_ok (rg_frames r) (area_rounds (area_of r)) (rg_start r) (rg_start r) (ar_size (area_of r)) (rg_flags r) pt w tabs (space V) H) as (w' & E & F & H'); try done.
  - unfold area_rounds, PAGE_SIZE. cbn [ar_size area_of]. change 0x1000 with 4096. rewrite Z.mul_comm, Z.div_mul by lia. lia.
  - eexists _, w'. split; [unfold unmap_area; cbn [ar_start ar_size area_of] in *; rewrite u64_small by lia; exact E|done].
Qed.

Lemma clear_all V : forall areas pt w tabs, pt_inv user (pt, w) tabs (space V) -> Forall region_ok V -> ordered V -> NoDup (frames V) ->
  (forall f, f ∈ frames V -> owned (w_free w) f /\ forall k, tabs !! k <> Some f) ->
  exists areas' w', fold_left clear_step (map (fun r => (rg_start r, area_of r)) V) (Some (areas, (pt, w))) = Some (areas ++ areas', (pt, w')) /\
    concat (map area_frames areas') = [] /\ frees (pt, w) (pt, w') tabs (frames V) /\ pt_inv user (pt, w') tabs ∅.
Proof.
  induction V as [|r V IH]; intros areas pt w tabs H Hok Hor Hnd Hfs.
  - exists [], w. rewrite app_nil_r. split; [done|]. split; [done|]. split; [|done]. split; try done; [|cbn; lia].
    intros g. split; [intros ?; split; [done|by intros ?%elem_of_nil]|by intros [? _]].
  - apply list.Forall_cons in Hok as [Hr Hok]. change (frames (r :: V)) with (rg_frames r ++ frames V) in *.
    apply list.NoDup_app in Hnd as (Hn1 & Hn2 & Hn3).
    destruct (unmap_region r V pt w tabs H Hr Hok Hor Hn1) as (ar & w1 & Eu & Ea & F1 & H1); [intros f Hf; apply Hfs, elem_of_app; by left|].
    destruct (IH (areas ++ [ar]) pt w1 tabs H1 Hok) as (areas' & w' & Ef & Ec & F2 & H2); [by apply StronglySorted_inv in Hor as [? _]|done| |].
    { intros f Hf. destruct (Hfs f ltac:(apply elem_of_app; by right)) as [Ho Hk]. split; [|done]. apply (fr_owned _ _ _ _ F1). split; [done|]. intros Hin. by apply (Hn2 f). }
    exists (ar :: areas'), w'. cbn [map fold_left]. unfold clear_step at 2. cbn [mbind option_bind snd]. rewrite Eu. cbn [mbind option_bind]. rewrite <- app_assoc in Ef.
    split; [exact Ef|]. split; [cbn; by rewrite Ea, Ec|]. split; [by eapply frees_trans|done].
Qed.

(** [clear] leaves the tables, empty. *)
Lemma ms_clear_ok ms w tabs V : holds ms w tabs V ->
  exists w', ms_clear ms w = Some (mkMS (ms_pt ms) [], w') /\ frees (ms_pt ms, w) (ms_pt ms, w') tabs (frames V) /\ holds (mkMS (ms_pt ms) []) w' tabs [].
Proof.
  intros H. unfold ms_clear. rewrite (ho_areas _ _ _ _ H).
  destruct (clear_all V [] (ms_pt ms) w tabs (ho_pt _ _ _ _ H) (ho_ok _ _ _ _ H) (ho_order _ _ _ _ H) (ho_nodup _ _ _ _ H) (ho_frames _ _ _ _ H)) as (areas & w' & -> & Ec & F & H').
  cbn [mbind option_bind app]. rewrite Ec. exists w'. split; [done|]. split; [done|]. split; [exact H'|reflexivity|constructor..|by intros f ?%elem_of_nil].
Qed.

Lemma ms_drop_ok ms w tabs V : holds ms w tabs V ->
  exists w', ms_drop ms w = Some w' /\ fla_ok (w_free w') /\ mem_wf (w_mem w') /\
    (forall f, owned (w_free w') f <-> owned (w_free w) f /\ (f ∉ frames V) /\ forall k, tabs !! k <> Some f) /\
    (forall f, owned (w_free w') f -> same_frame (w_mem w) (w_mem w') f) /\
    available_space (w_free w') = available_space (w_free w) + Z.of_nat (length (intrm_tables (ms_pt ms))) + Z.of_nat (length (frames V)).
Proof.
  intros H. pose proof (ho_pt _ _ _ _ H) as Hp. unfold ms_drop. destruct (ms_clear_ok ms w tabs V H) as (w1 & -> & F & Hh). pose proof (ho_pt _ _ _ _ Hh) as H1. cbn [mbind option_bind ms_pt] in *.
  destruct (pi_list _ _ _ _ Hp) as [Hnd Hin]. cbn [fst] in *.
  destruct (frames_drop_ok (intrm_tables (ms_pt ms)) w1 (pi_free _ _ _ _ H1) Hnd) as (a' & -> & Hok & Hown & Hsp).
  { intros f Hf. apply Hin in Hf as [k Hk]. apply (pi_owned _ _ _ _ H1 k f Hk). }
  destruct F as [_ FO FM _ FS]. cbn [snd] in *. eexists. split; [reflexivity|]. cbn [w_free w_mem].
  assert (Ho : forall f, owned a' f <-> owned (w_free w) f /\ (f ∉ frames V) /\ forall k, tabs !! k <> Some f).
  { intros f. rewrite Hown, FO, Hin. split; [intros [[? ?] Hn]; split_and!; try done; intros k Hk; apply Hn; eauto|].
    intros (? & ? & Hk). split; [done|]. intros [k E]. by apply (Hk k). }
  split; [done|]. split; [apply H1|]. split; [exact Ho|]. split; [|lia]. intros f (Hf & Hn & Hk)%Ho. by apply FM.
Qed.

(** ** What an address space shows

    The flags of the page of an address, and the byte there. *)
Definition view (V : list region) (mm : gmap Z Z) (va : Z) : option (Z * Z) :=
  (fun x => (x.2, ldb mm (x.1 + va mod 4096))) <$> space V !! (va / 4096).

Definition in_region (r : region) (va : Z) : bool := (rg_start r <=? va) && (va <? rg_end r).

(** The byte at the offset [o] of the pages in the frames [fs]. *)
Definition area_byte (mm : gmap Z Z) (fs : list Z) (o : Z) : Z := ldb mm (fs !!! Z.to_nat (o / 4096) + o mod 4096).

Lemma page_of_range va lo n : lo mod 4096 = 0 -> (lo / 4096 <= va / 4096 < lo / 4096 + n <-> lo <= va < lo + 4096 * n).
Proof.
  intros Hm. pose proof (Z.div_mod lo 4096). pose proof (Z.div_mod va 4096). pose proof (Z.mod_pos_bound va 4096). lia.
Qed.

Lemma view_mid V1 r V2 mm va : Forall region_ok V1 -> region_ok r -> (forall r', r' ∈ V1 -> before r' r) ->
  view (V1 ++ r :: V2) mm va = if in_region r va then Some (rg_flags r, area_byte mm (rg_frames r) (va - rg_start r)) else view (V1 ++ V2) mm va.
Proof.
  intros Hok Hr Hb. unfold view. rewrite space_mid by done. unfold map_region, in_region, rg_end. rewrite map_pages_lookup. destruct (ro_start _ Hr) as [H0 Hm].
  pose proof (page_of_range va (rg_start r) (Z.of_nat (length (rg_frames r))) Hm) as Hp.
  destruct (Z.leb_spec (rg_start r / 4096) (va / 4096)), (Z.ltb_spec (va / 4096) (rg_start r / 4096 + Z.of_nat (length (rg_frames r)))),
    (Z.leb_spec (rg_start r) va), (Z.ltb_spec va (rg_start r + 4096 * Z.of_nat (length (rg_frames r)))); cbn [andb]; try lia; try done.
  destruct (lookup_lt_is_Some_2 (rg_frames r) (Z.to_nat (va / 4096 - rg_start r / 4096)) ltac:(lia)) as [f Hf]. rewrite Hf. cbn. do 2 f_equal. unfold area_byte.
  pose proof (Z.div_mod (rg_start r) 4096). replace (va - rg_start r) with (va + (- (rg_start r / 4096)) * 4096) by lia. rewrite Z.div_add, Z.mod_add by lia.
  replace (va / 4096 + - (rg_start r / 4096)) with (va / 4096 - rg_start r / 4096) by lia. by rewrite (list_lookup_total_correct _ _ _ Hf).
Qed.

Lemma space_frames V v f fl : space V !! v = Some (f, fl) -> f ∈ frames V.
Proof.
  induction V as [|r V IH]; [cbn; by rewrite lookup_empty|]. cbn. unfold map_region. rewrite map_pages_lookup. change (frames (r :: V)) with (rg_frames r ++ frames V).
  rewrite elem_of_app. case_if; [|auto]. destruct (rg_frames r !! _) as [g|] eqn:E; [|done]. intros [= <- _]. left. by eapply list_elem_of_lookup_2.
Qed.

Lemma view_same V mm mm' va : (forall f, f ∈ frames V -> same_frame mm mm' f) -> view V mm' va = view V mm va.
Proof.
  intros Hs. unfold view. destruct (space V !! _) as [[f fl]|] eqn:E; [|done]. cbn. do 2 f_equal. apply (Hs f); [by eapply space_frames|].
  pose proof (Z.mod_pos_bound va 4096). lia.
Qed.

(** Regions alike look alike. *)
Lemma space_alike mm mm' V V' v : Forall2 (alike mm mm') V V' ->
  match space V !! v, space V' !! v with
  | Some (f, fl), Some (f', fl') => fl' = fl /\ copied mm f mm' f' /\ f' ∈ frames V'
  | None, None => True
  | _, _ => False
  end.
Proof.
  intros Ha. induction Ha as [|r r' V V' (Es & Ef & Hc) Ha IH]; [cbn; by rewrite !lookup_empty|]. cbn. fold (space V) (space V'). unfold map_region. rewrite !map_pages_lookup, Es, Ef, <- (Forall2_length Hc).
  change (frames (r' :: V')) with (rg_frames r' ++ frames V'). destruct ((_ <=? _) && _) eqn:E.
  - apply andb_true_iff in E as [E1%Z.leb_le E2%Z.ltb_lt]. destruct (lookup_lt_is_Some_2 (rg_frames r) (Z.to_nat (v - rg_start r / 4096)) ltac:(lia)) as [f Hf]. rewrite Hf.
    destruct (Forall2_lookup_l _ _ _ _ _ Hc Hf) as (f' & Hf' & Hcp). rewrite Hf'. cbn. split_and!; try done. apply elem_of_app. left. by eapply list_elem_of_lookup_2.
  - destruct (space V !! v) as [[f fl]|], (space V' !! v) as [[f' fl']|]; try done. rewrite elem_of_app. destruct IH as (? & ? & ?). auto.
Qed.

Lemma view_alike mm mm' V V' va : Forall2 (alike mm mm') V V' -> view V' mm' va = view V mm va.
Proof.
  intros Ha. pose proof (space_alike mm mm' V V' (va / 4096) Ha) as Hs. unfold view. destruct (space V !! _) as [[f fl]|], (space V' !! _) as [[f' fl']|]; try done.
  destruct Hs as (-> & Hc & _). cbn. do 2 f_equal. apply Hc, Z.mod_pos_bound. lia.
Qed.
