(* ===== verification/Loading.v ===== *)
(** * Loading a program

    What [write_data] leaves in an area and what [load_user] leaves in an
    address space: the bytes of the file at the addresses of its segments, and
    zeros around them. *)
From S2P Require Import Prelude Machine Mem Paging PagingTree Aspace Regions Spaces.

#[local] Opaque st ld Z.to_nat.

(** ** Bytes *)
Lemma ldb_wr_bytes l : forall a mm x, Forall (is_u 8) l ->
  ldb (wr_bytes a l mm) x = if (a <=? x) && (x <? a + Z.of_nat (length l)) then l !!! Z.to_nat (x - a) else ldb mm x.
Proof.
  induction l as [|b l IH]; intros a mm x Hl; cbn [wr_bytes length].
  - destruct (Z.leb_spec a x), (Z.ltb_spec x (a + Z.of_nat 0)); cbn [andb]; (done || lia).
  - apply list.Forall_cons in Hl as [Hb Hl]. rewrite IH, ldb_st by done.
    destruct (Z.leb_spec (a + 1) x), (Z.ltb_spec x (a + 1 + Z.of_nat (length l))), (Z.leb_spec a x), (Z.ltb_spec x (a + Z.of_nat (S (length l)))),
      (Z.ltb_spec x (a + Z.of_nat 1)); cbn [andb]; try lia; try done.
    + replace (Z.to_nat (x - a)) with (S (Z.to_nat (x - (a + 1)))) by lia. done.
    + assert (x = a) as -> by lia. rewrite Z.sub_diag, Z.pow_0_r, Z.div_1_r. cbn. apply Z.mod_small, Hb.
Qed.

Lemma mem_wf_wr_bytes l : forall a mm, mem_wf mm -> mem_wf (wr_bytes a l mm).
Proof. induction l as [|b l IH]; intros a mm H; [done|]. cbn [wr_bytes]. by apply IH, mem_wf_st. Qed.

(** The bytes [data] from the offset [p] on, and zeros. *)
Definition file_byte (p : Z) (data : list Z) (o : Z) : Z :=
  if (p <=? o) && (o <? p + Z.of_nat (length data)) then data !!! Z.to_nat (o - p) else 0.

(** A new frame with the bytes at the offset [off]. *)
Lemma alloc_fill_ok own pt w tabs A off l : pt_inv own (pt, w) tabs A -> 0 < available_space (w_free w) ->
  0 <= off -> off + Z.of_nat (length l) <= 4096 -> Forall (is_u 8) l ->
  exists f w1, frame_alloc_zero w = (Some f, w1) /\ let w' := w1 <| w_mem := wr_bytes (f + off) l (w_mem w1) |> in
    extends (pt, w) (pt, w') tabs tabs [f] /\ pt_inv own (pt, w') tabs A /\ forall i, 0 <= i < 4096 -> ldb (w_mem w') (f + i) = file_byte off l i.
Proof.
  intros H Hav H0 Hl Hu. destruct (take_frame own pt w tabs A H Hav) as (n & a' & Ea & Epa & Hfr & _ & Hw). unfold frame_alloc_zero. rewrite Ea, Epa.
  eexists _, _. split; [reflexivity|]. cbv zeta. destruct (Hw (wr_bytes (n * 4096 + off) l (st (Z.to_nat PAGE_SIZE) (n * 4096) 0 (w_mem w)))) as [He Hi].
  - apply mem_wf_wr_bytes, mem_wf_st, H.
  - intros g Hg Hne a Ha. rewrite ldb_wr_bytes by done. pose proof (frames_apart g _ Hg Hfr Hne).
    destruct (Z.leb_spec (n * 4096 + off) a), (Z.ltb_spec a (n * 4096 + off + Z.of_nat (length l))); cbn [andb]; try lia; by apply (same_frame_store (n * 4096) 0 (w_mem w) g).
  - split; [exact He|]. split; [exact Hi|]. intros i Hr. cbn [w_mem]. unfold file_byte.
    change (ldb (wr_bytes (n * 4096 + off) l (st (Z.to_nat PAGE_SIZE) (n * 4096) 0 (w_mem w))) (n * 4096 + i) = if (off <=? i) && (i <? off + Z.of_nat (length l)) then l !!! Z.to_nat (i - off) else 0).
    rewrite ldb_wr_bytes by done. replace (n * 4096 + i - (n * 4096 + off)) with (i - off) by lia.
    destruct (Z.leb_spec (n * 4096 + off) (n * 4096 + i)), (Z.leb_spec off i), (Z.ltb_spec (n * 4096 + i) (n * 4096 + off + Z.of_nat (length l))), (Z.ltb_spec i (off + Z.of_nat (length l)));
      cbn [andb]; try lia; try done; by apply ldb_zeroed.
Qed.

Lemma area_byte_app mm fs gs o : 0 <= o < 4096 * Z.of_nat (length fs) -> area_byte mm (fs ++ gs) o = area_byte mm fs o.
Proof.
  intros Ho. unfold area_byte. rewrite lookup_total_app_l; [done|]. assert (o / 4096 < Z.of_nat (length fs)) by (apply Z.div_lt_upper_bound; lia).
  assert (0 <= o / 4096) by (apply Z.div_pos; lia). lia.
Qed.

Lemma area_byte_same mm mm' fs o : (forall f, f ∈ fs -> same_frame mm mm' f) -> 0 <= o < 4096 * Z.of_nat (length fs) -> area_byte mm' fs o = area_byte mm fs o.
Proof.
  intros Hs Ho. unfold area_byte. assert (o / 4096 < Z.of_nat (length fs)) by (apply Z.div_lt_upper_bound; lia). assert (0 <= o / 4096) by (apply Z.div_pos; lia).
  destruct (lookup_lt_is_Some_2 fs (Z.to_nat (o / 4096)) ltac:(lia)) as [f Hf]. rewrite (list_lookup_total_correct _ _ _ Hf).
  apply (Hs f); [by eapply list_elem_of_lookup_2|]. pose proof (Z.mod_pos_bound o 4096). lia.
Qed.

Lemma area_byte_last mm fs f i : 0 <= i < 4096 -> area_byte mm (fs ++ [f]) (4096 * Z.of_nat (length fs) + i) = ldb mm (f + i).
Proof.
  intros Hi. unfold area_byte. rewrite (Z.mul_comm 4096), Z.div_add_l, Z.div_small, Z.add_0_r, Nat2Z.id by lia.
  rewrite lookup_total_app_r, Nat.sub_diag by lia. rewrite (Z.add_comm (Z.of_nat (length fs) * 4096) i), Z.mod_add, Z.mod_small by lia. done.
Qed.

Lemma area_byte_zero mm fs new o : Forall (zeroed mm) new -> 4096 * Z.of_nat (length fs) <= o < 4096 * Z.of_nat (length (fs ++ new)) -> area_byte mm (fs ++ new) o = 0.
Proof.
  intros Hz Ho. rewrite length_app in Ho. unfold area_byte. assert (Z.of_nat (length fs) <= o / 4096) by (apply Z.div_le_lower_bound; lia).
  assert (o / 4096 < Z.of_nat (length fs) + Z.of_nat (length new)) by (apply Z.div_lt_upper_bound; lia). rewrite lookup_total_app_r by lia.
  destruct (lookup_lt_is_Some_2 new (Z.to_nat (o / 4096) - length fs) ltac:(lia)) as [f Hf]. rewrite (list_lookup_total_correct _ _ _ Hf).
  rewrite list.Forall_forall in Hz. apply (Hz f); [by eapply list_elem_of_lookup_2|apply Z.mod_pos_bound; lia].
Qed.

(** ** Writing data *)
Lemma align_down_pos p : 0 <= p -> align_down p PAGE_SIZE = 4096 * (p / 4096) /\ p - align_down p PAGE_SIZE = p mod 4096.
Proof.
  intros Hp. unfold align_down, PAGE_SIZE. change (0x1000 - 1) with (Z.ones 12). rewrite <- Z.ldiff_land, Z.ldiff_ones_r by lia.
  rewrite Z.shiftr_div_pow2, Z.shiftl_mul_pow2 by lia. change (2 ^ 12) with 4096. pose proof (Z.div_mod p 4096). lia.
Qed.

(** From the page of the offset [p] on, the pages [new] have the bytes. *)
Definition written (p : Z) (data : list Z) (fs new : list Z) (mm : gmap Z Z) : Prop :=
  forall o, 4096 * Z.of_nat (length fs) <= o < 4096 * Z.of_nat (length (fs ++ new)) -> area_byte mm (fs ++ new) o = file_byte p data o.

Lemma file_byte_first p data n o : (n <= length data)%nat -> o < p + Z.of_nat n -> file_byte p data o = file_byte p (take n data) o.
Proof.
  intros Hn Ho. unfold file_byte. rewrite length_take, Nat.min_l by done.
  destruct (Z.leb_spec p o), (Z.ltb_spec o (p + Z.of_nat (length data))), (Z.ltb_spec o (p + Z.of_nat n)); cbn [andb]; try lia; try done.
  by rewrite lookup_total_take_lt by lia.
Qed.

Lemma file_byte_rest p data n o : (n <= length data)%nat -> p + Z.of_nat n <= o -> file_byte p data o = file_byte (p + Z.of_nat n) (drop n data) o.
Proof.
  intros Hn Ho. unfold file_byte. rewrite length_drop.
  destruct (Z.leb_spec p o), (Z.ltb_spec o (p + Z.of_nat (length data))), (Z.leb_spec (p + Z.of_nat n) o), (Z.ltb_spec o (p + Z.of_nat n + Z.of_nat (length data - n)));
    cbn [andb]; try lia; try done. rewrite lookup_total_drop. f_equal. lia.
Qed.

Lemma file_byte_shift p q data o : file_byte p data o = file_byte (p - q) data (o - q).
Proof.
  unfold file_byte. replace (o - q - (p - q)) with (o - p) by lia.
  destruct (Z.leb_spec p o), (Z.leb_spec (p - q) (o - q)), (Z.ltb_spec o (p + Z.of_nat (length data))), (Z.ltb_spec (o - q) (p - q + Z.of_nat (length data))); cbn [andb]; try lia; done.
Qed.

(** One page of the data. *)
Section write_page.
  Context (own : Z -> Prop) (pt : PageTable) (start sz fl : Z) (tabs : gmap (Z * Z) Z) (A : aspace).
  Context (data : list Z) (p : Z) (fs : list Z) (w : world) (n : Z).
  Context (H : pt_inv own (pt, w) tabs A) (Hd : data <> []) (Hu : Forall (is_u 8) data) (Hp : 0 <= p) (Hpg : p / 4096 = Z.of_nat (length fs)).
  Context (Hn : p + Z.of_nat (length data) <= 4096 * n) (Hav : n - Z.of_nat (length fs) <= available_space (w_free w)).
  Context (Hst : 0 <= start) (Hal : start mod 4096 = 0) (Hend : start + 4096 * n <= 2 ^ 47).

(** The bytes the page takes. *)
Definition chunk : Z := Z.min (4096 - p mod 4096) (Z.of_nat (length data)).

Lemma chunk_range : 0 < chunk <= Z.of_nat (length data) /\ p mod 4096 + chunk <= 4096 /\ p = 4096 * Z.of_nat (length fs) + p mod 4096.
Proof using Hd Hpg.
  pose proof (Z.mod_pos_bound p 4096). pose proof (Z.div_mod p 4096). assert (length data <> 0%nat) by (by intros E%nil_length_inv). unfold chunk. lia.
Qed.

Lemma write_page fuel : exists f w', write_loop (S fuel) p data (mkArea start sz fl (Framed (frames_at start fs)), w) =
    write_loop fuel (p + chunk) (drop (Z.to_nat chunk) data) (mkArea start sz fl (Framed (frames_at start (fs ++ [f]))), w') /\
  extends (pt, w) (pt, w') tabs tabs [f] /\ pt_inv own (pt, w') tabs A /\ written p (take (Z.to_nat chunk) data) fs [f] (w_mem w').
Proof using H Hd Hu Hp Hpg Hn Hav Hst Hal Hend.
  destruct chunk_range as (Hc & Hc2 & Hp4). pose proof (Z.mod_pos_bound p 4096 ltac:(lia)) as Hmod.
  assert (El : length (take (Z.to_nat chunk) data) = Z.to_nat chunk) by (rewrite length_take; lia).
  destruct (alloc_fill_ok own pt w tabs A (p mod 4096) (take (Z.to_nat chunk) data) H) as (f & w1 & Ea & E1 & H1 & B1); [lia|lia|rewrite El; lia|by apply Forall_take|].
  eexists f, _. split; [|split; [exact E1|split; [exact H1|]]].
  - cbn [write_loop]. destruct data as [|b rest] eqn:Ed; [done|]. rewrite <- Ed in *. destruct (align_down_pos p Hp) as [-> _].
    replace (p - 4096 * (p / 4096)) with (p mod 4096) by (pose proof (Z.div_mod p 4096); lia). unfold PAGE_SIZE. change 0x1000 with 4096. fold chunk. rewrite Hpg. cbn [fst snd ar_start].
    rewrite u64_small by lia. destruct (user_page (start + 4096 * Z.of_nat (length fs)) ltac:(lia)) as (_ & _ & ->). cbn [mbind option_bind].
    unfold area_map. rewrite aligned_of by (rewrite (Z.mul_comm 4096), Z.mod_add by lia; done). cbn [negb ar_mapper].
    rewrite frames_at_end, Ea. cbn [mbind option_bind].
    change (mkArea start sz fl (Framed (frames_at start fs)) <| ar_mapper := Framed (bt_insert (start + 4096 * Z.of_nat (length fs)) f (frames_at start fs)) |>)
      with (mkArea start sz fl (Framed (bt_insert (start + 4096 * Z.of_nat (length fs)) f (frames_at start fs)))). rewrite frames_at_insert. done.
  - intros o Ho. rewrite length_app in Ho. cbn [length] in Ho. replace o with (4096 * Z.of_nat (length fs) + (o - 4096 * Z.of_nat (length fs))) at 1 by lia.
    rewrite area_byte_last by lia. rewrite B1 by lia. rewrite (file_byte_shift p (4096 * Z.of_nat (length fs))). f_equal. lia.
Qed.
End write_page.

Lemma write_loop_nil fuel p aw : write_loop fuel p [] aw = Some aw.
Proof. by destruct fuel. Qed.

Lemma write_loop_ok own pt start sz fl tabs A fuel : forall data p fs w n,
  pt_inv own (pt, w) tabs A -> (length data <= fuel)%nat -> Forall (is_u 8) data -> 0 <= p -> p / 4096 = Z.of_nat (length fs) ->
  p + Z.of_nat (length data) <= 4096 * n -> n - Z.of_nat (length fs) <= available_space (w_free w) ->
  0 <= start -> start mod 4096 = 0 -> start + 4096 * n <= 2 ^ 47 -> data <> [] ->
  exists new w', write_loop fuel p data (mkArea start sz fl (Framed (frames_at start fs)), w) = Some (mkArea start sz fl (Framed (frames_at start (fs ++ new))), w') /\
    extends (pt, w) (pt, w') tabs tabs new /\ pt_inv own (pt, w') tabs A /\ written p data fs new (w_mem w') /\
    p + Z.of_nat (length data) <= 4096 * Z.of_nat (length (fs ++ new)) /\ Z.of_nat (length (fs ++ new)) <= n.
Proof.
  induction fuel as [|fuel IH]; intros data p fs w n H Hfu Hu Hp Hpg Hn Hav Hst Hal Hend Hd; [destruct data; [done|cbn in Hfu; lia]|].
  destruct (write_page own pt start sz fl tabs A data p fs w n H Hd Hu Hp Hpg Hn Hav Hst Hal Hend fuel) as (f & w1 & -> & E1 & H1 & W1).
  destruct (chunk_range data p fs Hd Hpg) as (Hc & Hc2 & Hp4). set (m := chunk data p) in *. pose proof (Z.mod_pos_bound p 4096 ltac:(lia)) as Hmod.
  pose proof (length_app fs [f]) as El1. cbn [length] in El1. pose proof (ex_space _ _ _ _ _ E1) as S1. cbn [fst snd length] in S1.
  destruct (decide (drop (Z.to_nat m) data = [])) as [E0|Hne].
  - rewrite E0, write_loop_nil. exists [f], w1. assert (length data <= Z.to_nat m)%nat by (rewrite <- (Nat.sub_0_le (length data)), <- length_drop, E0; done).
    rewrite take_ge in W1 by lia. split_and!; try done; lia.
  - assert (Hfull : m = 4096 - p mod 4096).
    { unfold m, chunk. destruct (Z.le_ge_cases (Z.of_nat (length data)) (4096 - p mod 4096)); [|lia]. destruct Hne. apply drop_ge. unfold m, chunk. lia. }
    destruct (IH (drop (Z.to_nat m) data) (p + m) (fs ++ [f]) w1 n H1) as (new & w' & Ew & E2 & H2 & W2 & L2 & N2); try done.
    + rewrite length_drop. lia.
    + by apply Forall_drop.
    + lia.
    + replace (p + m) with (Z.of_nat (length (fs ++ [f])) * 4096) by lia. by rewrite Z.div_mul by lia.
    + rewrite length_drop. lia.
    + lia.
    + rewrite Ew. rewrite <- app_assoc in L2, N2 |- *. exists (f :: new), w'. cbn [app] in *. rewrite length_drop in L2. split_and!; try (done || lia); [exact (extends_trans _ _ _ _ _ _ _ _ E1 E2)|].
      intros o Ho. destruct (Z.ltb_spec o (p + m)).
      * rewrite (file_byte_first p data (Z.to_nat m)) by lia. rewrite <- (W1 o) by lia. change (fs ++ f :: new) with (fs ++ [f] ++ new). rewrite app_assoc, area_byte_app by lia.
        replace o with (4096 * Z.of_nat (length fs) + (o - 4096 * Z.of_nat (length fs))) by lia. rewrite !area_byte_last by lia.
        apply (extends_kept _ _ _ _ _ f E2); [apply (ex_owned _ _ _ _ _ E1); right; left; by left|apply (ex_new _ _ _ _ _ E1 f); by left|lia].
      * rewrite (file_byte_rest p data (Z.to_nat m)) by lia. rewrite Z2Nat.id by lia. rewrite <- W2; [by rewrite <- app_assoc|]. rewrite <- app_assoc. cbn [app]. lia.
Qed.

(** ** Segments *)
Definition seg_start (ph : ProgramHeader) : Z := 4096 * (ph_virtual_addr ph / 4096).
Definition seg_pages (ph : ProgramHeader) : Z := (ph_virtual_addr ph + ph_mem_size ph + 4095) / 4096 - ph_virtual_addr ph / 4096.
Definition seg_end (ph : ProgramHeader) : Z := seg_start ph + 4096 * seg_pages ph.
Definition seg_data (ph : ProgramHeader) : list Z := default [] (ph_data ph).

(** A segment as linkers write it: in the user's half, not empty, no more bytes in
    the file than in memory. *)
Record segment_ok (ph : ProgramHeader) : Prop := {
  sg_addr : 0 <= ph_virtual_addr ph /\ 0 < ph_mem_size ph /\ ph_virtual_addr ph + ph_mem_size ph < 2 ^ 47;
  sg_data : is_Some (ph_data ph);
  sg_bytes : Forall (is_u 8) (seg_data ph);
  sg_size : Z.of_nat (length (seg_data ph)) <= ph_mem_size ph;
}.

Lemma seg_range ph : segment_ok ph -> 0 <= seg_start ph <= ph_virtual_addr ph /\ ph_virtual_addr ph + ph_mem_size ph <= seg_end ph /\ seg_end ph <= 2 ^ 47 /\ 0 < seg_pages ph.
Proof.
  intros [(H0 & Hm & Hb) _ _ _]. unfold seg_end, seg_start, seg_pages. set (v := ph_virtual_addr ph) in *. set (e := v + ph_mem_size ph) in *.
  pose proof (Z.div_mod v 4096). pose proof (Z.mod_pos_bound v 4096). pose proof (Z.div_mod (e + 4095) 4096). pose proof (Z.mod_pos_bound (e + 4095) 4096).
  assert ((e + 4095) / 4096 <= 2 ^ 35) by (apply Z.lt_succ_r, Z.div_lt_upper_bound; lia). change (2 ^ 47) with (4096 * 2 ^ 35). lia.
Qed.

Lemma align_up_pos x : 0 <= x < 2 ^ 47 -> align_up x PAGE_SIZE = 4096 * ((x + 4095) / 4096).
Proof.
  intros Hx. unfold align_up, PAGE_SIZE. rewrite u64_small by lia. change (0x1000 - 1) with (Z.ones 12). rewrite <- Z.ldiff_land, Z.ldiff_ones_r by lia.
  rewrite Z.shiftr_div_pow2, Z.shiftl_mul_pow2 by lia. change (2 ^ 12) with 4096. replace (x + 0x1000 - 1) with (x + 4095) by lia. lia.
Qed.

Lemma elf_flags_ok ph : flags_ok (mem_flags_of_elf ph).
Proof. unfold flags_ok, mem_flags_of_elf. destruct (ph_is_read ph), (ph_is_write ph), (ph_is_execute ph); vm_compute; split; reflexivity. Qed.

(** What the first steps of a round compute. *)
Lemma load_ph_eq ph ms w : segment_ok ph -> ph_is_load ph = true ->
  load_ph ph (ms, w) =
    ' (area, w) ← write_loop (length (seg_data ph)) (ph_virtual_addr ph mod 4096) (seg_data ph)
      (mkArea (seg_start ph) (4096 * seg_pages ph) (mem_flags_of_elf ph) (Framed (frames_at (seg_start ph) [])), w);
    ms_insert area (ms, w).
Proof.
  intros Hs Hl. pose proof (seg_range ph Hs) as Hr. destruct Hs as [(H0 & Hm & Hb) [data Ed] _ Hz]. unfold load_ph. rewrite Hl. cbn [negb].
  destruct (user_page (ph_virtual_addr ph) ltac:(lia)) as (_ & _ & ->). cbn [mbind option_bind]. rewrite u64_small by lia.
  destruct (user_page (ph_virtual_addr ph + ph_mem_size ph) ltac:(lia)) as (_ & _ & ->). cbn [mbind option_bind].
  assert (Esd : seg_data ph = data) by (unfold seg_data; by rewrite Ed). rewrite Ed, Esd in *. cbn [mbind option_bind].
  destruct (align_down_pos (ph_virtual_addr ph) H0) as [-> _]. fold (seg_start ph). rewrite align_up_pos by lia.
  replace (4096 * ((ph_virtual_addr ph + ph_mem_size ph + 4095) / 4096) - seg_start ph) with (4096 * seg_pages ph) by (unfold seg_start, seg_pages; lia).
  rewrite u64_small by (unfold seg_end in Hr; lia). unfold new_framed. rewrite !aligned_of by (unfold seg_start; rewrite Z.mul_comm; by apply Z.mod_mul).
  cbn [andb mbind option_bind]. unfold page_offset, PAGE_SIZE. change (0x1000 - 1) with (Z.ones 12). rewrite Z.land_ones by lia. change (2 ^ 12) with 4096.
  pose proof (Z.mod_pos_bound (ph_virtual_addr ph) 4096 ltac:(lia)). pose proof (Z.div_mod (ph_virtual_addr ph) 4096 ltac:(lia)).
  unfold write_data. cbn [fst snd ar_size]. rewrite u64_small by lia. unfold seg_end, seg_start in Hr. rewrite (proj2 (Z.ltb_lt _ _)), (proj2 (Z.leb_le _ _)) by lia. done.
Qed.

(** A segment is loaded: its frames have the bytes of the file. *)
Definition loaded (ph : ProgramHeader) (mm : gmap Z Z) (r : region) : Prop :=
  rg_start r = seg_start ph /\ Z.of_nat (length (rg_frames r)) = seg_pages ph /\ rg_flags r = mem_flags_of_elf ph /\
  forall va, in_region r va = true -> area_byte mm (rg_frames r) (va - rg_start r) = file_byte (ph_virtual_addr ph) (seg_data ph) va.

Lemma write_segment_ok ph pt w tabs A : segment_ok ph -> pt_inv user (pt, w) tabs A -> seg_pages ph <= available_space (w_free w) ->
  let p := ph_virtual_addr ph mod 4096 in
  exists fs w', write_loop (length (seg_data ph)) p (seg_data ph) (mkArea (seg_start ph) (4096 * seg_pages ph) (mem_flags_of_elf ph) (Framed (frames_at (seg_start ph) [])), w) =
      Some (mkArea (seg_start ph) (4096 * seg_pages ph) (mem_flags_of_elf ph) (Framed (frames_at (seg_start ph) fs)), w') /\
    extends (pt, w) (pt, w') tabs tabs fs /\ pt_inv user (pt, w') tabs A /\ written p (seg_data ph) [] fs (w_mem w') /\
    Z.of_nat (length fs) <= seg_pages ph /\ forall o, 4096 * Z.of_nat (length fs) <= o -> file_byte p (seg_data ph) o = 0.
Proof.
  intros Hs H Hav p. pose proof (seg_range ph Hs) as Hr. pose proof (Z.mod_pos_bound (ph_virtual_addr ph) 4096 ltac:(lia)) as Hmod. pose proof (Z.div_mod (ph_virtual_addr ph) 4096 ltac:(lia)) as Hdm.
  fold p in Hmod, Hdm. destruct (decide (seg_data ph = [])) as [E|Hne].
  - exists [], w. rewrite E. split; [done|]. split; [by eapply extends_refl|]. split; [done|]. split; [intros o Ho; cbn in Ho; lia|]. split; [cbn; lia|].
    intros o _. unfold file_byte. cbn [length]. destruct (Z.leb_spec p o), (Z.ltb_spec o (p + Z.of_nat 0)); cbn [andb]; (done || lia).
  - destruct (write_loop_ok user pt (seg_start ph) (4096 * seg_pages ph) (mem_flags_of_elf ph) tabs A (length (seg_data ph)) (seg_data ph) p [] w (seg_pages ph) H)
      as (fs & w' & E & X & H' & W & L & N); try (done || lia); try apply Hs.
    + by rewrite Z.div_small by lia.
    + unfold seg_end, seg_start in Hr. pose proof (sg_size _ Hs). lia.
    + unfold seg_start. rewrite Z.mul_comm. by apply Z.mod_mul.
    + unfold seg_end in Hr. lia.
    + exists fs, w'. cbn [app] in *. split_and!; try done. intros o Ho. unfold file_byte.
      destruct (Z.leb_spec p o), (Z.ltb_spec o (p + Z.of_nat (length (seg_data ph)))); cbn [andb]; (done || lia).
Qed.

Lemma load_ph_ok ph ms w tabs V : segment_ok ph -> ph_is_load ph = true -> holds ms w tabs V ->
  (forall r, r ∈ V -> rg_end r <= seg_start ph \/ seg_end ph <= rg_start r) -> 5 * seg_pages ph <= available_space (w_free w) ->
  exists r V1 V2 ms' w' tabs', V = V1 ++ V2 /\ load_ph ph (ms, w) = Some (ms', w') /\ holds ms' w' tabs' (V1 ++ r :: V2) /\ loaded ph (w_mem w') r /\
    extends (ms_pt ms, w) (ms_pt ms', w') tabs tabs' (rg_frames r) /\ available_space (w_free w) - 5 * seg_pages ph <= available_space (w_free w').
Proof.
  intros Hs Hl H Hd Hav. pose proof (seg_range ph Hs) as Hr. rewrite load_ph_eq by done.
  destruct (write_segment_ok ph (ms_pt ms) w tabs _ Hs (ho_pt _ _ _ _ H) ltac:(lia)) as (fs & w1 & -> & E1 & H1 & W1 & N1 & Z1). cbn [mbind option_bind].
  destruct (place V (seg_start ph) (seg_end ph) (ho_ok _ _ _ _ H) (ho_order _ _ _ _ H) ltac:(unfold seg_end; lia) Hd) as (V1 & V2 & -> & P1 & P2).
  pose proof (ex_space _ _ _ _ _ E1) as S1. cbn [fst snd] in S1.
  assert (Hh : holds ms w1 tabs (V1 ++ V2)).
  { by eapply holds_extends. }
  assert (Hnew : forall f, f ∈ fs -> owned (w_free w1) f /\ (forall k, tabs !! k <> Some f) /\ f ∉ frames (V1 ++ V2)).
  { intros f Hf. destruct (ex_new _ _ _ _ _ E1 f Hf) as [Hno Hk]. split; [apply (ex_owned _ _ _ _ _ E1); auto|]. split; [done|]. intros Hin. by apply Hno, (ho_frames _ _ _ _ H f). }
  destruct (insert_ok ms w1 tabs V1 V2 Hh (Z.to_nat (seg_pages ph)) (seg_start ph) (mem_flags_of_elf ph) fs) as (new & ms' & w' & t' & Ei & E2 & H2 & L2 & Z2 & A2).
  all: try rewrite !(Z2Nat.id (seg_pages ph)) in * by lia; try done; try lia.
  - split; [lia|]. unfold seg_start. rewrite Z.mul_comm. by apply Z.mod_mul.
  - apply Hr.
  - apply elf_flags_ok.
  - apply E1.
  - eexists _, V1, V2, ms', w', t'. split; [done|]. split; [exact Ei|]. split; [exact H2|]. cbn [rg_frames]. split; [|split; [exact (extends_trans _ _ _ _ _ _ _ _ E1 E2)|lia]].
    split; [done|]. cbn [rg_frames rg_flags rg_start]. split; [rewrite L2, Z2Nat.id by lia; done|]. split; [done|]. intros va Hva. unfold in_region, rg_end in Hva. cbn [rg_start rg_frames] in Hva.
    apply andb_true_iff in Hva as [V_lo%Z.leb_le V_hi%Z.ltb_lt]. set (o := va - seg_start ph).
    rewrite (file_byte_shift _ (seg_start ph)). replace (ph_virtual_addr ph - seg_start ph) with (ph_virtual_addr ph mod 4096) by (unfold seg_start; rewrite Z.mod_eq; lia). fold o.
    destruct (Z.ltb_spec o (4096 * Z.of_nat (length fs))).
    + rewrite area_byte_app, (area_byte_same (w_mem w1)) by (try lia; intros f Hf; destruct (Hnew f Hf) as (Ho & Hk & _); apply (extends_kept _ _ _ _ _ f E2 Ho Hk)).
      apply W1. cbn [length app]. lia.
    + rewrite Z1 by lia. by apply area_byte_zero; [|lia].
Qed.

(** ** Programs *)
Definition in_segment (ph : ProgramHeader) (va : Z) : bool := ph_is_load ph && ((seg_start ph <=? va) && (va <? seg_end ph)).

(** What the segments of a program put at an address: the flags and the byte. *)
Fixpoint image_of (phs : list ProgramHeader) (va : Z) : option (Z * Z) :=
  match phs with
  | [] => None
  | ph :: phs => if in_segment ph va then Some (mem_flags_of_elf ph, file_byte (ph_virtual_addr ph) (seg_data ph) va) else image_of phs va
  end.

(** The pages of the segments. *)
Fixpoint load_pages (phs : list ProgramHeader) : Z :=
  match phs with [] => 0 | ph :: phs => (if ph_is_load ph then seg_pages ph else 0) + load_pages phs end.

Definition seg_apart (ph ph' : ProgramHeader) : Prop := seg_end ph <= seg_start ph' \/ seg_end ph' <= seg_start ph.
Fixpoint apart (phs : list ProgramHeader) : Prop :=
  match phs with
  | [] => True
  | ph :: phs => (ph_is_load ph = true -> forall ph', ph' ∈ phs -> ph_is_load ph' = true -> seg_apart ph ph') /\ apart phs
  end.

Lemma image_in phs va x : image_of phs va = Some x -> exists ph, ph ∈ phs /\ ph_is_load ph = true /\ seg_start ph <= va < seg_end ph.
Proof.
  induction phs as [|ph phs IH]; [done|]. cbn. unfold in_segment. destruct (ph_is_load ph) eqn:El; cbn [andb].
  - destruct (Z.leb_spec (seg_start ph) va), (Z.ltb_spec va (seg_end ph)); cbn [andb].
    + intros _. exists ph. split; [by left|auto].
    + intros (p & ? & ?)%IH. exists p. split; [by right|done].
    + intros (p & ? & ?)%IH. exists p. split; [by right|done].
    + intros (p & ? & ?)%IH. exists p. split; [by right|done].
  - intros (p & ? & ?)%IH. exists p. split; [by right|done].
Qed.

Lemma load_pages_nonneg phs : Forall (fun ph => ph_is_load ph = true -> segment_ok ph) phs -> 0 <= load_pages phs.
Proof.
  intros H. induction H as [|ph phs Hp _ IH]; [done|]. cbn. destruct (ph_is_load ph); [|lia]. pose proof (seg_range ph (Hp eq_refl)). lia.
Qed.

Lemma loaded_view ph V1 r V2 ms' w w' tabs' va : loaded ph (w_mem w') r -> ph_is_load ph = true -> holds ms' w' tabs' (V1 ++ r :: V2) ->
  (forall f, f ∈ frames (V1 ++ V2) -> same_frame (w_mem w) (w_mem w') f) ->
  view (V1 ++ r :: V2) (w_mem w') va =
    if in_segment ph va then Some (mem_flags_of_elf ph, file_byte (ph_virtual_addr ph) (seg_data ph) va) else view (V1 ++ V2) (w_mem w) va.
Proof.
  intros (Es & El & Ef & Hb) Hl H Hs. pose proof (ho_ok _ _ _ _ H) as Hok. rewrite list.Forall_app, list.Forall_cons in Hok. destruct Hok as (Ho1 & Hr & Ho2).
  rewrite view_mid; [|done|done|].
  - assert (E : in_segment ph va = in_region r va) by (unfold in_segment, in_region, rg_end, seg_end; by rewrite Hl, Es, El). rewrite E.
    destruct (in_region r va) eqn:Ein; [rewrite Ef; by rewrite Hb by done|by apply view_same].
  - intros r'. apply ordered_before with V2, H.
Qed.

Lemma load_all phs : forall ms w tabs V, holds ms w tabs V -> Forall (fun ph => ph_is_load ph = true -> segment_ok ph) phs -> apart phs ->
  (forall ph r, ph ∈ phs -> ph_is_load ph = true -> r ∈ V -> rg_end r <= seg_start ph \/ seg_end ph <= rg_start r) -> 5 * load_pages phs <= available_space (w_free w) ->
  exists V' ms' w' tabs' new, fold_left load_step phs (Some (ms, w)) = Some (ms', w') /\ holds ms' w' tabs' V' /\
    extends (ms_pt ms, w) (ms_pt ms', w') tabs tabs' new /\ frames V' ≡ₚ new ++ frames V /\
    (forall va, view V' (w_mem w') va = match image_of phs va with Some x => Some x | None => view V (w_mem w) va end) /\
    (forall r, r ∈ V' -> r ∈ V \/ exists ph, ph ∈ phs /\ ph_is_load ph = true /\ rg_start r = seg_start ph /\ rg_end r = seg_end ph) /\
    available_space (w_free w) - 5 * load_pages phs <= available_space (w_free w').
Proof.
  induction phs as [|ph phs IH]; intros ms w tabs V H Hok Hap Hd Hav.
  - exists V, ms, w, tabs, []. split; [done|]. split; [done|]. split; [eapply extends_refl, H|]. split; [done|]. split; [done|]. split; [auto|]. cbn. lia.
  - apply list.Forall_cons in Hok as [Hs Hok]. destruct Hap as [Ha Hap]. pose proof (load_pages_nonneg phs Hok) as Hn. cbn [fold_left load_pages image_of] in *. unfold load_step at 2. cbn [mbind option_bind].
    destruct (ph_is_load ph) eqn:El.
    2:{ assert (E : load_ph ph (ms, w) = Some (ms, w)) by (unfold load_ph; by rewrite El). rewrite E.
        destruct (IH ms w tabs V H Hok Hap) as (V' & ms' & w' & t' & new & Ef & H' & X & Fp & Hv & Hr & A'); [intros p r Hp; apply Hd; by right|lia|].
        exists V', ms', w', t', new. split_and!; try done; [|intros r Hin; destruct (Hr r Hin) as [?|(p & ? & ?)]; [by left|right; exists p; split; [by right|done]]].
        intros va. rewrite Hv. unfold in_segment. by rewrite El. }
    specialize (Hs eq_refl). pose proof (seg_range ph Hs) as Hsr.
    destruct (load_ph_ok ph ms w tabs V Hs El H) as (r & V1 & V2 & ms1 & w1 & t1 & EV & E1 & H1 & L1 & X1 & A1); [intros r; by apply Hd; [left|]|lia|].
    assert (Hre : rg_start r = seg_start ph /\ rg_end r = seg_end ph) by (destruct L1 as (Es & Ep & _); split; [done|]; unfold rg_end, seg_end; by rewrite Es, Ep). rewrite E1.
    assert (Hmem : forall x, x ∈ V1 ++ r :: V2 -> x = r \/ x ∈ V) by (intros x; rewrite EV, !elem_of_app, elem_of_cons; tauto).
    destruct (IH ms1 w1 t1 (V1 ++ r :: V2) H1 Hok Hap) as (V' & ms' & w' & t' & new & Ef & H' & X & Fp & Hv & Hr & A').
    { intros p x Hp Hpl [->|Hx]%Hmem; [|by apply Hd; [right|..]]. destruct Hre as [-> ->]. destruct (Ha eq_refl p Hp Hpl); auto. }
    { lia. }
    exists V', ms', w', t', (rg_frames r ++ new). split; [exact Ef|]. split; [done|]. split; [exact (extends_trans _ _ _ _ _ _ _ _ X1 X)|].
    split; [rewrite Fp, frames_mid, <- EV, !app_assoc; by rewrite (Permutation_app_comm new)|]. split; [|split; [|lia]].
    + intros va. rewrite Hv, (loaded_view ph V1 r V2 ms1 w w1 t1 va L1 El H1).
      * rewrite <- EV. destruct (image_of phs va) as [x|] eqn:Ei; [|by destruct (in_segment ph va)]. destruct (in_segment ph va) eqn:Es; [|done]. exfalso.
        destruct (image_in phs va x Ei) as (p & Hp & Hpl & Hpr). unfold in_segment in Es. rewrite El in Es. cbn [andb] in Es. apply andb_true_iff in Es as [E_lo%Z.leb_le E_hi%Z.ltb_lt].
        destruct (Ha eq_refl p Hp Hpl); lia.
      * intros f Hf. rewrite <- EV in Hf. destruct (ho_frames _ _ _ _ H f Hf) as [Ho Hk]. apply (extends_kept _ _ _ _ _ f X1 Ho Hk).
    + intros x Hx. destruct (Hr x Hx) as [[->|?]%Hmem|(p & ? & ?)]; [right; exists ph; split; [by left|done]|by left|right; exists p; split; [by right|done]].
Qed.
