(* ===== verification/AspaceFacts.v ===== *)
(** * Processes' memory

    What the processor sees through the tables of an address space: the program
    that was loaded, the same in a copy, and that a copy which ends leaves no
    trace. *)
From S2P Require Import Prelude Cpu Machine Mem Mmu MmuFacts Paging PagingTree PagingFacts Aspace Regions Spaces Loading.

#[local] Opaque st ld Z.to_nat.

(** Every access of the processor to the user's half answers as [I] tells: a page
    that is not there faults, so does an access that its flags forbid, and else
    the access reaches a byte with the contents [I] gives. *)
Definition sees (ms : MemorySet) (w : world) (I : Z -> option (Z * Z)) : Prop :=
  forall d hp m va acc mmu_idx pg_mode, mem m = w_mem w -> no_nesting d hp m -> config (env (cpus m !!! d)) pg_mode -> 0 <= acc <= 2 -> 0 <= va < 2 ^ 47 ->
  let tr := answer (mmu_translate d hp va (root_paddr (ms_pt ms)) acc mmu_idx pg_mode m) in
  match I va with
  | None => tr = Some (inl (fault_code do_fault acc mmu_idx pg_mode))
  | Some (fl, b) =>
      let r := page_rights fl in
      if (mmu_idx =? MMU_USER_IDX) && negb (r_user r) || negb (allows r mmu_idx pg_mode acc)
      then tr = Some (inl (fault_code do_fault_protect acc mmu_idx pg_mode)) else exists pa, tr = Some (inr (pa, 4096)) /\ ldb (mem m) pa = b
  end.

Lemma holds_sees ms w tabs V : holds ms w tabs V -> sees ms w (view V (w_mem w)).
Proof.
  intros H d hp m va acc mmu_idx pg_mode Em Hn C Hacc Hva. cbv zeta. pose proof (ho_pt _ _ _ _ H) as Hp. destruct (user_page va Hva) as (Epg & Hus & _).
  rewrite answer_ref; try done; [|rewrite Em; apply Hp| |apply C|apply C].
  - pose proof (translate_ok user _ tabs _ Hp _ pg_mode C va Hus acc mmu_idx) as Ht. cbn [fst snd] in Ht. rewrite Em, Ht. unfold spec_translate, view. rewrite Epg.
    destruct (space V !! (va / 4096)) as [[f fl]|]; [|done]. cbn [fmap option_fmap option_map fst snd]. case_match; [done|]. by eexists.
  - destruct (table_frame _ _ _ _ Hp _ _ (tr_root _ _ _ _ _ (pi_tree _ _ _ _ Hp))) as [_ Hr]. cbn [fst] in Hr. split; lia.
Qed.

Lemma sees_ext ms w I J : (forall va, I va = J va) -> sees ms w I -> sees ms w J.
Proof. intros E H d hp m va acc mmu_idx pg_mode H1 H2 H3 H4 H5. rewrite <- E. by apply H. Qed.

(** ** Loading *)
Definition in_stack (va : Z) : bool := (USER_STACK_BASE <=? va) && (va <? USER_STACK_BASE + USER_STACK_SIZE).

(** What a program sees when it starts. *)
Definition program_image (elf : ElfFile) (va : Z) : option (Z * Z) :=
  if in_stack va then Some (Z.lor (Z.lor READ WRITE) USER, 0) else image_of (elf_program elf) va.

Record elf_ok (elf : ElfFile) : Prop := {
  eo_kind : elf_is_executable elf = true /\ elf_is_x86_64 elf = true;
  eo_entry : 0 <= elf_entry_point elf < 2 ^ 47;
  eo_segments : Forall (fun ph => ph_is_load ph = true -> segment_ok ph) (elf_program elf);
  eo_apart : apart (elf_program elf);
  eo_stack : Forall (fun ph => ph_is_load ph = true -> seg_end ph <= USER_STACK_BASE \/ USER_STACK_BASE + USER_STACK_SIZE <= seg_start ph) (elf_program elf);
}.

(** Where the next area goes is free: a stack of zeros. *)
Lemma insert_stack ms w tabs V : holds ms w tabs V -> (forall r, r ∈ V -> rg_end r <= USER_STACK_BASE \/ USER_STACK_BASE + USER_STACK_SIZE <= rg_start r) ->
  16 <= available_space (w_free w) ->
  exists V' ms' w' tabs' new, ms_insert (mkArea USER_STACK_BASE USER_STACK_SIZE (Z.lor (Z.lor READ WRITE) USER) (Framed [])) (ms, w) = Some (ms', w') /\ holds ms' w' tabs' V' /\
    extends (ms_pt ms, w) (ms_pt ms', w') tabs tabs' new /\ frames V' ≡ₚ new ++ frames V /\
    forall va, view V' (w_mem w') va = if in_stack va then Some (Z.lor (Z.lor READ WRITE) USER, 0) else view V (w_mem w) va.
Proof.
  intros H Hd Hav. destruct (place V USER_STACK_BASE (USER_STACK_BASE + USER_STACK_SIZE) (ho_ok _ _ _ _ H) (ho_order _ _ _ _ H) eq_refl Hd) as (V1 & V2 & -> & P1 & P2).
  destruct (insert_ok ms w tabs V1 V2 H 4 USER_STACK_BASE (Z.lor (Z.lor READ WRITE) USER) []) as (new & ms' & w' & t' & Ei & E2 & H2 & L2 & Z2 & A2); try done; try (by constructor); try (cbn; lia).
  - intros f Hf. by apply elem_of_nil in Hf.
  - cbn [app] in *. eexists _, ms', w', t', new. split; [exact Ei|]. split; [exact H2|]. split; [done|]. split; [apply frames_mid|]. intros va. pose proof (ho_ok _ _ _ _ H2) as Hok.
    rewrite list.Forall_app, list.Forall_cons in Hok. destruct Hok as (Ho1 & Hr & Ho2). rewrite view_mid; [|done|done|intros r'; apply ordered_before with V2, H2].
    assert (E : in_region (mkRegion USER_STACK_BASE (Z.lor (Z.lor READ WRITE) USER) new) va = in_stack va) by (unfold in_region, rg_end; cbn [rg_start rg_frames]; by rewrite L2).
    rewrite E. unfold in_stack. destruct (Z.leb_spec USER_STACK_BASE va), (Z.ltb_spec va (USER_STACK_BASE + USER_STACK_SIZE)); cbn [andb];
      try (apply view_same; intros f Hf; destruct (ho_frames _ _ _ _ H f Hf) as [Ho Hk]; apply (extends_kept _ _ _ _ _ f E2 Ho Hk)).
    cbn [rg_flags rg_frames rg_start]. do 2 f_equal. apply (area_byte_zero _ []); [done|]. cbn [app]. rewrite L2. cbn [length]. change (4096 * Z.of_nat 4) with USER_STACK_SIZE. lia.
Qed.

Lemma load_user_ok elf_new elf_data elf ms w tabs : elf_new elf_data = Some elf -> elf_ok elf -> holds ms w tabs [] ->
  5 * load_pages (elf_program elf) + 16 <= available_space (w_free w) ->
  exists V ms' w' tabs' new, load_user elf_new elf_data (ms, w) = Some ((elf_entry_point elf, USER_STACK_BASE + USER_STACK_SIZE), (ms', w')) /\ holds ms' w' tabs' V /\
    extends (ms_pt ms, w) (ms_pt ms', w') tabs tabs' new /\ frames V ≡ₚ new /\ forall va, view V (w_mem w') va = program_image elf va.
Proof.
  intros Ee [[Ex Em] Hen Hsg Hap Hst] H Hav. unfold load_user. rewrite Ee. cbn [mbind option_bind]. rewrite Ex, Em. cbn [andb negb].
  destruct (load_all (elf_program elf) ms w tabs [] H Hsg Hap) as (V1 & ms1 & w1 & t1 & n1 & -> & H1 & X1 & F1 & Hv1 & Hr1 & A1); [intros ph r _ _ Hr; by apply elem_of_nil in Hr|lia|].
  cbn [mbind option_bind]. assert (Eb : VirtAddr_new USER_STACK_BASE = Some USER_STACK_BASE) by (by vm_compute). rewrite Eb. cbn [mbind option_bind].
  assert (Ef : new_framed USER_STACK_BASE USER_STACK_SIZE (Z.lor (Z.lor READ WRITE) USER) = Some (mkArea USER_STACK_BASE USER_STACK_SIZE (Z.lor (Z.lor READ WRITE) USER) (Framed []))) by (by vm_compute).
  rewrite Ef. cbn [mbind option_bind]. rewrite list.Forall_forall in Hst.
  destruct (insert_stack ms1 w1 t1 V1 H1) as (V & ms' & w' & t' & n2 & -> & H2 & X2 & F2 & Hv2); [|lia|].
  { intros r Hr. destruct (Hr1 r Hr) as [?%elem_of_nil|(ph & Hp & Hl & Es & Een)]; [done|]. rewrite Es, Een. by apply Hst. }
  cbn [mbind option_bind]. destruct (user_page _ Hen) as (_ & _ & ->). cbn [mbind option_bind].
  assert (Et : VirtAddr_new (USER_STACK_BASE + USER_STACK_SIZE) = Some (USER_STACK_BASE + USER_STACK_SIZE)) by (by vm_compute). rewrite Et. cbn [mbind option_bind].
  exists V, ms', w', t', (n1 ++ n2). split; [done|]. split; [done|]. split; [exact (extends_trans _ _ _ _ _ _ _ _ X1 X2)|].
  split; [rewrite F2, F1, app_nil_r; apply Permutation_app_comm|].
  intros va. rewrite Hv2, Hv1. unfold program_image, view. cbn [space foldr]. rewrite lookup_empty. case_if; [done|]. by destruct (image_of (elf_program elf) va).
Qed.

(** The frames in use before keep their owners and their contents. *)
Definition leaves (w w' : world) : Prop := forall f, owned (w_free w) f -> owned (w_free w') f /\ same_frame (w_mem w) (w_mem w') f.

Lemma extends_leaves root w s' t' new : extends (mkPT root [], w) s' ∅ t' new -> leaves w s'.2.
Proof. intros X f Hf. destruct (extends_kept _ _ _ _ _ f X Hf) as (? & _ & ?); [intros k; by rewrite lookup_empty|done]. Qed.

(** C11. Loading a program gives it the memory its file describes.  For an
    executable whose segments lie apart in the user's half, and with enough free
    frames, [MemorySet::new] and [load_user] succeed and return the entry point
    and the top of the stack; through the new tables the processor then sees at
    every address of a segment the byte of the file that belongs there or, past
    the file's data, zero, with the rights the segment asks for; a stack of
    zeros that may be read and written; and a fault everywhere else.  The
    kernel's entry of the root table is the kernel's own, and no frame that
    was in use before has changed. *)
Theorem load_user_shows (elf_new : list Z -> option ElfFile) (elf_data : list Z) (elf : ElfFile) (kroot : Z) (w : world) :
  elf_new elf_data = Some elf -> elf_ok elf -> mem_wf (w_mem w) -> fla_ok (w_free w) -> owned (w_free w) kroot ->
  5 * load_pages (elf_program elf) + 17 <= available_space (w_free w) ->
  exists ms0 w0 ms w', ms_new kroot w = Some (ms0, w0) /\
    load_user elf_new elf_data (ms0, w0) = Some ((elf_entry_point elf, USER_STACK_BASE + USER_STACK_SIZE), (ms, w')) /\
    sees ms w' (program_image elf) /\ kernel_entry (ms_pt ms, w') = kernel_part kroot w /\ leaves w w' /\ exists tabs V, holds ms w' tabs V.
Proof.
  intros Ee He Hw Hok Hkr Hav. destruct (ms_new_ok kroot w Hw Hok ltac:(pose proof (load_pages_nonneg _ (eo_segments _ He)); lia) Hkr) as (ms0 & w0 & t0 & E0 & H0 & K0 & X0 & A0).
  destruct (load_user_ok elf_new elf_data elf ms0 w0 t0 Ee He H0 ltac:(lia)) as (V & ms & w' & t' & new & El & H' & X & _ & Hv).
  exists ms0, w0, ms, w'. split; [done|]. split; [exact El|]. split; [eapply sees_ext; [exact Hv|by eapply holds_sees]|]. split; [|split; [|eauto]].
  - rewrite <- K0. apply (ex_shared _ _ _ _ _ X), (tr_root _ _ _ _ _ (pi_tree _ _ _ _ (ho_pt _ _ _ _ H0))).
  - apply (extends_leaves _ _ _ _ _ (extends_trans _ _ _ _ _ _ _ _ X0 X)).
Qed.

(** C13. A process that executes another program sees nothing but the new one.
    From any address space, whatever it holds, [clear] followed by [load_user]
    succeeds when the frames that are free and those of the old program are
    enough; the root of the tables stays where the processor has it, with the
    kernel's entry as it was; through it the processor sees the image of the
    new program and faults everywhere else; and no frame in use by anyone else
    has changed. *)
Theorem exec_replaces (elf_new : list Z -> option ElfFile) (elf_data : list Z) (elf : ElfFile) (ms : MemorySet) (w : world) (tabs : gmap (Z * Z) Z) (V : list region) :
  holds ms w tabs V -> elf_new elf_data = Some elf -> elf_ok elf ->
  5 * load_pages (elf_program elf) + 16 <= available_space (w_free w) + Z.of_nat (length (frames V)) ->
  exists ms1 w1 ms' w', ms_clear ms w = Some (ms1, w1) /\
    load_user elf_new elf_data (ms1, w1) = Some ((elf_entry_point elf, USER_STACK_BASE + USER_STACK_SIZE), (ms', w')) /\
    sees ms' w' (program_image elf) /\ root_paddr (ms_pt ms') = root_paddr (ms_pt ms) /\ kernel_entry (ms_pt ms', w') = kernel_entry (ms_pt ms, w) /\
    (forall f, owned (w_free w) f -> f ∉ frames V ++ intrm_tables (ms_pt ms) -> owned (w_free w') f /\ same_frame (w_mem w) (w_mem w') f) /\
    exists tabs' V', holds ms' w' tabs' V'.
Proof.
  intros H Ee He Hav. pose proof (tr_root _ _ _ _ _ (pi_tree _ _ _ _ (ho_pt _ _ _ _ H))) as Hr. destruct (ms_clear_ok ms w tabs V H) as (w1 & E1 & F & H1).
  pose proof (fr_space _ _ _ _ F) as S1. cbn [snd] in S1.
  destruct (load_user_ok elf_new elf_data elf _ w1 tabs Ee He H1 ltac:(lia)) as (V' & ms' & w' & t' & new & El & H' & X & _ & Hv). cbn [ms_pt] in *.
  exists (mkMS (ms_pt ms) []), w1, ms', w'. split; [done|]. split; [exact El|]. split; [eapply sees_ext; [exact Hv|by eapply holds_sees]|].
  split; [apply (ex_root _ _ _ _ _ X)|]. split; [rewrite (ex_shared _ _ _ _ _ X Hr); by apply (fr_shared _ _ _ _ F)|]. split; [|eauto].
  intros f Hf [Hn Hi]%not_elem_of_app. assert (Ht : forall k, tabs !! k <> Some f) by (intros k Hk; apply Hi, (pi_list _ _ _ _ (ho_pt _ _ _ _ H)); eauto).
  assert (Hf1 : owned (w_free w1) f) by (by apply (fr_owned _ _ _ _ F)). destruct (extends_kept _ _ _ _ _ f X Hf1 Ht) as (Ho & _ & Hs). split; [done|].
  intros a Ha. rewrite Hs by done. by apply (fr_mem _ _ _ _ F f).
Qed.

(** C12. A copy of an address space has the same contents in memory of its own.
    With enough free frames [MemorySet::dup] succeeds; the processor sees
    through the tables of the copy what it sees through those of the original,
    byte for byte and right for right; the frames of the copy were free before,
    so that nothing written in one shows in the other; every frame that was in
    use, the original's tables among them, is as it was; and both are address
    spaces in order again. *)
Theorem dup_copies (kroot : Z) (ms : MemorySet) (w : world) (tabs : gmap (Z * Z) Z) (V : list region) :
  holds ms w tabs V -> owned (w_free w) kroot -> 1 + 5 * Z.of_nat (length (frames V)) <= available_space (w_free w) ->
  exists ms' w' tabs' V', ms_dup kroot ms w = Some (ms', w') /\ holds ms' w' tabs' V' /\ holds ms w' tabs V /\
    sees ms' w' (view V (w_mem w)) /\ sees ms w' (view V (w_mem w)) /\
    (forall f, f ∈ frames V' ++ intrm_tables (ms_pt ms') -> ~ owned (w_free w) f) /\
    kernel_entry (ms_pt ms', w') = kernel_part kroot w /\ leaves w w'.
Proof.
  intros H Hkr Hav. destruct (ms_dup_ok kroot ms w tabs V H Hkr Hav) as (V' & ms' & w' & t' & E & Al & X & H' & Hp & K). exists ms', w', t', V'.
  pose proof (extends_leaves _ _ _ _ _ X) as Hl. cbn [snd] in Hl. split_and!; try done.
  - eapply sees_ext; [|by eapply holds_sees]. intros va. by apply view_alike.
  - eapply sees_ext; [|by eapply holds_sees]. intros va. apply view_same. intros f Hf. apply Hl, (ho_frames _ _ _ _ H f Hf).
  - intros f [Hf|Hf]%elem_of_app; [by apply (ex_new _ _ _ _ _ X)|]. apply (pi_list _ _ _ _ (ho_pt _ _ _ _ H')) in Hf as [k Hk].
    destruct (ex_fresh _ _ _ _ _ X k f Hk) as [Hn|?]; [by rewrite lookup_empty in Hn|done].
Qed.

(** C14. A copy that ends leaves no trace.  Whatever was written to the memory of
    the copy, dropping it right after it was made gives back exactly the frames
    it took, tables and pages: the allocator has the same frames in use and as
    many free ones as before the copy, nothing panics, and the processor sees
    in the original what it saw before. *)
Theorem dup_drop_restores (kroot : Z) (ms : MemorySet) (w : world) (tabs : gmap (Z * Z) Z) (V : list region) :
  holds ms w tabs V -> owned (w_free w) kroot -> 1 + 5 * Z.of_nat (length (frames V)) <= available_space (w_free w) ->
  exists ms' w' V', ms_dup kroot ms w = Some (ms', w') /\
    forall mm, mem_wf mm -> (forall f, owned (w_free w') f -> f ∉ frames V' -> same_frame (w_mem w') mm f) ->
    exists w'', ms_drop ms' (w' <| w_mem := mm |>) = Some w'' /\ available_space (w_free w'') = available_space (w_free w) /\
      (forall f, owned (w_free w'') f <-> owned (w_free w) f) /\ holds ms w'' tabs V /\ sees ms w'' (view V (w_mem w)).
Proof.
  intros H Hkr Hav. destruct (ms_dup_ok kroot ms w tabs V H Hkr Hav) as (V' & ms' & w' & t' & E & Al & X & H' & Hp & K). exists ms', w', V'. split; [done|].
  intros mm Hmm Hsame. set (w1 := w' <| w_mem := mm |>). pose proof (ho_pt _ _ _ _ H') as Hp'. pose proof (extends_leaves _ _ _ _ _ X) as Hl. cbn [snd] in Hl.
  assert (H1 : holds ms' w1 t' V').
  { eapply holds_kept; [exact H'|apply Hp'|done| |intros f Hf; apply (ho_frames _ _ _ _ H' f Hf)]. intros k f Hk. split; [apply (pi_owned _ _ _ _ Hp' k f Hk)|].
    apply Hsame; [apply (pi_owned _ _ _ _ Hp' k f Hk)|]. intros Hf. by apply (proj2 (ho_frames _ _ _ _ H' f Hf) k). }
  destruct (ms_drop_ok ms' w1 t' V' H1) as (w'' & Ed & Hok & Hw & Ho & Hs & Hsp). exists w''. destruct X as [_ _ XO XF XN XD XM _ XS]. cbn [fst snd intrm_tables length] in *.
  assert (Hown : forall f, owned (w_free w'') f <-> owned (w_free w) f).
  { intros f. rewrite Ho. change (w_free w1) with (w_free w'). rewrite XO. split; [intros ([?|[?|[k Hk]]] & Hn & Ht); [done|done|by destruct (Ht k)]|].
    intros Hf. split; [auto|]. split; [intros Hn; by apply (XN f Hn)|]. intros k Hk. destruct (XF k f Hk) as [Hn|?]; [by rewrite lookup_empty in Hn|done]. }
  assert (Hkept : forall f, owned (w_free w) f -> same_frame (w_mem w) (w_mem w'') f).
  { intros f Hf a Ha. rewrite (Hs f) by (done || by apply Hown). rewrite (Hsame f); [exact (proj2 (Hl f Hf) a Ha)|exact (proj1 (Hl f Hf))|intros Hn; by apply (XN f Hn)|done]. }
  assert (Hpar : holds ms w'' tabs V).
  { eapply holds_kept; [exact H|done|done|..].
    - intros k f Hk. pose proof (pi_owned _ _ _ _ (ho_pt _ _ _ _ H) k f Hk) as Hf. split; [by apply Hown|by apply Hkept].
    - intros f Hf. apply Hown, (ho_frames _ _ _ _ H f Hf). }
  split; [done|]. split; [rewrite Hsp; change (w_free w1) with (w_free w'); lia|]. split; [done|]. split; [done|].
  eapply sees_ext; [|by eapply holds_sees]. intros va. apply view_same. intros f Hf. apply Hkept, (ho_frames _ _ _ _ H f Hf).
Qed.

(** ** Examples *)

(** One frame is in use: the kernel's root. *)
Definition ex_kroot : Z := 0x10000.
Definition ex_kworld : world := mkWorld ∅ (mkFree 16 64 17 []).

Lemma ex_kworld_ok : mem_wf (w_mem ex_kworld) /\ fla_ok (w_free ex_kworld) /\ owned (w_free ex_kworld) ex_kroot.
Proof.
  split; [intros a; unfold ldb, ex_kworld; cbn [w_mem]; by rewrite lookup_empty|]. split; [split; cbn; [lia|by intros n ?%elem_of_nil|constructor]|].
  split; [split; [done|unfold ex_kroot; lia]|]. split; [vm_compute; split; [discriminate|reflexivity]|by intros ?%elem_of_nil].
Qed.

Definition ex_elf : ElfFile :=
  mkElf true true 0x400010 [mkPh false 0 0 false false false None; mkPh true 0x400010 0x20 true false true (Some [0x90; 0xcc; 0xc3])].

Lemma ex_elf_ok : elf_ok ex_elf.
Proof.
  split; [done|cbn; lia| |..].
  - constructor; [done|]. constructor; [|constructor]. intros _. split; cbn; [lia|by eexists|repeat constructor; done|lia].
  - split; [done|]. split; [|done]. intros _ ph' ?%elem_of_nil. done.
  - constructor; [done|]. constructor; [|constructor]. intros _. left. vm_compute. discriminate.
Qed.

Lemma load_user_shows_witness : exists ms0 w0 ms w', ms_new ex_kroot ex_kworld = Some (ms0, w0) /\
  load_user (fun _ => Some ex_elf) [] (ms0, w0) = Some ((0x400010, 0x7fff00000000), (ms, w')) /\
  let m := ex_machine 1 <| mem := w_mem w' |> in
  (exists pa, answer (mmu_translate 0 None 0x400011 (root_paddr (ms_pt ms)) 0 MMU_USER_IDX ex_mode m) = Some (inr (pa, 4096)) /\ ldb (mem m) pa = 0xcc) /\
  answer (mmu_translate 0 None 0x400011 (root_paddr (ms_pt ms)) 1 MMU_USER_IDX ex_mode m) = Some (inl 7) /\
  answer (mmu_translate 0 None 0x401000 (root_paddr (ms_pt ms)) 0 MMU_USER_IDX ex_mode m) = Some (inl 4).
Proof.
  destruct ex_kworld_ok as (Hw & Hf & Ho).
  destruct (load_user_shows (fun _ => Some ex_elf) [] ex_elf ex_kroot ex_kworld eq_refl ex_elf_ok Hw Hf Ho) as (ms0 & w0 & ms & w' & E0 & El & Hs & _); [vm_compute; discriminate|].
  exists ms0, w0, ms, w'. split; [exact E0|]. split; [exact El|]. cbv zeta. set (m := ex_machine 1 <| mem := w_mem w' |>).
  assert (C : config (env (cpus m !!! 0%nat)) ex_mode) by (split; vm_compute; (reflexivity || discriminate)).
  pose proof (fun va acc => Hs 0%nat None m va acc MMU_USER_IDX ex_mode eq_refl (or_introl eq_refl) C) as Hm. split; [|split].
  - exact (Hm 0x400011 0 ltac:(lia) ltac:(lia)).
  - exact (Hm 0x400011 1 ltac:(lia) ltac:(lia)).
  - exact (Hm 0x401000 0 ltac:(lia) ltac:(lia)).
Defined.

(** An address space with two pages that may be read. *)
Lemma ex_set : exists ms w tabs V, holds ms w tabs V /\ owned (w_free w) ex_kroot /\ length (frames V) = 2%nat /\ 30 <= available_space (w_free w) /\
  view V (w_mem w) 0x401234 = Some (READ, 0).
Proof.
  destruct ex_kworld_ok as (Hw & Hf & Ho). destruct (ms_new_ok ex_kroot ex_kworld Hw Hf ltac:(by vm_compute) Ho) as (ms0 & w0 & t0 & _ & H0 & _ & X0 & A0).
  change (available_space (w_free ex_kworld) - 1) with 46 in A0.
  destruct (insert_ok ms0 w0 t0 [] [] H0 2 0x400000 READ []) as (new & ms & w & t & _ & X & H & L & Z & A);
    [lia|cbn; lia|done|done|done|constructor|by intros f ?%elem_of_nil..|lia|].
  exists ms, w, t, [mkRegion 0x400000 READ new]. cbn [app] in *. split; [exact H|]. split; [|split; [|split; [lia|]]].
  - destruct (extends_leaves _ _ _ _ _ (extends_trans _ _ _ _ _ _ _ _ X0 X) ex_kroot Ho) as [? _]. done.
  - unfold frames. cbn. by rewrite app_nil_r.
  - pose proof (ho_ok _ _ _ _ H) as Hok. apply list.Forall_cons in Hok as [Hr _].
    change [mkRegion 0x400000 READ new] with ([] ++ mkRegion 0x400000 READ new :: []). rewrite view_mid; [|constructor|exact Hr|by intros r' ?%elem_of_nil].
    unfold in_region, rg_end. cbn [rg_start rg_frames rg_flags]. rewrite L. cbn [andb Z.leb Z.ltb].
    change ((0x400000 <=? 0x401234) && (0x401234 <? 0x400000 + 4096 * Z.of_nat 2)) with true. cbn iota. do 2 f_equal.
    apply (area_byte_zero _ []); [done|]. cbn [app length]. rewrite L. lia.
Qed.

Lemma exec_replaces_witness : exists ms w tabs V ms1 w1 ms' w', holds ms w tabs V /\ view V (w_mem w) 0x401234 = Some (READ, 0) /\ ms_clear ms w = Some (ms1, w1) /\
  load_user (fun _ => Some ex_elf) [] (ms1, w1) = Some ((0x400010, 0x7fff00000000), (ms', w')) /\ sees ms' w' (program_image ex_elf) /\ program_image ex_elf 0x401234 = None.
Proof.
  destruct ex_set as (ms & w & tabs & V & H & Ho & L & A & Hv).
  destruct (exec_replaces (fun _ => Some ex_elf) [] ex_elf ms w tabs V H eq_refl ex_elf_ok) as (ms1 & w1 & ms' & w' & E1 & El & Hs & _); [change (load_pages (elf_program ex_elf)) with 1; lia|].
  exists ms, w, tabs, V, ms1, w1, ms', w'. split_and!; try done.
Defined.

Lemma dup_copies_witness : exists ms w tabs V ms' w', holds ms w tabs V /\ length (frames V) = 2%nat /\ ms_dup ex_kroot ms w = Some (ms', w') /\
  sees ms' w' (view V (w_mem w)) /\ view V (w_mem w) 0x401234 = Some (READ, 0).
Proof.
  destruct ex_set as (ms & w & tabs & V & H & Ho & L & A & Hv).
  destruct (dup_copies ex_kroot ms w tabs V H Ho ltac:(rewrite L; cbn; lia)) as (ms' & w' & t' & V' & E & _ & _ & Hs & _).
  exists ms, w, tabs, V, ms', w'. done.
Defined.

Lemma dup_drop_restores_witness : exists ms w tabs V ms' w' w'', holds ms w tabs V /\ length (frames V) = 2%nat /\ ms_dup ex_kroot ms w = Some (ms', w') /\
  ms_drop ms' w' = Some w'' /\ available_space (w_free w'') = available_space (w_free w).
Proof.
  destruct ex_set as (ms & w & tabs & V & H & Ho & L & A & Hv).
  destruct (ms_dup_ok ex_kroot ms w tabs V H Ho ltac:(rewrite L; cbn; lia)) as (V1 & ms1 & w1 & t1 & E1 & _ & _ & H1 & _).
  destruct (dup_drop_restores ex_kroot ms w tabs V H Ho ltac:(rewrite L; cbn; lia)) as (ms' & w' & V' & E & Hd).
  assert (w1 = w') as -> by congruence.
  destruct (Hd (w_mem w') (pi_wf _ _ _ _ (ho_pt _ _ _ _ H1))) as (w'' & Ed & Ea & _); [done|].
  exists ms, w, tabs, V, ms', w', w''. destruct w'. done.
Defined.
