(* ===== verification/KernelSpace.v ===== *)
(** * The kernel's address space

    The sections of the kernel, physical memory and the device registers are
    mapped where the linear map puts them, each with its own rights. *)
From S2P Require Import Prelude Cpu Machine Mem Mmu MmuFacts Paging PagingTree PagingFacts Aspace Regions.

#[local] Opaque st ld Z.to_nat.

(** The number of the page where the linear map starts, and the address of a page
    of it. *)
Definition kpage : Z := 511 * 2 ^ 27.
Definition kva (v : Z) : Z := PHYS_VIRT_OFFSET + (v - kpage) * 4096.

Lemma kernel_page va : PHYS_VIRT_OFFSET <= va < 2 ^ 64 -> page_no va = kpage + (va - PHYS_VIRT_OFFSET) / 4096 /\ VirtAddr_new va = Some va.
Proof.
  intros Hv. change PHYS_VIRT_OFFSET with (2 ^ 64 - 2 ^ 39) in *. unfold page_no, VirtAddr_new. rewrite !Z.shiftr_div_pow2 by lia. split.
  - replace va with (va - (2 ^ 64 - 2 ^ 39) + (2 ^ 52 - 2 ^ 27) * 2 ^ 12) at 1 by lia. rewrite Z.div_add by lia. change (2 ^ 12) with 4096. unfold kpage.
    assert (0 <= (va - (2 ^ 64 - 2 ^ 39)) / 4096 < 2 ^ 27) by (split; [apply Z.div_pos; lia|apply Z.div_lt_upper_bound; lia]).
    replace ((va - (2 ^ 64 - 2 ^ 39)) / 4096 + (2 ^ 52 - 2 ^ 27)) with (511 * 2 ^ 27 + (va - (2 ^ 64 - 2 ^ 39)) / 4096 + (2 ^ 16 - 1) * 2 ^ 36) by lia.
    rewrite Z.mod_add, Z.mod_small by lia. done.
  - assert (E : 0x1ffff = va / 2 ^ 47); [|by rewrite <- E]. apply (Z.div_unique_pos va (2 ^ 47) 0x1ffff (va - 0x1ffff * 2 ^ 47)); lia.
Qed.

Lemma kernel_offset va : (va - PHYS_VIRT_OFFSET) mod 4096 = va mod 4096.
Proof. change PHYS_VIRT_OFFSET with (0xffffff8000000 * 4096). replace (va - 0xffffff8000000 * 4096) with (va + (- 0xffffff8000000) * 4096) by lia. apply Z.mod_add. lia. Qed.

(** ** Ranges *)
Record range_ok (r : krange) : Prop := {
  rk_order : PHYS_VIRT_OFFSET <= kr_start r < kr_end r;
  rk_end : kr_end r < 2 ^ 64;
  rk_aligned : kr_start r mod 4096 = 0 /\ kr_end r mod 4096 = 0;
  rk_flags : flags_ok (kr_flags r);
}.
Definition range_apart (r r' : krange) : Prop := kr_end r <= kr_start r' \/ kr_end r' <= kr_start r.
Definition range_has (r : krange) (va : Z) : bool := (kr_start r <=? va) && (va <? kr_end r).

(** The flags of an address: those of the range it is in. *)
Fixpoint range_flags (rs : list krange) (va : Z) : option Z :=
  match rs with [] => None | r :: rs => if range_has r va then Some (kr_flags r) else range_flags rs va end.

(** An upper bound of the tables the ranges need: their pages lie in so many blocks
    of 512. *)
Definition range_blocks (r : krange) : Z := (kr_end r - PHYS_VIRT_OFFSET) / 4096 / 512 - (kr_start r - PHYS_VIRT_OFFSET) / 4096 / 512 + 1.
Fixpoint table_frames (rs : list krange) : Z := match rs with [] => 0 | r :: rs => 3 * range_blocks r + table_frames rs end.

Lemma range_flags_app rs rs' va : range_flags (rs ++ rs') va = match range_flags rs va with Some fl => Some fl | None => range_flags rs' va end.
Proof. induction rs as [|r rs IH]; [done|]. cbn. rewrite IH. by destruct (range_has r va). Qed.

Lemma range_flags_none rs va : (forall r, r ∈ rs -> range_has r va = false) -> range_flags rs va = None.
Proof. induction rs as [|r rs IH]; intros H; [done|]. cbn. rewrite (H r) by (by left). apply IH. intros r' Hr. apply H. by right. Qed.

(** The map of a list of ranges. *)
Definition kernel_map (rs : list krange) (A : aspace) : Prop := forall v, A !! v = (fun fl => ((v - kpage) * 4096, fl)) <$> range_flags rs (kva v).

(** ** One range *)
Lemma map_offset_ok k : forall fuel va start sz fl s tabs A,
  pt_inv whole s tabs A -> (k <= fuel)%nat -> PHYS_VIRT_OFFSET <= va -> va mod 4096 = 0 -> va + 4096 * Z.of_nat k < 2 ^ 64 -> flags_ok fl ->
  let v := kpage + (va - PHYS_VIRT_OFFSET) / 4096 in let e := v + Z.of_nat k in
  (forall u, v <= u < e -> A !! u = None) ->
  let need := if bool_decide (is_Some (tabs !! (0, v / 512))) then 3 * (e / 512 - v / 512) else 3 * (e / 512 - v / 512 + 1) in
  3 + need <= available_space (w_free s.2) ->
  exists s' tabs' A', map_loop fuel va (va + 4096 * Z.of_nat k) (mkArea start sz fl (Offset PHYS_VIRT_OFFSET)) s = Some (mkArea start sz fl (Offset PHYS_VIRT_OFFSET), s') /\
    pt_inv whole s' tabs' A' /\ (forall u, A' !! u = if (v <=? u) && (u <? e) then Some ((u - kpage) * 4096, fl) else A !! u) /\
    available_space (w_free s.2) - need <= available_space (w_free s'.2).
Proof.
  induction k as [|k IH]; intros fuel va start sz fl s tabs A H Hfu Hva Hal Hend Hfl v e HA need Hav.
  - exists s, tabs, A. split; [|split; [done|split; [|]]].
    + destruct fuel; cbn [map_loop]; [done|]. by rewrite Z.mul_0_r, Z.add_0_r, Z.ltb_irrefl.
    + intros u. unfold e. destruct (Z.leb_spec v u), (Z.ltb_spec u (v + Z.of_nat 0)); cbn [andb]; (done || lia).
    + unfold need, e. rewrite Z.add_0_r. destruct (bool_decide _); lia.
  - destruct fuel as [|fuel]; [lia|]. destruct (kernel_page va ltac:(lia)) as [Epg Eva]. fold v in Epg. cbn [map_loop]. rewrite (proj2 (Z.ltb_lt _ _)), Eva by lia. cbn [mbind option_bind].
    unfold area_map. rewrite aligned_of by done. cbn [negb ar_mapper mbind option_bind ar_flags].
    assert (Hpa : PhysAddr_new (u64 (va - PHYS_VIRT_OFFSET)) = va - PHYS_VIRT_OFFSET).
    { change PHYS_VIRT_OFFSET with (2 ^ 64 - 2 ^ 39) in *. rewrite u64_small by lia. unfold PhysAddr_new. change PhysAddr_MAX with (Z.ones 40). rewrite Z.land_ones by lia. apply Z.mod_small. lia. }
    rewrite Hpa. destruct s as [pt w]. cbn [fst snd] in *.
    assert (Hv : va - PHYS_VIRT_OFFSET = (v - kpage) * 4096) by (unfold v; rewrite Z.add_simpl_l; pose proof (Z.div_mod (va - PHYS_VIRT_OFFSET) 4096); pose proof (kernel_offset va); lia).
    assert (Hdv : v / 512 <= e / 512) by (apply Z.div_le_mono; unfold e; lia).
    assert (Hnx : (v + 1) / 512 = v / 512 \/ (v + 1) / 512 = v / 512 + 1) by (clear; pose proof (Z.div_mod v 512); pose proof (Z.mod_pos_bound v 512); pose proof (Z.div_mod (v + 1) 512); pose proof (Z.mod_pos_bound (v + 1) 512); lia).
    pose proof (pt_map_ok whole (pt, w) tabs A H va (va - PHYS_VIRT_OFFSET) fl I) as Hm. cbn [snd] in Hm. rewrite Epg, (HA v) in Hm by (unfold e; lia).
    destruct Hm as (s1 & t1 & -> & G & Ha & Hk & H1); [unfold need in Hav; destruct (bool_decide _); lia|change PHYS_VIRT_OFFSET with (2 ^ 64 - 2 ^ 39) in *; lia|done|].
    cbn [mbind option_bind]. unfold PAGE_SIZE. change 0x1000 with 4096. rewrite u64_small by (change PHYS_VIRT_OFFSET with (2 ^ 64 - 2 ^ 39) in *; lia).
    replace (va + 4096 * Z.of_nat (S k)) with (va + 4096 + 4096 * Z.of_nat k) by lia.
    assert (Hleaf : is_Some (t1 !! (0, v / 512))) by (rewrite <- Epg; destruct (leaf_table whole s1 t1 _ H1 va (align_down (va - PHYS_VIRT_OFFSET) PAGE_SIZE, fl)) as [f ->]; [rewrite Epg; apply lookup_insert_eq|eauto]).
    assert (Ealign : align_down (va - PHYS_VIRT_OFFSET) PAGE_SIZE = (v - kpage) * 4096).
    { destruct (align_down_frame (va - PHYS_VIRT_OFFSET)) as [_ ->]; [change PHYS_VIRT_OFFSET with (2 ^ 64 - 2 ^ 39) in *; lia|]. by rewrite Hv, Z.div_mul by lia. }
    rewrite Ealign in H1. pose proof (IH fuel (va + 4096) start sz fl s1 t1 _ H1) as IH1. cbv zeta in IH1.
    assert (Ev : kpage + (va + 4096 - PHYS_VIRT_OFFSET) / 4096 = v + 1) by (replace (va + 4096 - PHYS_VIRT_OFFSET) with (va - PHYS_VIRT_OFFSET + 1 * 4096) by lia; rewrite Z.div_add by lia; unfold v; lia).
    rewrite Ev in IH1. replace (v + 1 + Z.of_nat k) with e in IH1 by (unfold e; lia).
    set (need1 := if bool_decide (is_Some (t1 !! (0, (v + 1) / 512))) then _ else _) in IH1.
    assert (Hneed : need1 <= 3 * (e / 512 - v / 512)).
    { unfold need1. destruct Hnx as [->| ->]; [rewrite bool_decide_true by done; cbn iota; lia|]. case_bool_decide; lia. }
    assert (Hcost : available_space (w_free w) - need <= available_space (w_free s1.2) - 3 * (e / 512 - v / 512)).
    { unfold need. destruct (bool_decide_reflect (is_Some (tabs !! (0, v / 512)))) as [Hl|]; [rewrite (Hk Hl); lia|lia]. }
    destruct IH1 as (s' & t' & A' & E' & H' & HA' & Ha'); try (done || lia).
    + rewrite <- (Z.mul_1_l 4096) at 1. by rewrite Z.mod_add by lia.
    + intros u Hu. rewrite lookup_insert_ne by lia. apply HA. lia.
    + exists s', t', A'. split; [exact E'|]. split; [done|]. split; [|lia]. intros u. rewrite HA'. assert (v < e) by (unfold e; lia).
      destruct (Z.leb_spec (v + 1) u), (Z.leb_spec v u), (Z.ltb_spec u e); cbn [andb]; try lia; try done; try (by rewrite lookup_insert_ne by lia).
      assert (u = v) as -> by lia. by rewrite lookup_insert_eq.
Qed.

(** ** All ranges *)
Definition kernel_inv (ms : MemorySet) (w : world) (rs : list krange) : Prop :=
  exists tabs A, pt_inv whole (ms_pt ms, w) tabs A /\ kernel_map rs A /\ forall x, x ∈ ms_areas ms -> exists r, r ∈ rs /\ x.1 = kr_start r.

Lemma range_pages r u : range_ok r -> let v := kpage + (kr_start r - PHYS_VIRT_OFFSET) / 4096 in let e := v + (kr_end r - kr_start r) / 4096 in
  range_has r (kva u) = (v <=? u) && (u <? e).
Proof.
  intros [Ho He [H1 H2] _]. cbv zeta. unfold range_has, kva. pose proof (kernel_offset (kr_start r)) as Hm. rewrite H1 in Hm.
  pose proof (Z.div_mod (kr_start r - PHYS_VIRT_OFFSET) 4096 ltac:(lia)) as D1.
  assert (Hz : (kr_end r - kr_start r) mod 4096 = 0) by (rewrite Zminus_mod, H1, H2; done). pose proof (Z.div_mod (kr_end r - kr_start r) 4096 ltac:(lia)) as D2.
  rewrite Hm in D1. rewrite Hz in D2. set (a := (kr_start r - PHYS_VIRT_OFFSET) / 4096) in *. set (b := (kr_end r - kr_start r) / 4096) in *.
  destruct (Z.leb_spec (kr_start r) (PHYS_VIRT_OFFSET + (u - kpage) * 4096)), (Z.leb_spec (kpage + a) u), (Z.ltb_spec (PHYS_VIRT_OFFSET + (u - kpage) * 4096) (kr_end r)),
    (Z.ltb_spec u (kpage + a + b)); cbn [andb]; try done; lia.
Qed.

Lemma bt_insert_elem {V} k (v : V) m x : x ∈ bt_insert k v m -> x = (k, v) \/ x ∈ m.
Proof.
  induction m as [|[k' v'] m IH]; cbn; [intros ?%list_elem_of_singleton; auto|]. destruct (k <? k'); [intros [?|?]%elem_of_cons; auto|].
  destruct (k =? k'); [intros [?|?]%elem_of_cons; [auto|right; by right]|]. intros [->|[?|?]%IH]%elem_of_cons; [right; by left|auto|right; by right].
Qed.

Lemma range_area r : range_ok r ->
  new_offset (kr_start r) (PhysAddr_new (virt_to_phys (kr_start r))) (kr_end r - kr_start r) (kr_flags r) =
  Some (mkArea (kr_start r) (kr_end r - kr_start r) (kr_flags r) (Offset PHYS_VIRT_OFFSET)).
Proof.
  intros [Ho He [H1 H2] _]. pose proof (kernel_offset (kr_start r)) as Hm. rewrite H1 in Hm. unfold virt_to_phys.
  rewrite (u64_small (kr_start r - PHYS_VIRT_OFFSET)) by (change PHYS_VIRT_OFFSET with (2 ^ 64 - 2 ^ 39) in *; lia). unfold PhysAddr_new. change PhysAddr_MAX with (Z.ones 40).
  rewrite Z.land_ones, Z.mod_small by (change PHYS_VIRT_OFFSET with (2 ^ 64 - 2 ^ 39) in *; lia). unfold new_offset. rewrite !aligned_of; try done; [|by rewrite Zminus_mod, H1, H2].
  cbn [andb]. replace (kr_start r - (kr_start r - PHYS_VIRT_OFFSET)) with PHYS_VIRT_OFFSET by lia. by rewrite u64_small by done.
Qed.

Lemma range_need r : range_ok r -> let v := kpage + (kr_start r - PHYS_VIRT_OFFSET) / 4096 in let e := v + (kr_end r - kr_start r) / 4096 in e / 512 - v / 512 + 1 = range_blocks r.
Proof.
  intros [Ho He [H1 H2] _]. cbv zeta. unfold range_blocks. pose proof (kernel_offset (kr_start r)) as Hm. rewrite H1 in Hm.
  assert (Hz : (kr_end r - kr_start r) mod 4096 = 0) by (rewrite Zminus_mod, H1, H2; done).
  pose proof (Z.div_mod (kr_start r - PHYS_VIRT_OFFSET) 4096 ltac:(lia)). pose proof (Z.div_mod (kr_end r - kr_start r) 4096 ltac:(lia)).
  assert (E : (kr_end r - PHYS_VIRT_OFFSET) / 4096 = (kr_start r - PHYS_VIRT_OFFSET) / 4096 + (kr_end r - kr_start r) / 4096).
  { symmetry. apply (Z.div_unique_pos _ 4096 _ 0); lia. }
  rewrite E. change kpage with ((511 * 2 ^ 18) * 512). rewrite <- Z.add_assoc, !Z.div_add_l by lia. lia.
Qed.

Lemma map_range_ok ms w rs r : kernel_inv ms w rs -> range_ok r -> (forall r', r' ∈ rs -> range_ok r' /\ range_apart r' r) -> 3 + 3 * range_blocks r <= available_space (w_free w) ->
  exists ms' w', map_range (Some (ms, w)) r = Some (ms', w') /\ kernel_inv ms' w' (rs ++ [r]) /\ available_space (w_free w) - 3 * range_blocks r <= available_space (w_free w').
Proof.
  intros (tabs & A & H & HA & Hkeys) Hr Hap Hav. pose proof Hr as [Ho He [H1 H2] Hfl]. unfold map_range. cbn [mbind option_bind].
  rewrite (proj2 (Z.ltb_lt _ _)) by lia. cbn [negb]. destruct (kernel_page (kr_start r) ltac:(lia)) as [_ ->]. destruct (kernel_page (kr_end r) ltac:(lia)) as [_ ->]. cbn [mbind option_bind].
  rewrite !aligned_of by done. cbn [andb negb]. rewrite range_area by done. cbn [mbind option_bind]. unfold ms_insert. cbn [ar_size ar_start]. rewrite (proj2 (Z.ltb_lt _ _)) by lia.
  rewrite bt_get_none by (intros x Hx; destruct (Hkeys x Hx) as (r' & Hr' & ->); destruct (Hap r' Hr') as [[? _ _ _] [?|?]]; lia).
  pose proof (range_need r Hr) as Hneed. pose proof (fun u => range_pages r u Hr) as Hpages. cbv zeta in Hneed, Hpages. set (v := kpage + (kr_start r - PHYS_VIRT_OFFSET) / 4096) in *.
  assert (Hz : (kr_end r - kr_start r) mod 4096 = 0) by (rewrite Zminus_mod, H1, H2; done). pose proof (Z.div_mod (kr_end r - kr_start r) 4096 ltac:(lia)) as D. rewrite Hz in D.
  set (k := (kr_end r - kr_start r) / 4096) in *. assert (Hk0 : 0 <= k) by (apply Z.div_pos; lia).
  assert (Hnone : forall u, (v <=? u) && (u <? v + k) = true -> range_flags rs (kva u) = None).
  { intros u Hu. rewrite <- Hpages in Hu. apply range_flags_none. intros r' Hr'. destruct (Hap r' Hr') as [_ Hd]. unfold range_has, range_apart in *.
    apply andb_true_iff in Hu as [?%Z.leb_le ?%Z.ltb_lt]. destruct (Z.leb_spec (kr_start r') (kva u)), (Z.ltb_spec (kva u) (kr_end r')); cbn [andb]; (done || lia). }
  destruct (map_offset_ok (Z.to_nat k) (area_rounds (mkArea (kr_start r) (kr_end r - kr_start r) (kr_flags r) (Offset PHYS_VIRT_OFFSET))) (kr_start r) (kr_start r) (kr_end r - kr_start r) (kr_flags r) (ms_pt ms, w) tabs A H)
    as ([pt' w'] & t' & A' & Em & H' & HA' & Ha').
  all: fold v; rewrite ?Z2Nat.id in * by lia; cbn [snd] in *.
  - unfold area_rounds, PAGE_SIZE. cbn [ar_size]. change 0x1000 with 4096. fold k. lia.
  - lia.
  - done.
  - lia.
  - done.
  - intros u Hu. rewrite HA, Hnone; [done|]. rewrite (proj2 (Z.leb_le _ _)), (proj2 (Z.ltb_lt _ _)) by lia. done.
  - case_bool_decide; lia.
  - unfold map_area. cbn [ar_start ar_size]. replace (kr_start r + (kr_end r - kr_start r)) with (kr_start r + 4096 * k) by lia. rewrite u64_small by (change PHYS_VIRT_OFFSET with (2 ^ 64 - 2 ^ 39) in *; lia).
    rewrite Em. cbn [mbind option_bind]. eexists _, _. split; [reflexivity|]. split; [|fold v in Ha'; case_bool_decide; lia]. exists t', A'. split; [exact H'|]. split.
    + intros u. rewrite HA', range_flags_app. cbn [range_flags]. rewrite Hpages. fold v. specialize (Hnone u). destruct ((v <=? u) && (u <? v + k)); [by rewrite Hnone|]. rewrite HA. by destruct (range_flags rs (kva u)).
    + intros x [->|Hx]%bt_insert_elem; [exists r; split; [apply elem_of_app; right; by left|done]|]. destruct (Hkeys x Hx) as (r' & ? & ?). exists r'. split; [apply elem_of_app; by left|done].
Qed.

Fixpoint ranges_apart (rs : list krange) : Prop :=
  match rs with [] => True | r :: rs => (forall r', r' ∈ rs -> range_apart r r') /\ ranges_apart rs end.

Lemma range_blocks_nonneg r : range_ok r -> 0 <= range_blocks r.
Proof.
  intros [Ho He _ _]. unfold range_blocks. assert ((kr_start r - PHYS_VIRT_OFFSET) / 4096 / 512 <= (kr_end r - PHYS_VIRT_OFFSET) / 4096 / 512); [|lia].
  apply Z.div_le_mono; [lia|]. apply Z.div_le_mono; lia.
Qed.

Lemma map_ranges_ok rs : forall ms w rs0, kernel_inv ms w rs0 -> Forall range_ok rs0 -> Forall range_ok rs -> ranges_apart rs ->
  (forall r r', r ∈ rs0 -> r' ∈ rs -> range_apart r r') -> 3 + table_frames rs <= available_space (w_free w) ->
  exists ms' w', fold_left map_range rs (Some (ms, w)) = Some (ms', w') /\ kernel_inv ms' w' (rs0 ++ rs).
Proof.
  induction rs as [|r rs IH]; intros ms w rs0 H Hok0 Hok Hap Hd Hav; [exists ms, w; by rewrite app_nil_r|].
  apply list.Forall_cons in Hok as [Hr Hok]. destruct Hap as [Ha Hap]. cbn [table_frames] in Hav. rewrite list.Forall_forall in Hok0.
  assert (0 <= table_frames rs) by (clear -Hok; induction Hok as [|r rs Hr _ IH]; [done|]; cbn; pose proof (range_blocks_nonneg r Hr); lia).
  destruct (map_range_ok ms w rs0 r H Hr) as (ms1 & w1 & E & H1 & A1); [intros r' Hin; split; [by apply Hok0|apply Hd; [done|by left]]|lia|].
  destruct (IH ms1 w1 (rs0 ++ [r]) H1) as (ms' & w' & Ef & H'); try done.
  - apply list.Forall_app. split; [by apply list.Forall_forall|by constructor].
  - intros x y [Hx| ->%list_elem_of_singleton]%elem_of_app Hy; [apply Hd; [done|by right]|by apply Ha].
  - lia.
  - exists ms', w'. cbn [fold_left]. rewrite E. rewrite <- app_assoc in H'. done.
Qed.

Lemma range_flags_in rs r va : ranges_apart rs -> r ∈ rs -> range_has r va = true -> range_flags rs va = Some (kr_flags r).
Proof.
  induction rs as [|x rs IH]; [by intros _ ?%elem_of_nil|]. cbn. intros [Ha Hap] [->|Hin]%elem_of_cons Hh; [by rewrite Hh|].
  destruct (range_has x va) eqn:E; [|by apply IH]. exfalso. unfold range_has in *. specialize (Ha r Hin). unfold range_apart in Ha. lia.
Qed.

(** Ranges are made of whole pages. *)
Lemma range_flags_page rs va : Forall range_ok rs -> PHYS_VIRT_OFFSET <= va < 2 ^ 64 -> range_flags rs (kva (page_no va)) = range_flags rs va.
Proof.
  intros Hok Hva. destruct (kernel_page va Hva) as [E _]. pose proof (Z.div_mod (va - PHYS_VIRT_OFFSET) 4096 ltac:(lia)) as D. rewrite kernel_offset in D.
  pose proof (Z.mod_pos_bound va 4096 ltac:(lia)). assert (Ek : kva (page_no va) = va - va mod 4096) by (unfold kva; rewrite E, Z.add_simpl_l; lia). rewrite Ek.
  induction Hok as [|r rs [_ _ [H1 H2] _] _ IH]; [done|]. cbn. rewrite IH. f_equal. unfold range_has. pose proof (Z.div_mod va 4096 ltac:(lia)).
  pose proof (Z.div_mod (kr_start r) 4096 ltac:(lia)). pose proof (Z.div_mod (kr_end r) 4096 ltac:(lia)).
  destruct (Z.leb_spec (kr_start r) (va - va mod 4096)), (Z.leb_spec (kr_start r) va), (Z.ltb_spec (va - va mod 4096) (kr_end r)), (Z.ltb_spec va (kr_end r)); cbn [andb]; try done; lia.
Qed.

Section built.
  Context (ms : MemorySet) (w : world) (rs : list krange) (H : kernel_inv ms w rs) (Hok : Forall range_ok rs) (Hap : ranges_apart rs).

Lemma kernel_query va fl : PHYS_VIRT_OFFSET <= va < 2 ^ 64 -> range_flags rs va = Some fl -> query_flags va (ms, w) = Some (Z.lor READ fl).
Proof using H Hok.
  intros Hva Hf. destruct H as (tabs & A & Hp & HA & _). unfold query_flags. cbn [fst snd]. rewrite (pt_query_ok whole _ tabs A Hp va I). rewrite HA, range_flags_page, Hf by done. done.
Qed.

Lemma kernel_query_in r va : r ∈ rs -> range_has r va = true -> query_flags va (ms, w) = Some (Z.lor READ (kr_flags r)) /\ VirtAddr_new va = Some va.
Proof using H Hok Hap.
  intros Hr Hh. pose proof Hok as Hok'. rewrite list.Forall_forall in Hok'. destruct (Hok' r Hr) as [Ho He _ _]. assert (Hva : PHYS_VIRT_OFFSET <= va < 2 ^ 64) by (unfold range_has in Hh; lia).
  split; [apply kernel_query; [done|by apply range_flags_in]|by apply kernel_page].
Qed.
End built.

Lemma mid_in r : kr_start r < kr_end r -> range_has r (kr_start r + (kr_end r - kr_start r) / 2) = true.
Proof.
  intros Hr. assert (0 <= (kr_end r - kr_start r) / 2 < kr_end r - kr_start r) by (split; [apply Z.div_pos; lia|apply Z.div_lt; lia]). unfold range_has. lia.
Qed.

(** A layout the linker and the platform may give: the ranges have their order and
    alignment, lie in the linear map, and do not overlap. *)
Record layout_ok (sym : kernel_symbols) (pf : platform) : Prop := {
  lo_ranges : Forall range_ok (kernel_ranges sym pf);
  lo_apart : ranges_apart (kernel_ranges sym pf);
}.

Lemma remap_test_ok sym pf ms w : layout_ok sym pf -> kernel_inv ms w (kernel_ranges sym pf) -> remap_test sym pf (ms, w) = Some tt.
Proof.
  intros [Hok Hap] H. pose proof Hok as Hok'. rewrite list.Forall_forall in Hok'. pose proof (fun r va => kernel_query_in ms w _ H Hok Hap r va) as Hq.
  assert (Hmid : forall s e fl, mkRange s e fl ∈ kernel_ranges sym pf -> query_flags (s + (e - s) / 2) (ms, w) = Some (Z.lor READ fl) /\ VirtAddr_new (s + (e - s) / 2) = Some (s + (e - s) / 2)).
  { intros s e fl Hin. apply (Hq (mkRange s e fl)); [done|]. apply (mid_in (mkRange s e fl)). apply (rk_order _ (Hok' _ Hin)). }
  unfold remap_test. destruct (Hmid (stext sym) (etext sym) (Z.lor READ EXECUTE)) as [Q1 ->]; [by left|]. destruct (Hmid (srodata sym) (erodata sym) READ) as [Q2 ->]; [right; by left|].
  destruct (Hmid (sdata sym) (edata sym) (Z.lor READ WRITE)) as [_ ->]; [do 2 right; by left|]. cbn [mbind option_bind]. rewrite Q1. cbn [mbind option_bind].
  change (contains (Z.lor READ (Z.lor READ EXECUTE)) WRITE) with false. cbn iota. rewrite Q2. cbn [mbind option_bind]. change (contains (Z.lor READ READ) EXECUTE) with false. cbn iota.
  destruct (mmio_regions pf) as [|[base size] regs] eqn:Em; [done|].
  assert (Hin : mkRange (phys_to_virt base) (phys_to_virt (u64 (base + size))) (Z.lor (Z.lor READ WRITE) DEVICE) ∈ kernel_ranges sym pf).
  { unfold kernel_ranges. rewrite Em. rewrite !elem_of_app. right. right. by left. }
  pose proof (rk_order _ (Hok' _ Hin)) as Ho. cbn [kr_start kr_end] in Ho. destruct (Hq _ (phys_to_virt base) Hin) as [Q3 ->]; [unfold range_has; cbn [kr_start kr_end]; lia|].
  cbn [mbind option_bind]. by rewrite Q3.
Qed.

(** No part of the kernel is the user's. *)
Lemma kernel_not_user sym pf va fl : range_flags (kernel_ranges sym pf) va = Some fl -> contains fl USER = false.
Proof.
  assert (Hall : Forall (fun r => contains (kr_flags r) USER = false) (kernel_ranges sym pf)).
  { unfold kernel_ranges. cbv zeta. repeat (apply list.Forall_cons; split; [reflexivity|]). apply list.Forall_app. split.
    - destruct (feature_rvm pf); repeat (apply list.Forall_cons; split; [reflexivity|]); constructor.
    - induction (mmio_regions pf) as [|[b z] l IH]; [constructor|]. by constructor. }
  induction Hall as [|r rs Hr _ IH]; [done|]. cbn. destruct (range_has r va); [by intros [= <-]|done].
Qed.

(** C19. The kernel's address space gives every part of the kernel its own rights.
    For a layout in order and with enough free frames [init_kernel_aspace]
    succeeds, and [remap_test] passes.  The processor then finds every address
    of the linear map where physical memory is, if a section, memory or a
    device lies there, and faults if none does; an access is allowed as the
    flags of that part say: text may not be written, data not executed,
    read-only data neither, and no user may reach any of it. *)
Theorem kernel_space_rights (sym : kernel_symbols) (pf : platform) (w : world) :
  layout_ok sym pf -> mem_wf (w_mem w) -> fla_ok (w_free w) -> 4 + table_frames (kernel_ranges sym pf) <= available_space (w_free w) ->
  exists ms w', init_kernel_aspace sym pf w = Some (ms, w') /\ remap_test sym pf (ms, w') = Some tt /\
    forall d hp m pa acc mmu_idx pg_mode, mem m = w_mem w' -> no_nesting d hp m -> config (env (cpus m !!! d)) pg_mode -> 0 <= acc <= 2 -> 0 <= pa < 2 ^ 39 ->
      answer (mmu_translate d hp (PHYS_VIRT_OFFSET + pa) (root_paddr (ms_pt ms)) acc mmu_idx pg_mode m) =
      Some (match range_flags (kernel_ranges sym pf) (PHYS_VIRT_OFFSET + pa) with
            | None => inl (fault_code do_fault acc mmu_idx pg_mode)
            | Some fl => if (mmu_idx =? MMU_USER_IDX) || negb (allows (page_rights fl) mmu_idx pg_mode acc)
                         then inl (fault_code do_fault_protect acc mmu_idx pg_mode) else inr (pa, 4096)
            end).
Proof.
  intros Hlo Hw Hf Hav. pose proof Hlo as [Hok Hap]. destruct (pt_new_ok whole w Hw Hf) as ([pt0 w0] & E0 & H0 & _ & A0).
  { assert (0 <= table_frames (kernel_ranges sym pf)); [|lia]. clear -Hok. induction Hok as [|r rs Hr _ IH]; [done|]. cbn. pose proof (range_blocks_nonneg r Hr). lia. }
  cbn [fst snd] in *. destruct (map_ranges_ok (kernel_ranges sym pf) (mkMS pt0 []) w0 []) as (ms & w' & E & H); [|constructor|done|done| |lia|].
  - eexists _, ∅. split; [exact H0|]. split; [intros v; by rewrite lookup_empty|by intros x ?%elem_of_nil].
  - by intros r r' ?%elem_of_nil.
  - cbn [app] in H. exists ms, w'. split; [unfold init_kernel_aspace, ms_new_kernel; by rewrite E0|]. split; [by apply remap_test_ok|].
    destruct H as (tabs & A & Hp & HA & _). intros d hp m pa acc mmu_idx pg_mode Em Hn C Hacc Hpa.
    assert (Hva : PHYS_VIRT_OFFSET <= PHYS_VIRT_OFFSET + pa < 2 ^ 64) by (change PHYS_VIRT_OFFSET with (2 ^ 64 - 2 ^ 39); lia).
    rewrite answer_ref; try done; [|rewrite Em; apply Hp| |apply C|apply C].
    + pose proof (translate_ok whole _ tabs A Hp _ pg_mode C (PHYS_VIRT_OFFSET + pa) I acc mmu_idx) as Ht. cbn [fst snd] in Ht. rewrite Em, Ht. unfold spec_translate.
      rewrite HA, range_flags_page by done. destruct (range_flags _ _) as [fl|] eqn:Ef; [|done]. cbn [fmap option_fmap option_map].
      change (r_user (page_rights fl)) with (contains fl USER). rewrite (kernel_not_user _ _ _ _ Ef), andb_true_r. case_if; [done|]. do 3 f_equal.
      destruct (kernel_page _ Hva) as [-> _]. rewrite <- kernel_offset, !Z.add_simpl_l. pose proof (Z.div_mod pa 4096). lia.
    + destruct (table_frame _ _ _ _ Hp _ _ (tr_root _ _ _ _ _ (pi_tree _ _ _ _ Hp))) as [_ Hr]. cbn [fst] in Hr. split; lia.
Qed.

(** The layout of the PC platform: 128 MB of memory, the kernel at 2 MB. *)
Definition ex_symbols : kernel_symbols :=
  let b := 0xffffff8000200000 in mkSymbols b (b + 0x20000) (b + 0x20000) (b + 0x28000) (b + 0x28000) (b + 0x30000) (b + 0x34000) (b + 0x480000) (b + 0x30000) (b + 0x34000) (b + 0x480000).
Definition ex_platform : platform := mkPlatform 0x8000000 [(0xfec00000, 0x1000); (0xfee00000, 0x1000)] false.
Definition ex_memory : world := mkWorld ∅ (fla_init 0x680 0x8000 fla_empty).

Lemma ex_layout_ok : layout_ok ex_symbols ex_platform.
Proof.
  assert (E : kernel_ranges ex_symbols ex_platform =
    [mkRange 0xffffff8000200000 0xffffff8000220000 5; mkRange 0xffffff8000220000 0xffffff8000228000 1; mkRange 0xffffff8000228000 0xffffff8000230000 3;
     mkRange 0xffffff8000234000 0xffffff8000680000 3; mkRange 0xffffff8000230000 0xffffff8000234000 3; mkRange 0xffffff8000680000 0xffffff8008000000 3;
     mkRange 0xffffff80fec00000 0xffffff80fec01000 19; mkRange 0xffffff80fee00000 0xffffff80fee01000 19]) by (vm_compute; reflexivity).
  split; rewrite E.
  - repeat (apply list.Forall_cons; split; [split; vm_compute; repeat split; (reflexivity || discriminate)|]). constructor.
  - assert (Hall : forall r rs, Forall (range_apart r) rs -> ranges_apart rs -> ranges_apart (r :: rs)) by (intros r rs Hr Hrs; split; [by apply list.Forall_forall|done]).
    repeat (apply Hall; [repeat (apply list.Forall_cons; split; [(left; discriminate) || (right; discriminate)|]); apply list.Forall_nil; exact I|]). exact I.
Qed.

Lemma kernel_space_rights_witness : exists ms w', init_kernel_aspace ex_symbols ex_platform ex_memory = Some (ms, w') /\ remap_test ex_symbols ex_platform (ms, w') = Some tt /\
  let m := ex_machine 1 <| mem := w_mem w' |> in
  answer (mmu_translate 0 None 0xffffff8000201234 (root_paddr (ms_pt ms)) 0 MMU_KSMAP_IDX ex_mode m) = Some (inr (0x201234, 4096)) /\
  answer (mmu_translate 0 None 0xffffff8000201234 (root_paddr (ms_pt ms)) 0 MMU_USER_IDX ex_mode m) = Some (inl 5).
Proof.
  destruct (kernel_space_rights ex_symbols ex_platform ex_memory ex_layout_ok) as (ms & w' & E & Et & Hm).
  - intros a. unfold ldb, ex_memory. cbn [w_mem]. by rewrite lookup_empty.
  - by apply fla_init_ok.
  - vm_compute. discriminate.
  - exists ms, w'. split; [exact E|]. split; [exact Et|]. cbv zeta. set (m := ex_machine 1 <| mem := w_mem w' |>).
    assert (C : config (env (cpus m !!! 0%nat)) ex_mode) by (split; vm_compute; (reflexivity || discriminate)).
    split; (refine (Hm 0%nat None m 0x201234 0 _ ex_mode eq_refl (or_introl eq_refl) C _ _); lia).
Defined.
