(* ===== verification/Task.v ===== *)
(** * Tasks (nimbos/kernel/src/task, syscall/task.rs, percpu.rs)

    Tasks are shared objects: an [Arc<Task>] is a task's number, and the strong
    count of a task is the number of places that hold it.  The places are the
    ready queue, the lists of children, the current task of the processor (there
    is one), and two statics: the idle task 0 and the root task 1.  An
    [Arc<Mutex<MemorySet>>] is a number too, held by the tasks that have it.
    Where code holds one more reference in a local, the count says so.  A panic
    is [None].  The saved context and the entry frame of a task belong to the
    context switch. *)
From S2P Require Import Prelude Machine Paging Aspace Uaccess.

Inductive TaskState := Ready | Running | Zombie.
#[export] Instance TaskState_eq : EqDecision TaskState.
Proof. solve_decision. Defined.

Record Task := mkTask {
  is_kernel : bool; is_shared : bool; tk_state : TaskState; tk_exit_code : Z;
  tk_vm : option Z; tk_parent : option Z; tk_children : list Z }.
#[export] Instance eta_task : Eta Task := fun s => mkTask (is_kernel s) (is_shared s) (tk_state s) (tk_exit_code s) (tk_vm s) (tk_parent s) (tk_children s).
#[export] Instance set_is_kernel : Setter is_kernel := ltac:(derive_setter).
#[export] Instance set_is_shared : Setter is_shared := ltac:(derive_setter).
#[export] Instance set_tk_state : Setter tk_state := ltac:(derive_setter).
#[export] Instance set_tk_exit_code : Setter tk_exit_code := ltac:(derive_setter).
#[export] Instance set_tk_vm : Setter tk_vm := ltac:(derive_setter).
#[export] Instance set_tk_parent : Setter tk_parent := ltac:(derive_setter).
#[export] Instance set_tk_children : Setter tk_children := ltac:(derive_setter).

Record ksystem := mkSys {
  tasks : gmap Z Task; next_pid : Z; ready_queue : list Z; current_task : Z;
  vms : gmap Z MemorySet; next_vm : Z; sys_w : world }.
#[export] Instance eta_ksystem : Eta ksystem := fun s => mkSys (tasks s) (next_pid s) (ready_queue s) (current_task s) (vms s) (next_vm s) (sys_w s).
#[export] Instance set_tasks : Setter tasks := ltac:(derive_setter).
#[export] Instance set_next_pid : Setter next_pid := ltac:(derive_setter).
#[export] Instance set_ready_queue : Setter ready_queue := ltac:(derive_setter).
#[export] Instance set_current_task : Setter current_task := ltac:(derive_setter).
#[export] Instance set_vms : Setter vms := ltac:(derive_setter).
#[export] Instance set_next_vm : Setter next_vm := ltac:(derive_setter).
#[export] Instance set_sys_w : Setter sys_w := ltac:(derive_setter).

Definition IDLE_TASK_ID : Z := 0.
Definition ROOT_TASK : Z := 1.
Definition is_root (t : Z) : bool := t =? 1.
Definition is_idle (t : Z) : bool := t =? 0.

(** ** References *)
Definition all_children (s : ksystem) : list Z := concat (map (fun p => tk_children p.2) (map_to_list (tasks s))).
Definition strong_count (s : ksystem) (t : Z) : Z :=
  Z.of_nat (count_occ Z.eq_dec (ready_queue s) t) + Z.of_nat (count_occ Z.eq_dec (all_children s) t) +
  b2z (current_task s =? t) + b2z (t =? IDLE_TASK_ID) + b2z (t =? ROOT_TASK).
Definition vm_count (s : ksystem) (v : Z) : Z := Z.of_nat (size (filter (fun p => tk_vm p.2 = Some v) (tasks s))).

(** ** Tasks *)
Definition new_common : Task := mkTask false false Ready 0 None None [].
Definition upd_task (t : Z) (f : Task -> Task) (s : ksystem) : ksystem := s <| tasks := alter f t (tasks s) |>.
Definition set_state (st : TaskState) (t : Z) (s : ksystem) : ksystem := upd_task t (fun k => k <| tk_state := st |>) s.

(** [TaskId::alloc], and the new object. *)
Definition alloc_task (k : Task) (s : ksystem) : Z * ksystem :=
  (next_pid s, s <| next_pid := u64 (next_pid s + 1) |> <| tasks := <[next_pid s := k]> (tasks s) |>).
Definition alloc_vm (ms : MemorySet) (w : world) (s : ksystem) : Z * ksystem :=
  (next_vm s, s <| vms := <[next_vm s := ms]> (vms s) |> <| next_vm := next_vm s + 1 |> <| sys_w := w |>).

Definition add_child (p child : Z) (s : ksystem) : ksystem :=
  upd_task p (fun k => k <| tk_children := tk_children k ++ [child] |>) (upd_task child (fun k => k <| tk_parent := Some p |>) s).

Definition new_idle : Task := new_common <| is_kernel := true |> <| tk_state := Running |>.
Definition new_kernel (s : ksystem) : Z * ksystem :=
  let '(t, s) := alloc_task (new_common <| is_kernel := true |>) s in
  (t, if negb (is_root t) then add_child ROOT_TASK t s else s).

Section user.
  (* the root of the kernel's page table, the programs linked with the kernel, the ELF reader *)
  Context (kroot : Z) (get_app_data_by_name : list Z -> option (list Z)) (elf_new : list Z -> option ElfFile).

Definition new_user (path : list Z) (s : ksystem) : option (Z * ksystem) :=
  elf_data ← get_app_data_by_name path;  (* expect *)
  ' (ms, w) ← ms_new kroot (sys_w s);
  ' (_, (ms, w)) ← load_user elf_new elf_data (ms, w);
  let '(v, s) := alloc_vm ms w s in
  let '(t, s) := alloc_task (new_common <| tk_vm := Some v |>) s in
  Some (t, add_child ROOT_TASK t s).

Definition new_fork (self : Z) (s : ksystem) : option (Z * ksystem) :=
  k ← tasks s !! self;
  if is_kernel k then None
  else
    v ← tk_vm k;  (* unwrap *)
    ms ← vms s !! v;
    ' (ms, w) ← ms_dup kroot ms (sys_w s);
    let '(v, s) := alloc_vm ms w s in
    let '(t, s) := alloc_task (new_common <| tk_vm := Some v |>) s in
    Some (t, add_child self t s).

Definition new_clone (self newsp : Z) (s : ksystem) : option (Z * ksystem) :=
  k ← tasks s !! self;
  if is_kernel k then None
  else
    v ← tk_vm k;
    _ ← VirtAddr_new newsp;
    let '(t, s) := alloc_task (new_common <| is_shared := true |> <| tk_vm := Some v |>) s in
    Some (t, add_child self t s).

(** ** The manager *)
Definition spawn (t : Z) (s : ksystem) : option ksystem :=
  k ← tasks s !! t;
  if decide (tk_state k = Ready) then Some (s <| ready_queue := ready_queue s ++ [t] |>) else None.

(** The caller holds [next] in a local. *)
Definition switch_to (curr next : Z) (s : ksystem) : option ksystem :=
  let s := set_state Running next s in
  if curr =? next then Some s
  else if (1 <? strong_count s curr) && (1 <? strong_count s next + 1) then Some (s <| current_task := next |>) else None.

Definition resched (curr : Z) (s : ksystem) : option ksystem :=
  k ← tasks s !! curr;
  if decide (tk_state k = Running) then None
  else
    match ready_queue s with
    | next :: q => switch_to curr next (s <| ready_queue := q |>)
    | [] => switch_to curr IDLE_TASK_ID s
    end.

Definition yield_current (s : ksystem) : option ksystem :=
  let curr := current_task s in
  k ← tasks s !! curr;
  if negb (bool_decide (tk_state k = Running)) then None
  else
    let s := set_state Ready curr s in
    let s := if negb (is_idle curr) then s <| ready_queue := ready_queue s ++ [curr] |> else s in
    resched curr s.

Definition exit_current (code : Z) (s : ksystem) : option ksystem :=
  let curr := current_task s in
  k ← tasks s !! curr;
  if is_idle curr || is_root curr || negb (bool_decide (tk_state k = Running)) then None
  else
    let s := upd_task curr (fun k => k <| tk_state := Zombie |> <| tk_exit_code := code |>) s in
    let s := fold_left (fun s c => add_child ROOT_TASK c s) (tk_children k) s in
    let s := upd_task curr (fun k => k <| tk_children := [] |>) s in
    resched curr s.

(** [CurrentTask::exit] *)
Definition task_exit (code : Z) (s : ksystem) : option ksystem :=
  k ← tasks s !! current_task s;
  s ← match tk_vm k with
      | Some v =>
          if vm_count s v =? 1 then ms ← vms s !! v; ' (ms, w) ← ms_clear ms (sys_w s); Some (s <| vms := <[v := ms]> (vms s) |> <| sys_w := w |>)
          else Some s
      | None => Some s
      end;
  exit_current code s.

Definition exec (path : list Z) (s : ksystem) : option (Z * ksystem) :=
  k ← tasks s !! current_task s;
  if is_kernel k then None
  else
    v ← tk_vm k;
    if negb (vm_count s v =? 1) then None
    else
      match get_app_data_by_name path with
      | Some elf_data =>
          ms ← vms s !! v;
          ' (ms, w) ← ms_clear ms (sys_w s);
          ' (_, (ms, w)) ← load_user elf_new elf_data (ms, w);
          Some (0, s <| vms := <[v := ms]> (vms s) |> <| sys_w := w |>)
      | None => Some (-1, s)
      end.

(** The last reference to a task that has ended goes; it has no children any more.
    Its memory goes with it if no other task has it. *)
Definition drop_task (t : Z) (s : ksystem) : option ksystem :=
  k ← tasks s !! t;
  let s := s <| tasks := delete t (tasks s) |> in
  match tk_vm k with
  | Some v => if vm_count s v =? 0 then ms ← vms s !! v; w ← ms_drop ms (sys_w s); Some (s <| vms := delete v (vms s) |> <| sys_w := w |>) else Some s
  | None => Some s
  end.

(** The loop of [waitpid]: whether a child matches, and the first that has ended
    with its index. *)
Fixpoint wait_scan (s : ksystem) (pid : Z) (idx : nat) (l : list Z) (found_pid : bool) : bool * option (nat * Z) :=
  match l with
  | [] => (found_pid, None)
  | t :: l =>
      if (pid =? -1) || (t =? u64 pid) then
        if bool_decide (tk_state <$> tasks s !! t = Some Zombie) then (true, Some (idx, t)) else wait_scan s pid (S idx) l true
      else wait_scan s pid (S idx) l found_pid
  end.

(** The result and the exit code written. *)
Definition waitpid (pid : Z) (s : ksystem) : option ((Z * Z) * ksystem) :=
  k ← tasks s !! current_task s;
  match wait_scan s pid 0 (tk_children k) false with
  | (_, Some (idx, child)) =>
      let s := upd_task (current_task s) (fun k => k <| tk_children := delete idx (tk_children k) |>) s in
      if negb (strong_count s child + 1 =? 1) then None
      else
        c ← tasks s !! child;
        s ← drop_task child s;
        Some ((s64 child, tk_exit_code c), s)
  | (true, None) => Some ((-2, 0), s)
  | (false, None) => Some ((-1, 0), s)
  end.

(** ** System calls *)
Definition MAX_STR_LEN : nat := 256.

(** The memory that is mapped while a task runs. *)
Definition current_vm (s : ksystem) : option (Z * MemorySet) :=
  k ← tasks s !! current_task s;
  v ← tk_vm k;
  ms ← vms s !! v;
  Some (v, ms).

Definition sys_exit (exit_code : Z) (s : ksystem) : option ksystem := task_exit exit_code s.
Definition sys_yield (s : ksystem) : option (Z * ksystem) := s ← yield_current s; Some (0, s).
Definition sys_getpid (s : ksystem) : Z := s64 (current_task s).
Definition sys_clone (newsp : Z) (s : ksystem) : option (Z * ksystem) :=
  ' (t, s) ← new_clone (current_task s) newsp s;
  s ← spawn t s;
  Some (s64 t, s).
Definition sys_fork (s : ksystem) : option (Z * ksystem) :=
  ' (t, s) ← new_fork (current_task s) s;
  s ← spawn t s;
  Some (s64 t, s).

(** The string at [path]; [from_utf8] is unwrapped. *)
Definition read_path (path : Z) (s : ksystem) : option (list Z) :=
  ' (_, ms) ← current_vm s;
  path ← read_str MAX_STR_LEN ms (sys_w s) path;
  if utf8 path then Some path else None.
Definition sys_exec (path : Z) (s : ksystem) : option (Z * ksystem) := path ← read_path path s; exec path s.

Definition sys_waitpid (pid exit_code_ptr : Z) (s : ksystem) : option ((Z * Z) * ksystem) :=
  ' ((ret, exit_code), s) ← waitpid pid s;
  ' (_, ms) ← current_vm s;
  w ← write_i32 ms exit_code_ptr exit_code (sys_w s);
  Some ((ret, exit_code), s <| sys_w := w |>).

(** A program writes one byte of its memory. *)
Definition user_store (va b : Z) (s : ksystem) : option ksystem :=
  ' (_, ms) ← current_vm s;
  w ← vm_write by_user ms va b (sys_w s);
  Some (s <| sys_w := w |>).

(** What the current task does.  A program makes system calls, with the arguments
    as [syscall] converts them, and writes to its memory; when a write of its own
    is not allowed, the handler of page faults ends it, which is [Killed].  The
    tasks of the kernel yield, end, and call [waitpid] with a variable of theirs,
    which is [Wait]. *)
Inductive op :=
| Yield | Exit (code : Z) | Getpid | Fork | Clone (newsp : Z) | Exec (path : Z) | Waitpid (pid exit_code_ptr : Z)
| Store (va b : Z) | Killed | Wait (pid : Z).

(** The result is the return value and, for [waitpid], the exit code. *)
Definition sys_op (o : op) (s : ksystem) : option ((Z * Z) * ksystem) :=
  match o with
  | Yield => ' (r, s) ← sys_yield s; Some ((r, 0), s)
  | Exit code => s ← sys_exit (s32 code) s; Some ((0, 0), s)
  | Getpid => Some ((sys_getpid s, 0), s)
  | Fork => ' (r, s) ← sys_fork s; Some ((r, 0), s)
  | Clone newsp => ' (r, s) ← sys_clone newsp s; Some ((r, 0), s)
  | Exec path => path ← UserPtr_from 1 path; ' (r, s) ← sys_exec path s; Some ((r, 0), s)
  | Waitpid pid ptr => ptr ← UserPtr_from 4 ptr; sys_waitpid (s64 pid) ptr s
  | Store va b => s ← user_store va b s; Some ((0, 0), s)
  | Killed => s ← task_exit (-1) s; Some ((0, 0), s)
  | Wait pid => waitpid pid s
  end.

(** ** The start *)

(** [PerCpu::new]: the idle task is current. *)
Definition boot (w : world) : ksystem := mkSys {[IDLE_TASK_ID := new_idle]} 1 [] IDLE_TASK_ID ∅ 0 w.
(** The loops of the root and of the two test tasks are operations of those tasks. *)
Definition task_init (shell : list Z) (s : ksystem) : option ksystem :=
  let '(root, s) := new_kernel s in
  s ← spawn root s;
  let '(t, s) := new_kernel s in
  s ← spawn t s;
  let '(t, s) := new_kernel s in
  s ← spawn t s;
  ' (t, s) ← new_user shell s;
  spawn t s.
End user.
