(* ===== verification/TaskFacts.v ===== *)
(** * The tree of tasks

    Who holds whom: the invariant of the task table, the ready queue and the
    lists of children, and that the scheduler, the end of a task and the start
    of one keep it. *)
From S2P Require Import Prelude Machine Paging Aspace Task.

Definition vm_of (s : ksystem) (t : Z) : option Z := tasks s !! t ≫= tk_vm.

(** The tree: its two roots, and lists of children that agree with the parents.  A
    parent is older than its children.  User tasks have memory, and all memory
    has a task. *)
Record shape (s : ksystem) : Prop := {
  sh_pids : forall t k, tasks s !! t = Some k -> 0 <= t < next_pid s;
  sh_idle : exists k, tasks s !! 0 = Some k /\ is_kernel k = true /\ tk_parent k = None;
  sh_root : exists k, tasks s !! 1 = Some k /\ is_kernel k = true /\ tk_parent k = None;
  sh_child : forall p k c, tasks s !! p = Some k -> c ∈ tk_children k -> exists kc, tasks s !! c = Some kc /\ tk_parent kc = Some p;
  sh_distinct : forall p k, tasks s !! p = Some k -> NoDup (tk_children k);
  sh_parent : forall t k p, tasks s !! t = Some k -> tk_parent k = Some p -> 1 <= p < t /\ exists kp, tasks s !! p = Some kp /\ t ∈ tk_children kp;
  sh_orphan : forall t k, tasks s !! t = Some k -> tk_parent k = None -> t = 0 \/ t = 1;
  sh_user : forall t k, tasks s !! t = Some k -> is_kernel k = false <-> is_Some (tk_vm k);
  sh_vm : forall v, is_Some (vms s !! v) <-> exists t, vm_of s t = Some v;
  sh_vms : forall v, is_Some (vms s !! v) -> v < next_vm s;
}.

(** The states: at most the current task runs, the queue has the ready tasks once
    each, but for the idle task; those that ended have no children. *)
Record sched (s : ksystem) : Prop := {
  sc_running : forall t k, tasks s !! t = Some k -> tk_state k = Running -> t = current_task s;
  sc_current : is_Some (tasks s !! current_task s);
  sc_once : NoDup (ready_queue s);
  sc_ready : forall t, t ∈ ready_queue s <-> t <> 0 /\ exists k, tasks s !! t = Some k /\ tk_state k = Ready;
  sc_zombie : forall t k, tasks s !! t = Some k -> tk_state k = Zombie -> tk_children k = [] /\ t <> 0 /\ t <> 1;
}.

Definition task_state (s : ksystem) (t : Z) : option TaskState := tk_state <$> tasks s !! t.

(** Between operations the current task runs. *)
Record running (s : ksystem) : Prop := {
  ru_shape : shape s;
  ru_sched : sched s;
  ru_current : task_state s (current_task s) = Some Running;
}.

(** ** References *)
Lemma all_children_spec s t : t ∈ all_children s <-> exists p k, tasks s !! p = Some k /\ t ∈ tk_children k.
Proof.
  unfold all_children. rewrite list_elem_of_In, in_concat. split.
  - intros (l & ([p k] & <- & Hp)%in_map_iff & Ht). exists p, k. rewrite <- elem_of_map_to_list, !list_elem_of_In. done.
  - intros (p & k & Hp & Ht). exists (tk_children k). split; [|by apply list_elem_of_In]. apply in_map_iff. exists (p, k). split; [done|].
    by apply list_elem_of_In, elem_of_map_to_list.
Qed.

Lemma count_pos l t : t ∈ l -> (0 < count_occ Z.eq_dec l t)%nat.
Proof. intros H. by apply count_occ_In, list_elem_of_In. Qed.

Lemma count_zero l t : t ∉ l -> count_occ Z.eq_dec l t = 0%nat.
Proof. intros H. apply count_occ_not_In. by rewrite <- list_elem_of_In. Qed.

(** Someone other than the processor and the queue holds every task. *)
Lemma held s t : shape s -> is_Some (tasks s !! t) -> 1 + b2z (current_task s =? t) <= strong_count s t.
Proof.
  intros H [k Hk]. unfold strong_count. destruct (tk_parent k) as [p|] eqn:Ep.
  - destruct (sh_parent s H t k p Hk Ep) as (_ & kp & Hkp & Hc).
    pose proof (count_pos (all_children s) t ltac:(apply all_children_spec; eauto)). destruct (current_task s =? t), (t =? IDLE_TASK_ID), (t =? ROOT_TASK); cbn [b2z]; lia.
  - destruct (sh_orphan s H t k Hk Ep) as [-> | ->]; cbn; lia.
Qed.

Lemma unheld s t : t ∉ ready_queue s -> t ∉ all_children s -> t <> current_task s -> t <> 0 -> t <> 1 -> strong_count s t = 0.
Proof.
  intros H1 H2 H3 H4 H5. unfold strong_count, IDLE_TASK_ID, ROOT_TASK. rewrite !count_zero by done.
  rewrite !(proj2 (Z.eqb_neq _ _)) by (done || congruence). done.
Qed.

Lemma vm_count_one s v t : vm_count s v = 1 -> vm_of s t = Some v -> forall t', vm_of s t' = Some v -> t' = t.
Proof.
  unfold vm_count, vm_of. intros H Ht t' Ht'. set (m := filter _ (tasks s)) in H.
  assert (Hin : forall x, tasks s !! x ≫= tk_vm = Some v -> x ∈ dom m).
  { intros x Hx. destruct (tasks s !! x) as [k|] eqn:E; [|done]. apply elem_of_dom. exists k. by apply map_lookup_filter_Some. }
  rewrite <- size_dom in H. assert (H1 : size (dom m) = 1%nat) by lia. apply (size_singleton_inv (dom m)); [done|by apply Hin..].
Qed.

Lemma vm_count_alone s v t : vm_of s t = Some v -> (forall t', t' <> t -> vm_of s t' <> Some v) -> vm_count s v = 1.
Proof.
  unfold vm_count, vm_of. intros Ht Hn. destruct (tasks s !! t) as [k|] eqn:Hk; [|done]. cbn in Ht.
  assert (E : filter (fun p => tk_vm p.2 = Some v) (tasks s) = {[t := k]}); [|by rewrite E, map_size_singleton].
  apply map_eq. intros x. destruct (decide (x = t)) as [->|Hx].
  - rewrite lookup_singleton_eq. by apply map_lookup_filter_Some.
  - rewrite lookup_singleton_ne by done. apply map_lookup_filter_None. right. intros kx Hkx Hv. apply (Hn x Hx). by rewrite Hkx.
Qed.

Lemma vm_count_zero s v : vm_count s v = 0 <-> forall t, vm_of s t <> Some v.
Proof.
  unfold vm_count, vm_of. rewrite (Nat2Z.inj_iff _ 0). split.
  - intros H%map_size_empty_inv t Ht. destruct (tasks s !! t) as [k|] eqn:E; [|done].
    by apply (map_filter_empty_not_lookup _ _ t k H Ht).
  - intros H. apply map_size_empty_iff, map_empty. intros t. apply map_lookup_filter_None_2. right. intros k Hk Hv. apply (H t). by rewrite Hk.
Qed.

Lemma vm_count_used s v : vm_count s v <> 0 -> exists t, vm_of s t = Some v.
Proof.
  unfold vm_count, vm_of. intros H. destruct (map_choose (filter (fun p => tk_vm p.2 = Some v) (tasks s))) as (t & k & [Hk Hv]%map_lookup_filter_Some).
  - intros E. apply H. by rewrite E, map_size_empty.
  - exists t. by rewrite Hk.
Qed.

(** ** Changes that keep the tree *)
Lemma upd_task_lookup f t s x : tasks (upd_task t f s) !! x = if decide (x = t) then f <$> tasks s !! x else tasks s !! x.
Proof. change (tasks (upd_task t f s)) with (alter f t (tasks s)). case_decide as E; [subst; apply lookup_alter_eq|by apply lookup_alter_ne]. Qed.

Definition skel (k : Task) : Task := k <| tk_state := Ready |> <| tk_exit_code := 0 |> <| is_shared := false |>.

Lemma skel_inv k k' : skel k = skel k' -> is_kernel k = is_kernel k' /\ tk_vm k = tk_vm k' /\ tk_parent k = tk_parent k' /\ tk_children k = tk_children k'.
Proof. destruct k, k'. by intros [=]. Qed.

Lemma skel_lookup s s' t k : (forall t, skel <$> tasks s' !! t = skel <$> tasks s !! t) -> tasks s' !! t = Some k ->
  exists k0, tasks s !! t = Some k0 /\ is_kernel k = is_kernel k0 /\ tk_vm k = tk_vm k0 /\ tk_parent k = tk_parent k0 /\ tk_children k = tk_children k0.
Proof.
  intros H Hk. specialize (H t). rewrite Hk in H. cbn in H. symmetry in H. apply fmap_Some in H as (k0 & -> & E%skel_inv). eauto.
Qed.

Lemma skel_vm_of s s' t : (forall t, skel <$> tasks s' !! t = skel <$> tasks s !! t) -> vm_of s' t = vm_of s t.
Proof.
  intros H. specialize (H t). unfold vm_of. destruct (tasks s' !! t), (tasks s !! t); try done. apply (inj Some), skel_inv in H. cbn. apply H.
Qed.

Lemma shape_skel s s' : shape s -> (forall t, skel <$> tasks s' !! t = skel <$> tasks s !! t) -> next_pid s' = next_pid s ->
  (forall v, is_Some (vms s' !! v) <-> is_Some (vms s !! v)) -> next_vm s' = next_vm s -> shape s'.
Proof.
  intros [P I R C D A O U V N] E Ep Ev En. pose proof (fun t k => skel_lookup s s' t k E) as L. pose proof (fun t k => skel_lookup s' s t k (fun t => eq_sym (E t))) as L'.
  split.
  - intros t k (k0 & ? & _)%L. rewrite Ep. eauto.
  - destruct I as (k & (k0 & ? & ? & _ & ? & _)%L' & ? & ?). exists k0. split_and!; congruence.
  - destruct R as (k & (k0 & ? & ? & _ & ? & _)%L' & ? & ?). exists k0. split_and!; congruence.
  - intros p k c (k0 & Hp & _ & _ & _ & ->)%L Hc. destruct (C p k0 c Hp Hc) as (kc & (k1 & ? & _ & _ & ? & _)%L' & ?). exists k1. split; congruence.
  - intros p k (k0 & Hp & _ & _ & _ & ->)%L. eauto.
  - intros t k p (k0 & Ht & _ & _ & -> & _)%L Hp. destruct (A t k0 p Ht Hp) as (? & kp & (k1 & ? & _ & _ & _ & Ec)%L' & ?). split; [done|]. exists k1. by rewrite <- Ec.
  - intros t k (k0 & Ht & _ & _ & -> & _)%L. eauto.
  - intros t k (k0 & Ht & -> & -> & _)%L. eauto.
  - intros v. rewrite Ev, V. by setoid_rewrite (skel_vm_of s s' _ E).
  - intros v. rewrite Ev, En. apply N.
Qed.
(** ** The scheduler *)

Lemma set_state_lookup st t s x : tasks (set_state st t s) !! x = (if decide (x = t) then (fun k => k <| tk_state := st |>) <$> tasks s !! x else tasks s !! x).
Proof. apply upd_task_lookup. Qed.

Definition next_task (s : ksystem) : Z := hd IDLE_TASK_ID (ready_queue s).

Lemma next_task_ready s : shape s -> sched s ->
  exists k, tasks s !! next_task s = Some k /\ tk_state k <> Zombie /\ forall t, t ∈ tail (ready_queue s) <-> t ∈ ready_queue s /\ t <> next_task s.
Proof.
  intros H S. unfold next_task. pose proof (sc_once s S) as Hn. pose proof (sc_ready s S) as Hr. destruct (ready_queue s) as [|t q]; cbn [hd tail].
  - destruct (sh_idle s H) as (k & Hk & _). exists k. split; [done|]. split; [intros Hz; by destruct (sc_zombie s S 0 k Hk Hz) as (_ & ? & _)|].
    intros t. split; [by intros ?%elem_of_nil|by intros [?%elem_of_nil _]].
  - destruct (proj1 (Hr t)) as (_ & k & ? & Hs); [by left|]. exists k. split; [done|]. split; [congruence|]. apply list.NoDup_cons in Hn as [Hn _].
    intros x. rewrite elem_of_cons. split; [intros Hx; split; [auto|by intros ->]|by intros [[?|?] ?]].
Qed.

(** What a switch leaves: the front of the queue runs. *)
Definition switched (s : ksystem) : ksystem := set_state Running (next_task s) s <| ready_queue := tail (ready_queue s) |> <| current_task := next_task s |>.

Lemma switched_lookup s x : tasks (switched s) !! x = (if decide (x = next_task s) then (fun k => k <| tk_state := Running |>) <$> tasks s !! x else tasks s !! x).
Proof. apply set_state_lookup. Qed.

Lemma set_state_skel st t s x : skel <$> tasks (set_state st t s) !! x = skel <$> tasks s !! x.
Proof. rewrite set_state_lookup. case_decide; [|done]. by destruct (tasks s !! x). Qed.

Lemma switched_running s : shape s -> sched s -> task_state s (current_task s) <> Some Running -> running (switched s).
Proof.
  intros H S Hc. destruct (next_task_ready s H S) as (k0 & Hk0 & Hz0 & Hq). set (n := next_task s) in *. pose proof (switched_lookup s) as L. fold n in L.
  split.
  - apply (shape_skel s); try done. apply set_state_skel.
  - split.
    + intros t k. rewrite L. case_decide as E; [by intros _ _|]. intros Hk Hr. exfalso. apply Hc. unfold task_state. rewrite <- (sc_running s S t k Hk Hr), Hk. cbn. congruence.
    + cbn [current_task switched]. change (current_task (switched s)) with n. rewrite L, decide_True by done. by rewrite Hk0.
    + change (ready_queue (switched s)) with (tail (ready_queue s)). pose proof (sc_once s S) as Hn. destruct (ready_queue s); [done|]. by apply list.NoDup_cons in Hn as [_ ?].
    + intros t. change (ready_queue (switched s)) with (tail (ready_queue s)). rewrite Hq, (sc_ready s S), L. case_decide as E.
      * split; [by intros [_ ?]|]. intros (_ & k & (k' & _ & ->)%fmap_Some & ?). done.
      * tauto.
    + intros t k. rewrite L. case_decide as E; [|apply S]. intros (k' & _ & ->)%fmap_Some. done.
  - unfold task_state. change (current_task (switched s)) with n. rewrite L, decide_True by done. by rewrite Hk0.
Qed.

Lemma resched_ok s : shape s -> sched s -> task_state s (current_task s) <> Some Running -> resched (current_task s) s = Some (switched s).
Proof.
  intros H S Hc. pose proof (ru_shape _ (switched_running s H S Hc)) as Hs. unfold resched, task_state in *. destruct (sc_current s S) as [k Hk]. rewrite Hk in *. cbn [mbind option_bind].
  rewrite decide_False by (cbn in Hc; congruence).
  assert (E : (match ready_queue s with next :: q => switch_to (current_task s) next (s <| ready_queue := q |>) | [] => switch_to (current_task s) IDLE_TASK_ID s end) =
    switch_to (current_task s) (next_task s) (s <| ready_queue := tail (ready_queue s) |>)) by (unfold next_task; destruct s; cbn; by destruct ready_queue).
  rewrite E. unfold switch_to. set (s1 := set_state Running _ _). assert (E1 : switched s = s1 <| current_task := next_task s |>) by done.
  destruct (Z.eqb_spec (current_task s) (next_task s)) as [En|En].
  - f_equal. rewrite E1. rewrite <- En. by destruct s.
  - destruct (next_task_ready s H S) as (k0 & Hk0 & _). pose proof (switched_lookup s) as L. rewrite E1 in L.
    assert (H1 : shape s1) by (apply (shape_skel s); try done; apply (set_state_skel _ _ s)).
    pose proof (held s1 (current_task s) H1) as G1. pose proof (held s1 (next_task s) H1) as G2.
    change (current_task s1) with (current_task s) in *. change (tasks (s1 <| current_task := next_task s |>)) with (tasks s1) in L.
    rewrite Z.eqb_refl in G1. rewrite !L in *. rewrite decide_False in G1 by done. rewrite decide_True in G2 by done. rewrite Hk, Hk0 in *.
    specialize (G1 ltac:(eauto)). specialize (G2 ltac:(cbn; eauto)). rewrite (proj2 (Z.eqb_neq _ _) En) in G2. cbn [b2z] in *.
    rewrite !(proj2 (Z.ltb_lt _ _)) by lia. done.
Qed.

Lemma yield_ok s : running s -> exists s', yield_current s = Some s' /\ running s' /\
  (forall t, skel <$> tasks s' !! t = skel <$> tasks s !! t) /\ next_pid s' = next_pid s /\ vms s' = vms s /\ next_vm s' = next_vm s /\ sys_w s' = sys_w s /\
  let q := ready_queue s ++ (if is_idle (current_task s) then [] else [current_task s]) in current_task s' = hd IDLE_TASK_ID q /\ ready_queue s' = tail q.
Proof.
  intros [H S R]. set (c := current_task s) in *. unfold task_state in R. apply fmap_Some in R as (k & Hk & Hr). unfold yield_current. fold c. rewrite Hk. cbn [mbind option_bind].
  rewrite bool_decide_eq_true_2 by done. cbn [negb]. set (q := ready_queue s ++ _). set (s1 := if negb (is_idle c) then _ else _).
  assert (E1 : s1 = set_state Ready c s <| ready_queue := q |>) by (subst s1 q; destruct (is_idle c); cbn [negb]; [rewrite app_nil_r; by destruct s|done]).
  pose proof (fun x => set_state_lookup Ready c s x) as L. assert (Lc : tasks (set_state Ready c s) !! c = Some (k <| tk_state := Ready |>)) by (rewrite L, decide_True, Hk; done).
  assert (H1 : shape s1) by (rewrite E1; apply (shape_skel s); try done; apply (set_state_skel _ _ s)).
  assert (Hnr : c ∉ ready_queue s) by (intros (_ & k' & ? & ?)%(sc_ready s S); congruence).
  assert (S1 : sched s1).
  { rewrite E1. split; cbn [tasks current_task ready_queue].
    - intros t kt Ht Hst. change (tasks _) with (tasks (set_state Ready c s)) in Ht. rewrite L in Ht. case_decide as E; [exact E|]. by apply (sc_running s S t kt).
    - change (is_Some (tasks (set_state Ready c s) !! c)). by rewrite Lc.
    - change (NoDup q). subst q. apply list.NoDup_app. split; [apply S|]. destruct (is_idle c); (split; [|repeat constructor; by intros ?%elem_of_nil]).
      + by intros x _ ?%elem_of_nil.
      + by intros x Hx ->%list_elem_of_singleton.
    - intros t. change (t ∈ q <-> t <> 0 /\ exists k, tasks (set_state Ready c s) !! t = Some k /\ tk_state k = Ready). rewrite L. unfold q. rewrite elem_of_app, (sc_ready s S).
      unfold is_idle. case_decide as E.
      + subst t. rewrite Hk. cbn [fmap option_fmap option_map]. destruct (Z.eqb_spec c 0) as [->|]; [|rewrite list_elem_of_singleton; split; [intros _; split; [done|]; by eexists|by right]].
        split; [intros [[? _]|?%elem_of_nil]; done|by intros [? _]].
      + split; [|by left]. intros [?|Hx]; [done|]. destruct (c =? 0); [by apply elem_of_nil in Hx|by apply list_elem_of_singleton in Hx].
    - intros t kt Ht Hst. change (tasks _) with (tasks (set_state Ready c s)) in Ht. rewrite L in Ht. case_decide as E; [|by apply (sc_zombie s S t kt)].
      apply fmap_Some in Ht as (k' & _ & ->). done. }
  assert (C1 : task_state s1 c <> Some Running) by (unfold task_state; rewrite E1; change (tasks _) with (tasks (set_state Ready c s)); by rewrite Lc).
  assert (Ec : current_task s1 = c) by (by rewrite E1). rewrite <- Ec, (resched_ok s1 H1 S1) by (by rewrite Ec). exists (switched s1). split; [done|]. split; [apply switched_running; try done; by rewrite Ec|].
  rewrite E1. split_and!; try done. intros t. rewrite switched_lookup. transitivity (skel <$> tasks (set_state Ready c s) !! t); [|apply set_state_skel].
  change (tasks (set_state Ready c s <|ready_queue:=q|>)) with (tasks (set_state Ready c s)). case_decide; [|done]. by destruct (tasks (set_state Ready c s) !! t).
Qed.

(** ** The end of a task *)

(** The children of a task that ends go to the root. *)
Definition adopt (ch : list Z) (t : Z) (k : Task) : Task :=
  k <| tk_parent := if decide (t ∈ ch) then Some ROOT_TASK else tk_parent k |> <| tk_children := if t =? ROOT_TASK then tk_children k ++ ch else tk_children k |>.

Lemma add_child_lookup p c s t : p <> c ->
  tasks (add_child p c s) !! t = (fun k => k <| tk_parent := if decide (t = c) then Some p else tk_parent k |> <| tk_children := if t =? p then tk_children k ++ [c] else tk_children k |>) <$> tasks s !! t.
Proof.
  intros Hn. unfold add_child. rewrite !upd_task_lookup.
  destruct (Z.eqb_spec t p), (decide (t = p)), (decide (t = c)); try congruence; by destruct (tasks s !! t) as [[]|].
Qed.

Lemma adopt_all ch : forall s, ROOT_TASK ∉ ch -> let s' := fold_left (fun s c => add_child ROOT_TASK c s) ch s in
  (forall t, tasks s' !! t = adopt ch t <$> tasks s !! t) /\ next_pid s' = next_pid s /\ ready_queue s' = ready_queue s /\ current_task s' = current_task s /\ vms s' = vms s /\
  next_vm s' = next_vm s /\ sys_w s' = sys_w s.
Proof.
  induction ch as [|c ch IH]; intros s Hr; cbn [fold_left].
  - split_and!; try done. intros t. destruct (tasks s !! t) as [[]|]; [|done]. unfold adopt. cbn. rewrite app_nil_r. by destruct (t =? ROOT_TASK).
  - apply not_elem_of_cons in Hr as [Hc Hr]. destruct (IH (add_child ROOT_TASK c s) Hr) as (L & E). split; [|exact E]. intros t. rewrite L, add_child_lookup by done.
    destruct (tasks s !! t) as [k|]; [|done]. cbn [fmap option_fmap option_map]. f_equal. unfold adopt. pose proof (elem_of_cons ch t c) as Hin.
    destruct (decide (t ∈ ch)), (decide (t = c)), (decide (t ∈ c :: ch)); try tauto; destruct k, (t =? ROOT_TASK); cbn; by rewrite <- ?app_assoc.
Qed.

(** The table when the task [c] has ended. *)
Definition ended (code c : Z) (ch : list Z) (t : Z) (k : Task) : Task :=
  if decide (t = c) then k <| tk_state := Zombie |> <| tk_exit_code := code |> <| tk_children := [] |> else adopt ch t k.

Lemma no_self s c k : shape s -> tasks s !! c = Some k -> (c ∉ tk_children k) /\ (ROOT_TASK ∉ tk_children k).
Proof.
  intros H Hk. split; intros Hc; destruct (sh_child s H c k _ Hk Hc) as (kc & Hkc & Hp).
  - pose proof (sh_parent s H c kc c Hkc Hp). lia.
  - destruct (sh_root s H) as (kr & Hkr & _ & ?). unfold ROOT_TASK in *. congruence.
Qed.

Lemma ended_shape s s' c k code : shape s -> tasks s !! c = Some k -> c <> 0 -> c <> 1 -> (forall t, tasks s' !! t = ended code c (tk_children k) t <$> tasks s !! t) ->
  next_pid s' = next_pid s -> vms s' = vms s -> next_vm s' = next_vm s -> shape s'.
Proof.
  intros H Hk H0 H1 L Ep Ev En. destruct (no_self s c k H Hk) as [Hcc Hrc]. destruct H as [P I R C D A O U V N]. set (ch := tk_children k) in *.
  assert (Hch : forall x kx, tasks s !! x = Some kx -> x ∈ ch -> tk_parent kx = Some c) by (intros x kx Hx Hin; destruct (C c k x Hk Hin) as (? & ? & ?); congruence).
  assert (G : forall t kt, tasks s' !! t = Some kt -> exists k0, tasks s !! t = Some k0 /\ kt = ended code c ch t k0) by (intros t kt; rewrite L; intros (k0 & ? & ?)%fmap_Some; eauto).
  assert (F : forall t k0, tasks s !! t = Some k0 -> tasks s' !! t = Some (ended code c ch t k0)) by (intros t k0 Ht; by rewrite L, Ht).
  assert (Ek : forall t k0, is_kernel (ended code c ch t k0) = is_kernel k0 /\ tk_vm (ended code c ch t k0) = tk_vm k0) by (intros t k0; unfold ended, adopt; by case_decide).
  assert (Epa : forall t k0, tk_parent (ended code c ch t k0) = if decide (t ∈ ch) then Some ROOT_TASK else tk_parent k0)
    by (intros t k0; unfold ended, adopt; case_decide as E; [subst t; by rewrite decide_False|done]).
  assert (Ech : forall t k0, tk_children (ended code c ch t k0) = if decide (t = c) then [] else if t =? ROOT_TASK then tk_children k0 ++ ch else tk_children k0)
    by (intros t k0; unfold ended, adopt; by case_decide).
  assert (Hnew : forall x k0, tasks s !! x = Some k0 -> tk_parent k0 = Some c <-> x ∈ ch).
  { intros x k0 Hx. split; [|by apply Hch]. intros Hp. destruct (A x k0 c Hx Hp) as (_ & kp & ? & ?). unfold ch. congruence. }
  split.
  - intros t kt (k0 & ? & _)%G. rewrite Ep. eauto.
  - destruct I as (k0 & Hk0 & ? & Hp). exists (ended code c ch 0 k0). rewrite (proj1 (Ek _ _)), Epa, decide_False; [auto|]. intros Hin. by rewrite (Hch 0 k0 Hk0 Hin) in Hp.
  - destruct R as (k0 & Hk0 & ? & Hp). exists (ended code c ch 1 k0). rewrite (proj1 (Ek _ _)), Epa, decide_False; auto.
  - intros p kp x (k0 & Hp & ->)%G. rewrite Ech. case_decide as Epc; [by intros ?%elem_of_nil|]. intros Hx.
    assert (Hx' : x ∈ tk_children k0 \/ p = ROOT_TASK /\ x ∈ ch) by (destruct (Z.eqb_spec p ROOT_TASK); [apply elem_of_app in Hx as [?|?]; auto|auto]).
    destruct Hx' as [Hx0|[-> Hin]].
    + destruct (C p k0 x Hp Hx0) as (kx & Hkx & Hpx). exists (ended code c ch x kx). split; [by apply F|]. rewrite Epa, decide_False; [done|]. intros Hin. rewrite (Hch x kx Hkx Hin) in Hpx. congruence.
    + destruct (C c k x Hk Hin) as (kx & Hkx & _). exists (ended code c ch x kx). split; [by apply F|]. by rewrite Epa, decide_True.
  - intros p kp (k0 & Hp & ->)%G. rewrite Ech. case_decide; [constructor|]. destruct (Z.eqb_spec p ROOT_TASK) as [->|]; [|eauto]. apply list.NoDup_app. split; [eauto|]. split; [|by apply (D c k)].
    intros x Hx Hin. destruct (C _ k0 x Hp Hx) as (kx & Hkx & Hpx). rewrite (Hch x kx Hkx Hin) in Hpx. unfold ROOT_TASK in *. congruence.
  - intros t kt p (k0 & Ht & ->)%G. rewrite Epa. case_decide as Hin.
    + intros [= <-]. destruct (A t k0 c Ht (Hch t k0 Ht Hin)) as (? & _). split; [unfold ROOT_TASK; lia|]. destruct R as (kr & Hkr & _).
      exists (ended code c ch 1 kr). split; [by apply F|]. rewrite Ech, decide_False by done. cbn. apply elem_of_app. by right.
    + intros Hp. destruct (A t k0 p Ht Hp) as (? & kp & Hkp & Hin'). split; [done|]. exists (ended code c ch p kp). split; [by apply F|]. rewrite Ech.
      rewrite decide_False; [case_match; [apply elem_of_app; by left|done]|]. intros ->. apply Hin. by apply (Hnew t k0).
  - intros t kt (k0 & Ht & ->)%G. rewrite Epa. case_decide; [done|eauto].
  - intros t kt (k0 & Ht & ->)%G. rewrite (proj1 (Ek _ _)), (proj2 (Ek _ _)). eauto.
  - intros v. rewrite Ev, V. apply exist_proper. intros t. unfold vm_of. rewrite L. destruct (tasks s !! t) as [k0|]; [|done]. cbn. by rewrite (proj2 (Ek _ _)).
  - intros v. rewrite Ev, En. apply N.
Qed.

Lemma ended_sched s s' k code : let c := current_task s in sched s -> tasks s !! c = Some k -> tk_state k = Running -> c <> 0 -> c <> 1 ->
  (forall t, tasks s' !! t = ended code c (tk_children k) t <$> tasks s !! t) -> ready_queue s' = ready_queue s -> current_task s' = c -> sched s'.
Proof.
  intros c S Hk R H0 H1 L Eq Ec. assert (Est : forall t k0, t <> c -> tk_state (ended code c (tk_children k) t k0) = tk_state k0) by (intros t k0 Ht; unfold ended; by rewrite decide_False).
  split.
  - intros t kt. rewrite L, Ec. intros (k0 & Ht & ->)%fmap_Some Hr. destruct (decide (t = c)) as [|Hn]; [done|]. rewrite Est in Hr by done. by apply (sc_running s S t k0).
  - by rewrite Ec, L, Hk.
  - rewrite Eq. apply S.
  - intros t. rewrite Eq, (sc_ready s S), L. destruct (decide (t = c)) as [->|Hn].
    + rewrite Hk. cbn. split; [intros (_ & k' & [= <-] & ?); congruence|]. intros (_ & k' & [= <-] & Hz). unfold ended in Hz. by rewrite decide_True in Hz.
    + split; intros [? (k' & Hk' & Hz)]; (split; [done|]).
      * exists (ended code c (tk_children k) t k'). rewrite Hk'. by rewrite Est.
      * apply fmap_Some in Hk' as (k0 & -> & ->). exists k0. by rewrite Est in Hz.
  - intros t kt. rewrite L. intros (k0 & Ht & ->)%fmap_Some Hz. destruct (decide (t = c)) as [->|Hn]; [unfold ended; by rewrite decide_True|].
    rewrite Est in Hz by done. destruct (sc_zombie s S t k0 Ht Hz) as (Hch & ? & Hr). split; [|done]. unfold ended, adopt. rewrite decide_False by done.
    cbn. unfold ROOT_TASK. by rewrite (proj2 (Z.eqb_neq t 1)).
Qed.

Lemma exit_current_ok s code k : running s -> tasks s !! current_task s = Some k -> current_task s <> 0 -> current_task s <> 1 ->
  exists s', exit_current code s = Some s' /\ running s' /\
    (forall t, t <> hd IDLE_TASK_ID (ready_queue s) -> tasks s' !! t = ended code (current_task s) (tk_children k) t <$> tasks s !! t) /\
    (forall t, vm_of s' t = vm_of s t) /\ next_pid s' = next_pid s /\ vms s' = vms s /\ next_vm s' = next_vm s /\ sys_w s' = sys_w s /\
    current_task s' = hd IDLE_TASK_ID (ready_queue s) /\ ready_queue s' = tail (ready_queue s).
Proof.
  intros [H S R] Hk H0 H1. set (c := current_task s) in *. unfold task_state in R. rewrite Hk in R. injection R as R. destruct (no_self s c k H Hk) as [Hcc Hrc].
  unfold exit_current. fold c. rewrite Hk. cbn [mbind option_bind]. unfold is_idle, is_root. rewrite (proj2 (Z.eqb_neq c 0)), (proj2 (Z.eqb_neq c 1)), bool_decide_eq_true_2 by done.
  cbn [orb negb]. set (z := upd_task c _ s). destruct (adopt_all (tk_children k) z Hrc) as (L & Ep & Eq & Ec & Ev & En & Ew). set (s0 := fold_left _ _ z) in *.
  set (s1 := upd_task c (fun k => k <| tk_children := [] |>) s0).
  assert (L1 : forall t, tasks s1 !! t = ended code c (tk_children k) t <$> tasks s !! t).
  { intros t. unfold s1. rewrite upd_task_lookup, L. unfold z. rewrite upd_task_lookup. unfold ended. case_decide as Et; [|done]. subst t. rewrite Hk. cbn [fmap option_fmap option_map]. f_equal.
    unfold adopt. rewrite decide_False by done. by destruct k. }
  assert (H' : shape s1) by (by apply (ended_shape s s1 c k code)).
  assert (Lc : tasks s1 !! c = Some (ended code c (tk_children k) c k)) by (by rewrite L1, Hk). unfold ended in Lc. rewrite decide_True in Lc by done.
  assert (S' : sched s1) by (by apply (ended_sched s s1 k code)).
  assert (C1 : task_state s1 (current_task s1) <> Some Running) by (change (current_task s1) with (current_task s0); unfold task_state; rewrite Ec; change (current_task z) with c; by rewrite Lc).
  replace (resched c s1) with (resched (current_task s1) s1) by (by change (current_task s1) with (current_task s0); rewrite Ec). rewrite (resched_ok s1 H' S' C1).
  assert (Enx : next_task s1 = hd IDLE_TASK_ID (ready_queue s)) by (unfold next_task; change (ready_queue s1) with (ready_queue s0); by rewrite Eq).
  exists (switched s1). split; [done|]. split; [by apply switched_running|]. split.
  { intros t Ht. rewrite switched_lookup, Enx, decide_False by done. apply L1. }
  split.
  { intros t. unfold vm_of. rewrite switched_lookup. transitivity (tasks s1 !! t ≫= tk_vm); [case_decide; [|done]; by destruct (tasks s1 !! t)|]. rewrite L1.
    destruct (tasks s !! t); [|done]. cbn. unfold ended, adopt. by case_decide. }
  change (next_pid (switched s1)) with (next_pid s0). change (vms (switched s1)) with (vms s0). change (next_vm (switched s1)) with (next_vm s0). change (sys_w (switched s1)) with (sys_w s0).
  change (ready_queue (switched s1)) with (tail (ready_queue s0)). rewrite Eq, Ep, Ev, En, Ew. split_and!; try done.
Qed.

(** ** The start of a task *)

(** The table with the new task [n], a child of [p]. *)
Definition started (k0 : Task) (p n t : Z) (s : ksystem) : option Task :=
  if decide (t = n) then Some (k0 <| tk_parent := Some p |>)
  else (fun k => k <| tk_children := if t =? p then tk_children k ++ [n] else tk_children k |>) <$> tasks s !! t.

Lemma started_shape s s' k0 p : shape s -> is_Some (tasks s !! p) -> 1 <= p -> tk_children k0 = [] -> (is_kernel k0 = false <-> is_Some (tk_vm k0)) ->
  (forall v, is_Some (vms s' !! v) <-> is_Some (vms s !! v) \/ tk_vm k0 = Some v) -> (forall v, is_Some (vms s' !! v) -> v < next_vm s') ->
  (forall t, tasks s' !! t = started k0 p (next_pid s) t s) -> next_pid s' = next_pid s + 1 -> shape s'.
Proof.
  intros [P I R C D A O U V N] [kp Hkp] H1 Hch Hu Hv Hn L Ep. set (n := next_pid s) in *. assert (Hfree : tasks s !! n = None) by (destruct (tasks s !! n) as [k|] eqn:E; [pose proof (P n k E); lia|done]).
  assert (Hne : forall t k, tasks s !! t = Some k -> t <> n) by (intros t k Ht ->; congruence).
  set (upd := fun t k => k <| tk_children := if t =? p then tk_children k ++ [n] else tk_children k |>).
  assert (F : forall t k, tasks s !! t = Some k -> tasks s' !! t = Some (upd t k)) by (intros t k Ht; rewrite L; unfold started; rewrite decide_False by eauto; by rewrite Ht).
  assert (G : forall t k, tasks s' !! t = Some k -> t = n /\ k = k0 <| tk_parent := Some p |> \/ exists k1, tasks s !! t = Some k1 /\ k = upd t k1).
  { intros t k. rewrite L. unfold started. case_decide; [intros [= <-]; by left|]. intros (k1 & ? & ->)%fmap_Some. right. by exists k1. }
  assert (Fn : tasks s' !! n = Some (k0 <| tk_parent := Some p |>)) by (rewrite L; unfold started; by rewrite decide_True).
  assert (Hfresh : forall q kq, tasks s !! q = Some kq -> n ∉ tk_children kq) by (intros q kq Hq Hin; destruct (C q kq n Hq Hin) as (? & ? & _); congruence).
  assert (Hin : forall t k x, x ∈ tk_children (upd t k) -> x ∈ tk_children k \/ t = p /\ x = n).
  { intros t k x. unfold upd. cbn. destruct (Z.eqb_spec t p); [|auto]. intros [?| ->%list_elem_of_singleton]%elem_of_app; auto. }
  pose proof (P p kp Hkp) as Hp. split.
  - intros t k [[-> _]|(k1 & Ht & _)]%G; [lia|]. specialize (P t k1 Ht). lia.
  - destruct I as (k & Hk & ? & ?). exists (upd 0 k). auto.
  - destruct R as (k & Hk & ? & ?). exists (upd 1 k). auto.
  - intros q k x [[-> ->]|(k1 & Hq & ->)]%G; [cbn; rewrite Hch; by intros ?%elem_of_nil|]. intros [Hx|[-> ->]]%Hin; [|by eexists].
    destruct (C q k1 x Hq Hx) as (kx & Hkx & ?). exists (upd x kx). auto.
  - intros q k [[-> ->]|(k1 & Hq & ->)]%G; [cbn; rewrite Hch; constructor|]. unfold upd. cbn. case_match; [|eauto]. apply list.NoDup_app. split; [eauto|].
    split; [intros x Hx ->%list_elem_of_singleton; by apply (Hfresh q k1)|repeat constructor; by intros ?%elem_of_nil].
  - intros t k q [[-> ->]|(k1 & Ht & ->)]%G.
    + intros [= <-]. split; [lia|]. exists (upd p kp). split; [auto|]. unfold upd. cbn. rewrite Z.eqb_refl. apply elem_of_app. right. by left.
    + intros Hq. destruct (A t k1 q Ht Hq) as (? & kq & Hkq & ?). split; [done|]. exists (upd q kq). split; [auto|]. unfold upd. cbn. case_match; [apply elem_of_app; by left|done].
  - intros t k [[-> ->]|(k1 & Ht & ->)]%G; [done|]. eauto.
  - intros t k [[-> ->]|(k1 & Ht & ->)]%G; [done|]. cbn. eauto.
  - intros v. rewrite Hv, V. split.
    + intros [[t Ht]|Hv0]; [|exists n; unfold vm_of; by rewrite Fn]. exists t. unfold vm_of in *. destruct (tasks s !! t) as [k|] eqn:E; [|done]. by rewrite (F t k E).
    + intros [t Ht]. unfold vm_of in Ht. destruct (tasks s' !! t) as [k|] eqn:E; [|done]. apply G in E as [[-> ->]|(k1 & E & ->)]; [by right|]. left. exists t. unfold vm_of. by rewrite E.
  - done.
Qed.

Lemma started_sched s s' k0 p kp : shape s -> sched s -> tasks s !! p = Some kp -> tk_state kp <> Zombie -> tk_state k0 = Ready -> 0 < next_pid s ->
  (forall t, tasks s' !! t = started k0 p (next_pid s) t s) -> ready_queue s' = ready_queue s ++ [next_pid s] -> current_task s' = current_task s -> sched s'.
Proof.
  intros H S Hkp Hz Hr Hpos L Eq Ec. set (n := next_pid s) in *. assert (Hfree : tasks s !! n = None) by (destruct (tasks s !! n) as [k|] eqn:E; [pose proof (sh_pids s H n k E); lia|done]).
  assert (G : forall t k, tasks s' !! t = Some k -> t = n /\ k = k0 <| tk_parent := Some p |> \/ exists k1, tasks s !! t = Some k1 /\ tk_state k = tk_state k1 /\ (t <> p -> tk_children k = tk_children k1)).
  { intros t k. rewrite L. unfold started. case_decide; [intros [= <-]; by left|]. intros (k1 & ? & ->)%fmap_Some. right. exists k1. split_and!; try done. intros Hn. cbn. by rewrite (proj2 (Z.eqb_neq t p)). }
  assert (F : forall t k, tasks s !! t = Some k -> exists k', tasks s' !! t = Some k' /\ tk_state k' = tk_state k).
  { intros t k Ht. rewrite L. unfold started. rewrite decide_False by (intros ->; congruence). rewrite Ht. by eexists. }
  split.
  - intros t k [[-> ->]|(k1 & Ht & Es & _)]%G; cbn; [congruence|]. rewrite Es, Ec. by apply (sc_running s S t k1).
  - destruct (sc_current s S) as [k Hk]. rewrite Ec. destruct (F _ _ Hk) as (k' & -> & _). eauto.
  - rewrite Eq. apply list.NoDup_app. split; [apply S|]. split; [|repeat constructor; by intros ?%elem_of_nil]. intros x Hx ->%list_elem_of_singleton.
    apply (sc_ready s S) in Hx as (_ & k & ? & _). congruence.
  - intros t. rewrite Eq, elem_of_app, (sc_ready s S), list_elem_of_singleton. split.
    + intros [(? & k & Hk & Hs)| ->]; [destruct (F t k Hk) as (k' & ? & ?); split; [done|]; exists k'; split; [done|congruence]|].
      split; [lia|]. rewrite L. unfold started. rewrite decide_True by done. by eexists.
    + intros (? & k & [[-> ->]|(k1 & Ht & Es & _)]%G & Hs); [by right|left]. split; [done|]. exists k1. split; [done|congruence].
  - intros t k [[-> ->]|(k1 & Ht & Es & Ech)]%G Hzt; cbn in Hzt; [congruence|]. rewrite Es in Hzt. rewrite Ech; [by apply (sc_zombie s S t k1)|]. intros ->. congruence.
Qed.

(** A new task at the end of the queue; [s1] is [s] after what was done to memory. *)
Lemma start_ok s s1 k0 p kp : running s -> tasks s !! p = Some kp -> tk_state kp <> Zombie -> 1 <= p -> 0 < next_pid s < 2 ^ 64 - 1 ->
  tk_state k0 = Ready -> tk_children k0 = [] -> (is_kernel k0 = false <-> is_Some (tk_vm k0)) ->
  tasks s1 = tasks s -> next_pid s1 = next_pid s -> ready_queue s1 = ready_queue s -> current_task s1 = current_task s ->
  (forall v, is_Some (vms s1 !! v) <-> is_Some (vms s !! v) \/ tk_vm k0 = Some v) -> (forall v, is_Some (vms s1 !! v) -> v < next_vm s1) ->
  exists s', spawn (next_pid s) (add_child p (next_pid s) (alloc_task k0 s1).2) = Some s' /\ running s' /\ (forall t, tasks s' !! t = started k0 p (next_pid s) t s) /\
    ready_queue s' = ready_queue s ++ [next_pid s] /\ next_pid s' = next_pid s + 1 /\ current_task s' = current_task s /\ vms s' = vms s1 /\ next_vm s' = next_vm s1 /\ sys_w s' = sys_w s1.
Proof.
  intros [H S R] Hkp Hz Hp Hpid Hr0 Hc0 Hu Et En Eq Ec Hv Hnv. set (n := next_pid s) in *. set (s2 := add_child p n _).
  assert (Hpn : p <> n) by (pose proof (sh_pids s H p kp Hkp); lia).
  assert (Hfree : tasks s !! n = None) by (destruct (tasks s !! n) as [k|] eqn:E; [pose proof (sh_pids s H n k E); lia|done]).
  assert (L : forall t, tasks s2 !! t = started k0 p n t s).
  { intros t. unfold s2. rewrite add_child_lookup by done. unfold alloc_task. cbn [snd]. change (tasks _) with (<[next_pid s1 := k0]> (tasks s1)). rewrite En, Et. fold n. unfold started.
    destruct (decide (t = n)) as [->|Ht]; [rewrite lookup_insert_eq; cbn; rewrite (proj2 (Z.eqb_neq n p)) by done; by destruct k0|].
    rewrite lookup_insert_ne by done. destruct (tasks s !! t) as [[]|]; done. }
  unfold spawn. rewrite (L n). unfold started at 1. rewrite decide_True by done. cbn [mbind option_bind]. rewrite decide_True by done.
  exists (s2 <| ready_queue := ready_queue s2 ++ [n] |>). split; [done|].
  assert (Eq2 : ready_queue s2 ++ [n] = ready_queue s ++ [n]) by (by rewrite <- Eq).
  assert (En2 : next_pid s2 = n + 1) by (change (next_pid s2) with (u64 (next_pid s1 + 1)); rewrite En; apply u64_small; lia).
  split; [|split_and!; try done]. split.
  - apply (started_shape s _ k0 p); done.
  - apply (started_sched s _ k0 p kp); try done. lia.
  - change (current_task _) with (current_task s1). rewrite Ec. unfold task_state in *. change (tasks _) with (tasks s2). rewrite L. unfold started.
    apply fmap_Some in R as (k & Hk & ?). rewrite decide_False by (intros E; congruence). rewrite Hk. cbn. congruence.
Qed.

(** ** Waiting *)
Definition wanted (pid t : Z) : Prop := pid = -1 \/ t = u64 pid.

Lemma wait_scan_ok s pid l : forall idx found,
  match wait_scan s pid idx l found with
  | (f, Some (i, t)) => f = true /\ exists j, i = (idx + j)%nat /\ l !! j = Some t /\ wanted pid t /\ task_state s t = Some Zombie /\
      forall j' t', (j' < j)%nat -> l !! j' = Some t' -> wanted pid t' -> task_state s t' <> Some Zombie
  | (f, None) => (forall t, t ∈ l -> wanted pid t -> task_state s t <> Some Zombie) /\ (f = true <-> found = true \/ exists t, t ∈ l /\ wanted pid t)
  end.
Proof.
  induction l as [|t l IH]; intros idx found; cbn [wait_scan].
  - split; [by intros t ?%elem_of_nil|]. split; [auto|]. intros [?|(t & ?%elem_of_nil & _)]; done.
  - assert (W : (pid =? -1) || (t =? u64 pid) = true <-> wanted pid t) by (unfold wanted; rewrite orb_true_iff, !Z.eqb_eq; done).
    destruct ((pid =? -1) || (t =? u64 pid)) eqn:E; [apply proj1 in W; specialize (W eq_refl)|assert (Hw : ~ wanted pid t) by (intros Hw%W; done)].
    + case_bool_decide as Hz; [split; [done|]; exists 0%nat; split; [lia|]; split_and!; try done; intros j' t' ?; lia|]. specialize (IH (S idx) true).
      destruct (wait_scan s pid (S idx) l true) as [f [[i t']|]].
      * destruct IH as (-> & j & -> & Hj & Hw & Hs & Hf). split; [done|]. exists (S j). split; [lia|]. split_and!; try done. intros [|j'] t0 Hlt Hl Hw0; [by injection Hl as <-|]. apply (Hf j' t0); [lia|done..].
      * destruct IH as (Hn & ->). split; [intros x [->|Hx]%elem_of_cons; [done|by apply Hn]|]. split; [intros _; right; exists t; split; [by left|done]|auto].
    + specialize (IH (S idx) found). destruct (wait_scan s pid (S idx) l found) as [f [[i t']|]].
      * destruct IH as (-> & j & -> & Hj & Hw1 & Hs & Hf). split; [done|]. exists (S j). split; [lia|]. split_and!; try done. intros [|j'] t0 Hlt Hl Hw0; [by injection Hl as <-|]. apply (Hf j' t0); [lia|done..].
      * destruct IH as (Hn & ->). split; [intros x [->|Hx]%elem_of_cons Hx'; [done|by apply Hn]|]. apply or_iff_compat_l. split.
        -- intros (x & ? & ?). exists x. split; [by right|done].
        -- intros (x & [->|?]%elem_of_cons & ?); [done|]. by exists x.
Qed.

(** The table without the task [t], the child of [c] at the index [i]. *)
Definition reaped (c : Z) (i : nat) (t x : Z) (s : ksystem) : option Task :=
  if decide (x = t) then None else (fun k => if decide (x = c) then k <| tk_children := delete i (tk_children k) |> else k) <$> tasks s !! x.

Lemma delete_index {A} (l : list A) i t : NoDup l -> l !! i = Some t -> NoDup (delete i l) /\ forall x, x ∈ delete i l <-> x ∈ l /\ x <> t.
Proof.
  intros Hn Hi. rewrite <- (take_drop_middle l i t Hi) in Hn. rewrite delete_take_drop. apply list.NoDup_app in Hn as (H1 & H2 & H3). apply list.NoDup_cons in H3 as [H4 H3].
  split; [apply list.NoDup_app; split_and!; try done; intros x Hx Hx2; apply (H2 x Hx); by right|]. intros x. rewrite <- (take_drop_middle l i t Hi) at 3. rewrite !elem_of_app, elem_of_cons. split.
  - intros [Hx|Hx]; (split; [auto|intros ->]); [apply (H2 t Hx); by left|done].
  - intros [[?|[?|?]] ?]; auto. done.
Qed.

Lemma reaped_shape s s' c k i t kt : shape s -> sched s -> tasks s !! c = Some k -> tk_children k !! i = Some t -> tasks s !! t = Some kt -> tk_state kt = Zombie ->
  (forall x, tasks s' !! x = reaped c i t x s) -> next_pid s' = next_pid s -> next_vm s' = next_vm s ->
  (forall v, is_Some (vms s' !! v) <-> exists x, vm_of s' x = Some v) -> (forall v, is_Some (vms s' !! v) -> is_Some (vms s !! v)) -> shape s'.
Proof.
  intros H S Hk Hi Ht Hz L Ep En Hv Hv'. destruct (sc_zombie s S t kt Ht Hz) as (Hnc & Ht0 & Ht1). destruct (delete_index _ _ _ (sh_distinct s H c k Hk) Hi) as [Hnd Hdel].
  destruct (sh_child s H c k t Hk) as (kt' & Ht' & Hpt); [by apply (list_elem_of_lookup_2 _ i)|]. assert (kt' = kt) as -> by congruence. destruct H as [P I R C D A O U V N].
  assert (G : forall x kx, tasks s' !! x = Some kx -> x <> t /\ exists k0, tasks s !! x = Some k0 /\ is_kernel kx = is_kernel k0 /\ tk_vm kx = tk_vm k0 /\ tk_parent kx = tk_parent k0 /\ NoDup (tk_children kx) /\
    forall y, y ∈ tk_children kx <-> y ∈ tk_children k0 /\ (x = c -> y <> t)).
  { intros x kx. rewrite L. unfold reaped. case_decide as Ex; [done|]. intros (k0 & Hx & ->)%fmap_Some. split; [done|]. exists k0. case_decide as Ec; [subst x|].
    - assert (k0 = k) as -> by congruence. split_and!; try done. intros y. cbn. rewrite Hdel. split; intros [? Hy]; (split; [done|]); [by intros _|by apply Hy].
    - split_and!; try done; [by apply (D x)|]. intros y. split; [by intros ?; split|by intros [? _]]. }
  assert (F : forall x k0, x <> t -> tasks s !! x = Some k0 -> exists kx, tasks s' !! x = Some kx) by (intros x k0 Hn Hx; rewrite L; unfold reaped; rewrite decide_False, Hx by done; by eexists).
  assert (FG : forall x k0, x <> t -> tasks s !! x = Some k0 -> exists kx, tasks s' !! x = Some kx /\ is_kernel kx = is_kernel k0 /\ tk_parent kx = tk_parent k0 /\ forall y, y ∈ tk_children kx <-> y ∈ tk_children k0 /\ (x = c -> y <> t)).
  { intros x k0 Hn Hx. destruct (F x k0 Hn Hx) as [kx Hkx]. exists kx. split; [done|]. destruct (G x kx Hkx) as (_ & k1 & Hk1 & ? & _ & ? & _ & ?). assert (k1 = k0) as -> by congruence. done. }
  split; try done.
  - intros x kx (_ & k0 & ? & _)%G. rewrite Ep. eauto.
  - destruct I as (k0 & Hk0 & ? & ?). destruct (FG 0 k0 (not_eq_sym Ht0) Hk0) as (kx & ? & ? & ? & _). exists kx. split_and!; congruence.
  - destruct R as (k0 & Hk0 & ? & ?). destruct (FG 1 k0 (not_eq_sym Ht1) Hk0) as (kx & ? & ? & ? & _). exists kx. split_and!; congruence.
  - intros p kp y (Hpt' & k0 & Hp & _ & _ & _ & _ & Hin)%G [Hy Hyt]%Hin. destruct (C p k0 y Hp Hy) as (ky & Hky & Hpy).
    assert (Hne : y <> t) by (intros ->; assert (ky = kt) as -> by congruence; apply Hyt; congruence).
    destruct (FG y ky Hne Hky) as (ky' & ? & _ & ? & _). exists ky'. split; congruence.
  - intros p kp (_ & k0 & _ & _ & _ & _ & ? & _)%G. done.
  - intros x kx p (Hx & k0 & Hk0 & _ & _ & -> & _)%G Hp. destruct (A x k0 p Hk0 Hp) as (? & kp & Hkp & Hin). split; [done|].
    assert (Hne : p <> t) by (intros ->; assert (kp = kt) as -> by congruence; rewrite Hnc in Hin; by apply elem_of_nil in Hin).
    destruct (FG p kp Hne Hkp) as (kp' & ? & _ & _ & Hin'). exists kp'. split; [done|]. apply Hin'. done.
  - intros x kx (_ & k0 & ? & _ & _ & -> & _)%G. eauto.
  - intros x kx (_ & k0 & ? & -> & -> & _)%G. eauto.
  - intros v Hs. rewrite En. apply N. by apply Hv'.
Qed.

Lemma reaped_sched s s' i t kt : running s -> tasks s !! t = Some kt -> tk_state kt = Zombie ->
  (forall x, tasks s' !! x = reaped (current_task s) i t x s) -> ready_queue s' = ready_queue s -> current_task s' = current_task s ->
  sched s' /\ task_state s' (current_task s') = Some Running.
Proof.
  intros [H S R] Ht Hz L Eq Ec. unfold task_state in R. apply fmap_Some in R as (k & Hk & Hr). set (c := current_task s) in *. assert (Hct : c <> t) by (intros E; congruence).
  assert (G : forall x kx, tasks s' !! x = Some kx -> x <> t /\ exists k0, tasks s !! x = Some k0 /\ tk_state kx = tk_state k0 /\ (x <> c -> tk_children kx = tk_children k0)).
  { intros x kx. rewrite L. unfold reaped. case_decide as Ex; [done|]. intros (k0 & Hx & ->)%fmap_Some. split; [done|]. exists k0. split; [done|]. by case_decide. }
  assert (F : forall x k0, x <> t -> tasks s !! x = Some k0 -> exists kx, tasks s' !! x = Some kx /\ tk_state kx = tk_state k0).
  { intros x k0 Hn Hx. rewrite L. unfold reaped. rewrite decide_False, Hx by done. eexists. split; [done|]. by case_decide. }
  destruct (F c k Hct Hk) as (kc & Hkc & Hsc). split; [split|].
  - intros x kx (_ & k0 & ? & -> & _)%G. rewrite Ec. by apply S.
  - rewrite Ec, Hkc. eauto.
  - rewrite Eq. apply S.
  - intros x. rewrite Eq, (sc_ready s S). split; intros (? & k0 & Hk0 & Hs); (split; [done|]).
    + destruct (F x k0 ltac:(intros ->; congruence) Hk0) as (kx & ? & ?). exists kx. split; [done|congruence].
    + apply G in Hk0 as (_ & k1 & ? & ? & _). exists k1. split; [done|congruence].
  - intros x kx (_ & k0 & Hk0 & -> & Hch)%G Hzx. rewrite Hch; [by apply (sc_zombie s S x k0)|]. intros ->. congruence.
  - unfold task_state. rewrite Ec, Hkc. cbn. congruence.
Qed.

Lemma reaped_vm_of s s' c i t x : (forall x, tasks s' !! x = reaped c i t x s) -> vm_of s' x = if decide (x = t) then None else vm_of s x.
Proof. intros L. unfold vm_of. rewrite L. unfold reaped. case_decide; [done|]. destruct (tasks s !! x); [|done]. cbn. by case_decide. Qed.

(** Memory stays as long as a task has it. *)
Lemma reaped_running s s' k i t kt : running s -> tasks s !! current_task s = Some k -> tk_children k !! i = Some t -> tasks s !! t = Some kt -> tk_state kt = Zombie ->
  (forall x, tasks s' !! x = reaped (current_task s) i t x s) -> next_pid s' = next_pid s -> next_vm s' = next_vm s -> ready_queue s' = ready_queue s -> current_task s' = current_task s ->
  (forall v, is_Some (vms s' !! v) <-> exists x, x <> t /\ vm_of s x = Some v) -> running s'.
Proof.
  intros Rs Hk Hi Ht Hz L Ep En Eq Ec Hv. destruct (reaped_sched s s' i t kt Rs Ht Hz L Eq Ec) as [Sc' Ru']. destruct Rs as [Sh Sc _]. split; try done.
  eapply (reaped_shape s s' (current_task s) k i t kt); try done.
  - intros v. rewrite Hv. apply exist_proper. intros x. rewrite (reaped_vm_of s s' _ i t x L). case_decide; split; [by intros [? _]|done|by intros [_ ?]|done].
  - intros v (x & _ & Hx)%Hv. apply (sh_vm s Sh). eauto.
Qed.

(** No one holds a task that has ended but its parent. *)
Lemma reap_unheld s k i t kt : running s -> tasks s !! current_task s = Some k -> tk_children k !! i = Some t -> tasks s !! t = Some kt -> tk_state kt = Zombie ->
  strong_count (upd_task (current_task s) (fun k => k <| tk_children := delete i (tk_children k) |>) s) t = 0.
Proof.
  intros [H S R] Hk Hi Ht Hz. unfold task_state in R. rewrite Hk in R. injection R as R. destruct (sc_zombie s S t kt Ht Hz) as (_ & Ht0 & Ht1). set (c := current_task s) in *.
  destruct (sh_child s H c k t Hk) as (kt' & Ht' & Hpt); [by apply (list_elem_of_lookup_2 _ i)|]. assert (kt' = kt) as -> by congruence.
  apply unheld; try done.
  - intros (_ & k' & ? & ?)%(sc_ready s S). congruence.
  - intros (p & kp & Hp & Hin)%all_children_spec. rewrite upd_task_lookup in Hp. case_decide as E.
    + subst p. rewrite Hk in Hp. injection Hp as <-. cbn in Hin. apply (delete_index _ _ _ (sh_distinct s H c k Hk) Hi) in Hin. by destruct Hin.
    + destruct (sh_child s H p kp t Hp Hin) as (? & ? & ?). congruence.
  - change (t <> c). intros ->. congruence.
Qed.
