(* ===== verification/TaskSpaces.v ===== *)
(** * The memory of tasks

    Each address space has its own tables and frames.  An operation on one of
    them changes nothing of the others, and no frame is lost. *)
From S2P Require Import Prelude Cpu Machine Mem Mmu MmuFacts Paging PagingTree PagingFacts Aspace Regions Spaces Loading AspaceFacts Task TaskFacts.

#[local] Opaque st ld Z.to_nat.

(** The frames of an address space: its tables and its pages. *)
Definition foot (tabs : gmap (Z * Z) Z) (V : list region) (f : Z) : Prop := (exists k, tabs !! k = Some f) \/ f ∈ frames V.

(** How many there are. *)
Definition set_pages (ms : MemorySet) : Z := Z.of_nat (length (concat (map (fun x => area_frames x.2) (ms_areas ms)))).
Definition cost (ms : MemorySet) : Z := Z.of_nat (length (intrm_tables (ms_pt ms))) + set_pages ms.

Lemma set_pages_holds ms w tabs V : holds ms w tabs V -> set_pages ms = Z.of_nat (length (frames V)).
Proof.
  intros H. unfold set_pages. rewrite (ho_areas _ _ _ _ H), map_map. unfold frames. do 3 f_equal. apply map_ext. intros r. cbn. apply frames_at_snd.
Qed.

Lemma foot_owned ms w tabs V f : holds ms w tabs V -> foot tabs V f -> owned (w_free w) f.
Proof. intros H [[k Hk]|Hf]; [apply (pi_owned _ _ _ _ (ho_pt _ _ _ _ H) k f Hk)|apply (ho_frames _ _ _ _ H f Hf)]. Qed.

Lemma tables_dec ms w tabs V f : holds ms w tabs V -> (exists k, tabs !! k = Some f) \/ forall k, tabs !! k <> Some f.
Proof.
  intros H. destruct (pi_list _ _ _ _ (ho_pt _ _ _ _ H)) as [_ Hl]. cbn [fst] in Hl. destruct (decide (f ∈ intrm_tables (ms_pt ms))) as [Hi|Hi].
  - left. by apply Hl.
  - right. intros k Hk. apply Hi, Hl. eauto.
Qed.

(** From [w] to [w'] someone's frames [F] have become [F']; the frames of all
    others are as they were. *)
Record world_step (w w' : world) (F F' : Z -> Prop) : Prop := {
  ws_ok : fla_ok (w_free w');
  ws_wf : mem_wf (w_mem w');
  ws_owned : forall f, owned (w_free w') f <-> owned (w_free w) f /\ ~ F f \/ F' f;
  ws_new : forall f, owned (w_free w) f -> ~ F f -> ~ F' f;
  ws_kept : forall f, owned (w_free w) f -> ~ F f -> same_frame (w_mem w) (w_mem w') f;
}.

Definition none (f : Z) : Prop := False.

Lemma clear_world ms w tabs V : holds ms w tabs V ->
  exists w', ms_clear ms w = Some (mkMS (ms_pt ms) [], w') /\ holds (mkMS (ms_pt ms) []) w' tabs [] /\ world_step w w' (foot tabs V) (foot tabs []) /\
    available_space (w_free w') = available_space (w_free w) + set_pages ms.
Proof.
  intros H. destruct (ms_clear_ok ms w tabs V H) as (w' & E & [Fp Fo Fm Fs Fsp] & H'). cbn [fst snd] in *. exists w'. split; [done|]. split; [done|].
  split; [|rewrite Fsp; f_equal; symmetry; by eapply set_pages_holds]. split; [apply H'|apply H'|..].
  - intros f. rewrite Fo. split.
    + intros [Ho Hn]. destruct (tables_dec ms w tabs V f H) as [?|Ht]; [right; by left|]. left. split; [done|]. intros [[k Hk]|?]; [by apply (Ht k)|done].
    + intros [[Ho Hf]|[[k Hk]|?%elem_of_nil]]; [|split; [apply (pi_owned _ _ _ _ (ho_pt _ _ _ _ H) k f Hk)|intros Hin; by apply (proj2 (ho_frames _ _ _ _ H f Hin) k)]|done].
      split; [done|]. intros Hin. apply Hf. by right.
  - intros f _ Hf [?|?%elem_of_nil]; [apply Hf; by left|done].
  - intros f Ho Hf. apply Fm; [done|intros Hin; apply Hf; by right|intros k Hk; apply Hf; left; eauto].
Qed.

Lemma drop_world ms w tabs V : holds ms w tabs V -> exists w', ms_drop ms w = Some w' /\ world_step w w' (foot tabs V) none /\ available_space (w_free w') = available_space (w_free w) + cost ms.
Proof.
  intros H. destruct (ms_drop_ok ms w tabs V H) as (w' & E & Hok & Hw & Ho & Hs & Hsp). exists w'. split; [done|].
  assert (Hown : forall f, owned (w_free w') f <-> owned (w_free w) f /\ ~ foot tabs V f).
  { intros f. rewrite Ho. unfold foot. split; [intros (? & ? & Hk); split; [done|]; intros [[k ?]|?]; [by apply (Hk k)|done]|].
    intros [? Hn]. split_and!; [done|intros ?; apply Hn; by right|intros k Hk; apply Hn; left; eauto]. }
  split; [|unfold cost; rewrite (set_pages_holds _ _ _ _ H), Hsp; lia]. split; try done.
  - intros f. rewrite Hown. unfold none. tauto.
  - by intros f _ _ [].
  - intros f Hf Hn. by apply Hs, Hown.
Qed.

(** What was built from nothing. *)
Lemma fresh_world w ms w' tabs V new root : extends (mkPT root [], w) (ms_pt ms, w') ∅ tabs new -> holds ms w' tabs V -> frames V ≡ₚ new ->
  world_step w w' none (foot tabs V) /\ available_space (w_free w') + cost ms = available_space (w_free w).
Proof.
  intros [R T O F N D M K S] H P. cbn [fst snd intrm_tables length] in *. split; [|unfold cost; rewrite (set_pages_holds _ _ _ _ H), P; lia]. split; [apply H|apply H|..].
  - intros f. rewrite O, <- P. unfold foot, none. tauto.
  - intros f Ho _ [[k Hk]|Hf]; [destruct (F k f Hk) as [Hn|?]; [by rewrite lookup_empty in Hn|done]|]. rewrite P in Hf. by apply (N f Hf).
  - intros f Hf _. apply M; [done|]. intros k. by rewrite lookup_empty.
Qed.

(** What was built from an empty address space. *)
Lemma grown_world w ms w' ms' tabs tabs' V' new : holds ms w tabs [] -> extends (ms_pt ms, w) (ms_pt ms', w') tabs tabs' new -> holds ms' w' tabs' V' -> frames V' ≡ₚ new ->
  world_step w w' (foot tabs []) (foot tabs' V') /\ available_space (w_free w') + cost ms' = available_space (w_free w) + cost ms.
Proof.
  intros H [R T O F N D M K S] H' P. cbn [fst snd] in *.
  split; [|unfold cost; rewrite (set_pages_holds _ _ _ _ H'), (set_pages_holds _ _ _ _ H), P; cbn; lia]. split; [apply H'|apply H'|..].
  - intros f. rewrite O, <- P. unfold foot. split; [|tauto]. intros [Ho|?]; [|tauto]. destruct (tables_dec ms w tabs [] f H) as [[k Hk]|Ht]; [right; left; exists k; auto|].
    left. split; [done|]. intros [[k Hk]|?%elem_of_nil]; [by apply (Ht k)|done].
  - intros f Ho Hn [[k Hk]|Hf]; [destruct (F k f Hk) as [?|?]; [apply Hn; left; eauto|done]|]. rewrite P in Hf. by apply (N f Hf).
  - intros f Hf Hn. apply M; [done|]. intros k Hk. apply Hn. left. eauto.
Qed.

Lemma world_trans w w1 w2 F F1 F2 : world_step w w1 F F1 -> world_step w1 w2 F1 F2 -> (forall f, F1 f -> F f) -> world_step w w2 F F2.
Proof.
  intros [A1 B1 O1 N1 K1] [A2 B2 O2 N2 K2] Hs.
  assert (Hk : forall f, owned (w_free w) f -> ~ F f -> owned (w_free w1) f /\ ~ F1 f) by (intros f Ho Hn; split; [apply O1; auto|by intros ?%Hs]).
  split; try done.
  - intros f. rewrite O2, O1. split; [intros [[[[? ?]|?] ?]|?]; tauto|]. intros [[? Hn]|?]; [|by right]. left. split; [auto|by intros ?%Hs].
  - intros f Ho Hn. destruct (Hk f Ho Hn). by apply N2.
  - intros f Ho Hn a Ha. destruct (Hk f Ho Hn). rewrite (K2 f), (K1 f); done.
Qed.

(** ** What an operation makes of an address space *)
Lemma load_world elf_new elf_data elf ms w tabs V : holds ms w tabs V -> elf_new elf_data = Some elf -> elf_ok elf ->
  5 * load_pages (elf_program elf) + 16 <= available_space (w_free w) + set_pages ms ->
  exists w1 ms' w' tabs' V', ms_clear ms w = Some (mkMS (ms_pt ms) [], w1) /\
    load_user elf_new elf_data (mkMS (ms_pt ms) [], w1) = Some ((elf_entry_point elf, USER_STACK_BASE + USER_STACK_SIZE), (ms', w')) /\ holds ms' w' tabs' V' /\
    world_step w w' (foot tabs V) (foot tabs' V') /\ available_space (w_free w') + cost ms' = available_space (w_free w) + cost ms /\ sees ms' w' (program_image elf).
Proof.
  intros H Ee He Hav. destruct (clear_world ms w tabs V H) as (w1 & E1 & H1 & W1 & A1).
  destruct (load_user_ok elf_new elf_data elf _ w1 tabs Ee He H1 ltac:(lia)) as (V' & ms' & w' & t' & new & El & H' & X & P & Hv).
  destruct (grown_world w1 _ w' ms' tabs t' V' new H1 X H' P) as [W2 A2]. exists w1, ms', w', t', V'. split; [done|]. split; [exact El|]. split; [done|].
  split; [apply (world_trans w w1 w' _ _ _ W1 W2); intros f [?|?%elem_of_nil]; [by left|done]|]. split; [|eapply sees_ext; [exact Hv|by eapply holds_sees]].
  rewrite A2, A1. unfold cost. cbn [ms_pt]. assert (E0 : set_pages (mkMS (ms_pt ms) []) = 0) by done. lia.
Qed.

Lemma new_world elf_new elf_data elf kroot w : elf_new elf_data = Some elf -> elf_ok elf -> mem_wf (w_mem w) -> fla_ok (w_free w) -> owned (w_free w) kroot ->
  5 * load_pages (elf_program elf) + 17 <= available_space (w_free w) ->
  exists ms0 w0 ms w' tabs V, ms_new kroot w = Some (ms0, w0) /\
    load_user elf_new elf_data (ms0, w0) = Some ((elf_entry_point elf, USER_STACK_BASE + USER_STACK_SIZE), (ms, w')) /\ holds ms w' tabs V /\
    world_step w w' none (foot tabs V) /\ available_space (w_free w') + cost ms = available_space (w_free w) /\ sees ms w' (program_image elf).
Proof.
  intros Ee He Hw Hok Hkr Hav. destruct (ms_new_ok kroot w Hw Hok ltac:(pose proof (load_pages_nonneg _ (eo_segments _ He)); lia) Hkr) as (ms0 & w0 & t0 & E0 & H0 & K0 & X0 & A0).
  destruct (load_user_ok elf_new elf_data elf ms0 w0 t0 Ee He H0 ltac:(lia)) as (V & ms & w' & t' & new & El & H' & X & P & Hv).
  destruct (fresh_world w ms w' t' V new _ (extends_trans _ _ _ _ _ _ _ _ X0 X) H' P) as [W A].
  exists ms0, w0, ms, w', t', V. split; [done|]. split; [exact El|]. split_and!; try done. eapply sees_ext; [exact Hv|by eapply holds_sees].
Qed.

(** An image with other bytes. *)
Definition remap (g : Z -> Z -> Z) (I : Z -> option (Z * Z)) (va : Z) : option (Z * Z) := (fun x => (x.1, g va x.2)) <$> I va.

(** What looks like the regions of [ms] looks like [ms]. *)
Lemma sees_remap ms w tabs V ms' w' g : holds ms w tabs V -> sees ms' w' (remap g (view V (w_mem w))) -> forall I, sees ms w I -> sees ms' w' (remap g I).
Proof.
  intros H H' I HI d hp m va acc mmu_idx pg_mode Em Hn C Hacc Hva. specialize (H' d hp m va acc mmu_idx pg_mode Em Hn C Hacc Hva). set (m0 := m <| mem := w_mem w |>).
  pose proof (holds_sees ms w tabs V H d hp m0 va acc mmu_idx pg_mode eq_refl Hn C Hacc Hva) as H0. specialize (HI d hp m0 va acc mmu_idx pg_mode eq_refl Hn C Hacc Hva).
  cbv zeta in *. unfold remap in *. set (tr := answer _) in H' |- *. set (tr0 := answer _) in H0, HI.
  assert (E : (exists c, tr0 = Some (inl c) /\ tr = Some (inl c)) \/ exists pa pa' , tr0 = Some (inr (pa, 4096)) /\ tr = Some (inr (pa', 4096)) /\ ldb (mem m) pa' = g va (ldb (mem m0) pa)).
  { destruct (view V (w_mem w) va) as [[fl b]|]; cbn [fmap option_fmap option_map fst snd] in H'; [|left; eauto]. destruct (_ || _); [left; eauto|right].
    destruct H0 as (pa & ? & ?), H' as (pa' & ? & ?). exists pa, pa'. split_and!; congruence. }
  destruct E as [(c & E0 & E)|(pa & pa' & E0 & E & Eb)]; rewrite E0 in HI; rewrite E; destruct (I va) as [[fl b]|]; cbn [fmap option_fmap option_map fst snd]; try done; destruct (_ || _); try done.
  - destruct HI as (pa & ? & _). done.
  - destruct HI as (pa0 & [= <-] & Hb). exists pa'. split; congruence.
Qed.

Lemma sees_as ms w tabs V ms' w' : holds ms w tabs V -> sees ms' w' (view V (w_mem w)) -> forall I, sees ms w I -> sees ms' w' I.
Proof.
  intros H H' I HI. assert (E : forall J va, remap (fun _ b => b) J va = J va) by (intros J va; unfold remap; by destruct (J va) as [[? ?]|]).
  eapply sees_ext; [apply E|]. eapply sees_remap; [exact H| |exact HI]. eapply sees_ext; [|exact H']. intros va. by rewrite E.
Qed.

Lemma dup_world kroot ms w tabs V : holds ms w tabs V -> owned (w_free w) kroot -> 1 + 5 * set_pages ms <= available_space (w_free w) ->
  exists ms' w' tabs' V', ms_dup kroot ms w = Some (ms', w') /\ holds ms' w' tabs' V' /\ world_step w w' none (foot tabs' V') /\
    available_space (w_free w') + cost ms' = available_space (w_free w) /\ forall I, sees ms w I -> sees ms' w' I.
Proof.
  intros H Hkr Hav. rewrite (set_pages_holds _ _ _ _ H) in Hav. destruct (ms_dup_ok kroot ms w tabs V H Hkr Hav) as (V' & ms' & w' & t' & E & Al & X & H' & Hp & K).
  destruct (fresh_world w ms' w' t' V' _ _ X H' (Permutation_refl _)) as [W A]. exists ms', w', t', V'. split_and!; try done.
  eapply sees_as; [exact H|]. eapply sees_ext; [|by eapply holds_sees]. intros va. by apply view_alike.
Qed.

(** ** All address spaces *)

(** The frames that all of them use. *)
Definition used (m : gmap Z MemorySet) : Z := map_fold (fun _ ms n => n + cost ms) 0 m.

Lemma used_insert m v ms : m !! v = None -> used (<[v := ms]> m) = used m + cost ms.
Proof. intros H. unfold used. rewrite map_fold_insert_L; [done| |done]. intros. lia. Qed.

Lemma used_delete m v ms : m !! v = Some ms -> used m = used (delete v m) + cost ms.
Proof. intros H. unfold used. rewrite (map_fold_delete_L _ _ v ms); [done| |done]. intros. lia. Qed.

Lemma used_update m v ms ms' : m !! v = Some ms -> used (<[v := ms']> m) + cost ms = used m + cost ms'.
Proof. intros H. rewrite <- insert_delete_eq, used_insert, (used_delete m v ms H) by apply lookup_delete_eq. lia. Qed.

(** Address spaces that have nothing in common, in a world where every other frame
    in use is one of [base]. *)
Record memory (base : Z -> Prop) (m : gmap Z MemorySet) (w : world) (T : Z -> gmap (Z * Z) Z) (R : Z -> list region) : Prop := {
  me_holds : forall v ms, m !! v = Some ms -> holds ms w (T v) (R v);
  me_apart : forall v v' f, is_Some (m !! v) -> is_Some (m !! v') -> foot (T v) (R v) f -> foot (T v') (R v') f -> v = v';
  me_owned : forall f, owned (w_free w) f <-> base f \/ exists v, is_Some (m !! v) /\ foot (T v) (R v) f;
  me_base : forall v f, is_Some (m !! v) -> base f -> ~ foot (T v) (R v) f;
  me_ok : fla_ok (w_free w);
  me_wf : mem_wf (w_mem w);
}.

Definition at_key {A} (v : Z) (x : A) (F : Z -> A) (k : Z) : A := if decide (k = v) then x else F k.

(** The frames of [v], if there are any. *)
Definition foot_of (m : gmap Z MemorySet) (v : Z) (tabs : gmap (Z * Z) Z) (V : list region) (f : Z) : Prop := is_Some (m !! v) /\ foot tabs V f.

Lemma others_kept base m w T R v w' F' x : memory base m w T R -> world_step w w' (foot_of m v (T v) (R v)) F' -> x <> v -> is_Some (m !! x) ->
  forall f, foot (T x) (R x) f -> owned (w_free w') f /\ ~ F' f /\ same_frame (w_mem w) (w_mem w') f.
Proof.
  intros M W Hx [ms Hm] f Hf. pose proof (foot_owned _ _ _ _ f (me_holds _ _ _ _ _ M x ms Hm) Hf) as Ho.
  assert (Hn : ~ foot_of m v (T v) (R v) f) by (intros [Hv Hfv]; apply Hx; apply (me_apart _ _ _ _ _ M x v f); eauto).
  split; [apply W; auto|]. split; [by apply (ws_new _ _ _ _ W)|by apply (ws_kept _ _ _ _ W)].
Qed.

Lemma memory_change base m w T R v m' w' t' V' : memory base m w T R -> (forall x, x <> v -> m' !! x = m !! x) ->
  world_step w w' (foot_of m v (T v) (R v)) (foot_of m' v t' V') -> (forall ms, m' !! v = Some ms -> holds ms w' t' V') ->
  memory base m' w' (at_key v t' T) (at_key v V' R).
Proof.
  intros M Hm W Hv. pose proof (fun x => others_kept base m w T R v w' _ x M W) as Ho. unfold at_key. split; try apply W.
  - intros x ms Hx. case_decide as E; [subst; auto|]. rewrite Hm in Hx by done. pose proof (me_holds _ _ _ _ _ M x ms Hx) as H.
    eapply holds_kept; [exact H|apply W|apply W|..].
    + intros k f Hk. destruct (Ho x E (mk_is_Some _ _ Hx) f) as (? & _ & ?); [left; eauto|done].
    + intros f Hf. destruct (Ho x E (mk_is_Some _ _ Hx) f) as (? & _ & ?); [by right|done].
  - intros x y f Hx Hy. case_decide as Ex; case_decide as Ey; intros Fx Fy; [congruence|..].
    + subst x. rewrite Hm in Hy by done. destruct (Ho y Ey Hy f Fy) as (_ & Hn & _). exfalso. by apply Hn.
    + subst y. rewrite Hm in Hx by done. destruct (Ho x Ex Hx f Fx) as (_ & Hn & _). exfalso. by apply Hn.
    + rewrite Hm in Hx, Hy by done. by apply (me_apart _ _ _ _ _ M x y f).
  - intros f. rewrite (ws_owned _ _ _ _ W), (me_owned _ _ _ _ _ M). split.
    + intros [[[Hb|(x & Hx & Hf)] Hn]|[Hs Hf]]; [by left|right|right].
      * exists x. destruct (decide (x = v)) as [->|E]; [exfalso; by apply Hn|]. by rewrite Hm.
      * exists v. by rewrite !decide_True by done.
    + intros [Hb|(x & Hx & Hf)]; [left; split; [by left|]; intros [Hs Hf]; by apply (me_base _ _ _ _ _ M v f Hs)|].
      case_decide as E; [subst; by right|]. rewrite Hm in Hx by done. left. split; [right; eauto|]. intros [Hs Hfv]. apply E. by apply (me_apart _ _ _ _ _ M x v f).
  - intros x f Hx Hb. case_decide as E; [subst|rewrite Hm in Hx by done; by apply (me_base _ _ _ _ _ M)]. intros Hf.
    apply (ws_new _ _ _ _ W f); [apply (me_owned _ _ _ _ _ M); by left| |by split]. intros [Hs Hfv]. by apply (me_base _ _ _ _ _ M v f Hs).
Qed.

(** The processor sees in the others what it saw. *)
Lemma others_see base m w T R v w' F' x ms : memory base m w T R -> world_step w w' (foot_of m v (T v) (R v)) F' -> x <> v -> m !! x = Some ms ->
  forall I, sees ms w I -> sees ms w' I.
Proof.
  intros M W Hx Hm. pose proof (me_holds _ _ _ _ _ M x ms Hm) as H. pose proof (others_kept base m w T R v w' F' x M W Hx (mk_is_Some _ _ Hm)) as Ho.
  eapply sees_as; [exact H|]. apply sees_ext with (view (R x) (w_mem w')); [intros va; apply view_same; intros f Hf; apply Ho; by right|]. eapply holds_sees, (holds_kept _ _ _ _ _ H); [apply W|apply W|..].
  - intros k f Hk. destruct (Ho f) as (? & _ & ?); [left; eauto|done].
  - intros f Hf. destruct (Ho f) as (? & _ & ?); [by right|done].
Qed.

Lemma world_step_iff w w' F F' G G' : world_step w w' F F' -> (forall f, F f <-> G f) -> (forall f, F' f <-> G' f) -> world_step w w' G G'.
Proof.
  intros [A B O N K] H H'. split; try done.
  - intros f. specialize (H f). specialize (H' f). rewrite O. tauto.
  - intros f. rewrite <- H, <- H'. apply N.
  - intros f. rewrite <- H. apply K.
Qed.
