(* ===== verification/UserMem.v ===== *)
(** * What programs and the kernel write to user memory

    A byte written is seen where it was written and nowhere else; what the
    kernel reads is what the program sees. *)
From S2P Require Import Prelude Cpu Machine Mem Mmu MmuFacts Paging PagingTree PagingFacts Aspace Uaccess Regions Spaces Loading AspaceFacts Task TaskFacts TaskSpaces.

#[local] Opaque st ld Z.to_nat.

(** An image with bytes written. *)
Definition put (va b : Z) : (Z -> option (Z * Z)) -> Z -> option (Z * Z) := remap (fun x c => if x =? va then b else c).
Fixpoint puts (va : Z) (data : list Z) (I : Z -> option (Z * Z)) : Z -> option (Z * Z) :=
  match data with [] => I | b :: data => puts (va + 1) data (put va b I) end.

(** ** What an image says *)

(** All images of an address space agree on what is mapped, on the bytes, and on
    who may write. *)
Lemma sees_agree ms w tabs V I va : holds ms w tabs V -> sees ms w I -> 0 <= va < 2 ^ 47 ->
  (fun x => (contains x.1 WRITE, contains x.1 USER, x.2)) <$> I va = (fun x => (contains x.1 WRITE, contains x.1 USER, x.2)) <$> view V (w_mem w) va.
Proof.
  intros H HI Hva. set (m := ex_machine 1 <| mem := w_mem w |>). assert (C : config (env (cpus m !!! 0%nat)) ex_mode) by (split; vm_compute; (reflexivity || discriminate)).
  pose proof (fun acc idx Ha => HI 0%nat None m va acc idx ex_mode eq_refl (or_introl eq_refl) C Ha Hva) as HI'.
  pose proof (fun acc idx Ha => holds_sees ms w tabs V H 0%nat None m va acc idx ex_mode eq_refl (or_introl eq_refl) C Ha Hva) as HV. cbv zeta in *.
  pose proof (HI' 0 MMU_KNOSMAP_IDX ltac:(lia)) as I0. pose proof (HV 0 MMU_KNOSMAP_IDX ltac:(lia)) as V0. pose proof (HI' 1 MMU_KNOSMAP_IDX ltac:(lia)) as I1. pose proof (HV 1 MMU_KNOSMAP_IDX ltac:(lia)) as V1.
  pose proof (HI' 0 MMU_USER_IDX ltac:(lia)) as I2. pose proof (HV 0 MMU_USER_IDX ltac:(lia)) as V2. clear HI' HV C.
  set (t0 := answer _) in I0, V0. set (t1 := answer _) in I1, V1. set (t2 := answer _) in I2, V2. clearbody t0 t1 t2. unfold allows, page_rights in *. cbn [r_user r_write r_exec] in *.
  change (MMU_KNOSMAP_IDX =? MMU_USER_IDX) with false in *. change (MMU_KNOSMAP_IDX =? MMU_KSMAP_IDX) with false in *. change (MMU_USER_IDX =? MMU_USER_IDX) with true in *.
  change (MMU_USER_IDX =? MMU_KSMAP_IDX) with false in *. change (has ex_mode PG_MODE_WP) with true in *. cbn [andb orb negb Z.eqb] in *.
  destruct (I va) as [[fl b]|], (view V (w_mem w) va) as [[fl' b']|]; cbn [fmap option_fmap option_map fst snd] in *; try done;
    try (destruct I0 as (p & -> & I0)); try (destruct V0 as (p' & V0 & V0')); try congruence.
  injection V0 as ->. assert (b' = b) as -> by congruence. do 2 f_equal. f_equal.
  - destruct (contains fl WRITE), (contains fl' WRITE); cbn [orb negb] in *; try done; [destruct I1 as (? & ? & _)|destruct V1 as (? & ? & _)]; congruence.
  - destruct (contains fl USER), (contains fl' USER); cbn [orb negb] in *; try done; [destruct I2 as (? & ? & _)|destruct V2 as (? & ? & _)]; congruence.
Qed.

(** ** One byte *)
Lemma foot_split ms w tabs V f : holds ms w tabs V -> owned (w_free w) f <-> owned (w_free w) f /\ ~ foot tabs V f \/ foot tabs V f.
Proof.
  intros H. split; [|intros [[? _]|?]; [done|by eapply foot_owned]]. intros Ho. destruct (tables_dec ms w tabs V f H) as [?|Hn]; [right; by left|].
  destruct (decide (f ∈ frames V)); [right; by right|]. left. split; [done|]. intros [[k Hk]|?]; [by apply (Hn k)|done].
Qed.

Lemma space_inj V p p' f fl fl' : NoDup (frames V) -> space V !! p = Some (f, fl) -> space V !! p' = Some (f, fl') -> p = p'.
Proof.
  induction V as [|r V IH]; [cbn; by rewrite lookup_empty|]. change (frames (r :: V)) with (rg_frames r ++ frames V). intros (N1 & N2 & N3)%list.NoDup_app.
  cbn. fold (space V). unfold map_region. rewrite !map_pages_lookup. set (n := rg_start r / 4096).
  destruct ((n <=? p) && _) eqn:E, ((n <=? p') && _) eqn:E'.
  - apply andb_true_iff in E as [E%Z.leb_le _]. apply andb_true_iff in E' as [E'%Z.leb_le _]. intros (g & Hg & [= -> _])%fmap_Some (g' & Hg' & [= <- _])%fmap_Some.
    pose proof (NoDup_lookup _ _ _ _ N1 Hg Hg'). lia.
  - intros (g & Hg & [= -> _])%fmap_Some Hf%space_frames. destruct (N2 g); [by eapply list_elem_of_lookup_2|done].
  - intros Hf%space_frames (g & Hg & [= -> _])%fmap_Some. destruct (N2 g); [by eapply list_elem_of_lookup_2|done].
  - by apply IH.
Qed.

Section byte.
  Context (ms : MemorySet) (w : world) (tabs : gmap (Z * Z) Z) (V : list region) (H : holds ms w tabs V) (va : Z) (Hva : 0 <= va < 2 ^ 47).

Lemma user_query : pt_query va (ms_pt ms, w) = Some ((fun x => (x.1 + va mod 4096, Z.lor READ x.2)) <$> space V !! (va / 4096)).
Proof.
  destruct (user_page va Hva) as (E & Hu & _). rewrite (pt_query_ok user _ _ _ (ho_pt _ _ _ _ H) va Hu), E. by destruct (space V !! _) as [[f fl]|].
Qed.

Lemma read_flags fl : contains (Z.lor READ fl) WRITE = contains fl WRITE /\ contains (Z.lor READ fl) USER = contains fl USER.
Proof. unfold WRITE, USER. rewrite !contains_bit, !Z.lor_spec by lia. done. Qed.

Lemma vm_read_ok : vm_read ms w va = snd <$> view V (w_mem w) va.
Proof. unfold vm_read, view. rewrite user_query. by destruct (space V !! _) as [[f fl]|]. Qed.

Lemma vm_write_ok (ok : Z -> bool) (b : Z) : (forall fl, ok (Z.lor READ fl) = ok fl) -> 0 <= b < 256 ->
  match view V (w_mem w) va with
  | Some (fl, _) => if ok fl then exists w', vm_write ok ms va b w = Some w' /\ w_free w' = w_free w /\ holds ms w' tabs V /\ world_step w w' (foot tabs V) (foot tabs V) /\
      forall I, sees ms w I -> sees ms w' (put va b I)
    else vm_write ok ms va b w = None
  | None => vm_write ok ms va b w = None
  end.
Proof.
  intros Hok Hb. unfold vm_write. rewrite user_query. unfold view at 1. destruct (space V !! (va / 4096)) as [[f fl]|] eqn:E; [|done]. cbn [fmap option_fmap option_map mbind option_bind fst snd].
  rewrite Hok. destruct (ok fl); [|done]. set (pa := f + va mod 4096). eexists. split; [reflexivity|]. set (w' := w <| w_mem := _ |>). split; [done|].
  pose proof (Z.mod_pos_bound va 4096 ltac:(lia)) as Hm. pose proof (space_frames _ _ _ _ E) as Hf. destruct (ho_frames _ _ _ _ H f Hf) as [[Hfo Hfr] Hft].
  assert (Hs : forall g, frame_ok g -> g <> f -> same_frame (w_mem w) (w_mem w') g).
  { intros g Hg Hne a Ha. change (w_mem w') with (st 1 pa b (w_mem w)). apply ldb_outside. pose proof (frames_apart g f Hg Hfo Hne). unfold pa. lia. }
  assert (Hw : mem_wf (w_mem w')) by (apply mem_wf_st, (pi_wf _ _ _ _ (ho_pt _ _ _ _ H))). pose proof (pi_free _ _ _ _ (ho_pt _ _ _ _ H)) as Hfl. cbn [snd] in Hfl.
  assert (H' : holds ms w' tabs V).
  { apply (holds_kept ms w w' tabs V H Hfl Hw); [|apply H]. intros k g Hg. pose proof (pi_owned _ _ _ _ (ho_pt _ _ _ _ H) k g Hg) as Ho. split; [exact Ho|].
    apply Hs; [apply Ho|]. intros ->. by apply (Hft k). }
  split; [done|]. split; [split; try done|].
  - intros g. by apply (foot_split ms w).
  - intros g Hg Hn. apply Hs; [apply Hg|]. intros ->. apply Hn. by right.
  - eapply sees_remap; [exact H|]. eapply sees_ext; [|by eapply holds_sees]. intros x. unfold remap, view. destruct (space V !! (x / 4096)) as [[g fl']|] eqn:Ex; [|done].
    cbn [fmap option_fmap option_map fst snd]. do 2 f_equal. pose proof (Z.mod_pos_bound x 4096 ltac:(lia)). change (w_mem w') with (st 1 pa b (w_mem w)). destruct (Z.eqb_spec x va) as [->|Hne].
    + rewrite E in Ex. injection Ex as <- <-. rewrite ldb_st, (proj2 (Z.leb_le _ _)), (proj2 (Z.ltb_lt _ _)) by (unfold pa; cbn; lia). cbn [andb]. rewrite Z.sub_diag, Z.pow_0_r, Z.div_1_r. by apply Z.mod_small.
    + destruct (decide (g = f)) as [->|Hg].
      * apply ldb_outside. pose proof (space_inj V _ _ _ _ _ (ho_nodup _ _ _ _ H) E Ex). pose proof (Z.div_mod x 4096). pose proof (Z.div_mod va 4096). unfold pa. cbn. lia.
      * apply (Hs g); [|done|lia]. apply (ho_frames _ _ _ _ H g). by eapply space_frames.
Qed.
End byte.

(** ** Strings, and what the kernel hands out *)

(** The string at [va] in the image [I] is [l]: it ends with a zero, or at [n] bytes. *)
Definition string_at (n : nat) (I : Z -> option (Z * Z)) (va : Z) (l : list Z) : Prop :=
  (forall i c, l !! i = Some c -> c <> 0 /\ snd <$> I (va + Z.of_nat i) = Some c) /\ (length l = n \/ (length l < n)%nat /\ snd <$> I (va + Z.of_nat (length l)) = Some 0).

Lemma str_loop_ok ms w tabs V I : holds ms w tabs V -> sees ms w I -> forall n va l, 0 <= va -> str_loop n ms w va = Some l -> string_at n I va l.
Proof.
  intros H HI n. induction n as [|n IH]; intros va l Hva E; cbn [str_loop] in E; [injection E as <-; split; [done|by left]|].
  destruct (Z.ltb_spec va (USER_ASPACE_BASE + USER_ASPACE_SIZE)) as [Hlt|]; [|done]. unfold USER_ASPACE_BASE, USER_ASPACE_SIZE in Hlt. assert (Hr : 0 <= va < 2 ^ 47) by lia.
  assert (Hb : snd <$> I va = vm_read ms w va).
  { rewrite (vm_read_ok ms w tabs V H va Hr). pose proof (sees_agree ms w tabs V I va H HI Hr) as Ha. destruct (I va) as [[? ?]|], (view V (w_mem w) va) as [[? ?]|]; try done. by injection Ha as _ _ ->. }
  destruct (vm_read ms w va) as [c|]; [|done]. cbn [mbind option_bind] in E. destruct (Z.eqb_spec c 0) as [E0|Hc].
  - rewrite E0 in Hb. injection E as <-. split; [done|]. right. cbn. split; [lia|]. by rewrite Z.add_0_r.
  - destruct (str_loop n ms w (va + 1)) as [l'|] eqn:El; [|done]. injection E as <-. destruct (IH (va + 1) l' ltac:(lia) El) as [H1 H2]. split.
    + intros [|i] x Hx; cbn in Hx; [injection Hx as <-; by rewrite Z.add_0_r|]. replace (va + Z.of_nat (S i)) with (va + 1 + Z.of_nat i) by lia. by apply H1.
    + cbn [length]. replace (va + Z.of_nat (S (length l'))) with (va + 1 + Z.of_nat (length l')) by lia. destruct H2 as [?|[? ?]]; [left; lia|right]. split; [lia|done].
Qed.

Lemma by_kernel_read fl : by_kernel (Z.lor READ fl) = by_kernel fl.
Proof. apply read_flags. Qed.
Lemma by_user_read fl : by_user (Z.lor READ fl) = by_user fl.
Proof. unfold by_user. by destruct (read_flags fl) as [-> ->]. Qed.

(** The kernel may write the bytes from [va] on. *)
Definition writable (I : Z -> option (Z * Z)) (va n : Z) : Prop := forall x, va <= x < va + n -> (fun x => contains x.1 WRITE) <$> I x = Some true.

Lemma write_bytes_ok data : forall ms w tabs V va I, holds ms w tabs V -> sees ms w I -> 0 <= va -> va + Z.of_nat (length data) <= 2 ^ 47 -> Forall (fun b => 0 <= b < 256) data ->
  writable I va (Z.of_nat (length data)) ->
  exists w', vm_write_bytes ms va data w = Some w' /\ w_free w' = w_free w /\ holds ms w' tabs V /\ world_step w w' (foot tabs V) (foot tabs V) /\
    forall J, sees ms w J -> sees ms w' (puts va data J).
Proof.
  induction data as [|b data IH]; intros ms w tabs V va I H HI H0 H1 Hd Hw; cbn [vm_write_bytes puts length] in *.
  - exists w. split_and!; try done. split; try done; [apply H|apply H|]. intros f. by apply (foot_split ms w).
  - apply list.Forall_cons in Hd as [Hb Hd]. assert (Hr : 0 <= va < 2 ^ 47) by lia. pose proof (vm_write_ok ms w tabs V H va Hr by_kernel b by_kernel_read Hb) as Hv.
    pose proof (Hw va ltac:(lia)) as Ha. pose proof (sees_agree ms w tabs V I va H HI Hr) as Hg. destruct (I va) as [[fl c]|] eqn:EI; [|done]. destruct (view V (w_mem w) va) as [[fl' c']|]; [|done].
    cbn in Ha, Hg. injection Ha as Ha. injection Hg as Hg _ _. unfold by_kernel in Hv at 1. rewrite <- Hg, Ha in Hv. destruct Hv as (w1 & -> & F1 & H1' & W1 & S1). cbn [mbind option_bind].
    destruct (IH ms w1 tabs V (va + 1) (put va b I) H1') as (w2 & -> & F2 & H2 & W2 & S2); [by apply S1|lia|lia|done| |].
    + intros x Hx. unfold put, remap. pose proof (Hw x ltac:(lia)) as Hx'. by destruct (I x) as [[? ?]|].
    + exists w2. split_and!; try done; [congruence|eapply world_trans; [exact W1|exact W2|done]|]. intros J HJ. apply S2, S1, HJ.
Qed.

(** Conversely, what the kernel can write is so in every image. *)
Lemma bytes_writable data : forall ms w tabs V va w', holds ms w tabs V -> 0 <= va -> va + Z.of_nat (length data) <= 2 ^ 47 -> Forall (fun b => 0 <= b < 256) data ->
  vm_write_bytes ms va data w = Some w' -> forall I, sees ms w I -> writable I va (Z.of_nat (length data)).
Proof.
  induction data as [|b data IH]; intros ms w tabs V va w' H H0 H1 Hd E I HI; cbn [vm_write_bytes length] in *; [intros x; lia|].
  apply list.Forall_cons in Hd as [Hb Hd]. assert (Hr : 0 <= va < 2 ^ 47) by lia. pose proof (vm_write_ok ms w tabs V H va Hr by_kernel b by_kernel_read Hb) as Hv.
  pose proof (sees_agree ms w tabs V I va H HI Hr) as Hg. destruct (view V (w_mem w) va) as [[fl c]|]; [|by rewrite Hv in E]. destruct (by_kernel fl) eqn:Ek; [|by rewrite Hv in E].
  destruct Hv as (w1 & E1 & _ & H1' & _ & S1). rewrite E1 in E. cbn [mbind option_bind] in E. pose proof (IH ms w1 tabs V (va + 1) w' H1' ltac:(lia) ltac:(lia) Hd E _ (S1 I HI)) as Hw.
  intros x Hx. destruct (Z.eq_dec x va) as [->|Hne].
  - destruct (I va) as [[fl' c']|]; [|done]. cbn in *. injection Hg as -> _ _. unfold by_kernel in Ek. by rewrite Ek.
  - specialize (Hw x ltac:(lia)). unfold put, remap in Hw. by destruct (I x) as [[? ?]|].
Qed.
