(* ===== verification/TaskRuns.v ===== *)
(** * Tasks at work

    What every system call on tasks does, on the table of tasks and on memory at
    once: no assertion of the kernel fails, nobody's memory changes but the
    caller's, no frame is lost, the queue is fair. *)
From S2P Require Import Prelude Cpu Machine Mem Mmu MmuFacts Paging PagingTree PagingFacts Aspace Uaccess Regions Spaces Loading AspaceFacts Task TaskFacts TaskSpaces UserMem.

#[local] Opaque st ld Z.to_nat.

Section runs.
  Context (kroot : Z) (get_app_data_by_name : list Z -> option (list Z)) (elf_new : list Z -> option ElfFile).
  (* the frames in use that belong to no task, and the frames that tasks may use *)
  Context (base : Z -> Prop) (total : Z).

Record safe (s : ksystem) : Prop := {
  sf_running : running s;
  sf_memory : exists T R, memory base (vms s) (sys_w s) T R;
  sf_pids : 1 < next_pid s <= 2 ^ 63;
  sf_kroot : base kroot;
  sf_total : available_space (w_free (sys_w s)) + used (vms s) = total;
}.

(** What the code takes for granted of the caller: only user tasks fork, clone and
    execute programs; the idle task and the root do not end; there are frames
    enough and programs are in order; a new stack is at a canonical address; a
    task that executes a program shares its memory with no one; the name of the
    program can be read, and the place for an exit code be written.  A program
    can write where its pages let it. *)
Definition may (s : ksystem) (o : op) : Prop :=
  exists k, tasks s !! current_task s = Some k /\
  match o with
  | Yield | Getpid | Wait _ => True
  | Exit _ => current_task s <> 0 /\ current_task s <> 1
  | Killed => is_kernel k = false
  | Fork => is_kernel k = false /\ next_pid s < 2 ^ 63 /\ forall v ms, tk_vm k = Some v -> vms s !! v = Some ms -> 1 + 5 * set_pages ms <= available_space (w_free (sys_w s))
  | Clone newsp => is_kernel k = false /\ next_pid s < 2 ^ 63 /\ is_Some (VirtAddr_new newsp)
  | Exec ptr => is_kernel k = false /\ exists path, read_path ptr s = Some path /\ forall v ms, tk_vm k = Some v -> vms s !! v = Some ms -> vm_count s v = 1 /\
      forall data, get_app_data_by_name path = Some data -> exists elf, elf_new data = Some elf /\ elf_ok elf /\
        5 * load_pages (elf_program elf) + 16 <= available_space (w_free (sys_w s)) + set_pages ms
  | Waitpid _ ptr => is_kernel k = false /\ ptr mod 4 = 0 /\ forall v ms, tk_vm k = Some v -> vms s !! v = Some ms -> is_Some (write_i32 ms ptr 0 (sys_w s))
  | Store va b => is_kernel k = false /\ 0 <= va < 2 ^ 47 /\ 0 <= b < 256 /\ forall v ms, tk_vm k = Some v -> vms s !! v = Some ms -> is_Some (vm_write by_user ms va b (sys_w s))
  end.

(** The task [t] has the memory it had, and the processor sees there what it saw. *)
Definition intact (s s' : ksystem) (t : Z) : Prop := forall v ms, vm_of s t = Some v -> vms s !! v = Some ms ->
  vm_of s' t = Some v /\ vms s' !! v = Some ms /\ forall I, sees ms (sys_w s) I -> sees ms (sys_w s') I.
Definition was_reaped (s s' : ksystem) (t : Z) : Prop := task_state s t = Some Zombie /\ tasks s' !! t = None.

(** So it is for every task that does not share the caller's memory, unless it had
    ended and is now gone. *)
Definition isolated (s s' : ksystem) : Prop := forall t, vm_of s t <> vm_of s (current_task s) -> intact s s' t \/ was_reaped s s' t.
Definition all_intact (s s' : ksystem) : Prop := forall t, intact s s' t \/ was_reaped s s' t.

Lemma intact_isolated s s' : all_intact s s' -> isolated s s'.
Proof. intros H t _. apply H. Qed.

Lemma intact_same s s' : vms s' = vms s -> sys_w s' = sys_w s -> (forall t v, vm_of s t = Some v -> vm_of s' t = Some v) -> all_intact s s'.
Proof. intros Ev Ew Hv t. left. intros v ms Ht Hm. rewrite Ev, Ew. auto. Qed.

(** The caller has not ended. *)
Lemma intact_caller s s' : running s -> all_intact s s' -> intact s s' (current_task s).
Proof. intros R H. destruct (H (current_task s)) as [?|[Hz _]]; [done|]. rewrite (ru_current s R) in Hz. done. Qed.

Lemma started_vm_of s s' k0 p t v : shape s -> (forall t, tasks s' !! t = started k0 p (next_pid s) t s) -> vm_of s t = Some v -> vm_of s' t = Some v.
Proof.
  intros Sh L Ht. unfold vm_of in *. rewrite L. unfold started. destruct (tasks s !! t) as [k|] eqn:E; [|done]. pose proof (sh_pids s Sh t k E).
  rewrite decide_False by lia. cbn in *. done.
Qed.

Lemma safe_same s s' : safe s -> running s' -> vms s' = vms s -> sys_w s' = sys_w s -> next_pid s <= next_pid s' <= 2 ^ 63 -> safe s'.
Proof. intros [R M P K A] R' Ev Ew Hp. split; [done|by rewrite Ev, Ew|lia|done|by rewrite Ev, Ew]. Qed.

Lemma running_vms s m w : running s -> (forall v, is_Some (m !! v) <-> is_Some (vms s !! v)) -> running (s <| vms := m |> <| sys_w := w |>).
Proof.
  intros [H S R] Hm. split; [by apply (shape_skel s)| |done]. destruct S as [A B C D E]. by split.
Qed.

(** The memory of the current task, a user task. *)
Lemma own_vm s k : running s -> tasks s !! current_task s = Some k -> is_kernel k = false -> exists v ms, tk_vm k = Some v /\ vm_of s (current_task s) = Some v /\ vms s !! v = Some ms.
Proof.
  intros [H _ _] Hk Hu. apply (sh_user s H _ k Hk) in Hu as [v Hv]. assert (Hvo : vm_of s (current_task s) = Some v) by (unfold vm_of; by rewrite Hk).
  destruct (proj2 (sh_vm s H v)) as [ms Hms]; [eauto|]. eauto.
Qed.

(** Another address space in the place of [v]. *)
Lemma safe_update s v ms ms' w' tabs' V' T R : memory base (vms s) (sys_w s) T R -> vms s !! v = Some ms -> holds ms' w' tabs' V' ->
  world_step (sys_w s) w' (foot (T v) (R v)) (foot tabs' V') ->
  memory base (<[v := ms']> (vms s)) w' (at_key v tabs' T) (at_key v V' R) /\
  forall x msx, x <> v -> vms s !! x = Some msx -> forall I, sees msx (sys_w s) I -> sees msx w' I.
Proof.
  intros M Hv H W. assert (W' : world_step (sys_w s) w' (foot_of (vms s) v (T v) (R v)) (foot_of (<[v := ms']> (vms s)) v tabs' V')).
  { eapply world_step_iff; [exact W|..]; intros f; unfold foot_of; [rewrite Hv|rewrite lookup_insert_eq]; (split; [intros ?; split; [eauto|done]|by intros [_ ?]]). }
  split; [eapply memory_change; [exact M| |exact W'|]|].
  - intros x Hx. by rewrite lookup_insert_ne.
  - intros msx. rewrite lookup_insert_eq. by intros [= <-].
  - intros x msx Hx Hm. by eapply others_see.
Qed.

(** A new address space. *)
Lemma safe_insert s v ms' w' tabs' V' T R : memory base (vms s) (sys_w s) T R -> vms s !! v = None -> holds ms' w' tabs' V' -> world_step (sys_w s) w' none (foot tabs' V') ->
  memory base (<[v := ms']> (vms s)) w' (at_key v tabs' T) (at_key v V' R) /\ forall x msx, vms s !! x = Some msx -> forall I, sees msx (sys_w s) I -> sees msx w' I.
Proof.
  intros M Hv H W. assert (W' : world_step (sys_w s) w' (foot_of (vms s) v (T v) (R v)) (foot_of (<[v := ms']> (vms s)) v tabs' V')).
  { eapply world_step_iff; [exact W|..]; intros f; unfold foot_of; [rewrite Hv|rewrite lookup_insert_eq].
    - split; [done|]. intros [[? ?] _]. done.
    - split; [intros ?; split; [eauto|done]|by intros [_ ?]]. }
  split; [eapply memory_change; [exact M| |exact W'|]|].
  - intros x Hx. by rewrite lookup_insert_ne.
  - intros msx. rewrite lookup_insert_eq. by intros [= <-].
  - intros x msx Hm. eapply others_see; [exact M|exact W'| |done]. intros ->. congruence.
Qed.

(** No address space in the place of [v]. *)
Lemma safe_delete s v ms w' T R : memory base (vms s) (sys_w s) T R -> vms s !! v = Some ms -> world_step (sys_w s) w' (foot (T v) (R v)) none ->
  memory base (delete v (vms s)) w' (at_key v ∅ T) (at_key v [] R) /\ forall x msx, x <> v -> vms s !! x = Some msx -> forall I, sees msx (sys_w s) I -> sees msx w' I.
Proof.
  intros M Hv W. assert (W' : world_step (sys_w s) w' (foot_of (vms s) v (T v) (R v)) (foot_of (delete v (vms s)) v ∅ [])).
  { eapply world_step_iff; [exact W|..]; intros f; unfold foot_of; [rewrite Hv|rewrite lookup_delete_eq].
    - split; [intros ?; split; [eauto|done]|by intros [_ ?]].
    - split; [done|]. intros [[? ?] _]. done. }
  split; [eapply memory_change; [exact M| |exact W'|]|].
  - intros x Hx. by rewrite lookup_delete_ne.
  - intros msx. by rewrite lookup_delete_eq.
  - intros x msx Hx Hm. by eapply others_see.
Qed.

(** ** The operations *)
Lemma pid_s64 t : 0 <= t < 2 ^ 63 -> s64 t = t.
Proof. intros H. apply swrap_small; lia. Qed.

Lemma insert_some (m : gmap Z MemorySet) v ms ms' x : m !! v = Some ms -> is_Some (<[v := ms']> m !! x) <-> is_Some (m !! x).
Proof. intros Hv. destruct (decide (x = v)) as [->|Hx]; [rewrite lookup_insert_eq, Hv|by rewrite lookup_insert_ne]. split; eauto. Qed.

(** The caller's address space replaced. *)
Lemma replace_ok s v ms ms' w' tabs' V' T R : safe s -> memory base (vms s) (sys_w s) T R -> vm_of s (current_task s) = Some v -> vms s !! v = Some ms -> holds ms' w' tabs' V' ->
  world_step (sys_w s) w' (foot (T v) (R v)) (foot tabs' V') -> available_space (w_free w') + cost ms' = available_space (w_free (sys_w s)) + cost ms ->
  let s' := s <| vms := <[v := ms']> (vms s) |> <| sys_w := w' |> in safe s' /\ isolated s s'.
Proof.
  intros [Rs _ P K A] M Hvo Hv H W Hs s'. destruct (safe_update s v ms ms' w' tabs' V' T R M Hv H W) as [M' Ho]. split; [split|].
  - apply running_vms; [done|]. intros x. by eapply insert_some.
  - eauto.
  - done.
  - done.
  - change (available_space (w_free w') + used (<[v := ms']> (vms s)) = total). pose proof (used_update (vms s) v ms ms' Hv). lia.
  - intros t Ht. left. intros x msx Hx Hx'. assert (Hxv : x <> v) by congruence. split; [exact Hx|]. change (vms s') with (<[v := ms']> (vms s)). rewrite lookup_insert_ne by done.
    split; [done|]. by apply (Ho x).
Qed.

Lemma yield_safe s : safe s -> exists s', yield_current s = Some s' /\ safe s' /\ all_intact s s' /\
  let q := ready_queue s ++ (if is_idle (current_task s) then [] else [current_task s]) in current_task s' = hd IDLE_TASK_ID q /\ ready_queue s' = tail q.
Proof.
  intros Hs. destruct (yield_ok s (sf_running s Hs)) as (s' & E & R & Sk & Ep & Ev & _ & Ew & Hq). exists s'. split; [done|]. split; [apply (safe_same s); try done; rewrite Ep; pose proof (sf_pids s Hs); lia|].
  split; [apply intact_same; try done; intros t v; by rewrite (skel_vm_of s s' t Sk)|exact Hq].
Qed.

(** A task that ends: nobody else's memory changes, that of its threads included;
    memory that was only its own is empty. *)
Definition exit_memory (s s' : ksystem) : Prop := (forall t, t <> current_task s -> intact s s' t) /\
  forall v, vm_of s (current_task s) = Some v -> (forall t, t <> current_task s -> vm_of s t <> Some v) -> exists ms', vms s' !! v = Some ms' /\ sees ms' (sys_w s') (fun _ => None).

Lemma exit_isolated s s' : exit_memory s s' -> isolated s s'.
Proof. intros [H _] t Ht. left. apply H. by intros ->. Qed.

Lemma clear_own s k : safe s -> tasks s !! current_task s = Some k ->
  exists s1, match tk_vm k with
    | Some v => if vm_count s v =? 1 then ms ← vms s !! v; ' (ms, w) ← ms_clear ms (sys_w s); Some (s <| vms := <[v := ms]> (vms s) |> <| sys_w := w |>) else Some s
    | None => Some s end = Some s1 /\ safe s1 /\ exit_memory s s1 /\ tasks s1 = tasks s /\ ready_queue s1 = ready_queue s /\ current_task s1 = current_task s.
Proof.
  intros Hs Hk. pose proof (sf_running s Hs) as Rs. assert (Hsame : forall t, intact s s t) by (intros t v ms; auto).
  destruct (tk_vm k) as [v|] eqn:Hv; [|exists s; split_and!; try done; split; [by intros t _|]; intros v; unfold vm_of; rewrite Hk; cbn; by rewrite Hv].
  assert (Hvo : vm_of s (current_task s) = Some v) by (unfold vm_of; by rewrite Hk). destruct (Z.eqb_spec (vm_count s v) 1) as [Hc|Hc].
  - assert (Hu : is_kernel k = false) by (apply (sh_user s (ru_shape s Rs) _ k Hk); rewrite Hv; eauto). destruct (own_vm s k Rs Hk Hu) as (v' & ms & Ev & _ & Hms). assert (v' = v) as -> by congruence.
    rewrite Hms. cbn [mbind option_bind]. destruct (sf_memory s Hs) as (T & R & M). destruct (clear_world ms _ _ _ (me_holds _ _ _ _ _ M v ms Hms)) as (w1 & -> & H1' & W & A). cbn [mbind option_bind].
    destruct (replace_ok s v ms _ w1 _ _ T R Hs M Hvo Hms H1' W) as [Hs' Hi]; [rewrite A; unfold cost; cbn [ms_pt]; change (set_pages (mkMS (ms_pt ms) [])) with 0; lia|].
    eexists. split; [reflexivity|]. set (s1 := s <| vms := _ |> <| sys_w := w1 |>) in *. split_and!; try done. split.
    + intros t Ht. destruct (Hi t) as [?|[Hz Hn]]; [|done|]; [rewrite Hvo; intros E; apply Ht; by eapply vm_count_one|].
      change (tasks s1) with (tasks s) in Hn. unfold task_state in Hz. by rewrite Hn in Hz.
    + intros x Hx _. assert (x = v) as -> by congruence. eexists. split; [apply lookup_insert_eq|]. exact (holds_sees _ _ _ _ H1').
  - exists s. split_and!; try done. split; [by intros t _|]. intros x Hx Hn. destruct Hc. assert (x = v) as -> by congruence. by eapply vm_count_alone.
Qed.

Lemma exit_safe s code : safe s -> may s (Exit code) -> exists s', task_exit code s = Some s' /\ safe s' /\ exit_memory s s' /\
  current_task s' = hd IDLE_TASK_ID (ready_queue s) /\ ready_queue s' = tail (ready_queue s) /\
  exists k, tasks s' !! current_task s = Some k /\ tk_state k = Zombie /\ tk_exit_code k = code.
Proof.
  intros Hs (k & Hk & H0 & H1). pose proof (sf_running s Hs) as Rs. unfold task_exit. rewrite Hk. cbn [mbind option_bind].
  destruct (clear_own s k Hs Hk) as (s1 & -> & Hs1 & [Hi Hc] & Et & Eq & Ec). cbn [mbind option_bind].
  destruct (exit_current_ok s1 code k (sf_running s1 Hs1)) as (s' & -> & R' & L & Hvm & Ep & Ev & _ & Ew & Ec' & Eq'); try (by rewrite ?Ec, ?Et).
  exists s'. split; [done|]. split; [apply (safe_same s1); try done; rewrite Ep; pose proof (sf_pids s1 Hs1); lia|]. rewrite Eq, Ec in *. split; [|split_and!; try done].
  - split; [|by rewrite Ev, Ew]. intros t Ht v ms Hv Hm. rewrite Hvm, Ev, Ew. by apply Hi.
  - rewrite L, Et, Hk; [eexists; split; [reflexivity|]; unfold ended; by rewrite decide_True by done|]. intros E. destruct Rs as [Sh Sc Ru].
    unfold task_state in Ru. rewrite Hk in Ru. injection Ru as Ru. destruct (ready_queue s) as [|t q] eqn:Er; cbn in E; [done|].
    destruct (proj1 (sc_ready s Sc t)) as (_ & k' & Hk' & Hr'); [rewrite Er; by left|]. congruence.
Qed.

(** The memory of a program, as the system calls find it. *)
Lemma current_vm_ok s k v ms : tasks s !! current_task s = Some k -> tk_vm k = Some v -> vms s !! v = Some ms -> current_vm s = Some (v, ms).
Proof. intros Hk Hv Hm. unfold current_vm. rewrite Hk. cbn [mbind option_bind]. rewrite Hv. cbn [mbind option_bind]. by rewrite Hm. Qed.

Lemma exec_safe s ptr : safe s -> may s (Exec ptr) -> exists r s' path v ms, sys_op kroot get_app_data_by_name elf_new (Exec ptr) s = Some ((r, 0), s') /\ safe s' /\ isolated s s' /\
  current_task s' = current_task s /\ ready_queue s' = ready_queue s /\ vm_of s (current_task s) = Some v /\ vms s !! v = Some ms /\
  (forall I, sees ms (sys_w s) I -> string_at 255 I ptr path) /\
  match get_app_data_by_name path with
  | None => r = -1 /\ s' = s
  | Some data => r = 0 /\ exists elf ms', elf_new data = Some elf /\ vm_of s' (current_task s) = Some v /\ vms s' !! v = Some ms' /\ sees ms' (sys_w s') (program_image elf)
  end.
Proof.
  intros Hs (k & Hk & Hu & path & Hp & Hm). pose proof (sf_running s Hs) as Rs. destruct (own_vm s k Rs Hk Hu) as (v & ms & Ev & Hvo & Hms). destruct (Hm v ms Ev Hms) as (Hc & Hd).
  destruct (sf_memory s Hs) as (T & R & M). pose proof (me_holds _ _ _ _ _ M v ms Hms) as H. cbn [sys_op]. unfold sys_exec. pose proof Hp as Hp'.
  unfold read_path in Hp'. rewrite (current_vm_ok s k v ms Hk Ev Hms) in Hp'. cbn [mbind option_bind] in Hp'. destruct (read_str MAX_STR_LEN ms (sys_w s) ptr) as [l|] eqn:El; [|done].
  cbn [mbind option_bind] in Hp'. destruct (utf8 l); [|done]. injection Hp' as ->. unfold read_str, copy_from_user_str in El. destruct (uaccess_ok ptr 1) eqn:Ea; [|done].
  assert (Hq : UserPtr_from 1 ptr = Some ptr) by (unfold UserPtr_from; by rewrite Ea, Z.mod_1_r). rewrite Hq. cbn [mbind option_bind]. rewrite Hp. cbn [mbind option_bind].
  assert (Hstr : forall I, sees ms (sys_w s) I -> string_at 255 I ptr path).
  { intros I HI. eapply str_loop_ok; [exact H|exact HI| |exact El]. unfold uaccess_ok in Ea. apply andb_true_iff in Ea as [[_ Ea%Z.leb_le]%andb_true_iff _]. exact Ea. }
  unfold exec. rewrite Hk. cbn [mbind option_bind]. rewrite Hu, Ev. cbn [mbind option_bind]. rewrite Hc. change (negb (1 =? 1)) with false. cbn iota.
  destruct (get_app_data_by_name path) as [data|] eqn:Eg; [|exists (-1), s, path, v, ms; rewrite Eg; split_and!; try done; by apply intact_isolated, intact_same].
  destruct (Hd data eq_refl) as (elf & Ee & He & Hav). rewrite Hms. cbn [mbind option_bind].
  destruct (load_world elf_new data elf ms _ _ _ H Ee He Hav) as (w1 & ms' & w' & t' & V' & -> & Elu & H' & W & A & Hsee).
  cbn [mbind option_bind]. rewrite Elu. cbn [mbind option_bind]. destruct (replace_ok s v ms ms' w' t' V' T R Hs M Hvo Hms H' W A) as [Hs' Hi].
  eexists 0, _, path, v, ms. split; [reflexivity|]. rewrite Eg. split_and!; try done. exists elf, ms'. split_and!; try done. apply lookup_insert_eq.
Qed.

(** The table of tasks after [t] was started as a child of the current task. *)
Definition child_of (s s' : ksystem) (k0 : Task) : Prop :=
  (forall t, tasks s' !! t = started k0 (current_task s) (next_pid s) t s) /\ ready_queue s' = ready_queue s ++ [next_pid s] /\ current_task s' = current_task s.

Lemma caller s k : running s -> tasks s !! current_task s = Some k -> is_kernel k = false -> tk_state k <> Zombie /\ 1 <= current_task s < next_pid s.
Proof.
  intros [H S R] Hk Hu. unfold task_state in R. rewrite Hk in R. injection R as R. split; [congruence|]. pose proof (sh_pids s H _ k Hk).
  destruct (Z.eq_dec (current_task s) 0) as [E|]; [|lia]. rewrite E in Hk. destruct (sh_idle s H) as (k' & ? & ? & _). congruence.
Qed.

(** A new task with the new address space [ms']. *)
Lemma start_user s p kp ms' w' tabs' V' : safe s -> tasks s !! p = Some kp -> tk_state kp <> Zombie -> 1 <= p -> next_pid s < 2 ^ 63 ->
  holds ms' w' tabs' V' -> world_step (sys_w s) w' none (foot tabs' V') -> available_space (w_free w') + cost ms' = available_space (w_free (sys_w s)) ->
  let k0 := new_common <| tk_vm := Some (next_vm s) |> in
  exists s', spawn (next_pid s) (add_child p (next_pid s) (alloc_task k0 (alloc_vm ms' w' s).2).2) = Some s' /\ safe s' /\
    (forall t, tasks s' !! t = started k0 p (next_pid s) t s) /\ ready_queue s' = ready_queue s ++ [next_pid s] /\ current_task s' = current_task s /\ next_pid s' = next_pid s + 1 /\
    vms s !! next_vm s = None /\ vms s' = <[next_vm s := ms']> (vms s) /\ sys_w s' = w' /\
    forall x msx, vms s !! x = Some msx -> forall I, sees msx (sys_w s) I -> sees msx w' I.
Proof.
  intros Hs Hk Hz Hp Hpid H' W A k0. pose proof (sf_running s Hs) as Rs. destruct (sf_memory s Hs) as (T & R & M). pose proof (sf_pids s Hs) as Hp1.
  pose proof (sh_vms s (ru_shape s Rs)) as Hnv. assert (Hfree : vms s !! next_vm s = None) by (destruct (vms s !! next_vm s) as [x|] eqn:E; [specialize (Hnv _ (mk_is_Some _ _ E)); lia|done]).
  destruct (safe_insert s (next_vm s) ms' w' tabs' V' T R M Hfree H' W) as [M' Ho]. set (s1 := (alloc_vm ms' w' s).2).
  destruct (start_ok s s1 k0 p kp Rs Hk Hz) as (s' & Es & R' & L & Eq & Ep & Ec & Ev' & _ & Ew); try done; try lia.
  - intros x. change (vms s1) with (<[next_vm s := ms']> (vms s)). destruct (decide (x = next_vm s)) as [->|Hx]; [rewrite lookup_insert_eq; split; [by right|eauto]|].
    rewrite lookup_insert_ne by done. split; [by left|]. intros [?|[= ?]]; [done|congruence].
  - intros x. change (vms s1) with (<[next_vm s := ms']> (vms s)). change (next_vm s1) with (next_vm s + 1). destruct (decide (x = next_vm s)) as [->|Hx]; [lia|].
    rewrite lookup_insert_ne by done. intros Hx'%Hnv. lia.
  - change (vms s1) with (<[next_vm s := ms']> (vms s)) in Ev'. change (sys_w s1) with w' in Ew. exists s'. split; [exact Es|]. split; [|done].
    split; [done|rewrite Ev', Ew; eauto|rewrite Ep; lia|apply Hs|]. rewrite Ev', Ew, used_insert by done. pose proof (sf_total s Hs). lia.
Qed.

Lemma fork_safe s : safe s -> may s Fork -> exists s', sys_op kroot get_app_data_by_name elf_new Fork s = Some ((next_pid s, 0), s') /\ safe s' /\ all_intact s s' /\
  child_of s s' (new_common <| tk_vm := Some (next_vm s) |>) /\
  exists v ms ms', vm_of s (current_task s) = Some v /\ vms s !! v = Some ms /\ v <> next_vm s /\ vms s' !! v = Some ms /\ vms s' !! next_vm s = Some ms' /\
    forall I, sees ms (sys_w s) I -> sees ms (sys_w s') I /\ sees ms' (sys_w s') I.
Proof.
  intros Hs (k & Hk & Hu & Hp & Hm). pose proof (sf_running s Hs) as Rs. destruct (own_vm s k Rs Hk Hu) as (v & ms & Ev & Hvo & Hms). specialize (Hm v ms Ev Hms).
  destruct (caller s k Rs Hk Hu) as [Hz Hc]. cbn [sys_op]. unfold sys_fork, new_fork. rewrite Hk. cbn [mbind option_bind]. rewrite Hu, Ev. cbn [mbind option_bind]. rewrite Hms. cbn [mbind option_bind].
  destruct (sf_memory s Hs) as (T & R & M). pose proof (me_holds _ _ _ _ _ M v ms Hms) as H.
  destruct (dup_world kroot ms _ _ _ H ltac:(apply (me_owned _ _ _ _ _ M); left; apply Hs) Hm) as (ms' & w' & t' & V' & -> & H' & W & A & Hsee). cbn [mbind option_bind].
  destruct (start_user s (current_task s) k ms' w' t' V' Hs Hk Hz ltac:(lia) Hp H' W A) as (s' & Es & Hs' & L & Eq & Ec & _ & Hfree & Ev' & Ew & Ho).
  unfold alloc_vm, alloc_task in *. cbn [snd mbind option_bind] in *. change (next_pid (s <| vms := _ |> <| next_vm := _ |> <| sys_w := _ |>)) with (next_pid s) in *. rewrite Es. cbn [mbind option_bind].
  exists s'. rewrite pid_s64 by lia. split; [done|]. split; [done|]. split; [|split; [done|]].
  - intros t. left. intros x msx Hx Hx'. split; [by eapply started_vm_of; [apply Rs|exact L|]|]. rewrite Ev', Ew, lookup_insert_ne by congruence. split; [done|]. by apply (Ho x).
  - exists v, ms, ms'. rewrite Ev', Ew, lookup_insert_eq, lookup_insert_ne by congruence. split_and!; try done; [congruence|]. intros I HI. split; [by apply (Ho v)|by apply Hsee].
Qed.

Lemma clone_safe s newsp : safe s -> may s (Clone newsp) -> exists s', sys_op kroot get_app_data_by_name elf_new (Clone newsp) s = Some ((next_pid s, 0), s') /\ safe s' /\ all_intact s s' /\
  child_of s s' (new_common <| is_shared := true |> <| tk_vm := vm_of s (current_task s) |>) /\ vms s' = vms s /\ sys_w s' = sys_w s.
Proof.
  intros Hs (k & Hk & Hu & Hp & [sp Hsp]). pose proof (sf_running s Hs) as Rs. destruct (own_vm s k Rs Hk Hu) as (v & ms & Ev & Hvo & Hms).
  destruct (caller s k Rs Hk Hu) as [Hz Hc]. cbn [sys_op]. unfold sys_clone, new_clone. rewrite Hk. cbn [mbind option_bind]. rewrite Hu, Ev. cbn [mbind option_bind]. rewrite Hsp. cbn [mbind option_bind].
  destruct (start_ok s s (new_common <| is_shared := true |> <| tk_vm := Some v |>) (current_task s) k Rs Hk Hz) as (s' & Es & R' & L & Eq & Ep & Ec & Ev' & _ & Ew); try done; try lia.
  - intros x. split; [by left|]. intros [?|[= <-]]; [done|eauto].
  - apply (sh_vms s (ru_shape s Rs)).
  - unfold alloc_task in *. cbn [snd mbind option_bind] in *. rewrite Es. cbn [mbind option_bind]. exists s'. rewrite Hvo, pid_s64 by lia. split; [done|]. split; [apply (safe_same s); try done; rewrite Ep; lia|].
    split; [apply intact_same; try done; intros t x; by eapply started_vm_of; [apply Rs|exact L]|]. done.
Qed.

Lemma reaped_intact s s' c i t kt : tasks s !! t = Some kt -> tk_state kt = Zombie -> (forall x, tasks s' !! x = reaped c i t x s) ->
  (forall x v ms, x <> t -> vm_of s x = Some v -> vms s !! v = Some ms -> vms s' !! v = Some ms /\ forall I, sees ms (sys_w s) I -> sees ms (sys_w s') I) -> all_intact s s'.
Proof.
  intros Ht Hz L H x. destruct (decide (x = t)) as [->|Hx].
  - right. unfold was_reaped, task_state. rewrite L, Ht. unfold reaped. rewrite decide_True by done. cbn. by rewrite Hz.
  - left. intros v ms Hv Hm. rewrite (reaped_vm_of s s' c i t x L), decide_False by done. split; [done|]. by apply (H x).
Qed.

(** The end of the task [t]: its memory goes unless another task has it. *)
Lemma drop_safe s s1 i t k kt : safe s -> tasks s !! current_task s = Some k -> tk_children k !! i = Some t -> tasks s !! t = Some kt -> tk_state kt = Zombie ->
  s1 = upd_task (current_task s) (fun k => k <| tk_children := delete i (tk_children k) |>) s ->
  exists s', drop_task t s1 = Some s' /\ safe s' /\ all_intact s s' /\ current_task s' = current_task s /\ ready_queue s' = ready_queue s /\
    (forall x, tasks s' !! x = reaped (current_task s) i t x s) /\ forall v, tk_vm kt = Some v -> vms s' !! v = None <-> forall x, x <> t -> vm_of s x <> Some v.
Proof.
  intros Hs Hk Hi Ht Hz ->. set (c := current_task s). destruct (sf_running s Hs) as [Sh Sc Ru].
  assert (Hct : t <> c) by (intros ->; unfold task_state in Ru; fold c in Ru; rewrite Ht in Ru; cbn in Ru; congruence).
  unfold drop_task. rewrite upd_task_lookup, decide_False, Ht by done. cbn [mbind option_bind]. set (s2 := upd_task c _ s <| tasks := _ |>).
  assert (L : forall x, tasks s2 !! x = reaped c i t x s).
  { intros x. change (tasks s2) with (delete t (tasks (upd_task c (fun k => k <| tk_children := delete i (tk_children k) |>) s))). unfold reaped.
    case_decide as Ex; [subst; apply lookup_delete_eq|]. rewrite lookup_delete_ne, upd_task_lookup by done. case_decide; by destruct (tasks s !! x). }
  assert (Hv0 : forall v, is_Some (vms s !! v) <-> exists x, vm_of s x = Some v) by apply Sh. pose proof (fun x => reaped_vm_of s s2 c i t x L) as Lv.
  assert (Hfin : forall s', tasks s' = tasks s2 -> next_pid s' = next_pid s -> next_vm s' = next_vm s -> ready_queue s' = ready_queue s -> current_task s' = c ->
    (forall v, is_Some (vms s' !! v) <-> exists x, x <> t /\ vm_of s x = Some v) -> running s')
    by (intros s' E; intros; apply (reaped_running s s' k i t kt); try done; by rewrite E).
  pose proof (sf_pids s Hs) as Hp. destruct (tk_vm kt) as [v|] eqn:Hv; [|exists s2; split; [done|]; split; [apply (safe_same s); try done; [apply Hfin; try done|change (next_pid s2) with (next_pid s); lia]|]].
  2:{ intros v. change (vms s2) with (vms s). rewrite Hv0. apply exist_proper. intros x. split; [|by intros [_ ?]]. intros Hx. split; [|done]. intros ->. unfold vm_of in Hx. rewrite Ht in Hx. cbn in Hx. congruence. }
  2:{ split; [by apply (reaped_intact s s2 c i t kt)|]. split_and!; try done. }
  assert (Hvt : vm_of s t = Some v) by (unfold vm_of; by rewrite Ht). destruct (proj2 (Hv0 v)) as [ms Hms]; [eauto|].
  destruct (Z.eqb_spec (vm_count s2 v) 0) as [Hc|Hc].
  - assert (Hno : forall x, x <> t -> vm_of s x <> Some v) by (intros x Hx E; apply (proj1 (vm_count_zero s2 v) Hc x); rewrite Lv, decide_False by done; exact E).
    change (vms s2) with (vms s). rewrite Hms. cbn [mbind option_bind]. destruct (sf_memory s Hs) as (T & R & M).
    destruct (drop_world ms _ _ _ (me_holds _ _ _ _ _ M v ms Hms)) as (w' & E & W & A). change (sys_w s2) with (sys_w s). rewrite E. cbn [mbind option_bind].
    destruct (safe_delete s v ms w' T R M Hms W) as [M' Ho]. eexists. split; [reflexivity|]. set (s' := s2 <| vms := _ |> <| sys_w := w' |>). split; [split|].
    + apply Hfin; try done. intros x. change (vms s') with (delete v (vms s)). destruct (decide (x = v)) as [->|Hx].
      * rewrite lookup_delete_eq. split; [by intros [? ?]|]. intros (y & Hy & E'). by apply (Hno y) in E'.
      * rewrite lookup_delete_ne, Hv0 by done. split; intros (y & Hy); [exists y; split; [|done]; intros ->; congruence|exists y; by destruct Hy].
    + by exists (at_key v ∅ T), (at_key v [] R).
    + done.
    + apply Hs.
    + change (available_space (w_free w') + used (delete v (vms s)) = total). pose proof (used_delete (vms s) v ms Hms). pose proof (sf_total s Hs). lia.
    + split; [|split_and!; try done]; [|intros x [= <-]; split; [done|intros _; apply lookup_delete_eq]].
      apply (reaped_intact s s' c i t kt); try done. intros x y msy Hx Hy Hm. assert (Hyv : y <> v) by (intros ->; by apply (Hno x)).
      change (vms s') with (delete v (vms s)). rewrite lookup_delete_ne by done. split; [done|]. by apply (Ho y).
  - destruct (vm_count_used s2 v Hc) as [x Hx]. rewrite Lv in Hx. case_decide as Ex; [done|]. exists s2. split; [done|]. split; [apply (safe_same s); try done; [apply Hfin; try done|change (next_pid s2) with (next_pid s); lia]|].
    + intros y. change (vms s2) with (vms s). rewrite Hv0. split; [|intros (z & _ & ?); eauto]. intros [z Hy]. destruct (decide (z = t)) as [->|Hzt]; [|eauto]. exists x. split; [done|]. congruence.
    + split; [by apply (reaped_intact s s2 c i t kt)|]. split_and!; try done. intros y [= <-]. change (vms s2) with (vms s). rewrite Hms. split; [done|]. intros Hno. by destruct (Hno x Ex).
Qed.

(** What [waitpid] answers to the task [c] with the children [ch]. *)
Inductive wait_answer (s : ksystem) (pid : Z) (ch : list Z) : Z -> Z -> ksystem -> Prop :=
| wait_none : (forall t, t ∈ ch -> ~ wanted pid t) -> wait_answer s pid ch (-1) 0 s
| wait_later t : t ∈ ch -> wanted pid t -> (forall t', t' ∈ ch -> wanted pid t' -> task_state s t' <> Some Zombie) -> wait_answer s pid ch (-2) 0 s
| wait_reaped i t kt s' : ch !! i = Some t -> wanted pid t -> tasks s !! t = Some kt -> tk_state kt = Zombie ->
    (forall j t', (j < i)%nat -> ch !! j = Some t' -> wanted pid t' -> task_state s t' <> Some Zombie) ->
    (forall x, tasks s' !! x = reaped (current_task s) i t x s) ->
    (forall v, tk_vm kt = Some v -> vms s' !! v = None <-> forall x, x <> t -> vm_of s x <> Some v) -> wait_answer s pid ch t (tk_exit_code kt) s'.

Lemma wait_safe s pid k : safe s -> tasks s !! current_task s = Some k -> exists r code s', waitpid pid s = Some ((r, code), s') /\ safe s' /\ all_intact s s' /\
  current_task s' = current_task s /\ ready_queue s' = ready_queue s /\ wait_answer s pid (tk_children k) r code s'.
Proof.
  intros Hs Hk. unfold waitpid. rewrite Hk. cbn [mbind option_bind]. pose proof (wait_scan_ok s pid (tk_children k) 0 false) as Hw.
  destruct (wait_scan s pid 0 (tk_children k) false) as [f [[i t]|]].
  - destruct Hw as (-> & j & -> & Hj & Hwt & Hz & Hf). cbn [Nat.add] in *. unfold task_state in Hz. apply fmap_Some in Hz as (kt & Ht & Hz). symmetry in Hz.
    rewrite (reap_unheld s k j t kt (sf_running s Hs) Hk Hj Ht Hz). change (negb (0 + 1 =? 1)) with false. cbn iota. set (s1 := upd_task _ _ s).
    assert (Hn : tasks s1 !! t = Some kt).
    { unfold s1. rewrite upd_task_lookup, decide_False; [done|]. intros ->. pose proof (ru_current s (sf_running s Hs)) as Ru. unfold task_state in Ru. rewrite Ht in Ru. cbn in Ru. congruence. }
    rewrite Hn. cbn [mbind option_bind]. destruct (drop_safe s s1 j t k kt Hs Hk Hj Ht Hz eq_refl) as (s' & -> & Hs' & Hi & Ec & Eq & L & Hvm). cbn [mbind option_bind].
    assert (Ep : s64 t = t) by (pose proof (sh_pids s (ru_shape s (sf_running s Hs)) t kt Ht); pose proof (sf_pids s Hs); apply pid_s64; lia).
    rewrite Ep. exists t, (tk_exit_code kt), s'. split_and!; try done. eapply wait_reaped; eassumption.
  - destruct Hw as [Hnz Hf]. destruct f.
    + destruct (proj1 Hf eq_refl) as [?|(t & Ht & Hwt)]; [done|]. exists (-2), 0, s. split_and!; try done; [by apply intact_same|]. eapply wait_later; eassumption.
    + exists (-1), 0, s. split_and!; try done; [by apply intact_same|]. apply wait_none. intros t Ht Hwt. destruct Hf as [_ Hf]. discriminate Hf. right. eauto.
Qed.

(** ** User memory *)

(** A write to the caller's memory. *)
Lemma write_safe s v ms w' tabs V T R : safe s -> memory base (vms s) (sys_w s) T R -> vm_of s (current_task s) = Some v -> vms s !! v = Some ms -> T v = tabs -> R v = V ->
  w_free w' = w_free (sys_w s) -> holds ms w' tabs V -> world_step (sys_w s) w' (foot tabs V) (foot tabs V) -> safe (s <| sys_w := w' |>) /\ isolated s (s <| sys_w := w' |>).
Proof.
  intros Hs M Hv Hm <- <- Hf H W. destruct (replace_ok s v ms ms w' _ _ T R Hs M Hv Hm H W) as [Hs' Hi]; [by rewrite Hf|].
  rewrite insert_id in Hs', Hi by done. by destruct s.
Qed.

Lemma store_safe s va b : safe s -> may s (Store va b) -> exists s' v ms, user_store va b s = Some s' /\ safe s' /\ isolated s s' /\ current_task s' = current_task s /\ ready_queue s' = ready_queue s /\
  vm_of s (current_task s) = Some v /\ vms s !! v = Some ms /\ vms s' !! v = Some ms /\ forall I, sees ms (sys_w s) I -> sees ms (sys_w s') (put va b I).
Proof.
  intros Hs (k & Hk & Hu & Hva & Hb & Hm). destruct (own_vm s k (sf_running s Hs) Hk Hu) as (v & ms & Ev & Hvo & Hms). destruct (Hm v ms Ev Hms) as [w0 E]. destruct (sf_memory s Hs) as (T & R & M).
  pose proof (me_holds _ _ _ _ _ M v ms Hms) as H. pose proof (vm_write_ok ms _ _ _ H va Hva by_user b by_user_read Hb) as Hw.
  destruct (view (R v) (w_mem (sys_w s)) va) as [[fl c]|]; [|congruence]. destruct (by_user fl); [|congruence]. destruct Hw as (w' & Ew & Hf & H' & W & S).
  unfold user_store. rewrite (current_vm_ok s k v ms Hk Ev Hms). cbn [mbind option_bind]. rewrite Ew. cbn [mbind option_bind].
  destruct (write_safe s v ms w' _ _ T R Hs M Hvo Hms eq_refl eq_refl Hf H' W) as [Hs' Hi]. exists (s <| sys_w := w' |>), v, ms. split_and!; try done.
Qed.

Lemma i32_bytes_ok value : Forall (fun b => 0 <= b < 256) (i32_bytes value).
Proof. unfold i32_bytes. repeat constructor; apply Z.mod_pos_bound; lia. Qed.

Lemma uaccess_range va n : 0 < n < 4096 -> uaccess_ok va n = true -> 0 <= va /\ va + n <= 2 ^ 47 /\ uaccess_ok va 1 = true.
Proof.
  intros Hn. unfold uaccess_ok. change USER_ASPACE_BASE with 0. rewrite !u64_small by (unfold USER_ASPACE_SIZE; lia). unfold USER_ASPACE_SIZE.
  intros [[H0 H1%Z.leb_le]%andb_true_iff H2%Z.leb_le]%andb_true_iff. split_and!; [lia..|]. by rewrite H0, (proj2 (Z.leb_le _ _)), (proj2 (Z.leb_le _ _)) by lia.
Qed.

(** Whether the kernel can write an exit code does not depend on its value. *)
Lemma write_i32_ok ms w tabs V I ptr x value : holds ms w tabs V -> sees ms w I -> is_Some (write_i32 ms ptr x w) ->
  UserPtr_from 1 ptr = Some ptr /\ forall w1 tabs1 V1, holds ms w1 tabs1 V1 -> sees ms w1 I -> exists w', write_i32 ms ptr value w1 = Some w' /\ w_free w' = w_free w1 /\ holds ms w' tabs1 V1 /\
    world_step w1 w' (foot tabs1 V1) (foot tabs1 V1) /\ forall J, sees ms w1 J -> sees ms w' (puts ptr (i32_bytes value) J).
Proof.
  intros H HI [w0 E]. unfold write_i32, copy_to_user in *. change (Z.of_nat (length (i32_bytes _))) with 4 in *. destruct (uaccess_ok ptr 4) eqn:Ea; [|done].
  destruct (uaccess_range ptr 4 ltac:(lia) Ea) as (H0 & H1 & Ha). split; [unfold UserPtr_from; by rewrite Ha, Z.mod_1_r|]. intros w1 tabs1 V1 H' HI'.
  apply (write_bytes_ok (i32_bytes value) ms w1 tabs1 V1 ptr I); try done; [apply i32_bytes_ok|].
  by apply (bytes_writable (i32_bytes x) ms w tabs V ptr w0 H H0 H1 (i32_bytes_ok x) E).
Qed.

Lemma waitpid_safe s pid ptr : safe s -> may s (Waitpid pid ptr) -> exists r s1 s' v ms, sys_op kroot get_app_data_by_name elf_new (Waitpid pid ptr) s = Some (r, s') /\ safe s' /\ isolated s s' /\
  current_task s' = current_task s /\ ready_queue s' = ready_queue s /\ waitpid (s64 pid) s = Some (r, s1) /\
  vm_of s (current_task s) = Some v /\ vms s !! v = Some ms /\ vms s' !! v = Some ms /\ forall I, sees ms (sys_w s) I -> sees ms (sys_w s') (puts ptr (i32_bytes r.2) I).
Proof.
  intros Hs (k & Hk & Hu & Hal & Hm). pose proof (sf_running s Hs) as Rs. destruct (own_vm s k Rs Hk Hu) as (v & ms & Ev & Hvo & Hms). specialize (Hm v ms Ev Hms).
  destruct (sf_memory s Hs) as (T & R & M). pose proof (me_holds _ _ _ _ _ M v ms Hms) as H. pose proof (holds_sees _ _ _ _ H) as HI.
  destruct (wait_safe s (s64 pid) k Hs Hk) as (r & code & s1 & E & Hs1 & Ha & Ec & Eq & _). destruct (intact_caller s s1 Rs Ha v ms Hvo Hms) as (Hv1 & Hm1 & Hk1).
  destruct (write_i32_ok ms _ _ _ _ ptr 0 code H HI Hm) as [Hp Hw]. assert (Hq : UserPtr_from 4 ptr = Some ptr).
  { unfold UserPtr_from in *. rewrite Z.mod_1_r in Hp. destruct (uaccess_ok ptr 1); [|done]. by rewrite Hal. }
  destruct (sf_memory s1 Hs1) as (T1 & R1 & M1). destruct (Hw _ _ _ (me_holds _ _ _ _ _ M1 v ms Hm1) (Hk1 _ HI)) as (w' & Ew & Hf & H' & W & S).
  rewrite <- Ec in Hv1. destruct (write_safe s1 v ms w' _ _ T1 R1 Hs1 M1 Hv1 Hm1 eq_refl eq_refl Hf H' W) as [Hs' Hi].
  cbn [sys_op]. rewrite Hq. cbn [mbind option_bind]. unfold sys_waitpid. rewrite E. cbn [mbind option_bind].
  assert (Hc : current_vm s1 = Some (v, ms)) by (unfold vm_of in Hv1; destruct (tasks s1 !! current_task s1) as [k1|] eqn:Hk1'; [|done]; by apply (current_vm_ok s1 k1)).
  rewrite Hc. cbn [mbind option_bind]. rewrite Ew. cbn [mbind option_bind]. exists (r, code), s1, (s1 <| sys_w := w' |>), v, ms. split_and!; try done.
  - intros t Ht. destruct (Ha t) as [Hat|Hat]; [|by right]. left. intros x msx Hx Hmx. destruct (Hat x msx Hx Hmx) as (Hx1 & Hmx1 & Hsx).
    destruct (Hi t) as [Hit|[Hz Hn]]; [rewrite Hx1, Hv1; congruence| |change (tasks (s1 <| sys_w := w' |>)) with (tasks s1) in Hn; unfold vm_of in Hx1; by rewrite Hn in Hx1].
    destruct (Hit x msx Hx1 Hmx1) as (? & ? & ?). auto.
  - intros I HI'. apply S, Hk1, HI'.
Qed.

(** ** Every operation *)
Definition is_switch (o : op) : bool := match o with Yield | Exit _ | Killed => true | _ => false end.

(** What happens to the caller's memory. *)
Definition memory_effect (s : ksystem) (o : op) (r : Z * Z) (s' : ksystem) : Prop :=
  match o with
  | Yield | Getpid | Wait _ => intact s s' (current_task s)
  | Exit _ | Killed => exit_memory s s'
  | Fork => intact s s' (current_task s) /\ exists v ms v' ms', vm_of s (current_task s) = Some v /\ vms s !! v = Some ms /\
      vm_of s' r.1 = Some v' /\ v' <> v /\ vms s' !! v' = Some ms' /\ forall I, sees ms (sys_w s) I -> sees ms' (sys_w s') I
  | Clone _ => vm_of s' r.1 = vm_of s (current_task s) /\ vms s' = vms s /\ sys_w s' = sys_w s
  | Exec ptr => exists path v ms, vm_of s (current_task s) = Some v /\ vms s !! v = Some ms /\ (forall I, sees ms (sys_w s) I -> string_at 255 I ptr path) /\
      match get_app_data_by_name path with
      | None => r.1 = -1 /\ s' = s
      | Some data => r.1 = 0 /\ exists elf ms', elf_new data = Some elf /\ vm_of s' (current_task s) = Some v /\ vms s' !! v = Some ms' /\ sees ms' (sys_w s') (program_image elf)
      end
  | Waitpid pid ptr => exists s1 v ms, waitpid (s64 pid) s = Some (r, s1) /\ vm_of s (current_task s) = Some v /\ vms s !! v = Some ms /\ vms s' !! v = Some ms /\
      forall I, sees ms (sys_w s) I -> sees ms (sys_w s') (puts ptr (i32_bytes r.2) I)
  | Store va b => exists v ms, vm_of s (current_task s) = Some v /\ vms s !! v = Some ms /\ vms s' !! v = Some ms /\ forall I, sees ms (sys_w s) I -> sees ms (sys_w s') (put va b I)
  end.

Definition queue_effect (s : ksystem) (o : op) (s' : ksystem) : Prop :=
  exists new, if is_switch o then current_task s' = hd IDLE_TASK_ID (ready_queue s ++ new) /\ ready_queue s' = tail (ready_queue s ++ new)
  else current_task s' = current_task s /\ ready_queue s' = ready_queue s ++ new.

Lemma sys_op_ok s o : safe s -> may s o -> exists r s', sys_op kroot get_app_data_by_name elf_new o s = Some (r, s') /\ safe s' /\ isolated s s' /\ memory_effect s o r s' /\ queue_effect s o s'.
Proof.
  intros Hs Hm. pose proof (sf_running s Hs) as Rs. destruct o as [|code| | |newsp|ptr|pid ptr|va b| |pid].
  - destruct (yield_safe s Hs) as (s' & E & Hs' & Hi & Hq). exists (0, 0), s'. cbn [sys_op]. unfold sys_yield. rewrite E. split_and!; try done; [by apply intact_isolated|by apply intact_caller|].
    exists (if is_idle (current_task s) then [] else [current_task s]). exact Hq.
  - destruct (exit_safe s (s32 code) Hs Hm) as (s' & E & Hs' & Hi & Ec & Eq & _). exists (0, 0), s'. cbn [sys_op]. unfold sys_exit. rewrite E. split_and!; try done; [by apply exit_isolated|].
    exists []. cbn [is_switch]. by rewrite app_nil_r.
  - assert (Ha : all_intact s s) by (by apply intact_same). exists (sys_getpid s, 0), s. split_and!; try done; [by apply intact_isolated|]. exists []. by rewrite app_nil_r.
  - destruct (fork_safe s Hs Hm) as (s' & E & Hs' & Hi & (L & Eq & Ec) & v & ms & ms' & Hv & Hms & Hne & Hms1 & Hms2 & Hsee). exists (next_pid s, 0), s'. split; [exact E|]. split; [done|]. split; [by apply intact_isolated|].
    split; [|by exists [next_pid s]]. split; [by apply intact_caller|]. exists v, ms, (next_vm s), ms'. split_and!; try done; [unfold vm_of; rewrite L; unfold started; by rewrite decide_True|]. intros I HI. by apply Hsee.
  - destruct (clone_safe s newsp Hs Hm) as (s' & E & Hs' & Hi & (L & Eq & Ec) & Ev & Ew). exists (next_pid s, 0), s'. split; [exact E|]. split; [done|]. split; [by apply intact_isolated|].
    split; [|by exists [next_pid s]]. split_and!; try done. unfold vm_of at 1. rewrite L. unfold started. by rewrite decide_True.
  - destruct (exec_safe s ptr Hs Hm) as (r & s' & path & v & ms & E & Hs' & Hi & Ec & Eq & Hv & Hms & Hstr & Hx). exists (r, 0), s'. split_and!; try done; [by exists path, v, ms|]. exists []. by rewrite app_nil_r.
  - destruct (waitpid_safe s pid ptr Hs Hm) as (r & s1 & s' & v & ms & E & Hs' & Hi & Ec & Eq & Hx). exists r, s'. split_and!; try done; [by exists s1, v, ms|]. exists []. by rewrite app_nil_r.
  - destruct (store_safe s va b Hs Hm) as (s' & v & ms & E & Hs' & Hi & Ec & Eq & Hx). exists (0, 0), s'. cbn [sys_op]. rewrite E. split_and!; try done; [by exists v, ms|]. exists []. by rewrite app_nil_r.
  - destruct Hm as (k & Hk & Hu). assert (Hm : may s (Exit (-1))).
    { exists k. split; [done|]. destruct (caller s k Rs Hk Hu) as [_ Hc]. split; [lia|]. intros E1. rewrite E1 in Hk. destruct (sh_root s (ru_shape s Rs)) as (k' & ? & ? & _). congruence. }
    destruct (exit_safe s (-1) Hs Hm) as (s' & E & Hs' & Hi & Ec & Eq & _). exists (0, 0), s'. cbn [sys_op]. rewrite E. split_and!; try done; [by apply exit_isolated|].
    exists []. cbn [is_switch]. by rewrite app_nil_r.
  - destruct Hm as (k & Hk & _). destruct (wait_safe s pid k Hs Hk) as (r & code & s' & E & Hs' & Hi & Ec & Eq & _). exists (r, code), s'. split_and!; try done; [by apply intact_isolated|by apply intact_caller|].
    exists []. by rewrite app_nil_r.
Qed.

(** ** The start *)
Lemma root_alive s : running s -> exists k, tasks s !! 1 = Some k /\ tk_state k <> Zombie.
Proof. intros [H S _]. destruct (sh_root s H) as (k & Hk & _). exists k. split; [done|]. intros Hz. by destruct (sc_zombie s S 1 k Hk Hz) as (_ & _ & ?). Qed.

Lemma new_kernel_safe s : safe s -> next_pid s < 2 ^ 63 -> exists s', spawn (new_kernel s).1 (new_kernel s).2 = Some s' /\ safe s' /\ next_pid s' = next_pid s + 1 /\ vms s' = vms s /\ sys_w s' = sys_w s.
Proof.
  intros Hs Hp. pose proof (sf_pids s Hs) as Hp1. destruct (root_alive s (sf_running s Hs)) as (kr & Hr & Hz).
  destruct (start_ok s s (new_common <| is_kernel := true |>) 1 kr (sf_running s Hs) Hr Hz) as (s' & Es & R' & L & Eq & Ep & Ec & Ev' & _ & Ew); try done; try lia.
  - split; [done|]. by intros [? ?].
  - intros v. split; [by left|]. by intros [?|?].
  - apply (sh_vms s (ru_shape s (sf_running s Hs))).
  - unfold new_kernel, alloc_task in *. cbn [fst snd] in *. unfold is_root. rewrite (proj2 (Z.eqb_neq _ _)) by lia. cbn [negb]. exists s'. split; [exact Es|].
    split; [apply (safe_same s); try done; rewrite Ep; lia|done].
Qed.

Definition with_root (w : world) : ksystem := mkSys (<[1 := new_common <| is_kernel := true |>]> {[0 := new_idle]}) 2 [1] 0 ∅ 0 w.

Lemma with_root_running w : running (with_root w).
Proof.
  assert (L : forall t k, tasks (with_root w) !! t = Some k -> t = 1 /\ k = new_common <| is_kernel := true |> \/ t = 0 /\ k = new_idle).
  { intros t k. cbn [tasks with_root]. rewrite lookup_insert_Some, lookup_singleton_Some. intros [[<- <-]|[_ [<- <-]]]; auto. }
  assert (L1 : tasks (with_root w) !! 1 = Some (new_common <| is_kernel := true |>)) by done. assert (L0 : tasks (with_root w) !! 0 = Some new_idle) by done.
  split; [| |done]; split.
  - intros t k [[-> _]|[-> _]]%L; cbn; lia.
  - by eexists.
  - by eexists.
  - intros p k c [[-> ->]|[-> ->]]%L ?%elem_of_nil; done.
  - intros p k [[-> ->]|[-> ->]]%L; constructor.
  - intros t k p [[-> ->]|[-> ->]]%L; done.
  - intros t k [[-> _]|[-> _]]%L; auto.
  - intros t k [[-> ->]|[-> ->]]%L; (split; [done|by intros [? ?]]).
  - intros v. cbn [vms with_root]. rewrite lookup_empty. split; [by intros [? ?]|]. intros [t Ht]. unfold vm_of in Ht. destruct (tasks (with_root w) !! t) as [k|] eqn:E; [|done]. apply L in E as [[-> ->]|[-> ->]]; done.
  - intros v. cbn [vms with_root]. rewrite lookup_empty. by intros [? ?].
  - intros t k [[-> ->]|[-> ->]]%L; done.
  - by eexists.
  - repeat constructor. by intros ?%elem_of_nil.
  - intros t. cbn [ready_queue with_root]. rewrite list_elem_of_singleton. split; [intros ->; split; [done|by eexists]|]. intros (Ht & k & [[-> ->]|[-> ->]]%L & _); done.
  - intros t k [[-> ->]|[-> ->]]%L; done.
Qed.

(** The machine when tasks start: [kroot] is in use, the first program is in order
    and there is room for it. *)
Record machine_ok (w : world) (shell : list Z) : Prop := {
  mo_wf : mem_wf (w_mem w);
  mo_free : fla_ok (w_free w);
  mo_kroot : owned (w_free w) kroot;
  mo_shell : exists data elf, get_app_data_by_name shell = Some data /\ elf_new data = Some elf /\ elf_ok elf /\ 5 * load_pages (elf_program elf) + 17 <= available_space (w_free w);
}.

Lemma init_safe w shell : machine_ok w shell -> (forall f, base f <-> owned (w_free w) f) -> total = available_space (w_free w) ->
  exists s, task_init kroot get_app_data_by_name elf_new shell (boot w) = Some s /\ safe s.
Proof.
  intros [Hw Hok Hkr (data & elf & Ed & Ee & He & Hav)] Hb Ht. assert (S0 : safe (with_root w)).
  { split; [apply with_root_running| |cbn; lia|by apply Hb|change (vms (with_root w)) with (∅ : gmap Z MemorySet); unfold used; rewrite map_fold_empty; cbn [sys_w with_root]; lia]. exists (fun _ => ∅), (fun _ => []). cbn [vms sys_w with_root]. split; [| | | |done|done].
    - intros v ms. by rewrite lookup_empty.
    - intros v v' f [? Hv]. by rewrite lookup_empty in Hv.
    - intros f. rewrite Hb. split; [by left|]. intros [?|(v & [? Hv] & _)]; [done|]. by rewrite lookup_empty in Hv.
    - intros v f [? Hv]. by rewrite lookup_empty in Hv. }
  destruct (new_kernel_safe (with_root w) S0 ltac:(cbn; lia)) as (s1 & E1 & S1 & P1 & V1 & W1). change (next_pid (with_root w)) with 2 in P1.
  destruct (new_kernel_safe s1 S1 ltac:(lia)) as (s2 & E2 & S2 & P2 & V2 & W2).
  assert (E : task_init kroot get_app_data_by_name elf_new shell (boot w) = ' (t, s) ← new_user kroot get_app_data_by_name elf_new shell s2; spawn t s).
  { assert (E0 : spawn (new_kernel (boot w)).1 (new_kernel (boot w)).2 = Some (with_root w)) by done. unfold task_init. rewrite (surjective_pairing (new_kernel (boot w))), E0. cbn [mbind option_bind].
    rewrite (surjective_pairing (new_kernel (with_root w))), E1. cbn [mbind option_bind]. rewrite (surjective_pairing (new_kernel s1)), E2. done. }
  rewrite E. unfold new_user. rewrite Ed. cbn [mbind option_bind]. rewrite W2, W1. change (sys_w (with_root w)) with w.
  destruct (new_world elf_new data elf kroot w Ee He Hw Hok Hkr Hav) as (ms0 & w0 & ms & w' & tabs & V & -> & El & H & W & A & _). cbn [mbind option_bind]. rewrite El. cbn [mbind option_bind].
  destruct (root_alive s2 (sf_running s2 S2)) as (kr & Hr & Hz). assert (Ew : sys_w s2 = w) by (by rewrite W2, W1).
  destruct (start_user s2 1 kr ms w' tabs V S2 Hr Hz ltac:(lia) ltac:(lia) H) as (s' & Es & Hs' & _); [by rewrite Ew|by rewrite Ew|].
  unfold alloc_vm, alloc_task in *. cbn [snd] in Es. cbn [mbind option_bind]. change (next_pid (s2 <| vms := _ |> <| next_vm := _ |> <| sys_w := _ |>)) with (next_pid s2) in *.
  exists s'. split; [exact Es|done].
Qed.

(** ** Runs *)
Fixpoint run (os : list op) (s : ksystem) : option ksystem :=
  match os with [] => Some s | o :: os => ' (_, s) ← sys_op kroot get_app_data_by_name elf_new o s; run os s end.

Fixpoint may_run (os : list op) (s : ksystem) : Prop :=
  match os with [] => True | o :: os => may s o /\ forall r s', sys_op kroot get_app_data_by_name elf_new o s = Some (r, s') -> may_run os s' end.

Definition reachable (w : world) (shell : list Z) (s : ksystem) : Prop :=
  exists s0 os, task_init kroot get_app_data_by_name elf_new shell (boot w) = Some s0 /\ may_run os s0 /\ run os s0 = Some s.

Lemma run_safe os : forall s, safe s -> may_run os s -> exists s', run os s = Some s' /\ safe s'.
Proof.
  induction os as [|o os IH]; intros s Hs Hm; cbn [run may_run] in *; [eauto|]. destruct Hm as [Ho Hm].
  destruct (sys_op_ok s o Hs Ho) as (r & s1 & E & Hs1 & _). rewrite E. cbn [mbind option_bind]. apply IH; [done|]. by apply (Hm r).
Qed.

Lemma run_queue os : forall s i t o, safe s -> ready_queue s !! i = Some t -> length (List.filter is_switch os) = i -> is_switch o = true -> may_run (os ++ [o]) s ->
  exists s', run (os ++ [o]) s = Some s' /\ current_task s' = t.
Proof.
  induction os as [|o1 os IH]; intros s i t o Hs Hi Hl Ho Hm; cbn [run may_run app] in *; destruct Hm as [Hm1 Hm].
  - destruct (sys_op_ok s o Hs Hm1) as (r & s1 & E & _ & _ & _ & new & Hq). rewrite E. cbn [mbind option_bind]. exists s1. split; [done|]. rewrite Ho in Hq. destruct Hq as [-> _].
    cbn in Hl. subst i. by destruct (ready_queue s); [|injection Hi as ->].
  - destruct (sys_op_ok s o1 Hs Hm1) as (r & s1 & E & Hs1 & _ & _ & new & Hq). rewrite E. cbn [mbind option_bind]. specialize (Hm r s1 E). cbn [List.filter] in Hl.
    destruct (is_switch o1); destruct Hq as [_ Eq].
    + cbn [length] in Hl. subst i. apply (IH s1 (length (List.filter is_switch os)) t o Hs1); try done. rewrite Eq. destruct (ready_queue s) as [|x q]; [done|]. cbn in *. by apply lookup_app_l_Some.
    + apply (IH s1 i t o Hs1); try done. rewrite Eq. by apply lookup_app_l_Some.
Qed.
End runs.

Lemma reachable_safe kroot app elf_new w shell s : machine_ok kroot app elf_new w shell -> reachable kroot app elf_new w shell s ->
  safe kroot (owned (w_free w)) (available_space (w_free w)) s.
Proof.
  intros Hm (s0 & os & E & Hr & Hs). destruct (init_safe kroot app elf_new (owned (w_free w)) (available_space (w_free w)) w shell Hm) as (s1 & E1 & H1); [done..|].
  assert (s1 = s0) as -> by congruence. destruct (run_safe kroot app elf_new _ _ os s0 H1 Hr) as (s' & E' & H'). by assert (s' = s) as -> by congruence.
Qed.
