(* ===== verification/ProcessFacts.v ===== *)
(** * Processes

    The theorems on tasks: from the start of the kernel on, no run panics and no
    frame is lost, memory is private, children are reaped once with their exit
    code, and the queue is fair. *)
From S2P Require Import Prelude Cpu Machine Mem Mmu MmuFacts Paging PagingTree PagingFacts Aspace Uaccess Regions Spaces Loading AspaceFacts Task TaskFacts TaskSpaces UserMem TaskRuns.

#[local] Opaque st ld Z.to_nat.

(** C15. The kernel's tasks run without a panic and lose no frame.  From a machine
    with a first program in order, [task::init] succeeds; and from there every
    sequence of yields, exits, forks, clones, execs and waits, and of writes of
    programs to their memory in between, by whatever tasks the scheduler picks,
    runs to its end: none of the assertions on states and on reference counts
    fails, as long as the callers keep to what the code takes for granted (user
    tasks, memory enough, programs in order, [exec] only when memory is not
    shared, pointers to memory that is mapped).  At the end exactly the current task is
    running, the ready queue has every ready task once, parents and lists of
    children agree, and the free frames and those of the address spaces are
    together the frames that were free before. *)
Theorem tasks_run (kroot : Z) (get_app_data_by_name : list Z -> option (list Z)) (elf_new : list Z -> option ElfFile) (w : world) (shell : list Z) :
  machine_ok kroot get_app_data_by_name elf_new w shell ->
  exists s0, task_init kroot get_app_data_by_name elf_new shell (boot w) = Some s0 /\
  forall os, may_run kroot get_app_data_by_name elf_new os s0 ->
  exists s, run kroot get_app_data_by_name elf_new os s0 = Some s /\ running s /\ available_space (w_free (sys_w s)) + used (vms s) = available_space (w_free w).
Proof.
  intros Hm. destruct (init_safe kroot get_app_data_by_name elf_new (owned (w_free w)) (available_space (w_free w)) w shell Hm) as (s0 & E & Hs); [done..|].
  exists s0. split; [done|]. intros os Hr. destruct (run_safe _ _ _ _ _ os s0 Hs Hr) as (s & Er & Hs'). exists s. split; [done|]. split; apply Hs'.
Qed.

(** C16. The memory of a process is its own.  In every state that the start and the
    system calls of programs that also write to their memory lead to, and
    whatever the current task does next: a task that does not share the caller's
    memory keeps its address space, and the processor sees there what it saw
    before, unless that task had ended and is reaped.  For the caller: yielding,
    asking for its number and waiting in the kernel change nothing; its own write
    of a byte is seen at that address and nowhere else; [sys_waitpid] writes the
    exit code and nothing else; after a fork parent and child have different
    address spaces that look like the parent's did; a clone shares its parent's;
    [sys_exec] reads as the name the string the program sees, after it the caller
    sees the image of the new program and nothing else, and when there is no such
    program nothing has changed; when a task ends, memory that no thread shares
    is empty, and what a thread shares stays as it is. *)
Theorem process_memory (kroot : Z) (get_app_data_by_name : list Z -> option (list Z)) (elf_new : list Z -> option ElfFile) (w : world) (shell : list Z) (s : ksystem) (o : op) :
  machine_ok kroot get_app_data_by_name elf_new w shell -> reachable kroot get_app_data_by_name elf_new w shell s -> may get_app_data_by_name elf_new s o ->
  exists r s', sys_op kroot get_app_data_by_name elf_new o s = Some (r, s') /\ isolated s s' /\ memory_effect get_app_data_by_name elf_new s o r s'.
Proof.
  intros Hm Hr Ho. destruct (sys_op_ok kroot get_app_data_by_name elf_new _ _ s o (reachable_safe _ _ _ _ _ _ Hm Hr) Ho) as (r & s' & E & _ & Hi & He & _). eauto.
Qed.

(** C17. [waitpid] gives a child that has ended to its parent, once.  In every state
    the kernel reaches, for the current task: the answer is -1 just when no
    child matches; -2 when some do and none of them has ended; else the number
    and the exit code of the first in the list that has.  That task is gone
    from the table and from the list, no other task has changed, the assertion
    that no one else holds it is true, and its memory is gone unless a thread
    still has it. *)
Theorem wait_reaps (kroot : Z) (get_app_data_by_name : list Z -> option (list Z)) (elf_new : list Z -> option ElfFile) (w : world) (shell : list Z) (s : ksystem) (pid : Z) :
  machine_ok kroot get_app_data_by_name elf_new w shell -> reachable kroot get_app_data_by_name elf_new w shell s ->
  exists k r code s', tasks s !! current_task s = Some k /\ waitpid pid s = Some ((r, code), s') /\ wait_answer s pid (tk_children k) r code s'.
Proof.
  intros Hm Hr. pose proof (reachable_safe _ _ _ _ _ _ Hm Hr) as Hs. destruct (sc_current s (ru_sched s (sf_running _ _ _ s Hs))) as [k Hk].
  destruct (wait_safe _ _ _ s pid k Hs Hk) as (r & code & s' & E & _ & _ & _ & _ & Ha). exists k, r, code, s'. done.
Qed.

(** C18. The scheduler is fair.  A task with [i] tasks before it in the ready queue
    runs after [i + 1] yields or exits, by whatever tasks they are and whatever
    else those tasks do in between: new tasks queue up behind it. *)
Theorem round_robin (kroot : Z) (get_app_data_by_name : list Z -> option (list Z)) (elf_new : list Z -> option ElfFile) (w : world) (shell : list Z) (s : ksystem) (i : nat) (t : Z) (os : list op) (o : op) :
  machine_ok kroot get_app_data_by_name elf_new w shell -> reachable kroot get_app_data_by_name elf_new w shell s ->
  ready_queue s !! i = Some t -> length (List.filter is_switch os) = i -> is_switch o = true -> may_run kroot get_app_data_by_name elf_new (os ++ [o]) s ->
  exists s', run kroot get_app_data_by_name elf_new (os ++ [o]) s = Some s' /\ current_task s' = t.
Proof. intros Hm Hr Hi Hl Ho Hmay. eapply run_queue; eauto. by eapply reachable_safe. Qed.

(** ** Examples *)
Definition ex_shell : list Z := [0x73; 0x68].
Definition ex_app (path : list Z) : option (list Z) := if bool_decide (path = ex_shell) then Some [] else None.
Definition ex_elf_new (_ : list Z) : option ElfFile := Some ex_elf.

Lemma ex_machine_ok : machine_ok ex_kroot ex_app ex_elf_new ex_kworld ex_shell.
Proof.
  destruct ex_kworld_ok as (Hw & Hf & Ho). split; [done..|]. exists [], ex_elf. split_and!; try done. apply ex_elf_ok.
Qed.

(** [may] as a test, but for [exec]. *)
Definition own_ms (s : ksystem) (k : Task) : option MemorySet := v ← tk_vm k; vms s !! v.
Definition mayb (s : ksystem) (o : op) : bool :=
  match tasks s !! current_task s with
  | None => false
  | Some k =>
      match o with
      | Yield | Getpid | Wait _ => true
      | Exit _ => negb (current_task s =? 0) && negb (current_task s =? 1)
      | Fork => negb (is_kernel k) && (next_pid s <? 2 ^ 63) && match own_ms s k with Some ms => 1 + 5 * set_pages ms <=? available_space (w_free (sys_w s)) | None => false end
      | Clone newsp => negb (is_kernel k) && (next_pid s <? 2 ^ 63) && bool_decide (is_Some (VirtAddr_new newsp))
      | Exec _ => false
      | Killed => negb (is_kernel k)
      | Waitpid _ ptr => negb (is_kernel k) && (ptr mod 4 =? 0) && match own_ms s k with Some ms => bool_decide (is_Some (write_i32 ms ptr 0 (sys_w s))) | None => false end
      | Store va b => negb (is_kernel k) && (0 <=? va) && (va <? 2 ^ 47) && (0 <=? b) && (b <? 256) && match own_ms s k with Some ms => bool_decide (is_Some (vm_write by_user ms va b (sys_w s))) | None => false end
      end
  end.

Lemma mayb_may app elf_new s o : mayb s o = true -> may app elf_new s o.
Proof.
  unfold mayb, may. destruct (tasks s !! current_task s) as [k|]; [|done]. intros H. exists k. split; [done|].
  assert (Hown : forall v ms, tk_vm k = Some v -> vms s !! v = Some ms -> own_ms s k = Some ms) by (intros v ms Hv Hm; unfold own_ms; by rewrite Hv).
  destruct o; try done; rewrite ?andb_true_iff, ?negb_true_iff, ?Z.eqb_neq, ?Z.ltb_lt, ?Z.leb_le, ?Z.eqb_eq in H; destruct_and?; split_and?; try done; try (eapply bool_decide_eq_true_1; eassumption);
    intros v ms Hv Hm; rewrite (Hown v ms Hv Hm) in *; (by apply Z.leb_le) || (eapply bool_decide_eq_true_1; eassumption).
Qed.

Fixpoint checked (os : list op) (s : ksystem) : option ksystem :=
  match os with [] => Some s | o :: os => if mayb s o then ' (_, s) ← sys_op ex_kroot ex_app ex_elf_new o s; checked os s else None end.

Lemma checked_run os : forall s s', checked os s = Some s' -> may_run ex_kroot ex_app ex_elf_new os s /\ run ex_kroot ex_app ex_elf_new os s = Some s'.
Proof.
  induction os as [|o os IH]; intros s s' H; cbn [checked may_run run] in *; [done|]. destruct (mayb s o) eqn:Ho; [|done]. apply (mayb_may ex_app ex_elf_new) in Ho.
  destruct (sys_op ex_kroot ex_app ex_elf_new o s) as [[r s1]|]; [|done]. cbn [mbind option_bind] in *. destruct (IH s1 s' H) as [Hm Hr]. split; [|done]. split; [done|]. by intros r' s'' [= <- <-].
Qed.

Definition ex_start : option ksystem := task_init ex_kroot ex_app ex_elf_new ex_shell (boot ex_kworld).

Lemma ex_reachable os s : (s0 ← ex_start; checked os s0) = Some s -> reachable ex_kroot ex_app ex_elf_new ex_kworld ex_shell s.
Proof.
  unfold ex_start. destruct (task_init ex_kroot ex_app ex_elf_new ex_shell (boot ex_kworld)) as [s0|] eqn:E; [|done]. cbn [mbind option_bind]. intros [Hm Hr]%checked_run. exists s0, os. split; [exact E|]. split; assumption.
Qed.

#[local] Opaque task_init run checked sys_op waitpid.

Lemma fmap_some_inv {A B} (f : A -> B) x y : f <$> x = Some y -> exists a, x = Some a /\ f a = y.
Proof. intros (a & -> & ->)%fmap_Some. eauto. Qed.

(** The shell forks; the child exits, and the shell waits for it. *)
Definition ex_ops : list op := [Yield; Yield; Exit 0; Exit 0; Fork; Yield; Yield; Exit 3].

Lemma tasks_run_witness : exists s0 s, ex_start = Some s0 /\ run ex_kroot ex_app ex_elf_new (ex_ops ++ [Wait (-1); Wait (-1)]) s0 = Some s /\ running s /\
  available_space (w_free (sys_w s)) + used (vms s) = 47 /\ current_task s = 4 /\ available_space (w_free (sys_w s)) = 35.
Proof.
  destruct (tasks_run ex_kroot ex_app ex_elf_new ex_kworld ex_shell ex_machine_ok) as (s0 & E & Hr). exists s0. fold ex_start in E.
  assert (H : (fun s => (current_task s, available_space (w_free (sys_w s)))) <$> (s0 ← ex_start; checked (ex_ops ++ [Wait (-1); Wait (-1)]) s0) = Some (4, 35)) by (vm_compute; reflexivity).
  apply fmap_some_inv in H as (s & Hs & [= Hc Ha]). rewrite E in Hs. cbn [mbind option_bind] in Hs. apply checked_run in Hs as [Hm Hs].
  destruct (Hr _ Hm) as (s' & Hs' & R & T). assert (s' = s) as -> by congruence. exists s. split_and!; try done.
Defined.

(** The shell writes to its stack and forks: the child sees what was written. *)
Lemma process_memory_witness : exists s r s' ms ms', reachable ex_kroot ex_app ex_elf_new ex_kworld ex_shell s /\ sys_op ex_kroot ex_app ex_elf_new Fork s = Some (r, s') /\ r.1 = 5 /\
  vms s !! 0 = Some ms /\ vm_read ms (sys_w s) 0x7ffeffffff00 = Some 0x73 /\ vms s' !! 1 = Some ms' /\ forall I, sees ms (sys_w s) I -> sees ms' (sys_w s') I.
Proof.
  assert (H : (fun s => (mayb s Fork, vm_of s (current_task s), vms s !! 0 ≫= (fun ms => vm_read ms (sys_w s) 0x7ffeffffff00), (fun x => (x.1.1, vm_of x.2 5)) <$> sys_op ex_kroot ex_app ex_elf_new Fork s)) <$>
    (s0 ← ex_start; checked [Yield; Yield; Exit 0; Exit 0; Store 0x7ffeffffff00 0x73] s0) = Some (true, Some 0, Some 0x73, Some (5, Some 1))) by (vm_compute; reflexivity).
  apply fmap_some_inv in H as (s & Hr%ex_reachable & [= Hm Hv Hb Hx]).
  destruct (process_memory ex_kroot ex_app ex_elf_new ex_kworld ex_shell s Fork ex_machine_ok Hr (mayb_may _ _ _ _ Hm)) as (r & s' & E & _ & _ & v & ms & v' & ms' & Ev & Em & Ev' & _ & Em' & Hs).
  rewrite E in Hx. cbn in Hx. injection Hx as Hx1 Hx2. exists s, r, s', ms, ms'. rewrite Hx1 in Ev'. assert (v = 0) as -> by congruence. assert (v' = 1) as -> by congruence. rewrite Em in Hb. split_and!; try done.
Defined.

Lemma wait_reaps_witness : exists s k r code s', reachable ex_kroot ex_app ex_elf_new ex_kworld ex_shell s /\ tasks s !! current_task s = Some k /\ tk_children k = [5] /\
  waitpid (-1) s = Some ((r, code), s') /\ wait_answer s (-1) (tk_children k) r code s' /\ r = 5 /\ code = 3.
Proof.
  assert (H : (fun s => (tk_children <$> tasks s !! current_task s, fst <$> waitpid (-1) s)) <$> (s0 ← ex_start; checked ex_ops s0) = Some (Some [5], Some (5, 3))) by (vm_compute; reflexivity).
  apply fmap_some_inv in H as (s & Hr%ex_reachable & [= Hc Hw]).
  destruct (wait_reaps ex_kroot ex_app ex_elf_new ex_kworld ex_shell s (-1) ex_machine_ok Hr) as (k & r & code & s' & Hk & E & Ha).
  exists s, k, r, code, s'. rewrite Hk in Hc. rewrite E in Hw. injection Hc as Hc. injection Hw as Hw1 Hw2. split_and!; done.
Defined.

Lemma round_robin_witness : exists s s', reachable ex_kroot ex_app ex_elf_new ex_kworld ex_shell s /\ ready_queue s = [2; 3; 4] /\
  run ex_kroot ex_app ex_elf_new [Wait (-1); Yield; Exit 0; Exit 0] s = Some s' /\ current_task s' = 4.
Proof.
  assert (H : (fun s => (ready_queue s, bool_decide (is_Some (checked [Wait (-1); Yield; Exit 0; Exit 0] s)))) <$> (s0 ← ex_start; checked [Yield] s0) = Some ([2; 3; 4], true)) by (vm_compute; reflexivity).
  apply fmap_some_inv in H as (s & Hr%ex_reachable & [= Hq Hm]). apply bool_decide_eq_true_1 in Hm as [s1 [Hm _]%checked_run].
  destruct (round_robin ex_kroot ex_app ex_elf_new ex_kworld ex_shell s 2 4 [Wait (-1); Yield; Exit 0] (Exit 0) ex_machine_ok Hr) as (s' & E & Ec); [by rewrite Hq|done|done|exact Hm|].
  exists s, s'. done.
Defined.

(** A thread that shares memory and calls [exec] stops the kernel, and so do a
    clone with a stack outside the canonical addresses, a name that is not UTF-8,
    and an exit code for a page that is read-only. *)
Example clone_exec_panics : let go os := bool_decide (is_Some (s0 ← ex_start; run ex_kroot ex_app ex_elf_new ([Yield; Yield; Exit 0; Exit 0] ++ os) s0)) in
  let name := [Store 0x7ffeffffff00 0x73; Store 0x7ffeffffff01 0x68] in
  (go (name ++ [Clone 0x400800; Exec 0x7ffeffffff00]), go [Clone 0x800000000000], go [Store 0x7ffeffffff00 0xff; Exec 0x7ffeffffff00], go [Waitpid (-1) 0x400010],
   go [Clone 0x400800], go (name ++ [Exec 0x7ffeffffff00]), go [Waitpid (-1) 0x7ffeffffff00]) = (false, false, false, false, true, true, true).
Proof. vm_compute. reflexivity. Qed.
